(* ===== verification/_CoqProject ===== *)
-Q . S2P
Prelude.v
Mem.v
CString.v
RingBuffer.v
Pmm.v
Alloc.v
Heap.v
Blk.v
Ports.v
Ata.v
Ufs.v
UfsSpec.v
Memfs.v
Users.v
UfsRights.v
Thread.v
Pipe.v
Video.v
Keyboard.v
Fd.v
Vmm.v
VmmSpec.v
VmmFrame.v
Fs.v
Elf.v
VmmStack.v
VmmSpace.v
VmmInit.v
Process.v
ProcessSpec.v
ProcessRun.v
Syscall.v
Abi.v
SyscallSpec.v
Lang.v
LangSpec.v
LangRun.v
Trap.v
Edit.v
EditSpec.v
Usys.v
Sh.v
ShSpec.v
Programs.v
Shell.v
ShellSpec.v
ShellLine.v
Boot.v
Machine.v
Start.v
