(* ===== verification/Prelude.v ===== *)
(** * MiniKernel: a verification library

    MiniKernel (under [src/]) is a 64-bit x86 kernel with paging, pre-emptive
    round-robin threads, user processes in ring 3, two file systems on an ATA disk, a
    file system in memory, pipes, accounts, a text console, and user programs.  This
    library translates its C code into Rocq functions and proves what the code relies
    on and promises.  This file is the root: it documents the whole and holds the
    notation, tactics, loop rules and array lemmas that the components share.

    ** How the program fits together

    Memory.  [kernel/mm/e820.c] reads the BIOS map; [kernel/mm/pmm.c] hands out 4 KB
    frames from a bitmap; [kernel/mm/heap.c] builds a first-fit list of blocks on
    frames; [kernel/mm/vmm.c] keeps the four-level page tables in frames, and
    [kernel/mm/vmm_growable_stack.c] maps user stack pages at the first touch.
    Execution.  [kernel/sched/thread.c] keeps the thread table (grown through the heap),
    switches on the timer tick, and puts threads to sleep on channels;
    [kernel/core/process.c] keeps parents, exit statuses and address spaces on top of
    it, and [kernel/core/elf/] loads programs.  Files.  [kernel/core/ufs.c] (writable),
    [kernel/core/fs.c] (programs) work on disk sectors, [kernel/core/memfs.c] on the
    heap; [kernel/core/pipe.c] blocks through the scheduler, the keyboard through its
    ring buffer [kernel/lib/ring_buffer.c]; [kernel/core/fd.c] puts all of them behind
    descriptors, and [kernel/core/users.c] keeps the accounts in a file of ufs.c.
    [kernel/core/syscall.c] is the only door for the user programs under [programs/]:
    a shell, a login program, an editor, a script interpreter and small ones.
    Hardware.  [kernel/arch/x86_64/gdt.c] and [idt.c] build the tables through which
    the processor enters the kernel; [exceptions.c] and [kernel/core/panic.c] decide
    what a fault means, [irq.c] dispatches interrupts; [kernel/drivers/ata.c] moves
    sectors through ports, [serial.c] carries the log.

    ** The files

    - [Mem]: physical memory, a total map from addresses to bytes, with 64-bit loads
      and stores; equality of memories is the setoid [mem_equiv].
    - [CString]: C strings and little-endian fields, as the sources copy them about.
    - [RingBuffer]: [kernel/lib/ring_buffer.c].
    - [Pmm]: [kernel/mm/e820.c] and [kernel/mm/pmm.c]; the state [pmm] is the bitmap,
      the counters and the hint.
    - [Alloc]: the classes [Allocator] and [AllocatorLaws], what a heap promises.
    - [Heap]: [kernel/mm/heap.c] over [Pmm] and [Mem]; the instance of [Alloc].
    - [Blk]: the classes [BlockDev] and [BlockDevLaws], what a disk promises, and
      [memdisk], an instance.
    - [Ports]: input and output ports (the class [PortIO]) and the drivers that need no
      more: [kernel/drivers/serial.c], [pic.c], [pit.c], [kernel/core/klog.c], [power.c].
    - [Ata]: [kernel/drivers/ata.c] over [PortIO], the protocol of the controller (the
      class [AtaController]), and the instance of [Blk] they make.
    - [Ufs], [UfsSpec]: [kernel/core/ufs.c] over any block device.
    - [Memfs]: [kernel/core/memfs.c] over any allocator.
    - [Users]: [kernel/core/users.c] over [Ufs].
    - [UfsRights]: what the operations of [Ufs] and [Users] leave of the entries of files.
    - [Thread]: [kernel/sched/thread.c] over the class [SchedEnv] (heap, frames, page
      tables, context switch).
    - [Pipe]: [kernel/core/pipe.c].
    - [Video]: [kernel/drivers/video.c].
    - [Keyboard]: [kernel/drivers/keyboard/].
    - [Fd]: [kernel/core/fd.c] over the scheduler, pipes, keyboard, console and files.
    - [Vmm], [VmmSpec], [VmmFrame]: [kernel/mm/vmm.c] over [Pmm] and [Mem], the page
      walk of the processor, and what paging leaves alone.
    - [Fs]: [kernel/core/fs.c] over any block device.
    - [Elf]: [kernel/core/elf/] over [Vmm].
    - [VmmStack]: [kernel/mm/vmm_growable_stack.c] over [Vmm] and [Heap].
    - [VmmSpace]: the life of an address space over [Vmm], [Elf] and [VmmStack];
      [VmmInit]: the start of paging.
    - [Process], [ProcessSpec], [ProcessRun]: [kernel/core/process.c] and the end of a
      thread in thread.c, over the class [ProcEnv]; runs of the process table.
    - [Syscall], [SyscallSpec]: [kernel/core/syscall.c], all 24 calls.
    - [Abi]: [programs/syscall.h], the registers of each call, against [Syscall].
    - [Lang], [LangSpec], [LangRun]: [programs/lang.c], its expressions and scripts.
    - [Trap]: [kernel/arch/x86_64/gdt.c], [idt.c], [exceptions.c], [irq.c],
      [kernel/core/panic.c] and [kernel/drivers/timer.c]; the tables are bytes, read
      as the processor reads them.
    - [Edit], [EditSpec]: [programs/edit.c] over the file calls (the class [FileCalls],
      with the laws [FileLaws]), the keyboard a list and the screen a log.
    - [Usys]: user programs as interaction trees over the calls of [syscall.h]; the
      predicate [safe] for what they do whatever the answers are, and their runs
      against a console and files ([runs], executable as [run]).
    - [Sh], [ShSpec]: [programs/sh.c].
    - [Programs]: the other programs: login.c, whoami.c, meminfo.c, memtest.c, hello.c,
      produce.c, upper.c, spin.c and test.c.
    - [Shell], [ShellSpec], [ShellLine]: [kernel/core/shell/], the shell of the kernel
      over the whole kernel of [Syscall]: its commands, its self tests, its line.
    - [Boot]: [kernel/core/main.c], the order in which the components are set up.
    - [Machine]: the environment classes filled with [Pmm], [Heap], [Vmm], [Elf] and
      [VmmStack] on one memory, [kernel/arch/x86_64/context_switch.asm].
    - [Start]: the start of [Boot] on that memory.

    Definitions carry the names of the C functions, records those of the structs.  A
    component's static variables are a Record that its functions take and return;
    failing calls return the C code's value, and [option] is used for a loop out of
    fuel and for a lookup that the code answers with a null pointer.

    ** Conventions

    An integer of width w is a [Z] in range; [u8] to [u64], [s8] to [s64] write the wrap
    out where the arithmetic can leave the range, and [x +64 y] and the like are the
    wrapping operations.  Arrays are lists, [l.[i]] and [l.[i <- v]]; the code's own
    bounds checks are in the models, and the invariants show that indices stay in
    range.  Loops are [for_range], [for_each], [find_first] (bounded by their limits),
    [while_loop] and [while_pos] (with fuel, unary or binary).

    Atomicity.  System calls and interrupt handlers run through interrupt gates, so
    interrupts are off in them; the code between [irq_save] and [irq_restore] is atomic
    for the same reason, and there is one processor.  Hence a call is one step of the
    models, and a blocking call is a sequence of turns: each turn ends by putting the
    thread to sleep, and the call is entered again when it wakes.  The interleavings
    are explicit lists of steps ([Pipe], [Keyboard], [Fd], [ProcessRun]).

    ** Fuel

    - [HEAP_FUEL], [REGION_FUEL] (2^32): a block or a region is at least 24 bytes of
      distinct frames and there are at most 2^20 frames; the totality theorems of
      [Heap] and [VmmStack] show that walks end.
    - [LOAD_FUEL] (2^20 + 2): each page of a segment takes a frame.
    - [RANGE_FUEL] (2^52 + 1): a range that does not wrap has at most 2^52 pages.
    - [double_until] (33): doublings of a 32-bit capacity.
    - [parse_fuel] (4n + 4): each turn of the parser reads one of the n characters, and
      three calls lie between two parentheses.
    - The disk driver needs none: its loop has its own limit of 10^6 readings.
    - The serial driver polls without a limit; its fuel is a parameter, and a line that
      is ready again within that many readings ([Uart]) lets every call return.
    - The editor's loops have one turn more than there are keys left.
    - [PRIME_FUEL] (2^32): the trial divisors up to the root of the largest argument for
      which is_prime of test.c does not overflow.
    - The shell and the login program run for ever; they are interaction trees and need
      no fuel, and their theorems are about every finite beginning of a run.
    - [STEP_FUEL] (2000002): the interpreter's own step limit, and the turn after it.

    Each is enough because a theorem says so: results are proved to exist, never
    assumed.

    ** What the theorems show

    - Frames and heap: [Pmm] allocates exactly free frames and keeps its counter exact
      in every reachable state; [Heap] allocates disjoint payloads through any sequence
      of calls, and coalesces.
    - Paging: [VmmSpec] relates the code to the page walk of the processor: mapping and
      unmapping change the translation of exactly one page, also when a large page has
      to be split, and the queries answer as the walk does.  [Elf] and [VmmStack] show
      that a program's segments and stack land in its own user pages only.  [VmmInit]
      shows that the start maps usable memory to itself and moves nothing; [VmmSpace]
      that a space gives a program only frames of its own, whatever pages are loaded into
      the slots the kernel does not use, and that its destruction returns all of them
      but those that a failing load or a load over a page has lost.
    - Files: [UfsSpec] keeps directory, extents and disk consistent over every sequence
      of operations and through a remount, for writes in range ([write_in_range] leaves
      out the two on which the code breaks); [Memfs] the same over the heap; [Fd] keeps
      other users away from protected files.
    - Scheduling: [Thread] gives every runnable thread its turn within a bounded number
      of ticks; sleeping and waking lose nothing; [Pipe] and [Keyboard] are bounded
      queues under every interleaving; [ProcessRun] delivers every exit status to the
      waiting parent.
    - The boundary: [SyscallSpec] shows that whatever pointers a program passes, a call
      stores only where the program could store itself, that only a root caller adds
      accounts, that a uid changes only by a password, and that no file loses its entry,
      name, owner or permission bits but by a call of its owner that asks for it.
    - Scripts: [LangSpec] and [LangRun] give the script language a grammar and a
      meaning, and show that the interpreter implements them and always stops.

    - Hardware: [Trap] shows that the bytes of both tables mean to the processor what
      the code intends, and that programs can enter by vector 128 only; [Ata] that the
      driver, over a controller that keeps to the protocol, is the block device that
      the file systems assume, and that every wait for a drive, dead or not, ends within
      10^6 readings; [Ports] what the log sends.
    - The editor: [EditSpec] gives its commands a meaning on documents and shows that
      typing them does that, that other files stay as they are, and that changes to
      a file that may be written are dropped only when [!] asks for it.
    - The other programs: [ShSpec] shows that the shell keeps to a protocol of
      descriptors and children whatever the system answers, and that a session with
      files does what was typed; [Programs] that the login program starts a shell only
      after a login that succeeded; [Abi] that user side and kernel agree on every call.
    - The kernel shell: [ShellSpec] shows that its two self tests of the file system
      print PASS on every line and what they leave on the disk; [ShellLine] that Enter
      runs exactly the line that was typed, whatever older lines left in the buffer.
    - The start: [Boot] shows that the kernel reaches the prompt with the invariant of
      every component established and its log written, that a fresh disk gets the two
      standard accounts, and that the disk of an earlier run gives its files back;
      [Machine] shows that the context switch loses nothing; [Start] discharges what
      [Boot] assumes of memory on one that the components share, and shows that frames,
      page tables and heap are sound there when the prompt is reached.

    ** Assumptions

    The controllers of the disk and of the serial line ([AtaController], [Uart]: their
    documented behaviour at the ports), the block device (any disk that reads back what
    was written and reports failure; [Ata] is one), the file calls of the editor
    and of the shell ([FileLaws]: a file reads back what was written to it; the class knows
    no limit on names, on the number of files and on sectors below its [fl_limit], which
    [Ufs] has: 19 characters, 64 files and the disk),
    and the environment of the scheduler and of the process table where the calls into
    the heap, the page tables and the context switch are kept abstract ([SchedEnv],
    [ProcEnv], [SysEnv], [ShellEnv], [BootEnv]; [answers] says that the loops in them
    end; [Machine] has the instances that the source makes of them).  [Board]: the timer
    and the interrupt controller do not answer at the ports of the serial line.  The two
    file systems of the disk occupy disjoint sectors and each has its own copy of the device
    in the model.  Concrete instances run in the witnesses.

    ** Not modelled

    - Assembly ([bootloader/], [kernel/arch/x86_64/*.asm]) but the context switch: what
      the C code gets from it, the registers of an interrupt, the memory map and the
      tables of the boot loader, are arguments.
    - The calls of [kernel/core/klog.c] in the other components: text on the serial
      port that no code reads back ([Trap] keeps those of the panics, [Boot] its own).
    - The bodies of the two demonstration threads of [shell_cmd_thread.c], endless loops
      that print a letter.
    - [programs/fault_test.c], a division by zero, which C leaves undefined.
    - The TLB (an [invlpg] has no state to change here). *)
From Stdlib Require Export ZArith Lia.
From stdpp Require Export base list list_numbers gmap numbers.

#[global] Open Scope Z_scope.

(** * Machine integers

    A C integer is a [Z] kept in the range of its type.  Arithmetic that can
    leave the range is wrapped explicitly, at the width the source uses. *)

Definition u8 (x : Z) : Z := x mod 256.
Definition u16 (x : Z) : Z := x mod 65536.
Definition u32 (x : Z) : Z := x mod 4294967296.
Definition u64 (x : Z) : Z := x mod 18446744073709551616.
Definition s8 (x : Z) : Z := (x + 128) mod 256 - 128.
Definition s16 (x : Z) : Z := (x + 32768) mod 65536 - 32768.
Definition s32 (x : Z) : Z := (x + 2147483648) mod 4294967296 - 2147483648.
Definition s64 (x : Z) : Z :=
  (x + 9223372036854775808) mod 18446744073709551616 - 9223372036854775808.

#[global] Arguments u8 : simpl never.
#[global] Arguments u16 : simpl never.
#[global] Arguments u32 : simpl never.
#[global] Arguments u64 : simpl never.
#[global] Arguments s8 : simpl never.
#[global] Arguments s16 : simpl never.
#[global] Arguments s32 : simpl never.
#[global] Arguments s64 : simpl never.

(** [~0ULL] *)
Definition U64_MAX : Z := 18446744073709551615.

(** C truth values: a comparison yields 0 or 1. *)
Definition c_bool (b : bool) : Z := if b then 1 else 0.

(** Reading an integer array out of range gives 0 (stdpp's default is 1). *)
#[export] Instance Z_zero_inhabited : Inhabited Z | 0 := populate 0.

Declare Scope c_scope.
Delimit Scope c_scope with c.
Notation "x +64 y" := (u64 (x + y)) (at level 50, left associativity) : c_scope.
Notation "x -64 y" := (u64 (x - y)) (at level 50, left associativity) : c_scope.
Notation "x *64 y" := (u64 (x * y)) (at level 40, left associativity) : c_scope.
Notation "x +32 y" := (u32 (x + y)) (at level 50, left associativity) : c_scope.
Notation "x -32 y" := (u32 (x - y)) (at level 50, left associativity) : c_scope.
Notation "x *32 y" := (u32 (x * y)) (at level 40, left associativity) : c_scope.
Notation "l .[ i ]" := (l !!! Z.to_nat i)
  (at level 1, left associativity, format "l .[ i ]") : c_scope.
Notation "l .[ i <- v ]" := (<[Z.to_nat i := v]> l)
  (at level 1, left associativity, format "l .[ i <- v ]") : c_scope.
#[global] Open Scope c_scope.

(** * Tactics *)

(** [lia] after turning every division and remainder by a constant into its
    defining equations. *)
Ltac div_lia := Z.to_euclidean_division_equations; lia.

(** Case analysis on the boolean tests of the goal, turning each into the
    proposition it decides. *)
Ltac bool_prop :=
  repeat match goal with
    | H : _ && _ = true |- _ => apply andb_prop in H as [? ?]
    | H : negb _ = true |- _ => apply negb_true_iff in H
    | H : negb _ = false |- _ => apply negb_false_iff in H
    | H : _ || _ = false |- _ => apply orb_false_iff in H as [? ?]
    | H : (_ <? _) = true |- _ => apply Z.ltb_lt in H
    | H : (_ <? _) = false |- _ => apply Z.ltb_ge in H
    | H : (_ <=? _) = true |- _ => apply Z.leb_le in H
    | H : (_ <=? _) = false |- _ => apply Z.leb_gt in H
    | H : (_ >? _) = true |- _ => rewrite Z.gtb_ltb in H
    | H : (_ >? _) = false |- _ => rewrite Z.gtb_ltb in H
    | H : (_ >=? _) = true |- _ => rewrite Z.geb_leb in H
    | H : (_ >=? _) = false |- _ => rewrite Z.geb_leb in H
    | H : (_ =? _) = true |- _ => apply Z.eqb_eq in H
    | H : (_ =? _) = false |- _ => apply Z.eqb_neq in H
    end.

(** Split on the scrutinee of the first [if] or [match] of the goal. *)
Ltac split_if :=
  match goal with
  | |- context [if ?b then _ else _] => let E := fresh "E" in destruct b eqn:E
  end; bool_prop.

(** The same in a hypothesis. *)
Ltac split_if_in H :=
  match type of H with
  | context [if ?b then _ else _] => let E := fresh "E" in destruct b eqn:E
  end; bool_prop.

(** * Hint databases *)

Create HintDb cint.   (* bounds and idempotence of the integer wraps *)
Create Rewrite HintDb cint.
Create Rewrite HintDb carr.   (* array reads after writes *)

(** * Lemmas on the integer wraps *)

Section wraps.
Implicit Types x y : Z.

Lemma u8_bounds x : 0 <= u8 x < 256.
Proof. apply Z.mod_pos_bound. lia. Qed.
Lemma u16_bounds x : 0 <= u16 x < 65536.
Proof. apply Z.mod_pos_bound. lia. Qed.
Lemma u32_bounds x : 0 <= u32 x < 4294967296.
Proof. apply Z.mod_pos_bound. lia. Qed.
Lemma u64_bounds x : 0 <= u64 x < 18446744073709551616.
Proof. apply Z.mod_pos_bound. lia. Qed.

Lemma u8_small x : 0 <= x < 256 -> u8 x = x.
Proof. apply Z.mod_small. Qed.
Lemma u16_small x : 0 <= x < 65536 -> u16 x = x.
Proof. apply Z.mod_small. Qed.
Lemma u32_small x : 0 <= x < 4294967296 -> u32 x = x.
Proof. apply Z.mod_small. Qed.
Lemma u64_small x : 0 <= x < 18446744073709551616 -> u64 x = x.
Proof. apply Z.mod_small. Qed.
Lemma s32_small x : -2147483648 <= x < 2147483648 -> s32 x = x.
Proof. intros. unfold s32. rewrite Z.mod_small; lia. Qed.
Lemma s64_small x :
  -9223372036854775808 <= x < 9223372036854775808 -> s64 x = x.
Proof. intros. unfold s64. rewrite Z.mod_small; lia. Qed.
Lemma s32_bounds x : -2147483648 <= s32 x < 2147483648.
Proof.
  unfold s32. pose proof (Z.mod_pos_bound (x + 2147483648) 4294967296). lia.
Qed.
Lemma s64_bounds x :
  -9223372036854775808 <= s64 x < 9223372036854775808.
Proof.
  unfold s64.
  pose proof (Z.mod_pos_bound (x + 9223372036854775808) 18446744073709551616).
  lia.
Qed.
End wraps.

#[export] Hint Resolve u8_bounds u16_bounds u32_bounds u64_bounds
  s32_bounds s64_bounds : cint.
#[export] Hint Rewrite u8_small u16_small u32_small u64_small s32_small
  s64_small using lia : cint.

(** * Indices that wrap at most once *)

Lemma mod_add_wrap i c :
  0 <= i < c -> (i + 1) mod c = if decide (i + 1 = c) then 0 else i + 1.
Proof.
  intros. case_decide as E; [rewrite E; apply Z.mod_same; lia|apply Z.mod_small; lia].
Qed.

Lemma mod_wrap2 i c :
  0 <= i < 2 * c -> i mod c = if decide (i < c) then i else i - c.
Proof.
  intros. case_decide; [apply Z.mod_small; lia|].
  symmetry. apply Z.mod_unique with 1; lia.
Qed.

(** * Arrays *)

Section arrays.
Context {A : Type} `{Inhabited A}.
Implicit Types (l : list A) (i j : Z) (v : A).

(** The length of an array, as an integer. *)
Definition zlen l : Z := Z.of_nat (length l).

Lemma zlen_nonneg l : 0 <= zlen l.
Proof. unfold zlen. lia. Qed.

Lemma aset_length l i v : zlen (l.[i <- v]) = zlen l.
Proof. unfold zlen. by rewrite length_insert. Qed.

Lemma aget_aset_eq l i v : 0 <= i < zlen l -> (l.[i <- v]).[i] = v.
Proof. unfold zlen. intros. apply list_lookup_total_insert_eq. lia. Qed.

Lemma aget_aset_ne l i j v :
  0 <= i -> 0 <= j -> i <> j -> (l.[i <- v]).[j] = l.[j].
Proof. intros. apply list_lookup_total_insert_ne. lia. Qed.

Lemma aget_aset_cases l i j v :
  0 <= i < zlen l -> 0 <= j ->
  (l.[i <- v]).[j] = if decide (i = j) then v else l.[j].
Proof.
  intros. case_decide; subst; [by apply aget_aset_eq|].
  apply aget_aset_ne; lia.
Qed.

Lemma aget_lookup l i : 0 <= i < zlen l -> l !! Z.to_nat i = Some l.[i].
Proof. unfold zlen. intros. apply list_lookup_lookup_total_lt. lia. Qed.

Lemma lookup_aget l (n : nat) x : l !! n = Some x -> l.[Z.of_nat n] = x.
Proof. intros. rewrite Nat2Z.id. by apply list_lookup_total_correct. Qed.

Lemma array_ext l1 l2 :
  zlen l1 = zlen l2 ->
  (forall i, 0 <= i < zlen l1 -> l1.[i] = l2.[i]) -> l1 = l2.
Proof.
  unfold zlen. intros Hlen Hi. apply list_eq_same_length with (length l1); [lia|lia|].
  intros n x y Hn H1 H2. apply lookup_aget in H1. apply lookup_aget in H2.
  rewrite <- H1, <- H2. apply Hi. lia.
Qed.
End arrays.

#[export] Hint Resolve zlen_nonneg : cint.
#[export] Hint Rewrite @aset_length : carr.
#[export] Hint Rewrite @aget_aset_eq @aget_aset_ne using lia : carr.

Lemma Forall_elem {A} (P : A -> Prop) (l : list A) :
  Forall P l <-> (forall x, x ∈ l -> P x).
Proof. apply list.Forall_forall. Qed.

(** * Loops

    [for_loop n body i s] runs [body i], [body (i+1)], ... at most [n] times.
    A body returns [inl] to go on with a new loop state and [inr] for a
    [return] (or a [break] carrying a value) from inside the loop. *)

Fixpoint for_loop {S R : Type} (n : nat) (body : Z -> S -> S + R)
    (i : Z) (s : S) : S + R :=
  match n with
  | O => inl s
  | Datatypes.S n' =>
      match body i s with
      | inl s' => for_loop n' body (i + 1) s'
      | inr r => inr r
      end
  end.

(** [for (i = lo; i < hi; i++)] with an early exit. *)
Definition for_range {S R : Type} (lo hi : Z) (body : Z -> S -> S + R)
    (s : S) : S + R :=
  for_loop (Z.to_nat (hi - lo)) body lo s.

(** [for (i = lo; i < hi; i++)] without an early exit. *)
Fixpoint each_loop {S : Type} (n : nat) (body : Z -> S -> S) (i : Z) (s : S) : S :=
  match n with
  | O => s
  | Datatypes.S n' => each_loop n' body (i + 1) (body i s)
  end.

Definition for_each {S : Type} (lo hi : Z) (body : Z -> S -> S) (s : S) : S :=
  each_loop (Z.to_nat (hi - lo)) body lo s.

(** [for (i = lo; i < hi; i++) if (p(i)) return i;] *)
Fixpoint find_loop (n : nat) (p : Z -> bool) (i : Z) : option Z :=
  match n with
  | O => None
  | Datatypes.S n' => if p i then Some i else find_loop n' p (i + 1)
  end.

Definition find_first (lo hi : Z) (p : Z -> bool) : option Z :=
  find_loop (Z.to_nat (hi - lo)) p lo.

(** A search result as the C code returns it: the index, or -1. *)
Definition c_index (o : option Z) : Z := default (-1) o.

Section loops.
Context {S R : Type}.

Lemma for_loop_inv n (body : Z -> S -> S + R) i s (P : Z -> S -> Prop)
    (Q : R -> Prop) :
  P i s ->
  (forall j s', i <= j < i + Z.of_nat n -> P j s' ->
    match body j s' with inl s'' => P (j + 1) s'' | inr r => Q r end) ->
  match for_loop n body i s with
  | inl s' => P (i + Z.of_nat n) s'
  | inr r => Q r
  end.
Proof.
  revert i s. induction n as [|n IH]; intros i s HP Hb; simpl.
  - by replace (i + Z.of_nat 0) with i by lia.
  - pose proof (Hb i s ltac:(lia) HP) as Hi.
    destruct (body i s) as [s'|r]; [|done].
    replace (i + Z.of_nat (Datatypes.S n)) with ((i + 1) + Z.of_nat n) by lia.
    apply IH; [done|]. intros j s'' Hj. apply Hb. lia.
Qed.

Lemma for_range_inv lo hi (body : Z -> S -> S + R) s (P : Z -> S -> Prop)
    (Q : R -> Prop) :
  lo <= hi -> P lo s ->
  (forall j s', lo <= j < hi -> P j s' ->
    match body j s' with inl s'' => P (j + 1) s'' | inr r => Q r end) ->
  match for_range lo hi body s with
  | inl s' => P hi s'
  | inr r => Q r
  end.
Proof.
  intros Hle HP Hb. unfold for_range.
  pose proof (for_loop_inv (Z.to_nat (hi - lo)) body lo s P Q HP) as H.
  replace (lo + Z.of_nat (Z.to_nat (hi - lo))) with hi in H by lia.
  by apply H.
Qed.

(** The same, for a goal [G] about the result of the loop. *)
Lemma for_range_cases lo hi (body : Z -> S -> S + R) s (P : Z -> S -> Prop)
    (G : S + R -> Prop) :
  lo <= hi -> P lo s ->
  (forall j s', lo <= j < hi -> P j s' ->
    match body j s' with inl s'' => P (j + 1) s'' | inr r => G (inr r) end) ->
  (forall s', P hi s' -> G (inl s')) ->
  G (for_range lo hi body s).
Proof.
  intros Hle HP Hb HG.
  pose proof (for_range_inv lo hi body s P (fun r => G (inr r)) Hle HP Hb) as H.
  destruct (for_range lo hi body s); [by apply HG|exact H].
Qed.

Lemma each_loop_inv n (body : Z -> S -> S) i s (P : Z -> S -> Prop) :
  P i s ->
  (forall j s', i <= j < i + Z.of_nat n -> P j s' -> P (j + 1) (body j s')) ->
  P (i + Z.of_nat n) (each_loop n body i s).
Proof.
  revert i s. induction n as [|n IH]; intros i s HP Hb; simpl.
  - by replace (i + Z.of_nat 0) with i by lia.
  - replace (i + Z.of_nat (Datatypes.S n)) with ((i + 1) + Z.of_nat n) by lia.
    apply IH; [apply Hb; [lia|done]|]. intros j s'' Hj. apply Hb. lia.
Qed.

(** Loop invariant rule for a [for] without exit; an empty range leaves the
    state alone. *)
Lemma for_each_inv lo hi (body : Z -> S -> S) s (P : Z -> S -> Prop) :
  lo <= hi -> P lo s ->
  (forall j s', lo <= j < hi -> P j s' -> P (j + 1) (body j s')) ->
  P hi (for_each lo hi body s).
Proof.
  intros Hle HP Hb. unfold for_each.
  pose proof (each_loop_inv (Z.to_nat (hi - lo)) body lo s P HP) as H.
  replace (lo + Z.of_nat (Z.to_nat (hi - lo))) with hi in H by lia.
  by apply H.
Qed.

(** A property that every iteration keeps. *)
Lemma for_each_keep lo hi (body : Z -> S -> S) s (P : S -> Prop) :
  P s -> (forall j s', lo <= j < hi -> P s' -> P (body j s')) ->
  P (for_each lo hi body s).
Proof.
  intros HP Hb. destruct (decide (lo <= hi)).
  - by apply (for_each_inv lo hi body s (fun _ => P)).
  - unfold for_each. by replace (Z.to_nat (hi - lo)) with O by lia.
Qed.

Lemma for_each_empty lo hi (body : Z -> S -> S) s :
  hi <= lo -> for_each lo hi body s = s.
Proof. intros. unfold for_each. by replace (Z.to_nat (hi - lo)) with O by lia. Qed.

Lemma for_each_step lo hi (body : Z -> S -> S) s :
  lo < hi -> for_each lo hi body s = for_each (lo + 1) hi body (body lo s).
Proof.
  intros. unfold for_each.
  replace (Z.to_nat (hi - lo)) with (Datatypes.S (Z.to_nat (hi - (lo + 1)))) by lia.
  done.
Qed.

(** The last iteration. *)
Lemma for_each_last lo hi (body : Z -> S -> S) s :
  lo <= hi -> for_each lo (hi + 1) body s = body hi (for_each lo hi body s).
Proof.
  intros Hle. unfold for_each. replace (Z.to_nat (hi + 1 - lo)) with (Datatypes.S (Z.to_nat (hi - lo))) by lia.
  replace hi with (lo + Z.of_nat (Z.to_nat (hi - lo))) at 2 by lia. generalize (Z.to_nat (hi - lo)) as n.
  intros n. clear Hle. revert lo s. induction n as [|n IH]; intros lo s; [simpl; by rewrite Z.add_0_r|].
  cbn [each_loop] in *. rewrite IH. f_equal. lia.
Qed.
End loops.

Lemma find_loop_spec n p i :
  match find_loop n p i with
  | Some j => i <= j < i + Z.of_nat n /\ p j = true /\
              (forall k, i <= k < j -> p k = false)
  | None => forall k, i <= k < i + Z.of_nat n -> p k = false
  end.
Proof.
  revert i. induction n as [|n IH]; intros i; cbn [find_loop].
  - intros k Hk. lia.
  - destruct (p i) eqn:E.
    + repeat split; [lia|lia|done|]. intros k Hk. lia.
    + specialize (IH (i + 1)). destruct (find_loop n p (i + 1)) as [j|].
      * destruct IH as (? & ? & Hlow). repeat split; [lia|lia|done|].
        intros k Hk. destruct (decide (k = i)) as [->|]; [done|]. apply Hlow. lia.
      * intros k Hk. destruct (decide (k = i)) as [->|]; [done|]. apply IH. lia.
Qed.

(** What a search loop returns: the least index that passes, or the fact that
    none does. *)
Lemma find_first_spec lo hi p :
  match find_first lo hi p with
  | Some j => lo <= j < hi /\ p j = true /\ (forall k, lo <= k < j -> p k = false)
  | None => forall k, lo <= k < hi -> p k = false
  end.
Proof.
  unfold find_first. pose proof (find_loop_spec (Z.to_nat (hi - lo)) p lo) as H.
  destruct (find_loop _ _ _) as [j|].
  - destruct H as (? & ? & ?). repeat split; try done; lia.
  - intros k Hk. apply H. lia.
Qed.

Lemma find_first_Some lo hi p j :
  find_first lo hi p = Some j <->
  lo <= j < hi /\ p j = true /\ (forall k, lo <= k < j -> p k = false).
Proof.
  pose proof (find_first_spec lo hi p) as H. split.
  - intros E. by rewrite E in H.
  - intros (Hj & Hp & Hl). destruct (find_first lo hi p) as [j'|].
    + destruct H as (Hj' & Hp' & Hl'). f_equal.
      destruct (Z.lt_trichotomy j j') as [Hlt|[?|Hlt]]; [|done|].
      * rewrite Hl' in Hp; [done|lia].
      * rewrite Hl in Hp'; [done|lia].
    + rewrite H in Hp; [done|lia].
Qed.

Lemma find_first_None lo hi p :
  find_first lo hi p = None <-> (forall k, lo <= k < hi -> p k = false).
Proof.
  pose proof (find_first_spec lo hi p) as H. split.
  - intros E. by rewrite E in H.
  - intros Hk. destruct (find_first lo hi p) as [j|]; [|done].
    destruct H as (? & Hp & _). by rewrite Hk in Hp.
Qed.

Lemma find_first_ext lo hi p q :
  (forall k, lo <= k < hi -> p k = q k) -> find_first lo hi p = find_first lo hi q.
Proof.
  intros Hpq. pose proof (find_first_spec lo hi p) as H.
  destruct (find_first lo hi p) as [j|]; symmetry.
  - destruct H as (? & ? & Hl). apply find_first_Some.
    repeat split; try lia.
    + rewrite <- Hpq; [done|lia].
    + intros k Hk. rewrite <- Hpq; [by apply Hl|lia].
  - apply find_first_None. intros k Hk. rewrite <- Hpq; [by apply H|lia].
Qed.

Lemma for_each_fill (buf : list Z) n (g : Z -> Z) :
  0 <= n <= zlen buf ->
  zlen (for_each 0 n (fun i b => b.[i <- g i]) buf) = zlen buf /\
  forall i, 0 <= i -> (for_each 0 n (fun i b => b.[i <- g i]) buf).[i] =
    if decide (i < n) then g i else buf.[i].
Proof.
  intros Hn. apply (for_each_inv 0 n _ buf (fun k b => zlen b = zlen buf /\
    forall i, 0 <= i -> b.[i] = if decide (i < k) then g i else buf.[i])); [lia| |].
  - split; [done|]. intros i Hi. by rewrite decide_False by lia.
  - intros k b Hk [Hl Hb]. split; [by rewrite aset_length|]. intros i Hi.
    rewrite aget_aset_cases by lia. destruct (decide (k = i)) as [->|].
    + by rewrite decide_True by lia.
    + rewrite Hb by done. repeat case_decide; try lia; done.
Qed.

(** [while_loop fuel body s]: a [while] whose body goes on with [inl] or leaves
    with [inr]; [None] when [fuel] iterations were not enough. *)
Fixpoint while_loop {S R : Type} (fuel : nat) (body : S -> S + R) (s : S) : option R :=
  match fuel with
  | O => None
  | Datatypes.S fuel' =>
      match body s with
      | inl s' => while_loop fuel' body s'
      | inr r => Some r
      end
  end.

(** Total correctness: an invariant, and a variant that the fuel bounds. *)
Lemma while_loop_total {S R} fuel (body : S -> S + R) s (m : S -> Z)
    (P : S -> Prop) (Q : R -> Prop) :
  P s -> m s < Z.of_nat fuel ->
  (forall s, P s -> match body s with
                    | inl s' => P s' /\ 0 <= m s' < m s
                    | inr r => Q r
                    end) ->
  0 <= m s -> exists r, while_loop fuel body s = Some r /\ Q r.
Proof.
  revert s. induction fuel as [|fuel IH]; intros s HP Hm Hb H0; simpl; [lia|].
  specialize (Hb s HP) as Hs. destruct (body s) as [s'|r]; [|by exists r].
  destruct Hs as [HP' Hm']. apply IH; [done|lia|done|lia].
Qed.

(** Apply the rule to the loop of the goal with variant [m], invariant [P] and
    postcondition [Q]. *)
Ltac while_inv m P Q :=
  match goal with
  | |- context [while_loop ?f ?b ?s] =>
      let H := fresh "Hloop" in
      assert (H : exists r, while_loop f b s = Some r /\ Q r);
      [apply (while_loop_total f b s m P Q)|]
  end.

(** More fuel does not change a result. *)
Lemma while_loop_mono {S R} n k (body : S -> S + R) s r :
  while_loop n body s = Some r -> (n <= k)%nat -> while_loop k body s = Some r.
Proof.
  revert k s. induction n as [|n IH]; intros k s H Hk; simpl in H; [done|].
  destruct k as [|k]; [lia|]. simpl. destruct (body s); [|done]. apply IH; [done|lia].
Qed.

(** The same loop with binary fuel, for bounds too large to be unary. *)
Fixpoint pos_loop {S R : Type} (fuel : positive) (body : S -> S + R) (s : S) : S + R :=
  match fuel with
  | xH => body s
  | xO p =>
      match pos_loop p body s with inl s' => pos_loop p body s' | inr r => inr r end
  | xI p =>
      match body s with
      | inl s' => match pos_loop p body s' with
                  | inl s'' => pos_loop p body s''
                  | inr r => inr r
                  end
      | inr r => inr r
      end
  end.

Definition while_pos {S R : Type} (fuel : positive) (body : S -> S + R) (s : S) : option R :=
  match pos_loop fuel body s with inl _ => None | inr r => Some r end.

Lemma pos_loop_total {S R} fuel (body : S -> S + R) s n (P : Z -> S -> Prop) (Q : R -> Prop) :
  P n s -> 0 <= n ->
  (forall n s, 0 <= n -> P n s -> match body s with
     | inl s' => exists n', 0 <= n' < n /\ P n' s'
     | inr r => Q r
     end) ->
  match pos_loop fuel body s with
  | inl s' => exists n', 0 <= n' <= n - Zpos fuel /\ P n' s'
  | inr r => Q r
  end.
Proof.
  intros HP H0 Hb. revert n s HP H0. induction fuel as [p IH|p IH|]; intros n s HP H0; simpl.
  - specialize (Hb n s H0 HP). destruct (body s) as [s1|r]; [|done]. destruct Hb as (n1 & Hn1 & HP1).
    pose proof (IH n1 s1 HP1 ltac:(lia)) as H1. destruct (pos_loop p body s1) as [s2|r]; [|done].
    destruct H1 as (n2 & Hn2 & HP2). pose proof (IH n2 s2 HP2 ltac:(lia)) as H2.
    destruct (pos_loop p body s2) as [s3|r]; [|done]. destruct H2 as (n3 & Hn3 & HP3).
    exists n3. split; [lia|done].
  - pose proof (IH n s HP H0) as H1. destruct (pos_loop p body s) as [s2|r]; [|done].
    destruct H1 as (n2 & Hn2 & HP2). pose proof (IH n2 s2 HP2 ltac:(lia)) as H2.
    destruct (pos_loop p body s2) as [s3|r]; [|done]. destruct H2 as (n3 & Hn3 & HP3).
    exists n3. split; [lia|done].
  - specialize (Hb n s H0 HP). destruct (body s) as [s1|r]; [|done].
    destruct Hb as (n1 & Hn1 & HP1). exists n1. split; [lia|done].
Qed.

(** Total correctness with an invariant indexed by its variant. *)
Lemma while_pos_total {S R} fuel (body : S -> S + R) s n (P : Z -> S -> Prop) (Q : R -> Prop) :
  P n s -> 0 <= n < Zpos fuel ->
  (forall n s, 0 <= n -> P n s -> match body s with
     | inl s' => exists n', 0 <= n' < n /\ P n' s'
     | inr r => Q r
     end) ->
  exists r, while_pos fuel body s = Some r /\ Q r.
Proof.
  intros HP Hn Hb. unfold while_pos.
  pose proof (pos_loop_total fuel body s n P Q HP ltac:(lia) Hb) as H.
  destruct (pos_loop fuel body s) as [s'|r]; [|by exists r].
  destruct H as (n' & Hn' & _). lia.
Qed.

(** [while_inv] for a loop with binary fuel: start at variant [n]. *)
Ltac while_pos_inv n P Q :=
  match goal with
  | |- context [while_pos ?f ?b ?s] =>
      let H := fresh "Hloop" in
      assert (H : exists r, while_pos f b s = Some r /\ Q r);
      [apply (while_pos_total f b s n P Q)|]
  end.

(** [while (c < needed) c *= 2;] on 32-bit unsigned integers. *)
Definition double_until (fuel : nat) (needed c : Z) : option Z :=
  while_loop fuel (fun c => if c <? needed then inl (c *32 2) else inr c) c.

(** From a positive value, doubling reaches any bound up to 2^31 without
    overflowing, and stops below twice the bound. *)
Lemma double_until_total needed c :
  0 < c < 4294967296 -> needed <= 2147483648 ->
  exists c', double_until 33 needed c = Some c' /\ needed <= c' /\
    c <= c' < 4294967296 /\ (c < needed -> c' < 2 * needed) /\ (needed <= c -> c' = c).
Proof.
  intros Hc Hn.
  assert (Hgen : forall (n : nat) x, (n <= 32)%nat -> 0 < x < 4294967296 ->
    2 ^ (32 - Z.of_nat n) <= x ->
    exists c', double_until (S n) needed x = Some c' /\ needed <= c' /\
      x <= c' < 4294967296 /\ (x < needed -> c' < 2 * needed) /\ (needed <= x -> c' = x)).
  { induction n as [|n IH]; intros x Hn32 Hx Hp.
    - change (2 ^ (32 - Z.of_nat 0)) with 4294967296 in Hp. lia.
    - unfold double_until. cbn [while_loop]. destruct (x <? needed) eqn:E; bool_prop.
      + rewrite (u32_small (x * 2)) by lia.
        destruct (IH (x * 2)) as (c' & H1 & H2 & H3 & H4 & H5); [lia|lia| |].
        { replace (32 - Z.of_nat n) with (Z.succ (32 - Z.of_nat (S n))) by lia.
          rewrite Z.pow_succ_r by lia. lia. }
        exists c'. repeat split; try done; try lia.
        all: intros; destruct (decide (x * 2 < needed)); [auto; lia|rewrite H5; lia].
      + exists x. repeat split; try done; lia. }
  destruct (Hgen 32%nat c) as (c' & H1 & H2 & H3 & H4); [lia|lia|simpl; lia|].
  exists c'. done.
Qed.

(** * Counting the indices of a range that pass a test *)

Fixpoint count_loop (n : nat) (p : Z -> bool) (i : Z) : Z :=
  match n with
  | O => 0
  | Datatypes.S n' => (if p i then 1 else 0) + count_loop n' p (i + 1)
  end.

Definition count_if (lo hi : Z) (p : Z -> bool) : Z :=
  count_loop (Z.to_nat (hi - lo)) p lo.

Lemma count_loop_ext n p q i :
  (forall k, i <= k < i + Z.of_nat n -> p k = q k) ->
  count_loop n p i = count_loop n q i.
Proof.
  revert i. induction n as [|n IH]; intros i H; cbn [count_loop]; [done|].
  rewrite H by lia. f_equal. apply IH. intros k Hk. apply H. lia.
Qed.

Lemma count_loop_bounds n p i : 0 <= count_loop n p i <= Z.of_nat n.
Proof.
  revert i. induction n as [|n IH]; intros i; cbn [count_loop]; [lia|].
  specialize (IH (i + 1)). destruct (p i); lia.
Qed.

Lemma count_loop_flip n p q i j :
  i <= j < i + Z.of_nat n -> p j = true -> q j = false ->
  (forall k, i <= k < i + Z.of_nat n -> k <> j -> p k = q k) ->
  count_loop n p i = count_loop n q i + 1.
Proof.
  revert i. induction n as [|n IH]; intros i Hj Hp Hq H; cbn [count_loop]; [lia|].
  destruct (decide (j = i)) as [->|Hne].
  - rewrite Hp, Hq. rewrite (count_loop_ext n p q).
    + lia.
    + intros k Hk. apply H; lia.
  - rewrite (IH (i + 1)); [|lia|done|done|intros k Hk; apply H; lia].
    rewrite (H i) by lia. lia.
Qed.

Lemma count_if_ext lo hi p q :
  (forall k, lo <= k < hi -> p k = q k) -> count_if lo hi p = count_if lo hi q.
Proof. intros H. apply count_loop_ext. intros k Hk. apply H. lia. Qed.

Lemma count_if_bounds lo hi p : lo <= hi -> 0 <= count_if lo hi p <= hi - lo.
Proof. intros. pose proof (count_loop_bounds (Z.to_nat (hi - lo)) p lo). unfold count_if. lia. Qed.

(** Turning exactly one index from passing to failing lowers the count by one. *)
Lemma count_if_flip lo hi p q j :
  lo <= j < hi -> p j = true -> q j = false ->
  (forall k, lo <= k < hi -> k <> j -> p k = q k) ->
  count_if lo hi p = count_if lo hi q + 1.
Proof.
  intros Hj Hp Hq H. unfold count_if. apply (count_loop_flip _ p q lo j); try done; [lia|].
  intros k Hk. apply H. lia.
Qed.

Lemma count_if_pos lo hi p j : lo <= j < hi -> p j = true -> 0 < count_if lo hi p.
Proof.
  intros Hj Hp.
  rewrite (count_if_flip lo hi p (fun k => if decide (k = j) then false else p k) j).
  - pose proof (count_if_bounds lo hi (fun k => if decide (k = j) then false else p k)). lia.
  - done.
  - done.
  - by rewrite decide_True.
  - intros k _ Hk. by rewrite decide_False.
Qed.

Lemma count_if_none lo hi p :
  (forall k, lo <= k < hi -> p k = false) -> count_if lo hi p = 0.
Proof.
  intros H. rewrite (count_if_ext lo hi p (fun _ => false)) by done.
  unfold count_if. generalize (Z.to_nat (hi - lo)) as n. clear. intros n.
  revert lo. induction n as [|n IH]; intros lo; simpl; [done|]. by rewrite IH.
Qed.

Lemma count_loop_le n p q i :
  (forall k, i <= k < i + Z.of_nat n -> p k = true -> q k = true) ->
  count_loop n p i <= count_loop n q i.
Proof.
  revert i. induction n as [|n IH]; intros i H; cbn [count_loop]; [lia|].
  specialize (IH (i + 1) ltac:(intros; apply H; [lia|done])).
  specialize (H i ltac:(lia)). destruct (p i), (q i); lia.
Qed.

Lemma count_if_le lo hi p q :
  (forall k, lo <= k < hi -> p k = true -> q k = true) -> count_if lo hi p <= count_if lo hi q.
Proof. intros H. apply count_loop_le. intros k Hk. apply H. lia. Qed.

(** * Single-bit masks *)

Lemma land_pow2_eqb x k : 0 <= k -> (Z.land x (2 ^ k) =? 0) = negb (Z.testbit x k).
Proof.
  intros Hk. destruct (Z.testbit x k) eqn:E; simpl.
  - apply Z.eqb_neq. intros H. apply (f_equal (fun z => Z.testbit z k)) in H.
    rewrite Z.land_spec, E, Z.pow2_bits_true, Z.bits_0 in H by lia. done.
  - apply Z.eqb_eq, Z.bits_inj_0. intros n. rewrite Z.land_spec, Z.pow2_bits_eqb by lia.
    destruct (k =? n) eqn:En; [apply Z.eqb_eq in En; subst; by rewrite E|apply andb_false_r].
Qed.

Lemma pow2_byte k : 0 <= k < 8 -> u8 (Z.shiftl 1 k) = 2 ^ k.
Proof.
  intros. rewrite Z.shiftl_1_l. apply u8_small.
  split; [apply Z.pow_nonneg; lia|]. change 256 with (2 ^ 8).
  apply Z.pow_lt_mono_r; lia.
Qed.

Lemma testbit_lor_pow2 x k n :
  0 <= k -> 0 <= n -> Z.testbit (Z.lor x (2 ^ k)) n = (k =? n) || Z.testbit x n.
Proof. intros. rewrite Z.lor_spec, Z.pow2_bits_eqb by lia. apply orb_comm. Qed.

(** Masking with the byte complement of a single bit clears just that bit. *)
Lemma testbit_clear_pow2 x k n :
  0 <= k < 8 -> 0 <= n < 8 ->
  Z.testbit (Z.land x (u8 (Z.lnot (2 ^ k)))) n = negb (k =? n) && Z.testbit x n.
Proof.
  intros. rewrite Z.land_spec. unfold u8. change 256 with (2 ^ 8).
  rewrite Z.mod_pow2_bits_low, Z.lnot_spec, Z.pow2_bits_eqb by lia. apply andb_comm.
Qed.

(** [x & ~(2^k - 1)] on 64-bit values. *)
Lemma mask_down_eq k x :
  0 <= k <= 64 -> 0 <= x < 18446744073709551616 ->
  Z.land x (Z.shiftl (Z.ones (64 - k)) k) = x / 2 ^ k * 2 ^ k.
Proof.
  intros Hk Hx. rewrite <- Z.shiftr_div_pow2, <- Z.shiftl_mul_pow2 by lia.
  apply Z.bits_inj'. intros n Hn. rewrite Z.land_spec, !Z.shiftl_spec by lia.
  destruct (decide (n < k)).
  - rewrite !(Z.testbit_neg_r _ (n - k)) by lia. apply andb_false_r.
  - rewrite Z.shiftr_spec by lia. replace (n - k + k) with n by lia.
    destruct (decide (n < 64)).
    + rewrite Z.ones_spec_low by lia. apply andb_true_r.
    + rewrite Z.ones_spec_high by lia. rewrite andb_false_r. symmetry.
      rewrite <- (Z.mod_small x (2 ^ 64)) by lia. apply Z.mod_pow2_bits_high. lia.
Qed.

Lemma page_mask_eq x :
  0 <= x < 18446744073709551616 -> Z.land x (U64_MAX -64 (4096 - 1)) = x / 4096 * 4096.
Proof. intros Hx. by apply (mask_down_eq 12). Qed.
