(* ===== verification/Mem.v ===== *)
(** Byte-addressed physical memory.

    The kernel dereferences physical addresses directly (everything it touches
    is identity mapped), so a C pointer is an address and a [*p] of an
    [unsigned long long] is eight little-endian bytes.  Page tables, heap
    headers, ELF segments and user stacks all live in this one store. *)
From S2P Require Import Prelude.

Abbreviation mem := (gmap Z Z).

(** A cell holds a byte. *)
Definition ld8 (m : mem) (a : Z) : Z := u8 (default 0 (m !! a)).
Definition st8 (m : mem) (a v : Z) : mem := <[a := u8 v]> m.

(** Little-endian access to [n] consecutive bytes. *)
Fixpoint ldn (n : nat) (m : mem) (a : Z) : Z :=
  match n with
  | O => 0
  | S n' => ld8 m a + 256 * ldn n' m (a + 1)
  end.

Fixpoint stn (n : nat) (m : mem) (a v : Z) : mem :=
  match n with
  | O => m
  | S n' => stn n' (st8 m a v) (a + 1) (v / 256)
  end.

Definition ld32 : mem -> Z -> Z := ldn 4.
Definition ld64 : mem -> Z -> Z := ldn 8.
Definition st32 : mem -> Z -> Z -> mem := stn 4.
Definition st64 : mem -> Z -> Z -> mem := stn 8.

(** [only_differ m m' lo n]: [m'] agrees with [m] outside [lo, lo + n). *)
Definition only_differ (m m' : mem) (lo n : Z) : Prop :=
  forall a, ~ (lo <= a < lo + n) -> ld8 m' a = ld8 m a.

Create HintDb mem.

Section bytes.
Implicit Types (m : mem) (a b v : Z).

Lemma ld8_st8 m a b v : ld8 (st8 m a v) b = if decide (a = b) then u8 v else ld8 m b.
Proof.
  unfold ld8, st8. case_decide; subst.
  - rewrite lookup_insert_eq. simpl. unfold u8. by rewrite Zmod_mod.
  - by rewrite lookup_insert_ne.
Qed.

Lemma ld8_st8_eq m a v : ld8 (st8 m a v) a = u8 v.
Proof. rewrite ld8_st8. by case_decide. Qed.

Lemma ld8_st8_ne m a b v : a <> b -> ld8 (st8 m a v) b = ld8 m b.
Proof. intros. rewrite ld8_st8. by case_decide. Qed.

Lemma ld8_bounds m a : 0 <= ld8 m a < 256.
Proof. apply u8_bounds. Qed.

Lemma ld8_stn_other n m a b v :
  ~ (a <= b < a + Z.of_nat n) -> ld8 (stn n m a v) b = ld8 m b.
Proof.
  revert m a v. induction n as [|n IH]; intros m a v Hb; simpl; [done|].
  rewrite IH by lia. apply ld8_st8_ne. lia.
Qed.

Lemma ldn_ext n m m' a :
  (forall b, a <= b < a + Z.of_nat n -> ld8 m' b = ld8 m b) ->
  ldn n m' a = ldn n m a.
Proof.
  revert a. induction n as [|n IH]; intros a H; simpl; [done|].
  rewrite H, IH; [done| |lia]. intros b Hb. apply H. lia.
Qed.

Lemma ldn_stn_other n k m a b v :
  a + Z.of_nat n <= b \/ b + Z.of_nat k <= a ->
  ldn k (stn n m a v) b = ldn k m b.
Proof. intros H. apply ldn_ext. intros c Hc. apply ld8_stn_other. lia. Qed.

Lemma ldn_stn_eq n m a v :
  ldn n (stn n m a v) a = v mod 256 ^ Z.of_nat n.
Proof.
  revert m a v. induction n as [|n IH]; intros m a v; cbn [ldn stn].
  - by rewrite Z.mod_1_r.
  - rewrite IH, ld8_stn_other, ld8_st8_eq by lia.
    rewrite Nat2Z.inj_succ, Z.pow_succ_r by lia.
    rewrite Z.rem_mul_r by lia. done.
Qed.

Lemma ldn_bounds n m a : 0 <= ldn n m a < 256 ^ Z.of_nat n.
Proof.
  revert a. induction n as [|n IH]; intros a; cbn [ldn]; [simpl; lia|].
  rewrite Nat2Z.inj_succ, Z.pow_succ_r by lia.
  specialize (IH (a + 1)). pose proof (ld8_bounds m a). lia.
Qed.

Lemma ld64_st64_eq m a v : ld64 (st64 m a v) a = u64 v.
Proof. unfold ld64, st64. by rewrite ldn_stn_eq. Qed.

Lemma ld64_st64_ne m a b v :
  a + 8 <= b \/ b + 8 <= a -> ld64 (st64 m a v) b = ld64 m b.
Proof. intros. apply ldn_stn_other. lia. Qed.

Lemma ld32_st32_eq m a v : ld32 (st32 m a v) a = u32 v.
Proof. unfold ld32, st32. by rewrite ldn_stn_eq. Qed.

Lemma ld64_bounds m a : 0 <= ld64 m a < 18446744073709551616.
Proof. intros. by apply (ldn_bounds 8). Qed.

Lemma ld64_ext m m' a :
  (forall b, a <= b < a + 8 -> ld8 m' b = ld8 m b) -> ld64 m' a = ld64 m a.
Proof. intros H. apply ldn_ext. intros. apply H. lia. Qed.

Lemma st64_only_differ m a v : only_differ m (st64 m a v) a 8.
Proof. intros b Hb. apply ld8_stn_other. lia. Qed.
Lemma st32_only_differ m a v : only_differ m (st32 m a v) a 4.
Proof. intros b Hb. apply ld8_stn_other. lia. Qed.

Lemma only_differ_refl m lo n : only_differ m m lo n.
Proof. done. Qed.

Lemma only_differ_trans m1 m2 m3 lo n :
  only_differ m1 m2 lo n -> only_differ m2 m3 lo n -> only_differ m1 m3 lo n.
Proof. intros H1 H2 a Ha. by rewrite H2, H1. Qed.

Lemma only_differ_weaken m m' lo n lo' n' :
  only_differ m m' lo n -> lo' <= lo -> lo + n <= lo' + n' ->
  only_differ m m' lo' n'.
Proof. intros H ?? a Ha. apply H. lia. Qed.

Lemma only_differ_ld64 m m' lo n a :
  only_differ m m' lo n -> a + 8 <= lo \/ lo + n <= a -> ld64 m' a = ld64 m a.
Proof. intros H Ha. apply ld64_ext. intros. apply H. lia. Qed.
End bytes.

#[export] Hint Resolve only_differ_refl st64_only_differ
  st32_only_differ only_differ_trans ld64_bounds : mem.

(** * Observational equality of memories

    A byte never written and a byte holding zero read alike. *)

Definition mem_equiv (m1 m2 : mem) : Prop := forall a, ld8 m1 a = ld8 m2 a.

#[export] Instance mem_equiv_equivalence : Equivalence mem_equiv.
Proof.
  split; [by intros m a|by intros m1 m2 H a|].
  intros m1 m2 m3 H1 H2 a. by rewrite H1.
Qed.

#[export] Instance ld8_proper : Proper (mem_equiv ==> eq ==> eq) ld8.
Proof. intros m1 m2 H a ? <-. apply H. Qed.

#[export] Instance ldn_proper n : Proper (mem_equiv ==> eq ==> eq) (ldn n).
Proof. intros m1 m2 H a ? <-. apply ldn_ext. intros. apply H. Qed.

#[export] Instance ld64_proper : Proper (mem_equiv ==> eq ==> eq) ld64.
Proof. apply ldn_proper. Qed.

#[export] Instance st8_proper : Proper (mem_equiv ==> eq ==> eq ==> mem_equiv) st8.
Proof. intros m1 m2 H a ? <- v ? <- b. rewrite !ld8_st8. by case_decide. Qed.

#[export] Instance stn_proper n : Proper (mem_equiv ==> eq ==> eq ==> mem_equiv) (stn n).
Proof.
  induction n as [|n IH]; intros m1 m2 H a ? <- v ? <-; simpl; [done|].
  apply IH; [|done|done]. by apply st8_proper.
Qed.

#[export] Instance st64_proper : Proper (mem_equiv ==> eq ==> eq ==> mem_equiv) st64.
Proof. apply stn_proper. Qed.

(** * Byte copies and fills *)

(** [for (i = 0; i < n; i++) dst[i] = v;] *)
Definition fill8 (m : mem) (dst n v : Z) : mem :=
  for_each 0 n (fun i m => st8 m (dst + i) v) m.

(** [for (i = 0; i < n; i++) dst[i] = src[i];] with [src] an array value. *)
Definition copy_in (m : mem) (dst : Z) (src : list Z) (n : Z) : mem :=
  for_each 0 n (fun i m => st8 m (dst + i) (src.[i])) m.

Section fills.
Implicit Types (m : mem) (a v : Z).

Lemma fill8_spec m dst n v a :
  ld8 (fill8 m dst n v) a =
    if decide (dst <= a < dst + n) then u8 v else ld8 m a.
Proof.
  destruct (decide (0 <= n)) as [Hn|Hn].
  - unfold fill8. apply (for_each_inv 0 n _ m
      (fun i m' => ld8 m' a = if decide (dst <= a < dst + i) then u8 v else ld8 m a));
      [done|case_decide; [lia|done]|].
    intros j m' Hj IH. rewrite ld8_st8, IH. repeat case_decide; try lia; done.
  - unfold fill8. rewrite for_each_empty by lia. case_decide; [lia|done].
Qed.

Lemma copy_in_spec m dst src n a :
  ld8 (copy_in m dst src n) a =
    if decide (dst <= a < dst + n) then u8 (src.[a - dst]) else ld8 m a.
Proof.
  destruct (decide (0 <= n)) as [Hn|Hn].
  - unfold copy_in. apply (for_each_inv 0 n _ m
      (fun i m' => ld8 m' a =
         if decide (dst <= a < dst + i) then u8 (src.[a - dst]) else ld8 m a));
      [done|case_decide; [lia|done]|].
    intros j m' Hj IH. rewrite ld8_st8, IH.
    destruct (decide (dst + j = a)) as [<-|].
    + rewrite decide_True by lia. by replace (dst + j - dst) with j by lia.
    + repeat case_decide; try lia; done.
  - unfold copy_in. rewrite for_each_empty by lia. case_decide; [lia|done].
Qed.

Lemma fill8_only_differ m dst n v : only_differ m (fill8 m dst n v) dst n.
Proof. intros a Ha. rewrite fill8_spec. by rewrite decide_False. Qed.

Lemma copy_in_only_differ m dst src n : only_differ m (copy_in m dst src n) dst n.
Proof. intros a Ha. rewrite copy_in_spec. by rewrite decide_False. Qed.

Lemma ld64_fill8_zero m dst n a :
  dst <= a -> a + 8 <= dst + n -> ld64 (fill8 m dst n 0) a = 0.
Proof.
  intros. unfold ld64. rewrite (ldn_ext 8 ∅).
  - reflexivity.
  - intros b Hb. rewrite fill8_spec, decide_True by lia. done.
Qed.
End fills.

#[export] Hint Resolve fill8_only_differ copy_in_only_differ : mem.

(** * Copies inside memory *)

(** [for (i = 0; i < n; i++) dst[i] = src[i];] between two disjoint ranges. *)
Lemma copy_mem_spec (m : mem) (dst src n a : Z) :
  dst + n <= src \/ src + n <= dst ->
  ld8 (for_each 0 n (fun i m => st8 m (dst + i) (ld8 m (src + i))) m) a =
    if decide (dst <= a < dst + n) then ld8 m (src + (a - dst)) else ld8 m a.
Proof.
  intros Hap. destruct (decide (0 <= n)) as [Hn|Hn].
  2: { rewrite for_each_empty by lia. by rewrite decide_False by lia. }
  assert (Hinv : forall a, ld8 (for_each 0 n (fun i m => st8 m (dst + i) (ld8 m (src + i))) m) a =
    if decide (dst <= a < dst + n) then ld8 m (src + (a - dst)) else ld8 m a); [|apply Hinv].
  apply (for_each_inv 0 n _ m (fun k m' => forall a, ld8 m' a =
    if decide (dst <= a < dst + k) then ld8 m (src + (a - dst)) else ld8 m a)); [lia| |].
  - intros b. by rewrite decide_False by lia.
  - intros k m' Hk IH b. rewrite ld8_st8. destruct (decide (dst + k = b)) as [<-|].
    + rewrite decide_True by lia. rewrite IH, decide_False by lia.
      rewrite u8_small by apply ld8_bounds. f_equal. lia.
    + rewrite IH. repeat case_decide; try lia; done.
Qed.
