(* ===== verification/CString.v ===== *)
(** C strings and little-endian fields of byte arrays.

    A [char *] is the list of bytes from the pointer on; reading past the end of
    the list reads 0, the terminator.  The string it denotes is [cstr]: the bytes
    before the first NUL.  The kernel and its programs each carry their own copies
    of these helpers, in the two loop shapes modelled here. *)
From S2P Require Import Prelude.
From Stdlib Require Ascii String.

(** The bytes of a string literal, without its terminator. *)
Definition text (s : String.string) : list Z :=
  map (fun a => Z.of_N (Ascii.N_of_ascii a)) (String.list_ascii_of_string s).

Definition c_bs : Z := 8.
Definition c_nl : Z := 10.
Definition c_space : Z := 32.
Definition c_0 : Z := 48.

(** The character at a [const char *]. *)
Definition peek (s : list Z) : Z := s.[0].

Definition is_digit (c : Z) : bool := (c_0 <=? c) && (c <=? 57).

Fixpoint skip_spaces (s : list Z) : list Z :=
  match s with c :: s' => if c =? c_space then skip_spaces s' else s | [] => [] end.

Fixpoint cstr (s : list Z) : list Z :=
  match s with
  | [] => []
  | c :: s' => if c =? 0 then [] else c :: cstr s'
  end.

(** [for (; a[i] != 0 || b[i] != 0; i++) if (a[i] != b[i]) return 0; return 1;] *)
Fixpoint str_eq (a b : list Z) : bool :=
  match a, b with
  | [], [] => true
  | x :: _, [] => x =? 0
  | [], y :: _ => y =? 0
  | x :: a', y :: b' =>
      if (x =? 0) && (y =? 0) then true
      else if negb (x =? y) then false else str_eq a' b'
  end.

(** [while (a[i] != 0 && b[i] != 0) { if (a[i] != b[i]) return 0; i++; }
    return a[i] == 0 && b[i] == 0;] *)
Fixpoint str_eq_and (a b : list Z) : bool :=
  match a, b with
  | [], [] => true
  | x :: _, [] => x =? 0
  | [], y :: _ => y =? 0
  | x :: a', y :: b' =>
      if negb (x =? 0) && negb (y =? 0)
      then if negb (x =? y) then false else str_eq_and a' b'
      else (x =? 0) && (y =? 0)
  end.

Fixpoint str_len (s : list Z) : Z :=
  match s with
  | [] => 0
  | c :: s' => if c =? 0 then 0 else 1 + str_len s'
  end.

(** [while (prefix[i] != 0) { if (s[i] != prefix[i]) return 0; i++; } return 1;] *)
Fixpoint str_starts_with (s prefix : list Z) {struct prefix} : bool :=
  match prefix with
  | [] => true
  | p :: prefix' =>
      if p =? 0 then true
      else match s with
           | [] => false
           | c :: s' => if c =? p then str_starts_with s' prefix' else false
           end
  end.

(** Copy [src] to [dst + off] up to its NUL, at most [max] characters; returns the
    array and the number of characters copied.
    [for (i = 0; i < max && src[i] != 0; i++) dst[off + i] = src[i];] *)
Definition str_copy (dst : list Z) (off : Z) (src : list Z) (max : Z) : list Z * Z :=
  match for_range 0 max
          (fun i dst => if src.[i] =? 0 then inr (dst, i)
                        else inl (dst.[off + i <- src.[i]])) dst with
  | inr r => r
  | inl dst' => (dst', max)
  end.

(** [write_u32] and [read_u32] on [p = l + off]. *)
Definition write_u32 (l : list Z) (off v : Z) : list Z :=
  l.[off <- u8 (Z.land v 255)]
   .[off + 1 <- u8 (Z.land (Z.shiftr v 8) 255)]
   .[off + 2 <- u8 (Z.land (Z.shiftr v 16) 255)]
   .[off + 3 <- u8 (Z.land (Z.shiftr v 24) 255)].

Definition read_u32 (l : list Z) (off : Z) : Z :=
  Z.lor (Z.lor (Z.lor l.[off] (Z.shiftl l.[off + 1] 8))
               (Z.shiftl l.[off + 2] 16))
        (Z.shiftl l.[off + 3] 24).

(** Every element is a byte. *)
Definition bytes_ok (l : list Z) : Prop := forall i, 0 <= i -> 0 <= l.[i] < 256.

(** [l[off .. off + n)] *)
Definition slice {A} (l : list A) (off n : Z) : list A :=
  take (Z.to_nat n) (drop (Z.to_nat off) l).

(** ** Lemmas *)

Create HintDb cstr.

Lemma str_eq_cstr a b : str_eq a b = true <-> cstr a = cstr b.
Proof.
  revert b. induction a as [|x a IH]; intros [|y b]; simpl.
  - done.
  - destruct (y =? 0) eqn:E; [done|]. split; done.
  - destruct (x =? 0) eqn:E; [done|]. split; done.
  - destruct (x =? 0) eqn:Ex, (y =? 0) eqn:Ey; simpl; bool_prop.
    + done.
    + replace (x =? y) with false by lia. split; [done|intros H; congruence].
    + replace (x =? y) with false by lia. split; [done|intros H; congruence].
    + destruct (x =? y) eqn:E; simpl; bool_prop.
      * rewrite IH. subst. split; [by intros ->|congruence].
      * split; [done|congruence].
Qed.

Lemma str_eq_and_cstr a b : str_eq_and a b = true <-> cstr a = cstr b.
Proof.
  rewrite <- str_eq_cstr. revert b. induction a as [|x a IH]; intros [|y b]; simpl; try done.
  destruct (x =? 0) eqn:Ex, (y =? 0) eqn:Ey; simpl; bool_prop; try done.
  - by replace (x =? y) with false by lia.
  - by replace (x =? y) with false by lia.
  - destruct (x =? y); simpl; [apply IH|done].
Qed.

Lemma str_len_cstr s : str_len s = zlen (cstr s).
Proof.
  unfold zlen. induction s as [|c s IH]; simpl; [done|].
  destruct (c =? 0); simpl; [done|]. lia.
Qed.

Lemma str_starts_with_cstr s p :
  str_starts_with s p = true <-> exists t, cstr s = cstr p ++ t.
Proof.
  revert s. induction p as [|c p IH]; intros s; simpl.
  - split; [by exists (cstr s)|done].
  - destruct (c =? 0) eqn:Ec; bool_prop; [split; [by exists (cstr s)|done]|].
    destruct s as [|x s]; simpl; [split; [done|intros [t Ht]; simpl in Ht; discriminate]|].
    destruct (x =? c) eqn:E; bool_prop.
    + subst. replace (c =? 0) with false by lia. rewrite IH.
      split; intros [t Ht]; exists t; simpl; congruence.
    + split; [done|]. intros [t Ht]. destruct (x =? 0); simpl in Ht; congruence.
Qed.

(** A list without NUL denotes itself. *)
Lemma cstr_nonul s : Forall (fun c => c <> 0) s -> cstr s = s.
Proof.
  induction 1 as [|c s Hc _ IH]; simpl; [done|].
  replace (c =? 0) with false by lia. by rewrite IH.
Qed.

Lemma cstr_app_nul s t : Forall (fun c => c <> 0) s -> cstr (s ++ 0 :: t) = s.
Proof.
  induction 1 as [|c s Hc _ IH]; simpl; [done|].
  replace (c =? 0) with false by lia. by rewrite IH.
Qed.

Lemma cstr_Forall s : Forall (fun c => c <> 0) (cstr s).
Proof.
  induction s as [|c s IH]; simpl; [done|].
  destruct (c =? 0) eqn:E; bool_prop; by constructor.
Qed.

Lemma cstr_idem s : cstr (cstr s) = cstr s.
Proof. apply cstr_nonul, cstr_Forall. Qed.

Lemma cstr_length s : zlen (cstr s) <= zlen s.
Proof.
  unfold zlen. induction s as [|c s IH]; simpl; [done|].
  destruct (c =? 0); simpl; lia.
Qed.

Lemma cstr_get s i : 0 <= i < zlen (cstr s) -> s.[i] = (cstr s).[i] /\ s.[i] <> 0.
Proof.
  unfold zlen. revert i. induction s as [|c s IH]; simpl; [intros; lia|].
  intros i Hi. destruct (c =? 0) eqn:E; simpl in *; [lia|]. bool_prop.
  destruct (Z.to_nat i) as [|n] eqn:En; simpl; [done|].
  specialize (IH (Z.of_nat n)). rewrite Nat2Z.id in IH. apply IH. lia.
Qed.

Lemma cstr_end s : s.[zlen (cstr s)] = 0.
Proof.
  unfold zlen. induction s as [|c s IH]; simpl; [reflexivity|].
  destruct (c =? 0) eqn:E; bool_prop; cbn [length]; rewrite Nat2Z.id in *; done.
Qed.

(** The C string is determined by its characters and its terminator. *)
Lemma cstr_unique s t :
  (forall i, 0 <= i < zlen t -> s.[i] = t.[i] /\ t.[i] <> 0) -> s.[zlen t] = 0 ->
  cstr s = t.
Proof.
  revert s. induction t as [|c t IH]; intros s Hs He.
  - destruct s as [|x s]; simpl; [done|]. simpl in He. by replace (x =? 0) with true by lia.
  - unfold zlen in *. simpl in *. destruct s as [|x s].
    { destruct (Hs 0 ltac:(lia)) as [H1 H2]. simpl in *. done. }
    destruct (Hs 0 ltac:(lia)) as [H1 H2]. simpl in H1, H2. subst x. simpl.
    replace (c =? 0) with false by lia. f_equal. apply IH.
    + intros i Hi. specialize (Hs (i + 1) ltac:(lia)).
      replace (Z.to_nat (i + 1)) with (S (Z.to_nat i)) in Hs by lia. done.
    + rewrite Nat2Z.id in *. done.
Qed.

(** ** Copies *)

Lemma str_copy_spec dst off src max :
  0 <= off -> 0 <= max -> off + max <= zlen dst ->
  let n := Z.min max (zlen (cstr src)) in
  (str_copy dst off src max).2 = n /\
  zlen (str_copy dst off src max).1 = zlen dst /\
  forall j, 0 <= j ->
    (str_copy dst off src max).1.[j] =
      if decide (off <= j < off + n) then src.[j - off] else dst.[j].
Proof.
  intros Hoff Hmax Hlen n. pose proof (zlen_nonneg (cstr src)).
  pose proof (for_range_inv 0 max
    (fun i d => if src.[i] =? 0 then inr (d, i) else inl (d.[off + i <- src.[i]])) dst
    (fun i d => i <= zlen (cstr src) /\ zlen d = zlen dst /\ forall j, 0 <= j ->
       d.[j] = if decide (off <= j < off + i) then src.[j - off] else dst.[j])
    (fun r => r.2 = n /\ zlen r.1 = zlen dst /\ forall j, 0 <= j ->
       r.1.[j] = if decide (off <= j < off + n) then src.[j - off] else dst.[j])) as L.
  assert (Hbody : forall i d, 0 <= i < max ->
    i <= zlen (cstr src) /\ zlen d = zlen dst /\ (forall j, 0 <= j ->
       d.[j] = if decide (off <= j < off + i) then src.[j - off] else dst.[j]) ->
    match (if src.[i] =? 0 then inr (d, i) else inl (d.[off + i <- src.[i]])) with
    | inl d' => i + 1 <= zlen (cstr src) /\ zlen d' = zlen dst /\ (forall j, 0 <= j ->
       d'.[j] = if decide (off <= j < off + (i + 1)) then src.[j - off] else dst.[j])
    | inr r => r.2 = n /\ zlen r.1 = zlen dst /\ (forall j, 0 <= j ->
       r.1.[j] = if decide (off <= j < off + n) then src.[j - off] else dst.[j])
    end).
  { intros i d Hi (Hle & Hz & Hd). destruct (src.[i] =? 0) eqn:E; bool_prop.
    - assert (i = zlen (cstr src)) as ->.
      { destruct (decide (i < zlen (cstr src))); [|lia].
        destruct (cstr_get src i); [lia|]. done. }
      replace (zlen (cstr src)) with n in * by lia. done.
    - split; [|split; [by rewrite aset_length|]].
      { destruct (decide (i < zlen (cstr src))); [lia|].
        assert (i = zlen (cstr src)) by lia. subst i. by rewrite cstr_end in E. }
      intros j Hj. rewrite aget_aset_cases by lia. rewrite Hd by done.
      destruct (decide (off + i = j)) as [<-|].
      + rewrite decide_True by lia. f_equal. f_equal. lia.
      + repeat case_decide; try lia; done. }
  assert (H0 : 0 <= zlen (cstr src) /\ zlen dst = zlen dst /\ (forall j, 0 <= j ->
    dst.[j] = if decide (off <= j < off + 0) then src.[j - off] else dst.[j])).
  { split; [lia|]. split; [done|]. intros j Hj. by rewrite decide_False by lia. }
  specialize (L Hmax H0 Hbody). unfold str_copy. destruct (for_range _ _ _ _) as [d|r].
  - destruct L as (Hi & Hz & Hj). simpl. replace n with max by lia. done.
  - done.
Qed.

(** ** Little-endian fields *)

Lemma lor_shiftl_add a b k :
  0 <= k -> 0 <= a < 2 ^ k -> 0 <= b -> Z.lor a (Z.shiftl b k) = a + b * 2 ^ k.
Proof.
  intros Hk Ha Hb. rewrite <- Z.lxor_lor, <- Z.add_nocarry_lxor.
  - by rewrite Z.shiftl_mul_pow2.
  - apply Z.bits_inj_0. intros n. rewrite Z.land_spec.
    destruct (decide (n < k)).
    + rewrite Z.shiftl_spec_low by lia. apply andb_false_r.
    + destruct (decide (0 <= n)); [|by rewrite Z.testbit_neg_r by lia].
      rewrite <- (Z.mod_small a (2 ^ k)), Z.mod_pow2_bits_high by lia. done.
  - apply Z.bits_inj_0. intros n. rewrite Z.land_spec.
    destruct (decide (n < k)).
    + rewrite Z.shiftl_spec_low by lia. apply andb_false_r.
    + destruct (decide (0 <= n)); [|by rewrite Z.testbit_neg_r by lia].
      rewrite <- (Z.mod_small a (2 ^ k)), Z.mod_pow2_bits_high by lia. done.
Qed.

Lemma land_255 x : Z.land x 255 = x mod 256.
Proof. change 255 with (Z.ones 8). rewrite Z.land_ones by lia. done. Qed.

Section u32_fields.
Implicit Types (l : list Z) (off v : Z).

Lemma read_u32_bytes l off :
  bytes_ok l -> 0 <= off ->
  read_u32 l off = l.[off] + l.[off + 1] * 256 + l.[off + 2] * 65536 + l.[off + 3] * 16777216.
Proof.
  intros H Hoff. unfold read_u32.
  pose proof (H off ltac:(lia)). pose proof (H (off + 1) ltac:(lia)).
  pose proof (H (off + 2) ltac:(lia)). pose proof (H (off + 3) ltac:(lia)).
  rewrite (lor_shiftl_add l.[off] l.[off + 1] 8) by lia.
  rewrite (lor_shiftl_add _ l.[off + 2] 16) by lia.
  rewrite (lor_shiftl_add _ l.[off + 3] 24) by lia. lia.
Qed.

Lemma read_u32_bounds l off : bytes_ok l -> 0 <= off -> 0 <= read_u32 l off < 4294967296.
Proof.
  intros H Hoff. rewrite read_u32_bytes by done.
  pose proof (H off ltac:(lia)). pose proof (H (off + 1) ltac:(lia)).
  pose proof (H (off + 2) ltac:(lia)). pose proof (H (off + 3) ltac:(lia)). lia.
Qed.

Lemma write_u32_length l off v : zlen (write_u32 l off v) = zlen l.
Proof. unfold write_u32. by rewrite !aset_length. Qed.

Lemma write_u32_get l off v j :
  0 <= off -> off + 4 <= zlen l -> 0 <= j ->
  (write_u32 l off v).[j] =
    if decide (off <= j < off + 4) then (v / 256 ^ (j - off)) mod 256 else l.[j].
Proof.
  intros Hoff Hlen Hj. unfold write_u32. rewrite !land_255, !Z.shiftr_div_pow2 by lia.
  rewrite !aget_aset_cases by (rewrite ?aset_length; lia).
  unfold u8. rewrite !Zmod_mod.
  destruct (decide (off + 3 = j)) as [<-|].
  { rewrite decide_True by lia. by replace (off + 3 - off) with 3 by lia. }
  destruct (decide (off + 2 = j)) as [<-|].
  { rewrite decide_True by lia. by replace (off + 2 - off) with 2 by lia. }
  destruct (decide (off + 1 = j)) as [<-|].
  { rewrite decide_True by lia. by replace (off + 1 - off) with 1 by lia. }
  destruct (decide (off = j)) as [<-|].
  { rewrite decide_True by lia. rewrite Z.sub_diag, Z.div_1_r. done. }
  by rewrite decide_False by lia.
Qed.

Lemma bytes_ok_ext l l' :
  bytes_ok l -> (forall j, 0 <= j -> l'.[j] = l.[j] \/ 0 <= l'.[j] < 256) -> bytes_ok l'.
Proof. intros H Hj i Hi. destruct (Hj i Hi) as [->|]; [by apply H|done]. Qed.

Lemma write_u32_ok l off v :
  bytes_ok l -> 0 <= off -> off + 4 <= zlen l -> bytes_ok (write_u32 l off v).
Proof.
  intros H ??. apply (bytes_ok_ext l); [done|]. intros j Hj.
  rewrite write_u32_get by done. case_decide; [right; apply Z.mod_pos_bound; lia|by left].
Qed.

Lemma aset_ok l i v : bytes_ok l -> 0 <= i -> 0 <= v < 256 -> bytes_ok (l.[i <- v]).
Proof.
  intros H Hi Hv. apply (bytes_ok_ext l); [done|]. intros j Hj.
  destruct (decide (i = j)) as [->|]; [|left; apply aget_aset_ne; lia].
  destruct (decide (j < zlen l)); [right; rewrite aget_aset_eq; lia|left].
  rewrite list_insert_ge; [done|]. unfold zlen in *. lia.
Qed.

Lemma read_u32_of_bytes l off v :
  bytes_ok l -> 0 <= off ->
  (forall k, 0 <= k < 4 -> l.[off + k] = (v / 256 ^ k) mod 256) -> read_u32 l off = u32 v.
Proof.
  intros H Hoff Hk. rewrite read_u32_bytes by done.
  pose proof (Hk 0 ltac:(lia)) as H0. rewrite Z.add_0_r in H0. rewrite H0, !Hk by lia.
  change (256 ^ 0) with 1. change (256 ^ 1) with 256. change (256 ^ 2) with 65536.
  change (256 ^ 3) with 16777216. unfold u32. clear. div_lia.
Qed.

Lemma read_write_u32_eq l off v :
  bytes_ok l -> 0 <= off -> off + 4 <= zlen l ->
  read_u32 (write_u32 l off v) off = u32 v.
Proof.
  intros H Hoff Hlen. apply read_u32_of_bytes; [by apply write_u32_ok|done|].
  intros k Hk. rewrite write_u32_get by lia. rewrite decide_True by lia.
  by replace (off + k - off) with k by lia.
Qed.

Lemma read_u32_ext l l' off :
  (forall j, off <= j < off + 4 -> l'.[j] = l.[j]) -> read_u32 l' off = read_u32 l off.
Proof. intros H. unfold read_u32. by rewrite !H by lia. Qed.

Lemma read_write_u32_ne l off off' v :
  0 <= off -> off + 4 <= zlen l -> 0 <= off' -> off + 4 <= off' \/ off' + 4 <= off ->
  read_u32 (write_u32 l off v) off' = read_u32 l off'.
Proof.
  intros. apply read_u32_ext. intros j Hj. rewrite write_u32_get by lia.
  by rewrite decide_False by lia.
Qed.
End u32_fields.

#[export] Hint Rewrite write_u32_length : carr.
#[export] Hint Resolve write_u32_ok read_u32_bounds : cstr.

(** ** Slices *)

Section slices.
Context {A : Type} `{Inhabited A}.
Implicit Types (l : list A) (off n i : Z).

Lemma slice_get l off n i : 0 <= off -> 0 <= i < n -> (slice l off n).[i] = l.[off + i].
Proof.
  intros Hoff Hi. unfold slice. rewrite !list_lookup_total_alt.
  rewrite lookup_take_lt by lia. rewrite lookup_drop. do 2 f_equal. lia.
Qed.

Lemma slice_length l off n : 0 <= off -> 0 <= n -> off + n <= zlen l -> zlen (slice l off n) = n.
Proof. intros. unfold slice, zlen in *. rewrite length_take, length_drop. lia. Qed.

Lemma slice_ext l l' off n :
  0 <= off -> 0 <= n -> off + n <= zlen l -> off + n <= zlen l' ->
  (forall i, off <= i < off + n -> l.[i] = l'.[i]) -> slice l off n = slice l' off n.
Proof.
  intros Hoff Hn Hl Hl' Hi. apply array_ext; [by rewrite !slice_length|].
  intros i Hib. rewrite slice_length in Hib by done. rewrite !slice_get by lia.
  apply Hi. lia.
Qed.
End slices.
