(* ===== verification/RingBuffer.v ===== *)
(** The byte ring buffer of [kernel/lib/ring_buffer.c] and its refinement of a
    bounded first-in first-out queue. *)
From S2P Require Import Prelude.

Record ring_buffer_t := mk_ring_buffer {
  storage : list Z;
  capacity : Z;
  head : Z;
  tail : Z;
}.

Definition ring_buffer_init (st : list Z) (cap : Z) : ring_buffer_t :=
  mk_ring_buffer st cap 0 0.

(** Returns the new buffer and C's truth value. *)
Definition ring_buffer_push (rb : ring_buffer_t) (value : Z) : ring_buffer_t * Z :=
  let next := u32 (head rb + 1) mod capacity rb in
  if next =? tail rb then (rb, 0)
  else (mk_ring_buffer ((storage rb).[head rb <- value]) (capacity rb) next (tail rb), 1).

(** On success the popped character is the one stored through [out]. *)
Definition ring_buffer_pop (rb : ring_buffer_t) : ring_buffer_t * option Z :=
  if tail rb =? head rb then (rb, None)
  else
    let c := (storage rb).[tail rb] in
    (mk_ring_buffer (storage rb) (capacity rb) (head rb)
       (u32 (tail rb + 1) mod capacity rb), Some c).

Create HintDb rb.

(** ** Invariant and abstraction *)

Definition rb_wf (rb : ring_buffer_t) : Prop :=
  0 < capacity rb < 4294967296 /\ zlen (storage rb) = capacity rb /\
  0 <= head rb < capacity rb /\ 0 <= tail rb < capacity rb.

(** Number of characters waiting. *)
Definition rb_count (rb : ring_buffer_t) : Z := (head rb - tail rb) mod capacity rb.

(** The characters waiting, oldest first. *)
Definition rb_contents (rb : ring_buffer_t) : list Z :=
  (fun k => (storage rb).[(tail rb + k) mod capacity rb]) <$> seqZ 0 (rb_count rb).

Lemma rb_count_bounds rb : rb_wf rb -> 0 <= rb_count rb < capacity rb.
Proof. intros (? & _). apply Z.mod_pos_bound. lia. Qed.

Lemma rb_count_cases rb :
  rb_wf rb ->
  rb_count rb = if decide (tail rb <= head rb) then head rb - tail rb
                else head rb - tail rb + capacity rb.
Proof.
  intros (? & ? & ? & ?). unfold rb_count. case_decide.
  - apply Z.mod_small. lia.
  - symmetry. apply Z.mod_unique with (-1); lia.
Qed.

Lemma rb_contents_length rb : rb_wf rb -> zlen (rb_contents rb) = rb_count rb.
Proof.
  intros H. pose proof (rb_count_bounds _ H). unfold rb_contents, zlen.
  rewrite length_fmap, length_seqZ. lia.
Qed.

Lemma ring_buffer_push_wf rb v : rb_wf rb -> rb_wf (ring_buffer_push rb v).1.
Proof.
  intros (Hc & Hl & Hh & Ht). unfold ring_buffer_push. split_if; [done|].
  pose proof (Z.mod_pos_bound (u32 (head rb + 1)) (capacity rb)).
  unfold rb_wf; simpl. rewrite aset_length. lia.
Qed.

Lemma ring_buffer_pop_wf rb : rb_wf rb -> rb_wf (ring_buffer_pop rb).1.
Proof.
  intros (Hc & Hl & Hh & Ht). unfold ring_buffer_pop. split_if; [done|].
  pose proof (Z.mod_pos_bound (u32 (tail rb + 1)) (capacity rb)).
  unfold rb_wf; simpl. lia.
Qed.

#[export] Hint Resolve ring_buffer_push_wf ring_buffer_pop_wf : rb.

(** The full test of [ring_buffer_push] holds exactly when one slot is left. *)
Lemma rb_full_iff rb :
  rb_wf rb ->
  u32 (head rb + 1) mod capacity rb = tail rb <-> rb_count rb = capacity rb - 1.
Proof.
  intros H. rewrite (rb_count_cases _ H). destruct H as (? & ? & ? & ?).
  rewrite u32_small, mod_add_wrap by lia. repeat case_decide; lia.
Qed.

Lemma rb_push_contents rb v :
  rb_wf rb -> rb_count rb < capacity rb - 1 ->
  rb_contents (ring_buffer_push rb v).1 = rb_contents rb ++ [v].
Proof.
  intros H Hn. assert (Hne : u32 (head rb + 1) mod capacity rb <> tail rb).
  { rewrite rb_full_iff by done. lia. }
  pose proof (rb_count_bounds _ H) as Hb.
  pose proof (rb_count_cases _ H) as Hcc.
  pose proof (ring_buffer_push_wf _ v H) as H'.
  pose proof (rb_count_cases _ H') as Hcc'.
  unfold rb_contents. unfold ring_buffer_push in *.
  apply Z.eqb_neq in Hne as Hne'. rewrite Hne' in *. simpl in *.
  destruct H as (Hc & Hl & Hh & Ht).
  rewrite u32_small, mod_add_wrap in * by lia.
  set (rb' := mk_ring_buffer _ _ _ _) in *.
  assert (Hk : rb_count rb' = rb_count rb + 1).
  { rewrite Hcc, Hcc'. repeat case_decide; lia. }
  rewrite Hk, seqZ_app, fmap_app by lia. simpl. f_equal.
  - apply list_fmap_ext. intros i k Hik. apply lookup_seqZ in Hik as [-> Hik].
    apply aget_aset_ne; [lia|apply Z.mod_pos_bound; lia|].
    intros E. rewrite mod_wrap2 in E by lia. rewrite Hcc in Hik.
    repeat case_decide; lia.
  - f_equal. assert (Hr : (tail rb + (0 + rb_count rb)) mod capacity rb = head rb).
    { rewrite mod_wrap2 by (repeat case_decide; lia). rewrite Hcc.
      repeat case_decide; lia. }
    change (Z.of_nat 0) with 0. rewrite Z.add_0_l, Hr. apply aget_aset_eq. lia.
Qed.

Lemma rb_pop_contents rb :
  rb_wf rb -> tail rb <> head rb ->
  rb_contents rb = (storage rb).[tail rb] :: rb_contents (ring_buffer_pop rb).1.
Proof.
  intros H Hne. pose proof (rb_count_bounds _ H) as Hb.
  pose proof (rb_count_cases _ H) as Hcc.
  pose proof (ring_buffer_pop_wf _ H) as H'.
  pose proof (rb_count_cases _ H') as Hcc'.
  unfold rb_contents. unfold ring_buffer_pop in *.
  apply Z.eqb_neq in Hne as Hne'. rewrite Hne' in *. simpl in *.
  destruct H as (Hc & Hl & Hh & Ht).
  rewrite u32_small, mod_add_wrap in * by lia.
  set (rb' := mk_ring_buffer _ _ _ _) in *.
  assert (Hk : rb_count rb = 1 + rb_count rb').
  { rewrite Hcc, Hcc'. repeat case_decide; lia. }
  assert (0 < rb_count rb) by (repeat case_decide; lia).
  rewrite Hk, seqZ_cons by lia.
  rewrite fmap_cons, Z.add_0_r, Z.mod_small by lia. f_equal.
  replace (Z.pred (1 + rb_count rb')) with (rb_count rb') by lia.
  change (Z.succ 0) with (1 + 0). rewrite <- (fmap_add_seqZ 1), <- list_fmap_compose.
  apply list_fmap_ext. intros i k Hik. apply lookup_seqZ in Hik as [-> Hik]. simpl.
  f_equal. f_equal. rewrite Hcc' in Hik.
  rewrite !mod_wrap2 by (repeat case_decide; lia). repeat case_decide; lia.
Qed.

(** ** Abstract specification: a bounded queue *)

Inductive rb_op := Push (v : Z) | Pop.

(** What an operation reports: C's truth value of a push, the character of a
    pop. *)
Inductive rb_obs := Pushed (ok : Z) | Popped (c : option Z).

Definition queue_op (bound : Z) (q : list Z) (op : rb_op) : list Z * rb_obs :=
  match op with
  | Push v => if zlen q <? bound then (q ++ [v], Pushed 1) else (q, Pushed 0)
  | Pop => match q with [] => ([], Popped None) | c :: q' => (q', Popped (Some c)) end
  end.

Definition ring_op (rb : ring_buffer_t) (op : rb_op) : ring_buffer_t * rb_obs :=
  match op with
  | Push v => let (rb', ok) := ring_buffer_push rb v in (rb', Pushed ok)
  | Pop => let (rb', c) := ring_buffer_pop rb in (rb', Popped c)
  end.

(** Run a sequence of operations, collecting what each one reports. *)
Fixpoint run_ops {A} (f : A -> rb_op -> A * rb_obs) (a : A) (ops : list rb_op) :
    A * list rb_obs :=
  match ops with
  | [] => (a, [])
  | op :: ops' =>
      let (a', o) := f a op in
      let (a'', os) := run_ops f a' ops' in (a'', o :: os)
  end.

Lemma ring_op_wf rb op : rb_wf rb -> rb_wf (ring_op rb op).1.
Proof.
  intros H. destruct op as [v|]; simpl.
  - pose proof (ring_buffer_push_wf rb v H). by destruct (ring_buffer_push rb v).
  - pose proof (ring_buffer_pop_wf rb H). by destruct (ring_buffer_pop rb).
Qed.

Lemma ring_op_capacity rb op : capacity (ring_op rb op).1 = capacity rb.
Proof.
  destruct op as [v|]; simpl; [unfold ring_buffer_push|unfold ring_buffer_pop];
    by split_if.
Qed.

Lemma ring_op_simulates rb op :
  rb_wf rb ->
  queue_op (capacity rb - 1) (rb_contents rb) op =
    (rb_contents (ring_op rb op).1, (ring_op rb op).2).
Proof.
  intros H. pose proof (rb_count_bounds _ H).
  pose proof (rb_contents_length _ H) as Hlen. destruct op as [v|]; simpl.
  - rewrite Hlen. destruct (decide (rb_count rb = capacity rb - 1)) as [E|E].
    + replace (_ <? _) with false by lia.
      apply rb_full_iff in E; [|done]. apply Z.eqb_eq in E.
      unfold ring_buffer_push. by rewrite E.
    + replace (_ <? _) with true by lia.
      rewrite <- (rb_push_contents rb v) by (done || lia).
      rewrite <- (rb_full_iff _ H) in E. apply Z.eqb_neq in E.
      unfold ring_buffer_push. by rewrite E.
  - destruct (decide (tail rb = head rb)) as [E|E].
    + assert (Hz : rb_contents rb = []).
      { unfold rb_contents, rb_count. by rewrite E, Z.sub_diag, Zmod_0_l. }
      rewrite Hz. unfold ring_buffer_pop. apply Z.eqb_eq in E. rewrite E.
      simpl. by rewrite Hz.
    + rewrite (rb_pop_contents rb H E). unfold ring_buffer_pop.
      apply Z.eqb_neq in E. by rewrite E.
Qed.

(** from any well-formed ring buffer, every sequence of pushes and pops
    reports exactly what a first-in first-out queue bounded by [capacity - 1]
    reports, and leaves the buffer well formed and holding that queue. *)
Theorem ring_buffer_refines_queue rb ops :
  rb_wf rb ->
  rb_wf (run_ops ring_op rb ops).1 /\
  run_ops (queue_op (capacity rb - 1)) (rb_contents rb) ops =
    (rb_contents (run_ops ring_op rb ops).1, (run_ops ring_op rb ops).2).
Proof.
  revert rb. induction ops as [|op ops IH]; intros rb H; simpl; [done|].
  pose proof (ring_op_simulates rb op H) as Hs.
  pose proof (ring_op_wf rb op H) as Hw. pose proof (ring_op_capacity rb op) as Hc.
  rewrite Hs. destruct (ring_op rb op) as [rb1 o]; simpl in *.
  specialize (IH rb1 Hw). rewrite Hc in IH. destruct (run_ops ring_op rb1 ops) as [rb2 os].
  destruct IH as [? ->]. done.
Qed.

Definition rb_demo : ring_buffer_t := ring_buffer_init (replicate 4 0) 4.
Definition rb_demo_ops : list rb_op :=
  [Push 7; Push 8; Push 9; Push 10; Pop; Push 11; Pop].

Lemma ring_buffer_refines_queue_witness :
  rb_wf rb_demo /\
  run_ops (queue_op (capacity rb_demo - 1)) (rb_contents rb_demo) rb_demo_ops =
    (rb_contents (run_ops ring_op rb_demo rb_demo_ops).1,
     (run_ops ring_op rb_demo rb_demo_ops).2) /\
  (run_ops ring_op rb_demo rb_demo_ops).2 =
    [Pushed 1; Pushed 1; Pushed 1; Pushed 0; Popped (Some 7); Pushed 1; Popped (Some 8)].
Proof.
  assert (H : rb_wf rb_demo) by (repeat split; simpl; lia).
  split; [exact H|].
  split; [exact (proj2 (ring_buffer_refines_queue rb_demo rb_demo_ops H))|reflexivity].
Defined.
