(* ===== verification/Pmm.v ===== *)
(** The BIOS memory map ([kernel/mm/e820.c]) and the physical frame allocator
    ([kernel/mm/pmm.c]). *)
From S2P Require Import Prelude Mem.

(** * The E820 memory map *)

Module E820.

Definition E820_TYPE_USABLE : Z := 1.
Definition E820_TYPE_RESERVED : Z := 2.
Definition E820_TYPE_ACPI_RECLAIMABLE : Z := 3.
Definition E820_TYPE_ACPI_NVS : Z := 4.
Definition E820_TYPE_BAD : Z := 5.

Record e820_entry_t := mk_e820_entry {
  base : Z;
  length : Z;
  type : Z;
  extended_attributes : Z;
}.

#[global] Instance e820_entry_inhabited : Inhabited e820_entry_t :=
  populate (mk_e820_entry 0 0 0 0).

(** The buffer the bootloader leaves at a fixed address. *)
Record e820_buffer_t := mk_e820_buffer {
  count : Z;
  entries : list e820_entry_t;
}.

Definition e820_entry_count (b : e820_buffer_t) : Z := count b.

Definition e820_get_entry (b : e820_buffer_t) (index : Z) : option e820_entry_t :=
  if index >=? count b then None else Some (entries b).[index].

Definition e820_total_usable_bytes (b : e820_buffer_t) : Z :=
  for_each 0 (count b)
    (fun i total =>
       if type (entries b).[i] =? E820_TYPE_USABLE
       then total +64 length (entries b).[i] else total) 0.

End E820.

(** * The frame allocator *)

Definition PMM_FRAME_SIZE : Z := 4096.
Definition PMM_MAX_MEMORY : Z := 4294967296.
Definition PMM_MAX_FRAMES : Z := PMM_MAX_MEMORY / PMM_FRAME_SIZE.
Definition PMM_BITMAP_BYTES : Z := PMM_MAX_FRAMES / 8.

(** The allocator's static variables.  [bitmap] is the static byte array; an
    index with no binding holds its initial 0. *)
Record pmm := mk_pmm {
  bitmap : gmap Z Z;
  total_frames : Z;
  free_frames : Z;
  search_hint : Z;
}.

Definition pmm_static : pmm := mk_pmm ∅ 0 0 0.

Definition bitmap_get (b : gmap Z Z) (byte : Z) : Z := default 0 (b !! byte).

Definition frame_of (addr : Z) : Z := addr / PMM_FRAME_SIZE.

(** [(unsigned char)(1 << (frame % 8))] *)
Definition frame_bit (frame : Z) : Z := u8 (Z.shiftl 1 (frame mod 8)).

Definition set_used (p : pmm) (frame : Z) : pmm :=
  if frame >=? PMM_MAX_FRAMES then p
  else
    let byte := frame / 8 in
    let bit := frame_bit frame in
    if Z.land (bitmap_get (bitmap p) byte) bit =? 0 then
      mk_pmm (<[byte := Z.lor (bitmap_get (bitmap p) byte) bit]> (bitmap p))
        (total_frames p)
        (if free_frames p >? 0 then free_frames p - 1 else free_frames p)
        (search_hint p)
    else p.

Definition set_free (p : pmm) (frame : Z) : pmm :=
  if frame >=? PMM_MAX_FRAMES then p
  else
    let byte := frame / 8 in
    let bit := frame_bit frame in
    if negb (Z.land (bitmap_get (bitmap p) byte) bit =? 0) then
      mk_pmm (<[byte := Z.land (bitmap_get (bitmap p) byte) (u8 (Z.lnot bit))]> (bitmap p))
        (total_frames p) (free_frames p +64 1) (search_hint p)
    else p.

Definition is_used (p : pmm) (frame : Z) : bool :=
  if frame >=? PMM_MAX_FRAMES then true
  else negb (Z.land (bitmap_get (bitmap p) (frame / 8)) (frame_bit frame) =? 0).

Definition reserve_range (p : pmm) (start end_ : Z) : pmm :=
  let first := frame_of start in
  let last := frame_of (end_ +64 PMM_FRAME_SIZE -64 1) in
  for_each first last (fun f p => set_used p f) p.

(** One usable region of the memory map: free every frame wholly inside it. *)
Definition pmm_init_region (p : pmm) (entry : E820.e820_entry_t) : pmm :=
  if negb (E820.type entry =? E820.E820_TYPE_USABLE) then p
  else
    let start := E820.base entry in
    let end0 := E820.base entry +64 E820.length entry in
    if start >=? PMM_MAX_MEMORY then p
    else
      let end_ := if end0 >? PMM_MAX_MEMORY then PMM_MAX_MEMORY else end0 in
      let first := frame_of (start +64 PMM_FRAME_SIZE -64 1) in
      let last := frame_of end_ in
      for_each first last
        (fun f p =>
           let p' := set_free p f in
           mk_pmm (bitmap p') (total_frames p' +64 1) (free_frames p') (search_hint p'))
        p.

(** [kernel_end] is the linker symbol [_kernel_end]. *)
Definition pmm_init (p : pmm) (e820 : E820.e820_buffer_t) (kernel_end : Z) : pmm :=
  let b := for_each 0 PMM_BITMAP_BYTES (fun i b => <[i := 255]> b) (bitmap p) in
  let p := mk_pmm b 0 0 0 in
  let p := for_each 0 (E820.e820_entry_count e820)
    (fun i p => match E820.e820_get_entry e820 i with
                | None => p
                | Some entry => pmm_init_region p entry
                end) p in
  let p := reserve_range p 0 33280 in
  let p := reserve_range p 524288 655360 in
  let p := reserve_range p 33280 kernel_end in
  reserve_range p 753664 (753664 + 4000).

(** Returns the new state and the frame's address, 0 when none is free. *)
Definition pmm_alloc_frame (p : pmm) : pmm * Z :=
  let f_at i := (search_hint p +64 i) mod PMM_MAX_FRAMES in
  match find_first 0 PMM_MAX_FRAMES (fun i => negb (is_used p (f_at i))) with
  | Some i =>
      let f := f_at i in
      let p' := set_used p f in
      (mk_pmm (bitmap p') (total_frames p') (free_frames p') (f +64 1),
       f *64 PMM_FRAME_SIZE)
  | None => (p, 0)
  end.

Definition pmm_alloc_zeroed_frame (p : pmm) (m : mem) : pmm * mem * Z :=
  let (p', frame) := pmm_alloc_frame p in
  if frame =? 0 then (p', m, 0)
  else (p', fill8 m frame PMM_FRAME_SIZE 0, frame).

(** The scan keeps [(run_start, run_len)] and returns the start of a full run. *)
Definition contiguous_scan (p : pmm) (count : Z) (f : Z) (run : Z * Z) : Z * Z + Z :=
  let (run_start, run_len) := run in
  if negb (is_used p f) then
    let run_start := if run_len =? 0 then f else run_start in
    let run_len := run_len +64 1 in
    if run_len =? count then inr run_start else inl (run_start, run_len)
  else inl (run_start, 0).

Definition pmm_alloc_contiguous (p : pmm) (count : Z) : pmm * Z :=
  if count =? 0 then (p, 0)
  else
    match for_range 0 PMM_MAX_FRAMES (contiguous_scan p count) (0, 0) with
    | inr run_start =>
        (for_each 0 count (fun i p => set_used p (run_start +64 i)) p,
         run_start *64 PMM_FRAME_SIZE)
    | inl _ => (p, 0)
    end.

Definition pmm_free_frame (p : pmm) (addr : Z) : pmm := set_free p (frame_of addr).

Definition pmm_total_frames (p : pmm) : Z := total_frames p.
Definition pmm_free_frames (p : pmm) : Z := free_frames p.

#[global] Opaque PMM_MAX_FRAMES PMM_BITMAP_BYTES.

(** ** The bitmap as a set of used frames *)

Lemma PMM_MAX_FRAMES_eq : PMM_MAX_FRAMES = 1048576.
Proof. reflexivity. Qed.
Lemma PMM_BITMAP_BYTES_eq : PMM_BITMAP_BYTES = 131072.
Proof. reflexivity. Qed.

Ltac frames := rewrite ?PMM_MAX_FRAMES_eq, ?PMM_BITMAP_BYTES_eq in *;
  unfold frame_of in *; unfold PMM_FRAME_SIZE, PMM_MAX_MEMORY in *.

Create HintDb pmm.

Lemma frame_bit_pow2 f : frame_bit f = 2 ^ (f mod 8).
Proof. apply pow2_byte. apply Z.mod_pos_bound. lia. Qed.

Lemma frame_coords f g : f / 8 = g / 8 -> f mod 8 = g mod 8 -> f = g.
Proof. intros. div_lia. Qed.

Section bitmap_lemmas.
Implicit Types (p : pmm) (f g : Z).

Lemma is_used_testbit p f :
  is_used p f = (f >=? PMM_MAX_FRAMES) ||
                Z.testbit (bitmap_get (bitmap p) (f / 8)) (f mod 8).
Proof.
  unfold is_used. rewrite frame_bit_pow2.
  rewrite land_pow2_eqb by (apply Z.mod_pos_bound; lia).
  rewrite negb_involutive. by destruct (f >=? PMM_MAX_FRAMES).
Qed.

Lemma is_used_set_used p f g :
  0 <= f < PMM_MAX_FRAMES -> 0 <= g ->
  is_used (set_used p f) g = (f =? g) || is_used p g.
Proof.
  intros Hf Hg. pose proof (Z.mod_pos_bound f 8 ltac:(lia)).
  pose proof (Z.mod_pos_bound g 8 ltac:(lia)).
  rewrite !is_used_testbit. unfold set_used.
  replace (f >=? PMM_MAX_FRAMES) with false by lia.
  rewrite frame_bit_pow2, land_pow2_eqb by lia.
  destruct (Z.testbit (bitmap_get (bitmap p) (f / 8)) (f mod 8)) eqn:E; simpl.
  - destruct (f =? g) eqn:Efg; [|done]. apply Z.eqb_eq in Efg as <-.
    by rewrite E, orb_true_r.
  - unfold bitmap_get at 1. destruct (decide (f / 8 = g / 8)) as [Hd|Hd].
    + rewrite Hd, lookup_insert_eq. simpl. rewrite testbit_lor_pow2 by lia.
      replace (f mod 8 =? g mod 8) with (f =? g).
      { destruct (g >=? PMM_MAX_FRAMES); simpl; [by rewrite orb_true_r|done]. }
      destruct (decide (f = g)) as [->|Hn]; [by rewrite !Z.eqb_refl|].
      replace (f =? g) with false by lia. symmetry. apply Z.eqb_neq.
      intros Hm. by apply Hn, frame_coords.
    + rewrite lookup_insert_ne by done.
      replace (f =? g) with false; [done|]. symmetry. apply Z.eqb_neq. by intros ->.
Qed.

Lemma is_used_set_free p f g :
  0 <= f < PMM_MAX_FRAMES -> 0 <= g < PMM_MAX_FRAMES ->
  is_used (set_free p f) g = negb (f =? g) && is_used p g.
Proof.
  intros Hf Hg. pose proof (Z.mod_pos_bound f 8 ltac:(lia)).
  pose proof (Z.mod_pos_bound g 8 ltac:(lia)).
  rewrite !is_used_testbit. unfold set_free.
  replace (f >=? PMM_MAX_FRAMES) with false by lia.
  replace (g >=? PMM_MAX_FRAMES) with false by lia.
  rewrite frame_bit_pow2, land_pow2_eqb, negb_involutive by lia.
  destruct (Z.testbit (bitmap_get (bitmap p) (f / 8)) (f mod 8)) eqn:E; simpl.
  - unfold bitmap_get at 1. destruct (decide (f / 8 = g / 8)) as [Hd|Hd].
    + rewrite Hd, lookup_insert_eq. simpl. rewrite testbit_clear_pow2 by lia.
      replace (f mod 8 =? g mod 8) with (f =? g); [done|].
      destruct (decide (f = g)) as [->|Hn]; [by rewrite !Z.eqb_refl|].
      replace (f =? g) with false by lia. symmetry. apply Z.eqb_neq.
      intros Hm. by apply Hn, frame_coords.
    + rewrite lookup_insert_ne by done.
      replace (f =? g) with false; [done|]. symmetry. apply Z.eqb_neq. by intros ->.
  - destruct (f =? g) eqn:Efg; [|done]. apply Z.eqb_eq in Efg as <-. by rewrite E.
Qed.

Lemma set_used_out p f : PMM_MAX_FRAMES <= f -> set_used p f = p.
Proof. intros. unfold set_used. by replace (f >=? PMM_MAX_FRAMES) with true by lia. Qed.
Lemma set_free_out p f : PMM_MAX_FRAMES <= f -> set_free p f = p.
Proof. intros. unfold set_free. by replace (f >=? PMM_MAX_FRAMES) with true by lia. Qed.
Lemma is_used_out p f : PMM_MAX_FRAMES <= f -> is_used p f = true.
Proof. intros. unfold is_used. by replace (f >=? PMM_MAX_FRAMES) with true by lia. Qed.
End bitmap_lemmas.

(** ** Invariant: the free counter counts the free frames *)

Definition free_count (p : pmm) : Z :=
  count_if 0 PMM_MAX_FRAMES (fun f => negb (is_used p f)).

Definition pmm_wf (p : pmm) : Prop :=
  free_frames p = free_count p /\ 0 <= search_hint p <= PMM_MAX_FRAMES.

(** [same_frames p p']: the two states agree on which frames are used. *)
Definition same_frames (p p' : pmm) : Prop := forall f, 0 <= f -> is_used p' f = is_used p f.

Lemma free_count_bounds p : 0 <= free_count p <= PMM_MAX_FRAMES.
Proof. pose proof (count_if_bounds 0 PMM_MAX_FRAMES (fun f => negb (is_used p f))). frames. unfold free_count. frames. lia. Qed.

Section counter_lemmas.
Implicit Types (p : pmm) (f g : Z).

Lemma set_used_noop p f : is_used p f = true -> set_used p f = p.
Proof.
  unfold is_used, set_used. destruct (f >=? PMM_MAX_FRAMES); [done|].
  intros H. apply negb_true_iff in H. by rewrite H.
Qed.

Lemma set_free_noop p f : is_used p f = false -> set_free p f = p.
Proof.
  unfold is_used, set_free. destruct (f >=? PMM_MAX_FRAMES); [done|].
  intros H. by rewrite H.
Qed.

Lemma set_used_free_count p f :
  0 <= f -> is_used p f = false -> free_count p = free_count (set_used p f) + 1.
Proof.
  intros Hf Hu. assert (f < PMM_MAX_FRAMES).
  { destruct (decide (f < PMM_MAX_FRAMES)); [done|]. by rewrite is_used_out in Hu by lia. }
  apply (count_if_flip _ _ _ _ f); [lia|by rewrite Hu| |].
  - by rewrite is_used_set_used, Z.eqb_refl by lia.
  - intros k Hk Hne. rewrite is_used_set_used by lia.
    by replace (f =? k) with false by lia.
Qed.

Lemma set_free_free_count p f :
  0 <= f < PMM_MAX_FRAMES -> is_used p f = true ->
  free_count (set_free p f) = free_count p + 1.
Proof.
  intros Hf Hu. apply (count_if_flip _ _ _ _ f); [lia| |by rewrite Hu|].
  - by rewrite is_used_set_free, Z.eqb_refl by lia.
  - intros k Hk Hne. rewrite is_used_set_free by lia.
    by replace (f =? k) with false by lia.
Qed.

Lemma set_used_free_frames p f :
  pmm_wf p -> 0 <= f -> is_used p f = false ->
  free_frames (set_used p f) = free_frames p - 1.
Proof.
  intros [Hc _] Hf Hu. pose proof (set_used_free_count p f Hf Hu).
  pose proof (free_count_bounds (set_used p f)).
  unfold is_used in Hu. unfold set_used in *.
  destruct (f >=? PMM_MAX_FRAMES); [done|]. apply negb_false_iff in Hu.
  rewrite Hu in *. simpl in *. by replace (free_frames p >? 0) with true by lia.
Qed.

Lemma set_free_free_frames p f :
  pmm_wf p -> 0 <= f < PMM_MAX_FRAMES -> is_used p f = true ->
  free_frames (set_free p f) = free_frames p + 1.
Proof.
  intros [Hc _] Hf Hu. pose proof (free_count_bounds p).
  unfold is_used in Hu. unfold set_free.
  destruct (f >=? PMM_MAX_FRAMES) eqn:E; [lia|]. rewrite Hu. simpl.
  apply u64_small. frames. lia.
Qed.

Lemma set_used_hint p f : search_hint (set_used p f) = search_hint p.
Proof. unfold set_used. by repeat split_if. Qed.
Lemma set_free_hint p f : search_hint (set_free p f) = search_hint p.
Proof. unfold set_free. by repeat split_if. Qed.

Lemma set_used_wf p f : 0 <= f -> pmm_wf p -> pmm_wf (set_used p f).
Proof.
  intros Hf H. destruct (is_used p f) eqn:E; [by rewrite set_used_noop|].
  split; [|rewrite set_used_hint; apply H].
  rewrite set_used_free_frames by done.
  pose proof (set_used_free_count p f Hf E). destruct H. lia.
Qed.

Lemma set_free_wf p f : 0 <= f -> pmm_wf p -> pmm_wf (set_free p f).
Proof.
  intros Hf H. destruct (decide (f < PMM_MAX_FRAMES)); [|by rewrite set_free_out by lia].
  destruct (is_used p f) eqn:E; [|by rewrite set_free_noop].
  split; [|rewrite set_free_hint; apply H].
  rewrite set_free_free_frames by done.
  rewrite set_free_free_count by done. destruct H. lia.
Qed.

Lemma pmm_wf_ext p p' :
  pmm_wf p -> bitmap p' = bitmap p -> free_frames p' = free_frames p ->
  0 <= search_hint p' <= PMM_MAX_FRAMES -> pmm_wf p'.
Proof.
  intros [H1 H2] Hb Hf Hh. split; [|done]. rewrite Hf, H1.
  apply count_if_ext. intros k _. unfold is_used. by rewrite Hb.
Qed.

Lemma pmm_wf_mk q t h :
  pmm_wf q -> 0 <= h <= PMM_MAX_FRAMES ->
  pmm_wf (mk_pmm (bitmap q) t (free_frames q) h).
Proof. intros. by apply (pmm_wf_ext q). Qed.

Lemma reserve_range_wf p s e : 0 <= s -> pmm_wf p -> pmm_wf (reserve_range p s e).
Proof.
  intros Hs H. unfold reserve_range. apply for_each_keep; [done|]. intros j p' Hj Hp'.
  apply set_used_wf; [|done]. frames. div_lia.
Qed.

Lemma pmm_free_frame_wf p a : 0 <= a -> pmm_wf p -> pmm_wf (pmm_free_frame p a).
Proof. intros. apply set_free_wf; [frames; div_lia|done]. Qed.
End counter_lemmas.

#[export] Hint Resolve set_used_wf set_free_wf reserve_range_wf pmm_free_frame_wf : pmm.

(** ** Allocation of one frame *)

(** What [pmm_alloc_frame] promises: either every frame is used and nothing
    changes, or the first free frame at or after the hint (cyclically) becomes
    used, alone. *)
Inductive alloc_frame_spec (p : pmm) : pmm * Z -> Prop :=
  | AllocNone :
      (forall f, 0 <= f < PMM_MAX_FRAMES -> is_used p f = true) ->
      alloc_frame_spec p (p, 0)
  | AllocSome f p' :
      0 <= f < PMM_MAX_FRAMES ->
      is_used p f = false ->
      (forall g, 0 <= g -> is_used p' g = (f =? g) || is_used p g) ->
      (forall g, 0 <= g < PMM_MAX_FRAMES -> is_used p g = false ->
         (f - search_hint p) mod PMM_MAX_FRAMES <= (g - search_hint p) mod PMM_MAX_FRAMES) ->
      free_frames p' = free_frames p - 1 ->
      total_frames p' = total_frames p ->
      search_hint p' = f + 1 ->
      pmm_wf p' ->
      alloc_frame_spec p (p', f * PMM_FRAME_SIZE).

Lemma set_used_total p f : total_frames (set_used p f) = total_frames p.
Proof. unfold set_used. by repeat split_if. Qed.

Lemma pmm_alloc_frame_spec p :
  pmm_wf p -> alloc_frame_spec p (pmm_alloc_frame p).
Proof.
  intros H. pose proof H as [Hc Hh]. unfold pmm_alloc_frame.
  assert (Hidx : forall i, 0 <= i < PMM_MAX_FRAMES ->
    search_hint p +64 i = search_hint p + i).
  { intros i Hi. apply u64_small. frames. lia. }
  pose proof (find_first_spec 0 PMM_MAX_FRAMES
    (fun i => negb (is_used p ((search_hint p +64 i) mod PMM_MAX_FRAMES)))) as Hf.
  assert (Hinv : forall g, 0 <= g < PMM_MAX_FRAMES ->
    (search_hint p + (g - search_hint p) mod PMM_MAX_FRAMES) mod PMM_MAX_FRAMES = g).
  { intros g Hg. rewrite Z.add_mod_idemp_r by lia.
    replace (search_hint p + (g - search_hint p)) with g by lia. apply Z.mod_small. lia. }
  destruct (find_first _ _ _) as [i|].
  - destruct Hf as (Hi & Hfree & Hleast). apply negb_true_iff in Hfree.
    rewrite Hidx in * by done. set (f := (search_hint p + i) mod PMM_MAX_FRAMES) in *.
    assert (Hfb : 0 <= f < PMM_MAX_FRAMES) by (apply Z.mod_pos_bound; lia).
    assert (Hfi : (f - search_hint p) mod PMM_MAX_FRAMES = i).
    { unfold f. rewrite Zminus_mod_idemp_l.
      replace (search_hint p + i - search_hint p) with i by lia. apply Z.mod_small. lia. }
    replace (f *64 PMM_FRAME_SIZE) with (f * PMM_FRAME_SIZE)
      by (symmetry; apply u64_small; frames; lia).
    replace (f +64 1) with (f + 1) by (symmetry; apply u64_small; frames; lia).
    apply AllocSome; simpl; try done.
    + intros g Hg. rewrite <- (is_used_set_used p f g) by done. done.
    + intros g Hg Hgf. rewrite Hfi. destruct (decide ((g - search_hint p) mod PMM_MAX_FRAMES < i)) as [Hlt|];
        [|lia]. pose proof (Z.mod_pos_bound (g - search_hint p) PMM_MAX_FRAMES ltac:(lia)).
      specialize (Hleast _ (conj (proj1 H0) Hlt)). rewrite Hidx, Hinv, Hgf in Hleast by lia. done.
    + apply set_used_free_frames; [done|lia|done].
    + apply set_used_total.
    + apply (pmm_wf_ext (set_used p f)); [apply set_used_wf; [lia|done]|done|done|simpl; lia].
  - apply AllocNone. intros f Hfb.
    specialize (Hf ((f - search_hint p) mod PMM_MAX_FRAMES)).
    pose proof (Z.mod_pos_bound (f - search_hint p) PMM_MAX_FRAMES ltac:(lia)).
    rewrite Hidx, Hinv in Hf by lia. apply negb_false_iff, Hf. lia.
Qed.

(** ** Allocation of a contiguous run *)

Definition run_free (p : pmm) (s n : Z) : Prop :=
  forall g, s <= g < s + n -> is_used p g = false.

Inductive alloc_contiguous_spec (p : pmm) (count : Z) : pmm * Z -> Prop :=
  | RunNone :
      (forall s, 0 <= s -> s + count <= PMM_MAX_FRAMES -> ~ run_free p s count) ->
      alloc_contiguous_spec p count (p, 0)
  | RunSome s p' :
      0 <= s -> s + count <= PMM_MAX_FRAMES ->
      run_free p s count ->
      (forall s', 0 <= s' < s -> ~ run_free p s' count) ->
      (forall g, 0 <= g ->
         is_used p' g = (s <=? g) && (g <? s + count) || is_used p g) ->
      free_frames p' = free_frames p - count ->
      pmm_wf p' ->
      alloc_contiguous_spec p count (p', s * PMM_FRAME_SIZE).

(** The invariant of the scan: [run_len] free frames end just before [f], the
    frame before them is used, and no full run ends at or before [f]. *)
Record scan_inv (p : pmm) (count f : Z) (run : Z * Z) : Prop := {
  si_len : 0 <= run.2 < count;
  si_low : run.2 <= f;
  si_start : run.2 <> 0 -> run.1 = f - run.2;
  si_free : run_free p (f - run.2) run.2;
  si_before : f - run.2 = 0 \/ is_used p (f - run.2 - 1) = true;
  si_none : forall s, 0 <= s -> s + count <= f -> ~ run_free p s count;
}.

Lemma contiguous_scan_step p count f run :
  0 < count < 18446744073709551616 -> 0 <= f -> scan_inv p count f run ->
  match contiguous_scan p count f run with
  | inl run' => scan_inv p count (f + 1) run'
  | inr s => 0 <= s /\ s + count = f + 1 /\ run_free p s count /\
             (forall s', 0 <= s' < s -> ~ run_free p s' count)
  end.
Proof.
  intros Hc Hf [Hlen Hlow Hst Hfree Hbef Hnone]. destruct run as [rs rl]; simpl in *.
  destruct (is_used p f) eqn:E; simpl.
  - split; simpl; try lia.
    + intros g Hg. lia.
    + right. by replace (f + 1 - 0 - 1) with f by lia.
    + intros s Hs Hsc Hrun. destruct (decide (s + count <= f)) as [Hle|];
        [by apply (Hnone s)|]. specialize (Hrun f ltac:(lia)). congruence.
  - rewrite u64_small by lia.
    assert (Hrun : run_free p (f - rl) (rl + 1)).
    { intros g Hg. destruct (decide (g = f)) as [->|]; [done|]. apply Hfree. lia. }
    assert (Hst' : (if rl =? 0 then f else rs) = f - rl).
    { destruct (rl =? 0) eqn:Erl; bool_prop; [lia|by apply Hst]. }
    rewrite Hst'. destruct (rl + 1 =? count) eqn:Ec; bool_prop.
    + subst count. repeat split; [lia|lia|done|].
      intros s' Hs'. apply Hnone; lia.
    + split; simpl; try lia.
      * by replace (f + 1 - (rl + 1)) with (f - rl) by lia.
      * by replace (f + 1 - (rl + 1)) with (f - rl) by lia.
      * intros s Hs Hsc Hr. destruct (decide (s + count <= f)) as [Hle|];
          [by apply (Hnone s)|].
        destruct Hbef as [|Hb]; [lia|].
        specialize (Hr (f - rl - 1) ltac:(lia)). congruence.
Qed.

Lemma set_used_run p s n :
  pmm_wf p -> 0 <= s -> 0 <= n -> s + n <= PMM_MAX_FRAMES -> run_free p s n ->
  let p' := for_each 0 n (fun i p => set_used p (s +64 i)) p in
  (forall g, 0 <= g -> is_used p' g = (s <=? g) && (g <? s + n) || is_used p g) /\
  free_frames p' = free_frames p - n /\ pmm_wf p'.
Proof.
  intros H Hs Hn Hmax Hrun p'.
  apply (for_each_inv 0 n _ p (fun i q =>
    (forall g, 0 <= g -> is_used q g = (s <=? g) && (g <? s + i) || is_used p g) /\
    free_frames q = free_frames p - i /\ pmm_wf q)); [done| |].
  - split; [|split; [lia|done]]. intros g _.
    by replace ((s <=? g) && (g <? s + 0)) with false by lia.
  - intros j q Hj (Hu & Hff & Hw). rewrite u64_small by (frames; lia).
    assert (is_used q (s + j) = false) as Hsj.
    { rewrite Hu, (Hrun (s + j)) by lia. lia. }
    split; [|split; [rewrite set_used_free_frames by (done || lia); lia
                    |apply set_used_wf; [lia|done]]].
    intros g Hg. rewrite is_used_set_used, Hu by lia.
    destruct (is_used p g); lia.
Qed.

Lemma pmm_alloc_contiguous_spec p count :
  pmm_wf p -> 0 < count < 18446744073709551616 ->
  alloc_contiguous_spec p count (pmm_alloc_contiguous p count).
Proof.
  intros H Hc. unfold pmm_alloc_contiguous. replace (count =? 0) with false by lia.
  pose proof (for_range_inv 0 PMM_MAX_FRAMES (contiguous_scan p count) (0, 0)
    (fun f run => scan_inv p count f run)
    (fun s => 0 <= s /\ s + count <= PMM_MAX_FRAMES /\ run_free p s count /\
              (forall s', 0 <= s' < s -> ~ run_free p s' count))) as L.
  destruct (for_range _ _ _ _) as [run|s].
  - apply RunNone. apply L.
    + frames. lia.
    + split; simpl; try lia; intros g Hg; lia.
    + intros f run' Hf Hi. pose proof (contiguous_scan_step p count f run' Hc ltac:(lia) Hi) as Hs.
      destruct (contiguous_scan _ _ _ _); [done|]. destruct Hs as (? & ? & ? & ?).
      repeat split; try done; lia.
  - destruct L as (Hs & Hsc & Hrun & Hmin).
    + frames. lia.
    + split; simpl; try lia; intros g Hg; lia.
    + intros f run' Hf Hi. pose proof (contiguous_scan_step p count f run' Hc ltac:(lia) Hi) as Hst.
      destruct (contiguous_scan _ _ _ _); [done|]. destruct Hst as (? & ? & ? & ?).
      repeat split; try done; lia.
    + destruct (set_used_run p s count H Hs ltac:(lia) Hsc Hrun) as (? & ? & ?).
      rewrite (u64_small (s * PMM_FRAME_SIZE)) by (frames; lia).
      by apply RunSome.
Qed.

(** ** Initialisation from the memory map *)

(** A region whose end does not wrap. *)
Definition entry_ok (e : E820.e820_entry_t) : Prop :=
  0 <= E820.base e /\ 0 <= E820.length e /\
  E820.base e + E820.length e < 18446744073709551616.

(** Frame [f] lies wholly inside a usable region of the map. *)
Definition frame_usable (e820 : E820.e820_buffer_t) (f : Z) : Prop :=
  exists i, 0 <= i < E820.count e820 /\
    let e := (E820.entries e820).[i] in
    E820.type e = E820.E820_TYPE_USABLE /\
    E820.base e <= f * PMM_FRAME_SIZE /\
    (f + 1) * PMM_FRAME_SIZE <= E820.base e + E820.length e.

(** Frame [f] shares a byte with [lo, hi). *)
Definition frame_overlaps (f lo hi : Z) : Prop :=
  lo < (f + 1) * PMM_FRAME_SIZE /\ f * PMM_FRAME_SIZE < hi.

(** The ranges the kernel keeps: low memory and the bootloader, the boot stack,
    the kernel image and the VGA text buffer. *)
Definition frame_reserved (kernel_end f : Z) : Prop :=
  frame_overlaps f 0 33280 \/ frame_overlaps f 524288 655360 \/
  frame_overlaps f 33280 kernel_end \/ frame_overlaps f 753664 757664.

Lemma reserve_range_used p s e f :
  0 <= s -> 0 < e < 18446744073709547520 -> 0 <= f < PMM_MAX_FRAMES ->
  is_used (reserve_range p s e) f = true <->
  frame_overlaps f s e /\ s < e \/ frame_of s <= f < frame_of (e + 4095) \/ is_used p f = true.
Proof.
  intros Hs He Hf. unfold reserve_range.
  replace (e +64 PMM_FRAME_SIZE -64 1) with (e + 4095)
    by (unfold PMM_FRAME_SIZE; rewrite !u64_small by (rewrite ?u64_small by lia; lia); lia).
  assert (Hov : frame_overlaps f s e /\ s < e -> frame_of s <= f < frame_of (e + 4095)).
  { unfold frame_overlaps. frames. intros. div_lia. }
  set (first := frame_of s) in *. set (last := frame_of (e + 4095)) in *.
  assert (Hgoal : is_used (for_each first last (fun f p => set_used p f) p) f = true <->
    first <= f < last \/ is_used p f = true); [|tauto].
  destruct (decide (first <= last)).
  - apply (for_each_inv first last _ p (fun i q =>
      is_used q f = true <-> first <= f < i \/ is_used p f = true)); [done|intuition lia|].
    intros j q Hj IH. destruct (decide (j < PMM_MAX_FRAMES)).
    + assert (0 <= j) by (subst first; frames; div_lia).
      rewrite is_used_set_used by lia.
      rewrite orb_true_iff, IH, Z.eqb_eq. intuition lia.
    + rewrite set_used_out, IH by lia. intuition lia.
  - rewrite for_each_empty by lia. intuition lia.
Qed.

Lemma pmm_init_region_used p e f :
  entry_ok e -> 0 <= f < PMM_MAX_FRAMES ->
  is_used (pmm_init_region p e) f = true <->
  is_used p f = true /\
  ~ (E820.type e = E820.E820_TYPE_USABLE /\ E820.base e <= f * PMM_FRAME_SIZE /\
     (f + 1) * PMM_FRAME_SIZE <= E820.base e + E820.length e).
Proof.
  intros (Hb & Hl & Hw) Hf. unfold pmm_init_region.
  destruct (E820.type e =? E820.E820_TYPE_USABLE) eqn:Et; bool_prop; simpl; [|intuition lia].
  rewrite (u64_small (E820.base e + E820.length e)) by lia.
  destruct (E820.base e >=? PMM_MAX_MEMORY) eqn:Eb; bool_prop; [frames; intuition lia|].
  replace (E820.base e +64 PMM_FRAME_SIZE -64 1) with (E820.base e + 4095)
    by (frames; rewrite !u64_small by (rewrite ?u64_small by lia; lia); lia).
  set (first := frame_of (E820.base e + 4095)).
  set (last := frame_of (if _ : bool then _ else _)).
  assert (Hfl : first <= f < last <->
    E820.base e <= f * PMM_FRAME_SIZE /\
    (f + 1) * PMM_FRAME_SIZE <= E820.base e + E820.length e).
  { subst first last. split_if; frames; split; intros; div_lia. }
  assert (Hlast : last <= PMM_MAX_FRAMES) by (subst last; split_if; frames; div_lia).
  assert (Hfirst : 0 <= first) by (subst first; frames; div_lia).
  match goal with |- is_used ?x f = true <-> _ =>
    enough (is_used x f = true <-> is_used p f = true /\ ~ first <= f < last) by tauto end.
  destruct (decide (first <= last)).
  - match goal with |- context [for_each first last ?body p] =>
      apply (for_each_inv first last body p (fun i q =>
        is_used q f = true <-> is_used p f = true /\ ~ first <= f < i)) end;
      [done|intuition lia|].
    intros j q Hj IH. change (is_used (mk_pmm _ _ _ _) f) with (is_used (set_free q j) f).
    rewrite is_used_set_free by lia.
    rewrite andb_true_iff, IH, negb_true_iff, Z.eqb_neq. intuition lia.
  - rewrite for_each_empty by lia. intuition lia.
Qed.

Lemma pmm_init_region_wf p e : 0 <= E820.base e -> pmm_wf p -> pmm_wf (pmm_init_region p e).
Proof.
  intros He H. unfold pmm_init_region. repeat (split_if; [done|]).
  apply for_each_keep; [done|]. intros j q Hj Hq.
  assert (Hj0 : 0 <= j).
  { destruct Hj as [Hj _]. eapply Z.le_trans; [|exact Hj]. apply Z.div_pos; [apply u64_bounds|done]. }
  pose proof (set_free_wf q j Hj0 Hq) as Hw.
  apply pmm_wf_mk; [exact Hw|]. destruct Hw as [_ Hw]. exact Hw.
Qed.

(** The bitmap after the first loop: everything used. *)
Lemma pmm_init_bitmap_ones b t n h f :
  0 <= f ->
  is_used (mk_pmm (for_each 0 PMM_BITMAP_BYTES (fun i b => <[i := 255]> b) b) t n h) f = true.
Proof.
  intros Hf. rewrite is_used_testbit. destruct (f >=? PMM_MAX_FRAMES) eqn:E; [done|].
  bool_prop. simpl.
  assert (Hg : bitmap_get (for_each 0 PMM_BITMAP_BYTES (fun i b => <[i := 255]> b) b) (f / 8) = 255).
  { assert (Hk : f / 8 < PMM_BITMAP_BYTES) by (frames; div_lia). revert Hk.
    apply (for_each_inv 0 PMM_BITMAP_BYTES _ b (fun i b => f / 8 < i -> bitmap_get b (f / 8) = 255)).
    - frames. lia.
    - intros. exfalso. div_lia.
    - intros j b' Hj IH Hlt. unfold bitmap_get in *. destruct (decide (j = f / 8)) as [->|].
      + by rewrite lookup_insert_eq.
      + rewrite lookup_insert_ne by done. apply IH. lia. }
  rewrite Hg. pose proof (Z.mod_pos_bound f 8 ltac:(lia)).
  assert (Hc : f mod 8 = 0 \/ f mod 8 = 1 \/ f mod 8 = 2 \/ f mod 8 = 3 \/
          f mod 8 = 4 \/ f mod 8 = 5 \/ f mod 8 = 6 \/ f mod 8 = 7) by lia.
  by repeat destruct Hc as [->|Hc]; rewrite ?Hc.
Qed.

Definition e820_ok (e820 : E820.e820_buffer_t) : Prop :=
  0 <= E820.count e820 /\
  forall i, 0 <= i < E820.count e820 -> entry_ok (E820.entries e820).[i].

Lemma pmm_init_regions p e820 f :
  e820_ok e820 -> pmm_wf p -> 0 <= f < PMM_MAX_FRAMES -> is_used p f = true ->
  let p' := for_each 0 (E820.e820_entry_count e820)
    (fun i p => match E820.e820_get_entry e820 i with
                | None => p
                | Some entry => pmm_init_region p entry
                end) p in
  pmm_wf p' /\ (is_used p' f = false <-> frame_usable e820 f).
Proof.
  intros [Hc He] Hw Hf Hu p'.
  pose proof (for_each_inv 0 (E820.e820_entry_count e820)
    (fun i p => match E820.e820_get_entry e820 i with
                | None => p
                | Some entry => pmm_init_region p entry
                end) p
    (fun i q => pmm_wf q /\ (is_used q f = false <->
       exists j, 0 <= j < i /\ let e := (E820.entries e820).[j] in
         E820.type e = E820.E820_TYPE_USABLE /\ E820.base e <= f * PMM_FRAME_SIZE /\
         (f + 1) * PMM_FRAME_SIZE <= E820.base e + E820.length e))) as L.
  apply L; clear L.
  - done.
  - split; [done|]. split; [congruence|]. intros (j & Hj & _). lia.
  - intros j q Hj [Hq Hiff]. unfold E820.e820_entry_count, E820.e820_get_entry in *.
    replace (j >=? E820.count e820) with false by lia.
    pose proof (He j Hj) as Hej.
    split; [apply pmm_init_region_wf; [apply Hej|done]|].
    pose proof (pmm_init_region_used q (E820.entries e820).[j] f Hej Hf) as Hr.
    destruct (is_used q f) eqn:Eq.
    + rewrite <- not_true_iff_false, Hr. split.
      * intros Hn. exists j. split; [lia|]. apply dec_stable. tauto.
      * intros (k & Hk & Hin) [_ Hn]. destruct (decide (k = j)) as [->|]; [done|].
        assert (true = false); [|done]. apply Hiff. exists k. split; [lia|done].
    + rewrite <- not_true_iff_false, Hr. split; [|by intros _ [? _]].
      intros _. destruct Hiff as [Hx _]. destruct (Hx eq_refl) as (k & Hk & Hin).
      exists k. split; [lia|done].
Qed.

Lemma pmm_init_spec p0 e820 kernel_end :
  e820_ok e820 -> 33280 < kernel_end < 18446744073709547520 ->
  pmm_wf (pmm_init p0 e820 kernel_end) /\
  forall f, 0 <= f < PMM_MAX_FRAMES ->
    is_used (pmm_init p0 e820 kernel_end) f = false <->
    frame_usable e820 f /\ ~ frame_reserved kernel_end f.
Proof.
  intros He Hk. unfold pmm_init.
  set (b := for_each 0 PMM_BITMAP_BYTES _ _). set (p1 := mk_pmm b 0 0 0).
  assert (Hones : forall f, 0 <= f -> is_used p1 f = true)
    by (intros; by apply pmm_init_bitmap_ones).
  assert (Hw1 : pmm_wf p1).
  { split; [|simpl; frames; lia]. unfold free_count. symmetry.
    apply count_if_none. intros f Hf. by rewrite Hones by lia. }
  set (p2 := for_each 0 (E820.e820_entry_count e820) _ p1).
  assert (Hp2 : forall f, 0 <= f < PMM_MAX_FRAMES ->
    pmm_wf p2 /\ (is_used p2 f = false <-> frame_usable e820 f)).
  { intros f Hf. apply pmm_init_regions; try done. apply Hones. lia. }
  assert (Hw2 : pmm_wf p2) by (apply (Hp2 0); frames; lia).
  split; [by repeat apply reserve_range_wf; try lia|].
  intros f Hf. destruct (Hp2 f Hf) as [_ Hu]. rewrite <- Hu.
  rewrite <- !not_true_iff_false, !reserve_range_used by lia.
  unfold frame_reserved.
  assert (Hov : forall s e, 0 <= s -> frame_of s <= f < frame_of (e + 4095) -> s mod 4096 = 0 \/ s = 33280 -> s < e ->
     frame_overlaps f s e \/ frame_overlaps f 0 33280).
  { unfold frame_overlaps. frames. intros s e Hs Hr [Ha| ->] Hse; div_lia. }
  pose proof (Hov 0 33280 ltac:(lia)). pose proof (Hov 524288 655360 ltac:(lia)).
  pose proof (Hov 33280 kernel_end ltac:(lia)).
  pose proof (Hov 753664 757664 ltac:(lia)).
  change (0 mod 4096) with 0 in *. change (524288 mod 4096) with 0 in *.
  change (753664 mod 4096) with 0 in *.
  change (753664 + 4000) with 757664.
  set (u := is_used p2 f = true) in *.
  assert (0 < 33280 /\ 524288 < 655360 /\ 753664 < 757664) by lia.
  tauto.
Qed.

(** ** Results on the allocator *)

Lemma free_count_zero p f :
  pmm_wf p -> free_frames p = 0 -> 0 <= f < PMM_MAX_FRAMES -> is_used p f = true.
Proof.
  intros [Hc _] H0 Hf. destruct (is_used p f) eqn:E; [done|].
  pose proof (count_if_pos 0 PMM_MAX_FRAMES (fun f => negb (is_used p f)) f Hf) as Hp.
  simpl in Hp. rewrite E in Hp. specialize (Hp eq_refl). unfold free_count in Hc. lia.
Qed.

Lemma free_frame_undo p p' f :
  pmm_wf p' -> 0 <= f < PMM_MAX_FRAMES -> is_used p f = false ->
  (forall g, 0 <= g -> is_used p' g = (f =? g) || is_used p g) ->
  same_frames p (pmm_free_frame p' (f * PMM_FRAME_SIZE)) /\
  free_frames (pmm_free_frame p' (f * PMM_FRAME_SIZE)) = free_frames p' + 1.
Proof.
  intros Hw Hf Hfree Hu. unfold pmm_free_frame.
  replace (frame_of (f * PMM_FRAME_SIZE)) with f by (symmetry; apply Z.div_mul; done).
  split.
  - intros g Hg. destruct (decide (g < PMM_MAX_FRAMES)).
    + rewrite is_used_set_free, Hu by lia. destruct (f =? g) eqn:E; [|done].
      bool_prop. subst. by rewrite Hfree.
    + by rewrite !is_used_out by lia.
  - apply set_free_free_frames; [done|done|]. rewrite Hu, Z.eqb_refl by lia. done.
Qed.

(** The outcome [r] of an allocation from [p]: failure with nothing changed when
    the counter says that no frame is free; otherwise the cyclically first free
    frame at or after the hint, marked alone, and undone by [pmm_free_frame]. *)
Definition alloc_frame_outcome (p : pmm) (r : pmm * Z) : Prop :=
  (free_frames p = 0 /\ r = (p, 0)) \/
  exists f p', r = (p', f * PMM_FRAME_SIZE) /\
    0 < free_frames p /\ 0 <= f < PMM_MAX_FRAMES /\ is_used p f = false /\
    (forall g, 0 <= g -> is_used p' g = (f =? g) || is_used p g) /\
    (forall g, 0 <= g < PMM_MAX_FRAMES -> is_used p g = false ->
       (f - search_hint p) mod PMM_MAX_FRAMES <= (g - search_hint p) mod PMM_MAX_FRAMES) /\
    pmm_wf p' /\
    same_frames p (pmm_free_frame p' (f * PMM_FRAME_SIZE)) /\
    free_frames (pmm_free_frame p' (f * PMM_FRAME_SIZE)) = free_frames p.

(** C1: [pmm_alloc_frame] fails, changing nothing, exactly when the counter says
    that no frame is free; otherwise it takes the cyclically first free frame at
    or after the hint, marks it alone, and [pmm_free_frame] of the result gives
    back the set of free frames and the counter of before. *)
Theorem pmm_alloc_frame_correct p :
  pmm_wf p -> alloc_frame_outcome p (pmm_alloc_frame p).
Proof.
  intros H. pose proof (free_count_bounds p). destruct H as [Hc Hh] eqn:EH. clear EH.
  destruct (pmm_alloc_frame_spec p H) as [Hall|f p' Hf Hfree Hu Hfirst Hff Ht Hs Hw].
  - left. split; [|done]. rewrite Hc. unfold free_count.
    apply count_if_none. intros. by rewrite Hall.
  - right. exists f, p'. destruct (free_frame_undo p p' f Hw Hf Hfree Hu) as [Hsame Hcount].
    assert (0 < free_frames p).
    { destruct (decide (free_frames p = 0)) as [E|]; [|lia].
      by rewrite (free_count_zero p f H E Hf) in Hfree. }
    split_and!; try done; lia.
Qed.

(** The outcome [r] of a request for [count] consecutive frames. *)
Definition alloc_contiguous_outcome (p : pmm) (count : Z) (r : pmm * Z) : Prop :=
  ((forall s, 0 <= s -> s + count <= PMM_MAX_FRAMES -> ~ run_free p s count) /\
   r = (p, 0)) \/
  exists s p', r = (p', s * PMM_FRAME_SIZE) /\
    0 <= s /\ s + count <= PMM_MAX_FRAMES /\ run_free p s count /\
    (forall s', 0 <= s' < s -> ~ run_free p s' count) /\
    (forall g, 0 <= g -> is_used p' g = (s <=? g) && (g <? s + count) || is_used p g) /\
    free_frames p' = free_frames p - count /\ pmm_wf p'.

(** [pmm_alloc_contiguous] returns the lowest run of [count] free frames and
    marks exactly those frames used, keeping the counter exact; it fails, changing
    nothing, only when the bitmap holds no such run. *)
Theorem pmm_alloc_contiguous_correct p count :
  pmm_wf p -> 0 < count < 18446744073709551616 ->
  alloc_contiguous_outcome p count (pmm_alloc_contiguous p count).
Proof.
  intros H Hc. destruct (pmm_alloc_contiguous_spec p count H Hc) as [Hno|s p' ???????].
  - left. done.
  - right. exists s, p'. done.
Qed.

(** after [pmm_init] the frames handed out are exactly the frames that lie
    wholly inside a usable E820 region and do not touch low memory, the boot
    stack, the kernel image or the VGA buffer; and the free counter is exact. *)
Theorem pmm_init_correct p0 e820 kernel_end :
  e820_ok e820 -> 33280 < kernel_end < 18446744073709547520 ->
  pmm_wf (pmm_init p0 e820 kernel_end) /\
  forall f, 0 <= f < PMM_MAX_FRAMES ->
    is_used (pmm_init p0 e820 kernel_end) f = false <->
    frame_usable e820 f /\ ~ frame_reserved kernel_end f.
Proof. apply pmm_init_spec. Qed.

(** The calls the rest of the kernel makes.  No caller frees frame 0. *)
Inductive pmm_step : pmm -> pmm -> Prop :=
  | StepAlloc p : pmm_step p (pmm_alloc_frame p).1
  | StepContiguous p count :
      0 <= count < 18446744073709551616 ->
      pmm_step p (pmm_alloc_contiguous p count).1
  | StepFree p a : PMM_FRAME_SIZE <= a -> pmm_step p (pmm_free_frame p a).

Lemma pmm_step_inv p p' :
  pmm_step p p' -> pmm_wf p -> is_used p 0 = true -> pmm_wf p' /\ is_used p' 0 = true.
Proof.
  intros Hs Hw H0. destruct Hs as [p|p count Hc|p a Ha].
  - destruct (pmm_alloc_frame_spec p Hw) as [|f p' ?? Hu]; simpl; [done|].
    split; [done|]. by rewrite Hu, H0, orb_true_r by lia.
  - destruct (decide (count = 0)) as [->|Hne]; [done|].
    destruct (pmm_alloc_contiguous_spec p count Hw ltac:(lia)) as [|s p' ???? Hu]; simpl; [done|].
    split; [done|]. by rewrite Hu, H0, orb_true_r by lia.
  - split; [apply pmm_free_frame_wf; [unfold PMM_FRAME_SIZE in *; lia|done]|].
    unfold pmm_free_frame. assert (Hf : 1 <= frame_of a) by (frames; div_lia).
    destruct (decide (frame_of a < PMM_MAX_FRAMES)); [|by rewrite set_free_out by lia].
    rewrite is_used_set_free, H0 by lia. by replace (frame_of a =? 0) with false by lia.
Qed.

(** in every state the kernel reaches from [pmm_init] by allocating and
    freeing, the counter is exact and frame 0 stays reserved, so a returned
    address 0 always means that the allocation failed. *)
Theorem pmm_reachable_wf p0 e820 kernel_end p :
  e820_ok e820 -> 33280 < kernel_end < 18446744073709547520 ->
  rtc pmm_step (pmm_init p0 e820 kernel_end) p ->
  pmm_wf p /\ is_used p 0 = true /\
  ((pmm_alloc_frame p).2 = 0 <-> free_frames p = 0).
Proof.
  intros He Hk Hr. destruct (pmm_init_spec p0 e820 kernel_end He Hk) as [Hw Hinit].
  assert (H0 : is_used (pmm_init p0 e820 kernel_end) 0 = true).
  { apply not_false_iff_true. rewrite Hinit by (frames; lia). intros [_ Hn]. apply Hn.
    left. unfold frame_overlaps. frames. lia. }
  assert (Hp : pmm_wf p /\ is_used p 0 = true).
  { clear Hinit. induction Hr as [|x y z Hs Hr IH]; [done|].
    destruct (pmm_step_inv x y Hs Hw H0). by apply IH. }
  destruct Hp as [Hwp H0p]. split; [done|]. split; [done|].
  destruct (pmm_alloc_frame_spec p Hwp) as [Hall|f p' Hf Hfree Hu _ Hff _ _ Hwp']; simpl.
  - split; [intros _|done]. destruct Hwp as [-> _]. apply count_if_none. intros. by rewrite Hall.
  - split; intros E.
    + unfold PMM_FRAME_SIZE in E. assert (f = 0) as -> by lia. congruence.
    + by rewrite (free_count_zero p f Hwp E Hf) in Hfree.
Qed.

(** ** A concrete machine: 1 MiB to 64 MiB usable *)

Definition demo_e820 : E820.e820_buffer_t :=
  E820.mk_e820_buffer 2
    [E820.mk_e820_entry 0 654336 E820.E820_TYPE_RESERVED 0;
     E820.mk_e820_entry 1048576 66060288 E820.E820_TYPE_USABLE 0].

Definition demo_kernel_end : Z := 262144.
Definition demo_pmm : pmm := pmm_init pmm_static demo_e820 demo_kernel_end.

Lemma demo_e820_ok : e820_ok demo_e820.
Proof.
  split; [simpl; lia|]. simpl. intros i Hi. assert (i = 0 \/ i = 1) as [-> | ->] by lia;
    unfold entry_ok; simpl; lia.
Qed.

Lemma demo_kernel_end_ok : 33280 < demo_kernel_end < 18446744073709547520.
Proof. unfold demo_kernel_end. lia. Qed.

Lemma demo_pmm_wf : pmm_wf demo_pmm.
Proof. apply pmm_init_spec; [apply demo_e820_ok|apply demo_kernel_end_ok]. Qed.

Lemma pmm_alloc_frame_correct_witness :
  pmm_wf demo_pmm /\ alloc_frame_outcome demo_pmm (pmm_alloc_frame demo_pmm).
Proof. exact (conj demo_pmm_wf (pmm_alloc_frame_correct demo_pmm demo_pmm_wf)). Defined.

Lemma pmm_alloc_contiguous_correct_witness :
  pmm_wf demo_pmm /\ alloc_contiguous_outcome demo_pmm 3 (pmm_alloc_contiguous demo_pmm 3).
Proof.
  exact (conj demo_pmm_wf
    (pmm_alloc_contiguous_correct demo_pmm 3 demo_pmm_wf (conj eq_refl eq_refl))).
Defined.

Lemma pmm_init_correct_witness :
  e820_ok demo_e820 /\
  is_used demo_pmm 256 = false /\ is_used demo_pmm 184 = true.
Proof.
  pose proof (pmm_init_correct pmm_static demo_e820 demo_kernel_end
    demo_e820_ok demo_kernel_end_ok) as [_ T].
  split; [exact demo_e820_ok|]. split.
  - apply T; [frames; lia|]. split.
    + exists 1. simpl. frames. lia.
    + unfold frame_reserved, frame_overlaps, demo_kernel_end. frames. lia.
  - apply not_false_iff_true. intros E. apply T in E; [|frames; lia].
    destruct E as [_ E]. apply E. unfold frame_reserved, frame_overlaps. frames. lia.
Defined.

Lemma pmm_reachable_wf_witness :
  let p := (pmm_alloc_frame demo_pmm).1 in
  pmm_wf p /\ is_used p 0 = true /\
  ((pmm_alloc_frame p).2 = 0 <-> free_frames p = 0).
Proof.
  exact (pmm_reachable_wf pmm_static demo_e820 demo_kernel_end _
    demo_e820_ok demo_kernel_end_ok (rtc_once _ _ (StepAlloc demo_pmm))).
Defined.
