(* ===== verification/Alloc.v ===== *)
(** The interface of a memory allocator.

    What the heap promises its clients: allocations are disjoint, an allocation or
    a release never touches the bytes of the other live allocations, and clients
    may write inside theirs.  Clients are proved against these classes. *)
From S2P Require Import Prelude Mem.

(** [H] is the allocator's own state.  [None] stands for a walk that never ends. *)
Class Allocator (H : Type) := {
  al_malloc : H -> mem -> Z -> option (H * mem * Z);
  al_free : H -> mem -> Z -> option (H * mem);
}.

(** [m'] has the bytes of [m] in every allocation of [L]. *)
Definition keeps (L : gmap Z Z) (m m' : mem) : Prop :=
  forall q k a, L !! q = Some k -> q <= a < q + k -> ld8 m' a = ld8 m a.

(** [al_rep h m L]: the live allocations are [L], from address to size. *)
Class AllocatorLaws (H : Type) {A : Allocator H} := {
  al_rep : H -> mem -> gmap Z Z -> Prop;
  al_range : forall h m L p n, al_rep h m L -> L !! p = Some n ->
    0 < p /\ 0 <= n /\ p + n <= 4294967296;
  al_apart : forall h m L p n q k, al_rep h m L -> L !! p = Some n -> L !! q = Some k ->
    p <> q -> p + n <= q \/ q + k <= p;
  al_frame : forall h m m' L, al_rep h m L ->
    (forall a, ld8 m' a <> ld8 m a -> exists p n, L !! p = Some n /\ p <= a < p + n) ->
    al_rep h m' L;
  al_malloc_law : forall h m L size, al_rep h m L -> 0 <= size < 18446744073709551616 ->
    exists h' m' p, al_malloc h m size = Some (h', m', p) /\ keeps L m m' /\
      ((p = 0 /\ al_rep h' m' L) \/
       (L !! p = None /\ exists n, size <= n /\ al_rep h' m' (<[p := n]> L)));
  al_free_law : forall h m L p n, al_rep h m L -> L !! p = Some n ->
    exists h' m', al_free h m p = Some (h', m') /\ keeps (delete p L) m m' /\
      al_rep h' m' (delete p L);
}.

Lemma keeps_trans L m1 m2 m3 : keeps L m1 m2 -> keeps L m2 m3 -> keeps L m1 m3.
Proof. intros H1 H2 q k a Hq Ha. by rewrite (H2 q k a), (H1 q k a). Qed.

Lemma keeps_sub L L' m m' : L ⊆ L' -> keeps L' m m' -> keeps L m m'.
Proof. intros Hs H q k a Hq. apply H. by apply (lookup_weaken L). Qed.
