(* ===== verification/Heap.v ===== *)
(** The kernel heap of [kernel/mm/heap.c] and the allocator interface it offers.

    Blocks are headers in memory: [size] at offset 0, [free] at 8, [next] at 16.
    The state is [heap_head], the frame allocator below and the memory. *)
From S2P Require Import Prelude Mem Pmm Alloc.

Definition HEAP_ALIGN : Z := 16.
(** [sizeof(heap_block_t)] *)
Definition HEAP_HEADER_SIZE : Z := 24.

Record heap := mk_heap {
  heap_head : Z;
  heap_pmm : pmm;
}.

(** * The model *)

Definition blk_size (m : mem) (b : Z) : Z := ld64 m b.
Definition blk_free (m : mem) (b : Z) : Z := ld32 m (b + 8).
Definition blk_next (m : mem) (b : Z) : Z := ld64 m (b + 16).
Definition set_size (m : mem) (b v : Z) : mem := st64 m b v.
Definition set_free_flag (m : mem) (b v : Z) : mem := st32 m (b + 8) v.
Definition set_next (m : mem) (b v : Z) : mem := st64 m (b + 16) v.

(** Every block is a nonempty range below 4 GiB, so that the list has fewer. *)
Definition HEAP_FUEL : positive := 4294967296.

Definition align_up (value align : Z) : Z :=
  Z.land (value +64 align -64 1) (u64 (Z.lnot (align -64 1))).

Definition grow_heap (h : heap) (m : mem) (required_size : Z) : heap * mem * Z :=
  if required_size >? U64_MAX -64 HEAP_HEADER_SIZE then (h, m, 0)
  else
    let total_size := HEAP_HEADER_SIZE +64 required_size in
    let frame_count := (total_size +64 PMM_FRAME_SIZE -64 1) / PMM_FRAME_SIZE in
    let (p, frame) := pmm_alloc_contiguous (heap_pmm h) frame_count in
    let h := mk_heap (heap_head h) p in
    if frame =? 0 then (h, m, 0)
    else
      let block := frame in
      let m := set_size m block (frame_count *64 PMM_FRAME_SIZE -64 HEAP_HEADER_SIZE) in
      let m := set_free_flag m block 1 in
      let m := set_next m block (heap_head h) in
      (mk_heap block (heap_pmm h), m, block).

Definition heap_init (h : heap) : heap := mk_heap 0 (heap_pmm h).

(** The first-fit search from [block]: the block found, or 0. *)
Definition find_fit (m : mem) (block size : Z) : option Z :=
  while_pos HEAP_FUEL
    (fun block =>
       if block =? 0 then inr 0
       else if negb (blk_free m block =? 0) && (blk_size m block >=? size) then inr block
       else inl (blk_next m block)) block.

(** Carve [size] bytes out of [block] and mark it taken. *)
Definition take_block (m : mem) (block size : Z) : mem :=
  let m :=
    if blk_size m block >=? size +64 HEAP_HEADER_SIZE +64 HEAP_ALIGN then
      let remainder := block +64 HEAP_HEADER_SIZE +64 size in
      let m := set_size m remainder (blk_size m block -64 size -64 HEAP_HEADER_SIZE) in
      let m := set_free_flag m remainder 1 in
      let m := set_next m remainder (blk_next m block) in
      let m := set_size m block size in
      set_next m block remainder
    else m in
  set_free_flag m block 0.

Definition kmalloc (h : heap) (m : mem) (size : Z) : option (heap * mem * Z) :=
  if size =? 0 then Some (h, m, 0)
  else if size >? U64_MAX -64 (HEAP_ALIGN - 1) then Some (h, m, 0)
  else
    let size := align_up size HEAP_ALIGN in
    block ← find_fit m (heap_head h) size;
    let '(h, m, block) := if block =? 0 then grow_heap h m size else (h, m, block) in
    if block =? 0 then Some (h, m, 0)
    else
      let m := take_block m block size in
      Some (h, m, block +64 HEAP_HEADER_SIZE).

(** The block whose payload starts at [ptr], or 0. *)
Definition find_block (m : mem) (head ptr : Z) : option Z :=
  while_pos HEAP_FUEL
    (fun candidate =>
       if candidate =? 0 then inr 0
       else if candidate +64 HEAP_HEADER_SIZE =? ptr then inr candidate
       else inl (blk_next m candidate)) head.

(** Merge every free block with the free block that follows it in the list and in
    memory. *)
Definition coalesce (m : mem) (head : Z) : option mem :=
  while_pos HEAP_FUEL
    (fun '(m, current) =>
       if negb (current =? 0) && negb (blk_next m current =? 0) then
         let next := blk_next m current in
         let current_end := current +64 HEAP_HEADER_SIZE +64 blk_size m current in
         if negb (blk_free m current =? 0) && negb (blk_free m next =? 0) &&
            (current_end =? next)
         then
           let m := set_size m current
             (blk_size m current +64 (HEAP_HEADER_SIZE +64 blk_size m next)) in
           let m := set_next m current (blk_next m next) in
           inl (m, current)
         else inl (m, blk_next m current)
       else inr m) (m, head).

Definition kfree (h : heap) (m : mem) (ptr : Z) : option mem :=
  if ptr =? 0 then Some m
  else
    block ← find_block m (heap_head h) ptr;
    if (block =? 0) || negb (blk_free m block =? 0) then Some m
    else
      let m := set_free_flag m block 1 in
      coalesce m (heap_head h).

(** * The block list *)

Record hblock := mk_hblock { hb_addr : Z; hb_size : Z; hb_free : bool }.

#[export] Instance hblock_eq_dec : EqDecision hblock.
Proof. solve_decision. Defined.

Definition hb_end (b : hblock) : Z := hb_addr b + HEAP_HEADER_SIZE + hb_size b.

(** The header of [b] stands in memory, with link [next]. *)
Definition header (m : mem) (b : hblock) (next : Z) : Prop :=
  blk_size m (hb_addr b) = hb_size b /\ blk_free m (hb_addr b) = c_bool (hb_free b) /\
  blk_next m (hb_addr b) = next.

(** The blocks [bs] are linked from [p] to [q]. *)
Fixpoint lseg (m : mem) (p : Z) (bs : list hblock) (q : Z) : Prop :=
  match bs with
  | [] => p = q
  | b :: bs' => p = hb_addr b /\ exists n, header m b n /\ lseg m n bs' q
  end.

(** Two blocks, headers included, do not meet. *)
Definition apart (b c : hblock) : Prop := hb_end b <= hb_addr c \/ hb_end c <= hb_addr b.

Fixpoint all_apart (bs : list hblock) : Prop :=
  match bs with
  | [] => True
  | b :: bs' => Forall (apart b) bs' /\ all_apart bs'
  end.

(** A block lies in frames the frame allocator has handed out. *)
Definition block_ok (p : pmm) (b : hblock) : Prop :=
  0 < hb_addr b /\ 0 <= hb_size b /\ hb_end b <= PMM_MAX_MEMORY /\
  forall a, hb_addr b <= a < hb_end b -> is_used p (frame_of a) = true.

Record heap_rep (h : heap) (m : mem) (bs : list hblock) : Prop := {
  hr_list : lseg m (heap_head h) bs 0;
  hr_apart : all_apart bs;
  hr_ok : Forall (block_ok (heap_pmm h)) bs;
  hr_pmm : pmm_wf (heap_pmm h);
}.

(** ** Lists of blocks *)

Section lists.
Implicit Types (m : mem) (b c : hblock) (bs pre post : list hblock) (p : pmm).

Lemma all_apart_app l1 l2 :
  all_apart (l1 ++ l2) <->
  all_apart l1 /\ all_apart l2 /\ Forall (fun b => Forall (apart b) l2) l1.
Proof.
  induction l1 as [|b l1 IH]; simpl.
  - split; [by intros|by intros (_ & ? & _)].
  - rewrite IH, Forall_app, Forall_cons_iff. tauto.
Qed.

Lemma apart_sym b c : apart b c -> apart c b.
Proof. unfold apart. lia. Qed.

(** A block in the middle is apart from all the others. *)
Lemma all_apart_mid pre b post :
  all_apart (pre ++ b :: post) <->
  all_apart (pre ++ post) /\ Forall (apart b) (pre ++ post).
Proof.
  assert (E : Forall (fun x => Forall (apart x) (b :: post)) pre <->
    Forall (apart b) pre /\ Forall (fun x => Forall (apart x) post) pre).
  { rewrite !Forall_elem. split.
    - intros H. split; intros x Hx; specialize (H x Hx); apply Forall_cons_iff in H as [? ?];
        [by apply apart_sym|done].
    - intros [H1 H2] x Hx. apply Forall_cons_iff. split; [by apply apart_sym, H1|by apply H2]. }
  rewrite !all_apart_app, E, Forall_app. simpl. tauto.
Qed.

Lemma lseg_app m x bs1 bs2 y :
  lseg m x (bs1 ++ bs2) y <-> exists z, lseg m x bs1 z /\ lseg m z bs2 y.
Proof.
  revert x. induction bs1 as [|b bs1 IH]; intros x; simpl.
  - split; [by exists x|by intros (z & -> & ?)].
  - split.
    + intros (-> & n & Hh & H). apply IH in H as (z & H1 & H2). exists z. split; [|done].
      split; [done|]. by exists n.
    + intros (z & (-> & n & Hh & H1) & H2). split; [done|]. exists n. split; [done|].
      apply IH. by exists z.
Qed.

Lemma header_ext m m' b n :
  (forall a, hb_addr b <= a < hb_addr b + 24 -> ld8 m' a = ld8 m a) ->
  header m b n -> header m' b n.
Proof.
  intros H (H1 & H2 & H3). unfold header, blk_size, blk_free, blk_next in *.
  split_and!.
  - rewrite <- H1. apply ldn_ext. intros. apply H. lia.
  - rewrite <- H2. apply ldn_ext. intros. apply H. lia.
  - rewrite <- H3. apply ldn_ext. intros. apply H. lia.
Qed.

Lemma lseg_ext m m' x bs y :
  (forall b a, b ∈ bs -> hb_addr b <= a < hb_addr b + 24 -> ld8 m' a = ld8 m a) ->
  lseg m x bs y -> lseg m' x bs y.
Proof.
  revert x. induction bs as [|b bs IH]; intros x H; simpl; [done|].
  intros (-> & n & Hh & Hl). split; [done|]. exists n. split.
  - eapply header_ext; [|done]. intros a Ha. apply (H b); [apply list_elem_of_here|done].
  - apply IH; [|done]. intros c a Hc. apply H. by apply list_elem_of_further.
Qed.

(** Distinct positive addresses below 4 GiB: fewer blocks than the fuel. *)
Lemma addresses_nodup p bs : all_apart bs -> Forall (block_ok p) bs -> NoDup (hb_addr <$> bs).
Proof.
  induction bs as [|b bs IH]; simpl; [intros; constructor|].
  intros [Hb Ha] Hok. inversion Hok as [|? ? Hb0 Hok']; subst. constructor; [|by apply IH].
  intros Hin. apply list_elem_of_fmap in Hin as (c & E & Hc).
  rewrite Forall_elem in Hb. specialize (Hb c Hc). rewrite Forall_elem in Hok'.
  destruct (Hok' c Hc) as (? & ? & _). destruct Hb0 as (? & ? & _).
  unfold apart, hb_end, HEAP_HEADER_SIZE in Hb. lia.
Qed.

Lemma block_count p bs :
  all_apart bs -> Forall (block_ok p) bs -> 0 <= zlen bs < Zpos HEAP_FUEL.
Proof.
  intros Ha Hok. pose proof (addresses_nodup p bs Ha Hok) as Hnd.
  assert (Hsub : hb_addr <$> bs ⊆+ seqZ 1 4294967295).
  { apply NoDup_submseteq; [done|]. intros x Hx. apply list_elem_of_fmap in Hx as (b & -> & Hb).
    rewrite Forall_elem in Hok. destruct (Hok b Hb) as (? & ? & He & _).
    unfold hb_end, HEAP_HEADER_SIZE, PMM_MAX_MEMORY in He. apply elem_of_seqZ. lia. }
  apply submseteq_length in Hsub. rewrite length_fmap, length_seqZ in Hsub.
  unfold zlen, HEAP_FUEL. lia.
Qed.

Lemma block_bounds p b :
  block_ok p b -> 0 < hb_addr b /\ 0 <= hb_size b /\ hb_addr b + 24 + hb_size b <= 4294967296.
Proof. unfold block_ok, hb_end, HEAP_HEADER_SIZE, PMM_MAX_MEMORY. lia. Qed.

(** A block that is not the end of the list is at a nonzero address. *)
Lemma lseg_nonzero m p x bs :
  Forall (block_ok p) bs -> lseg m x bs 0 ->
  if x =? 0 then bs = []
  else exists b bs' n, bs = b :: bs' /\ x = hb_addr b /\ header m b n /\ lseg m n bs' 0.
Proof.
  intros Hok H. destruct bs as [|b bs]; simpl in H.
  - subst x. done.
  - destruct H as (-> & n & Hh & Hl). inversion Hok as [|? ? Hb _]; subst.
    apply block_bounds in Hb. replace (hb_addr b =? 0) with false by lia. by exists b, bs, n.
Qed.

Lemma link_bounds m p x bs :
  Forall (block_ok p) bs -> lseg m x bs 0 -> 0 <= x < 18446744073709551616.
Proof.
  intros Hok Hl. pose proof (lseg_nonzero m p x bs Hok Hl) as Hz.
  destruct (x =? 0) eqn:E; bool_prop; [lia|].
  destruct Hz as (c & bs' & n & -> & -> & _). apply Forall_inv, block_bounds in Hok. lia.
Qed.

Lemma c_bool_test (f : bool) : (c_bool f =? 0) = negb f.
Proof. by destruct f. Qed.

(** ** The searches *)

Definition fits (size : Z) b : bool := hb_free b && (hb_size b >=? size).

Lemma find_fit_spec h m bs size :
  heap_rep h m bs ->
  exists r, find_fit m (heap_head h) size = Some r /\
    ((r = 0 /\ Forall (fun b => fits size b = false) bs) \/
     exists pre b post, bs = pre ++ b :: post /\ r = hb_addr b /\ fits size b = true /\
       Forall (fun b => fits size b = false) pre).
Proof.
  intros [Hl Ha Hok _]. unfold find_fit.
  while_pos_inv (zlen bs) (fun n x => exists pre post, bs = pre ++ post /\ lseg m x post 0 /\
      Forall (fun b => fits size b = false) pre /\ n = zlen post)
    (fun r => (r = 0 /\ Forall (fun b => fits size b = false) bs) \/
     exists pre b post, bs = pre ++ b :: post /\ r = hb_addr b /\ fits size b = true /\
       Forall (fun b => fits size b = false) pre); [| | |done].
  - exists [], bs. done.
  - by apply (block_count (heap_pmm h)).
  - intros n x Hn (pre & post & -> & Hpost & Hpre & ->).
    assert (Hokp : Forall (block_ok (heap_pmm h)) post) by (by apply Forall_app in Hok as [_ ?]).
    pose proof (lseg_nonzero m _ x post Hokp Hpost) as Hz.
    destruct (x =? 0); [subst post; left; by rewrite app_nil_r|].
    destruct Hz as (b & post' & nx & -> & -> & (H1 & H2 & H3) & Hl').
    rewrite H1, H2, H3, c_bool_test, negb_involutive.
    destruct (hb_free b && (hb_size b >=? size)) eqn:E.
    + right. by exists pre, b, post'.
    + exists (zlen post'). split; [unfold zlen; simpl; lia|].
      exists (pre ++ [b]), post'. rewrite <- app_assoc. split; [done|]. split; [done|].
      split; [|done]. apply Forall_app. by repeat constructor.
Qed.

Lemma find_block_spec h m bs ptr :
  heap_rep h m bs ->
  exists r, find_block m (heap_head h) ptr = Some r /\
    ((r = 0 /\ forall b, b ∈ bs -> hb_addr b + 24 <> ptr) \/
     exists pre b post, bs = pre ++ b :: post /\ r = hb_addr b /\ hb_addr b + 24 = ptr).
Proof.
  intros [Hl Ha Hok _]. unfold find_block.
  while_pos_inv (zlen bs) (fun n x => exists pre post, bs = pre ++ post /\ lseg m x post 0 /\
      (forall b, b ∈ pre -> hb_addr b + 24 <> ptr) /\ n = zlen post)
    (fun r => (r = 0 /\ forall b, b ∈ bs -> hb_addr b + 24 <> ptr) \/
     exists pre b post, bs = pre ++ b :: post /\ r = hb_addr b /\ hb_addr b + 24 = ptr);
    [| | |done].
  - exists [], bs. split; [done|]. split; [done|]. split; [|done]. intros b Hb. by apply not_elem_of_nil in Hb.
  - by apply (block_count (heap_pmm h)).
  - intros n x Hn (pre & post & -> & Hpost & Hpre & ->).
    assert (Hokp : Forall (block_ok (heap_pmm h)) post) by (by apply Forall_app in Hok as [_ ?]).
    pose proof (lseg_nonzero m _ x post Hokp Hpost) as Hz.
    destruct (x =? 0); [subst post; left; by rewrite app_nil_r|].
    destruct Hz as (b & post' & nx & -> & -> & (H1 & H2 & H3) & Hl').
    apply Forall_inv in Hokp as Hb. apply block_bounds in Hb. unfold HEAP_HEADER_SIZE.
    rewrite u64_small by lia. rewrite H3. destruct (hb_addr b + 24 =? ptr) eqn:E; bool_prop.
    + right. by exists pre, b, post'.
    + exists (zlen post'). split; [unfold zlen; simpl; lia|].
      exists (pre ++ [b]), post'. rewrite <- app_assoc. split; [done|]. split; [done|].
      split; [|done]. intros c Hc. apply elem_of_app in Hc as [Hc|Hc]; [by apply Hpre|].
      apply list_elem_of_singleton in Hc as ->. done.
Qed.
End lists.

(** ** Rewriting part of the list *)

Section rewriting.
Implicit Types (h : heap) (m : mem) (b c : hblock) (bs pre post mid old : list hblock).

(** A block outside the range [lo, hi). *)
Definition outside (lo hi : Z) b : Prop := hb_end b <= lo \/ hi <= hb_addr b.
Definition inside (lo hi : Z) b : Prop := lo <= hb_addr b /\ 0 <= hb_size b /\ hb_end b <= hi.

(** Headers may be rewritten inside a range that no other block meets. *)
Lemma heap_rep_replace h m m' pre old post mid lo hi :
  heap_rep h m (pre ++ old ++ post) ->
  (forall x y, lseg m x old y -> lseg m y post 0 -> lseg m' x mid y) ->
  Forall (outside lo hi) pre -> Forall (outside lo hi) post ->
  only_differ m m' lo (hi - lo) ->
  0 < lo -> hi <= PMM_MAX_MEMORY ->
  (forall a, lo <= a < hi -> is_used (heap_pmm h) (frame_of a) = true) ->
  Forall (inside lo hi) mid -> all_apart mid ->
  heap_rep h m' (pre ++ mid ++ post).
Proof.
  intros [Hl Ha Hok Hp] Hseg Hpre Hpost Hd Hlo Hhi Hused Hmid Hma.
  apply lseg_app in Hl as (x & H1 & Hl). apply lseg_app in Hl as (y & H2 & H3).
  apply Forall_app in Hok as [Ok1 Ok2]. apply Forall_app in Ok2 as [_ Ok2].
  apply all_apart_app in Ha as (A1 & A2 & A3). apply all_apart_app in A2 as (_ & A2 & _).
  assert (Hsame : forall bs p q, Forall (outside lo hi) bs -> Forall (block_ok (heap_pmm h)) bs ->
    lseg m p bs q -> lseg m' p bs q).
  { intros bs p q Ho Hk. apply lseg_ext. intros b a Hb Hin. apply Hd.
    rewrite Forall_elem in Ho, Hk. specialize (Ho b Hb). specialize (Hk b Hb).
    apply block_bounds in Hk. unfold outside, hb_end, HEAP_HEADER_SIZE in Ho. lia. }
  assert (Hout : forall b c, outside lo hi b -> inside lo hi c -> apart b c)
    by (unfold outside, inside, apart; lia).
  rewrite Forall_elem in Hpre, Hpost, Hmid. split; [| | |done].
  - apply lseg_app. exists x. split; [apply Hsame; try done; by apply Forall_elem|].
    apply lseg_app. exists y. split; [by apply Hseg|apply Hsame; try done; by apply Forall_elem].
  - apply all_apart_app. split; [done|]. split.
    + apply all_apart_app. split; [done|]. split; [done|]. apply Forall_elem. intros b Hb.
      apply Forall_elem. intros c Hc. apply apart_sym. by apply Hout; [apply Hpost|apply Hmid].
    + apply Forall_elem. intros b Hb. apply Forall_app. split.
      * apply Forall_elem. intros c Hc. by apply Hout; [apply Hpre|apply Hmid].
      * rewrite Forall_elem in A3. specialize (A3 b Hb). by apply Forall_app in A3 as [_ ?].
  - apply Forall_app. split; [done|]. apply Forall_app. split; [|done].
    apply Forall_elem. intros b Hb. destruct (Hmid b Hb) as (? & ? & ?).
    split; [lia|]. split; [done|]. split; [lia|]. intros a Hin. apply Hused. lia.
Qed.

Lemma write_header_spec m a s f n :
  0 <= s < 18446744073709551616 -> 0 <= n < 18446744073709551616 ->
  header (set_next (set_free_flag (set_size m a s) a (c_bool f)) a n) (mk_hblock a s f) n /\
  only_differ m (set_next (set_free_flag (set_size m a s) a (c_bool f)) a n) a 24.
Proof.
  intros Hs Hn. unfold header, blk_size, blk_free, blk_next, set_next, set_free_flag, set_size.
  cbn [hb_addr hb_size hb_free]. split_and!.
  - rewrite ld64_st64_ne by lia. unfold ld64, st32. rewrite ldn_stn_other by lia.
    fold (ld64 (st64 m a s) a). rewrite ld64_st64_eq. by apply u64_small.
  - unfold ld32, st64 at 1. rewrite ldn_stn_other by lia.
    fold (ld32 (st32 (st64 m a s) (a + 8) (c_bool f)) (a + 8)). rewrite ld32_st32_eq.
    apply u32_small. destruct f; simpl; lia.
  - rewrite ld64_st64_eq. by apply u64_small.
  - intros x Hx. unfold st64, st32. rewrite !ld8_stn_other by lia. done.
Qed.

(** The shape of the list once [b] has been taken for a request of [size]. *)
Definition taken (size : Z) b : list hblock :=
  if hb_size b >=? size + 40 then
    [mk_hblock (hb_addr b) size false;
     mk_hblock (hb_addr b + 24 + size) (hb_size b - size - 24) true]
  else [mk_hblock (hb_addr b) (hb_size b) false].

Lemma only_differ_sub m1 m2 lo n lo' n' :
  only_differ m1 m2 lo' n' -> lo <= lo' -> lo' + n' <= lo + n -> only_differ m1 m2 lo n.
Proof. intros H H1 H2. by apply (only_differ_weaken m1 m2 lo' n'). Qed.

Lemma take_block_spec p m b nx size :
  block_ok p b -> header m b nx -> hb_free b = true -> 0 <= nx < 18446744073709551616 ->
  0 <= size <= hb_size b ->
  only_differ m (take_block m (hb_addr b) size) (hb_addr b) (24 + hb_size b) /\
  lseg (take_block m (hb_addr b) size) (hb_addr b) (taken size b) nx.
Proof.
  intros Hok (H1 & H2 & H3) Hf Hnx Hs. apply block_bounds in Hok as Hb.
  unfold take_block, taken, HEAP_HEADER_SIZE, HEAP_ALIGN. rewrite H1.
  rewrite (u64_small (size + 24)) by lia. rewrite (u64_small (size + 24 + 16)) by lia.
  replace (size + 24 + 16) with (size + 40) by lia.
  destruct (hb_size b >=? size + 40) eqn:E; bool_prop.
  - rewrite (u64_small (hb_addr b + 24)), (u64_small (hb_addr b + 24 + size)) by lia.
    rewrite (u64_small (hb_size b - size)), (u64_small (hb_size b - size - 24)) by lia.
    set (r := hb_addr b + 24 + size).
    assert (Hnext : blk_next (set_free_flag (set_size m r (hb_size b - size - 24)) r 1) (hb_addr b) = nx).
    { rewrite <- H3. unfold blk_next, set_free_flag, set_size. apply ld64_ext. intros x Hx.
      unfold st32, st64. by rewrite !ld8_stn_other by lia. }
    rewrite Hnext.
    destruct (write_header_spec m r (hb_size b - size - 24) true nx ltac:(lia) ltac:(lia)) as [Hr Dr].
    change (c_bool true) with 1 in Hr, Dr. set (m1 := set_next _ r nx) in *. clearbody m1.
    set (m3 := set_next (set_size m1 (hb_addr b) size) (hb_addr b) r).
    assert (Db : only_differ m1 (set_free_flag m3 (hb_addr b) 0) (hb_addr b) 24).
    { intros x Hx. unfold m3, set_free_flag, set_next, set_size, st32, st64.
      by rewrite !ld8_stn_other by lia. }
    split.
    + apply (only_differ_trans _ m1); (eapply only_differ_sub; [done|lia|lia]).
    + cbn [lseg hb_addr]. split; [done|]. exists r. split.
      * unfold header, blk_size, blk_free, blk_next, set_free_flag. cbn [hb_addr hb_size hb_free].
        split_and!.
        -- unfold ld64, st32. rewrite ldn_stn_other by lia. unfold m3, set_next, set_size.
           fold (ld64 (st64 (st64 m1 (hb_addr b) size) (hb_addr b + 16) r) (hb_addr b)).
           rewrite ld64_st64_ne, ld64_st64_eq by lia. apply u64_small. lia.
        -- rewrite ld32_st32_eq. done.
        -- unfold ld64, st32. rewrite ldn_stn_other by lia. unfold m3, set_next.
           fold (ld64 (st64 (set_size m1 (hb_addr b) size) (hb_addr b + 16) r) (hb_addr b + 16)).
           rewrite ld64_st64_eq. apply u64_small. lia.
      * split; [done|]. exists nx. split; [|done]. apply (header_ext m1); [|done].
        intros x Hx. cbn [hb_addr] in Hx. apply Db. lia.
  - assert (Db : only_differ m (set_free_flag m (hb_addr b) 0) (hb_addr b) 24).
    { intros x Hx. unfold set_free_flag, st32. by rewrite !ld8_stn_other by lia. }
    split; [eapply only_differ_sub; [done|lia|lia]|].
    cbn [lseg hb_addr]. split; [done|]. exists nx. split; [|done].
    unfold header, blk_size, blk_free, blk_next, set_free_flag in *. cbn [hb_addr hb_size hb_free].
    split_and!.
    + rewrite <- H1. unfold ld64, st32. apply ldn_stn_other. lia.
    + by rewrite ld32_st32_eq.
    + rewrite <- H3. unfold ld64, st32. apply ldn_stn_other. lia.
Qed.
End rewriting.

(** ** Allocation *)

Section allocation.
Implicit Types (h : heap) (m : mem) (b c : hblock) (bs pre post : list hblock).

Lemma align_up_16 size :
  0 <= size <= 18446744073709551600 -> align_up size HEAP_ALIGN = (size + 15) / 16 * 16.
Proof.
  intros Hs. unfold align_up, HEAP_ALIGN.
  replace (size +64 16 -64 1) with (size + 15).
  2: { unfold u64. rewrite Zminus_mod_idemp_l. rewrite Z.mod_small; lia. }
  change (u64 (Z.lnot (16 -64 1))) with (Z.land (Z.ones 64) (Z.lnot (Z.ones 4))).
  rewrite Z.land_assoc, Z.land_ones by lia. change (2 ^ 64) with 18446744073709551616.
  rewrite Z.mod_small by lia. rewrite <- Z.ldiff_land, Z.ldiff_ones_r by lia.
  rewrite Z.shiftl_mul_pow2, Z.shiftr_div_pow2 by lia. done.
Qed.

(** The bytes of the allocated blocks of [bs]. *)
Definition keeps_blocks bs m m' : Prop :=
  forall b a, b ∈ bs -> hb_free b = false -> hb_addr b <= a < hb_end b -> ld8 m' a = ld8 m a.

Lemma grow_heap_spec h m bs size :
  heap_rep h m bs -> 0 < size <= 18446744073709551600 ->
  (exists p, grow_heap h m size = (mk_heap (heap_head h) p, m, 0) /\
     heap_rep (mk_heap (heap_head h) p) m bs) \/
  (exists h' m' b, grow_heap h m size = (h', m', hb_addr b) /\ heap_rep h' m' (b :: bs) /\
     hb_free b = true /\ size <= hb_size b /\ keeps_blocks bs m m').
Proof.
  intros Hrep Hs. pose proof Hrep as [Hl Ha Hok Hp]. unfold grow_heap, HEAP_HEADER_SIZE, PMM_FRAME_SIZE.
  change (U64_MAX -64 24) with 18446744073709551591.
  destruct (size >? 18446744073709551591) eqn:E1; bool_prop.
  { left. exists (heap_pmm h). by destruct h. }
  rewrite (u64_small (24 + size)) by lia.
  set (count := (24 + size +64 4096 -64 1) / 4096).
  assert (Hcount : count = 0 \/ (0 < count < 18446744073709551616 /\ 24 + size <= count * 4096)).
  { subst count. unfold u64. rewrite Zminus_mod_idemp_l.
    destruct (decide (24 + size + 4095 < 18446744073709551616)).
    - right. rewrite Z.mod_small by lia. div_lia.
    - left. replace (24 + size + 4096 - 1) with
        ((24 + size + 4095 - 18446744073709551616) + 1 * 18446744073709551616) by lia.
      rewrite Z.mod_add, Z.mod_small by lia. apply Z.div_small. lia. }
  clearbody count. destruct Hcount as [->|[Hc Hsz]].
  { left. exists (heap_pmm h). by destruct h. }
  destruct (pmm_alloc_contiguous_spec (heap_pmm h) count Hp Hc) as [_|s p' Hs0 Hsc Hrun _ Hused _ Hwf].
  { left. exists (heap_pmm h). by destruct h. }
  assert (Hok' : forall b, block_ok (heap_pmm h) b -> block_ok p' b).
  { intros b (B1 & B2 & B3 & B4). split_and!; try done. intros a Hin. rewrite Hused.
    - rewrite B4 by done. apply orb_true_r.
    - unfold frame_of. apply Z.div_pos; unfold PMM_FRAME_SIZE; lia. }
  unfold PMM_FRAME_SIZE. destruct (s * 4096 =? 0) eqn:E2; bool_prop.
  { left. exists p'. split; [done|]. split; try done. eapply Forall_impl; [exact Hok'|exact Hok]. }
  right. frames. rewrite (u64_small (count * 4096)) by lia.
  rewrite (u64_small (count * 4096 - 24)) by lia.
  set (b := mk_hblock (s * 4096) (count * 4096 - 24) true). cbn [heap_head heap_pmm].
  assert (Hhead : 0 <= heap_head h < 18446744073709551616).
  { by apply (link_bounds m (heap_pmm h) _ bs). }
  destruct (write_header_spec m (s * 4096) (count * 4096 - 24) true (heap_head h)
    ltac:(lia) Hhead) as [Hh Hd].
  change (c_bool true) with 1 in Hh, Hd. set (m' := set_next _ _ (heap_head h)) in *.
  assert (Hapart : forall c, c ∈ bs -> apart b c).
  { intros c Hc'. rewrite Forall_elem in Hok. destruct (Hok c Hc') as (C1 & C2 & C3 & C4).
    unfold apart, hb_end, HEAP_HEADER_SIZE in *. cbn [hb_addr hb_size b].
    destruct (decide (s * 4096 + 24 + (count * 4096 - 24) <= hb_addr c)); [by left|].
    destruct (decide (hb_addr c + 24 + hb_size c <= s * 4096)); [by right|]. exfalso.
    set (a := Z.max (s * 4096) (hb_addr c)).
    assert (Hu : is_used (heap_pmm h) (frame_of a) = true) by (apply C4; lia).
    rewrite (Hrun (frame_of a)) in Hu; [done|].
    unfold frame_of, PMM_FRAME_SIZE. split; [apply Z.div_le_lower_bound; lia|].
    apply Z.div_lt_upper_bound; lia. }
  assert (Hkeep : forall c a, c ∈ bs -> hb_addr c <= a < hb_end c -> ld8 m' a = ld8 m a).
  { intros c a Hc' Hin. apply Hd. specialize (Hapart c Hc'). unfold apart in Hapart.
    unfold hb_end in *. cbn [hb_addr hb_size b] in Hapart. unfold HEAP_HEADER_SIZE in *. lia. }
  exists (mk_heap (s * 4096) p'), m', b. split; [done|]. split; [|split; [done|split; [simpl; lia|]]].
  - split; cbn [heap_head heap_pmm].
    + split; [done|]. exists (heap_head h). split; [done|]. apply (lseg_ext m); [|done].
      intros c a Hc' Hin. apply (Hkeep c); [done|]. rewrite Forall_elem in Hok.
      specialize (Hok c Hc'). apply block_bounds in Hok. unfold hb_end, HEAP_HEADER_SIZE. lia.
    + split; [by apply Forall_elem|done].
    + constructor; [|eapply Forall_impl; [exact Hok'|exact Hok]].
      unfold block_ok, hb_end, HEAP_HEADER_SIZE, PMM_MAX_MEMORY. cbn [hb_addr hb_size b].
      split_and!; try lia. intros a Hin. assert (Hf : s <= frame_of a < s + count).
      { unfold frame_of, PMM_FRAME_SIZE. split; [apply Z.div_le_lower_bound; lia|].
        apply Z.div_lt_upper_bound; lia. }
      rewrite Hused by lia. replace (s <=? frame_of a) with true by lia.
      by replace (frame_of a <? s + count) with true by lia.
    + done.
  - intros c a Hc' _. by apply Hkeep.
Qed.

(** A block in the middle of a well-formed list. *)
Lemma heap_rep_mid h m pre b post :
  heap_rep h m (pre ++ b :: post) ->
  block_ok (heap_pmm h) b /\ Forall (outside (hb_addr b) (hb_end b)) pre /\
  Forall (outside (hb_addr b) (hb_end b)) post /\ Forall (block_ok (heap_pmm h)) post.
Proof.
  intros [_ Ha Hok _]. apply all_apart_mid in Ha as [_ Ha]. apply Forall_app in Ha as [A1 A2].
  apply Forall_app in Hok as [_ Hok]. apply Forall_cons_iff in Hok as [Hb Hpost].
  assert (Hout : forall c, apart b c -> outside (hb_addr b) (hb_end b) c)
    by (unfold apart, outside; lia).
  split; [done|]. split; [by eapply Forall_impl|]. split; [by eapply Forall_impl|done].
Qed.

Lemma outside_apart lo hi b a : outside lo hi b -> hb_addr b <= a < hb_end b -> ~ (lo <= a < hi).
Proof. unfold outside. lia. Qed.

(** Taking [b] out of the list. *)
Lemma take_spec h m pre b post size :
  heap_rep h m (pre ++ b :: post) -> hb_free b = true -> 0 <= size <= hb_size b ->
  let m' := take_block m (hb_addr b) size in
  heap_rep h m' (pre ++ taken size b ++ post) /\ keeps_blocks (pre ++ b :: post) m m'.
Proof.
  intros Hrep Hf Hs m'. destruct (heap_rep_mid h m pre b post Hrep) as (Hb & Ho1 & Ho2 & Hpost).
  pose proof (block_bounds _ _ Hb) as Hbb.
  assert (Htake : forall y, header m b y -> 0 <= y < 18446744073709551616 ->
    only_differ m m' (hb_addr b) (24 + hb_size b) /\ lseg m' (hb_addr b) (taken size b) y)
    by (intros y Hy Hyb; by apply (take_block_spec (heap_pmm h))).
  assert (Hd : only_differ m m' (hb_addr b) (hb_end b - hb_addr b)).
  { destruct Hrep as [Hl _ _ _]. apply lseg_app in Hl as (z & _ & -> & y & Hh & Hl).
    destruct (Htake y Hh) as [Hd _]; [by apply (link_bounds m (heap_pmm h) _ post)|].
    unfold hb_end, HEAP_HEADER_SIZE. by replace (_ - _) with (24 + hb_size b) by lia. }
  split.
  - apply (heap_rep_replace h m m' pre [b] post _ (hb_addr b) (hb_end b) Hrep); try done.
    + intros x y (-> & n & Hh & <-) Hl. apply Htake; [done|].
      by apply (link_bounds m (heap_pmm h) _ post).
    + lia.
    + apply Hb.
    + apply Hb.
    + unfold taken. destruct (hb_size b >=? size + 40) eqn:E; bool_prop;
        repeat constructor; unfold hb_end, HEAP_HEADER_SIZE; cbn [hb_addr hb_size]; lia.
    + unfold taken. destruct (hb_size b >=? size + 40) eqn:E; simpl; [|done].
      split; [|by split; [constructor|]].
      constructor; [left; unfold hb_end, HEAP_HEADER_SIZE; simpl; lia|constructor].
  - intros c a Hc Hcf Hin. apply Hd. apply elem_of_app in Hc.
    rewrite Forall_elem in Ho1, Ho2. replace (_ + (_ - _)) with (hb_end b) by lia.
    destruct Hc as [Hc|Hc]; [apply (outside_apart _ _ c); [by apply Ho1|done]|].
    apply elem_of_cons in Hc as [->|Hc]; [congruence|].
    apply (outside_apart _ _ c); [by apply Ho2|done].
Qed.

(** The outcome [r] of [kmalloc size] on the blocks [bs]. *)
Definition kmalloc_outcome h m bs (size : Z) (r : heap * mem * Z) : Prop :=
  let asz := (size + 15) / 16 * 16 in
  (exists p, r = (mk_heap (heap_head h) p, m, 0) /\ heap_rep (mk_heap (heap_head h) p) m bs /\
     (size = 0 \/ 18446744073709551600 < size \/ Forall (fun b => fits asz b = false) bs)) \/
  (exists h' m' pre b post, r = (h', m', hb_addr b + 24) /\
     (bs = pre ++ b :: post \/ (pre = [] /\ post = bs)) /\
     hb_free b = true /\ asz <= hb_size b /\
     heap_rep h' m' (pre ++ taken asz b ++ post) /\ keeps_blocks bs m m').

Lemma kmalloc_spec h m bs size :
  heap_rep h m bs -> 0 <= size < 18446744073709551616 ->
  exists r, kmalloc h m size = Some r /\ kmalloc_outcome h m bs size r.
Proof.
  intros Hrep Hs. unfold kmalloc, kmalloc_outcome.
  destruct (size =? 0) eqn:E0; bool_prop.
  { eexists. split; [done|]. left. exists (heap_pmm h). destruct h. auto. }
  change (U64_MAX -64 (HEAP_ALIGN - 1)) with 18446744073709551600.
  destruct (size >? 18446744073709551600) eqn:E1; bool_prop.
  { eexists. split; [done|]. left. exists (heap_pmm h). destruct h. auto. }
  rewrite align_up_16 by lia. set (asz := (size + 15) / 16 * 16).
  assert (Hasz : 0 < asz <= 18446744073709551600) by (subst asz; div_lia). clearbody asz.
  assert (Hbump : forall b p, block_ok p b -> hb_addr b +64 HEAP_HEADER_SIZE = hb_addr b + 24).
  { intros b p Hb. apply block_bounds in Hb. unfold HEAP_HEADER_SIZE. apply u64_small. lia. }
  destruct (find_fit_spec h m bs asz Hrep) as (r & -> & Hr). cbn [mbind option_bind].
  destruct Hr as [[-> Hno]|(pre & b & post & -> & -> & Hfit & _)].
  - destruct (grow_heap_spec h m bs asz Hrep Hasz) as [(p & Eg & Hrep')|(h' & m1 & b & Eg & Hrep' & Hf & Hb & Hk)];
      rewrite Z.eqb_refl, Eg.
    { eexists. split; [done|]. left. exists p. auto. }
    destruct (heap_rep_mid h' m1 [] b bs Hrep') as (Hbok & _). pose proof (block_bounds _ _ Hbok).
    replace (hb_addr b =? 0) with false by lia. rewrite (Hbump b _ Hbok).
    destruct (take_spec h' m1 [] b bs asz Hrep' Hf ltac:(lia)) as [Hrep2 Hk2].
    eexists. split; [done|]. right. exists h', (take_block m1 (hb_addr b) asz), [], b, bs.
    split_and!; try done; [by right|].
    intros c a Hc Hcf Hin. rewrite (Hk2 c a); [by apply (Hk c)| |done|done].
    by apply list_elem_of_further.
  - destruct (heap_rep_mid h m pre b post Hrep) as (Hbok & _). pose proof (block_bounds _ _ Hbok).
    replace (hb_addr b =? 0) with false by lia. replace (hb_addr b =? 0) with false by lia.
    rewrite (Hbump b _ Hbok). unfold fits in Hfit. bool_prop.
    destruct (take_spec h m pre b post asz Hrep ltac:(done) ltac:(lia)) as [Hrep2 Hk2].
    eexists. split; [done|]. right. exists h, (take_block m (hb_addr b) asz), pre, b, post.
    split_and!; try done; by left.
Qed.
End allocation.

(** ** Release *)

Section release.
Implicit Types (h : heap) (m : mem) (b c : hblock) (bs pre post : list hblock).

(** Two list neighbours that [coalesce] would merge. *)
Definition mergeable b c : bool :=
  hb_free b && hb_free c && (hb_end b =? hb_addr c).

Fixpoint coalesced bs : Prop :=
  match bs with
  | [] => True
  | b :: bs' => match bs' with [] => True | c :: _ => mergeable b c = false end /\ coalesced bs'
  end.

Definition merge b c : hblock :=
  mk_hblock (hb_addr b) (hb_size b + 24 + hb_size c) true.

(** The same blocks are allocated. *)
Definition same_allocated bs bs' : Prop :=
  forall b, hb_free b = false -> b ∈ bs <-> b ∈ bs'.

Lemma coalesced_snoc bs b c :
  coalesced (bs ++ [b; c]) <-> coalesced (bs ++ [b]) /\ mergeable b c = false.
Proof.
  induction bs as [|x bs IH]; simpl; [tauto|]. rewrite IH. destruct bs; simpl; tauto.
Qed.

Lemma coalesced_merge_last bs b c :
  coalesced (bs ++ [b]) -> hb_free b = true -> coalesced (bs ++ [merge b c]).
Proof.
  intros H Hf. destruct bs as [|x bs _] using rev_ind; [done|].
  rewrite <- app_assoc in *. simpl in *. rewrite coalesced_snoc in *.
  destruct H as [H Hm]. split; [done|]. unfold mergeable, merge in *. simpl. by rewrite Hf in Hm.
Qed.

Lemma heap_rep_mid2 h m pre b c post :
  heap_rep h m (pre ++ b :: c :: post) -> hb_end b = hb_addr c ->
  Forall (outside (hb_addr b) (hb_end c)) pre /\ Forall (outside (hb_addr b) (hb_end c)) post /\
  block_ok (heap_pmm h) b /\ block_ok (heap_pmm h) c.
Proof.
  intros Hrep E. destruct (heap_rep_mid h m pre b (c :: post) Hrep) as (Hb & P1 & P2 & Hc).
  replace (pre ++ b :: c :: post) with ((pre ++ [b]) ++ c :: post) in Hrep by (by rewrite <- app_assoc).
  destruct (heap_rep_mid h m (pre ++ [b]) c post Hrep) as (_ & Q1 & Q2 & _).
  apply Forall_app in Q1 as [Q1 _]. apply Forall_inv in Hc. apply Forall_inv_tail in P2.
  pose proof (block_bounds _ _ Hb). pose proof (block_bounds _ _ Hc).
  assert (Hall : forall bs, Forall (block_ok (heap_pmm h)) bs ->
    Forall (outside (hb_addr b) (hb_end b)) bs -> Forall (outside (hb_addr c) (hb_end c)) bs ->
    Forall (outside (hb_addr b) (hb_end c)) bs).
  { intros bs Hok H1 H2. rewrite Forall_elem in *. intros x Hx. specialize (Hok x Hx).
    specialize (H1 x Hx). specialize (H2 x Hx). apply block_bounds in Hok.
    unfold outside, hb_end, HEAP_HEADER_SIZE in *. lia. }
  destruct Hrep as [_ _ Hok _]. rewrite <- app_assoc in Hok.
  apply Forall_app in Hok as [Ok1 Ok2]. apply Forall_inv_tail, Forall_inv_tail in Ok2.
  split; [by apply Hall|]. split; [by apply Hall|done].
Qed.

(** One merge. *)
Lemma merge_spec h m pre b c post :
  heap_rep h m (pre ++ b :: c :: post) -> mergeable b c = true ->
  let m' := set_next (set_size m (hb_addr b) (blk_size m (hb_addr b) +64
              (HEAP_HEADER_SIZE +64 blk_size m (hb_addr c)))) (hb_addr b)
              (blk_next (set_size m (hb_addr b) (blk_size m (hb_addr b) +64
                 (HEAP_HEADER_SIZE +64 blk_size m (hb_addr c)))) (hb_addr c)) in
  heap_rep h m' (pre ++ merge b c :: post) /\ lseg m' (hb_addr b) (merge b c :: post) 0 /\
  only_differ m m' (hb_addr b) 24.
Proof.
  intros Hrep Hm. unfold mergeable in Hm. apply andb_prop in Hm as [Hm E].
  apply andb_prop in Hm as [Fb Fc]. apply Z.eqb_eq in E.
  destruct (heap_rep_mid2 h m pre b c post Hrep E) as (P1 & P2 & Hb & Hc).
  pose proof (block_bounds _ _ Hb) as Bb. pose proof (block_bounds _ _ Hc) as Bc.
  unfold hb_end, HEAP_HEADER_SIZE in E.
  pose proof Hrep as [Hl _ Hok _]. apply lseg_app in Hl as (x & Hpre & Ex & nb & Hhb & Ec & nc & Hhc & Hpost).
  subst x nb. pose proof Hhb as (B1 & B2 & B3). pose proof Hhc as (C1 & C2 & C3).
  apply Forall_app in Hok as [_ Hok]. apply Forall_inv_tail, Forall_inv_tail in Hok.
  pose proof (link_bounds _ _ _ _ Hok Hpost) as Hnc.
  unfold HEAP_HEADER_SIZE. rewrite B1, C1. rewrite (u64_small (24 + hb_size c)), u64_small by lia.
  set (m1 := set_size m (hb_addr b) (hb_size b + (24 + hb_size c))).
  assert (Hn1 : blk_next m1 (hb_addr c) = nc).
  { rewrite <- C3. unfold blk_next, m1, set_size. apply ld64_st64_ne. lia. }
  rewrite Hn1. set (m' := set_next m1 (hb_addr b) nc).
  assert (Hd : only_differ m m' (hb_addr b) 24).
  { intros a Ha. unfold m', m1, set_next, set_size, st64. by rewrite !ld8_stn_other by lia. }
  assert (Hmerged : header m' (merge b c) nc).
  { unfold header, merge, blk_size, blk_free, blk_next. cbn [hb_addr hb_size hb_free].
    unfold m', m1, set_next, set_size. split_and!.
    - rewrite ld64_st64_ne, ld64_st64_eq by lia. rewrite u64_small; lia.
    - unfold ld32, st64. rewrite !ldn_stn_other by lia. unfold blk_free, ld32 in B2. by rewrite B2, Fb.
    - rewrite ld64_st64_eq. by apply u64_small. }
  assert (Hpost' : lseg m' nc post 0).
  { apply (lseg_ext m); [|done]. intros y a Hy Ha. apply Hd.
    rewrite Forall_elem in P2, Hok. specialize (P2 y Hy). specialize (Hok y Hy).
    apply block_bounds in Hok. unfold outside, hb_end, HEAP_HEADER_SIZE in P2. lia. }
  assert (Hseg : lseg m' (hb_addr b) [merge b c] nc) by (split; [done|]; by exists nc).
  split; [|split; [split; [done|]; by exists nc|done]].
  apply (heap_rep_replace h m m' pre [b; c] post [merge b c] (hb_addr b) (hb_end c)); try done.
  - intros x y (-> & n1 & (_ & _ & H1) & -> & n2 & (_ & _ & H2) & <-) _.
    rewrite C3 in H2. by subst n2.
  - eapply only_differ_sub; [exact Hd|lia|]. unfold hb_end, HEAP_HEADER_SIZE. lia.
  - lia.
  - apply Hc.
  - intros a Ha. destruct (decide (a < hb_end b)); [apply Hb; lia|apply Hc].
    unfold hb_end, HEAP_HEADER_SIZE in *. lia.
  - constructor; [|constructor]. unfold inside, hb_end, merge, HEAP_HEADER_SIZE. simpl. lia.
Qed.

(** What [coalesce] leaves of the list [bs]. *)
Definition coalesce_outcome h m bs (m' : mem) : Prop :=
  exists bs', heap_rep h m' bs' /\ same_allocated bs bs' /\ coalesced bs' /\ keeps_blocks bs m m'.

Lemma keeps_blocks_trans bs bs' m1 m2 m3 :
  same_allocated bs bs' -> keeps_blocks bs m1 m2 -> keeps_blocks bs' m2 m3 ->
  keeps_blocks bs m1 m3.
Proof.
  intros Hs H1 H2 b a Hb Hf Ha. rewrite (H2 b a), (H1 b a); try done. by apply Hs.
Qed.

Lemma merge_same_allocated pre b c post :
  hb_free b = true -> hb_free c = true ->
  same_allocated (pre ++ b :: c :: post) (pre ++ merge b c :: post).
Proof.
  intros Fb Fc x Hx. rewrite !elem_of_app, !elem_of_cons.
  assert (x <> b) by congruence. assert (x <> c) by congruence.
  assert (x <> merge b c) by (intros ->; done). tauto.
Qed.

Lemma coalesce_spec h m bs :
  heap_rep h m bs -> exists m', coalesce m (heap_head h) = Some m' /\ coalesce_outcome h m bs m'.
Proof.
  intros Hrep. unfold coalesce.
  while_pos_inv (zlen bs) (fun n '(m1, x) => exists pre post,
      heap_rep h m1 (pre ++ post) /\ lseg m1 x post 0 /\ same_allocated bs (pre ++ post) /\
      keeps_blocks bs m m1 /\ n = zlen post /\
      match post with [] => coalesced pre | b :: _ => coalesced (pre ++ [b]) end)
    (coalesce_outcome h m bs); [| | |done].
  - exists [], bs. split_and!; try done; [apply Hrep|]. by destruct bs.
  - destruct Hrep. by apply (block_count (heap_pmm h)).
  - intros n [m1 x] Hn (pre & post & Hrep1 & Hl & Hsame & Hk & -> & Hco).
    pose proof Hrep1 as [_ _ Hok _]. apply Forall_app in Hok as [_ Hok].
    pose proof (lseg_nonzero m1 _ x post Hok Hl) as Hz.
    destruct (x =? 0) eqn:E0; cbn [negb andb].
    { subst post. exists pre. rewrite app_nil_r in *. done. }
    destruct Hz as (b & post' & nx & -> & -> & (B1 & B2 & B3) & Hl').
    rewrite B1, B2, B3, c_bool_test, negb_involutive.
    apply Forall_inv in Hok as Hb. apply block_bounds in Hb. apply Forall_inv_tail in Hok.
    pose proof (lseg_nonzero m1 _ nx post' Hok Hl') as Hz.
    destruct (nx =? 0) eqn:E1; cbn [negb].
    { subst post'. by exists (pre ++ [b]). }
    destruct Hz as (c & post2 & ny & -> & -> & (C1 & C2 & C3) & Hl2). rewrite C2, c_bool_test, negb_involutive.
    unfold HEAP_HEADER_SIZE at 1. rewrite (u64_small (hb_addr b + 24)), u64_small by lia.
    change (hb_addr b + 24 + hb_size b) with (hb_end b).
    destruct (hb_free b && hb_free c && (hb_end b =? hb_addr c)) eqn:Em.
    + destruct (merge_spec h m1 pre b c post2 Hrep1 Em) as (Hrep2 & Hl3 & Hd).
      rewrite B1 in Hrep2, Hl3, Hd. eexists. split; [|exists pre, (merge b c :: post2)].
      { instantiate (1 := zlen (merge b c :: post2)). unfold zlen. simpl. lia. }
      unfold mergeable in Em. bool_prop.
      pose proof (merge_same_allocated pre b c post2 ltac:(done) ltac:(done)) as Hsm.
      split; [done|]. split; [done|].
      split; [intros y Hy; rewrite (Hsame y Hy); by apply Hsm|]. split.
      * apply (keeps_blocks_trans bs (pre ++ b :: c :: post2) m m1); try done.
        intros y a Hy Fy Ha. apply Hd. destruct (heap_rep_mid h m1 pre b (c :: post2) Hrep1) as (_ & O1 & O2 & _).
        rewrite Forall_elem in O1, O2. apply elem_of_app in Hy as [Hy|Hy].
        -- pose proof (outside_apart _ _ y a (O1 y Hy) Ha). unfold hb_end, HEAP_HEADER_SIZE in *. lia.
        -- apply elem_of_cons in Hy as [->|Hy]; [congruence|].
           pose proof (outside_apart _ _ y a (O2 y Hy) Ha). unfold hb_end, HEAP_HEADER_SIZE in *. lia.
      * split; [done|]. by apply coalesced_merge_last.
    + exists (zlen (c :: post2)). split; [unfold zlen; simpl; lia|].
      exists (pre ++ [b]), (c :: post2). rewrite <- !app_assoc. split_and!; try done.
      apply coalesced_snoc. split; [done|exact Em].
Qed.
End release.

(** ** Freeing *)

Section freeing.
Implicit Types (h : heap) (m : mem) (b c : hblock) (bs pre post : list hblock) (L : gmap Z Z).

Definition freed b : hblock := mk_hblock (hb_addr b) (hb_size b) true.

(** The outcome [m'] of [kfree ptr] on the blocks [bs]. *)
Definition kfree_outcome h m bs (ptr : Z) (m' : mem) : Prop :=
  ((forall b, b ∈ bs -> hb_addr b + 24 = ptr -> hb_free b = true) /\ m' = m) \/
  (exists b bs', b ∈ bs /\ hb_free b = false /\ hb_addr b + 24 = ptr /\
     heap_rep h m' bs' /\ coalesced bs' /\
     (forall c, hb_free c = false -> c ∈ bs' <-> c ∈ bs /\ c <> b) /\
     (forall c a, c ∈ bs -> c <> b -> hb_free c = false -> hb_addr c <= a < hb_end c ->
        ld8 m' a = ld8 m a)).

Lemma free_flag_spec h m pre b post :
  heap_rep h m (pre ++ b :: post) ->
  let m' := set_free_flag m (hb_addr b) 1 in
  heap_rep h m' (pre ++ freed b :: post) /\ only_differ m m' (hb_addr b) 24.
Proof.
  intros Hrep m'. destruct (heap_rep_mid h m pre b post Hrep) as (Hb & O1 & O2 & _).
  pose proof (block_bounds _ _ Hb) as Bb.
  assert (Hd : only_differ m m' (hb_addr b) 24).
  { intros a Ha. unfold m', set_free_flag, st32. by rewrite !ld8_stn_other by lia. }
  split; [|done].
  apply (heap_rep_replace h m m' pre [b] post [freed b] (hb_addr b) (hb_end b) Hrep); try done.
  - intros x y (-> & n & (H1 & H2 & H3) & <-) _. split; [done|]. exists n. split; [|done].
    unfold header, blk_size, blk_free, blk_next, m', set_free_flag, freed in *. cbn [hb_addr hb_size hb_free].
    split; [rewrite <- H1; unfold ld64, st32; apply ldn_stn_other; lia|].
    split; [by rewrite ld32_st32_eq|]. rewrite <- H3. unfold ld64, st32. apply ldn_stn_other. lia.
  - eapply only_differ_sub; [exact Hd|lia|]. unfold hb_end, HEAP_HEADER_SIZE. lia.
  - lia.
  - apply Hb.
  - apply Hb.
  - constructor; [|constructor]. unfold inside, hb_end, freed, HEAP_HEADER_SIZE. simpl. lia.
Qed.

(** The blocks of a well-formed list have distinct addresses. *)
Lemma heap_rep_addr_inj h m bs b c :
  heap_rep h m bs -> b ∈ bs -> c ∈ bs -> hb_addr b = hb_addr c -> b = c.
Proof.
  intros [_ Ha Hok _] Hb Hc E. pose proof (addresses_nodup _ _ Ha Hok) as Hnd.
  apply list_elem_of_lookup in Hb as [i Hi]. apply list_elem_of_lookup in Hc as [j Hj].
  assert (i = j); [|congruence].
  apply (NoDup_lookup (hb_addr <$> bs) i j (hb_addr b)); [done| |].
  - by rewrite list_lookup_fmap, Hi.
  - by rewrite list_lookup_fmap, Hj, E.
Qed.

Lemma kfree_spec h m bs ptr :
  heap_rep h m bs -> exists m', kfree h m ptr = Some m' /\ kfree_outcome h m bs ptr m'.
Proof.
  intros Hrep. unfold kfree, kfree_outcome.
  assert (Hpos : forall b, b ∈ bs -> 0 < hb_addr b).
  { intros b Hb. destruct Hrep as [_ _ Hok _]. rewrite Forall_elem in Hok. by apply Hok. }
  destruct (ptr =? 0) eqn:E0; bool_prop.
  { exists m. split; [done|]. left. split; [|done]. intros b Hb E. specialize (Hpos b Hb). lia. }
  destruct (find_block_spec h m bs ptr Hrep) as (r & -> & [[-> Hno]|(pre & b & post & -> & -> & E)]);
    cbn [mbind option_bind].
  { exists m. split; [done|]. left. split; [|done]. intros b Hb E. by destruct (Hno b Hb). }
  assert (Hin : b ∈ pre ++ b :: post) by (apply elem_of_app; right; apply list_elem_of_here).
  pose proof (Hpos b Hin). replace (hb_addr b =? 0) with false by lia.
  assert (Hflag : blk_free m (hb_addr b) = c_bool (hb_free b)).
  { destruct Hrep as [Hl _ _ _]. apply lseg_app in Hl as (x & _ & -> & n & (_ & H2 & _) & _). done. }
  rewrite Hflag, c_bool_test, negb_involutive. destruct (hb_free b) eqn:Ef; cbn [orb].
  { exists m. split; [done|]. left. split; [|done]. intros c Hc Ec.
    by rewrite (heap_rep_addr_inj h m _ c b Hrep Hc Hin) by lia. }
  destruct (free_flag_spec h m pre b post Hrep) as [Hrep1 Hd].
  destruct (coalesce_spec h _ _ Hrep1) as (m' & -> & bs' & Hrep' & Hsame & Hco & Hk).
  exists m'. split; [done|]. right. exists b, bs'.
  assert (Hnd : forall c, c ∈ pre \/ c ∈ post -> c <> b).
  { intros c Hc ->. destruct Hrep as [_ Ha _ _]. apply all_apart_mid in Ha as [_ Ha].
    rewrite Forall_elem in Ha. specialize (Ha b ltac:(by apply elem_of_app)).
    unfold apart, hb_end, HEAP_HEADER_SIZE in Ha. destruct Hrep' as [_ _ _ _].
    apply heap_rep_mid in Hrep1 as [Hb _]. unfold freed in Hb. apply block_bounds in Hb. simpl in Hb. lia. }
  split; [done|]. split; [done|]. split; [done|]. split; [done|]. split; [done|]. split.
  - intros c Fc. rewrite <- (Hsame c Fc), !elem_of_app, !elem_of_cons.
    assert (c <> freed b) by (intros ->; done). split.
    + intros [Hc|[?|Hc]]; [|done|]; (split; [tauto|by apply Hnd; tauto]).
    + intros [[Hc|[?|Hc]] ?]; [by left|done|by right; right].
  - intros c a Hc Hne Fc Ha. assert (Hc' : c ∈ pre ++ freed b :: post).
    { apply elem_of_app in Hc. rewrite elem_of_cons in Hc. apply elem_of_app. rewrite elem_of_cons.
      destruct Hc as [?|[?|?]]; [by left|done|by right; right]. }
    rewrite (Hk c a) by done. apply Hd.
    destruct (heap_rep_mid h m pre b post Hrep) as (_ & O1 & O2 & _). rewrite Forall_elem in O1, O2.
    assert (Ho : outside (hb_addr b) (hb_end b) c).
    { apply elem_of_app in Hc as [Hc|Hc]; [by apply O1|]. apply elem_of_cons in Hc as [?|Hc]; [done|by apply O2]. }
    pose proof (outside_apart _ _ c a Ho Ha). apply heap_rep_mid in Hrep1 as [Hb _].
    apply block_bounds in Hb. unfold freed in Hb. simpl in Hb. unfold hb_end, HEAP_HEADER_SIZE in *. lia.
Qed.

(** ** The heap as an allocator *)

#[export] Instance heap_allocator : Allocator heap := {
  al_malloc := kmalloc;
  al_free h m p := m' ← kfree h m p; Some (h, m');
}.

(** [L] maps the payload of every allocated block of [bs] to its size. *)
Definition live bs L : Prop :=
  forall p n, L !! p = Some n <->
    exists b, b ∈ bs /\ hb_free b = false /\ p = hb_addr b + 24 /\ n = hb_size b.

Definition heap_live h m L : Prop := exists bs, heap_rep h m bs /\ live bs L.

Lemma heap_live_range h m L p n :
  heap_live h m L -> L !! p = Some n -> 0 < p /\ 0 <= n /\ p + n <= 4294967296.
Proof.
  intros (bs & [_ _ Hok _] & Hl) Hp. apply Hl in Hp as (b & Hb & _ & -> & ->).
  rewrite Forall_elem in Hok. specialize (Hok b Hb). apply block_bounds in Hok. lia.
Qed.

Lemma heap_rep_apart h m bs b c :
  heap_rep h m bs -> b ∈ bs -> c ∈ bs -> b <> c -> apart b c.
Proof.
  intros [_ Ha _ _] Hb Hc Hne. apply list_elem_of_split in Hb as (pre & post & ->).
  apply all_apart_mid in Ha as [_ Ha]. rewrite Forall_elem in Ha. apply Ha.
  rewrite elem_of_app, elem_of_cons in Hc. apply elem_of_app.
  destruct Hc as [?|[->|?]]; [by left|done|by right].
Qed.

Lemma heap_live_apart h m L p n q k :
  heap_live h m L -> L !! p = Some n -> L !! q = Some k -> p <> q -> p + n <= q \/ q + k <= p.
Proof.
  intros (bs & Hrep & Hl) Hp Hq Hne. apply Hl in Hp as (b & Hb & _ & -> & ->).
  apply Hl in Hq as (c & Hc & _ & -> & ->).
  assert (Hbc : b <> c) by (intros ->; done).
  pose proof (heap_rep_apart h m bs b c Hrep Hb Hc Hbc) as Ha.
  unfold apart, hb_end, HEAP_HEADER_SIZE in Ha. lia.
Qed.

(** Clients may write inside their allocations. *)
Lemma heap_live_frame h m m' L :
  heap_live h m L ->
  (forall a, ld8 m' a <> ld8 m a -> exists p n, L !! p = Some n /\ p <= a < p + n) ->
  heap_live h m' L.
Proof.
  intros (bs & Hrep & Hl) Hw. exists bs. split; [|done]. pose proof Hrep as [Hs Ha Hok Hp].
  split; try done. apply (lseg_ext m); [|done]. intros b a Hb Hin.
  destruct (decide (ld8 m' a = ld8 m a)) as [|Hne]; [done|]. exfalso.
  apply Hw in Hne as (p & n & Hpn & Hpa). apply Hl in Hpn as (c & Hc & _ & -> & ->).
  rewrite Forall_elem in Hok. pose proof (block_bounds _ _ (Hok b Hb)).
  destruct (decide (b = c)) as [->|Hbc]; [lia|].
  pose proof (heap_rep_apart h m bs b c Hrep Hb Hc Hbc) as Hap.
  unfold apart, hb_end, HEAP_HEADER_SIZE in Hap. lia.
Qed.

Lemma keeps_blocks_live bs L m m' : live bs L -> keeps_blocks bs m m' -> keeps L m m'.
Proof.
  intros Hl Hk q k a Hq Ha. apply Hl in Hq as (b & Hb & Fb & -> & ->).
  apply (Hk b); [done|done|]. unfold hb_end, HEAP_HEADER_SIZE. lia.
Qed.

(** Which blocks are allocated after [b] has been taken. *)
Lemma taken_live bs bs0 pre b post L size :
  (bs = pre ++ b :: post \/ (pre = [] /\ post = bs)) -> bs0 = pre ++ taken size b ++ post ->
  hb_free b = true -> live bs L ->
  (forall c, c ∈ bs -> hb_free c = false -> hb_addr c <> hb_addr b) ->
  exists n, (size <= hb_size b -> size <= n) /\ L !! (hb_addr b + 24) = None /\
    live bs0 (<[hb_addr b + 24 := n]> L).
Proof.
  intros Hbs -> Hf Hl Hfresh.
  exists (if hb_size b >=? size + 40 then size else hb_size b).
  set (n := if hb_size b >=? size + 40 then size else hb_size b).
  assert (Htaken : forall c, hb_free c = false -> c ∈ taken size b <-> c = mk_hblock (hb_addr b) n false).
  { intros c Fc. unfold taken, n. destruct (hb_size b >=? size + 40); rewrite !elem_of_cons, elem_of_nil;
      split; try tauto; intros [?|?]; try tauto. destruct H as [->|?]; [done|tauto]. }
  assert (Hold : forall c, hb_free c = false -> c ∈ pre \/ c ∈ post <-> c ∈ bs).
  { intros c Fc. destruct Hbs as [-> |[-> ->]].
    - rewrite elem_of_app, elem_of_cons. assert (c <> b) by congruence. tauto.
    - rewrite elem_of_nil. tauto. }
  split; [subst n; split_if; lia|]. split.
  { destruct (L !! (hb_addr b + 24)) as [k|] eqn:E; [|done]. exfalso.
    apply Hl in E as (c & Hc & Fc & Ec & _). apply (Hfresh c Hc Fc). lia. }
  intros p k. rewrite lookup_insert_Some. split.
  - intros [[<- <-]|[Hne Hp]].
    + exists (mk_hblock (hb_addr b) n false). rewrite !elem_of_app, Htaken by done. tauto.
    + apply Hl in Hp as (c & Hc & Fc & -> & ->). exists c. rewrite !elem_of_app.
      apply (Hold c Fc) in Hc. tauto.
  - intros (c & Hc & Fc & -> & ->). rewrite !elem_of_app, (Htaken c Fc) in Hc.
    assert (Hcase : c = mk_hblock (hb_addr b) n false \/ c ∈ bs).
    { destruct Hc as [Hc|[Hc|Hc]]; [right; apply Hold; auto|by left|right; apply Hold; auto]. }
    destruct Hcase as [->|Hcb]; [by left|]. right. split.
    + intros E. apply (Hfresh c Hcb Fc). lia.
    + apply Hl. by exists c.
Qed.

Lemma heap_malloc_law h m L size :
  heap_live h m L -> 0 <= size < 18446744073709551616 ->
  exists h' m' p, kmalloc h m size = Some (h', m', p) /\ keeps L m m' /\
    ((p = 0 /\ heap_live h' m' L) \/
     (L !! p = None /\ exists n, size <= n /\ heap_live h' m' (<[p := n]> L))).
Proof.
  intros (bs & Hrep & Hl) Hs. destruct (kmalloc_spec h m bs size Hrep Hs) as (r & E & Hout).
  destruct Hout as [(p & -> & Hrep' & _)|(h' & m' & pre & b & post & -> & Hbs & Hf & Hsz & Hrep' & Hk)].
  - exists (mk_heap (heap_head h) p), m, 0. split; [done|]. split; [done|]. left. split; [done|]. by exists bs.
  - exists h', m', (hb_addr b + 24). split; [done|]. split; [by apply (keeps_blocks_live bs)|]. right.
    set (asz := (size + 15) / 16 * 16) in *. assert (Hasz : size <= asz) by (subst asz; div_lia).
    destruct (taken_live bs _ pre b post L asz Hbs eq_refl Hf Hl) as (n & Hn & Hnone & Hl').
    { intros c Hc Fc E'. assert (Hne : c <> b) by congruence.
      destruct Hbs as [-> |[-> ->]].
      - apply Hne. apply (heap_rep_addr_inj h m _ c b Hrep Hc); [|done].
        apply elem_of_app. right. apply list_elem_of_here.
      - destruct Hrep' as [_ Ha Hok _]. simpl in Ha, Hok.
        apply all_apart_app in Ha as (_ & _ & Ha). rewrite Forall_elem in Ha, Hok.
        assert (Hx : exists x, x ∈ taken asz b /\ hb_addr x = hb_addr b).
        { unfold taken. destruct (hb_size b >=? asz + 40);
            (eexists; split; [apply list_elem_of_here|done]). }
        destruct Hx as (x & Hx & Ex). specialize (Ha x Hx). rewrite Forall_elem in Ha.
        specialize (Ha c Hc). assert (Hxb : block_ok (heap_pmm h') x) by (apply Hok, elem_of_app; by left).
        assert (Hcb : block_ok (heap_pmm h') c) by (apply Hok, elem_of_app; by right).
        apply block_bounds in Hxb, Hcb. unfold apart, hb_end, HEAP_HEADER_SIZE in Ha. lia. }
    split; [done|]. exists n. split; [specialize (Hn Hsz); lia|]. by exists (pre ++ taken asz b ++ post).
Qed.

Lemma heap_free_law h m L p n :
  heap_live h m L -> L !! p = Some n ->
  exists h' m', al_free h m p = Some (h', m') /\ keeps (delete p L) m m' /\
    heap_live h' m' (delete p L).
Proof.
  intros (bs & Hrep & Hl) Hp. destruct (kfree_spec h m bs p Hrep) as (m' & E & Hout).
  exists h, m'. simpl. rewrite E. split; [done|].
  apply Hl in Hp as (b & Hb & Fb & -> & ->).
  destruct Hout as [[Hno _]|(c & bs' & Hc & Fc & Ec & Hrep' & _ & Hsame & Hk)].
  { by rewrite (Hno b Hb eq_refl) in Fb. }
  assert (c = b) as -> by (apply (heap_rep_addr_inj h m bs c b Hrep Hc Hb); lia).
  split.
  - intros q k a Hq Ha. apply lookup_delete_Some in Hq as [Hne Hq].
    apply Hl in Hq as (c & Hc' & Fc' & -> & ->). apply (Hk c); try done; [congruence|].
    unfold hb_end, HEAP_HEADER_SIZE. lia.
  - exists bs'. split; [done|]. intros q k. rewrite lookup_delete_Some. split.
    + intros [Hne Hq]. apply Hl in Hq as (c & Hc' & Fc' & -> & ->). exists c.
      split; [apply Hsame; [done|]; split; [done|congruence]|done].
    + intros (c & Hc' & Fc' & -> & ->). apply Hsame in Hc' as [Hc' Hne]; [|done]. split.
      * intros E'. apply Hne. apply (heap_rep_addr_inj h m bs c b Hrep Hc' Hb). lia.
      * apply Hl. by exists c.
Qed.

#[export] Instance heap_allocator_laws : AllocatorLaws heap := {
  al_rep := heap_live;
  al_range := heap_live_range;
  al_apart := heap_live_apart;
  al_frame := heap_live_frame;
  al_malloc_law := heap_malloc_law;
  al_free_law := heap_free_law;
}.
End freeing.

(** * Results *)

Section results.
Implicit Types (h : heap) (m : mem) (bs : list hblock).

(** [kmalloc] always returns.  It fails, leaving memory and the list alone,
    only for a size that is 0 or cannot be rounded up, or when no free block fits
    and the frame allocator gives nothing; otherwise it returns the payload of a
    free or fresh block of at least the size asked, splits off the rest when a
    header and 16 bytes remain, and never touches an allocated block's bytes. *)
Theorem kmalloc_correct h m bs size :
  heap_rep h m bs -> 0 <= size < 18446744073709551616 ->
  exists r, kmalloc h m size = Some r /\ kmalloc_outcome h m bs size r.
Proof. apply kmalloc_spec. Qed.

(** [kfree] always returns.  A pointer that is no allocated payload (null,
    foreign, or freed before) changes nothing; otherwise that block alone stops
    being allocated, the other allocated blocks keep their bytes, and no two list
    neighbours that could be merged remain. *)
Theorem kfree_correct h m bs ptr :
  heap_rep h m bs -> exists m', kfree h m ptr = Some m' /\ kfree_outcome h m bs ptr m'.
Proof. apply kfree_spec. Qed.

(** The heap and its clients.  [c_live] is the clients' own record, made from what the
    calls return: every pointer [kmalloc] gave out, with the size that was asked for,
    until it is passed to [kfree]. *)
Record clients := mk_clients { c_heap : heap; c_mem : mem; c_live : gmap Z Z }.

(** Allocations, releases of any pointer whatever, and stores of clients inside what
    they have asked for and not released. *)
Inductive heap_step : clients -> clients -> Prop :=
  | StepMalloc h m A size h' m' p :
      0 <= size < 18446744073709551616 -> kmalloc h m size = Some (h', m', p) ->
      heap_step (mk_clients h m A) (mk_clients h' m' (if p =? 0 then A else <[p := size]> A))
  | StepKfree h m A p m' : kfree h m p = Some m' ->
      heap_step (mk_clients h m A) (mk_clients h m' (delete p A))
  | StepStore h m A p n a x : A !! p = Some n -> p <= a < p + n ->
      heap_step (mk_clients h m A) (mk_clients h (st8 m a x) A).

(** The clients own parts of the allocated payloads. *)
Definition within (A L : gmap Z Z) : Prop :=
  forall p n, A !! p = Some n -> exists k, L !! p = Some k /\ n <= k.

Definition clients_ok (c : clients) : Prop :=
  exists L, heap_live (c_heap c) (c_mem c) L /\ within (c_live c) L.

Lemma within_keeps A L m m' : within A L -> keeps L m m' -> keeps A m m'.
Proof. intros Hs Hk q n a Hq Ha. destruct (Hs q n Hq) as (k & HL & Hnk). apply (Hk q k); [done|lia]. Qed.

Lemma within_insert A L p n k : within A L -> n <= k -> within (<[p := n]> A) (<[p := k]> L).
Proof.
  intros Hs Hnk q j. rewrite lookup_insert_Some. intros [[<- <-]|[Hne Hq]].
  - exists k. by rewrite lookup_insert_eq.
  - rewrite lookup_insert_ne by done. by apply Hs.
Qed.

Lemma within_delete A L p : within A L -> within (delete p A) (delete p L).
Proof.
  intros Hs q j [Hne Hq]%lookup_delete_Some. destruct (Hs q j Hq) as (k & HL & Hj).
  exists k. by rewrite lookup_delete_ne.
Qed.

(** [kfree] of any pointer. *)
Lemma kfree_live h m L p :
  heap_live h m L -> exists m', kfree h m p = Some m' /\ keeps (delete p L) m m' /\ heap_live h m' (delete p L).
Proof.
  intros Hl. destruct (L !! p) as [n|] eqn:E.
  - destruct (heap_free_law h m L p n Hl E) as (h' & m' & Ef & Hk & Hl'). simpl in Ef.
    destruct (kfree h m p) as [m2|]; [|done]. injection Ef as <- <-. by exists m2.
  - destruct Hl as (bs & Hrep & Hl). destruct (kfree_spec h m bs p Hrep) as (m' & Ef & Hout).
    exists m'. split; [done|]. rewrite delete_id by done.
    destruct Hout as [[_ ->]|(b & _ & Hb & Fb & Eb & _)]; [split; [done|by exists bs]|].
    assert (Hs : L !! p = Some (hb_size b)) by (apply Hl; by exists b). congruence.
Qed.

(** What [kmalloc] and [kfree] give clients that are well. *)
Lemma clients_malloc h m A size :
  clients_ok (mk_clients h m A) -> 0 <= size < 18446744073709551616 ->
  exists h' m' p, kmalloc h m size = Some (h', m', p) /\ keeps A m m' /\ (p <> 0 -> A !! p = None) /\
    clients_ok (mk_clients h' m' (if p =? 0 then A else <[p := size]> A)).
Proof.
  intros (L & Hl & Hs) Hsz. simpl in *.
  destruct (heap_malloc_law h m L size Hl Hsz) as (h' & m' & p & E & Hk & Hout).
  exists h', m', p. split; [done|]. split; [by eapply within_keeps|].
  destruct Hout as [[-> Hl']|(Hnone & n & Hn & Hl')]; [split; [done|by exists L]|]. split.
  - intros _. destruct (A !! p) as [k|] eqn:EA; [|done]. destruct (Hs p k EA) as (? & ? & _). congruence.
  - destruct (heap_live_range h' m' _ p n Hl') as (Hp & _); [by rewrite lookup_insert_eq|].
    replace (p =? 0) with false by lia. exists (<[p := n]> L). split; [done|]. by apply within_insert.
Qed.

Lemma clients_free h m A p :
  clients_ok (mk_clients h m A) ->
  exists m', kfree h m p = Some m' /\ keeps (delete p A) m m' /\ clients_ok (mk_clients h m' (delete p A)).
Proof.
  intros (L & Hl & Hs). simpl in *. destruct (kfree_live h m L p Hl) as (m' & E & Hk & Hl').
  exists m'. split; [done|]. pose proof (within_delete A L p Hs) as Hd.
  split; [by eapply within_keeps|]. by exists (delete p L).
Qed.

Lemma heap_step_ok x y : heap_step x y -> clients_ok x -> clients_ok y.
Proof.
  intros Hs Hx. destruct Hs as [h m A size h' m' p Hsz E|h m A p m' E|h m A p n a x Hp Ha].
  - destruct (clients_malloc h m A size Hx Hsz) as (h1 & m1 & p1 & E' & _ & _ & Hok).
    rewrite E in E'. by injection E' as <- <- <-.
  - destruct (clients_free h m A p Hx) as (m1 & E' & _ & Hok). rewrite E in E'. by injection E' as <-.
  - destruct Hx as (L & Hl & Hw). exists L. split; [|done]. simpl in *.
    apply (heap_live_frame h m); [done|]. intros b Hb. destruct (Hw p n Hp) as (k & HL & Hk).
    exists p, k. split; [done|]. destruct (decide (b = a)) as [->|Hne]; [lia|].
    destruct Hb. by rewrite ld8_st8_ne.
Qed.

(** The promise to the clients: what they hold lies in frames taken from the frame
    allocator, no two of them hold the same byte, and whatever call comes next returns,
    gives out nothing that is held, and touches no byte of what stays held. *)
Record clients_safe (c : clients) : Prop := {
  cs_frames : forall p n, c_live c !! p = Some n -> 0 < p /\ p + n <= 4294967296 /\
    forall a, p <= a < p + n -> is_used (heap_pmm (c_heap c)) (frame_of a) = true;
  cs_disjoint : forall p n q k, c_live c !! p = Some n -> c_live c !! q = Some k -> p <> q ->
    p + n <= q \/ q + k <= p;
  cs_malloc : forall size, 0 <= size < 18446744073709551616 ->
    exists h' m' p, kmalloc (c_heap c) (c_mem c) size = Some (h', m', p) /\
      keeps (c_live c) (c_mem c) m' /\ (p <> 0 -> c_live c !! p = None);
  cs_free : forall p, exists m', kfree (c_heap c) (c_mem c) p = Some m' /\
    keeps (delete p (c_live c)) (c_mem c) m';
}.

Lemma clients_ok_safe c : clients_ok c -> clients_safe c.
Proof.
  destruct c as [h m A]. intros Hok. pose proof Hok as (L & Hl & Hs). simpl in *. split; simpl.
  - intros p n Hp. destruct (Hs p n Hp) as (k & HL & Hk).
    destruct (heap_live_range h m L p k Hl HL) as (? & ? & ?). split; [done|]. split; [lia|].
    intros a Ha. destruct Hl as (bs & [_ _ Hbs _] & Hl). apply Hl in HL as (b & Hb & _ & -> & ->).
    rewrite Forall_elem in Hbs. apply (Hbs b Hb). unfold hb_end, HEAP_HEADER_SIZE. lia.
  - intros p n q k Hp Hq Hne. destruct (Hs p n Hp) as (n' & Hp' & ?). destruct (Hs q k Hq) as (k' & Hq' & ?).
    pose proof (heap_live_apart h m L p n' q k' Hl Hp' Hq' Hne). lia.
  - intros size Hsz. destruct (clients_malloc h m A size Hok Hsz) as (h' & m' & p & ? & ? & ? & _). by exists h', m', p.
  - intros p. destruct (clients_free h m A p Hok) as (m' & ? & ? & _). by exists m'.
Qed.

(** C5: after any sequence of allocations, releases of arbitrary pointers and client
    stores on a heap that starts empty, the memory that [kmalloc] has given out and
    that is not released consists of disjoint ranges of the sizes asked for, below
    4 GiB, in frames taken from the frame allocator; and every further call returns,
    never gives out memory that is still held, and keeps every byte of it. *)
Theorem heap_reachable_disjoint p0 m0 h0 c :
  pmm_wf p0 -> heap_init h0 = mk_heap 0 p0 ->
  rtc heap_step (mk_clients (heap_init h0) m0 ∅) c -> clients_safe c.
Proof.
  intros Hp H0 Hr. apply clients_ok_safe.
  assert (H1 : clients_ok (mk_clients (heap_init h0) m0 ∅)).
  { exists ∅. rewrite H0. split; [|intros p n; by rewrite lookup_empty].
    exists []. split; [by split|]. intros p n. rewrite lookup_empty.
    split; [done|]. intros (b & Hb & _). by apply not_elem_of_nil in Hb. }
  clear H0. induction Hr as [x|x y z Hs _ IH]; [done|]. apply IH. by apply (heap_step_ok x y).
Qed.
End results.

(** * A concrete heap *)

Definition demo_heap : heap := mk_heap 0 demo_pmm.

Lemma demo_heap_rep : heap_rep demo_heap ∅ [].
Proof. split; [done|done|constructor|exact demo_pmm_wf]. Qed.

Lemma low_frame_used a : 4096 <= a < 8192 -> is_used demo_pmm (frame_of a) = true.
Proof.
  intros Ha. assert (Hf : frame_of a = 1).
  { unfold frame_of, PMM_FRAME_SIZE. symmetry. apply (Z.div_unique a 4096 1 (a - 4096)); lia. }
  apply not_false_iff_true. intros E.
  apply (pmm_init_spec pmm_static demo_e820 demo_kernel_end demo_e820_ok demo_kernel_end_ok) in E;
    [|rewrite Hf; frames; lia].
  destruct E as [_ E]. apply E. rewrite Hf. unfold frame_reserved, frame_overlaps. frames. lia.
Qed.

(** One block of 64 bytes at address 4096, allocated. *)
Definition demo_block : hblock := mk_hblock 4096 64 false.
Definition demo_heap1 : heap := mk_heap 4096 demo_pmm.
Definition demo_mem1 : mem := set_next (set_free_flag (set_size ∅ 4096 64) 4096 0) 4096 0.

Lemma demo_heap1_rep : heap_rep demo_heap1 demo_mem1 [demo_block].
Proof.
  destruct (write_header_spec ∅ 4096 64 false 0) as [Hh _]; [lia|lia|].
  split.
  - split; [done|]. by exists 0.
  - split; [constructor|done].
  - constructor; [|constructor]. split; [done|]. split; [done|]. split; [done|].
    intros a Ha. unfold hb_end, HEAP_HEADER_SIZE in Ha. cbn [hb_addr hb_size demo_block] in Ha.
    apply low_frame_used. lia.
  - exact demo_pmm_wf.
Qed.

Lemma kmalloc_correct_witness :
  heap_rep demo_heap1 demo_mem1 [demo_block] /\
  exists r, kmalloc demo_heap1 demo_mem1 100 = Some r /\
    kmalloc_outcome demo_heap1 demo_mem1 [demo_block] 100 r.
Proof.
  split; [exact demo_heap1_rep|].
  apply (kmalloc_correct demo_heap1 demo_mem1 [demo_block] 100 demo_heap1_rep). lia.
Defined.

Lemma kfree_correct_witness :
  heap_rep demo_heap1 demo_mem1 [demo_block] /\
  exists m', kfree demo_heap1 demo_mem1 4120 = Some m' /\
    kfree_outcome demo_heap1 demo_mem1 [demo_block] 4120 m'.
Proof.
  exact (conj demo_heap1_rep (kfree_correct demo_heap1 demo_mem1 [demo_block] 4120 demo_heap1_rep)).
Defined.

Lemma step_malloc h m A size h' m' p :
  0 <= size < 18446744073709551616 -> p <> 0 -> kmalloc h m size = Some (h', m', p) ->
  heap_step (mk_clients h m A) (mk_clients h' m' (<[p := size]> A)).
Proof.
  intros Hs Hp E. pose proof (StepMalloc h m A size h' m' p Hs E) as H.
  by replace (p =? 0) with false in H by lia.
Qed.

(** Two allocations out of the first frame above the kernel. *)
Example demo_allocations :
  ('(h1, m1, p) ← kmalloc (heap_init demo_heap) ∅ 100;
   '(_, _, q) ← kmalloc h1 m1 16; Some (p, q)) = Some (1048600, 1048736).
Proof. vm_compute. reflexivity. Qed.

Lemma heap_reachable_disjoint_witness :
  exists c, rtc heap_step (mk_clients (heap_init demo_heap) ∅ ∅) c /\ clients_safe c /\
    c_live c = delete 1048736 (<[1048736 := 16]> (<[1048600 := 100]> ∅)) /\ ld8 (c_mem c) 1048600 = 7.
Proof.
  pose proof demo_allocations as Hd.
  apply bind_Some in Hd as ([[h1 m1] p] & E1 & Hd). apply bind_Some in Hd as ([[h2 m2] q] & E2 & Hd).
  injection Hd as -> ->.
  set (A := <[1048736 := 16]> (<[1048600 := 100]> (∅ : gmap Z Z))).
  assert (HA : A !! 1048600 = Some 100) by (unfold A; by rewrite lookup_insert_ne, lookup_insert_eq).
  set (c2 := mk_clients h2 (st8 m2 1048600 7) A).
  assert (R2 : rtc heap_step (mk_clients (heap_init demo_heap) ∅ ∅) c2).
  { apply rtc_l with (mk_clients h1 m1 (<[1048600 := 100]> ∅)).
    { apply (step_malloc _ _ _ 100); [lia|lia|exact E1]. }
    apply rtc_l with (mk_clients h2 m2 A).
    { apply (step_malloc _ _ _ 16); [lia|lia|exact E2]. }
    apply rtc_once. apply (StepStore h2 m2 A 1048600 100); [exact HA|lia]. }
  destruct (heap_reachable_disjoint demo_pmm ∅ demo_heap c2 demo_pmm_wf eq_refl R2) as [_ _ _ Hf].
  destruct (Hf 1048736) as (m3 & E3 & Hk).
  exists (mk_clients h2 m3 (delete 1048736 A)).
  assert (R3 : rtc heap_step (mk_clients (heap_init demo_heap) ∅ ∅) (mk_clients h2 m3 (delete 1048736 A))).
  { eapply rtc_r; [exact R2|]. by apply StepKfree. }
  split; [exact R3|]. split; [exact (heap_reachable_disjoint demo_pmm ∅ demo_heap _ demo_pmm_wf eq_refl R3)|].
  split; [reflexivity|]. cbn [c_mem]. rewrite (Hk 1048600 100 1048600); [|by rewrite lookup_delete_ne|lia].
  cbn [c_mem c2]. by rewrite ld8_st8_eq.
Defined.

(** Two blocks, at 4096 and 4192, both allocated. *)
Definition demo_block2 : hblock := mk_hblock 4192 64 false.
Definition demo_mem2 : mem :=
  let m := set_next (set_free_flag (set_size ∅ 4192 64) 4192 0) 4192 0 in
  set_next (set_free_flag (set_size m 4096 64) 4096 0) 4096 4192.

Lemma demo_heap2_rep : heap_rep demo_heap1 demo_mem2 [demo_block; demo_block2].
Proof.
  destruct (write_header_spec ∅ 4192 64 false 0) as [Hh2 _]; [lia|lia|].
  set (m := set_next (set_free_flag (set_size ∅ 4192 64) 4192 (c_bool false)) 4192 0) in Hh2.
  destruct (write_header_spec m 4096 64 false 4192) as [Hh Hd]; [lia|lia|].
  assert (Hok : forall a, 4096 <= a -> a + 88 <= 8192 -> block_ok demo_pmm (mk_hblock a 64 false)).
  { intros a H1 H2. unfold block_ok, hb_end, HEAP_HEADER_SIZE, PMM_MAX_MEMORY. cbn [hb_addr hb_size].
    split; [lia|]. split; [lia|]. split; [lia|]. intros x Hx. apply low_frame_used. lia. }
  split.
  - split; [done|]. exists 4192. split; [exact Hh|]. split; [done|]. exists 0. split; [|done].
    apply (header_ext m); [|exact Hh2]. intros a Ha. apply Hd. simpl in Ha. lia.
  - split; [|split; [constructor|done]]. constructor; [|constructor].
    left. unfold hb_end, HEAP_HEADER_SIZE. simpl. lia.
  - constructor; [apply Hok; lia|]. constructor; [apply Hok; lia|constructor].
  - exact demo_pmm_wf.
Qed.

Definition demo_live2 : gmap Z Z := <[4120 := 64]> (<[4216 := 64]> ∅).

Lemma demo_heap2_live : heap_live demo_heap1 demo_mem2 demo_live2.
Proof.
  exists [demo_block; demo_block2]. split; [exact demo_heap2_rep|]. intros p n. unfold demo_live2.
  rewrite !lookup_insert_Some, lookup_empty. split.
  - intros [[<- <-]|[_ [[<- <-]|[_ ?]]]]; [exists demo_block|exists demo_block2|done].
    + split; [apply list_elem_of_here|done].
    + split; [apply list_elem_of_further, list_elem_of_here|done].
  - intros (b & Hb & _ & -> & ->). apply elem_of_cons in Hb as [->|Hb]; [by left|].
    apply list_elem_of_singleton in Hb as ->. right. split; [done|]. by left.
Qed.
