(* ===== verification/Blk.v ===== *)
(** The sector interface of the disk driver.

    [ata_read_sectors] and [ata_write_sectors] are what the two file systems call;
    [BlockDev] is their signature and [BlockDevLaws] what a healthy disk promises
    its clients, byte by byte.  [memdisk] is a disk kept in a finite map. *)
From S2P Require Import Prelude CString.

Definition SECTOR_SIZE : Z := 512.

(** [D] is the state of the controller and its drive.  [ata_read_sectors d lba
    count buf] returns C's result, the buffer as the call leaves it, and the new
    device state. *)
Class BlockDev (D : Type) := {
  ata_read_sectors : D -> Z -> Z -> list Z -> Z * list Z * D;
  ata_write_sectors : D -> Z -> Z -> list Z -> Z * D;
}.

(** [blk_byte d a] is the byte at disk address [a = lba * 512 + i]; [blk_limit d]
    the number of sectors; [blk_ok d] says that the drive answers. *)
Class BlockDevLaws (D : Type) {B : BlockDev D} := {
  blk_ok : D -> Prop;
  blk_limit : D -> Z;
  blk_byte : D -> Z -> Z;
  blk_byte_ok : forall d a, blk_ok d -> 0 <= blk_byte d a < 256;
  blk_read_law : forall d lba count buf,
    blk_ok d -> 0 <= lba -> 1 <= count <= 256 -> lba + count <= blk_limit d ->
    count * SECTOR_SIZE <= zlen buf ->
    exists buf' d', ata_read_sectors d lba count buf = (0, buf', d') /\
      blk_ok d' /\ blk_limit d' = blk_limit d /\
      (forall a, blk_byte d' a = blk_byte d a) /\
      zlen buf' = zlen buf /\
      forall i, 0 <= i -> buf'.[i] =
        if decide (i < count * SECTOR_SIZE) then blk_byte d (lba * SECTOR_SIZE + i)
        else buf.[i];
  blk_write_law : forall d lba count buf,
    blk_ok d -> 0 <= lba -> 1 <= count <= 256 -> lba + count <= blk_limit d ->
    count * SECTOR_SIZE <= zlen buf -> bytes_ok buf ->
    exists d', ata_write_sectors d lba count buf = (0, d') /\
      blk_ok d' /\ blk_limit d' = blk_limit d /\
      forall a, blk_byte d' a =
        if decide (lba * SECTOR_SIZE <= a < (lba + count) * SECTOR_SIZE)
        then buf.[a - lba * SECTOR_SIZE] else blk_byte d a;
}.

(** * A disk in memory *)

Record memdisk := mk_memdisk {
  md_sectors : Z;
  md_bytes : gmap Z Z;
}.

Definition md_get (d : memdisk) (a : Z) : Z := u8 (default 0 (md_bytes d !! a)).

Definition md_inrange (d : memdisk) (lba count : Z) : bool :=
  (0 <=? lba) && (1 <=? count) && (count <=? 256) && (lba + count <=? md_sectors d).

Definition md_read (d : memdisk) (lba count : Z) (buf : list Z) : Z * list Z * memdisk :=
  if md_inrange d lba count then
    (0, for_each 0 (count * SECTOR_SIZE)
          (fun i b => b.[i <- md_get d (lba * SECTOR_SIZE + i)]) buf, d)
  else (-1, buf, d).

Definition md_write (d : memdisk) (lba count : Z) (buf : list Z) : Z * memdisk :=
  if md_inrange d lba count then
    (0, mk_memdisk (md_sectors d)
          (for_each 0 (count * SECTOR_SIZE)
             (fun i m => <[lba * SECTOR_SIZE + i := buf.[i]]> m) (md_bytes d)))
  else (-1, d).

#[export] Instance memdisk_dev : BlockDev memdisk := {
  ata_read_sectors := md_read;
  ata_write_sectors := md_write;
}.

Lemma md_write_bytes (m : gmap Z Z) (base n : Z) (buf : list Z) a :
  0 <= n ->
  for_each 0 n (fun i m => <[base + i := buf.[i]]> m) m !! a =
    if decide (base <= a < base + n) then Some buf.[a - base] else m !! a.
Proof.
  intros Hn. apply (for_each_inv 0 n _ m (fun k m' => m' !! a =
    if decide (base <= a < base + k) then Some buf.[a - base] else m !! a)); [lia| |].
  - by rewrite decide_False by lia.
  - intros k m' Hk IH. destruct (decide (base + k = a)) as [<-|].
    + rewrite lookup_insert_eq, decide_True by lia. do 3 f_equal. lia.
    + rewrite lookup_insert_ne, IH by done. repeat case_decide; try lia; done.
Qed.

#[export] Program Instance memdisk_laws : BlockDevLaws memdisk := {
  blk_ok _ := True;
  blk_limit := md_sectors;
  blk_byte := md_get;
}.
Next Obligation. intros d a _. apply u8_bounds. Qed.
Next Obligation.
  intros d lba count buf _ Hl Hc Hlim Hb. simpl. unfold md_read, md_inrange.
  rewrite (proj2 (Z.leb_le 0 lba)), (proj2 (Z.leb_le 1 count)), (proj2 (Z.leb_le count 256)),
    (proj2 (Z.leb_le _ _)) by lia. simpl.
  eexists _, d. split; [done|].
  destruct (for_each_fill buf (count * SECTOR_SIZE)
    (fun i => md_get d (lba * SECTOR_SIZE + i))) as [Hlen Hget].
  { unfold SECTOR_SIZE in *. lia. }
  done.
Qed.
Next Obligation.
  intros d lba count buf _ Hl Hc Hlim Hb Hok. simpl. unfold md_write, md_inrange.
  rewrite (proj2 (Z.leb_le 0 lba)), (proj2 (Z.leb_le 1 count)), (proj2 (Z.leb_le count 256)),
    (proj2 (Z.leb_le _ _)) by lia. simpl.
  eexists. split; [done|]. split; [done|]. split; [done|]. intros a.
  unfold md_get; simpl. rewrite md_write_bytes by (unfold SECTOR_SIZE; lia).
  replace ((lba + count) * SECTOR_SIZE) with (lba * SECTOR_SIZE + count * SECTOR_SIZE) by lia.
  case_decide; [|done]. simpl. apply u8_small, Hok. lia.
Qed.
