(* ===== verification/Ports.v ===== *)
(** The input and output ports, [kernel/include/kernel/io.h], and the devices that are
    only written to or polled: the serial line with the kernel log, the interrupt
    controllers, the timer chip and the power switch. *)
From S2P Require Import Prelude CString.

(** [inb], [outb] and their 16-bit forms; [D] is the state of the devices, which a
    read may change. *)
Class PortIO (D : Type) := {
  inb : D -> Z -> Z * D;
  outb : D -> Z -> Z -> D;
  inw : D -> Z -> Z * D;
  outw : D -> Z -> Z -> D;
}.

Section ports.
Context {D : Type} `{PortIO D}.

Definition io_wait (d : D) : D := outb d 0x80 0.

(** Writes one after the other. *)
Definition outbs (d : D) (l : list (Z * Z)) : D := foldl (fun d pv => outb d pv.1 pv.2) d l.

(** * [kernel/drivers/serial.c] and [kernel/core/klog.c] *)

Definition COM1 : Z := 0x3F8.

Definition serial_init (d : D) : D :=
  outbs d [(COM1 + 1, 0x00); (COM1 + 3, 0x80); (COM1 + 0, 0x03); (COM1 + 1, 0x00);
           (COM1 + 3, 0x03); (COM1 + 2, 0xC7); (COM1 + 4, 0x0B)].

Definition serial_tx_ready (d : D) : bool * D :=
  let (v, d) := inb d (COM1 + 5) in (negb (Z.land v 0x20 =? 0), d).

(** The wait has no bound in the code; [fuel] bounds it here. *)
Context (fuel : positive).

Definition serial_putchar (d : D) (c : Z) : option D :=
  d ← while_pos fuel (fun d => let (r, d) := serial_tx_ready d in if r then inr d else inl d) d;
  Some (outb d COM1 (u8 c)).

(** One character, with a carriage return before a line feed. *)
Definition serial_char (d : D) (c : Z) : option D :=
  d ← (if c =? 10 then serial_putchar d 13 else Some d);
  serial_putchar d c.

Fixpoint serial_write (d : D) (str : list Z) : option D :=
  match str with
  | [] => Some d
  | c :: str => if c =? 0 then Some d else d ← serial_char d c; serial_write d str
  end.

Definition serial_write_n (d : D) (data : list Z) (len : Z) : option D :=
  for_each 0 len (fun i d => d ← d; serial_char d data.[i]) (Some d).

Definition hex_digits : list Z := [48; 49; 50; 51; 52; 53; 54; 55; 56; 57; 65; 66; 67; 68; 69; 70].

Definition serial_write_hex (d : D) (value : Z) : option D :=
  d ← serial_write d [48; 120];
  for_each 0 16 (fun k d => d ← d; serial_putchar d hex_digits.[Z.land (Z.shiftr value (60 - 4 * k)) 0xF]) (Some d).

Definition klog_init (d : D) : D := serial_init d.
Definition klog_write (d : D) (str : list Z) : option D := serial_write d str.
Definition klog_write_n (d : D) (data : list Z) (len : Z) : option D := serial_write_n d data len.
Definition klog_write_hex (d : D) (value : Z) : option D := serial_write_hex d value.

(** * [kernel/drivers/pic.c] *)

Definition PIC1_COMMAND : Z := 0x20.
Definition PIC1_DATA : Z := 0x21.
Definition PIC2_COMMAND : Z := 0xA0.
Definition PIC2_DATA : Z := 0xA1.
Definition PIC_EOI : Z := 0x20.

Definition pic_remap (d : D) (offset1 offset2 : Z) : D :=
  let d := io_wait (outb d PIC1_COMMAND (Z.lor 0x10 0x01)) in
  let d := io_wait (outb d PIC2_COMMAND (Z.lor 0x10 0x01)) in
  let d := io_wait (outb d PIC1_DATA (u8 offset1)) in
  let d := io_wait (outb d PIC2_DATA (u8 offset2)) in
  let d := io_wait (outb d PIC1_DATA 4) in
  let d := io_wait (outb d PIC2_DATA 2) in
  let d := io_wait (outb d PIC1_DATA 0x01) in
  let d := io_wait (outb d PIC2_DATA 0x01) in
  outbs d [(PIC1_DATA, 0xFF); (PIC2_DATA, 0xFF)].

Definition pic_send_eoi (d : D) (irq : Z) : D :=
  let d := if irq >=? 8 then outb d PIC2_COMMAND PIC_EOI else d in
  outb d PIC1_COMMAND PIC_EOI.

(** The mask register of a line, and its bit there. *)
Definition pic_line (irq : Z) : Z * Z :=
  if irq <? 8 then (PIC1_DATA, irq) else (PIC2_DATA, u8 (irq - 8)).

Definition pic_unmask_irq (d : D) (irq : Z) : D :=
  let (port, irq) := pic_line irq in
  let (v, d) := inb d port in
  outb d port (u8 (Z.land v (Z.lnot (Z.shiftl 1 irq)))).

Definition pic_mask_irq (d : D) (irq : Z) : D :=
  let (port, irq) := pic_line irq in
  let (v, d) := inb d port in
  outb d port (u8 (Z.lor v (Z.shiftl 1 irq))).

(** * [kernel/drivers/pit.c] *)

Definition PIT_CHANNEL0 : Z := 0x40.
Definition PIT_COMMAND : Z := 0x43.
Definition PIT_BASE_FREQUENCY : Z := 1193182.

(** A frequency of 0 is a fault of the division. *)
Definition pit_init (d : D) (frequency_hz : Z) : option D :=
  if frequency_hz =? 0 then None
  else
    let divisor := PIT_BASE_FREQUENCY / frequency_hz in
    Some (outbs d [(PIT_COMMAND, 0x36); (PIT_CHANNEL0, u8 (Z.land divisor 0xFF));
                   (PIT_CHANNEL0, u8 (Z.land (Z.shiftr divisor 8) 0xFF))]).

(** * [kernel/core/power.c]

    The ports written before the processor halts for good. *)
Definition poweroff (d : D) (msg : list Z) : option D :=
  d ← klog_write d msg;
  Some (outw (outw (outw d 0x604 0x2000) 0xB004 0x2000) 0x4004 0x3400).
End ports.

(** * What the log says *)

(** A line that sends what is written to it, ready again within [ua_limit] readings. *)
Class Uart (D : Type) {P : PortIO D} := {
  ua_ok : D -> Prop;
  ua_busy : D -> Z;
  ua_sent : D -> list Z;
  ua_limit : positive;
  ua_patience : forall d, ua_ok d -> 0 <= ua_busy d < Zpos ua_limit;
  ua_status : forall d, ua_ok d -> exists v d', inb d (COM1 + 5) = (v, d') /\ ua_ok d' /\
    ua_sent d' = ua_sent d /\ ua_busy d' = Z.max 0 (ua_busy d - 1) /\ Z.testbit v 5 = (ua_busy d =? 0);
  ua_send : forall d c, ua_ok d -> ua_busy d = 0 -> 0 <= c < 256 ->
    ua_ok (outb d COM1 c) /\ ua_sent (outb d COM1 c) = ua_sent d ++ [c];
}.

(** Line feeds as terminals want them. *)
Definition crlf (s : list Z) : list Z := s ≫= fun c => if c =? 10 then [13; 10] else [c].

(** The digits of a number in base 16, the last four bits last. *)
Definition hex (value : Z) : list Z :=
  (fun k => hex_digits.[value / 16 ^ (15 - Z.of_nat k) mod 16]) <$> seq 0 16.

(** The number a list of such digits spells. *)
Definition hex_value (ds : list Z) : Z :=
  foldl (fun v c => v * 16 + (if c <? 58 then c - 48 else c - 55)) 0 ds.

Section uart.
Context {D : Type} `{Uart D}.
Implicit Types (d : D) (s : list Z) (c : Z).

(** [d'] is [d] after sending [s]. *)
Definition sends d s (r : option D) : Prop := exists d', r = Some d' /\ ua_ok d' /\ ua_sent d' = ua_sent d ++ s.

Lemma sends_nil d : ua_ok d -> sends d [] (Some d).
Proof. exists d. by rewrite app_nil_r. Qed.

Lemma sends_bind d s t r (f : D -> option D) :
  sends d s r -> (forall d', ua_ok d' -> sends d' t (f d')) -> sends d (s ++ t) (d' ← r; f d').
Proof.
  intros (d1 & -> & Hok & Hs) Hf. destruct (Hf d1 Hok) as (d2 & E & Hok2 & Hs2). exists d2. split; [exact E|].
  split; [done|]. by rewrite Hs2, Hs, app_assoc.
Qed.

Lemma serial_putchar_sends d c : ua_ok d -> 0 <= c < 256 -> sends d [c] (serial_putchar ua_limit d c).
Proof.
  intros Hok Hc. unfold serial_putchar. pose proof (ua_patience d Hok) as Hp.
  while_pos_inv (ua_busy d)
    (fun n d' => n = ua_busy d' /\ ua_ok d' /\ ua_sent d' = ua_sent d)
    (fun d' => ua_ok d' /\ ua_busy d' = 0 /\ ua_sent d' = ua_sent d).
  - done.
  - done.
  - intros n d' Hn (-> & Hok' & Hs). unfold serial_tx_ready.
    destruct (ua_status d' Hok') as (v & d2 & -> & Hok2 & Hs2 & Hb2 & Hv).
    change 0x20 with (2 ^ 5). rewrite land_pow2_eqb, Hv by lia. destruct (ua_busy d' =? 0) eqn:E; bool_prop; cbn [negb].
    + split_and!; [done|lia|congruence].
    + exists (ua_busy d2). split; [lia|]. split_and!; [done|done|congruence].
  - destruct Hloop as (d' & -> & Hok' & Hb & Hs). cbn [mbind option_bind]. rewrite u8_small by lia.
    destruct (ua_send d' c Hok' Hb Hc) as [Hok2 Hs2]. eexists. split; [reflexivity|]. split; [done|]. by rewrite Hs2, Hs.
Qed.

Lemma serial_char_sends d c : ua_ok d -> 0 <= c < 256 -> sends d (crlf [c]) (serial_char ua_limit d c).
Proof.
  intros Hok Hc. unfold serial_char, crlf. cbn [mbind list_bind]. rewrite app_nil_r. destruct (c =? 10) eqn:E; bool_prop.
  - subst. apply (sends_bind d [13] [10]); [by apply serial_putchar_sends|]. intros d' Hd. by apply serial_putchar_sends.
  - apply (sends_bind d [] [c]); [by apply sends_nil|]. intros d' Hd. by apply serial_putchar_sends.
Qed.

Lemma crlf_cons c s : crlf (c :: s) = crlf [c] ++ crlf s.
Proof. unfold crlf. cbn. by rewrite app_nil_r. Qed.

Lemma serial_write_sends d s :
  ua_ok d -> Forall (fun c => 0 <= c < 256) s -> sends d (crlf (cstr s)) (serial_write ua_limit d s).
Proof.
  intros Hok Hs. revert d Hok. induction Hs as [|c s Hc _ IH]; intros d Hok; [by apply sends_nil|]. simpl.
  destruct (c =? 0); [by apply sends_nil|]. rewrite crlf_cons.
  apply sends_bind; [by apply serial_char_sends|]. exact IH.
Qed.

Lemma serial_write_n_sends d data len :
  ua_ok d -> 0 <= len <= zlen data -> Forall (fun c => 0 <= c < 256) data ->
  sends d (crlf (take (Z.to_nat len) data)) (serial_write_n ua_limit d data len).
Proof.
  intros Hok Hl Hd. unfold serial_write_n.
  apply (for_each_inv 0 len _ (Some d) (fun i r => sends d (crlf (take (Z.to_nat i) data)) r)); [lia|by apply sends_nil|].
  intros i r Hi Hr. replace (Z.to_nat (i + 1)) with (S (Z.to_nat i)) by lia.
  pose proof (aget_lookup data i ltac:(lia)) as Hg. rewrite (take_S_r _ _ _ Hg).
  replace (crlf (take (Z.to_nat i) data ++ [data.[i]])) with (crlf (take (Z.to_nat i) data) ++ crlf [data.[i]])
    by (unfold crlf; by rewrite bind_app).
  apply sends_bind; [done|]. intros d' Hok'. apply serial_char_sends; [done|].
  rewrite Forall_elem in Hd. by eapply Hd, list_elem_of_lookup_2.
Qed.

Lemma hex_digit_bounds k : 0 <= k < 16 -> 48 <= hex_digits.[k] <= 70.
Proof.
  intros Hk. assert (Hf : Forall (fun k => 48 <= hex_digits.[k] <= 70) (seqZ 0 16)) by (apply (bool_decide_unpack _); vm_compute; exact I).
  rewrite Forall_elem in Hf. apply Hf, elem_of_seqZ. lia.
Qed.

Lemma serial_write_hex_sends d v :
  ua_ok d -> 0 <= v -> sends d ([48; 120] ++ hex v) (serial_write_hex ua_limit d v).
Proof.
  intros Hok Hv. unfold serial_write_hex. apply sends_bind.
  { apply (serial_write_sends d [48; 120]); [done|]. repeat constructor; lia. }
  clear d Hok. intros d Hok.
  set (digit := fun k => hex_digits.[v / 16 ^ (15 - Z.of_nat k) mod 16]).
  assert (Hinv : sends d (digit <$> seq 0 (Z.to_nat 16)) (for_each 0 16 (fun k (r : option D) => d ← r;
    serial_putchar ua_limit d hex_digits.[Z.land (Z.shiftr v (60 - 4 * k)) 0xF]) (Some d))).
  { apply (for_each_inv 0 16 _ (Some d) (fun i r => sends d (digit <$> seq 0 (Z.to_nat i)) r)); [lia|by apply sends_nil|].
    intros i r Hi Hr. replace (Z.to_nat (i + 1)) with (S (Z.to_nat i)) by lia. rewrite seq_S, fmap_app.
    apply sends_bind; [done|]. intros d' Hok'.
    assert (Hd : hex_digits.[Z.land (Z.shiftr v (60 - 4 * i)) 0xF] = digit (Z.to_nat i)).
    { unfold digit. change 0xF with (Z.ones 4). rewrite Z.land_ones, Z.shiftr_div_pow2 by lia.
      replace (60 - 4 * i) with (4 * (15 - i)) by lia. rewrite Z.pow_mul_r by lia. change (2 ^ 4) with 16.
      by rewrite Z2Nat.id by lia. }
    rewrite Hd. cbn [fmap list_fmap]. apply serial_putchar_sends; [done|].
    pose proof (hex_digit_bounds (v / 16 ^ (15 - Z.of_nat (0 + Z.to_nat i)) mod 16) ltac:(apply Z.mod_pos_bound; lia)).
    unfold digit. simpl Nat.add in *. lia. }
  exact Hinv.
Qed.

(** The digits spell the number. *)
Lemma hex_digit_value k : 0 <= k < 16 -> (if hex_digits.[k] <? 58 then hex_digits.[k] - 48 else hex_digits.[k] - 55) = k.
Proof.
  intros Hk.
  assert (Hf : Forall (fun k => (if hex_digits.[k] <? 58 then hex_digits.[k] - 48 else hex_digits.[k] - 55) = k) (seqZ 0 16))
    by (apply (bool_decide_unpack _); vm_compute; exact I).
  rewrite Forall_elem in Hf. apply Hf, elem_of_seqZ. lia.
Qed.

Lemma hex_value_spec v : 0 <= v < 18446744073709551616 -> hex_value (hex v) = v.
Proof.
  intros Hv. unfold hex_value, hex.
  assert (Hg : forall n, (n <= 16)%nat ->
    foldl (fun v c => v * 16 + (if c <? 58 then c - 48 else c - 55)) 0
      ((fun k => hex_digits.[v / 16 ^ (15 - Z.of_nat k) mod 16]) <$> seq 0 n) = v / 16 ^ (16 - Z.of_nat n)).
  { induction n as [|n IH]; intros Hn.
    - change (16 ^ (16 - Z.of_nat 0)) with 18446744073709551616. simpl. symmetry. by apply Z.div_small.
    - rewrite seq_S, fmap_app, foldl_app, IH by lia. cbn [fmap list_fmap foldl]. rewrite Nat.add_0_l.
      rewrite hex_digit_value by (apply Z.mod_pos_bound; lia).
      replace (16 - Z.of_nat n) with (Z.succ (15 - Z.of_nat n)) by lia. rewrite Z.pow_succ_r by lia.
      replace (16 - Z.of_nat (S n)) with (15 - Z.of_nat n) by lia.
      rewrite (Z.mul_comm 16), <- Z.div_div by (try apply Z.pow_pos_nonneg; lia).
      set (q := v / 16 ^ (15 - Z.of_nat n)). div_lia. }
  rewrite (Hg 16%nat) by lia. change (16 ^ (16 - Z.of_nat 16)) with 1. apply Z.div_1_r.
Qed.
End uart.

(** * Properties *)

(** On every serial line that is ready again after boundedly many readings of its
    status, the log sends exactly the string up to its NUL with a carriage return before
    each line feed, and a number as [0x] and the sixteen digits that spell it. *)
Theorem serial_log_correct {D} `{Uart D} (d : D) s v
    (Hok : ua_ok d) (Hs : Forall (fun c => 0 <= c < 256) s) (Hv : 0 <= v < 18446744073709551616) :
  sends d (crlf (cstr s)) (klog_write ua_limit d s) /\
  exists ds, sends d ([48; 120] ++ ds) (klog_write_hex ua_limit d v) /\ zlen ds = 16 /\ hex_value ds = v.
Proof.
  split; [by apply serial_write_sends|]. exists (hex v). split; [apply serial_write_hex_sends; [done|lia]|].
  split; [done|by apply hex_value_spec].
Qed.

(** A line busy for [2] readings after each character. *)
Definition simuart : Type := Z * list Z.

#[export] Instance simuart_ports : PortIO simuart := {
  inb d port := ((if d.1 =? 0 then 0x20 else 0), (Z.max 0 (d.1 - 1), d.2));
  outb d port v := if port =? COM1 then (2, d.2 ++ [v]) else d;
  inw d port := (0, d);
  outw d port v := d;
}.

#[export] Program Instance simuart_uart : Uart simuart := {
  ua_ok d := 0 <= d.1 < 3;
  ua_busy d := d.1;
  ua_sent d := d.2;
  ua_limit := 3;
}.
Next Obligation. intros d H. exact H. Qed.
Next Obligation.
  intros [b l] Hd. simpl in *. do 2 eexists. split; [reflexivity|]. simpl.
  split_and!; [lia|lia|done|done|]. by destruct (b =? 0).
Qed.
Next Obligation. intros [b l] c Hd Hb Hc. simpl in *. split; [lia|done]. Qed.

Lemma serial_log_correct_witness :
  klog_write 3 ((2, []) : simuart) [111; 107; 10] = Some (2, [111; 107; 13; 10]).
Proof.
  destruct (serial_log_correct ((2, []) : simuart) [111; 107; 10] 0) as [(d & H1 & _ & H2) _].
  - cbn. lia.
  - repeat constructor; discriminate.
  - lia.
  - refine (eq_trans H1 _). revert H1. vm_compute. intros H1. congruence.
Defined.
