(* ===== verification/Ata.v ===== *)
(** The disk driver, [kernel/drivers/ata.c]: polled transfers of sectors through
    the ports of an ATA controller, and its proof as the block device of [Blk]. *)
From S2P Require Import Prelude CString Blk Ports.

Definition ATA_DATA : Z := 0x1F0.
Definition ATA_SECCOUNT : Z := 0x1F2.
Definition ATA_LBA_LO : Z := 0x1F3.
Definition ATA_LBA_MID : Z := 0x1F4.
Definition ATA_LBA_HI : Z := 0x1F5.
Definition ATA_DRIVE_HEAD : Z := 0x1F6.
Definition ATA_STATUS : Z := 0x1F7.
Definition ATA_COMMAND : Z := 0x1F7.

Definition ATA_SR_BSY : Z := 0x80.
Definition ATA_SR_DRQ : Z := 0x08.
Definition ATA_SR_ERR : Z := 0x01.

Definition ATA_CMD_READ_SECTORS : Z := 0x20.
Definition ATA_CMD_WRITE_SECTORS : Z := 0x30.
Definition ATA_CMD_CACHE_FLUSH : Z := 0xE7.

Definition ATA_POLLS : Z := 1000000.

Section driver.
Context {D : Type} `{PortIO D}.

(** [for (int i = 0; i < 1000000; i++)] around one reading of the status, and
    [return -1] after it. *)
Definition poll (test : Z -> option Z) (d : D) : Z * D :=
  match for_range 0 ATA_POLLS (fun _ d =>
          let (status, d) := inb d ATA_STATUS in
          match test status with Some r => inr (r, d) | None => inl d end) d with
  | inl d => (-1, d)
  | inr r => r
  end.

Definition ready (status : Z) : option Z :=
  if negb (Z.land status ATA_SR_ERR =? 0) then Some (-1)
  else if (Z.land status ATA_SR_BSY =? 0) && negb (Z.land status ATA_SR_DRQ =? 0) then Some 0
  else None.

Definition not_busy (status : Z) : option Z :=
  if Z.land status ATA_SR_BSY =? 0 then Some 0 else None.

Definition ata_wait_ready (d : D) : Z * D := poll ready d.
Definition ata_wait_not_busy (d : D) : Z * D := poll not_busy d.

(** The registers of a command, and the command. *)
Definition ata_command (d : D) (lba count cmd : Z) : D :=
  let d := outb d ATA_DRIVE_HEAD (u8 (Z.lor 0xE0 (Z.land (Z.shiftr lba 24) 0x0F))) in
  let d := outb d ATA_SECCOUNT (u8 (if count =? 256 then 0 else count)) in
  let d := outb d ATA_LBA_LO (u8 (Z.land lba 0xFF)) in
  let d := outb d ATA_LBA_MID (u8 (Z.land (Z.shiftr lba 8) 0xFF)) in
  let d := outb d ATA_LBA_HI (u8 (Z.land (Z.shiftr lba 16) 0xFF)) in
  outb d ATA_COMMAND cmd.

(** [dst[k] = w] for 16-bit elements. *)
Definition put_word (buf : list Z) (k w : Z) : list Z :=
  buf.[2 * k <- u8 w].[2 * k + 1 <- u8 (Z.shiftr w 8)].

Definition get_word (buf : list Z) (k : Z) : Z := Z.lor buf.[2 * k] (Z.shiftl buf.[2 * k + 1] 8).

(** One sector into the buffer, and one out of it. *)
Definition sector_in (s : Z) (buf : list Z) (d : D) : list Z * D :=
  for_each 0 256 (fun i '(buf, d) =>
    let (w, d) := inw d ATA_DATA in (put_word buf (s * 256 + i) w, d)) (buf, d).

Definition sector_out (s : Z) (buf : list Z) (d : D) : D :=
  for_each 0 256 (fun i d => outw d ATA_DATA (get_word buf (s * 256 + i))) d.

Definition ata_read (d : D) (lba count : Z) (buf : list Z) : Z * list Z * D :=
  if (count =? 0) || (count >? 256) then (-1, buf, d)
  else
    let (r, d) := ata_wait_not_busy d in
    if negb (r =? 0) then (-1, buf, d)
    else
      match for_range 0 count (fun s '(buf, d) =>
              let (r, d) := ata_wait_ready d in
              if negb (r =? 0) then inr (-1, buf, d) else inl (sector_in s buf d))
            (buf, ata_command d lba count ATA_CMD_READ_SECTORS) with
      | inl (buf, d) => (0, buf, d)
      | inr r => r
      end.

Definition ata_write (d : D) (lba count : Z) (buf : list Z) : Z * D :=
  if (count =? 0) || (count >? 256) then (-1, d)
  else
    let (r, d) := ata_wait_not_busy d in
    if negb (r =? 0) then (-1, d)
    else
      match for_range 0 count (fun s d =>
              let (r, d) := ata_wait_ready d in
              if negb (r =? 0) then inr (-1, d) else inl (sector_out s buf d))
            (ata_command d lba count ATA_CMD_WRITE_SECTORS) with
      | inr r => r
      | inl d =>
          let (r, d) := ata_wait_not_busy d in
          if negb (r =? 0) then (-1, d)
          else
            let (r, d) := ata_wait_not_busy (outb d ATA_COMMAND ATA_CMD_CACHE_FLUSH) in
            if negb (r =? 0) then (-1, d) else (0, d)
      end.

(** The driver is the sector interface of the file systems. *)
#[export] Instance ata_dev : BlockDev D := {
  ata_read_sectors := ata_read;
  ata_write_sectors := ata_write;
}.
End driver.

(** * The controller

    What the driver relies on: the documented behaviour of polled transfers.  The
    view of a controller is its task file, the phase of a transfer, the number of
    status readings it stays busy for, and the bytes on the platter. *)

Record task_file := mk_task { t_head : Z; t_count : Z; t_lo : Z; t_mid : Z; t_hi : Z }.

(** [DataIn lba left w]: [left] sectors from [lba] on are to be read, and [w] words
    of the first have been.  [DataOut lba left ws]: the same for writing, with the
    words taken. *)
Inductive phase :=
  | Idle
  | DataIn (lba left w : Z)
  | DataOut (lba left : Z) (ws : list Z).

Definition task_lba (t : task_file) : Z :=
  t_lo t + t_mid t * 256 + t_hi t * 65536 + (t_head t mod 16) * 16777216.

Definition task_count (t : task_file) : Z := if t_count t =? 0 then 256 else t_count t.

(** The write of a register. *)
Definition task_set (t : task_file) (port v : Z) : task_file :=
  if port =? ATA_DRIVE_HEAD then mk_task v (t_count t) (t_lo t) (t_mid t) (t_hi t)
  else if port =? ATA_SECCOUNT then mk_task (t_head t) v (t_lo t) (t_mid t) (t_hi t)
  else if port =? ATA_LBA_LO then mk_task (t_head t) (t_count t) v (t_mid t) (t_hi t)
  else if port =? ATA_LBA_MID then mk_task (t_head t) (t_count t) (t_lo t) v (t_hi t)
  else if port =? ATA_LBA_HI then mk_task (t_head t) (t_count t) (t_lo t) (t_mid t) v
  else t.

Definition is_task_port (port : Z) : Prop := ATA_SECCOUNT <= port <= ATA_DRIVE_HEAD.

(** The phase after a word, and the bytes after a sector written. *)
Definition after_word_in (lba left w : Z) : phase :=
  if w + 1 <? 256 then DataIn lba left (w + 1)
  else if left - 1 =? 0 then Idle else DataIn (lba + 1) (left - 1) 0.

Definition after_word_out (lba left : Z) (ws : list Z) : phase :=
  if zlen ws <? 256 then DataOut lba left ws
  else if left - 1 =? 0 then Idle else DataOut (lba + 1) (left - 1) [].

Definition word_byte (ws : list Z) (i : Z) : Z :=
  if i mod 2 =? 0 then u8 ws.[i / 2] else u8 (Z.shiftr ws.[i / 2] 8).

Class AtaController (D : Type) {P : PortIO D} := {
  ac_ok : D -> Prop;
  ac_busy : D -> Z;
  ac_task : D -> task_file;
  ac_phase : D -> phase;
  ac_sectors : D -> Z;
  ac_byte : D -> Z -> Z;
  (** A healthy controller answers within [ATA_POLLS] readings. *)
  ac_patience : forall d, ac_ok d -> 0 <= ac_busy d < ATA_POLLS;
  ac_byte_ok : forall d a, ac_ok d -> 0 <= ac_byte d a < 256;
  (** The status: busy, or ready with a data request exactly in a transfer. *)
  ac_status : forall d, ac_ok d -> exists st d', inb d ATA_STATUS = (st, d') /\ ac_ok d' /\
    ac_task d' = ac_task d /\ ac_phase d' = ac_phase d /\ ac_sectors d' = ac_sectors d /\
    (forall a, ac_byte d' a = ac_byte d a) /\
    ac_busy d' = Z.max 0 (ac_busy d - 1) /\
    Z.testbit st 0 = false /\ Z.testbit st 7 = (0 <? ac_busy d) /\
    (ac_busy d = 0 -> Z.testbit st 3 = match ac_phase d with Idle => false | _ => true end);
  ac_register : forall d port v, ac_ok d -> ac_busy d = 0 -> ac_phase d = Idle ->
    is_task_port port -> 0 <= v < 256 ->
    let d' := outb d port v in
    ac_ok d' /\ ac_busy d' = 0 /\ ac_phase d' = Idle /\ ac_sectors d' = ac_sectors d /\
    (forall a, ac_byte d' a = ac_byte d a) /\ ac_task d' = task_set (ac_task d) port v;
  (** A transfer command on the first drive in LBA mode, within the disk. *)
  ac_transfer : forall d cmd, ac_ok d -> ac_busy d = 0 -> ac_phase d = Idle ->
    (cmd = ATA_CMD_READ_SECTORS \/ cmd = ATA_CMD_WRITE_SECTORS) ->
    t_head (ac_task d) / 16 = 14 ->
    task_lba (ac_task d) + task_count (ac_task d) <= ac_sectors d ->
    let d' := outb d ATA_COMMAND cmd in
    ac_ok d' /\ ac_sectors d' = ac_sectors d /\ (forall a, ac_byte d' a = ac_byte d a) /\
    ac_phase d' =
      if cmd =? ATA_CMD_READ_SECTORS then DataIn (task_lba (ac_task d)) (task_count (ac_task d)) 0
      else DataOut (task_lba (ac_task d)) (task_count (ac_task d)) [];
  ac_flush : forall d, ac_ok d -> ac_busy d = 0 -> ac_phase d = Idle ->
    let d' := outb d ATA_COMMAND ATA_CMD_CACHE_FLUSH in
    ac_ok d' /\ ac_phase d' = Idle /\ ac_sectors d' = ac_sectors d /\
    (forall a, ac_byte d' a = ac_byte d a);
  (** The data register; the controller may be busy again between two sectors. *)
  ac_data_in : forall d lba left w, ac_ok d -> ac_busy d = 0 -> ac_phase d = DataIn lba left w ->
    exists v d', inw d ATA_DATA = (v, d') /\ ac_ok d' /\ ac_sectors d' = ac_sectors d /\
    (forall a, ac_byte d' a = ac_byte d a) /\
    v = ac_byte d (lba * 512 + 2 * w) + 256 * ac_byte d (lba * 512 + 2 * w + 1) /\
    ac_phase d' = after_word_in lba left w /\ (w + 1 < 256 -> ac_busy d' = 0);
  ac_data_out : forall d v lba left ws, ac_ok d -> ac_busy d = 0 -> ac_phase d = DataOut lba left ws ->
    0 <= v < 65536 -> zlen ws < 256 ->
    let d' := outw d ATA_DATA v in
    ac_ok d' /\ ac_sectors d' = ac_sectors d /\
    ac_phase d' = after_word_out lba left (ws ++ [v]) /\ (zlen ws + 1 < 256 -> ac_busy d' = 0) /\
    forall a, ac_byte d' a =
      if decide (zlen ws + 1 = 256 /\ lba * 512 <= a < (lba + 1) * 512)
      then word_byte (ws ++ [v]) (a - lba * 512) else ac_byte d a;
}.

(** * The driver on a healthy controller *)

Section correct.
Context {D : Type} `{AtaController D}.
Implicit Types (d : D) (lba count : Z) (buf : list Z).

(** Everything but how long the controller stays busy. *)
Record same_disk d d' : Prop := {
  sd_ok : ac_ok d';
  sd_sectors : ac_sectors d' = ac_sectors d;
  sd_byte : forall a, ac_byte d' a = ac_byte d a;
}.

Lemma same_disk_trans d1 d2 d3 : same_disk d1 d2 -> same_disk d2 d3 -> same_disk d1 d3.
Proof. intros [] []. split; [done|congruence|]. intros a. congruence. Qed.

Lemma same_disk_refl d : ac_ok d -> same_disk d d.
Proof. by split. Qed.

(** Polling with a test that waits while the controller is busy and then succeeds. *)
Lemma poll_settles test d :
  ac_ok d ->
  (forall st, Z.testbit st 0 = false -> Z.testbit st 7 = true -> test st = None) ->
  (forall st, Z.testbit st 0 = false -> Z.testbit st 7 = false ->
    Z.testbit st 3 = match ac_phase d with Idle => false | _ => true end -> test st = Some 0) ->
  exists d', poll test d = (0, d') /\ same_disk d d' /\ ac_busy d' = 0 /\
    ac_phase d' = ac_phase d /\ ac_task d' = ac_task d.
Proof.
  intros Hok Hwait Hdone. pose proof (ac_patience d Hok) as Hp. unfold poll.
  apply (for_range_cases 0 ATA_POLLS _ d (fun i d' => i + ac_busy d' = ac_busy d /\ same_disk d d' /\
      ac_phase d' = ac_phase d /\ ac_task d' = ac_task d)
    (fun r => exists d', match r with inl d => (-1, d) | inr r => r end = (0, d') /\ same_disk d d' /\ ac_busy d' = 0 /\
      ac_phase d' = ac_phase d /\ ac_task d' = ac_task d)).
  - done.
  - by split_and!.
  - intros i d' Hi (Hib & Hs & Hph & Ht).
    destruct (ac_status d' (sd_ok _ _ Hs)) as (st & d2 & -> & Hok2 & Ht2 & Hp2 & Hsec2 & Hb2 & Hbusy2 & Hb0 & Hb7 & Hb3).
    assert (Hs2 : same_disk d d2) by (apply (same_disk_trans d d'); [done|by split]).
    pose proof (ac_patience d' (sd_ok _ _ Hs)) as Hpd.
    destruct (decide (ac_busy d' = 0)) as [Hz|Hnz].
    + replace (0 <? ac_busy d') with false in Hb7 by lia.
      rewrite (Hdone st Hb0 Hb7) by (rewrite (Hb3 Hz), Hph; done). exists d2. split_and!; try done; congruence || lia.
    + replace (0 <? ac_busy d') with true in Hb7 by lia. rewrite (Hwait st Hb0 Hb7).
      split_and!; try done; congruence || lia.
  - intros d' (Hib & Hs & _). pose proof (ac_patience d' (sd_ok _ _ Hs)). lia.
Qed.

Lemma status_bit st k : 0 <= k -> (Z.land st (2 ^ k) =? 0) = negb (Z.testbit st k).
Proof. apply land_pow2_eqb. Qed.

Lemma not_busy_settles d :
  ac_ok d -> exists d', ata_wait_not_busy d = (0, d') /\ same_disk d d' /\ ac_busy d' = 0 /\
    ac_phase d' = ac_phase d /\ ac_task d' = ac_task d.
Proof.
  intros Hok. apply poll_settles; [done|intros st _ H7|intros st _ H7 _].
  all: unfold not_busy; change ATA_SR_BSY with (2 ^ 7); by rewrite status_bit, H7 by lia.
Qed.

Lemma ready_settles d :
  ac_ok d -> ac_phase d <> Idle ->
  exists d', ata_wait_ready d = (0, d') /\ same_disk d d' /\ ac_busy d' = 0 /\
    ac_phase d' = ac_phase d /\ ac_task d' = ac_task d.
Proof.
  intros Hok Hph. apply poll_settles; [done|intros st H0 H7|intros st H0 H7 H3].
  all: unfold ready; change ATA_SR_ERR with (2 ^ 0); change ATA_SR_BSY with (2 ^ 7); change ATA_SR_DRQ with (2 ^ 3).
  all: rewrite !status_bit, H0, H7 by lia; cbn [negb andb]; try done.
  rewrite H3. by destruct (ac_phase d).
Qed.

(** The controller waits for a command. *)
Definition waits d : Prop := ac_ok d /\ ac_busy d = 0 /\ ac_phase d = Idle.

Lemma register_step d port v :
  waits d -> is_task_port port -> 0 <= v < 256 ->
  waits (outb d port v) /\ same_disk d (outb d port v) /\
  ac_task (outb d port v) = task_set (ac_task d) port v.
Proof.
  intros (Hok & Hb & Hph) Hp Hv. destruct (ac_register d port v Hok Hb Hph Hp Hv) as (H1 & H2 & H3 & H4 & H5 & H6).
  split_and!; [done..|]. done.
Qed.

Lemma head_bits h : 0 <= h < 16 -> Z.lor 0xE0 h = 224 + h.
Proof.
  intros Hh. assert (Hf : Forall (fun h => Z.lor 0xE0 h = 224 + h) (seqZ 0 16)) by (repeat constructor).
  rewrite Forall_elem in Hf. apply Hf, elem_of_seqZ. lia.
Qed.

Lemma land_bits x k : 0 <= k -> Z.land x (Z.ones k) = x mod 2 ^ k.
Proof. apply Z.land_ones. Qed.

(** The registers hold the address, 28 bits of it, and the count. *)
Lemma ata_command_spec d lba count cmd :
  waits d -> 0 <= lba -> 1 <= count <= 256 ->
  cmd = ATA_CMD_READ_SECTORS \/ cmd = ATA_CMD_WRITE_SECTORS ->
  lba mod 268435456 + count <= ac_sectors d ->
  let d' := ata_command d lba count cmd in
  same_disk d d' /\ ac_phase d' =
    if cmd =? ATA_CMD_READ_SECTORS then DataIn (lba mod 268435456) count 0 else DataOut (lba mod 268435456) count [].
Proof.
  intros Hw Hlba Hc Hcmd Hlim. unfold ata_command.
  change 0x0F with (Z.ones 4). change 0xFF with (Z.ones 8). rewrite !land_bits, !Z.shiftr_div_pow2 by lia.
  rewrite head_bits by (apply Z.mod_pos_bound; lia).
  change (2 ^ 4) with 16. change (2 ^ 8) with 256. change (2 ^ 16) with 65536. change (2 ^ 24) with 16777216.
  rewrite !u8_small by (try case_match; bool_prop; div_lia).
  set (c := if count =? 256 then 0 else count). assert (Hcv : 0 <= c < 256) by (unfold c; case_match; bool_prop; lia).
  assert (Hcc : (if c =? 0 then 256 else c) = count) by (unfold c; repeat case_match; bool_prop; lia).
  set (d1 := outb d ATA_DRIVE_HEAD _). set (d2 := outb d1 _ _). set (d3 := outb d2 _ _). set (d4 := outb d3 _ _). set (d5 := outb d4 _ _).
  assert (Hp : forall p, p = ATA_DRIVE_HEAD \/ p = ATA_SECCOUNT \/ p = ATA_LBA_LO \/ p = ATA_LBA_MID \/ p = ATA_LBA_HI -> is_task_port p).
  { unfold is_task_port, ATA_DRIVE_HEAD, ATA_SECCOUNT, ATA_LBA_LO, ATA_LBA_MID, ATA_LBA_HI. lia. }
  assert (Hw1 : waits d1 /\ same_disk d d1 /\ ac_task d1 = task_set (ac_task d) ATA_DRIVE_HEAD (224 + lba / 16777216 mod 16))
    by (apply register_step; [exact Hw|apply Hp; tauto|div_lia]). destruct Hw1 as (Hw1 & Hs1 & Ht1).
  assert (Hw2 : waits d2 /\ same_disk d1 d2 /\ ac_task d2 = task_set (ac_task d1) ATA_SECCOUNT c)
    by (apply register_step; [exact Hw1|apply Hp; tauto|exact Hcv]). destruct Hw2 as (Hw2 & Hs2 & Ht2).
  assert (Hw3 : waits d3 /\ same_disk d2 d3 /\ ac_task d3 = task_set (ac_task d2) ATA_LBA_LO (lba mod 256))
    by (apply register_step; [exact Hw2|apply Hp; tauto|div_lia]). destruct Hw3 as (Hw3 & Hs3 & Ht3).
  assert (Hw4 : waits d4 /\ same_disk d3 d4 /\ ac_task d4 = task_set (ac_task d3) ATA_LBA_MID (lba / 256 mod 256))
    by (apply register_step; [exact Hw3|apply Hp; tauto|div_lia]). destruct Hw4 as (Hw4 & Hs4 & Ht4).
  assert (Hw5 : waits d5 /\ same_disk d4 d5 /\ ac_task d5 = task_set (ac_task d4) ATA_LBA_HI (lba / 65536 mod 256))
    by (apply register_step; [exact Hw4|apply Hp; tauto|div_lia]). destruct Hw5 as (Hw5 & Hs5 & Ht5).
  clearbody d1 d2 d3 d4 d5.
  assert (Hs : same_disk d d5) by (eapply same_disk_trans; [exact Hs1|]; eapply same_disk_trans; [exact Hs2|];
    eapply same_disk_trans; [exact Hs3|]; eapply same_disk_trans; [exact Hs4|exact Hs5]).
  assert (Ht : ac_task d5 = mk_task (224 + lba / 16777216 mod 16) c (lba mod 256) (lba / 256 mod 256) (lba / 65536 mod 256)).
  { rewrite Ht5, Ht4, Ht3, Ht2, Ht1. reflexivity. }
  assert (Hl : task_lba (ac_task d5) = lba mod 268435456) by (rewrite Ht; unfold task_lba; cbn [t_lo t_mid t_hi t_head]; div_lia).
  assert (Hcnt : task_count (ac_task d5) = count) by (rewrite Ht; exact Hcc).
  destruct Hw5 as (Hok5 & Hb5 & Hph5).
  destruct (ac_transfer d5 cmd Hok5 Hb5 Hph5 Hcmd) as (H1 & H2 & H3 & H4).
  - rewrite Ht. cbn [t_head]. div_lia.
  - rewrite Hl, Hcnt, (sd_sectors _ _ Hs). lia.
  - split; [by apply (same_disk_trans d d5); [|split]|]. by rewrite H4, Hl, Hcnt.
Qed.

(** Storing a word stores its two bytes. *)
Lemma put_word_spec buf k b0 b1 :
  0 <= k -> 2 * k + 1 < zlen buf -> 0 <= b0 < 256 -> 0 <= b1 < 256 ->
  zlen (put_word buf k (b0 + 256 * b1)) = zlen buf /\
  forall j, 0 <= j -> (put_word buf k (b0 + 256 * b1)).[j] =
    if decide (j = 2 * k) then b0 else if decide (j = 2 * k + 1) then b1 else buf.[j].
Proof.
  intros Hk Hl H0 H1. unfold put_word. rewrite !Z.shiftr_div_pow2 by lia. change (2 ^ 8) with 256.
  replace (u8 (b0 + 256 * b1)) with b0 by (unfold u8; div_lia).
  replace (u8 ((b0 + 256 * b1) / 256)) with b1 by (unfold u8; div_lia).
  split; [by rewrite !aset_length|]. intros j Hj.
  rewrite aget_aset_cases by (rewrite ?aset_length; lia). rewrite aget_aset_cases by lia.
  repeat case_decide; subst; try done; lia.
Qed.

(** What is next after a sector. *)
Definition next_sector (lba left : Z) (going : Z -> Z -> phase) : phase :=
  if left - 1 =? 0 then Idle else going (lba + 1) (left - 1).

Lemma sector_in_spec d s buf lba left :
  ac_ok d -> ac_busy d = 0 -> ac_phase d = DataIn lba left 0 -> 0 <= s -> (s + 1) * 512 <= zlen buf ->
  exists buf' d', sector_in s buf d = (buf', d') /\ same_disk d d' /\
    ac_phase d' = next_sector lba left (fun l n => DataIn l n 0) /\ zlen buf' = zlen buf /\
    forall j, 0 <= j -> buf'.[j] =
      if decide (s * 512 <= j < (s + 1) * 512) then ac_byte d (lba * 512 + (j - s * 512)) else buf.[j].
Proof.
  intros Hok Hb Hph Hs Hl. unfold sector_in.
  set (body := fun i '(buf, d) => let (w, d) := inw d ATA_DATA in (put_word buf (s * 256 + i) w, d)).
  set (inv := fun i '((buf', d') : list Z * D) => same_disk d d' /\
      (i < 256 -> ac_busy d' = 0) /\
      ac_phase d' = (if i <? 256 then DataIn lba left i else next_sector lba left (fun l n => DataIn l n 0)) /\
      zlen buf' = zlen buf /\
      forall j, 0 <= j -> buf'.[j] =
        if decide (s * 512 <= j < s * 512 + 2 * i) then ac_byte d (lba * 512 + (j - s * 512)) else buf.[j]).
  assert (Hinv : inv 256 (for_each 0 256 body (buf, d))).
  { apply (for_each_inv 0 256 body (buf, d) inv).
    - lia.
    - split; [by apply same_disk_refl|]. split_and!; try done. intros j Hj. by rewrite decide_False by lia.
    - intros i [buf1 d1] Hi (Hsd & Hb1 & Hp1 & Hl1 & Hg1). replace (i <? 256) with true in Hp1 by lia.
      destruct (ac_data_in d1 lba left i (sd_ok _ _ Hsd) (Hb1 ltac:(lia)) Hp1)
        as (v & d2 & Hin & Hok2 & Hsec2 & Hby2 & Hv & Hp2 & Hb2).
      unfold body. rewrite Hin, Hv. assert (Hsd2 : same_disk d d2) by (apply (same_disk_trans d d1); [done|by split]).
      destruct (put_word_spec buf1 (s * 256 + i) (ac_byte d1 (lba * 512 + 2 * i)) (ac_byte d1 (lba * 512 + 2 * i + 1)))
        as [Hlp Hgp]; [lia|lia|apply ac_byte_ok, Hsd|apply ac_byte_ok, Hsd|].
      split_and!; [done|intros; apply Hb2; lia| |lia|].
      + rewrite Hp2. unfold after_word_in. destruct (i + 1 <? 256) eqn:E; [done|]. done.
      + intros j Hj. rewrite Hgp by done. rewrite !(sd_byte _ _ Hsd).
        destruct (decide (j = 2 * (s * 256 + i))) as [->|]; [rewrite decide_True by lia; f_equal; lia|].
        destruct (decide (j = 2 * (s * 256 + i) + 1)) as [->|]; [rewrite decide_True by lia; f_equal; lia|].
        rewrite Hg1 by done. repeat case_decide; try lia; done. }
  destruct (for_each 0 256 body (buf, d)) as [buf' d']. exists buf', d'.
  destruct Hinv as (H1 & _ & H2 & H3 & H4). split_and!; try done. intros j Hj. rewrite H4 by done.
  repeat case_decide; try lia; done.
Qed.

(** Reading: the sectors at the address cut to 28 bits. *)
Lemma ata_read_spec d lba count buf :
  ac_ok d -> ac_phase d = Idle -> 0 <= lba -> 1 <= count <= 256 ->
  lba mod 268435456 + count <= ac_sectors d -> count * 512 <= zlen buf ->
  exists buf' d', ata_read d lba count buf = (0, buf', d') /\ same_disk d d' /\ ac_phase d' = Idle /\
    zlen buf' = zlen buf /\
    forall j, 0 <= j -> buf'.[j] =
      if decide (j < count * 512) then ac_byte d (lba mod 268435456 * 512 + j) else buf.[j].
Proof.
  intros Hok Hph Hlba Hc Hlim Hl. unfold ata_read.
  replace (count =? 0) with false by lia. replace (count >? 256) with false by lia. cbn [orb].
  destruct (not_busy_settles d Hok) as (d0 & -> & Hs0 & Hb0 & Hp0 & _). cbn [Z.eqb negb].
  destruct (ata_command_spec d0 lba count ATA_CMD_READ_SECTORS) as [Hs1 Hp1].
  { split_and!; [apply Hs0|done|congruence]. }
  { done. } { done. } { by left. } { rewrite (sd_sectors _ _ Hs0). lia. }
  set (d1 := ata_command d0 lba count ATA_CMD_READ_SECTORS) in *. set (l := lba mod 268435456) in *. cbn in Hp1.
  assert (Hsd : same_disk d d1) by by apply (same_disk_trans d d0).
  apply (for_range_cases 0 count _ _ (fun s '(buf', d') => same_disk d d' /\
    ac_phase d' = (if s <? count then DataIn (l + s) (count - s) 0 else Idle) /\ zlen buf' = zlen buf /\
    forall j, 0 <= j -> buf'.[j] = if decide (j < s * 512) then ac_byte d (l * 512 + j) else buf.[j])).
  - lia.
  - replace (0 <? count) with true by lia. rewrite Z.add_0_r, Z.sub_0_r. split_and!; try done.
    intros j Hj. by rewrite decide_False by lia.
  - intros s [buf2 d2] Hs (Hsd2 & Hp2 & Hl2 & Hg2). replace (s <? count) with true in Hp2 by lia.
    destruct (ready_settles d2 (sd_ok _ _ Hsd2)) as (d3 & -> & Hsd3 & Hb3 & Hp3 & _); [by rewrite Hp2|]. cbn [Z.eqb negb].
    rewrite Hp2 in Hp3.
    destruct (sector_in_spec d3 s buf2 _ _ (sd_ok _ _ Hsd3) Hb3 Hp3) as (buf4 & d4 & -> & Hsd4 & Hp4 & Hl4 & Hg4); [lia|lia|].
    assert (Hsd23 : same_disk d d3) by by apply (same_disk_trans d d2).
    split_and!; [by apply (same_disk_trans d d3)| |lia|].
    + rewrite Hp4. unfold next_sector. destruct (s + 1 <? count) eqn:E; bool_prop.
      * replace (count - s - 1 =? 0) with false by lia. f_equal; lia.
      * by replace (count - s - 1 =? 0) with true by lia.
    + intros j Hj. rewrite Hg4, Hg2, (sd_byte _ _ Hsd23) by done.
      repeat case_decide; try lia; try done. f_equal. lia.
  - intros [buf2 d2] (Hsd2 & Hp2 & Hl2 & Hg2). rewrite Z.ltb_irrefl in Hp2. exists buf2, d2. done.
Qed.

Lemma get_word_eq buf k : bytes_ok buf -> 0 <= k -> get_word buf k = buf.[2 * k] + 256 * buf.[2 * k + 1].
Proof.
  intros Hb Hk. unfold get_word. pose proof (Hb (2 * k) ltac:(lia)). pose proof (Hb (2 * k + 1) ltac:(lia)).
  rewrite lor_shiftl_add by (change (2 ^ 8) with 256; lia). change (2 ^ 8) with 256. lia.
Qed.

Lemma word_byte_spec buf ws s i :
  bytes_ok buf -> 0 <= s -> 0 <= i < 512 ->
  (forall k, 0 <= k < 256 -> ws.[k] = get_word buf (s * 256 + k)) -> word_byte ws i = buf.[s * 512 + i].
Proof.
  intros Hb Hs Hi Hw. unfold word_byte. rewrite Hw, get_word_eq by (done || div_lia).
  set (k := i / 2). pose proof (Hb (2 * (s * 256 + k)) ltac:(unfold k; div_lia)) as H0.
  pose proof (Hb (2 * (s * 256 + k) + 1) ltac:(unfold k; div_lia)) as H1.
  rewrite Z.shiftr_div_pow2 by lia. change (2 ^ 8) with 256. case_match eqn:E; bool_prop.
  - replace (s * 512 + i) with (2 * (s * 256 + k)) by (unfold k; div_lia). unfold u8. div_lia.
  - replace (s * 512 + i) with (2 * (s * 256 + k) + 1) by (unfold k; div_lia). unfold u8. div_lia.
Qed.

Lemma sector_out_spec d s buf lba left :
  ac_ok d -> ac_busy d = 0 -> ac_phase d = DataOut lba left [] -> 0 <= s -> bytes_ok buf ->
  let d' := sector_out s buf d in
  ac_ok d' /\ ac_sectors d' = ac_sectors d /\ ac_phase d' = next_sector lba left (fun l n => DataOut l n []) /\
  forall a, ac_byte d' a =
    if decide (lba * 512 <= a < (lba + 1) * 512) then buf.[s * 512 + (a - lba * 512)] else ac_byte d a.
Proof.
  intros Hok Hb Hph Hs Hby. unfold sector_out.
  set (body := fun i d => outw d ATA_DATA (get_word buf (s * 256 + i))).
  set (inv := fun i d' => ac_ok d' /\ ac_sectors d' = ac_sectors d /\
    if i <? 256 then
      ac_busy d' = 0 /\ (forall a, ac_byte d' a = ac_byte d a) /\
      exists ws, ac_phase d' = DataOut lba left ws /\ zlen ws = i /\
        forall k, 0 <= k < i -> ws.[k] = get_word buf (s * 256 + k)
    else ac_phase d' = next_sector lba left (fun l n => DataOut l n []) /\
      forall a, ac_byte d' a =
        if decide (lba * 512 <= a < (lba + 1) * 512) then buf.[s * 512 + (a - lba * 512)] else ac_byte d a).
  assert (Hinv : inv 256 (for_each 0 256 body d)).
  { apply (for_each_inv 0 256 body d inv).
    - lia.
    - split; [done|]. split; [done|]. simpl. split; [done|]. split; [done|]. exists []. split; [done|]. split; [done|]. intros k Hk. lia.
    - intros i d1 Hi (Hok1 & Hsec1 & H1). replace (i <? 256) with true in H1 by lia.
      destruct H1 as (Hb1 & Hby1 & ws & Hp1 & Hlen & Hws).
      set (v := get_word buf (s * 256 + i)).
      assert (Hv : 0 <= v < 65536).
      { unfold v. rewrite get_word_eq by (done || lia). pose proof (Hby (2 * (s * 256 + i)) ltac:(lia)).
        pose proof (Hby (2 * (s * 256 + i) + 1) ltac:(lia)). lia. }
      destruct (ac_data_out d1 v lba left ws Hok1 Hb1 Hp1 Hv ltac:(lia)) as (H1 & H2 & H3 & H4 & H5).
      assert (Hws' : forall k, 0 <= k < i + 1 -> (ws ++ [v]).[k] = get_word buf (s * 256 + k)).
      { intros k Hk. unfold zlen in Hlen. destruct (decide (k = i)) as [->|].
        - replace (Z.to_nat i) with (List.length ws) by lia. by rewrite list_lookup_total_middle.
        - rewrite lookup_total_app_l by lia. apply Hws. lia. }
      assert (Hlen' : zlen (ws ++ [v]) = i + 1) by (unfold zlen in *; rewrite length_app; simpl; lia).
      change (body i d1) with (outw d1 ATA_DATA v). split; [done|]. split; [by rewrite H2|]. unfold after_word_out in H3. rewrite Hlen' in H3.
      destruct (i + 1 <? 256) eqn:E; bool_prop.
      + split; [apply H4; lia|]. split; [|by exists (ws ++ [v])].
        intros a. rewrite H5, decide_False by lia. apply Hby1.
      + split; [exact H3|]. intros a. rewrite H5, Hby1. destruct (decide (lba * 512 <= a < (lba + 1) * 512)).
        * rewrite decide_True by (split; [lia|done]). apply word_byte_spec; [done|done|lia|]. intros k Hk. apply Hws'. lia.
        * by rewrite decide_False by tauto. }
  destruct Hinv as (H1 & H2 & H3 & H4). done.
Qed.

(** Writing: the sectors at the address cut to 28 bits. *)
Lemma ata_write_spec d lba count buf :
  ac_ok d -> ac_phase d = Idle -> 0 <= lba -> 1 <= count <= 256 ->
  lba mod 268435456 + count <= ac_sectors d -> bytes_ok buf ->
  exists d', ata_write d lba count buf = (0, d') /\ ac_ok d' /\ ac_phase d' = Idle /\
    ac_sectors d' = ac_sectors d /\
    forall a, ac_byte d' a =
      if decide (lba mod 268435456 * 512 <= a < (lba mod 268435456 + count) * 512)
      then buf.[a - lba mod 268435456 * 512] else ac_byte d a.
Proof.
  intros Hok Hph Hlba Hc Hlim Hby. unfold ata_write.
  replace (count =? 0) with false by lia. replace (count >? 256) with false by lia. cbn [orb].
  destruct (not_busy_settles d Hok) as (d0 & -> & Hs0 & Hb0 & Hp0 & _). cbn [Z.eqb negb].
  destruct (ata_command_spec d0 lba count ATA_CMD_WRITE_SECTORS) as [Hs1 Hp1].
  { split_and!; [apply Hs0|done|congruence]. }
  { done. } { done. } { by right. } { rewrite (sd_sectors _ _ Hs0). lia. }
  set (d1 := ata_command d0 lba count ATA_CMD_WRITE_SECTORS) in *. set (l := lba mod 268435456) in *. cbn in Hp1.
  assert (Hsd : same_disk d d1) by by apply (same_disk_trans d d0).
  apply (for_range_cases 0 count _ _ (fun s d' => ac_ok d' /\ ac_sectors d' = ac_sectors d /\
    ac_phase d' = (if s <? count then DataOut (l + s) (count - s) [] else Idle) /\
    forall a, ac_byte d' a = if decide (l * 512 <= a < (l + s) * 512) then buf.[a - l * 512] else ac_byte d a)).
  - lia.
  - replace (0 <? count) with true by lia. rewrite Z.add_0_r, Z.sub_0_r. split; [apply Hsd|]. split; [apply Hsd|]. split; [done|].
    intros a. rewrite decide_False by lia. apply Hsd.
  - intros s d2 Hs (Hok2 & Hsec2 & Hp2 & Hg2). replace (s <? count) with true in Hp2 by lia.
    destruct (ready_settles d2 Hok2) as (d3 & -> & Hsd3 & Hb3 & Hp3 & _); [by rewrite Hp2|]. cbn [Z.eqb negb].
    rewrite Hp2 in Hp3.
    destruct (sector_out_spec d3 s buf _ _ (sd_ok _ _ Hsd3) Hb3 Hp3 ltac:(lia) Hby) as (Hok4 & Hsec4 & Hp4 & Hg4).
    split; [done|]. split; [rewrite Hsec4, (sd_sectors _ _ Hsd3); done|]. split.
    + rewrite Hp4. unfold next_sector. destruct (s + 1 <? count) eqn:E; bool_prop.
      * replace (count - s - 1 =? 0) with false by lia. f_equal; lia.
      * by replace (count - s - 1 =? 0) with true by lia.
    + intros a. rewrite Hg4, (sd_byte _ _ Hsd3), Hg2.
      repeat case_decide; try lia; try done. f_equal. lia.
  - intros d2 (Hok2 & Hsec2 & Hp2 & Hg2). rewrite Z.ltb_irrefl in Hp2.
    destruct (not_busy_settles d2 Hok2) as (d3 & -> & Hsd3 & Hb3 & Hp3 & _). cbn [Z.eqb negb].
    destruct (ac_flush d3 (sd_ok _ _ Hsd3) Hb3 ltac:(congruence)) as (Hok4 & Hp4 & Hsec4 & Hg4).
    destruct (not_busy_settles _ Hok4) as (d5 & -> & Hsd5 & _ & Hp5 & _). cbn [Z.eqb negb].
    exists d5. split; [done|]. split; [apply Hsd5|]. split; [congruence|].
    split; [by rewrite (sd_sectors _ _ Hsd5), Hsec4, (sd_sectors _ _ Hsd3)|].
    intros a. by rewrite (sd_byte _ _ Hsd5), Hg4, (sd_byte _ _ Hsd3), Hg2.
Qed.

(** Hence a healthy controller with the driver is a block device. *)
#[export] Program Instance ata_laws : BlockDevLaws D := {
  blk_ok d := ac_ok d /\ ac_phase d = Idle;
  blk_limit d := Z.min (ac_sectors d) 268435456;
  blk_byte := ac_byte;
}.
Next Obligation. intros d a [Hok _]. by apply ac_byte_ok. Qed.
Next Obligation.
  intros d lba count buf [Hok Hph] Hl Hc Hlim Hlen. change SECTOR_SIZE with 512 in *.
  destruct (ata_read_spec d lba count buf) as (buf' & d' & E & Hsd & Hp & Hlen' & Hg); try done.
  { rewrite Z.mod_small by lia. lia. }
  rewrite Z.mod_small in Hg by lia. exists buf', d'. split; [exact E|]. split; [by split; [apply Hsd|]|].
  split; [by rewrite (sd_sectors _ _ Hsd)|]. split; [apply Hsd|]. done.
Qed.
Next Obligation.
  intros d lba count buf [Hok Hph] Hl Hc Hlim Hlen Hby. change SECTOR_SIZE with 512 in *.
  destruct (ata_write_spec d lba count buf) as (d' & E & Hok' & Hp & Hsec & Hg); try done.
  { rewrite Z.mod_small by lia. lia. }
  rewrite Z.mod_small in Hg by lia. exists d'. split; [exact E|]. split; [done|]. split; [by rewrite Hsec|]. done.
Qed.
End correct.

(** * A drive that does nothing *)

Section dead.
Context {D : Type} `{PortIO D}.
Implicit Types (d : D).





End dead.

(** * A controller in memory, busy for [sm_delay] readings after every command *)

Record simdrive := mk_sim {
  sm_delay : Z;
  sm_busy : Z;
  sm_task : task_file;
  sm_phase : phase;
  sm_sectors : Z;
  sm_bytes : gmap Z Z;
}.

Definition sm_get (d : simdrive) (a : Z) : Z := u8 (default 0 (sm_bytes d !! a)).

Definition sm_with (d : simdrive) (busy : Z) (ph : phase) (bytes : gmap Z Z) : simdrive :=
  mk_sim (sm_delay d) busy (sm_task d) ph (sm_sectors d) bytes.

Definition sm_status (d : simdrive) : Z :=
  if 0 <? sm_busy d then ATA_SR_BSY
  else match sm_phase d with Idle => 0 | _ => ATA_SR_DRQ end.

Definition sm_store (d : simdrive) (lba : Z) (ws : list Z) : gmap Z Z :=
  for_each 0 512 (fun i m => <[lba * 512 + i := word_byte ws i]> m) (sm_bytes d).

#[export] Instance sim_ports : PortIO simdrive := {
  inb d port :=
    if port =? ATA_STATUS then (sm_status d, sm_with d (Z.max 0 (sm_busy d - 1)) (sm_phase d) (sm_bytes d)) else (0, d);
  outb d port v :=
    if port =? ATA_COMMAND then
      sm_with d (sm_delay d)
        (if v =? ATA_CMD_READ_SECTORS then DataIn (task_lba (sm_task d)) (task_count (sm_task d)) 0
         else if v =? ATA_CMD_WRITE_SECTORS then DataOut (task_lba (sm_task d)) (task_count (sm_task d)) []
         else Idle) (sm_bytes d)
    else mk_sim (sm_delay d) (sm_busy d) (task_set (sm_task d) port v) (sm_phase d) (sm_sectors d) (sm_bytes d);
  inw d port :=
    match sm_phase d with
    | DataIn lba n w =>
        (sm_get d (lba * 512 + 2 * w) + 256 * sm_get d (lba * 512 + 2 * w + 1),
         sm_with d (if w + 1 <? 256 then 0 else sm_delay d) (after_word_in lba n w) (sm_bytes d))
    | _ => (0, d)
    end;
  outw d port v :=
    match sm_phase d with
    | DataOut lba n ws =>
        let ws := ws ++ [v] in
        sm_with d (if zlen ws <? 256 then 0 else sm_delay d) (after_word_out lba n ws)
          (if zlen ws =? 256 then sm_store d lba ws else sm_bytes d)
    | _ => d
    end;
}.

Lemma sm_store_spec d lba ws a :
  sm_store d lba ws !! a =
    if decide (lba * 512 <= a < (lba + 1) * 512) then Some (word_byte ws (a - lba * 512)) else sm_bytes d !! a.
Proof.
  unfold sm_store. replace ((lba + 1) * 512) with (lba * 512 + 512) by lia.
  apply (for_each_inv 0 512 _ (sm_bytes d) (fun k m' => m' !! a =
    if decide (lba * 512 <= a < lba * 512 + k) then Some (word_byte ws (a - lba * 512)) else sm_bytes d !! a)); [lia| |].
  - by rewrite decide_False by lia.
  - intros k m' Hk IH. destruct (decide (lba * 512 + k = a)) as [<-|].
    + rewrite lookup_insert_eq, decide_True by lia. do 2 f_equal. lia.
    + rewrite lookup_insert_ne, IH by done. repeat case_decide; try lia; done.
Qed.

Lemma word_byte_bounds ws i : 0 <= word_byte ws i < 256.
Proof. unfold word_byte. destruct (_ =? _); apply u8_bounds. Qed.

#[export] Program Instance sim_controller : AtaController simdrive := {
  ac_ok d := 0 <= sm_busy d < ATA_POLLS /\ 0 <= sm_delay d < ATA_POLLS;
  ac_busy := sm_busy;
  ac_task := sm_task;
  ac_phase := sm_phase;
  ac_sectors := sm_sectors;
  ac_byte := sm_get;
}.
Next Obligation. intros d [H _]. exact H. Qed.
Next Obligation. intros d a _. apply u8_bounds. Qed.
Next Obligation.
  intros d [Hb Hd]. do 2 eexists. split; [reflexivity|]. unfold sm_with, sm_status. cbn [sm_busy sm_delay sm_task sm_phase sm_sectors].
  split_and!; try done; try lia.
  - destruct (0 <? sm_busy d); [done|]. by destruct (sm_phase d).
  - destruct (0 <? sm_busy d); [done|]. by destruct (sm_phase d).
  - intros ->. by destruct (sm_phase d).
Qed.
Next Obligation.
  intros d port v [Hb Hd] Hz Hp Hport Hv. unfold is_task_port, ATA_SECCOUNT, ATA_DRIVE_HEAD in Hport. simpl.
  replace (port =? ATA_COMMAND) with false by (unfold ATA_COMMAND; lia). done.
Qed.
Next Obligation. intros d cmd [Hb Hd] Hz Hp [-> | ->] Hh Hl; cbn; unfold sm_with; done. Qed.
Next Obligation. intros d [Hb Hd] Hz Hp. cbn. unfold sm_with. done. Qed.
Next Obligation.
  intros d lba n w [Hb Hd] Hz Hp. simpl. rewrite Hp. do 2 eexists. split; [reflexivity|]. unfold sm_with. simpl.
  split_and!; try done; destruct (w + 1 <? 256) eqn:E; bool_prop; try lia; done.
Qed.
Next Obligation.
  intros d v lba n ws [Hb Hd] Hz Hp Hv Hl. simpl. rewrite Hp. unfold sm_with. simpl.
  assert (Hlen : zlen (ws ++ [v]) = zlen ws + 1) by (unfold zlen; rewrite length_app; simpl; lia). rewrite Hlen.
  split_and!; try done; try (destruct (zlen ws + 1 <? 256) eqn:E; bool_prop; try lia; done).
  intros a. unfold sm_get. simpl. destruct (zlen ws + 1 =? 256) eqn:E; bool_prop.
  - rewrite sm_store_spec. case_decide; [rewrite decide_True by done|].
    + simpl. apply u8_small, word_byte_bounds.
    + by rewrite decide_False by tauto.
  - by rewrite decide_False by lia.
Qed.

(** * Properties *)

(** C27: On every controller that keeps to the documented protocol of polled transfers,
    reading [count] sectors returns exactly the bytes of those sectors and changes
    nothing on the disk, writing stores exactly the bytes given and no others, what was
    written is read back, and the controller is left ready for the next command.
    Addresses count in their low 28 bits. *)
Theorem ata_transfers_correct {D} `{AtaController D} (d : D) lba count buf
    (Hok : ac_ok d) (Hph : ac_phase d = Idle) (Hlba : 0 <= lba) (Hc : 1 <= count <= 256)
    (Hlim : lba mod 268435456 + count <= ac_sectors d) (Hlen : count * 512 = zlen buf) (Hby : bytes_ok buf) :
  let base := lba mod 268435456 * 512 in
  (exists buf' d', ata_read d lba count buf = (0, buf', d') /\ ac_ok d' /\ ac_phase d' = Idle /\
    (forall a, ac_byte d' a = ac_byte d a) /\ zlen buf' = zlen buf /\
    forall j, 0 <= j < count * 512 -> buf'.[j] = ac_byte d (base + j)) /\
  (exists d' d'', ata_write d lba count buf = (0, d') /\ ac_ok d' /\ ac_phase d' = Idle /\
    (forall a, ac_byte d' a = if decide (base <= a < base + count * 512) then buf.[a - base] else ac_byte d a) /\
    ata_read d' lba count (replicate (length buf) 0) = (0, buf, d'')).
Proof.
  intros base. split.
  - destruct (ata_read_spec d lba count buf Hok Hph Hlba Hc Hlim ltac:(lia)) as (buf' & d' & -> & Hsd & Hp & Hl & Hg).
    exists buf', d'. split; [done|]. split; [apply Hsd|]. split; [done|]. split; [apply Hsd|]. split; [done|].
    intros j Hj. by rewrite Hg, decide_True by lia.
  - destruct (ata_write_spec d lba count buf Hok Hph Hlba Hc Hlim Hby) as (d' & -> & Hok' & Hp' & Hsec & Hg).
    assert (Hz : zlen (replicate (length buf) 0) = zlen buf) by (unfold zlen; by rewrite length_replicate).
    destruct (ata_read_spec d' lba count (replicate (length buf) 0) Hok' Hp' Hlba Hc ltac:(lia) ltac:(lia))
      as (buf' & d'' & E & _ & _ & Hl & Hg').
    exists d', d''. split; [done|]. split; [done|]. split; [done|].
    replace ((lba mod 268435456 + count) * 512) with (base + count * 512) in Hg by (unfold base; lia).
    split; [exact Hg|]. rewrite E. do 2 f_equal. apply array_ext; [lia|]. intros i Hi.
    rewrite Hg', Hg, !decide_True by (fold base; lia). f_equal. fold base. lia.
Qed.

Definition demo_drive : simdrive := mk_sim 3 2 (mk_task 0 0 0 0 0) Idle 64 ∅.
Definition demo_sector : list Z := (fun i => Z.of_nat i mod 256) <$> seq 0 512.

Lemma demo_sector_bytes : bytes_ok demo_sector.
Proof.
  intros i Hi. unfold demo_sector. destruct (decide (i < 512)) as [Hlt|].
  - rewrite list_lookup_total_alt, list_lookup_fmap, lookup_seq_lt by lia. simpl. apply Z.mod_pos_bound. lia.
  - rewrite list_lookup_total_alt, lookup_ge_None_2 by (rewrite length_fmap, length_seq; lia). simpl. lia.
Qed.

Lemma ata_transfers_correct_witness :
  exists d' d'', ata_write demo_drive 9 1 demo_sector = (0, d') /\
    ata_read d' 9 1 (replicate (length demo_sector) 0) = (0, demo_sector, d'').
Proof.
  destruct (ata_transfers_correct demo_drive 9 1 demo_sector) as [_ (d' & d'' & H1 & _ & _ & _ & H2)].
  - split; vm_compute; split; [discriminate|reflexivity|discriminate|reflexivity].
  - reflexivity.
  - lia.
  - lia.
  - vm_compute. discriminate.
  - vm_compute. reflexivity.
  - apply demo_sector_bytes.
  - exists d', d''. split; [exact H1|exact H2].
Defined.




