(* ===== verification/Ufs.v ===== *)
(** The writable file system of [kernel/core/ufs.c].

    Five directory sectors hold 64 entries of 40 bytes; every file is one extent
    of the data area, which only grows.  The state is the file's static variables
    and the disk below; every operation is one Definition.  The static sector
    buffers are filled by a read before each use and are local here; log output
    is left out. *)
From S2P Require Import Prelude CString Blk.

Definition UFS_BASE_LBA : Z := 8192.
Definition UFS_SB_LBA : Z := UFS_BASE_LBA + 0.
Definition UFS_DIR_SECTORS : Z := 5.
Definition UFS_DIR_LBA : Z := UFS_BASE_LBA + 1.
Definition UFS_DATA_LBA : Z := UFS_DIR_LBA + UFS_DIR_SECTORS.
Definition UFS_DATA_RESERVED_SECTORS : Z := 8192.
Definition UFS_DATA_END_LBA : Z := UFS_DATA_LBA + UFS_DATA_RESERVED_SECTORS.
Definition UFS_ENTRY_SIZE : Z := 40.
Definition UFS_MAX_ENTRIES : Z := (UFS_DIR_SECTORS * SECTOR_SIZE) / UFS_ENTRY_SIZE.
Definition UFS_NAME_MAX : Z := 20.
Definition UFS_OFF_START_LBA : Z := 20.
Definition UFS_OFF_SIZE : Z := 24.
Definition UFS_OFF_CAPACITY : Z := 28.
Definition UFS_OFF_OWNER : Z := 32.
Definition UFS_OFF_PERM : Z := 36.
Definition UFS_PERM_OTHER_READ : Z := 1.
Definition UFS_PERM_OTHER_WRITE : Z := 2.

Record ufs_dirent_t := mk_ufs_dirent {
  name : list Z;
  size_bytes : Z;
  owner_uid : Z;
  perm : Z;
}.

(** The static variables, and the disk. *)
Record ufs (D : Type) := mk_ufs {
  superblock : list Z;
  directory : list Z;
  ufs_ready : bool;
  cached_file_count : Z;
  next_free_lba : Z;
  disk : D;
}.
Arguments mk_ufs {D}.
Arguments superblock {D}.
Arguments directory {D}.
Arguments ufs_ready {D}.
Arguments cached_file_count {D}.
Arguments next_free_lba {D}.
Arguments disk {D}.

(** * The model *)

Section model.
Context {D : Type} `{BlockDev D}.
Implicit Types (s : ufs D) (d : D) (nm : list Z).

Definition with_directory s dir : ufs D :=
  mk_ufs (superblock s) dir (ufs_ready s) (cached_file_count s) (next_free_lba s) (disk s).
Definition with_count s n : ufs D :=
  mk_ufs (superblock s) (directory s) (ufs_ready s) n (next_free_lba s) (disk s).
Definition with_next s n : ufs D :=
  mk_ufs (superblock s) (directory s) (ufs_ready s) (cached_file_count s) n (disk s).
Definition with_disk s d : ufs D :=
  mk_ufs (superblock s) (directory s) (ufs_ready s) (cached_file_count s) (next_free_lba s) d.

(** [entry_at] is a pointer into the directory: its offset, and the bytes from
    there on. *)
Definition entry_off (index : Z) : Z := index * UFS_ENTRY_SIZE.
Definition entry_at (dir : list Z) (index : Z) : list Z :=
  drop (Z.to_nat (entry_off index)) dir.

Definition set_name (dir : list Z) (e : Z) nm : list Z :=
  let (dir', i) := str_copy dir e nm (UFS_NAME_MAX - 1) in
  for_each i UFS_NAME_MAX (fun i dir => dir.[e + i <- 0]) dir'.

Definition persist_superblock s : ufs D * Z :=
  let sb := (superblock s).[0 <- 85].[1 <- 70].[2 <- 83].[3 <- 49] in
  let sb := write_u32 sb 4 (cached_file_count s) in
  let sb := write_u32 sb 8 (next_free_lba s) in
  let sb := for_each 12 SECTOR_SIZE (fun i sb => sb.[i <- 0]) sb in
  let (r, d) := ata_write_sectors (disk s) UFS_SB_LBA 1 sb in
  (mk_ufs sb (directory s) (ufs_ready s) (cached_file_count s) (next_free_lba s) d, r).

Definition persist_directory s : ufs D * Z :=
  let (r, d) := ata_write_sectors (disk s) UFS_DIR_LBA UFS_DIR_SECTORS (directory s) in
  (with_disk s d, r).

(** [if (persist_directory() != 0 || persist_superblock() != 0) return -1;
    return ok;] *)
Definition persist_and_return s (ok : Z) : ufs D * Z :=
  let (s1, r1) := persist_directory s in
  if negb (r1 =? 0) then (s1, -1)
  else
    let (s2, r2) := persist_superblock s1 in
    if negb (r2 =? 0) then (s2, -1) else (s2, ok).

Definition entry_used (dir : list Z) (i : Z) : bool := negb (dir.[entry_off i] =? 0).

Definition count_used_entries (dir : list Z) : Z :=
  for_each 0 UFS_MAX_ENTRIES
    (fun i count => if entry_used dir i then count +32 1 else count) 0.

Definition format_fresh s : ufs D :=
  let dir := for_each 0 (UFS_DIR_SECTORS * SECTOR_SIZE) (fun i dir => dir.[i <- 0]) (directory s) in
  let s := mk_ufs (superblock s) dir (ufs_ready s) 0 UFS_DATA_LBA (disk s) in
  let s := (persist_directory s).1 in
  let s := (persist_superblock s).1 in
  mk_ufs (superblock s) (directory s) true (cached_file_count s) (next_free_lba s) (disk s).

Definition bad_magic (sb : list Z) : bool :=
  negb (sb.[0] =? 85) || negb (sb.[1] =? 70) || negb (sb.[2] =? 83) || negb (sb.[3] =? 49).

Definition ufs_init s : ufs D :=
  let '(r, sb, d) := ata_read_sectors (disk s) UFS_SB_LBA 1 (superblock s) in
  let s := mk_ufs sb (directory s) false (cached_file_count s) (next_free_lba s) d in
  if negb (r =? 0) then s
  else if bad_magic sb then format_fresh s
  else
    let '(r, dir, d) := ata_read_sectors (disk s) UFS_DIR_LBA UFS_DIR_SECTORS (directory s) in
    let s := mk_ufs sb dir false (cached_file_count s) (next_free_lba s) d in
    if negb (r =? 0) then s
    else
      let next := read_u32 sb 8 in
      let next := if (next <? UFS_DATA_LBA) || (next >? UFS_DATA_END_LBA)
                  then UFS_DATA_LBA else next in
      mk_ufs sb dir true (count_used_entries dir) next d.

Definition ufs_file_count s : Z := if ufs_ready s then cached_file_count s else 0.

Definition ufs_entry s (index : Z) : option ufs_dirent_t :=
  if negb (ufs_ready s) then None
  else
    match for_range 0 UFS_MAX_ENTRIES
            (fun i seen =>
               if negb (entry_used (directory s) i) then inl seen
               else if seen =? index then
                 let e := entry_off i in
                 inr (mk_ufs_dirent (slice (directory s) e UFS_NAME_MAX)
                        (read_u32 (directory s) (e + UFS_OFF_SIZE))
                        (read_u32 (directory s) (e + UFS_OFF_OWNER))
                        (directory s).[e + UFS_OFF_PERM])
               else inl (seen +32 1)) 0 with
    | inl _ => None
    | inr out => Some out
    end.

Definition ufs_find s nm : Z :=
  if negb (ufs_ready s) then -1
  else c_index (find_first 0 UFS_MAX_ENTRIES
         (fun i => entry_used (directory s) i && str_eq (entry_at (directory s) i) nm)).

(** The fields of a new file's entry at [e]. *)
Definition init_entry (dir : list Z) (e : Z) nm (owner : Z) : list Z :=
  let dir := set_name dir e nm in
  let dir := write_u32 dir (e + UFS_OFF_START_LBA) 0 in
  let dir := write_u32 dir (e + UFS_OFF_SIZE) 0 in
  let dir := write_u32 dir (e + UFS_OFF_CAPACITY) 0 in
  let dir := write_u32 dir (e + UFS_OFF_OWNER) owner in
  dir.[e + UFS_OFF_PERM <- 0].

Definition ufs_create s nm (owner : Z) : ufs D * Z :=
  if negb (ufs_ready s) then (s, -1)
  else if (str_len nm =? 0) || (str_len nm >=? UFS_NAME_MAX) then (s, -1)
  else if ufs_find s nm >=? 0 then (s, -1)
  else
    match find_first 0 UFS_MAX_ENTRIES (fun i => negb (entry_used (directory s) i)) with
    | None => (s, -1)
    | Some slot =>
        let dir := init_entry (directory s) (entry_off slot) nm owner in
        let s := with_count (with_directory s dir) (cached_file_count s +32 1) in
        persist_and_return s slot
    end.

Definition ufs_delete s nm : ufs D * Z :=
  if negb (ufs_ready s) then (s, -1)
  else
    let slot := ufs_find s nm in
    if slot <? 0 then (s, -1)
    else
      let s := with_directory s ((directory s).[entry_off slot <- 0]) in
      let s := with_count s (cached_file_count s -32 1) in
      persist_and_return s 0.

Definition handle_valid s (handle : Z) : bool :=
  ufs_ready s && (handle >=? 0) && (handle <? UFS_MAX_ENTRIES) &&
  entry_used (directory s) handle.

Definition ufs_owner s (handle : Z) : Z :=
  if negb (handle_valid s handle) then 0
  else read_u32 (directory s) (entry_off handle + UFS_OFF_OWNER).

Definition ufs_perm s (handle : Z) : Z :=
  if negb (handle_valid s handle) then 0
  else (directory s).[entry_off handle + UFS_OFF_PERM].

Definition ufs_chmod s (handle p : Z) : ufs D * Z :=
  if negb (handle_valid s handle) then (s, -1)
  else
    let s := with_directory s ((directory s).[entry_off handle + UFS_OFF_PERM <- p]) in
    persist_and_return s 0.

Definition ufs_size s (handle : Z) : Z :=
  if negb (handle_valid s handle) then 0
  else read_u32 (directory s) (entry_off handle + UFS_OFF_SIZE).

Definition ufs_truncate s (handle new_size : Z) : ufs D * Z :=
  if negb (handle_valid s handle) then (s, -1)
  else
    let e := entry_off handle in
    let capacity_bytes := read_u32 (directory s) (e + UFS_OFF_CAPACITY) *32 SECTOR_SIZE in
    if new_size >? capacity_bytes then (s, -1)
    else
      let s := with_directory s (write_u32 (directory s) (e + UFS_OFF_SIZE) new_size) in
      persist_and_return s 0.

Definition sectors_for_bytes (bytes : Z) : Z := (bytes +32 SECTOR_SIZE -32 1) / SECTOR_SIZE.

(** Copy the old sectors of a file to its new extent, eight at a time. *)
Definition move_sectors d (old_start new_start old_sectors : Z) : option (D * Z) :=
  while_loop (S (Z.to_nat old_sectors))
    (fun '(d, buf, done_) =>
       if done_ <? old_sectors then
         let chunk := old_sectors -32 done_ in
         let chunk := if chunk >? 8 then 8 else chunk in
         let '(r, buf, d) := ata_read_sectors d (old_start +32 done_) chunk buf in
         if negb (r =? 0) then inr (d, -1)
         else
           let (r, d) := ata_write_sectors d (new_start +32 done_) chunk buf in
           if negb (r =? 0) then inr (d, -1)
           else inl (d, buf, done_ +32 chunk)
       else inr (d, 0))
    (d, replicate 4096 0, 0).

Definition ensure_capacity s (handle needed_bytes : Z) : option (ufs D * Z) :=
  let e := entry_off handle in
  let cur_capacity_sectors := read_u32 (directory s) (e + UFS_OFF_CAPACITY) in
  if needed_bytes <=? cur_capacity_sectors *32 SECTOR_SIZE then Some (s, 0)
  else
    let needed_sectors := sectors_for_bytes needed_bytes in
    new_capacity_sectors ←
      double_until 33 needed_sectors
        (if cur_capacity_sectors =? 0 then 1 else cur_capacity_sectors);
    if next_free_lba s +32 new_capacity_sectors >? UFS_DATA_END_LBA then Some (s, -1)
    else
      let new_start := next_free_lba s in
      let old_start := read_u32 (directory s) (e + UFS_OFF_START_LBA) in
      let old_size := read_u32 (directory s) (e + UFS_OFF_SIZE) in
      '(d, r) ← (if old_size >? 0
                 then move_sectors (disk s) old_start new_start (sectors_for_bytes old_size)
                 else Some (disk s, 0));
      let s := with_disk s d in
      if negb (r =? 0) then Some (s, -1)
      else
        let dir := write_u32 (directory s) (e + UFS_OFF_START_LBA) new_start in
        let dir := write_u32 dir (e + UFS_OFF_CAPACITY) new_capacity_sectors in
        let s := with_next (with_directory s dir) (next_free_lba s +32 new_capacity_sectors) in
        Some (persist_and_return s 0).

(** The sector loop of [ufs_write_at]: read, patch and write back one sector per
    iteration.  [pos] is how far [src] has advanced. *)
Definition write_sectors d (start_lba offset : Z) (buf : list Z) (len : Z) : option (D * Z) :=
  while_loop (S (Z.to_nat len))
    (fun '(d, scratch, pos, cur, remaining) =>
       if remaining >? 0 then
         let sector_index := cur / SECTOR_SIZE in
         let byte_in_sector := cur mod SECTOR_SIZE in
         let chunk := SECTOR_SIZE -32 byte_in_sector in
         let chunk := if chunk >? remaining then remaining else chunk in
         let lba := start_lba +32 sector_index in
         let '(r, scratch, d) := ata_read_sectors d lba 1 scratch in
         if negb (r =? 0) then inr (d, -1)
         else
           let scratch := for_each 0 chunk
             (fun i sc => sc.[byte_in_sector + i <- buf.[pos + i]]) scratch in
           let (r, d) := ata_write_sectors d lba 1 scratch in
           if negb (r =? 0) then inr (d, -1)
           else inl (d, scratch, pos + chunk, cur +32 chunk, remaining -32 chunk)
       else inr (d, 0))
    (d, replicate 512 0, 0, offset, len).

Definition ufs_write_at s (handle offset : Z) (buf : list Z) (len : Z) : option (ufs D * Z) :=
  if negb (handle_valid s handle) then Some (s, -1)
  else
    let needed := offset +32 len in
    if needed <? offset then Some (s, -1)
    else
      '(s, r) ← (if len >? 0 then ensure_capacity s handle needed else Some (s, 0));
      if negb (r =? 0) then Some (s, -1)
      else
        let e := entry_off handle in
        let start_lba := read_u32 (directory s) (e + UFS_OFF_START_LBA) in
        '(d, r) ← write_sectors (disk s) start_lba offset buf len;
        let s := with_disk s d in
        if negb (r =? 0) then Some (s, -1)
        else if needed >? read_u32 (directory s) (e + UFS_OFF_SIZE) then
          let s := with_directory s (write_u32 (directory s) (e + UFS_OFF_SIZE) needed) in
          Some (persist_and_return s (s32 len))
        else Some (s, s32 len).

(** The sector loop of [ufs_read_at]; [out] is the caller's buffer. *)
Definition read_sectors d (start_lba offset : Z) (out : list Z) (len : Z) :
    option (D * list Z * Z) :=
  while_loop (S (Z.to_nat len))
    (fun '(d, scratch, out, pos, cur, remaining) =>
       if remaining >? 0 then
         let sector_index := cur / SECTOR_SIZE in
         let byte_in_sector := cur mod SECTOR_SIZE in
         let chunk := SECTOR_SIZE -32 byte_in_sector in
         let chunk := if chunk >? remaining then remaining else chunk in
         let lba := start_lba +32 sector_index in
         let '(r, scratch, d) := ata_read_sectors d lba 1 scratch in
         if negb (r =? 0) then inr (d, out, -1)
         else
           let out := for_each 0 chunk
             (fun i out => out.[pos + i <- scratch.[byte_in_sector + i]]) out in
           inl (d, scratch, out, pos + chunk, cur +32 chunk, remaining -32 chunk)
       else inr (d, out, 0))
    (d, replicate 512 0, out, 0, offset, len).

Definition ufs_read_at s (handle offset : Z) (out : list Z) (len : Z) :
    option (ufs D * list Z * Z) :=
  if negb (handle_valid s handle) then Some (s, out, -1)
  else
    let e := entry_off handle in
    let size := read_u32 (directory s) (e + UFS_OFF_SIZE) in
    if offset >=? size then Some (s, out, 0)
    else
      let available := size -32 offset in
      let len := if len >? available then available else len in
      let start_lba := read_u32 (directory s) (e + UFS_OFF_START_LBA) in
      '(d, out, r) ← read_sectors (disk s) start_lba offset out len;
      let s := with_disk s d in
      if negb (r =? 0) then Some (s, out, -1) else Some (s, out, s32 len).
End model.

(** * Directory entries *)

(** Replace the layout constants by their values. *)
Ltac ufs_consts :=
  change UFS_MAX_ENTRIES with 64 in *; change UFS_NAME_MAX with 20 in *;
  change UFS_SB_LBA with 8192 in *; change UFS_DIR_LBA with 8193 in *;
  change UFS_DIR_SECTORS with 5 in *; change UFS_DATA_LBA with 8198 in *;
  change UFS_DATA_END_LBA with 16390 in *;
  unfold entry_off, UFS_ENTRY_SIZE, UFS_OFF_START_LBA, UFS_OFF_SIZE, UFS_OFF_CAPACITY,
    UFS_OFF_OWNER, UFS_OFF_PERM, SECTOR_SIZE in *.

(** What the 40 bytes of an entry say. *)
Record dirent := mk_dirent {
  de_used : bool;
  de_name : list Z;
  de_start : Z;
  de_size : Z;
  de_cap : Z;
  de_owner : Z;
  de_perm : Z;
}.

Definition dirent_at (dir : list Z) (i : Z) : dirent :=
  mk_dirent (entry_used dir i) (cstr (slice dir (entry_off i) UFS_NAME_MAX))
    (read_u32 dir (entry_off i + UFS_OFF_START_LBA))
    (read_u32 dir (entry_off i + UFS_OFF_SIZE))
    (read_u32 dir (entry_off i + UFS_OFF_CAPACITY))
    (read_u32 dir (entry_off i + UFS_OFF_OWNER))
    (dir.[entry_off i + UFS_OFF_PERM]).

(** A directory of the right size whose used names are terminated. *)
Record dir_ok (dir : list Z) : Prop := {
  dir_len : zlen dir = 2560;
  dir_bytes : bytes_ok dir;
  dir_term : forall i, 0 <= i < 64 -> entry_used dir i = true -> dir.[entry_off i + 19] = 0;
}.

Section entries.
Implicit Types (dir : list Z) (i j k v : Z) (nm : list Z).

Lemma dirent_at_ext dir dir' i :
  zlen dir = 2560 -> zlen dir' = 2560 -> 0 <= i < 64 ->
  (forall k, entry_off i <= k < entry_off i + 40 -> dir'.[k] = dir.[k]) ->
  dirent_at dir' i = dirent_at dir i.
Proof.
  intros Hl Hl' Hi H. unfold dirent_at, entry_used. ufs_consts.
  rewrite (slice_ext dir' dir) by (try lia; intros; apply H; lia).
  rewrite !(read_u32_ext dir dir') by (intros; apply H; lia).
  by rewrite !H by lia.
Qed.

Lemma write_field_other dir i f v j :
  zlen dir = 2560 -> 0 <= i < 64 -> 0 <= j < 64 -> i <> j -> 0 <= f <= 36 ->
  dirent_at (write_u32 dir (entry_off i + f) v) j = dirent_at dir j.
Proof.
  intros. apply dirent_at_ext; [done|by rewrite write_u32_length|done|].
  intros k Hk. ufs_consts. rewrite write_u32_get by lia. by rewrite decide_False by lia.
Qed.

Lemma set_byte_other dir i f v j :
  zlen dir = 2560 -> 0 <= i < 64 -> 0 <= j < 64 -> i <> j -> 0 <= f < 40 ->
  dirent_at (dir.[entry_off i + f <- v]) j = dirent_at dir j.
Proof.
  intros. apply dirent_at_ext; [done|by rewrite aset_length|done|].
  intros k Hk. ufs_consts. rewrite aget_aset_ne by lia. done.
Qed.

(** Writing a 32-bit field leaves the name and the flag of the entry alone. *)
Lemma write_field_same dir i f v :
  zlen dir = 2560 -> 0 <= i < 64 -> 20 <= f <= 36 ->
  entry_used (write_u32 dir (entry_off i + f) v) i = entry_used dir i /\
  slice (write_u32 dir (entry_off i + f) v) (entry_off i) UFS_NAME_MAX =
    slice dir (entry_off i) UFS_NAME_MAX.
Proof.
  intros Hl Hi Hf. unfold entry_used. ufs_consts. split.
  - rewrite write_u32_get by lia. by rewrite decide_False by lia.
  - apply slice_ext; rewrite ?write_u32_length; try lia. intros k Hk.
    rewrite write_u32_get by lia. by rewrite decide_False by lia.
Qed.

Ltac field_tac :=
  intros Hok Hi; destruct Hok as [Hl Hb _];
  unfold dirent_at;
  match goal with
  | |- context [write_u32 ?dir (entry_off ?i + ?f) ?v] =>
      let H1 := fresh in let H2 := fresh in
      destruct (write_field_same dir i f v Hl Hi ltac:(unfold f; lia)) as [H1 H2];
      rewrite H1, H2; clear H1 H2
  end;
  simpl; ufs_consts;
  repeat first [rewrite read_write_u32_eq by (done || lia)|
                rewrite read_write_u32_ne by lia];
  try (rewrite write_u32_get by lia; rewrite decide_False by lia); done.

Lemma dirent_set_start dir i v :
  dir_ok dir -> 0 <= i < 64 ->
  dirent_at (write_u32 dir (entry_off i + UFS_OFF_START_LBA) v) i =
  let e := dirent_at dir i in
  mk_dirent (de_used e) (de_name e) (u32 v) (de_size e) (de_cap e) (de_owner e) (de_perm e).
Proof. field_tac. Qed.

Lemma dirent_set_size dir i v :
  dir_ok dir -> 0 <= i < 64 ->
  dirent_at (write_u32 dir (entry_off i + UFS_OFF_SIZE) v) i =
  let e := dirent_at dir i in
  mk_dirent (de_used e) (de_name e) (de_start e) (u32 v) (de_cap e) (de_owner e) (de_perm e).
Proof. field_tac. Qed.

Lemma dirent_set_cap dir i v :
  dir_ok dir -> 0 <= i < 64 ->
  dirent_at (write_u32 dir (entry_off i + UFS_OFF_CAPACITY) v) i =
  let e := dirent_at dir i in
  mk_dirent (de_used e) (de_name e) (de_start e) (de_size e) (u32 v) (de_owner e) (de_perm e).
Proof. field_tac. Qed.

Lemma dirent_set_owner dir i v :
  dir_ok dir -> 0 <= i < 64 ->
  dirent_at (write_u32 dir (entry_off i + UFS_OFF_OWNER) v) i =
  let e := dirent_at dir i in
  mk_dirent (de_used e) (de_name e) (de_start e) (de_size e) (de_cap e) (u32 v) (de_perm e).
Proof. field_tac. Qed.

Lemma dirent_set_perm dir i v :
  dir_ok dir -> 0 <= i < 64 ->
  dirent_at (dir.[entry_off i + UFS_OFF_PERM <- v]) i =
  let e := dirent_at dir i in
  mk_dirent (de_used e) (de_name e) (de_start e) (de_size e) (de_cap e) (de_owner e) v.
Proof.
  intros [Hl Hb _] Hi. unfold dirent_at, entry_used. ufs_consts. simpl.
  rewrite (slice_ext (dir.[i * 40 + 36 <- v]) dir)
    by (rewrite ?aset_length; try lia; intros; apply aget_aset_ne; lia).
  rewrite !(read_u32_ext dir (dir.[i * 40 + 36 <- v]))
    by (intros; apply aget_aset_ne; lia).
  rewrite aget_aset_ne by lia. by rewrite aget_aset_eq by lia.
Qed.

Lemma write_field_ok dir i f v :
  dir_ok dir -> 0 <= i < 64 -> 20 <= f <= 36 -> dir_ok (write_u32 dir (entry_off i + f) v).
Proof.
  intros [Hl Hb Ht] Hi Hf. split.
  - by rewrite write_u32_length.
  - ufs_consts. apply write_u32_ok; [done|lia|lia].
  - intros j Hj. unfold entry_used in *. ufs_consts.
    rewrite !write_u32_get by lia. rewrite !decide_False by lia. by apply Ht.
Qed.

Lemma set_perm_ok dir i v :
  dir_ok dir -> 0 <= i < 64 -> 0 <= v < 256 -> dir_ok (dir.[entry_off i + UFS_OFF_PERM <- v]).
Proof.
  intros [Hl Hb Ht] Hi Hv. split.
  - by rewrite aset_length.
  - ufs_consts. apply aset_ok; [done|lia|done].
  - intros j Hj. unfold entry_used in *. ufs_consts.
    rewrite !aget_aset_ne by lia. by apply Ht.
Qed.

Lemma clear_entry_ok dir i :
  dir_ok dir -> 0 <= i < 64 -> dir_ok (dir.[entry_off i <- 0]).
Proof.
  intros [Hl Hb Ht] Hi. split.
  - by rewrite aset_length.
  - ufs_consts. apply aset_ok; [done|lia|lia].
  - intros j Hj. unfold entry_used in *. ufs_consts.
    destruct (decide (i = j)) as [->|].
    + rewrite aget_aset_eq by lia. done.
    + rewrite !aget_aset_ne by lia. by apply Ht.
Qed.

(** With a terminated entry, the string at the entry is its name. *)
Lemma entry_at_name dir i :
  dir_ok dir -> 0 <= i < 64 -> entry_used dir i = true ->
  cstr (entry_at dir i) = de_name (dirent_at dir i).
Proof.
  intros [Hl Hb Ht] Hi Hu. specialize (Ht i Hi Hu).
  assert (Hget : forall k, 0 <= k -> (entry_at dir i).[k] = dir.[entry_off i + k]).
  { intros k Hk. unfold entry_at. rewrite !list_lookup_total_alt, lookup_drop.
    do 2 f_equal. ufs_consts. lia. }
  unfold dirent_at; cbn [de_name]. set (sl := slice dir (entry_off i) UFS_NAME_MAX).
  assert (Hsl : forall k, 0 <= k < 20 -> sl.[k] = dir.[entry_off i + k]).
  { intros k Hk. apply slice_get; ufs_consts; lia. }
  assert (Hlt : zlen (cstr sl) <= 19).
  { destruct (decide (zlen (cstr sl) <= 19)); [done|].
    destruct (cstr_get sl 19) as [_ Hne]; [lia|]. by rewrite Hsl in Hne by lia. }
  apply cstr_unique.
  - intros k Hk. destruct (cstr_get sl k) as [E1 E2]; [done|].
    rewrite Hget, <- Hsl, <- E1 by lia. done.
  - pose proof (zlen_nonneg (cstr sl)).
    rewrite Hget, <- Hsl by lia. apply cstr_end.
Qed.

Lemma set_name_spec dir i nm :
  zlen dir = 2560 -> 0 <= i < 64 ->
  zlen (set_name dir (entry_off i) nm) = 2560 /\
  forall j, 0 <= j -> (set_name dir (entry_off i) nm).[j] =
    if decide (entry_off i <= j < entry_off i + 20)
    then (if decide (j - entry_off i < Z.min 19 (zlen (cstr nm))) then nm.[j - entry_off i] else 0)
    else dir.[j].
Proof.
  intros Hl Hi. unfold set_name. pose proof (zlen_nonneg (cstr nm)).
  destruct (str_copy_spec dir (entry_off i) nm (UFS_NAME_MAX - 1)) as (Hn & Hz & Hg);
    [ufs_consts; lia..|].
  destruct (str_copy _ _ _ _) as [dir' n]; simpl in *. ufs_consts.
  set (n0 := Z.min 19 (zlen (cstr nm))) in *. replace (Z.min (20 - 1) (zlen (cstr nm))) with n0 in * by done.
  subst n. apply (for_each_inv n0 20 _ dir' (fun k d => zlen d = 2560 /\ forall j, 0 <= j ->
    d.[j] = if decide (i * 40 <= j < i * 40 + k)
      then (if decide (j - i * 40 < n0) then nm.[j - i * 40] else 0) else dir.[j])); [lia| |].
  - split; [lia|]. intros j Hj. rewrite Hg by done. case_decide; [|done].
    by rewrite decide_True by lia.
  - intros k d Hk [Hd Hget]. split; [by rewrite aset_length|]. intros j Hj.
    rewrite aget_aset_cases by lia. destruct (decide (i * 40 + k = j)) as [<-|].
    + rewrite decide_True, decide_False by lia. done.
    + rewrite Hget by done. destruct (decide (i * 40 <= j < i * 40 + k)).
      * by rewrite (decide_True (P := i * 40 <= j < i * 40 + (k + 1))) by lia.
      * by rewrite decide_False by lia.
Qed.

(** A new file's entry, and the entries beside it. *)
Lemma init_entry_spec dir i nm owner :
  dir_ok dir -> bytes_ok nm -> 0 <= i < 64 -> 0 < zlen (cstr nm) < 20 ->
  dir_ok (init_entry dir (entry_off i) nm owner) /\
  dirent_at (init_entry dir (entry_off i) nm owner) i =
    mk_dirent true (cstr nm) 0 0 0 (u32 owner) 0 /\
  forall j, 0 <= j < 64 -> j <> i ->
    dirent_at (init_entry dir (entry_off i) nm owner) j = dirent_at dir j.
Proof.
  intros Hok Hnm Hi Hlen. unfold init_entry.
  destruct (set_name_spec dir i nm (dir_len _ Hok) Hi) as [Hl Hg].
  set (d1 := set_name dir (entry_off i) nm) in *.
  assert (Hne : forall k, ~ (entry_off i <= k < entry_off i + 20) -> 0 <= k -> d1.[k] = dir.[k])
    by (intros; rewrite Hg by done; by rewrite decide_False).
  assert (Hok1 : dir_ok d1).
  { destruct Hok as [Hld Hb Ht]. split; [done| |].
    - apply (bytes_ok_ext dir); [done|]. intros k Hk. rewrite Hg by done.
      repeat case_decide; [right; apply Hnm; lia|right; lia|by left].
    - intros j Hj Hu. unfold entry_used in Hu. destruct (decide (i = j)) as [->|].
      + rewrite Hg by (ufs_consts; lia). rewrite decide_True, decide_False by lia. done.
      + rewrite Hne in Hu by (ufs_consts; lia). rewrite Hne by (ufs_consts; lia).
        by apply Ht. }
  assert (Hj1 : forall j, 0 <= j < 64 -> j <> i -> dirent_at d1 j = dirent_at dir j).
  { intros j Hj Hji. apply dirent_at_ext; [apply Hok|done|done|].
    intros k Hk. apply Hne; ufs_consts; lia. }
  assert (Hu1 : entry_used d1 i = true).
  { unfold entry_used. rewrite Hg by (ufs_consts; lia).
    rewrite !decide_True by lia. rewrite Z.sub_diag.
    destruct (cstr_get nm 0) as [_ Hz]; [lia|]. apply negb_true_iff. lia. }
  assert (Hname : cstr (slice d1 (entry_off i) UFS_NAME_MAX) = cstr nm).
  { apply cstr_unique.
    - intros k Hk. destruct (cstr_get nm k) as [E1 E2]; [done|].
      rewrite slice_get, Hg by (ufs_consts; lia). rewrite !decide_True by lia.
      replace (entry_off i + k - entry_off i) with k by lia. by rewrite <- E1.
    - rewrite slice_get, Hg by (ufs_consts; lia). rewrite decide_True, decide_False by lia. done. }
  clear Hg Hne.
  pose proof (write_field_ok d1 i UFS_OFF_START_LBA 0 Hok1 Hi ltac:(ufs_consts; lia)) as Hok2.
  pose proof (write_field_ok _ i UFS_OFF_SIZE 0 Hok2 Hi ltac:(ufs_consts; lia)) as Hok3.
  pose proof (write_field_ok _ i UFS_OFF_CAPACITY 0 Hok3 Hi ltac:(ufs_consts; lia)) as Hok4.
  pose proof (write_field_ok _ i UFS_OFF_OWNER owner Hok4 Hi ltac:(ufs_consts; lia)) as Hok5.
  split; [by apply set_perm_ok|]. split.
  - rewrite dirent_set_perm, dirent_set_owner, dirent_set_cap, dirent_set_size,
      dirent_set_start by done. simpl. by rewrite Hu1, Hname.
  - intros j Hj Hji. rewrite set_byte_other by (try apply Hok5; try done; unfold UFS_OFF_PERM; lia).
    rewrite !write_field_other by
      (try apply Hok4; try apply Hok3; try apply Hok2; try apply Hok1; try done;
       unfold UFS_OFF_OWNER, UFS_OFF_CAPACITY, UFS_OFF_SIZE, UFS_OFF_START_LBA; lia).
    by apply Hj1.
Qed.
End entries.

(** * The sector loops and the disk *)

Section device.
Context {D : Type} {B : BlockDev D} {L : BlockDevLaws D}.
Implicit Types (s : ufs D) (d : D) (nm : list Z).

(** The drive answers and reaches to the end of the data area. *)
Definition disk_ok d : Prop := blk_ok d /\ UFS_DATA_END_LBA <= blk_limit d.

(** [d'] has the bytes of [d] except that [buf] stands at [base .. base + n). *)
Definition overlaid d d' (base n : Z) (buf : list Z) : Prop :=
  forall a, blk_byte d' a = if decide (base <= a < base + n) then buf.[a - base] else blk_byte d a.

Lemma read_step d lba count buf :
  disk_ok d -> 0 <= lba -> 1 <= count <= 256 -> lba + count <= UFS_DATA_END_LBA ->
  count * 512 <= zlen buf ->
  exists buf' d', ata_read_sectors d lba count buf = (0, buf', d') /\ disk_ok d' /\
    (forall a, blk_byte d' a = blk_byte d a) /\ zlen buf' = zlen buf /\
    (forall i, 0 <= i -> buf'.[i] =
       if decide (i < count * 512) then blk_byte d (lba * 512 + i) else buf.[i]).
Proof.
  intros [Hok Hlim] Hl Hc He Hb.
  destruct (blk_read_law d lba count buf Hok Hl Hc ltac:(lia) Hb)
    as (buf' & d' & E & Hok' & Hlim' & Hby & Hz & Hi).
  exists buf', d'. repeat split; try done. lia.
Qed.

Lemma write_step d lba count buf :
  disk_ok d -> 0 <= lba -> 1 <= count <= 256 -> lba + count <= UFS_DATA_END_LBA ->
  count * 512 <= zlen buf -> bytes_ok buf ->
  exists d', ata_write_sectors d lba count buf = (0, d') /\ disk_ok d' /\
    overlaid d d' (lba * 512) (count * 512) buf.
Proof.
  intros [Hok Hlim] Hl Hc He Hb Hby.
  destruct (blk_write_law d lba count buf Hok Hl Hc ltac:(lia) Hb Hby)
    as (d' & E & Hok' & Hlim' & Ha).
  exists d'. split; [done|]. split; [split; [done|lia]|]. intros a. rewrite Ha.
  replace (lba * 512 + count * 512) with ((lba + count) * 512) by lia. done.
Qed.

Lemma overlaid_nil d base buf : overlaid d d base 0 buf.
Proof. intros a. by rewrite decide_False by lia. Qed.

Lemma blk_read_bytes_ok d (buf buf' : list Z) n base :
  disk_ok d -> bytes_ok buf ->
  (forall i, 0 <= i -> buf'.[i] = if decide (i < n) then blk_byte d (base + i) else buf.[i]) ->
  bytes_ok buf'.
Proof.
  intros [Hok _] Hb H i Hi. rewrite H by done. case_decide; [by apply blk_byte_ok|by apply Hb].
Qed.

Lemma replicate_bytes_ok n : bytes_ok (replicate n 0).
Proof.
  intros i _. destruct (decide (Z.to_nat i < n)%nat).
  - rewrite lookup_total_replicate_2 by done. lia.
  - rewrite list_lookup_total_alt, lookup_ge_None_2 by (rewrite length_replicate; lia).
    simpl. lia.
Qed.

(** [move_sectors] copies the old extent to the new one and touches nothing else. *)
Lemma move_sectors_spec d old_start new_start n :
  disk_ok d -> 0 <= old_start -> 0 <= n -> old_start + n <= new_start ->
  new_start + n <= UFS_DATA_END_LBA ->
  exists d', move_sectors d old_start new_start n = Some (d', 0) /\ disk_ok d' /\
    forall a, blk_byte d' a =
      if decide (new_start * 512 <= a < (new_start + n) * 512)
      then blk_byte d (a - new_start * 512 + old_start * 512) else blk_byte d a.
Proof.
  intros Hd Ho Hn Hon Hlim. change UFS_DATA_END_LBA with 16390 in Hlim. unfold move_sectors.
  set (P := fun '(d', buf, k) => disk_ok d' /\ zlen buf = 4096 /\ bytes_ok buf /\
    0 <= k <= n /\ (forall a, blk_byte d' a =
      if decide (new_start * 512 <= a < (new_start + k) * 512)
      then blk_byte d (a - new_start * 512 + old_start * 512) else blk_byte d a)).
  while_inv (fun st : D * list Z * Z => n - st.2) P
    (fun st : D * Z => st.2 = 0 /\ P (st.1, replicate 4096 0, n)).
  5: { destruct Hloop as ([d' r] & -> & Hr & H). simpl in *. subst r. exists d'. tauto. }
  - split; [done|]. split; [reflexivity|]. split; [apply replicate_bytes_ok|]. split; [lia|].
    intros a. by rewrite decide_False by lia.
  - simpl. lia.
  - intros [[d1 buf] k] (Hd1 & Hz & Hb & Hk & Ha).
    destruct (k <? n) eqn:Ek; bool_prop.
    2: { assert (k = n) as -> by lia. split; [done|]. split; [done|]. split; [reflexivity|].
         split; [apply replicate_bytes_ok|]. split; [lia|done]. }
    rewrite (u32_small (n - k)) by lia. rewrite (u32_small (old_start + k)) by lia.
    rewrite (u32_small (new_start + k)) by lia.
    set (chunk := if n - k >? 8 then 8 else n - k).
    assert (Hchunk : 1 <= chunk <= 8 /\ k + chunk <= n)
      by (subst chunk; split_if; bool_prop; lia).
    rewrite (u32_small (k + chunk)) by lia.
    destruct (read_step d1 (old_start + k) chunk buf) as (buf' & d2 & E1 & Hd2 & Hby & Hz' & Hi);
      [done|lia|lia|change UFS_DATA_END_LBA with 16390; lia|lia|].
    rewrite E1. simpl.
    assert (Hb' : bytes_ok buf') by (by eapply (blk_read_bytes_ok d1 buf)).
    destruct (write_step d2 (new_start + k) chunk buf') as (d3 & E2 & Hd3 & Ho3);
      [done|lia|lia|change UFS_DATA_END_LBA with 16390; lia|lia|done|].
    rewrite E2. simpl. split; [|lia]. split; [done|]. split; [lia|]. split; [done|]. split; [lia|].
    intros a. rewrite Ho3. destruct (decide ((new_start + k) * 512 <= a < (new_start + k) * 512 + chunk * 512)).
    + rewrite Hi by lia. rewrite decide_True by lia. rewrite Ha, decide_False by lia.
      rewrite decide_True by lia. f_equal. lia.
    + rewrite Hby, Ha. repeat case_decide; try lia; done.
  - simpl. lia.
Qed.

(** [write_sectors] stores exactly [len] bytes of [buf] at byte [offset] of the
    extent. *)
Lemma write_sectors_spec d start_lba offset buf len :
  disk_ok d -> bytes_ok buf -> 0 <= start_lba -> 0 <= offset -> 0 <= len ->
  (len > 0 -> start_lba * 512 + offset + len <= UFS_DATA_END_LBA * 512) ->
  exists d', write_sectors d start_lba offset buf len = Some (d', 0) /\ disk_ok d' /\
    overlaid d d' (start_lba * 512 + offset) len buf.
Proof.
  intros Hd Hbuf Hs Ho Hl Hlim. change UFS_DATA_END_LBA with 16390 in Hlim. unfold write_sectors.
  set (P := fun '(d', sc, pos, cur, remaining) => disk_ok d' /\ zlen sc = 512 /\ bytes_ok sc /\
    0 <= pos /\ 0 <= remaining /\ pos + remaining = len /\ cur = offset + pos /\
    overlaid d d' (start_lba * 512 + offset) pos buf).
  while_inv (fun st : D * list Z * Z * Z * Z => st.2) P
    (fun st : D * Z => st.2 = 0 /\ disk_ok st.1 /\
       overlaid d st.1 (start_lba * 512 + offset) len buf).
  5: { destruct Hloop as ([d' r] & -> & Hr & H). simpl in *. subst r. by exists d'. }
  - split; [done|]. split; [reflexivity|]. split; [apply replicate_bytes_ok|].
    repeat split; try lia. apply overlaid_nil.
  - simpl. lia.
  - intros [[[[d1 sc] pos] cur] rem] (Hd1 & Hz & Hb & Hp & Hr & Hpr & -> & Hov).
    destruct (rem >? 0) eqn:Er; bool_prop.
    2: { assert (pos = len) as -> by lia. done. }
    specialize (Hlim ltac:(lia)). unfold SECTOR_SIZE in *.
    pose proof (Z.mod_pos_bound (offset + pos) 512 ltac:(lia)) as Hm.
    pose proof (Z.div_mod (offset + pos) 512 ltac:(lia)) as Hdm.
    set (q := (offset + pos) / 512) in *. set (b := (offset + pos) mod 512) in *.
    rewrite (u32_small (512 - b)) by lia.
    set (chunk := if 512 - b >? rem then rem else 512 - b).
    assert (Hchunk : 1 <= chunk /\ chunk <= rem /\ b + chunk <= 512)
      by (subst chunk; split_if; bool_prop; lia).
    rewrite (u32_small (start_lba + q)) by lia.
    rewrite (u32_small (offset + pos + chunk)) by lia. rewrite (u32_small (rem - chunk)) by lia.
    destruct (read_step d1 (start_lba + q) 1 sc) as (sc' & d2 & E1 & Hd2 & Hby & Hz' & Hi);
      [done|lia|lia|change UFS_DATA_END_LBA with 16390; lia|lia|].
    rewrite E1. simpl. set (sc2 := for_each 0 chunk _ sc').
    assert (Hsc2 : zlen sc2 = 512 /\ forall i, 0 <= i -> sc2.[i] =
      if decide (b <= i < b + chunk) then buf.[pos + (i - b)] else sc'.[i]).
    { apply (for_each_inv 0 chunk _ sc' (fun k l => zlen l = 512 /\ forall i, 0 <= i ->
        l.[i] = if decide (b <= i < b + k) then buf.[pos + (i - b)] else sc'.[i])); [lia| |].
      - split; [lia|]. intros i Hi0. by rewrite decide_False by lia.
      - intros k l Hk [Hzl Hgl]. split; [by rewrite aset_length|]. intros i Hi0.
        rewrite aget_aset_cases by lia. destruct (decide (b + k = i)) as [<-|].
        + rewrite decide_True by lia. do 2 f_equal. lia.
        + rewrite Hgl by done. repeat case_decide; try lia; done. }
    destruct Hsc2 as [Hz2 Hg2].
    assert (Hb' : bytes_ok sc') by (by eapply (blk_read_bytes_ok d1 sc)).
    assert (Hb2 : bytes_ok sc2).
    { intros i Hi0. rewrite Hg2 by done. case_decide; [apply Hbuf; lia|by apply Hb']. }
    destruct (write_step d2 (start_lba + q) 1 sc2) as (d3 & E2 & Hd3 & Ho3);
      [done|lia|lia|change UFS_DATA_END_LBA with 16390; lia|lia|done|].
    rewrite E2. simpl. split; [|lia]. split; [done|]. split; [done|]. split; [done|].
    repeat split; try lia. intros a. rewrite Ho3.
    destruct (decide ((start_lba + q) * 512 <= a < (start_lba + q) * 512 + 1 * 512)).
    + rewrite Hg2 by lia. case_decide.
      * rewrite decide_True by lia. f_equal. f_equal. lia.
      * rewrite Hi, decide_True by lia. replace ((start_lba + q) * 512 + (a - (start_lba + q) * 512)) with a by lia.
        rewrite Hov. repeat case_decide; try lia; done.
    + rewrite Hby, Hov. repeat case_decide; try lia; done.
  - simpl. lia.
Qed.

(** [read_sectors] fills the buffer from the extent and leaves the disk alone. *)
Lemma read_sectors_spec d start_lba offset out len :
  disk_ok d -> 0 <= start_lba -> 0 <= offset -> 0 <= len <= zlen out ->
  (len > 0 -> start_lba * 512 + offset + len <= UFS_DATA_END_LBA * 512) ->
  exists d' out', read_sectors d start_lba offset out len = Some (d', out', 0) /\ disk_ok d' /\
    (forall a, blk_byte d' a = blk_byte d a) /\ zlen out' = zlen out /\
    forall i, 0 <= i -> out'.[i] =
      if decide (i < len) then blk_byte d (start_lba * 512 + offset + i) else out.[i].
Proof.
  intros Hd Hs Ho Hl Hlim. change UFS_DATA_END_LBA with 16390 in Hlim. unfold read_sectors.
  set (Q := fun d' (out' : list Z) pos => disk_ok d' /\ (forall a, blk_byte d' a = blk_byte d a) /\
    zlen out' = zlen out /\ forall i, 0 <= i -> out'.[i] =
      if decide (i < pos) then blk_byte d (start_lba * 512 + offset + i) else out.[i]).
  set (P := fun '((d', sc, out', pos, cur, remaining) : D * list Z * list Z * Z * Z * Z) => zlen sc = 512 /\
    0 <= pos /\ 0 <= remaining /\ pos + remaining = len /\ cur = offset + pos /\ Q d' out' pos).
  while_inv (fun st : D * list Z * list Z * Z * Z * Z => st.2) P
    (fun st : D * list Z * Z => st.2 = 0 /\ Q st.1.1 st.1.2 len).
  5: { destruct Hloop as ([[d' out'] r] & -> & Hr & H). simpl in *. subst r.
       by exists d', out'. }
  - split; [reflexivity|]. repeat split; try lia; try apply Hd.
    intros i Hi. by rewrite decide_False by lia.
  - simpl. lia.
  - intros [[[[[d1 sc] out1] pos] cur] rem] (Hz & Hp & Hr & Hpr & -> & Hd1 & Hby1 & Hzo & Hout).
    destruct (rem >? 0) eqn:Er; bool_prop.
    2: { assert (pos = len) as -> by lia. done. }
    specialize (Hlim ltac:(lia)). unfold SECTOR_SIZE in *.
    pose proof (Z.mod_pos_bound (offset + pos) 512 ltac:(lia)) as Hm.
    pose proof (Z.div_mod (offset + pos) 512 ltac:(lia)) as Hdm.
    set (q := (offset + pos) / 512) in *. set (b := (offset + pos) mod 512) in *.
    rewrite (u32_small (512 - b)) by lia.
    set (chunk := if 512 - b >? rem then rem else 512 - b).
    assert (Hchunk : 1 <= chunk /\ chunk <= rem /\ b + chunk <= 512)
      by (subst chunk; split_if; bool_prop; lia).
    rewrite (u32_small (start_lba + q)) by lia.
    rewrite (u32_small (offset + pos + chunk)) by lia. rewrite (u32_small (rem - chunk)) by lia.
    destruct (read_step d1 (start_lba + q) 1 sc) as (sc' & d2 & E1 & Hd2 & Hby & Hz' & Hi);
      [done|lia|lia|change UFS_DATA_END_LBA with 16390; lia|lia|].
    rewrite E1. simpl. set (out2 := for_each 0 chunk _ out1).
    split; [|lia]. split; [lia|]. do 4 (split; [lia|]). split; [done|].
    split; [intros a; by rewrite Hby, Hby1|].
    apply (for_each_inv 0 chunk _ out1 (fun k l => zlen l = zlen out /\ forall i, 0 <= i ->
        l.[i] = if decide (i < pos + k) then blk_byte d (start_lba * 512 + offset + i) else out.[i]));
      [lia|by rewrite Z.add_0_r|].
    intros k l Hk [Hzl Hgl]. split; [by rewrite aset_length|]. intros i Hi0.
    rewrite aget_aset_cases by lia. destruct (decide (pos + k = i)) as [<-|].
    + rewrite decide_True by lia. rewrite Hi, decide_True, Hby1 by lia. f_equal. lia.
    + rewrite Hgl by done. repeat case_decide; try lia; done.
  - simpl. lia.
Qed.
End device.

(** * The invariant *)

Definition extent_ok (next : Z) (e : dirent) : Prop :=
  de_name e <> [] /\ de_size e <= de_cap e * 512 /\
  (0 < de_cap e -> UFS_DATA_LBA <= de_start e /\ de_start e + de_cap e <= next).

Definition extents_disjoint (e1 e2 : dirent) : Prop :=
  de_cap e1 = 0 \/ de_cap e2 = 0 \/
  de_start e1 + de_cap e1 <= de_start e2 \/ de_start e2 + de_cap e2 <= de_start e1.

(** The entries [f] of a directory whose extents lie below [next]. *)
Record layout_ok (f : Z -> dirent) (next : Z) : Prop := {
  lo_next : UFS_DATA_LBA <= next <= UFS_DATA_END_LBA;
  lo_extent : forall i, 0 <= i < 64 -> de_used (f i) = true -> extent_ok next (f i);
  lo_disjoint : forall i j, 0 <= i < 64 -> 0 <= j < 64 -> i <> j ->
    de_used (f i) = true -> de_used (f j) = true -> extents_disjoint (f i) (f j);
  lo_names : forall i j, 0 <= i < 64 -> 0 <= j < 64 -> de_used (f i) = true ->
    de_used (f j) = true -> de_name (f i) = de_name (f j) -> i = j;
}.

Definition used_count (dir : list Z) : Z := count_if 0 64 (entry_used dir).

(** What is kept in memory: everything but the copy on disk. *)
Record mem_wf {D} (s : ufs D) : Prop := {
  mw_ready : ufs_ready s = true;
  mw_sb : zlen (superblock s) = 512;
  mw_sb_bytes : bytes_ok (superblock s);
  mw_dir : dir_ok (directory s);
  mw_count : cached_file_count s = used_count (directory s);
  mw_layout : layout_ok (dirent_at (directory s)) (next_free_lba s);
}.

(** The superblock and the directory on disk are those in memory. *)
Record synced {D} `{BlockDevLaws D} (s : ufs D) : Prop := {
  sy_magic : bad_magic (superblock s) = false;
  sy_next : read_u32 (superblock s) 8 = next_free_lba s;
  sy_sb : forall j, 0 <= j < 512 -> blk_byte (disk s) (UFS_SB_LBA * 512 + j) = (superblock s).[j];
  sy_dir : forall j, 0 <= j < 2560 -> blk_byte (disk s) (UFS_DIR_LBA * 512 + j) = (directory s).[j];
}.

Section persist.
Context {D : Type} {B : BlockDev D} {L : BlockDevLaws D}.
Implicit Types (s : ufs D) (d : D).

Lemma sb_image sb count next :
  zlen sb = 512 -> bytes_ok sb -> 0 <= next < 4294967296 ->
  let sb1 := sb.[0 <- 85].[1 <- 70].[2 <- 83].[3 <- 49] in
  let sb2 := write_u32 sb1 4 count in
  let sb3 := write_u32 sb2 8 next in
  let sb4 := for_each 12 SECTOR_SIZE (fun i sb => sb.[i <- 0]) sb3 in
  zlen sb4 = 512 /\ bytes_ok sb4 /\ bad_magic sb4 = false /\ read_u32 sb4 8 = next.
Proof.
  intros Hl Hb Hn sb1 sb2 sb3 sb4. unfold SECTOR_SIZE in *.
  assert (Hl1 : zlen sb1 = 512) by (subst sb1; by rewrite !aset_length).
  assert (Hb1 : bytes_ok sb1) by (subst sb1; repeat apply aset_ok; try done; lia).
  assert (Hl2 : zlen sb2 = 512) by (subst sb2; by rewrite write_u32_length).
  assert (Hb2 : bytes_ok sb2) by (apply write_u32_ok; [done|lia|lia]).
  assert (Hl3 : zlen sb3 = 512) by (subst sb3; by rewrite write_u32_length).
  assert (Hb3 : bytes_ok sb3) by (apply write_u32_ok; [done|lia|lia]).
  assert (H4 : zlen sb4 = 512 /\ bytes_ok sb4 /\ forall i, 0 <= i < 12 -> sb4.[i] = sb3.[i]).
  { apply (for_each_inv 12 512 _ sb3 (fun _ l => zlen l = 512 /\ bytes_ok l /\
      forall i, 0 <= i < 12 -> l.[i] = sb3.[i])); [lia|done|].
    intros j l Hj (Hz & Hby & Hi). split; [by rewrite aset_length|].
    split; [apply aset_ok; [done|lia|lia]|]. intros i Hi0. rewrite aget_aset_ne by lia. by apply Hi. }
  destruct H4 as (Hl4 & Hb4 & Hi4). split; [done|]. split; [done|]. split.
  - assert (Hm : forall i, 0 <= i < 4 -> sb4.[i] = sb1.[i]).
    { intros i Hi. rewrite Hi4 by lia. subst sb3 sb2.
      rewrite !write_u32_get by lia. by rewrite !decide_False by lia. }
    unfold bad_magic. rewrite !Hm by lia. subst sb1.
    rewrite !aget_aset_cases by (rewrite ?aset_length; lia). reflexivity.
  - rewrite (read_u32_ext sb3) by (intros; apply Hi4; lia). subst sb3.
    rewrite read_write_u32_eq by (done || lia). by apply u32_small.
Qed.

(** What [persist_and_return] needs of the state. *)
Record persistable s : Prop := {
  pe_sb : zlen (superblock s) = 512;
  pe_sb_bytes : bytes_ok (superblock s);
  pe_dir : zlen (directory s) = 2560;
  pe_dir_bytes : bytes_ok (directory s);
  pe_next : 0 <= next_free_lba s < 4294967296;
  pe_disk : disk_ok (disk s);
}.

(** The disk outside the superblock and the directory is untouched. *)
Definition same_data d d' : Prop :=
  forall a, UFS_DATA_LBA * 512 <= a -> blk_byte d' a = blk_byte d a.

Record persisted s s' : Prop := {
  pd_ready : ufs_ready s' = ufs_ready s;
  pd_dir : directory s' = directory s;
  pd_count : cached_file_count s' = cached_file_count s;
  pd_next : next_free_lba s' = next_free_lba s;
  pd_synced : synced s';
  pd_ok : persistable s';
  pd_data : same_data (disk s) (disk s');
}.

Lemma persist_directory_spec s :
  persistable s ->
  exists d', persist_directory s = (with_disk s d', 0) /\ disk_ok d' /\
    overlaid (disk s) d' (UFS_DIR_LBA * 512) 2560 (directory s).
Proof.
  intros [Hsb Hsbb Hdl Hdb Hn Hd]. unfold persist_directory.
  destruct (write_step (disk s) UFS_DIR_LBA UFS_DIR_SECTORS (directory s)) as (d' & E & Hd' & Ho);
    [done|by ufs_consts|by ufs_consts|by ufs_consts|ufs_consts; lia|done|].
  rewrite E. by exists d'.
Qed.

Lemma persist_superblock_spec s :
  persistable s ->
  exists sb d', persist_superblock s =
      (mk_ufs sb (directory s) (ufs_ready s) (cached_file_count s) (next_free_lba s) d', 0) /\
    disk_ok d' /\ zlen sb = 512 /\ bytes_ok sb /\ bad_magic sb = false /\
    read_u32 sb 8 = next_free_lba s /\
    overlaid (disk s) d' (UFS_SB_LBA * 512) 512 sb.
Proof.
  intros [Hsb Hsbb Hdl Hdb Hn Hd]. unfold persist_superblock.
  destruct (sb_image (superblock s) (cached_file_count s) (next_free_lba s) Hsb Hsbb Hn)
    as (H1 & H2 & H3 & H4).
  set (sb := for_each 12 SECTOR_SIZE _ _) in *.
  destruct (write_step (disk s) UFS_SB_LBA 1 sb) as (d' & E & Hd' & Ho);
    [done|by ufs_consts|lia|by ufs_consts|lia|done|].
  rewrite E. exists sb, d'. split_and!; assumption || reflexivity.
Qed.

Lemma persist_both s :
  persistable s -> exists s',
    (persist_superblock (persist_directory s).1).1 = s' /\
    (persist_directory s).2 = 0 /\ (persist_superblock (persist_directory s).1).2 = 0 /\
    persisted s s'.
Proof.
  intros Hp. destruct (persist_directory_spec s Hp) as (d1 & E1 & Hd1 & Ho1).
  rewrite E1. simpl. destruct Hp as [Hsb Hsbb Hdl Hdb Hn Hd].
  destruct (persist_superblock_spec (with_disk s d1)) as (sb & d2 & E2 & Hd2 & Hl2 & Hb2 & Hm & Hr & Ho2);
    [by split|]. rewrite E2. simpl in *. eexists. do 3 (split; [done|]).
  split; try done; simpl.
  - split; simpl; try done.
    + intros j Hj. rewrite Ho2. rewrite decide_True by lia. f_equal. f_equal. lia.
    + intros j Hj. rewrite Ho2. ufs_consts. rewrite decide_False by lia.
      rewrite Ho1. rewrite decide_True by lia. f_equal. f_equal. lia.
  - intros a Ha. rewrite Ho2, Ho1. ufs_consts. by rewrite !decide_False by lia.
Qed.

Lemma persist_and_return_spec s ok :
  persistable s -> exists s', persist_and_return s ok = (s', ok) /\ persisted s s'.
Proof.
  intros Hp. destruct (persist_both s Hp) as (s' & E & H1 & H2 & H3).
  unfold persist_and_return. destruct (persist_directory s) as [s1 r1]. simpl in *.
  destruct (persist_superblock s1) as [s2 r2]. simpl in *. subst. simpl. by exists s'.
Qed.

(** The invariant of a mounted file system. *)
Record ufs_wf s : Prop := {
  uw_mem : mem_wf s;
  uw_disk : disk_ok (disk s);
  uw_synced : synced s;
}.

Lemma mem_wf_persistable s : mem_wf s -> disk_ok (disk s) -> persistable s.
Proof.
  intros [Hr Hsb Hsbb Hdir Hc Hlay] Hd. split; try done; try apply Hdir.
  destruct (lo_next _ _ Hlay). ufs_consts. lia.
Qed.

Lemma persisted_wf s s' :
  persisted s s' -> mem_wf s -> ufs_wf s'.
Proof.
  intros [Hr Hd Hc Hn Hs Hok _] [Hr0 Hsb Hsbb Hdir Hc0 Hlay]. split; [|apply Hok|done].
  split; try apply Hok; congruence.
Qed.

(** Committing a change of the directory, the counter and the allocation mark. *)
Lemma commit_wf s ok :
  mem_wf s -> disk_ok (disk s) ->
  exists s', persist_and_return s ok = (s', ok) /\ ufs_wf s' /\
    directory s' = directory s /\ next_free_lba s' = next_free_lba s /\
    same_data (disk s) (disk s').
Proof.
  intros Hw Hd. destruct (persist_and_return_spec s ok) as (s' & E & Hp);
    [by apply mem_wf_persistable|].
  exists s'. split; [done|]. split; [by apply (persisted_wf s)|]. destruct Hp. done.
Qed.
End persist.

(** * Changing one entry *)

Section update.
Context {D : Type} {B : BlockDev D} {L : BlockDevLaws D}.
Implicit Types (s : ufs D) (d : D) (nm : list Z) (f g : Z -> dirent).

Lemma disjoint_sym e1 e2 : extents_disjoint e1 e2 -> extents_disjoint e2 e1.
Proof. unfold extents_disjoint. tauto. Qed.

Lemma layout_update f g next next' h :
  layout_ok f next -> 0 <= h < 64 -> (forall j, 0 <= j < 64 -> j <> h -> g j = f j) ->
  next <= next' <= UFS_DATA_END_LBA ->
  (de_used (g h) = true -> extent_ok next' (g h) /\
    forall j, 0 <= j < 64 -> j <> h -> de_used (f j) = true ->
      extents_disjoint (g h) (f j) /\ de_name (g h) <> de_name (f j)) ->
  layout_ok g next'.
Proof.
  intros [Hn He Hd Hnm] Hh Hg Hn' Hgh.
  assert (Hcase : forall i, 0 <= i < 64 -> i = h \/ g i = f i /\ i <> h).
  { intros i Hi. destruct (decide (i = h)); [by left|right]. split; [by apply Hg|done]. }
  split.
  - lia.
  - intros i Hi Hu. destruct (Hcase i Hi) as [-> | [E Hne]]; [by apply Hgh|].
    rewrite E in *. destruct (He i Hi Hu) as (? & ? & Hc). split; [done|]. split; [done|].
    intros Hcap. specialize (Hc Hcap). lia.
  - intros i j Hi Hj Hij Hui Huj.
    destruct (Hcase i Hi) as [-> | [E1 N1]], (Hcase j Hj) as [-> | [E2 N2]]; [done| | |].
    + rewrite E2 in *. by apply Hgh.
    + rewrite E1 in *. apply disjoint_sym. by apply Hgh.
    + rewrite E1, E2 in *. by apply Hd.
  - intros i j Hi Hj Hui Huj Hname.
    destruct (Hcase i Hi) as [-> | [E1 N1]], (Hcase j Hj) as [-> | [E2 N2]]; [done| | |].
    + rewrite E2 in *. exfalso. by apply (Hgh Hui) in Hname.
    + rewrite E1 in *. exfalso. symmetry in Hname. by apply (Hgh Huj) in Hname.
    + rewrite E1, E2 in *. by apply Hnm.
Qed.

Lemma used_count_bounds (dir : list Z) : 0 <= used_count dir <= 64.
Proof. pose proof (count_if_bounds 0 64 (entry_used dir)). unfold used_count. lia. Qed.

Lemma used_count_same (dir dir' : list Z) :
  (forall j, 0 <= j < 64 -> dirent_at dir' j = dirent_at dir j \/ de_used (dirent_at dir' j) = de_used (dirent_at dir j)) ->
  used_count dir' = used_count dir.
Proof.
  intros H. apply count_if_ext. intros k Hk.
  change (de_used (dirent_at dir' k) = de_used (dirent_at dir k)).
  destruct (H k Hk) as [->|]; done.
Qed.

Lemma used_count_flip (dir dir' : list Z) h :
  0 <= h < 64 -> (forall j, 0 <= j < 64 -> j <> h -> dirent_at dir' j = dirent_at dir j) ->
  de_used (dirent_at dir h) = true -> de_used (dirent_at dir' h) = false ->
  used_count dir = used_count dir' + 1.
Proof.
  intros Hh Ho H1 H2. apply (count_if_flip _ _ _ _ h); [done|done|done|].
  intros k Hk Hne. change (de_used (dirent_at dir k) = de_used (dirent_at dir' k)).
  by rewrite Ho.
Qed.

(** The entry [h] of a well-formed state replaced by one with the same name and
    extent. *)
Lemma mem_wf_same_extent s dir' h :
  mem_wf s -> dir_ok dir' -> 0 <= h < 64 ->
  (forall j, 0 <= j < 64 -> j <> h -> dirent_at dir' j = dirent_at (directory s) j) ->
  let e := dirent_at (directory s) h in let e' := dirent_at dir' h in
  de_used e = true -> de_used e' = true -> de_name e' = de_name e -> de_start e' = de_start e ->
  de_cap e' = de_cap e -> de_size e' <= de_cap e' * 512 ->
  mem_wf (with_directory s dir').
Proof.
  intros [Hr Hsb Hsbb Hdir Hc Hlay] Hok Hh Ho e e' Hu Hu' Hn Hs Hcap Hsz.
  split; try done; simpl.
  - rewrite Hc. symmetry. apply used_count_same. intros j Hj.
    destruct (decide (j = h)) as [->|]; [right; fold e e'; congruence|left; by apply Ho].
  - pose proof (lo_next _ _ Hlay).
    apply (layout_update (dirent_at (directory s)) _ (next_free_lba s) _ h); try done; [lia|].
    fold e'. intros _. destruct (lo_extent _ _ Hlay h Hh Hu) as (H1 & H2 & H3). fold e in H1, H2, H3.
    split.
    + split; [congruence|]. split; [done|]. intros. rewrite Hs, Hcap in *. by apply H3.
    + intros j Hj Hjh Huj. pose proof (lo_disjoint _ _ Hlay h j Hh Hj ltac:(done) Hu Huj) as Hdis.
      unfold extents_disjoint in *. fold e in Hdis. rewrite Hs, Hcap, Hn. split; [done|].
      intros E. apply Hjh. symmetry. by apply (lo_names _ _ Hlay).
Qed.

(** Two states hold the same files outside slot [h]. *)
Definition same_others s s' h : Prop :=
  forall j, 0 <= j < 64 -> j <> h -> dirent_at (directory s') j = dirent_at (directory s) j.

(** Byte [k] of the file in slot [h]. *)
Definition ufs_byte s (h k : Z) : Z :=
  blk_byte (disk s) (de_start (dirent_at (directory s) h) * 512 + k).

(** The contents of the file in slot [h]. *)
Definition ufs_content s (h : Z) : list Z :=
  ufs_byte s h <$> seqZ 0 (de_size (dirent_at (directory s) h)).

Lemma dirent_bounds (dir : list Z) i :
  dir_ok dir -> 0 <= i < 64 ->
  0 <= de_start (dirent_at dir i) < 4294967296 /\ 0 <= de_size (dirent_at dir i) < 4294967296 /\
  0 <= de_cap (dirent_at dir i) < 4294967296 /\ 0 <= de_owner (dirent_at dir i) < 4294967296 /\
  0 <= de_perm (dirent_at dir i) < 256.
Proof.
  intros [_ Hb _] Hi. unfold dirent_at; simpl. ufs_consts.
  repeat split; try apply read_u32_bounds; try apply Hb; try done; lia.
Qed.

Lemma content_length s h :
  dir_ok (directory s) -> 0 <= h < 64 ->
  zlen (ufs_content s h) = de_size (dirent_at (directory s) h).
Proof.
  intros Hok Hh. destruct (dirent_bounds (directory s) h Hok Hh) as (_ & ? & _).
  unfold ufs_content, zlen. rewrite length_fmap, length_seqZ. lia.
Qed.

Lemma content_get s h k :
  0 <= k < de_size (dirent_at (directory s) h) -> (ufs_content s h).[k] = ufs_byte s h k.
Proof.
  intros Hk. unfold ufs_content. rewrite list_lookup_total_alt, list_lookup_fmap.
  rewrite lookup_seqZ_lt by lia. simpl. f_equal. lia.
Qed.

(** A used entry's bytes lie in the data area. *)
Lemma content_in_data s h k :
  mem_wf s -> 0 <= h < 64 -> de_used (dirent_at (directory s) h) = true ->
  0 <= k < de_size (dirent_at (directory s) h) ->
  UFS_DATA_LBA * 512 <= de_start (dirent_at (directory s) h) * 512 + k.
Proof.
  intros Hw Hh Hu Hk. destruct (lo_extent _ _ (mw_layout _ Hw) h Hh Hu) as (_ & Hsz & Hext).
  destruct Hext as [? _]; [lia|]. lia.
Qed.

Lemma content_same s s' h :
  mem_wf s -> 0 <= h < 64 -> de_used (dirent_at (directory s) h) = true ->
  de_start (dirent_at (directory s') h) = de_start (dirent_at (directory s) h) ->
  de_size (dirent_at (directory s') h) = de_size (dirent_at (directory s) h) ->
  same_data (disk s) (disk s') -> ufs_content s' h = ufs_content s h.
Proof.
  intros Hw Hh Hu Hst Hsz Hd. unfold ufs_content. rewrite Hsz.
  apply list_fmap_ext. intros n k Hk. apply lookup_seqZ in Hk as [-> Hk].
  unfold ufs_byte. rewrite Hst. apply Hd. apply content_in_data; try done. lia.
Qed.

(** * Lookup *)

Definition named s (i : Z) nm : Prop :=
  0 <= i < 64 /\ de_used (dirent_at (directory s) i) = true /\
  de_name (dirent_at (directory s) i) = cstr nm.

Lemma find_test s i nm :
  mem_wf s -> 0 <= i < 64 ->
  entry_used (directory s) i && str_eq (entry_at (directory s) i) nm = true <-> named s i nm.
Proof.
  intros Hw Hi. rewrite andb_true_iff, str_eq_cstr. unfold named. simpl.
  split.
  - intros [Hu <-]. rewrite entry_at_name by (done || apply Hw). done.
  - intros (_ & Hu & E). split; [done|]. rewrite entry_at_name by (done || apply Hw). done.
Qed.

Lemma named_unique s i j nm : mem_wf s -> named s i nm -> named s j nm -> i = j.
Proof.
  intros Hw (Hi & Hu & E) (Hj & Hu' & E').
  apply (lo_names _ _ (mw_layout _ Hw)); try done. congruence.
Qed.

Lemma ufs_find_named s i nm : mem_wf s -> named s i nm -> ufs_find s nm = i.
Proof.
  intros Hw Hn. unfold ufs_find. rewrite (mw_ready _ Hw). simpl.
  assert (E : find_first 0 UFS_MAX_ENTRIES
    (fun i => entry_used (directory s) i && str_eq (entry_at (directory s) i) nm) = Some i).
  { apply find_first_Some. ufs_consts. split; [apply Hn|]. split; [apply find_test; [done|apply Hn|done]|].
    intros k Hk. apply not_true_iff_false. rewrite find_test by (done || destruct Hn; lia).
    intros Hk'. pose proof (named_unique s k i nm Hw Hk' Hn). lia. }
  by rewrite E.
Qed.

Lemma ufs_find_cases s nm :
  mem_wf s -> (exists i, named s i nm /\ ufs_find s nm = i) \/
              ((forall i, ~ named s i nm) /\ ufs_find s nm = -1).
Proof.
  intros Hw. unfold ufs_find. rewrite (mw_ready _ Hw). simpl.
  pose proof (find_first_spec 0 UFS_MAX_ENTRIES
    (fun i => entry_used (directory s) i && str_eq (entry_at (directory s) i) nm)) as H.
  destruct (find_first _ _ _) as [i|]; simpl; ufs_consts.
  - left. exists i. destruct H as (Hi & Ht & _). apply find_test in Ht; done.
  - right. split; [|done]. intros i Hn. assert (Hi := Hn). destruct Hi as [Hi _].
    apply (find_test s i nm Hw Hi) in Hn. by rewrite H in Hn.
Qed.

Lemma handle_valid_iff s h :
  ufs_ready s = true ->
  handle_valid s h = true <-> 0 <= h < 64 /\ de_used (dirent_at (directory s) h) = true.
Proof.
  intros Hr. unfold handle_valid. rewrite Hr. ufs_consts. simpl.
  rewrite !andb_true_iff, Z.geb_leb, Z.leb_le, Z.ltb_lt. tauto.
Qed.

Lemma handle_invalid s h :
  ufs_ready s = true -> handle_valid s h = false ->
  ~ (0 <= h < 64 /\ de_used (dirent_at (directory s) h) = true).
Proof. intros Hr H Hn. apply (handle_valid_iff s h Hr) in Hn. congruence. Qed.
End update.
