(* ===== verification/UfsSpec.v ===== *)
(** What each operation of [kernel/core/ufs.c] does to a mounted file system: the
    directory, the files' contents, the disk, and what survives a remount. *)
From S2P Require Import Prelude CString Blk Ufs.

(** Project the fields of updated states. *)
Ltac ufs_proj :=
  cbn [with_directory with_count with_next with_disk superblock directory ufs_ready
       cached_file_count next_free_lba disk] in *.

Section ops.
Context {D : Type} {B : BlockDev D} {L : BlockDevLaws D}.
Implicit Types (s : ufs D) (d : D) (nm buf : list Z).

(** * Creation and deletion *)

Definition create_fails s nm : Prop :=
  cstr nm = [] \/ 20 <= zlen (cstr nm) \/ (exists i, named s i nm) \/
  (forall i, 0 <= i < 64 -> de_used (dirent_at (directory s) i) = true).

(** [r] is the outcome of creating [nm] for [owner] in [s]. *)
Definition create_outcome s nm (owner : Z) (r : ufs D * Z) : Prop :=
  (create_fails s nm /\ r = (s, -1)) \/
  (~ create_fails s nm /\ exists s' slot, r = (s', slot) /\ 0 <= slot < 64 /\
     de_used (dirent_at (directory s) slot) = false /\ ufs_wf s' /\
     dirent_at (directory s') slot = mk_dirent true (cstr nm) 0 0 0 (u32 owner) 0 /\
     same_others s s' slot /\ same_data (disk s) (disk s') /\
     next_free_lba s' = next_free_lba s /\ ufs_find s' nm = slot).

Lemma create_fails_early s nm :
  mem_wf s ->
  ((str_len nm =? 0) || (str_len nm >=? UFS_NAME_MAX)) = true \/ (ufs_find s nm >=? 0) = true ->
  create_fails s nm.
Proof.
  intros Hw [H|H].
  - apply orb_true_iff in H. rewrite str_len_cstr in H. ufs_consts. unfold create_fails.
    destruct H as [H|H]; bool_prop; [left|right; left; lia].
    destruct (cstr nm); [done|]. unfold zlen in H. simpl in H. lia.
  - destruct (ufs_find_cases s nm Hw) as [(i & Hi & _)|[_ E]]; [right; right; left; by exists i|].
    by rewrite E in H.
Qed.

Lemma init_entry_wf s nm owner slot :
  mem_wf s -> bytes_ok nm -> 0 < zlen (cstr nm) < 20 -> (forall i, ~ named s i nm) ->
  0 <= slot < 64 -> de_used (dirent_at (directory s) slot) = false ->
  mem_wf (with_count (with_directory s (init_entry (directory s) (entry_off slot) nm owner))
            (cached_file_count s +32 1)).
Proof.
  intros Hw Hnm Hlen Hno Hslot Hfree.
  destruct (init_entry_spec (directory s) slot nm owner (mw_dir _ Hw) Hnm Hslot Hlen)
    as (Hok & Hent & Hoth). destruct Hw as [Hr Hsb Hsbb Hdir Hc Hlay].
  split; try done; simpl.
  - rewrite Hc. pose proof (used_count_bounds (directory s)).
    rewrite u32_small by lia. symmetry. apply (used_count_flip _ _ slot); try done.
    + intros j Hj Hne. symmetry. by apply Hoth.
    + by rewrite Hent.
  - pose proof (lo_next _ _ Hlay).
    apply (layout_update (dirent_at (directory s)) _ (next_free_lba s) _ slot); try done; try lia.
    rewrite Hent. intros _. split.
    + split; simpl; [|lia]. intros E. rewrite E in Hlen. unfold zlen in Hlen. simpl in Hlen. lia.
    + intros j Hj Hne Hu. split; [by left|]. simpl. intros E. by apply (Hno j).
Qed.

Lemma ufs_create_spec s nm owner :
  ufs_wf s -> bytes_ok nm -> create_outcome s nm owner (ufs_create s nm owner).
Proof.
  intros [Hw Hd Hsy] Hnm. unfold ufs_create, create_outcome. rewrite (mw_ready _ Hw). cbn [negb].
  destruct (_ || _) eqn:E1; [left; split; [apply create_fails_early; auto|done]|].
  destruct (ufs_find s nm >=? 0) eqn:E2; [left; split; [apply create_fails_early; auto|done]|].
  bool_prop. rewrite str_len_cstr in *. ufs_consts.
  destruct (ufs_find_cases s nm Hw) as [(i & [Hi _] & Ei)|[Hno _]]; [lia|].
  pose proof (find_first_spec 0 64 (fun i => negb (entry_used (directory s) i))) as Hf.
  destruct (find_first _ _ _) as [slot|]; cycle 1.
  { left. split; [|done]. right; right; right. intros i Hi. specialize (Hf i Hi).
    by apply negb_false_iff in Hf. }
  destruct Hf as (Hslot & Hfree & _). apply negb_true_iff in Hfree.
  assert (Hlen : 0 < zlen (cstr nm) < 20) by (pose proof (zlen_nonneg (cstr nm)); lia).
  right. split.
  { intros [E|[E|[(i & Hi)|E]]].
    - rewrite E in Hlen. unfold zlen in Hlen. simpl in Hlen. lia.
    - lia.
    - by apply (Hno i).
    - specialize (E slot Hslot). simpl in E. congruence. }
  pose proof (init_entry_wf s nm owner slot Hw Hnm Hlen Hno Hslot Hfree) as Hw1.
  destruct (init_entry_spec (directory s) slot nm owner (mw_dir _ Hw) Hnm Hslot Hlen)
    as (_ & Hent & Hoth).
  destruct (commit_wf _ slot Hw1 Hd) as (s' & E & Hw' & Hdir' & Hnext & Hdata).
  ufs_consts. exists s', slot. simpl in *. rewrite <- Hdir' in Hent. split_and!; try done; try lia.
  - intros j Hj Hne. rewrite Hdir'. by apply Hoth.
  - apply ufs_find_named; [apply Hw'|]. split; [done|]. by rewrite Hent.
Qed.

(** [r] is the outcome of deleting [nm]. *)
Definition delete_outcome s nm (r : ufs D * Z) : Prop :=
  ((forall i, ~ named s i nm) /\ r = (s, -1)) \/
  exists s' h, r = (s', 0) /\ named s h nm /\ ufs_wf s' /\
    de_used (dirent_at (directory s') h) = false /\ same_others s s' h /\
    same_data (disk s) (disk s') /\ ufs_find s' nm = -1.

Lemma clear_entry_wf s h :
  mem_wf s -> 0 <= h < 64 -> de_used (dirent_at (directory s) h) = true ->
  let s1 := with_directory s ((directory s).[entry_off h <- 0]) in
  mem_wf (with_count s1 (cached_file_count s1 -32 1)) /\
  de_used (dirent_at (directory s1) h) = false /\ same_others s s1 h.
Proof.
  intros Hw Hh Hu s1. pose proof (mw_dir _ Hw) as Hdir.
  assert (Hoth : same_others s s1 h).
  { intros j Hj Hne. subst s1; simpl. replace (entry_off h) with (entry_off h + 0) by lia.
    apply set_byte_other; try done; try apply Hdir; lia. }
  assert (Hclear : de_used (dirent_at (directory s1) h) = false).
  { subst s1; simpl. unfold entry_used. rewrite aget_aset_eq; [done|].
    rewrite (dir_len _ Hdir). ufs_consts. lia. }
  split; [|done]. destruct Hw as [Hr Hsb Hsbb _ Hc Hlay]. split; try done; simpl.
  - by apply clear_entry_ok.
  - rewrite Hc. rewrite (used_count_flip (directory s) (directory s1) h) by done.
    pose proof (used_count_bounds (directory s1)). rewrite u32_small by lia.
    subst s1; simpl. lia.
  - pose proof (lo_next _ _ Hlay).
    apply (layout_update (dirent_at (directory s)) _ (next_free_lba s) _ h); try done; try lia.
    intros E. subst s1; simpl in *. congruence.
Qed.

Lemma ufs_delete_spec s nm : ufs_wf s -> delete_outcome s nm (ufs_delete s nm).
Proof.
  intros [Hw Hd Hsy]. unfold ufs_delete, delete_outcome. rewrite (mw_ready _ Hw). cbn [negb].
  destruct (ufs_find_cases s nm Hw) as [(h & Hn & E)|[Hno E]]; rewrite E; [|by left].
  assert (Hn0 := Hn). destruct Hn0 as (Hh & Hu & Hname).
  replace (h <? 0) with false by lia.
  destruct (clear_entry_wf s h Hw Hh Hu) as (Hw1 & Hfree & Hoth).
  destruct (commit_wf _ 0 Hw1 Hd) as (s' & E' & Hw' & Hdir' & _ & Hdata).
  right. exists s', h. ufs_proj. split_and!; try done.
  - by rewrite Hdir'.
  - intros j Hj Hne. rewrite Hdir'. by apply Hoth.
  - destruct (ufs_find_cases s' nm (uw_mem _ Hw')) as [(i & (Hi & Hui & Hni) & _)|[_ ?]]; [|done].
    rewrite Hdir' in *. destruct (decide (i = h)) as [->|Hne]; [congruence|].
    rewrite Hoth in * by done. exfalso. apply Hne. apply (lo_names _ _ (mw_layout _ Hw)); try done; congruence.
Qed.

(** * Permission and size *)

(** The entry of a valid handle rewritten with the same name and extent. *)
Lemma same_extent_commit s dir' h ok :
  ufs_wf s -> dir_ok dir' -> 0 <= h < 64 ->
  (forall j, 0 <= j < 64 -> j <> h -> dirent_at dir' j = dirent_at (directory s) j) ->
  let e := dirent_at (directory s) h in let e' := dirent_at dir' h in
  de_used e = true -> de_used e' = true -> de_name e' = de_name e -> de_start e' = de_start e ->
  de_cap e' = de_cap e -> de_size e' <= de_cap e' * 512 ->
  exists s', persist_and_return (with_directory s dir') ok = (s', ok) /\ ufs_wf s' /\
    directory s' = dir' /\ next_free_lba s' = next_free_lba s /\ same_data (disk s) (disk s').
Proof.
  intros [Hw Hd Hsy] Hok Hh Ho e e' ??????.
  pose proof (mem_wf_same_extent s dir' h Hw Hok Hh Ho) as Hw1.
  destruct (commit_wf (with_directory s dir') ok) as (s' & E & Hw' & Hdir' & Hn' & Hdata); [by apply Hw1|done|].
  by exists s'.
Qed.

Definition chmod_outcome s (h p : Z) (r : ufs D * Z) : Prop :=
  (handle_valid s h = false /\ r = (s, -1)) \/
  exists s', r = (s', 0) /\ handle_valid s h = true /\ ufs_wf s' /\ ufs_perm s' h = p /\
    (let e := dirent_at (directory s) h in dirent_at (directory s') h =
       mk_dirent true (de_name e) (de_start e) (de_size e) (de_cap e) (de_owner e) p) /\
    next_free_lba s' = next_free_lba s /\ same_others s s' h /\
    (forall j, 0 <= j < 64 -> de_used (dirent_at (directory s) j) = true ->
       ufs_content s' j = ufs_content s j).

Lemma ufs_chmod_spec s h p : ufs_wf s -> 0 <= p < 256 -> chmod_outcome s h p (ufs_chmod s h p).
Proof.
  intros Hw Hp. unfold ufs_chmod, chmod_outcome. pose proof (mw_ready _ (uw_mem _ Hw)) as Hr.
  destruct (handle_valid s h) eqn:E; [|by left]. right. cbn [negb].
  apply handle_valid_iff in E as Hv; [|done]. destruct Hv as [Hh Hu].
  pose proof (mw_dir _ (uw_mem _ Hw)) as Hdir.
  pose proof (dirent_set_perm (directory s) h p Hdir Hh) as Hent. cbv zeta in Hent. rewrite Hu in Hent.
  set (dir' := (directory s).[entry_off h + UFS_OFF_PERM <- p]) in *.
  assert (Hoth : forall j, 0 <= j < 64 -> j <> h -> dirent_at dir' j = dirent_at (directory s) j).
  { intros. apply set_byte_other; try done; try apply Hdir; unfold UFS_OFF_PERM; lia. }
  destruct (lo_extent _ _ (mw_layout _ (uw_mem _ Hw)) h Hh Hu) as (_ & Hsz & _).
  destruct (same_extent_commit s dir' h 0 Hw) as (s' & E' & Hw' & Hdir' & Hn' & Hdata);
    try done; try (by apply set_perm_ok); try (by rewrite Hent).
  assert (Hv' : handle_valid s' h = true).
  { apply handle_valid_iff; [apply Hw'|]. rewrite Hdir', Hent. done. }
  exists s'. split; [done|]. split; [done|]. split; [done|]. split.
  { unfold ufs_perm. rewrite Hv', Hdir'. simpl. by apply (f_equal de_perm) in Hent. }
  split; [by rewrite Hdir', Hent|]. split; [done|]. split.
  - intros j Hj Hne. rewrite Hdir'. by apply Hoth.
  - intros j Hj Huj. apply content_same; try done; [apply Hw|..]; rewrite Hdir';
      (destruct (decide (j = h)) as [->|]; [by rewrite Hent|by rewrite Hoth]).
Qed.

Definition truncate_outcome s (h new_size : Z) (r : ufs D * Z) : Prop :=
  (r = (s, -1) /\ (handle_valid s h = false \/ de_cap (dirent_at (directory s) h) * 512 < new_size)) \/
  exists s', r = (s', 0) /\ handle_valid s h = true /\ ufs_wf s' /\
    (let e := dirent_at (directory s) h in dirent_at (directory s') h =
       mk_dirent true (de_name e) (de_start e) new_size (de_cap e) (de_owner e) (de_perm e)) /\
    next_free_lba s' = next_free_lba s /\ same_others s s' h /\ same_data (disk s) (disk s') /\
    (new_size <= ufs_size s h -> ufs_content s' h = take (Z.to_nat new_size) (ufs_content s h)) /\
    (forall j, 0 <= j < 64 -> j <> h -> de_used (dirent_at (directory s) j) = true ->
       ufs_content s' j = ufs_content s j).

Lemma content_take s s' h n :
  mem_wf s -> 0 <= h < 64 -> de_used (dirent_at (directory s) h) = true ->
  de_start (dirent_at (directory s') h) = de_start (dirent_at (directory s) h) ->
  de_size (dirent_at (directory s') h) = n -> 0 <= n <= de_size (dirent_at (directory s) h) ->
  same_data (disk s) (disk s') -> ufs_content s' h = take (Z.to_nat n) (ufs_content s h).
Proof.
  intros Hw Hh Hu Hst Hsz Hn Hd. unfold ufs_content. rewrite Hsz, <- fmap_take.
  replace (take (Z.to_nat n) (seqZ 0 (de_size (dirent_at (directory s) h)))) with (seqZ 0 n).
  - apply list_fmap_ext. intros i k Hk. apply lookup_seqZ in Hk as [-> Hk].
    unfold ufs_byte. rewrite Hst. apply Hd. apply content_in_data; try done. lia.
  - set (m := de_size (dirent_at (directory s) h)) in *. replace m with (n + (m - n)) by lia.
    rewrite seqZ_app by lia. rewrite take_app_length'; [done|]. by rewrite length_seqZ.
Qed.

Lemma ufs_truncate_spec s h n :
  ufs_wf s -> 0 <= n < 4294967296 -> truncate_outcome s h n (ufs_truncate s h n).
Proof.
  intros Hw Hn. unfold ufs_truncate, truncate_outcome. pose proof (mw_ready _ (uw_mem _ Hw)) as Hr.
  destruct (handle_valid s h) eqn:E; [|left; auto]. cbn [negb].
  apply handle_valid_iff in E as Hv; [|done]. destruct Hv as [Hh Hu].
  pose proof (mw_dir _ (uw_mem _ Hw)) as Hdir.
  change (read_u32 (directory s) (entry_off h + UFS_OFF_CAPACITY))
    with (de_cap (dirent_at (directory s) h)).
  destruct (lo_extent _ _ (mw_layout _ (uw_mem _ Hw)) h Hh Hu) as (_ & Hsz & Hext).
  destruct (dirent_bounds (directory s) h Hdir Hh) as (Hb1 & Hb2 & Hb3 & _).
  assert (Hcap : de_cap (dirent_at (directory s) h) <= 8192).
  { destruct (decide (0 < de_cap (dirent_at (directory s) h))); [|lia].
    pose proof (lo_next _ _ (mw_layout _ (uw_mem _ Hw))). ufs_consts. lia. }
  unfold SECTOR_SIZE. rewrite u32_small by lia. split_if; [left; split; [done|right; lia]|right].
  pose proof (dirent_set_size (directory s) h n Hdir Hh) as Hent. cbv zeta in Hent.
  rewrite (u32_small n), Hu in Hent by done.
  set (dir' := write_u32 (directory s) (entry_off h + UFS_OFF_SIZE) n) in *.
  assert (Hoth : forall j, 0 <= j < 64 -> j <> h -> dirent_at dir' j = dirent_at (directory s) j).
  { intros. apply write_field_other; try done; try apply Hdir; unfold UFS_OFF_SIZE; lia. }
  destruct (same_extent_commit s dir' h 0 Hw) as (s' & E' & Hw' & Hdir' & Hn' & Hdata);
    try done; try (apply write_field_ok; try done; unfold UFS_OFF_SIZE; lia); try (by rewrite Hent).
  assert (Hsize : forall s, handle_valid s h = true -> ufs_size s h = de_size (dirent_at (directory s) h))
    by (unfold ufs_size; intros ? ->; done).
  assert (Hv' : handle_valid s' h = true).
  { apply handle_valid_iff; [apply Hw'|]. rewrite Hdir', Hent. done. }
  exists s'. split; [done|]. split; [done|]. split; [done|].
  split; [by rewrite Hdir', Hent|]. split; [done|]. split.
  { intros j Hj Hne. rewrite Hdir'. by apply Hoth. }
  split; [done|]. split.
  - intros Hle. rewrite Hsize in Hle by done. apply content_take; try done; try exact (uw_mem _ Hw);
      try (by rewrite Hdir', Hent). lia.
  - intros j Hj Hne Huj. apply content_same; try done; try exact (uw_mem _ Hw); by rewrite Hdir', Hoth.
Qed.

(** * Growth *)

Lemma sectors_for_bytes_eq n :
  0 <= n <= 4294966784 -> sectors_for_bytes n = (n + 511) / 512.
Proof.
  intros Hn. unfold sectors_for_bytes, SECTOR_SIZE, u32. rewrite Zminus_mod_idemp_l.
  replace (n + 512 - 1) with (n + 511) by lia. by rewrite Z.mod_small by lia.
Qed.

(** The capacity [ensure_capacity] settles on. *)
Lemma grow_capacity cap needed :
  0 <= cap <= 8192 -> cap * 512 < needed <= 4294966784 ->
  exists c, double_until 33 (sectors_for_bytes needed) (if cap =? 0 then 1 else cap) = Some c /\
    needed <= c * 512 /\ 1 <= c /\ cap <= c /\ c <= 2 * ((needed + 511) / 512).
Proof.
  intros Hcap Hn. rewrite sectors_for_bytes_eq by lia.
  pose proof (Z.div_mod (needed + 511) 512 ltac:(lia)).
  pose proof (Z.mod_pos_bound (needed + 511) 512 ltac:(lia)).
  set (ns := (needed + 511) / 512) in *. set (c0 := if cap =? 0 then 1 else cap).
  assert (Hc0 : 1 <= c0 <= 8192 /\ cap <= c0) by (subst c0; split_if; lia).
  destruct (double_until_total ns c0) as (c & E & H1 & H2 & H3 & H4); [lia|lia|].
  exists c. split; [done|]. repeat split; try lia.
  destruct (decide (c0 < ns)); [lia|]. rewrite H4 by lia. subst c0. split_if; lia.
Qed.

(** A disk that differs from [s]'s only from [next_free_lba] on, up to the copy
    of file [h] at [new_start]. *)
Definition ensure_outcome s (h needed : Z) (r : ufs D * Z) : Prop :=
  (r = (s, -1) /\ UFS_DATA_END_LBA < next_free_lba s + 2 * ((needed + 511) / 512)) \/
  exists s', r = (s', 0) /\ ufs_wf s' /\
    (let e := dirent_at (directory s) h in let e' := dirent_at (directory s') h in
     e' = mk_dirent true (de_name e) (de_start e') (de_size e) (de_cap e') (de_owner e) (de_perm e) /\
     needed <= de_cap e' * 512) /\
    same_others s s' h /\
    (forall j, 0 <= j < 64 -> de_used (dirent_at (directory s) j) = true ->
       ufs_content s' j = ufs_content s j).

Lemma cap_bound s h :
  mem_wf s -> 0 <= h < 64 -> de_used (dirent_at (directory s) h) = true ->
  let e := dirent_at (directory s) h in
  0 <= de_size e /\ 0 <= de_cap e <= 8192 /\ de_size e <= de_cap e * 512 /\ 0 <= de_start e /\
  (0 < de_cap e -> UFS_DATA_LBA <= de_start e /\ de_start e + de_cap e <= next_free_lba s).
Proof.
  intros Hw Hh Hu e. destruct (lo_extent _ _ (mw_layout _ Hw) h Hh Hu) as (_ & Hsz & Hext).
  fold e in Hsz, Hext. destruct (dirent_bounds (directory s) h (mw_dir _ Hw) Hh) as (? & ? & ? & _).
  fold e in H, H0, H1. pose proof (lo_next _ _ (mw_layout _ Hw)). ufs_consts.
  repeat split; lia.
Qed.

Lemma dirent_used_eta e :
  de_used e = true ->
  mk_dirent true (de_name e) (de_start e) (de_size e) (de_cap e) (de_owner e) (de_perm e) = e.
Proof. destruct e. simpl. by intros ->. Qed.

(** The optional move of [ensure_capacity]. *)
Lemma maybe_move_spec s h c :
  ufs_wf s -> 0 <= h < 64 -> de_used (dirent_at (directory s) h) = true ->
  de_cap (dirent_at (directory s) h) <= c -> next_free_lba s + c <= UFS_DATA_END_LBA ->
  let e := dirent_at (directory s) h in
  exists d', (if de_size e >? 0
              then move_sectors (disk s) (de_start e) (next_free_lba s) (sectors_for_bytes (de_size e))
              else Some (disk s, 0)) = Some (d', 0) /\ disk_ok d' /\
    (forall a, a < next_free_lba s * 512 -> blk_byte d' a = blk_byte (disk s) a) /\
    (forall k, 0 <= k < de_size e ->
       blk_byte d' (next_free_lba s * 512 + k) = blk_byte (disk s) (de_start e * 512 + k)).
Proof.
  intros [Hw Hd _] Hh Hu Hc Hn e. destruct (cap_bound s h Hw Hh Hu) as (H1 & H2 & H3 & H4 & H5).
  fold e in H1, H2, H3, H4, H5, Hc. destruct (de_size e >? 0) eqn:E; bool_prop.
  2: { exists (disk s). split_and!; try done. intros. lia. }
  specialize (H5 ltac:(lia)). rewrite sectors_for_bytes_eq by lia.
  pose proof (Z.div_mod (de_size e + 511) 512 ltac:(lia)).
  pose proof (Z.mod_pos_bound (de_size e + 511) 512 ltac:(lia)).
  set (n := (de_size e + 511) / 512) in *. ufs_consts.
  destruct (move_sectors_spec (disk s) (de_start e) (next_free_lba s) n)
    as (d' & E1 & Hd' & Ha); try done; try lia.
  { change UFS_DATA_END_LBA with 16390. lia. }
  exists d'. split; [done|]. split; [done|]. split.
  - intros a Hlt. rewrite Ha. by rewrite decide_False by lia.
  - intros k Hk. rewrite Ha. rewrite decide_True by lia. f_equal. lia.
Qed.

(** The directory after a move of file [h] to [st] with capacity [c]. *)
Lemma relocate_entry s h st c :
  mem_wf s -> 0 <= h < 64 -> de_used (dirent_at (directory s) h) = true ->
  0 <= st < 4294967296 -> 0 <= c < 4294967296 ->
  let e := dirent_at (directory s) h in
  let dir' := write_u32 (write_u32 (directory s) (entry_off h + UFS_OFF_START_LBA) st)
                (entry_off h + UFS_OFF_CAPACITY) c in
  dir_ok dir' /\
  dirent_at dir' h = mk_dirent true (de_name e) st (de_size e) c (de_owner e) (de_perm e) /\
  (forall j, 0 <= j < 64 -> j <> h -> dirent_at dir' j = dirent_at (directory s) j).
Proof.
  intros Hw Hh Hu Hst Hc e dir'. pose proof (mw_dir _ Hw) as Hdir.
  pose proof (write_field_ok (directory s) h UFS_OFF_START_LBA st Hdir Hh ltac:(ufs_consts; lia)) as Hok1.
  split_and!.
  - apply write_field_ok; try done; unfold UFS_OFF_CAPACITY; lia.
  - subst dir'. rewrite dirent_set_cap, dirent_set_start by done. ufs_proj.
    cbn [de_used de_name de_start de_size de_cap de_owner de_perm].
    rewrite !u32_small by lia. fold e. unfold e in Hu |- *. by rewrite Hu.
  - intros j Hj Hne. subst dir'.
    rewrite write_field_other; try done; try apply Hok1; try (unfold UFS_OFF_CAPACITY; lia).
    apply write_field_other; try done; try apply Hdir; unfold UFS_OFF_START_LBA; lia.
Qed.

Lemma ensure_capacity_spec s h needed :
  ufs_wf s -> handle_valid s h = true -> 0 <= needed <= 4294966784 ->
  exists r, ensure_capacity s h needed = Some r /\ ensure_outcome s h needed r.
Proof.
  intros Hwf Hv Hneed. pose proof Hwf as [Hw Hd Hsy].
  apply handle_valid_iff in Hv as [Hh Hu]; [|apply Hw].
  destruct (cap_bound s h Hw Hh Hu) as (H1 & H2 & H3 & H4 & H5).
  pose proof (lo_next _ _ (mw_layout _ Hw)) as Hnext.
  unfold ensure_capacity, ensure_outcome.
  change (read_u32 (directory s) (entry_off h + UFS_OFF_CAPACITY)) with (de_cap (dirent_at (directory s) h)).
  change (read_u32 (directory s) (entry_off h + UFS_OFF_SIZE)) with (de_size (dirent_at (directory s) h)).
  change (read_u32 (directory s) (entry_off h + UFS_OFF_START_LBA)) with (de_start (dirent_at (directory s) h)).
  set (e := dirent_at (directory s) h) in *.
  unfold SECTOR_SIZE at 1. rewrite (u32_small (de_cap e * 512)) by lia.
  destruct (needed <=? de_cap e * 512) eqn:E1; bool_prop.
  { eexists. split; [done|]. right. exists s. split_and!; try done.
    symmetry. by apply dirent_used_eta. }
  destruct (grow_capacity (de_cap e) needed) as (c & Ec & Hc1 & Hc2 & Hc3 & Hc4); [lia|lia|].
  rewrite Ec. cbn [mbind option_bind]. ufs_consts.
  rewrite (u32_small (next_free_lba s + c)) by (div_lia).
  destruct (next_free_lba s + c >? 16390) eqn:E2; bool_prop.
  { eexists. split; [done|]. left. split; [done|]. lia. }
  destruct (maybe_move_spec s h c Hwf Hh Hu Hc3 ltac:(ufs_consts; lia)) as (d' & Em & Hd' & Hold & Hmoved).
  fold e in Em, Hmoved. rewrite Em. cbn [mbind option_bind negb Z.eqb].
  destruct (relocate_entry s h (next_free_lba s) c Hw Hh Hu ltac:(lia) ltac:(lia)) as (Hok & Hent & Hoth).
  ufs_consts. fold e in Hent. ufs_proj. set (dir' := write_u32 (write_u32 _ _ _) _ _) in *.
  rewrite (u32_small (next_free_lba s + c)) by lia.
  assert (Hw1 : mem_wf (with_next (with_directory (with_disk s d') dir') (next_free_lba s + c))).
  { destruct Hw as [Hr Hsb Hsbb Hdir Hcnt Hlay]. split; try done; ufs_proj.
    - rewrite Hcnt. symmetry. apply used_count_same. intros j Hj.
      destruct (decide (j = h)) as [->|]; [right|left; by apply Hoth]. by rewrite Hent, <- Hu.
    - apply (layout_update (dirent_at (directory s)) _ (next_free_lba s) _ h); try done; try (ufs_consts; lia).
      rewrite Hent. intros _. unfold extent_ok, extents_disjoint. cbn [de_name de_size de_cap de_start].
      destruct (lo_extent _ _ Hlay h Hh Hu) as (Hnm & _ & _). split.
      + split; [done|]. split; [fold e; lia|]. ufs_consts. lia.
      + intros j Hj Hne Huj. split.
        * destruct (lo_extent _ _ Hlay j Hj Huj) as (_ & _ & Hxj).
          destruct (dirent_bounds (directory s) j Hdir Hj) as (_ & _ & Hcj & _).
          destruct (decide (de_cap (dirent_at (directory s) j) = 0)); [by right; left|].
          right; right; right. lia.
        * intros E. apply Hne. symmetry. by apply (lo_names _ _ Hlay). }
  destruct (commit_wf _ 0 Hw1 Hd') as (s' & E & Hw' & Hdir' & _ & Hdata). ufs_proj.
  eexists. split; [by rewrite E|]. right. exists s'. split; [done|]. split; [done|]. rewrite Hdir', Hent.
  cbn [de_name de_start de_size de_cap de_owner de_perm]. split_and!; try done.
  - intros j Hj Hne. rewrite Hdir'. by apply Hoth.
  - intros j Hj Huj. unfold ufs_content. rewrite Hdir'.
    assert (Hsame : de_size (dirent_at dir' j) = de_size (dirent_at (directory s) j))
      by (destruct (decide (j = h)) as [->|]; [by rewrite Hent|by rewrite Hoth]).
    rewrite Hsame. apply list_fmap_ext. intros i k Hk. apply lookup_seqZ in Hk as [-> Hk].
    unfold ufs_byte. rewrite Hdir'. destruct (cap_bound s j Hw Hj Huj) as (J1 & J2 & J3 & J4 & J5).
    destruct (decide (j = h)) as [->|Hne].
    + rewrite Hent. cbn [de_start]. rewrite Hdata by (ufs_consts; lia). apply Hmoved. fold e in Hk. lia.
    + rewrite Hoth by done. rewrite Hdata by (ufs_consts; lia). apply Hold. lia.
Qed.

(** * Writing and reading *)

(** The contents of file [h] in [s'] are those in [s] with [buf] laid over
    [offset, offset + len); bytes of a gap before [offset] are not constrained. *)
Definition content_overlaid s s' (h offset : Z) buf (len : Z) : Prop :=
  zlen (ufs_content s' h) = Z.max (zlen (ufs_content s h)) (offset + len) /\
  forall k, 0 <= k < zlen (ufs_content s' h) ->
    (offset <= k < offset + len -> (ufs_content s' h).[k] = buf.[k - offset]) /\
    (k < zlen (ufs_content s h) -> ~ (offset <= k < offset + len) ->
       (ufs_content s' h).[k] = (ufs_content s h).[k]).

Definition same_identity (e e' : dirent) : Prop :=
  de_used e' = de_used e /\ de_name e' = de_name e /\ de_owner e' = de_owner e /\
  de_perm e' = de_perm e.

(** [r] is the outcome of writing [len] bytes of [buf] at [offset] of handle [h]. *)
Definition write_outcome s (h offset : Z) buf (len : Z) (r : ufs D * Z) : Prop :=
  (r = (s, -1) /\
   (handle_valid s h = false \/ 4294967296 <= offset + len \/
    UFS_DATA_END_LBA < next_free_lba s + 2 * ((offset + len + 511) / 512))) \/
  exists s', r = (s', len) /\ handle_valid s h = true /\ ufs_wf s' /\
    content_overlaid s s' h offset buf len /\
    same_identity (dirent_at (directory s) h) (dirent_at (directory s') h) /\
    same_others s s' h /\
    (forall j, 0 <= j < 64 -> j <> h -> de_used (dirent_at (directory s) j) = true ->
       ufs_content s' j = ufs_content s j).

(** Two extents that do not meet, seen from the bytes of a file. *)
Lemma other_bytes_apart s h j k a n :
  mem_wf s -> 0 <= h < 64 -> 0 <= j < 64 -> j <> h ->
  de_used (dirent_at (directory s) h) = true -> de_used (dirent_at (directory s) j) = true ->
  0 <= a -> 0 <= n -> a + n <= de_cap (dirent_at (directory s) h) * 512 ->
  0 <= k < de_size (dirent_at (directory s) j) ->
  ~ (de_start (dirent_at (directory s) h) * 512 + a <=
     de_start (dirent_at (directory s) j) * 512 + k <
     de_start (dirent_at (directory s) h) * 512 + a + n).
Proof.
  intros Hw Hh Hj Hne Hu Huj Ha Hn Hc Hk.
  destruct (cap_bound s h Hw Hh Hu) as (_ & H2 & H3 & _ & _).
  destruct (cap_bound s j Hw Hj Huj) as (_ & J2 & J3 & _ & _).
  pose proof (lo_disjoint _ _ (mw_layout _ Hw) h j Hh Hj ltac:(done) Hu Huj) as Hd.
  unfold extents_disjoint in Hd. lia.
Qed.

(** The data loop and the size update, once the capacity is there. *)
Lemma write_in_capacity s h offset buf len :
  ufs_wf s -> bytes_ok buf -> 0 <= h < 64 -> de_used (dirent_at (directory s) h) = true ->
  0 <= offset -> 0 <= len -> offset + len <= de_cap (dirent_at (directory s) h) * 512 ->
  let e := dirent_at (directory s) h in
  exists d', write_sectors (disk s) (de_start e) offset buf len = Some (d', 0) /\
    exists s', (if offset + len >? de_size e
                then persist_and_return (with_directory (with_disk s d')
                       (write_u32 (directory s) (entry_off h + UFS_OFF_SIZE) (offset + len))) len
                else (with_disk s d', len)) = (s', len) /\ ufs_wf s' /\
      dirent_at (directory s') h = mk_dirent true (de_name e) (de_start e)
        (Z.max (de_size e) (offset + len)) (de_cap e) (de_owner e) (de_perm e) /\
      same_others s s' h /\
      (forall a, UFS_DATA_LBA * 512 <= a -> blk_byte (disk s') a =
         if decide (de_start e * 512 + offset <= a < de_start e * 512 + offset + len)
         then buf.[a - (de_start e * 512 + offset)] else blk_byte (disk s) a).
Proof.
  intros Hwf Hbuf Hh Hu Ho Hl Hcap e. pose proof Hwf as [Hw Hd Hsy].
  destruct (cap_bound s h Hw Hh Hu) as (H1 & H2 & H3 & H4 & H5). fold e in H1, H2, H3, H4, H5, Hcap.
  pose proof (lo_next _ _ (mw_layout _ Hw)) as Hnext. ufs_consts.
  destruct (write_sectors_spec (disk s) (de_start e) offset buf len) as (d' & E & Hd' & Hov); try done.
  { change UFS_DATA_END_LBA with 16390. intros. specialize (H5 ltac:(lia)). lia. }
  exists d'. split; [done|].
  assert (Hlow : forall a, a < 8198 * 512 -> blk_byte d' a = blk_byte (disk s) a).
  { intros a Ha. rewrite Hov. rewrite decide_False; [done|].
    intros Hin. specialize (H5 ltac:(lia)). lia. }
  assert (Hwf1 : ufs_wf (with_disk s d')).
  { split; [by destruct Hw|done|]. destruct Hsy as [S1 S2 S3 S4]. ufs_consts.
    split; ufs_proj; try done; intros j Hj; ufs_consts; rewrite Hlow by lia; by auto. }
  destruct (offset + len >? de_size e) eqn:Eg; bool_prop.
  - pose proof (mw_dir _ Hw) as Hdir.
    pose proof (dirent_set_size (directory s) h (offset + len) Hdir Hh) as Hent. cbv zeta in Hent.
    rewrite (u32_small (offset + len)), Hu in Hent by lia. fold e in Hent. ufs_consts.
    set (dir' := write_u32 (directory s) (h * 40 + 24) (offset + len)) in *.
    assert (Hoth : forall j, 0 <= j < 64 -> j <> h -> dirent_at dir' j = dirent_at (directory s) j).
    { intros. apply (write_field_other _ h 24); try done; try apply Hdir; lia. }
    destruct (same_extent_commit (with_disk s d') dir' h len Hwf1) as (s' & E' & Hw' & Hdir' & Hn' & Hdata);
      try done; ufs_proj; try (by rewrite Hent);
      try (rewrite Hent; cbn [de_size de_cap]; lia).
    { apply (write_field_ok _ h 24); try done; lia. }
    exists s'. split; [exact E'|]. split; [done|]. rewrite Hdir', Hent. split.
    + f_equal. lia.
    + split; [intros j Hj Hne; rewrite Hdir'; by apply Hoth|].
      intros a Ha. rewrite Hdata by (ufs_consts; lia). apply Hov.
  - exists (with_disk s d'). split; [done|]. split; [done|]. ufs_proj. split.
    + rewrite Z.max_l by lia. symmetry. by apply dirent_used_eta.
    + split; [by intros j|]. intros a _. apply Hov.
Qed.

(** From the bytes on disk to the contents of the files. *)
Lemma write_contents s s' h offset buf len :
  ufs_wf s -> ufs_wf s' -> 0 <= h < 64 -> de_used (dirent_at (directory s) h) = true ->
  0 <= offset -> 0 <= len -> offset + len <= de_cap (dirent_at (directory s) h) * 512 ->
  let e := dirent_at (directory s) h in
  dirent_at (directory s') h = mk_dirent true (de_name e) (de_start e)
    (Z.max (de_size e) (offset + len)) (de_cap e) (de_owner e) (de_perm e) ->
  same_others s s' h ->
  (forall a, UFS_DATA_LBA * 512 <= a -> blk_byte (disk s') a =
     if decide (de_start e * 512 + offset <= a < de_start e * 512 + offset + len)
     then buf.[a - (de_start e * 512 + offset)] else blk_byte (disk s) a) ->
  content_overlaid s s' h offset buf len /\
  (forall j, 0 <= j < 64 -> j <> h -> de_used (dirent_at (directory s) j) = true ->
     ufs_content s' j = ufs_content s j).
Proof.
  intros Hwf Hwf' Hh Hu Ho Hl Hcap e Hent Hoth Hby. pose proof Hwf as [Hw _ _].
  pose proof Hwf' as [Hw' _ _]. destruct (cap_bound s h Hw Hh Hu) as (H1 & H2 & H3 & H4 & H5).
  fold e in H1, H2, H3, H4, H5, Hcap. split.
  - unfold content_overlaid. rewrite !content_length by first [exact Hh|exact (mw_dir _ Hw)|exact (mw_dir _ Hw')].
    fold e. rewrite Hent. cbn [de_size]. split; [done|]. intros k Hk.
    assert (Hb : (ufs_content s' h).[k] = blk_byte (disk s') (de_start e * 512 + k)).
    { rewrite content_get by (rewrite Hent; cbn [de_size]; lia). unfold ufs_byte. by rewrite Hent. }
    assert (0 < de_cap e) by lia. specialize (H5 ltac:(lia)).
    rewrite Hb, Hby by (ufs_consts; lia). split.
    + intros Hin. rewrite decide_True by lia. f_equal. f_equal. lia.
    + intros Hks Hout. rewrite decide_False by lia. symmetry. apply content_get. fold e. lia.
  - intros j Hj Hne Huj. unfold ufs_content. rewrite Hoth by done. apply list_fmap_ext.
    intros i k Hk. apply lookup_seqZ in Hk as [-> Hk]. unfold ufs_byte. rewrite Hoth by done.
    rewrite Hby by (apply content_in_data; try done; lia).
    pose proof (other_bytes_apart s h j (0 + Z.of_nat i) offset len Hw Hh Hj Hne Hu Huj
      ltac:(lia) ltac:(lia) ltac:(done) ltac:(lia)) as Hap. fold e in Hap.
    by rewrite decide_False by lia.
Qed.

(** A write whose end can be rounded up to sectors in 32 bits or does not fit 32 bits
    at all (then it is refused), and, when it writes nothing, that does not start
    behind the sectors of the file.  Elsewhere [ensure_capacity] is fooled or skipped
    ([ufs_empty_write_outgrows]). *)
Definition write_in_range s h (offset len : Z) : Prop :=
  ~ (4294966784 < offset + len < 4294967296) /\
  (len = 0 -> offset <= de_cap (dirent_at (directory s) h) * 512).

Lemma ufs_write_at_spec s h offset buf len :
  ufs_wf s -> bytes_ok buf -> 0 <= offset < 4294967296 -> 0 <= len < 4294967296 ->
  write_in_range s h offset len ->
  exists r, ufs_write_at s h offset buf len = Some r /\ write_outcome s h offset buf len r.
Proof.
  intros Hwf Hbuf Ho Hl [Hov Hz]. unfold ufs_write_at, write_outcome.
  destruct (handle_valid s h) eqn:Hv; cbn [negb]; [|eexists; split; [done|]; left; auto].
  destruct (decide (4294967296 <= offset + len)) as [Hbig|Hsmall].
  { replace (offset +32 len) with (offset + len - 4294967296)
      by (unfold u32; symmetry; rewrite <- (Z.mod_unique (offset + len) 4294967296 1 (offset + len - 4294967296)); lia).
    replace (_ <? _) with true by lia. eexists. split; [done|]. left. auto. }
  rewrite (u32_small (offset + len)) by lia. replace (_ <? _) with false by lia.
  pose proof Hv as Hvv. apply handle_valid_iff in Hvv as [Hh Hu]; [|apply Hwf].
  assert (Hens : exists r, (if len >? 0 then ensure_capacity s h (offset + len) else Some (s, 0)) = Some r /\
    ensure_outcome s h (offset + len) r).
  { destruct (len >? 0) eqn:El; bool_prop; [apply ensure_capacity_spec; [done|done|lia]|].
    eexists. split; [done|]. right. exists s. split_and!; try done. split; [symmetry; by apply dirent_used_eta|lia]. }
  destruct Hens as (r1 & -> & [[-> Hsp]|(s1 & -> & Hwf1 & [Hent1 Hcap1] & Hoth1 & Hcont1)]);
    cbn [mbind option_bind negb Z.eqb].
  { eexists. split; [done|]. left. auto. }
  assert (Hu1 : de_used (dirent_at (directory s1) h) = true) by (by rewrite Hent1).
  destruct (cap_bound s1 h (uw_mem _ Hwf1) Hh Hu1) as (_ & Hmax & _). rewrite (s32_small len) by lia.
  destruct (write_in_capacity s1 h offset buf len Hwf1 Hbuf Hh Hu1 ltac:(lia) ltac:(lia) ltac:(lia))
    as (d' & E & s' & E' & Hwf' & Hent' & Hoth' & Hby').
  change (read_u32 (directory s1) (entry_off h + UFS_OFF_START_LBA)) with (de_start (dirent_at (directory s1) h)).
  rewrite E. cbn [mbind option_bind negb Z.eqb]. ufs_proj.
  change (read_u32 (directory s1) (entry_off h + UFS_OFF_SIZE)) with (de_size (dirent_at (directory s1) h)).
  exists (s', len). split.
  { rewrite <- E'. by destruct (offset + len >? de_size (dirent_at (directory s1) h)). }
  right. exists s'.
  destruct (write_contents s1 s' h offset buf len Hwf1 Hwf' Hh Hu1 ltac:(lia) ltac:(lia) ltac:(lia) Hent' Hoth' Hby')
    as [Hc Hj]. unfold content_overlaid in *. rewrite (Hcont1 h Hh Hu) in Hc.
  assert (Hid : same_identity (dirent_at (directory s) h) (dirent_at (directory s') h)).
  { rewrite Hent', Hent1. unfold same_identity. cbn [de_used de_name de_owner de_perm]. done. }
  split; [done|]. split; [done|]. split; [done|]. split; [done|]. split; [done|]. split.
  - intros j Hj0 Hne. rewrite Hoth', Hoth1; done.
  - intros j Hj0 Hne Huj. rewrite Hj; [by apply Hcont1|done|done|by rewrite Hoth1].
Qed.

(** [r] is the outcome of reading up to [len] bytes at [offset] into [out]. *)
Definition read_outcome s (h offset : Z) (out : list Z) (len : Z) (r : ufs D * list Z * Z) : Prop :=
  (handle_valid s h = false /\ r = (s, out, -1)) \/
  (handle_valid s h = true /\ zlen (ufs_content s h) <= offset /\ r = (s, out, 0)) \/
  (handle_valid s h = true /\ offset < zlen (ufs_content s h) /\
   let n := Z.min len (zlen (ufs_content s h) - offset) in
   exists s' out', r = (s', out', n) /\ zlen out' = zlen out /\
     (forall i, 0 <= i -> out'.[i] = if decide (i < n) then (ufs_content s h).[offset + i] else out.[i]) /\
     ufs_wf s' /\ directory s' = directory s /\
     (forall j, ufs_content s' j = ufs_content s j)).

Lemma with_disk_same_bytes s d' :
  ufs_wf s -> disk_ok d' -> (forall a, blk_byte d' a = blk_byte (disk s) a) ->
  ufs_wf (with_disk s d') /\ forall j, ufs_content (with_disk s d') j = ufs_content s j.
Proof.
  intros [Hw Hd [S1 S2 S3 S4]] Hd' Hby. split.
  - split; [by destruct Hw|done|]. split; ufs_proj; try done; intros; rewrite Hby; auto.
  - intros j. unfold ufs_content. ufs_proj. apply list_fmap_ext. intros i k _. apply Hby.
Qed.

Lemma ufs_read_at_spec s h offset out len :
  ufs_wf s -> 0 <= offset < 4294967296 -> 0 <= len <= zlen out ->
  exists r, ufs_read_at s h offset out len = Some r /\ read_outcome s h offset out len r.
Proof.
  intros Hwf Ho Hl. pose proof Hwf as [Hw Hd _]. unfold ufs_read_at, read_outcome.
  destruct (handle_valid s h) eqn:Hv; cbn [negb]; [|eexists; split; [done|by left]].
  apply handle_valid_iff in Hv as [Hh Hu]; [|apply Hw].
  change (read_u32 (directory s) (entry_off h + UFS_OFF_SIZE)) with (de_size (dirent_at (directory s) h)).
  change (read_u32 (directory s) (entry_off h + UFS_OFF_START_LBA)) with (de_start (dirent_at (directory s) h)).
  rewrite content_length by first [exact Hh|exact (mw_dir _ Hw)].
  destruct (cap_bound s h Hw Hh Hu) as (H1 & H2 & H3 & H4 & H5).
  pose proof (lo_next _ _ (mw_layout _ Hw)) as Hnext. ufs_consts.
  set (e := dirent_at (directory s) h) in *.
  destruct (offset >=? de_size e) eqn:E; bool_prop.
  { eexists. split; [done|]. right; left. auto. }
  rewrite (u32_small (de_size e - offset)) by lia.
  replace (if len >? de_size e - offset then de_size e - offset else len)
    with (Z.min len (de_size e - offset)) by (split_if; lia).
  set (n := Z.min len (de_size e - offset)). specialize (H5 ltac:(lia)).
  destruct (read_sectors_spec (disk s) (de_start e) offset out n) as (d' & out' & E1 & Hd' & Hby & Hz & Hi);
    try done; try lia.
  { change UFS_DATA_END_LBA with 16390. lia. }
  rewrite E1. cbn [mbind option_bind negb Z.eqb]. rewrite s32_small by lia.
  destruct (with_disk_same_bytes s d' Hwf Hd' Hby) as [Hwf' Hc].
  eexists. split; [done|]. right; right. split; [done|]. split; [lia|].
  exists (with_disk s d'), out'. split_and!; try done.
  intros i Hi0. rewrite Hi by done. case_decide; [|done].
  rewrite content_get by (fold e; lia). unfold ufs_byte. fold e. f_equal. lia.
Qed.

(** * Mounting *)

(** The static buffers, before anything has been read. *)
Definition static_ok s : Prop :=
  zlen (superblock s) = 512 /\ bytes_ok (superblock s) /\
  zlen (directory s) = 2560 /\ bytes_ok (directory s) /\ disk_ok (disk s).

(** The four bytes where the magic number belongs. *)
Definition magic_on d : list Z := (fun j => blk_byte d (UFS_SB_LBA * 512 + j)) <$> seqZ 0 4.

Lemma read_superblock s :
  static_ok s ->
  exists sb d', ata_read_sectors (disk s) UFS_SB_LBA 1 (superblock s) = (0, sb, d') /\
    disk_ok d' /\ (forall a, blk_byte d' a = blk_byte (disk s) a) /\ zlen sb = 512 /\
    bytes_ok sb /\ (forall j, 0 <= j < 512 -> sb.[j] = blk_byte (disk s) (UFS_SB_LBA * 512 + j)) /\
    bad_magic sb = bad_magic (magic_on (disk s)).
Proof.
  intros (H1 & H2 & H3 & H4 & Hd).
  destruct (read_step (disk s) UFS_SB_LBA 1 (superblock s)) as (sb & d' & E & Hd' & Hby & Hz & Hi);
    [done|by ufs_consts|lia|by ufs_consts|lia|].
  exists sb, d'. split; [done|]. split; [done|]. split; [done|]. split; [lia|].
  split; [by apply (blk_read_bytes_ok (disk s) (superblock s) sb (1 * 512) (UFS_SB_LBA * 512))|].
  assert (Hj : forall j, 0 <= j < 512 -> sb.[j] = blk_byte (disk s) (UFS_SB_LBA * 512 + j))
    by (intros; rewrite Hi by lia; by rewrite decide_True by lia).
  split; [done|]. unfold bad_magic, magic_on. rewrite !Hj by lia. done.
Qed.

Lemma read_directory d dir :
  disk_ok d -> zlen dir = 2560 ->
  exists dir' d', ata_read_sectors d UFS_DIR_LBA UFS_DIR_SECTORS dir = (0, dir', d') /\
    disk_ok d' /\ (forall a, blk_byte d' a = blk_byte d a) /\ zlen dir' = 2560 /\
    (forall j, 0 <= j < 2560 -> dir'.[j] = blk_byte d (UFS_DIR_LBA * 512 + j)).
Proof.
  intros Hd Hl.
  destruct (read_step d UFS_DIR_LBA UFS_DIR_SECTORS dir) as (dir' & d' & E & Hd' & Hby & Hz & Hi);
    [done|by ufs_consts|by ufs_consts|by ufs_consts|ufs_consts; lia|].
  exists dir', d'. split; [done|]. split; [done|]. split; [done|]. split; [lia|].
  intros j Hj. rewrite Hi by lia. by rewrite decide_True by (ufs_consts; lia).
Qed.

Lemma zero_directory (dir : list Z) :
  zlen dir = 2560 ->
  let dir' := for_each 0 (UFS_DIR_SECTORS * SECTOR_SIZE) (fun i dir => dir.[i <- 0]) dir in
  dir_ok dir' /\ (forall i, 0 <= i < 64 -> entry_used dir' i = false) /\ used_count dir' = 0.
Proof.
  intros Hl dir'. destruct (for_each_fill dir 2560 (fun _ => 0) ltac:(lia)) as [Hz Hg].
  change (for_each 0 2560 (fun i b => b.[i <- 0]) dir) with dir' in Hz, Hg.
  assert (H0 : forall i, 0 <= i -> dir'.[i] = 0).
  { intros i Hi. rewrite Hg by done. case_decide; [done|].
    rewrite list_lookup_total_alt, lookup_ge_None_2; [done|]. unfold zlen in *. lia. }
  assert (Hu : forall i, 0 <= i < 64 -> entry_used dir' i = false).
  { intros i Hi. unfold entry_used. rewrite H0 by (ufs_consts; lia). done. }
  split; [|split; [done|by apply count_if_none]]. split.
  - lia.
  - intros i Hi. rewrite H0 by done. lia.
  - intros i Hi Hui. by rewrite Hu in Hui.
Qed.

(** The state [format_fresh] leaves, from the zeroed directory on. *)
Lemma format_commit sb (dir : list Z) d :
  zlen sb = 512 -> bytes_ok sb -> disk_ok d -> dir_ok dir ->
  (forall i, 0 <= i < 64 -> entry_used dir i = false) -> used_count dir = 0 ->
  let s1 := (persist_superblock (persist_directory (mk_ufs sb dir false 0 UFS_DATA_LBA d)).1).1 in
  let s' := mk_ufs (superblock s1) (directory s1) true (cached_file_count s1) (next_free_lba s1) (disk s1) in
  ufs_wf s' /\ (forall i, 0 <= i < 64 -> de_used (dirent_at (directory s') i) = false) /\
  next_free_lba s' = UFS_DATA_LBA.
Proof.
  intros Hl Hb Hd Hok Hu Hc.
  assert (Hp : persistable (mk_ufs sb dir false 0 UFS_DATA_LBA d)).
  { split; ufs_proj; [done|done|exact (dir_len _ Hok)|exact (dir_bytes _ Hok)|by ufs_consts|done]. }
  destruct (persist_both _ Hp) as (s1 & E & _ & _ & [Pr Pd Pc Pn Ps Pok _]).
  rewrite E. clear E Hp. cbv zeta. ufs_proj. rewrite Pd, Pn, Pc.
  assert (Hnone : forall i, 0 <= i < 64 -> de_used (dirent_at dir i) = true -> False).
  { intros i Hi Hui. specialize (Hu i Hi). simpl in Hui. congruence. }
  split; [|split; [exact Hu|done]].
  split; [|apply Pok|destruct Ps; rewrite Pd, Pn in *; by split].
  destruct Pok. split; ufs_proj; try done. split; [done| | |].
  - intros i Hi Hui. by destruct (Hnone i Hi).
  - intros i j Hi _ _ Hui. by destruct (Hnone i Hi).
  - intros i j Hi _ Hui. by destruct (Hnone i Hi).
Qed.

(** Formatting a disk without the magic number gives an empty file system. *)
Lemma ufs_init_format s0 :
  static_ok s0 -> bad_magic (magic_on (disk s0)) = true ->
  ufs_wf (ufs_init s0) /\
  (forall i, 0 <= i < 64 -> de_used (dirent_at (directory (ufs_init s0)) i) = false) /\
  next_free_lba (ufs_init s0) = UFS_DATA_LBA.
Proof.
  intros Hst Hm. unfold ufs_init.
  destruct (read_superblock s0 Hst) as (sb & d' & E & Hd' & Hby & Hz & Hb & Hj & Hmagic).
  rewrite E. cbn [negb Z.eqb]. rewrite Hmagic, Hm. unfold format_fresh. ufs_proj.
  destruct Hst as (_ & _ & Hdl & _). destruct (zero_directory (directory s0) Hdl) as (Hok & Hu & Hc).
  exact (format_commit sb _ d' Hz Hb Hd' Hok Hu Hc).
Qed.

Lemma count_used_entries_eq (dir : list Z) : count_used_entries dir = used_count dir.
Proof.
  assert (H : forall n i acc, 0 <= acc -> acc + Z.of_nat n <= 64 ->
    each_loop n (fun i count => if entry_used dir i then count +32 1 else count) i acc =
    acc + count_loop n (entry_used dir) i).
  { induction n as [|n IH]; intros i acc Ha Hn; cbn [each_loop count_loop]; [lia|].
    destruct (entry_used dir i).
    - rewrite u32_small, IH by lia. lia.
    - rewrite IH by lia. lia. }
  unfold count_used_entries, used_count, for_each, count_if. ufs_consts.
  rewrite H by lia. apply Z.add_0_l.
Qed.

(** The outcome of mounting the disk of a well-formed [s]. *)
Definition remount_outcome s s' : Prop :=
  ufs_wf s' /\ directory s' = directory s /\ next_free_lba s' = next_free_lba s /\
  cached_file_count s' = cached_file_count s /\
  (forall j, ufs_content s' j = ufs_content s j).

Lemma ufs_init_mount s s0 :
  ufs_wf s -> static_ok s0 -> (forall a, blk_byte (disk s0) a = blk_byte (disk s) a) ->
  remount_outcome s (ufs_init s0).
Proof.
  intros Hwf Hst Hsame. pose proof Hwf as [Hw Hd [S1 S2 S3 S4]]. unfold ufs_init.
  destruct (read_superblock s0 Hst) as (sb & d1 & E & Hd1 & Hby1 & Hz & Hb & Hj & Hmagic).
  assert (Esb : sb = superblock s).
  { apply array_ext; [by rewrite Hz, (mw_sb _ Hw)|]. intros i Hi. rewrite Hj by lia.
    rewrite Hsame. apply S3. lia. }
  rewrite E. cbn [negb Z.eqb]. ufs_proj. subst sb. rewrite S1.
  destruct Hst as (_ & _ & Hdl & Hdb & _).
  destruct (read_directory d1 (directory s0) Hd1 Hdl) as (dir & d2 & E2 & Hd2 & Hby2 & Hz2 & Hi2).
  rewrite E2. cbn [negb Z.eqb].
  assert (Edir : dir = directory s).
  { apply array_ext; [by rewrite Hz2, (dir_len _ (mw_dir _ Hw))|]. intros i Hi.
    rewrite Hi2, Hby1, Hsame by lia. apply S4. lia. }
  rewrite S2, Edir. pose proof (lo_next _ _ (mw_layout _ Hw)) as Hn.
  replace ((next_free_lba s <? UFS_DATA_LBA) || (next_free_lba s >? UFS_DATA_END_LBA)) with false by lia.
  assert (Hall : forall a, blk_byte d2 a = blk_byte (disk s) a)
    by (intros; by rewrite Hby2, Hby1, Hsame).
  assert (Hcount : count_used_entries (directory s) = cached_file_count s)
    by (rewrite count_used_entries_eq; symmetry; apply (mw_count _ Hw)).
  destruct (with_disk_same_bytes s d2 Hwf Hd2 Hall) as [Hwf' Hc'].
  assert (Es : mk_ufs (superblock s) (directory s) true (count_used_entries (directory s))
                 (next_free_lba s) d2 = with_disk s d2).
  { unfold with_disk. by rewrite Hcount, (mw_ready _ Hw). }
  rewrite Es. split_and!; try done.
Qed.

(** * Everything the kernel does to the file system *)

Inductive ufs_step : ufs D -> ufs D -> Prop :=
  | StepCreate s nm owner : bytes_ok nm -> ufs_step s (ufs_create s nm owner).1
  | StepDelete s nm : ufs_step s (ufs_delete s nm).1
  | StepChmod s h p : 0 <= p < 256 -> ufs_step s (ufs_chmod s h p).1
  | StepTruncate s h n : 0 <= n < 4294967296 -> ufs_step s (ufs_truncate s h n).1
  | StepWrite s h offset buf len s' r :
      bytes_ok buf -> 0 <= offset < 4294967296 -> 0 <= len < 4294967296 -> write_in_range s h offset len ->
      ufs_write_at s h offset buf len = Some (s', r) -> ufs_step s s'
  | StepRead s h offset out len s' out' r :
      0 <= offset < 4294967296 -> 0 <= len <= zlen out ->
      ufs_read_at s h offset out len = Some (s', out', r) -> ufs_step s s'
  | StepRemount s s0 :
      static_ok s0 -> disk s0 = disk s -> ufs_step s (ufs_init s0).

Lemma ufs_step_wf s s' : ufs_step s s' -> ufs_wf s -> ufs_wf s'.
Proof.
  intros Hs Hw. destruct Hs as [s nm o Hnm|s nm|s h p Hp|s h n Hn
    |s h offset buf len s' r Hbuf Ho Hl Hov E|s h offset out len s' out' r Ho Hl E|s s0 Hst Hd].
  - destruct (ufs_create_spec s nm o Hw Hnm) as [[_ ->]|(_ & s' & slot & -> & _ & _ & Hw' & _)]; done.
  - destruct (ufs_delete_spec s nm Hw) as [[_ ->]|(s' & h & -> & _ & Hw' & _)]; done.
  - destruct (ufs_chmod_spec s h p Hw Hp) as [[_ ->]|(s' & -> & _ & Hw' & _)]; done.
  - destruct (ufs_truncate_spec s h n Hw Hn) as [[-> _]|(s' & -> & _ & Hw' & _)]; done.
  - destruct (ufs_write_at_spec s h offset buf len Hw Hbuf Ho Hl Hov) as (r' & E' & Hout).
    rewrite E' in E. injection E as ->.
    destruct Hout as [[[= -> _] _]|(s1 & [= -> _] & _ & Hw' & _)]; done.
  - destruct (ufs_read_at_spec s h offset out len Hw Ho Hl) as (r' & E' & Hout).
    rewrite E' in E. injection E as ->.
    destruct Hout as [[_ [= -> _ _]]|[(_ & _ & [= -> _ _])|(_ & _ & s1 & o1 & [= -> _ _] & _ & _ & Hw' & _)]]; done.
  - apply (ufs_init_mount s s0 Hw Hst). intros a. by rewrite Hd.
Qed.
End ops.

(** * Results *)

Section results.
Context {D : Type} {B : BlockDev D} {L : BlockDevLaws D}.
Implicit Types (s : ufs D) (d : D) (nm buf : list Z).

(** C2: [ufs_write_at] returns for every write in range ([write_in_range]: it does not
    end in the last 511 bytes below 2^32, where rounding up to sectors wraps, and an
    empty one does not start behind the file's sectors, where it would outgrow them):
    it either fails with the file system unchanged (bad handle, an end of 2^32 or more,
    or no room for twice the sectors needed), or stores exactly the bytes given, grows
    the file to the end of the write, and leaves every other file's entry and contents
    alone. *)
Theorem ufs_write_at_correct s h offset buf len :
  ufs_wf s -> bytes_ok buf -> 0 <= offset < 4294967296 -> 0 <= len < 4294967296 ->
  write_in_range s h offset len ->
  exists r, ufs_write_at s h offset buf len = Some r /\ write_outcome s h offset buf len r.
Proof. apply ufs_write_at_spec. Qed.

(** [ufs_read_at] returns the bytes of the file from [offset], cut at its end,
    touches nothing of the buffer beyond them, and changes no file. *)
Theorem ufs_read_at_correct s h offset out len :
  ufs_wf s -> 0 <= offset < 4294967296 -> 0 <= len <= zlen out ->
  exists r, ufs_read_at s h offset out len = Some r /\ read_outcome s h offset out len r.
Proof. apply ufs_read_at_spec. Qed.

(** C3: starting from a freshly formatted disk, after any sequence of creations,
    deletions, permission changes, truncations, reads, remounts and writes in range
    ([write_in_range]: an empty write behind the sectors of a file, or one that ends in
    the last 511 bytes below 2^32, is left out because the code breaks on it) the file
    counter is exact, names are unique, every file fits its extent, the
    extents are disjoint and inside the data area, and the superblock and the
    directory on disk are those in memory. *)
Theorem ufs_reachable_wf s0 s :
  static_ok s0 -> bad_magic (magic_on (disk s0)) = true ->
  rtc ufs_step (ufs_init s0) s -> ufs_wf s.
Proof.
  intros Hst Hm Hr. assert (Hw : ufs_wf (ufs_init s0)) by (by apply ufs_init_format).
  clear Hst Hm. induction Hr as [|x y z Hs _ IH]; [done|]. apply IH. by apply (ufs_step_wf x y).
Qed.

(** C4: mounting a disk that a well-formed file system was left on gives back the
    same directory, allocation mark, counter and file contents, whatever the
    static buffers held. *)
Theorem ufs_remount_correct s s0 :
  ufs_wf s -> static_ok s0 -> (forall a, blk_byte (disk s0) a = blk_byte (disk s) a) ->
  remount_outcome s (ufs_init s0).
Proof. apply ufs_init_mount. Qed.

(** [ufs_create] fails without effect exactly for an empty, over-long or
    existing name or a full directory; otherwise it turns a free slot into an
    empty private file of the owner, found again by its name. *)
Theorem ufs_create_correct s nm owner :
  ufs_wf s -> bytes_ok nm -> create_outcome s nm owner (ufs_create s nm owner).
Proof. apply ufs_create_spec. Qed.

(** [ufs_delete] fails without effect exactly when no file has the name;
    otherwise that file alone disappears, in memory and on disk. *)
Theorem ufs_delete_correct s nm : ufs_wf s -> delete_outcome s nm (ufs_delete s nm).
Proof. apply ufs_delete_spec. Qed.

(** [ufs_truncate] keeps the leading bytes of the file when it shortens it and
    never touches another file's contents. *)
Theorem ufs_truncate_correct s h n :
  ufs_wf s -> 0 <= n < 4294967296 -> truncate_outcome s h n (ufs_truncate s h n).
Proof. apply ufs_truncate_spec. Qed.

(** A write of no bytes skips [ensure_capacity] and still moves the end of the
    file: on a file without sectors it leaves a size that no sector backs. *)
Theorem ufs_empty_write_outgrows s h offset buf :
  ufs_wf s -> handle_valid s h = true -> de_cap (dirent_at (directory s) h) = 0 ->
  0 < offset < 4294967296 ->
  exists s', ufs_write_at s h offset buf 0 = Some (s', 0) /\
    de_size (dirent_at (directory s') h) = offset /\
    de_cap (dirent_at (directory s') h) = 0 /\ ~ ufs_wf s'.
Proof.
  intros Hwf Hv Hcap Ho. pose proof Hwf as [Hw Hd _]. unfold ufs_write_at. rewrite Hv.
  apply handle_valid_iff in Hv as [Hh Hu]; [|apply Hw].
  destruct (cap_bound s h Hw Hh Hu) as (H1 & H2 & H3 & H4 & _).
  assert (Hsz : de_size (dirent_at (directory s) h) = 0) by lia.
  cbn [negb]. rewrite Z.add_0_r, (u32_small offset) by lia.
  replace (offset <? offset) with false by lia.
  change (0 >? 0) with false. cbn [mbind option_bind negb Z.eqb].
  unfold write_sectors. cbn [while_loop Z.to_nat]. change (0 >? 0) with false. cbn [mbind option_bind negb Z.eqb]. ufs_proj.
  change (read_u32 (directory s) (entry_off h + UFS_OFF_SIZE)) with (de_size (dirent_at (directory s) h)).
  rewrite Hsz. replace (offset >? 0) with true by lia.
  pose proof (mw_dir _ Hw) as Hdir.
  pose proof (dirent_set_size (directory s) h offset Hdir Hh) as Hent. cbv zeta in Hent.
  rewrite (u32_small offset) in Hent by lia.
  pose proof (write_field_ok (directory s) h UFS_OFF_SIZE offset Hdir Hh ltac:(ufs_consts; lia)) as Hok.
  set (dir' := write_u32 _ _ _) in *. clearbody dir'.
  pose proof (mem_wf_persistable s Hw Hd) as Hp.
  destruct (persist_and_return_spec (with_directory (with_disk s (disk s)) dir') (s32 0))
    as (s' & E & [Pr Pd Pc Pn Ps Pok _]).
  { destruct Hp. split; ufs_proj; try done; apply Hok. }
  ufs_proj. exists s'. change (s32 0) with 0 in E. rewrite <- E. change (s32 0) with 0.
  split; [done|]. rewrite Pd, Hent. cbn [de_size de_cap]. split; [done|]. split; [done|].
  intros [Hw' _ _]. destruct (cap_bound s' h Hw' Hh) as (_ & _ & Hle & _).
  - by rewrite Pd, Hent.
  - rewrite Pd, Hent in Hle. cbn [de_size de_cap] in Hle. lia.
Qed.
End results.

(** * A concrete disk *)

Definition demo_static : ufs memdisk :=
  mk_ufs (replicate 512 0) (replicate 2560 0) false 0 UFS_DATA_LBA (mk_memdisk 20160 ∅).

Definition demo_ufs : ufs memdisk := ufs_init demo_static.
Definition demo_name : list Z := [110; 111; 116; 101].
Definition demo_bytes : list Z := [104; 105; 33].

Lemma demo_static_ok : static_ok demo_static.
Proof.
  split; [reflexivity|]. split; [apply replicate_bytes_ok|]. split; [reflexivity|].
  split; [apply replicate_bytes_ok|]. split; [done|by vm_compute].
Qed.

Lemma demo_bad_magic : bad_magic (magic_on (disk demo_static)) = true.
Proof. reflexivity. Qed.

Lemma demo_ufs_wf : ufs_wf demo_ufs.
Proof. apply ufs_init_format; [apply demo_static_ok|apply demo_bad_magic]. Qed.

Lemma small_bytes_ok l : forallb (fun b => (0 <=? b) && (b <? 256)) l = true -> bytes_ok l.
Proof.
  intros H i Hi. destruct (decide (i < zlen l)) as [Hlt|Hge].
  - assert (Hl : l !! Z.to_nat i = Some l.[i]) by (apply aget_lookup; lia).
    apply list_elem_of_lookup_2 in Hl. rewrite forallb_forall in H.
    apply list_elem_of_In in Hl. apply H in Hl. bool_prop. lia.
  - rewrite list_lookup_total_alt, lookup_ge_None_2; [simpl; lia|]. unfold zlen in *. lia.
Qed.

Definition demo_created : ufs memdisk := (ufs_create demo_ufs demo_name 1000).1.

Lemma demo_created_wf : ufs_wf demo_created.
Proof.
  apply (ufs_step_wf demo_ufs); [|apply demo_ufs_wf].
  apply StepCreate. by apply small_bytes_ok.
Qed.

(** A freshly formatted disk is empty. *)
Lemma demo_ufs_empty :
  (forall i, 0 <= i < 64 -> de_used (dirent_at (directory demo_ufs) i) = false) /\
  (forall nm i, ~ named demo_ufs i nm) /\ next_free_lba demo_ufs = UFS_DATA_LBA.
Proof.
  destruct (ufs_init_format demo_static demo_static_ok demo_bad_magic) as (_ & He & Hn).
  fold demo_ufs in He, Hn. split; [exact He|]. split; [|exact Hn].
  intros nm i [Hi [Hu _]]. rewrite (He i Hi) in Hu. discriminate Hu.
Qed.

(** A file created while slot 0 is free takes it. *)
Lemma ufs_create_first s nm owner :
  de_used (dirent_at (directory s) 0) = false -> (ufs_create s nm owner).2 <= 0.
Proof.
  intros H0. unfold ufs_create. repeat (case_match; [simpl; lia|]).
  pose proof (find_first_spec 0 UFS_MAX_ENTRIES (fun i => negb (entry_used (directory s) i))) as Hf.
  destruct (find_first _ _ _) as [slot|]; [|simpl; lia]. destruct Hf as (Hs & _ & Hmin).
  assert (slot <= 0).
  { destruct (Z.le_gt_cases slot 0) as [|Hgt]; [done|].
    assert (Hne : 0 <= 0 < slot) by lia. specialize (Hmin 0 Hne). simpl in *.
    by rewrite H0 in Hmin. }
  unfold persist_and_return. repeat (case_match; simpl; try lia).
Qed.

(** Slot 0 of [demo_created] holds the file, the others are free. *)
Lemma demo_created_entry :
  dirent_at (directory demo_created) 0 = mk_dirent true demo_name 0 0 0 1000 0 /\
  (forall i, 0 < i < 64 -> de_used (dirent_at (directory demo_created) i) = false) /\
  next_free_lba demo_created = UFS_DATA_LBA.
Proof.
  destruct demo_ufs_empty as (He & Hno & Hn).
  pose proof (ufs_create_first demo_ufs demo_name 1000 (He 0 ltac:(lia))) as Hfirst.
  destruct (ufs_create_spec demo_ufs demo_name 1000 demo_ufs_wf (small_bytes_ok demo_name eq_refl))
    as [[Hf _]|(_ & s' & slot & E & Hslot & _ & _ & Hent & Hoth & _ & Hnext & _)].
  - exfalso. destruct Hf as [Hf|[Hf|[[i Hi]|Hf]]]; [discriminate Hf|by apply Hf|by apply (Hno demo_name i)|].
    specialize (Hf 0 ltac:(lia)). by rewrite He in Hf by lia.
  - assert (Hs : demo_created = s') by (unfold demo_created; by rewrite E).
    rewrite E in Hfirst. cbn [snd] in Hfirst. assert (slot = 0) as -> by lia. rewrite Hs.
    split; [exact Hent|]. split; [|by rewrite Hnext].
    intros i Hi. rewrite Hoth by lia. apply He. lia.
Qed.

Lemma ufs_write_at_correct_witness :
  ufs_wf demo_created /\
  exists r, ufs_write_at demo_created 0 0 demo_bytes 3 = Some r /\
    write_outcome demo_created 0 0 demo_bytes 3 r.
Proof.
  split; [exact demo_created_wf|].
  apply (ufs_write_at_correct demo_created 0 0 demo_bytes 3 demo_created_wf);
    [by apply small_bytes_ok|lia|lia|split; lia].
Defined.

Lemma ufs_read_at_correct_witness :
  ufs_wf demo_created /\
  exists r, ufs_read_at demo_created 0 0 (replicate 8 0) 8 = Some r /\
    read_outcome demo_created 0 0 (replicate 8 0) 8 r.
Proof.
  split; [exact demo_created_wf|].
  apply (ufs_read_at_correct demo_created 0 0 (replicate 8 0) 8 demo_created_wf);
    [lia|by vm_compute].
Defined.

Lemma ufs_reachable_wf_witness :
  static_ok demo_static /\ bad_magic (magic_on (disk demo_static)) = true /\
  rtc ufs_step demo_ufs demo_created /\ ufs_wf demo_created.
Proof.
  assert (Hr : rtc ufs_step demo_ufs demo_created)
    by (apply rtc_once, StepCreate; by apply small_bytes_ok).
  exact (conj demo_static_ok (conj demo_bad_magic (conj Hr
    (ufs_reachable_wf demo_static demo_created demo_static_ok demo_bad_magic Hr)))).
Defined.

Lemma replicate_bytes n b : 0 <= b < 256 -> bytes_ok (replicate n b).
Proof. intros. apply small_bytes_ok. induction n as [|n IH]; simpl; [done|]. rewrite IH. lia. Qed.

(** Static buffers full of junk over the disk [d]. *)
Definition reboot (d : memdisk) : ufs memdisk :=
  mk_ufs (replicate 512 7) (replicate 2560 9) false 0 0 d.

Lemma reboot_ok d : disk_ok d -> static_ok (reboot d).
Proof.
  intros H. split; [reflexivity|]. split; [by apply replicate_bytes|].
  split; [reflexivity|]. split; [by apply replicate_bytes|exact H].
Qed.

Lemma reboot_bytes d a : blk_byte (disk (reboot d)) a = blk_byte d a.
Proof. done. Qed.

Lemma ufs_remount_correct_witness :
  ufs_wf demo_created /\ static_ok (reboot (disk demo_created)) /\
  remount_outcome demo_created (ufs_init (reboot (disk demo_created))).
Proof.
  pose proof (reboot_ok _ (uw_disk _ demo_created_wf)) as Hst.
  exact (conj demo_created_wf (conj Hst
    (ufs_remount_correct demo_created _ demo_created_wf Hst (reboot_bytes _)))).
Defined.

Lemma demo_name_ok : bytes_ok demo_name.
Proof. by apply small_bytes_ok. Qed.

Lemma ufs_create_correct_witness :
  ufs_wf demo_ufs /\ bytes_ok demo_name /\
  create_outcome demo_ufs demo_name 1000 (ufs_create demo_ufs demo_name 1000).
Proof.
  exact (conj demo_ufs_wf (conj demo_name_ok
    (ufs_create_correct demo_ufs demo_name 1000 demo_ufs_wf demo_name_ok))).
Defined.

Lemma ufs_delete_correct_witness :
  ufs_wf demo_created /\ delete_outcome demo_created demo_name (ufs_delete demo_created demo_name).
Proof.
  exact (conj demo_created_wf (ufs_delete_correct demo_created demo_name demo_created_wf)).
Defined.

Lemma ufs_truncate_correct_witness :
  ufs_wf demo_created /\ truncate_outcome demo_created 0 0 (ufs_truncate demo_created 0 0).
Proof.
  exact (conj demo_created_wf
    (ufs_truncate_correct demo_created 0 0 demo_created_wf (conj (Z.le_refl 0) eq_refl))).
Defined.
