(* ===== verification/Memfs.v ===== *)
(** The in-memory file system of [kernel/core/memfs.c], over any allocator.

    File data lives in allocated memory, at the address an entry holds; the entry
    table, itself an allocation at [entries_ptr], is the list [entries].  A fresh
    slot's name bytes, uninitialised in C, are zeros here. *)
From S2P Require Import Prelude Mem CString Pmm Alloc Heap.

Definition MEMFS_INITIAL_CAPACITY : Z := 4.
Definition MEMFS_NAME_MAX : Z := 32.
Definition MEMFS_INITIAL_BUFFER_SIZE : Z := 256.

Record memfs_entry_t := mk_entry {
  me_name : list Z;
  me_data : Z;
  me_size : Z;
  me_capacity : Z;
  me_in_use : bool;
}.

(** [sizeof(memfs_entry_t)] *)
Definition MEMFS_ENTRY_SIZEOF : Z := 56.

Record memfs (H : Type) := mk_memfs {
  entries : list memfs_entry_t;
  entries_ptr : Z;
  entry_capacity : Z;
  fs_heap : H;
  fs_mem : mem;
}.
Arguments mk_memfs {H}.
Arguments entries {H}.
Arguments entries_ptr {H}.
Arguments entry_capacity {H}.
Arguments fs_heap {H}.
Arguments fs_mem {H}.

Definition empty_entry : memfs_entry_t := mk_entry (replicate 32 0) 0 0 0 false.

#[export] Instance memfs_entry_inhabited : Inhabited memfs_entry_t := populate empty_entry.

(** * The model *)

Section model.
Context {H : Type} `{Allocator H}.
Implicit Types (s : memfs H) (nm : list Z).

Definition with_entry s (i : Z) (e : memfs_entry_t) : memfs H :=
  mk_memfs ((entries s).[i <- e]) (entries_ptr s) (entry_capacity s) (fs_heap s) (fs_mem s).
Definition with_heap s (h : H) (m : mem) : memfs H :=
  mk_memfs (entries s) (entries_ptr s) (entry_capacity s) h m.

Definition init_entry_slot (e : memfs_entry_t) : memfs_entry_t :=
  mk_entry ((me_name e).[0 <- 0]) 0 0 0 false.

Definition copy_entry_slot (src : memfs_entry_t) : memfs_entry_t :=
  mk_entry (me_name src) (me_data src) (me_size src) (me_capacity src) (me_in_use src).

Definition grow_table s : option (memfs H * Z) :=
  let new_capacity := if entry_capacity s =? 0 then MEMFS_INITIAL_CAPACITY
                      else s32 (entry_capacity s * 2) in
  '(h, m, new_table) ← al_malloc (fs_heap s) (fs_mem s) (MEMFS_ENTRY_SIZEOF *64 u64 new_capacity);
  if new_table =? 0 then Some (with_heap s h m, -1)
  else
    let table := replicate (Z.to_nat new_capacity) empty_entry in
    let table := for_each 0 (entry_capacity s)
      (fun i t => t.[i <- copy_entry_slot (entries s).[i]]) table in
    let table := for_each (entry_capacity s) new_capacity
      (fun i t => t.[i <- init_entry_slot t.[i]]) table in
    let old_table := entries_ptr s in
    '(h, m) ← (if negb (old_table =? 0) then al_free h m old_table else Some (h, m));
    Some (mk_memfs table new_table new_capacity h m, 0).

Definition copy_name (dst : list Z) nm : list Z :=
  let (d, i) := str_copy dst 0 nm (MEMFS_NAME_MAX - 1) in d.[i <- 0].

Definition find_slot s nm : Z :=
  c_index (find_first 0 (entry_capacity s)
    (fun i => me_in_use (entries s).[i] && str_eq_and (me_name (entries s).[i]) nm)).

Definition find_free_slot s : Z :=
  c_index (find_first 0 (entry_capacity s) (fun i => negb (me_in_use (entries s).[i]))).

(** A free slot, growing the table when there is none; -1 when that fails. *)
Definition obtain_slot s : option (memfs H * Z) :=
  let slot := find_free_slot s in
  if slot =? -1 then
    let previous_capacity := entry_capacity s in
    '(s, r) ← grow_table s;
    if negb (r =? 0) then Some (s, -1) else Some (s, previous_capacity)
  else Some (s, slot).

Definition memfs_create s nm : option (memfs H * Z) :=
  if find_slot s nm >=? 0 then Some (s, -1)
  else
    '(s, slot) ← obtain_slot s;
    if slot =? -1 then Some (s, -1)
    else
      '(h, m, buf) ← al_malloc (fs_heap s) (fs_mem s) MEMFS_INITIAL_BUFFER_SIZE;
      let s := with_heap s h m in
      if buf =? 0 then Some (s, -1)
      else
        let name := copy_name (me_name (entries s).[slot]) nm in
        Some (with_entry s slot (mk_entry name buf 0 MEMFS_INITIAL_BUFFER_SIZE true), slot).

Definition memfs_find s nm : Z := find_slot s nm.

Definition memfs_delete s nm : option (memfs H * Z) :=
  let slot := find_slot s nm in
  if slot =? -1 then Some (s, -1)
  else
    '(h, m) ← al_free (fs_heap s) (fs_mem s) (me_data (entries s).[slot]);
    let s := with_heap s h m in
    Some (with_entry s slot (init_entry_slot (entries s).[slot]), 0).

Definition bad_handle s (handle : Z) : bool :=
  (handle <? 0) || (handle >=? entry_capacity s) || negb (me_in_use (entries s).[handle]).

Definition memfs_size s (handle : Z) : Z :=
  if bad_handle s handle then 0 else me_size (entries s).[handle].

Definition ensure_capacity s (handle needed : Z) : option (memfs H * Z) :=
  let e := (entries s).[handle] in
  if needed <=? me_capacity e then Some (s, 0)
  else
    new_capacity ← double_until 33 needed (me_capacity e *32 2);
    '(h, m, new_buf) ← al_malloc (fs_heap s) (fs_mem s) new_capacity;
    let s := with_heap s h m in
    if new_buf =? 0 then Some (s, -1)
    else
      let m := for_each 0 (me_size e)
        (fun i m => st8 m (new_buf + i) (ld8 m (me_data e + i))) m in
      '(h, m) ← al_free h m (me_data e);
      let s := with_heap s h m in
      Some (with_entry s handle
        (mk_entry (me_name e) new_buf (me_size e) new_capacity (me_in_use e)), 0).

Definition memfs_write_at s (handle offset : Z) (buf : list Z) (len : Z) : option (memfs H * Z) :=
  if bad_handle s handle then Some (s, -1)
  else
    let needed := offset +32 len in
    if needed <? offset then Some (s, -1)
    else
      '(s, r) ← ensure_capacity s handle needed;
      if negb (r =? 0) then Some (s, -1)
      else
        let e := (entries s).[handle] in
        let m := for_each 0 len
          (fun i m => st8 m (me_data e + (offset +32 i)) buf.[i]) (fs_mem s) in
        let s := with_heap s (fs_heap s) m in
        let size := if needed >? me_size e then needed else me_size e in
        Some (with_entry s handle
          (mk_entry (me_name e) (me_data e) size (me_capacity e) (me_in_use e)), s32 len).

(** [out] is the caller's buffer; returned as the call leaves it. *)
Definition memfs_read_at s (handle offset : Z) (out : list Z) (len : Z) : list Z * Z :=
  if bad_handle s handle then (out, -1)
  else
    let e := (entries s).[handle] in
    if offset >=? me_size e then (out, 0)
    else
      let available := me_size e -32 offset in
      let len := if len >? available then available else len in
      (for_each 0 len
         (fun i out => out.[i <- ld8 (fs_mem s) (me_data e + (offset +32 i))]) out, s32 len).

Definition memfs_first s : Z :=
  c_index (find_first 0 (entry_capacity s) (fun i => me_in_use (entries s).[i])).

Definition memfs_next s (handle : Z) : Z :=
  c_index (find_first (handle + 1) (entry_capacity s) (fun i => me_in_use (entries s).[i])).

(** The empty list is the string literal [""]. *)
Definition memfs_name s (handle : Z) : list Z :=
  if bad_handle s handle then [] else me_name (entries s).[handle].

Definition memfs_file_count s : Z :=
  for_each 0 (entry_capacity s)
    (fun i count => if me_in_use (entries s).[i] then count +32 1 else count) 0.
End model.

(** * The invariant *)

(** [L] is the set of live allocations. *)
Record memfs_wf {H} `{AllocatorLaws H} (s : memfs H) (L : gmap Z Z) : Prop := {
  mf_rep : al_rep (fs_heap s) (fs_mem s) L;
  mf_len : zlen (entries s) = entry_capacity s;
  mf_table : (entry_capacity s = 0 /\ entries_ptr s = 0) \/
    exists n, L !! entries_ptr s = Some n /\ 0 < entry_capacity s /\ 56 * entry_capacity s <= n;
  mf_data : forall i, 0 <= i < entry_capacity s -> me_in_use (entries s).[i] = true ->
    let e := (entries s).[i] in
    0 <= me_size e <= me_capacity e /\ 0 < me_capacity e /\ me_data e <> entries_ptr s /\
    exists n, L !! me_data e = Some n /\ me_capacity e <= n;
  mf_distinct : forall i j, 0 <= i < entry_capacity s -> 0 <= j < entry_capacity s -> i <> j ->
    me_in_use (entries s).[i] = true -> me_in_use (entries s).[j] = true ->
    me_data (entries s).[i] <> me_data (entries s).[j];
  mf_names : forall i, 0 <= i < entry_capacity s ->
    zlen (me_name (entries s).[i]) = 32 /\
    (me_in_use (entries s).[i] = true -> zlen (cstr (me_name (entries s).[i])) <= 31);
}.

Section proofs.
Context {H : Type} {A : Allocator H} {AL : AllocatorLaws H}.
Implicit Types (s : memfs H) (nm buf : list Z) (L : gmap Z Z).

Definition used s (i : Z) : Prop :=
  0 <= i < entry_capacity s /\ me_in_use (entries s).[i] = true.

(** The contents of the file in slot [i]. *)
Definition memfs_content s (i : Z) : list Z :=
  (fun k => ld8 (fs_mem s) (me_data (entries s).[i] + k)) <$> seqZ 0 (me_size (entries s).[i]).

Lemma bad_handle_iff s i : bad_handle s i = false <-> used s i.
Proof.
  unfold bad_handle, used. rewrite !orb_false_iff, negb_false_iff, Z.ltb_ge, Z.geb_leb, Z.leb_gt. tauto.
Qed.

Lemma capacity_bound s L i :
  memfs_wf s L -> used s i ->
  0 <= me_size (entries s).[i] <= me_capacity (entries s).[i] /\
  0 < me_capacity (entries s).[i] < 4294967296 /\ 0 < me_data (entries s).[i] /\
  me_data (entries s).[i] + me_capacity (entries s).[i] <= 4294967296.
Proof.
  intros Hw [Hi Hu]. destruct (mf_data s L Hw i Hi Hu) as (H1 & H2 & _ & n & Hn & H3).
  destruct (al_range _ _ _ _ _ (mf_rep _ _ Hw) Hn) as (? & ? & ?). lia.
Qed.

Lemma memfs_content_length s L i :
  memfs_wf s L -> used s i -> zlen (memfs_content s i) = me_size (entries s).[i].
Proof.
  intros Hw Hu. destruct (capacity_bound s L i Hw Hu) as (? & _).
  unfold memfs_content, zlen. rewrite length_fmap, length_seqZ. lia.
Qed.

Lemma memfs_content_get s i k :
  0 <= k < me_size (entries s).[i] ->
  (memfs_content s i).[k] = ld8 (fs_mem s) (me_data (entries s).[i] + k).
Proof.
  intros Hk. unfold memfs_content. rewrite list_lookup_total_alt, list_lookup_fmap.
  rewrite lookup_seqZ_lt by lia. simpl. do 2 f_equal. lia.
Qed.

Lemma content_ext s s' i j :
  me_size (entries s').[j] = me_size (entries s).[i] ->
  (forall k, 0 <= k < me_size (entries s).[i] ->
     ld8 (fs_mem s') (me_data (entries s').[j] + k) = ld8 (fs_mem s) (me_data (entries s).[i] + k)) ->
  memfs_content s' j = memfs_content s i.
Proof.
  intros Hs Hk. unfold memfs_content. rewrite Hs. apply list_fmap_ext.
  intros n k E. apply lookup_seqZ in E as [-> E]. apply Hk. lia.
Qed.

(** A byte of a file lies in a live allocation. *)
Lemma content_live s L i k :
  memfs_wf s L -> used s i -> 0 <= k < me_size (entries s).[i] ->
  exists n, L !! me_data (entries s).[i] = Some n /\
    me_data (entries s).[i] <= me_data (entries s).[i] + k < me_data (entries s).[i] + n.
Proof.
  intros Hw [Hi Hu] Hk. destruct (mf_data s L Hw i Hi Hu) as (H1 & H2 & _ & n & Hn & H3).
  exists n. split; [done|lia].
Qed.

(** Every live allocation kept, so is every file. *)
Lemma keeps_content s s' L i :
  memfs_wf s L -> used s i -> (entries s').[i] = (entries s).[i] ->
  keeps L (fs_mem s) (fs_mem s') -> memfs_content s' i = memfs_content s i.
Proof.
  intros Hw Hu He Hk. apply content_ext; rewrite He; [done|]. intros k Hb.
  destruct (content_live s L i k Hw Hu Hb) as (n & Hn & Hin). by apply (Hk (me_data (entries s).[i]) n).
Qed.

(** A new allocation does not disturb the invariant. *)
Lemma memfs_wf_malloc s L h m p n :
  memfs_wf s L -> L !! p = None -> al_rep h m (<[p := n]> L) ->
  memfs_wf (with_heap s h m) (<[p := n]> L).
Proof.
  intros Hw Hp Hr. destruct Hw as [W1 W2 W3 W4 W5 W6]. split; try done; simpl.
  - destruct W3 as [?|(k & Hk & Hc & Hn)]; [by left|right]. exists k. split; [|done].
    rewrite lookup_insert_ne; [done|]. intros ->. congruence.
  - intros i Hi Hu. destruct (W4 i Hi Hu) as (H1 & H2 & H3 & k & Hk & H4). simpl.
    split_and!; try done; try lia. exists k. split; [|done].
    rewrite lookup_insert_ne; [done|]. intros ->. congruence.
Qed.

Lemma memfs_wf_heap s L h m :
  memfs_wf s L -> al_rep h m L -> memfs_wf (with_heap s h m) L.
Proof. intros [W1 W2 W3 W4 W5 W6] Hr. by split. Qed.

(** The entry of a used slot replaced. *)
Lemma memfs_wf_entry s L i e :
  memfs_wf s L -> 0 <= i < entry_capacity s ->
  zlen (me_name e) = 32 ->
  (me_in_use e = true -> zlen (cstr (me_name e)) <= 31 /\
     0 <= me_size e <= me_capacity e /\ 0 < me_capacity e /\ me_data e <> entries_ptr s /\
     (exists n, L !! me_data e = Some n /\ me_capacity e <= n) /\
     (forall j, used s j -> j <> i -> me_data (entries s).[j] <> me_data e)) ->
  memfs_wf (with_entry s i e) L.
Proof.
  intros [W1 W2 W3 W4 W5 W6] Hi Hlen He.
  assert (Hget : forall j, 0 <= j < entry_capacity s ->
    ((entries s).[i <- e]).[j] = if decide (i = j) then e else (entries s).[j]).
  { intros j Hj. apply aget_aset_cases; lia. }
  split; simpl; try done.
  - by rewrite aset_length.
  - intros j Hj Hu. rewrite Hget in * by done. case_decide; [|by apply W4].
    destruct (He Hu) as (? & ? & ? & ? & ? & _). done.
  - intros j k Hj Hk Hne Huj Huk. rewrite Hget in Huj by done. rewrite Hget in Huk by done.
    rewrite !Hget by done.
    destruct (decide (i = j)) as [<-|]; [destruct (decide (i = k)); [done|]|
      destruct (decide (i = k)) as [<-|]].
    + intros E. destruct (He Huj) as (_ & _ & _ & _ & _ & Hd).
      by refine (Hd k _ _ (eq_sym E)); [split|congruence].
    + destruct (He Huk) as (_ & _ & _ & _ & _ & Hd). apply (Hd j); [by split|congruence].
    + by apply W5.
  - intros j Hj. rewrite Hget by done. case_decide; [|by apply W6].
    split; [done|]. intros Hu. by apply He.
Qed.

(** ** Growth of a file's buffer *)

(** [s'] has the files of [s], with the same names and contents. *)
Definition files_kept s s' : Prop :=
  entry_capacity s' = entry_capacity s /\
  forall i, 0 <= i < entry_capacity s ->
    me_in_use (entries s').[i] = me_in_use (entries s).[i] /\
    (used s i -> me_name (entries s').[i] = me_name (entries s).[i] /\
                 memfs_content s' i = memfs_content s i).

Lemma files_kept_refl s : files_kept s s.
Proof. by split. Qed.

Lemma files_kept_heap s L h m :
  memfs_wf s L -> keeps L (fs_mem s) m -> files_kept s (with_heap s h m).
Proof.
  intros Hw Hk. split; [done|]. intros i Hi. split; [done|]. intros Hu. split; [done|].
  by apply (keeps_content s _ L).
Qed.

(** Copying a buffer into a fresh allocation. *)
Lemma copy_into_fresh h m L src dst n cap :
  al_rep h m (<[dst := n]> L) -> L !! dst = None -> 0 <= cap <= n ->
  (exists k, L !! src = Some k /\ cap <= k) ->
  let m' := for_each 0 cap (fun i m => st8 m (dst + i) (ld8 m (src + i))) m in
  al_rep h m' (<[dst := n]> L) /\ keeps L m m' /\
  forall k, 0 <= k < cap -> ld8 m' (dst + k) = ld8 m (src + k).
Proof.
  intros Hr Hfree Hcap (k & Hk & Hck) m'.
  assert (Hsrc : <[dst := n]> L !! src = Some k) by (rewrite lookup_insert_ne; congruence).
  assert (Hdst : <[dst := n]> L !! dst = Some n) by (by rewrite lookup_insert_eq).
  assert (Hne : src <> dst) by congruence.
  assert (Hap : forall q x, L !! q = Some x -> q + x <= dst \/ dst + n <= q).
  { intros q x Hq. assert (Hq' : <[dst := n]> L !! q = Some x) by (rewrite lookup_insert_ne; congruence).
    destruct (al_apart _ _ _ _ _ _ _ Hr Hq' Hdst); [congruence|by left|by right]. }
  pose proof (Hap src k Hk) as Hsd.
  assert (Hby : forall a, ld8 m' a =
    if decide (dst <= a < dst + cap) then ld8 m (src + (a - dst)) else ld8 m a).
  { intros a. apply copy_mem_spec. lia. }
  split; [|split].
  - apply (al_frame h m); [done|]. intros a Ha. rewrite Hby in Ha. case_decide; [|done].
    exists dst, n. split; [done|lia].
  - intros q x a Hq Ha. rewrite Hby. destruct (Hap q x Hq); by rewrite decide_False by lia.
  - intros j Hj. rewrite Hby, decide_True by lia. f_equal. lia.
Qed.

Lemma buffer_capacity_spec s L h needed :
  memfs_wf s L -> used s h -> 0 <= needed <= 2147483648 ->
  exists s' rc L', ensure_capacity s h needed = Some (s', rc) /\ memfs_wf s' L' /\
    files_kept s s' /\
    (rc = -1 \/ (rc = 0 /\ needed <= me_capacity (entries s').[h])).
Proof.
  intros Hw Hu Hn. unfold ensure_capacity. destruct (capacity_bound s L h Hw Hu) as (H1 & H2 & H3 & H4).
  set (e := (entries s).[h]) in *.
  destruct (needed <=? me_capacity e) eqn:E1; bool_prop.
  { exists s, 0, L. split_and!; try done; try apply files_kept_refl. by right. }
  rewrite (u32_small (me_capacity e * 2)) by lia.
  destruct (double_until_total needed (me_capacity e * 2)) as (c & -> & C1 & C2 & _ & _); [lia|lia|].
  cbn [mbind option_bind].
  destruct (al_malloc_law (fs_heap s) (fs_mem s) L c (mf_rep _ _ Hw) ltac:(lia))
    as (h1 & m1 & p & -> & Hk1 & Hout). cbn [mbind option_bind].
  destruct Hout as [[-> Hr1]|(Hfresh & n & Hcn & Hr1)].
  { exists (with_heap s h1 m1), (-1), L. split; [done|]. split; [by apply memfs_wf_heap|].
    split; [by apply (files_kept_heap s L)|by left]. }
  destruct (al_range _ _ _ p n Hr1 ltac:(by rewrite lookup_insert_eq)) as (Hp & _ & _).
  replace (p =? 0) with false by lia.
  destruct Hu as [Hi Hui]. destruct (mf_data s L Hw h Hi Hui) as (_ & _ & Hnt & k & Hk & Hck). fold e in Hnt, Hk, Hck.
  destruct (copy_into_fresh h1 m1 L (me_data e) p n (me_size e) Hr1 Hfresh ltac:(lia) ltac:(exists k; split; [done|lia]))
    as (Hr2 & Hk2 & Hcopy). set (m2 := for_each 0 (me_size e) _ m1) in *.
  assert (Hne : p <> me_data e) by congruence.
  destruct (al_free_law h1 m2 (<[p := n]> L) (me_data e) k Hr2) as (h3 & m3 & -> & Hk3 & Hr3);
    [by rewrite lookup_insert_ne|]. cbn [mbind option_bind].
  pose proof (memfs_wf_malloc s L h1 m2 p n Hw Hfresh Hr2) as Hw2.
  set (L3 := delete (me_data e) (<[p := n]> L)) in *.
  assert (HL3 : forall q, q <> me_data e -> q <> p -> L3 !! q = L !! q).
  { intros q ??. unfold L3. by rewrite lookup_delete_ne, lookup_insert_ne by done. }
  assert (HL3p : L3 !! p = Some n).
  { unfold L3. by rewrite lookup_delete_ne, lookup_insert_eq by done. }
  set (e' := mk_entry (me_name e) p (me_size e) c (me_in_use e)).
  set (s' := with_entry (with_heap (with_heap s h1 m1) h3 m3) h e').
  assert (Hget : forall j, 0 <= j < entry_capacity s ->
    (entries s').[j] = if decide (h = j) then e' else (entries s).[j]).
  { intros j Hj. simpl. apply aget_aset_cases; [rewrite (mf_len _ _ Hw)|]; lia. }
  assert (Hdata : forall j, used s j -> j <> h -> me_data (entries s).[j] <> me_data e /\ me_data (entries s).[j] <> p).
  { intros j [Hj Huj] Hjh. split; [by apply (mf_distinct _ _ Hw)|].
    destruct (mf_data _ _ Hw j Hj Huj) as (_ & _ & _ & x & Hx & _). congruence. }
  exists s', 0, L3. split; [done|]. split.
  - destruct Hw as [W1 W2 W3 W4 W5 W6]. split; simpl; try done.
    + by rewrite aset_length.
    + destruct W3 as [?|(x & Hx & Hc & Hxn)]; [by left|right]. exists x. split; [|done].
      rewrite HL3; [done|congruence|congruence].
    + intros j Hj Huj. change ((entries s).[h <- e']) with (entries s') in Huj |- *.
      rewrite Hget in Huj |- * by done. destruct (decide (h = j)) as [<-|].
      * simpl. split; [lia|]. split; [lia|]. split; [|by exists n].
        destruct W3 as [[? ->]|(x & Hx & _)]; [lia|congruence].
      * destruct (W4 j Hj Huj) as (J1 & J2 & J3 & x & Hx & J4). split; [done|]. split; [done|].
        split; [done|]. exists x. split; [|done].
        destruct (Hdata j) as [? ?]; [by split|congruence|]. by rewrite HL3.
    + intros i j Hi' Hj Hij Hui' Huj.
      change ((entries s).[h <- e']) with (entries s') in Hui', Huj |- *.
      rewrite Hget in Hui' by done. rewrite Hget in Huj by done. rewrite !Hget by done.
      destruct (decide (h = i)) as [<-|], (decide (h = j)) as [<-|]; [done| | |by apply W5].
      * intros E. destruct (Hdata j) as [? ?]; [by split|congruence|]. simpl in E. congruence.
      * destruct (Hdata i) as [? ?]; [by split|congruence|]. simpl. congruence.
    + intros j Hj. change ((entries s).[h <- e']) with (entries s'). rewrite Hget by done.
      case_decide; [subst; simpl; by apply W6|by apply W6].
  - split.
    + split; [done|]. intros j Hj. rewrite Hget by done. destruct (decide (h = j)) as [<-|Hjh].
      * split; [done|]. intros _. split; [done|]. apply content_ext; rewrite Hget by done;
          rewrite decide_True by done; [done|]. intros x Hx. fold e in Hx |- *. simpl.
        rewrite (Hk3 p n) by (try apply HL3p; lia). rewrite Hcopy by lia.
        apply (Hk1 (me_data e) k); [done|lia].
      * split; [done|]. intros Huj. split; [done|].
        assert (He : (entries s').[j] = (entries s).[j]) by (rewrite Hget, decide_False by done; done).
        apply content_ext; rewrite He; [done|]. intros x Hx. simpl.
        destruct (content_live s L j x Hw Huj Hx) as (y & Hy & Hin).
        destruct (Hdata j Huj) as [? ?]; [congruence|].
        rewrite (Hk3 (me_data (entries s).[j]) y) by (try (rewrite HL3 by done; exact Hy); done).
        rewrite (Hk2 (me_data (entries s).[j]) y) by done. by apply (Hk1 (me_data (entries s).[j]) y).
    + right. split; [done|]. rewrite Hget, decide_True by done. simpl. lia.
Qed.

(** ** Writing and reading *)

(** Every file but the one in slot [h] is kept. *)
Definition others_kept s s' h : Prop :=
  entry_capacity s' = entry_capacity s /\
  forall i, 0 <= i < entry_capacity s -> i <> h ->
    me_in_use (entries s').[i] = me_in_use (entries s).[i] /\
    (used s i -> me_name (entries s').[i] = me_name (entries s).[i] /\
                 memfs_content s' i = memfs_content s i).

(** The outcome of writing [len] bytes of [buf] at [offset] of slot [h]. *)
Definition write_outcome s (h offset : Z) buf (len : Z) (r : memfs H * Z) : Prop :=
  (r = (s, -1) /\ (~ used s h \/ 4294967296 <= offset + len)) \/
  (exists s' L', r = (s', -1) /\ memfs_wf s' L' /\ files_kept s s' /\
     me_capacity (entries s).[h] < offset + len) \/
  (exists s' L', r = (s', len) /\ memfs_wf s' L' /\ used s' h /\ others_kept s s' h /\
     me_name (entries s').[h] = me_name (entries s).[h] /\
     zlen (memfs_content s' h) = Z.max (zlen (memfs_content s h)) (offset + len) /\
     forall k, 0 <= k < zlen (memfs_content s' h) ->
       (offset <= k < offset + len -> (memfs_content s' h).[k] = buf.[k - offset]) /\
       (k < zlen (memfs_content s h) -> ~ (offset <= k < offset + len) ->
          (memfs_content s' h).[k] = (memfs_content s h).[k])).

(** The copy loop of [memfs_write_at]. *)
Lemma write_loop_spec (m : mem) (data offset len : Z) buf a :
  0 <= offset -> 0 <= len -> offset + len < 4294967296 -> bytes_ok buf ->
  ld8 (for_each 0 len (fun i m => st8 m (data + (offset +32 i)) buf.[i]) m) a =
    if decide (data + offset <= a < data + offset + len) then buf.[a - (data + offset)] else ld8 m a.
Proof.
  intros Ho Hl Hov Hb. apply (for_each_inv 0 len _ m (fun k m' => ld8 m' a =
    if decide (data + offset <= a < data + offset + k) then buf.[a - (data + offset)] else ld8 m a)); [lia| |].
  - by rewrite decide_False by lia.
  - intros k m' Hk IH. rewrite (u32_small (offset + k)) by lia. rewrite ld8_st8.
    destruct (decide (data + (offset + k) = a)) as [<-|].
    + rewrite decide_True by lia. rewrite u8_small by (apply Hb; lia). do 2 f_equal. lia.
    + rewrite IH. repeat case_decide; try lia; done.
Qed.

(** The write itself, inside the capacity. *)
Lemma write_in_place s L h offset buf len :
  memfs_wf s L -> used s h -> bytes_ok buf -> 0 <= offset -> 0 <= len ->
  offset + len <= me_capacity (entries s).[h] ->
  let e := (entries s).[h] in
  let m := for_each 0 len (fun i m => st8 m (me_data e + (offset +32 i)) buf.[i]) (fs_mem s) in
  let sz := if offset + len >? me_size e then offset + len else me_size e in
  let s' := with_entry (with_heap s (fs_heap s) m) h
    (mk_entry (me_name e) (me_data e) sz (me_capacity e) (me_in_use e)) in
  memfs_wf s' L /\ used s' h /\ others_kept s s' h /\
  me_name (entries s').[h] = me_name (entries s).[h] /\
  zlen (memfs_content s' h) = Z.max (zlen (memfs_content s h)) (offset + len) /\
  forall k, 0 <= k < zlen (memfs_content s' h) ->
    (offset <= k < offset + len -> (memfs_content s' h).[k] = buf.[k - offset]) /\
    (k < zlen (memfs_content s h) -> ~ (offset <= k < offset + len) ->
       (memfs_content s' h).[k] = (memfs_content s h).[k]).
Proof.
  intros Hw Hu Hb Ho Hl Hcap e m sz s'. destruct (capacity_bound s L h Hw Hu) as (H1 & H2 & H3 & H4).
  pose proof Hu as [Hi Hui]. destruct (mf_data s L Hw h Hi Hui) as (_ & _ & Hnt & n & Hn & Hcn).
  fold e in H1, H2, H3, H4, Hcap, Hnt, Hn, Hcn.
  assert (Hsz : sz = Z.max (me_size e) (offset + len)) by (subst sz; split_if; lia).
  assert (Hby : forall a, ld8 m a = if decide (me_data e + offset <= a < me_data e + offset + len)
    then buf.[a - (me_data e + offset)] else ld8 (fs_mem s) a).
  { intros a. apply write_loop_spec; try done. lia. }
  assert (Hr : al_rep (fs_heap s) m L).
  { apply (al_frame _ (fs_mem s)); [apply Hw|]. intros a Ha. rewrite Hby in Ha.
    case_decide; [|done]. exists (me_data e), n. split; [done|lia]. }
  set (e' := mk_entry (me_name e) (me_data e) sz (me_capacity e) (me_in_use e)) in *.
  assert (Hw' : memfs_wf s' L).
  { destruct (mf_names s L Hw h Hi) as [Hnl Hns]. apply memfs_wf_entry; simpl; try done.
    - by apply memfs_wf_heap.
    - intros _. split; [by apply Hns|]. split; [lia|]. split; [lia|]. split; [done|].
      split; [by exists n|]. intros j [Hj Huj] Hjh. by apply (mf_distinct s L Hw). }
  assert (Hget : forall j, 0 <= j < entry_capacity s ->
    (entries s').[j] = if decide (h = j) then e' else (entries s).[j]).
  { intros j Hj. simpl. apply aget_aset_cases; [rewrite (mf_len _ _ Hw)|]; lia. }
  assert (Heh : (entries s').[h] = e') by (rewrite Hget, decide_True by done; done).
  assert (Hu' : used s' h) by (split; [done|by rewrite Heh]).
  split; [done|]. split; [done|]. split; [split; [done|]|].
  { intros j Hj Hjh. assert (He : (entries s').[j] = (entries s).[j])
      by (rewrite Hget, decide_False by congruence; done).
    rewrite He. split; [done|]. intros Huj. split; [done|]. apply content_ext; rewrite He; [done|].
    intros k Hk. simpl. rewrite Hby. rewrite decide_False; [done|].
    destruct (content_live s L j k Hw Huj Hk) as (x & Hx & Hin).
    destruct Huj as [_ Huj]. pose proof (mf_distinct s L Hw j h Hj Hi Hjh Huj Hui) as Hd. fold e in Hd.
    destruct (al_apart _ _ _ _ _ _ _ (mf_rep _ _ Hw) Hx Hn Hd); lia. }
  split; [by rewrite Heh|].
  rewrite (memfs_content_length s' L), (memfs_content_length s L) by done. rewrite Heh. fold e. simpl.
  split; [done|]. intros k Hk.
  assert (Hc : (memfs_content s' h).[k] = ld8 m (me_data e + k)).
  { rewrite memfs_content_get by (rewrite Heh; simpl; lia). by rewrite Heh. }
  rewrite Hc, Hby. split.
  - intros Hin. rewrite decide_True by lia. do 2 f_equal. lia.
  - intros Hks Hout. rewrite decide_False by lia. symmetry. apply memfs_content_get. fold e. lia.
Qed.

Lemma memfs_write_at_spec s L h offset buf len :
  memfs_wf s L -> bytes_ok buf -> 0 <= offset < 4294967296 -> 0 <= len < 2147483648 ->
  (offset + len <= 2147483648 \/ 4294967296 <= offset + len) ->
  exists r, memfs_write_at s h offset buf len = Some r /\ write_outcome s h offset buf len r.
Proof.
  intros Hw Hb Ho Hl Hbig. unfold memfs_write_at, write_outcome.
  destruct (bad_handle s h) eqn:Hbad.
  { eexists. split; [done|]. left. split; [done|]. left. intros Hu.
    apply bad_handle_iff in Hu. congruence. }
  apply bad_handle_iff in Hbad as Hu.
  destruct Hbig as [Hsm|Hbig]; cycle 1.
  { replace (offset +32 len) with (offset + len - 4294967296).
    2: { unfold u32. apply (Z.mod_unique _ _ 1); lia. }
    replace (_ <? _) with true by lia. eexists. split; [done|]. left. auto. }
  rewrite (u32_small (offset + len)) by lia. replace (_ <? _) with false by lia.
  destruct (buffer_capacity_spec s L h (offset + len) Hw Hu ltac:(lia)) as (s1 & rc & L1 & Eq & Hw1 & [Kc Hkept] & Hrc).
  rewrite Eq. cbn [mbind option_bind]. destruct Hu as [Hi Hui].
  destruct (Hkept h Hi) as [Hin Hh]. specialize (Hh ltac:(by split)) as [Hname Hcont].
  destruct Hrc as [->|[-> Hcap]]; cbn [negb Z.eqb].
  - eexists. split; [done|]. right; left. exists s1, L1. split; [done|]. split; [done|]. split; [done|].
    destruct (decide (me_capacity (entries s).[h] < offset + len)); [done|].
    unfold ensure_capacity in Eq. replace (_ <=? _) with true in Eq by lia. done.
  - assert (Hu1 : used s1 h) by (split; [by rewrite Kc|congruence]).
    destruct (write_in_place s1 L1 h offset buf len Hw1 Hu1 Hb ltac:(lia) ltac:(lia) Hcap)
      as (W1 & W2 & [W3 W3'] & W4 & W5 & W6).
    eexists. split; [done|]. right; right. rewrite (s32_small len) by lia. eexists _, L1.
    split; [done|]. split; [exact W1|]. split; [exact W2|]. split.
    { split; [by rewrite W3|]. intros i Hi0 Hne. destruct (Hkept i Hi0) as [Hki1 Hki2].
      destruct (W3' i ltac:(by rewrite Kc) Hne) as [Hj1 Hj2]. split; [congruence|]. intros Hui0.
      destruct (Hki2 Hui0) as [Hn1 Hc1]. destruct Hj2 as [Hn2 Hc2].
      { split; [by rewrite Kc|]. rewrite Hki1. apply Hui0. }
      split; congruence. }
    split; [congruence|]. rewrite Hcont in W5, W6. split; [exact W5|exact W6].
Qed.

(** What a read returns. *)
Definition read_outcome s (h offset : Z) (out : list Z) (len : Z) (r : list Z * Z) : Prop :=
  (~ used s h /\ r = (out, -1)) \/
  (used s h /\ zlen (memfs_content s h) <= offset /\ r = (out, 0)) \/
  (used s h /\ offset < zlen (memfs_content s h) /\
   let n := Z.min len (zlen (memfs_content s h) - offset) in
   r.2 = n /\ zlen r.1 = zlen out /\
   forall i, 0 <= i -> r.1.[i] =
     if decide (i < n) then (memfs_content s h).[offset + i] else out.[i]).

Lemma memfs_read_at_spec s L h offset out len :
  memfs_wf s L -> 0 <= offset < 4294967296 -> 0 <= len <= zlen out -> len < 2147483648 ->
  read_outcome s h offset out len (memfs_read_at s h offset out len).
Proof.
  intros Hw Ho Hl Hl31. unfold memfs_read_at, read_outcome. destruct (bad_handle s h) eqn:Hbad.
  { left. split; [|done]. intros Hu. apply bad_handle_iff in Hu. congruence. }
  apply bad_handle_iff in Hbad as Hu. right. rewrite (memfs_content_length s L) by done.
  destruct (capacity_bound s L h Hw Hu) as (H1 & H2 & H3 & H4). set (e := (entries s).[h]) in *.
  destruct (offset >=? me_size e) eqn:E; bool_prop; [by left|right].
  split; [done|]. split; [done|]. rewrite (u32_small (me_size e - offset)) by lia.
  replace (if len >? me_size e - offset then me_size e - offset else len)
    with (Z.min len (me_size e - offset)) by (split_if; lia).
  set (n := Z.min len (me_size e - offset)). simpl. split; [apply s32_small; lia|].
  destruct (for_each_fill out n (fun i => ld8 (fs_mem s) (me_data e + (offset +32 i))) ltac:(lia)) as [Hz Hg].
  split; [done|]. intros i Hi. rewrite Hg by done. case_decide; [|done].
  rewrite memfs_content_get by (fold e; lia). fold e. rewrite u32_small by lia. done.
Qed.

(** ** The table *)

Lemma copy_entry_slot_id e : copy_entry_slot e = e.
Proof. by destruct e. Qed.

(** The two loops of [grow_table]. *)
Lemma grow_fill (old : list memfs_entry_t) cap n :
  0 <= cap <= n -> zlen old = cap ->
  let t1 := for_each 0 cap (fun i t => t.[i <- copy_entry_slot old.[i]])
              (replicate (Z.to_nat n) empty_entry) in
  let t2 := for_each cap n (fun i t => t.[i <- init_entry_slot t.[i]]) t1 in
  zlen t2 = n /\ (forall i, 0 <= i < cap -> t2.[i] = old.[i]) /\
  (forall i, cap <= i < n -> me_in_use t2.[i] = false /\ zlen (me_name t2.[i]) = 32).
Proof.
  intros Hc Hl t1 t2.
  assert (H1 : zlen t1 = n /\ forall i, 0 <= i < n -> t1.[i] = if decide (i < cap) then old.[i] else empty_entry).
  { apply (for_each_inv 0 cap _ _ (fun k t => zlen t = n /\ forall i, 0 <= i < n ->
      t.[i] = if decide (i < k) then old.[i] else empty_entry)); [lia| |].
    - split; [unfold zlen; rewrite length_replicate; lia|]. intros i Hi. rewrite decide_False by lia.
      apply lookup_total_replicate_2. lia.
    - intros k t Hk [Hz Hg]. split; [by rewrite aset_length|]. intros i Hi.
      rewrite aget_aset_cases by lia. rewrite copy_entry_slot_id. destruct (decide (k = i)) as [->|].
      + by rewrite decide_True by lia.
      + rewrite Hg by done. repeat case_decide; try lia; done. }
  destruct H1 as [Hz1 Hg1].
  assert (H2 : zlen t2 = n /\ forall i, 0 <= i < n ->
    t2.[i] = if decide (i < cap) then old.[i]
             else if decide (i < n) then init_entry_slot empty_entry else empty_entry).
  { apply (for_each_inv cap n _ t1 (fun k t => zlen t = n /\ forall i, 0 <= i < n ->
      t.[i] = if decide (i < cap) then old.[i]
              else if decide (i < k) then init_entry_slot empty_entry else empty_entry)); [lia| |].
    - split; [done|]. intros i Hi. rewrite Hg1 by done. repeat case_decide; try lia; done.
    - intros k t Hk [Hz Hg]. split; [by rewrite aset_length|]. intros i Hi.
      rewrite aget_aset_cases by lia. destruct (decide (k = i)) as [->|].
      + rewrite Hg by done. rewrite (decide_False (P := i < cap)) by lia.
        rewrite (decide_False (P := i < i)), (decide_True (P := i < i + 1)) by lia.
        by rewrite decide_False by lia.
      + rewrite Hg by done. repeat case_decide; try lia; done. }
  destruct H2 as [Hz2 Hg2]. split; [done|]. split.
  - intros i Hi. rewrite Hg2 by lia. by rewrite decide_True by lia.
  - intros i Hi. rewrite Hg2 by lia. rewrite decide_False by lia. rewrite decide_True by lia.
    split; [done|reflexivity].
Qed.

Lemma table_bound s L : memfs_wf s L -> 0 <= entry_capacity s <= 76695844.
Proof.
  intros Hw. destruct (mf_table _ _ Hw) as [[-> _]|(n & Hn & Hc & H56)]; [lia|].
  destruct (al_range _ _ _ _ _ (mf_rep _ _ Hw) Hn) as (? & ? & ?). lia.
Qed.

(** The table moved to [p], with free slots added and the old one released. *)
Lemma memfs_wf_table s L (t : list memfs_entry_t) n p k h m L' :
  memfs_wf s L -> entry_capacity s <= n -> 0 < n -> zlen t = n ->
  (forall i, 0 <= i < entry_capacity s -> t.[i] = (entries s).[i]) ->
  (forall i, entry_capacity s <= i < n -> me_in_use t.[i] = false /\ zlen (me_name t.[i]) = 32) ->
  L !! p = None -> 56 * n <= k -> L' !! p = Some k ->
  (forall q, q <> entries_ptr s -> q <> p -> L' !! q = L !! q) -> al_rep h m L' ->
  memfs_wf (mk_memfs t p n h m) L'.
Proof.
  intros Hw Hcn Hn Hz Hold Hnew Hp Hk Hp' HL Hr.
  assert (Hcase : forall i, 0 <= i < n -> me_in_use t.[i] = true -> used s i /\ t.[i] = (entries s).[i]).
  { intros i Hi Hu. destruct (decide (i < entry_capacity s)).
    - assert (E : t.[i] = (entries s).[i]) by (apply Hold; lia). split; [|done]. split; [lia|congruence].
    - destruct (Hnew i ltac:(lia)) as [Hf _]. congruence. }
  split; simpl; try done.
  - right. by exists k.
  - intros i Hi Hu. destruct (Hcase i Hi Hu) as [[Hi' Hu'] E]. rewrite E.
    destruct (mf_data s L Hw i Hi' Hu') as (J1 & J2 & J3 & x & Hx & J4).
    split; [done|]. split; [done|]. split; [congruence|]. exists x. split; [|done].
    rewrite HL; [done|done|congruence].
  - intros i j Hi Hj Hij Hui Huj. destruct (Hcase i Hi Hui) as [[Hi' Hui'] ->].
    destruct (Hcase j Hj Huj) as [[Hj' Huj'] ->]. by apply (mf_distinct s L Hw).
  - intros i Hi. destruct (decide (i < entry_capacity s)).
    + rewrite Hold by lia. apply (mf_names s L Hw). lia.
    + destruct (Hnew i ltac:(lia)) as [Hf Hl]. split; [done|]. rewrite Hf. done.
Qed.

Lemma grow_table_spec s L :
  memfs_wf s L ->
  exists s' rc L', grow_table s = Some (s', rc) /\ memfs_wf s' L' /\
    ((rc = -1 /\ files_kept s s' /\ entries s' = entries s) \/
     (rc = 0 /\ entry_capacity s < entry_capacity s' /\
      (forall i, 0 <= i < entry_capacity s -> (entries s').[i] = (entries s).[i] /\
         (used s i -> memfs_content s' i = memfs_content s i)) /\
      forall i, entry_capacity s <= i < entry_capacity s' -> me_in_use (entries s').[i] = false)).
Proof.
  intros Hw. unfold grow_table, MEMFS_INITIAL_CAPACITY, MEMFS_ENTRY_SIZEOF.
  pose proof (table_bound s L Hw) as Hcb. rewrite s32_small by lia.
  set (n := if entry_capacity s =? 0 then 4 else entry_capacity s * 2).
  assert (Hn : entry_capacity s < n /\ 0 < n <= 153391688) by (subst n; split_if; lia).
  clearbody n. rewrite (u64_small n) by lia. rewrite (u64_small (56 * n)) by lia.
  destruct (al_malloc_law (fs_heap s) (fs_mem s) L (56 * n) (mf_rep _ _ Hw) ltac:(lia))
    as (h1 & m1 & p & -> & Hk1 & Hout). cbn [mbind option_bind].
  destruct Hout as [[-> Hr1]|(Hfresh & k & Hkn & Hr1)].
  { exists (with_heap s h1 m1), (-1), L. split; [done|]. split; [by apply memfs_wf_heap|].
    left. split; [done|]. split; [by apply (files_kept_heap s L)|done]. }
  destruct (al_range _ _ _ p k Hr1 ltac:(by rewrite lookup_insert_eq)) as (Hp & _ & _).
  replace (p =? 0) with false by lia.
  destruct (grow_fill (entries s) (entry_capacity s) n ltac:(lia) (mf_len _ _ Hw)) as (Hz & Hold & Hnew).
  set (t := for_each (entry_capacity s) n _ _) in *. clearbody t.
  assert (Hfree : exists h2 m2 L2, (if negb (entries_ptr s =? 0) then al_free h1 m1 (entries_ptr s)
      else Some (h1, m1)) = Some (h2, m2) /\ al_rep h2 m2 L2 /\ L2 !! p = Some k /\
      (forall q, q <> entries_ptr s -> q <> p -> L2 !! q = L !! q) /\
      (forall q x a, q <> entries_ptr s -> L !! q = Some x -> q <= a < q + x -> ld8 m2 a = ld8 (fs_mem s) a)).
  { destruct (entries_ptr s =? 0) eqn:E; bool_prop; simpl.
    - exists h1, m1, (<[p := k]> L). split; [done|]. split; [done|]. split; [by rewrite lookup_insert_eq|].
      split; [intros; by rewrite lookup_insert_ne|]. intros q x a _. apply Hk1.
    - destruct (mf_table _ _ Hw) as [[_ ?]|(x & Hx & _)]; [done|].
      assert (Hpe : p <> entries_ptr s) by congruence.
      destruct (al_free_law h1 m1 (<[p := k]> L) (entries_ptr s) x Hr1) as (h2 & m2 & -> & Hk2 & Hr2);
        [by rewrite lookup_insert_ne|].
      exists h2, m2, (delete (entries_ptr s) (<[p := k]> L)). split; [done|]. split; [done|].
      split; [by rewrite lookup_delete_ne, lookup_insert_eq|].
      split; [intros; by rewrite lookup_delete_ne, lookup_insert_ne|].
      intros q y a Hq Hy Ha. rewrite (Hk2 q y); [by apply (Hk1 q y)| |done].
      rewrite lookup_delete_ne, lookup_insert_ne; [done|congruence|congruence]. }
  destruct Hfree as (h2 & m2 & L2 & -> & Hr2 & HL2p & HL2 & Hby). cbn [mbind option_bind].
  exists (mk_memfs t p n h2 m2), 0, L2. split; [done|]. split.
  { apply (memfs_wf_table s L t n p k); try done; lia. }
  right. split; [done|]. split; [simpl; lia|]. split.
  - intros i Hi. split; [by apply Hold|]. intros Hu. apply content_ext; simpl; rewrite Hold by done; [done|].
    intros x Hx. destruct (content_live s L i x Hw Hu Hx) as (y & Hy & Hin).
    destruct Hu as [_ Hu]. destruct (mf_data s L Hw i Hi Hu) as (_ & _ & Hne & _). by apply (Hby (me_data (entries s).[i]) y).
  - intros i Hi. simpl in *. by apply Hnew.
Qed.

(** ** Names *)

Definition named s (i : Z) nm : Prop := used s i /\ cstr (me_name (entries s).[i]) = cstr nm.

Lemma find_slot_cases s nm :
  (exists i, named s i nm /\ find_slot s nm = i /\ forall j, 0 <= j < i -> ~ named s j nm) \/
  ((forall i, ~ named s i nm) /\ find_slot s nm = -1).
Proof.
  unfold find_slot.
  assert (Htest : forall i, 0 <= i < entry_capacity s ->
    me_in_use (entries s).[i] && str_eq_and (me_name (entries s).[i]) nm = true <-> named s i nm).
  { intros i Hi. rewrite andb_true_iff, str_eq_and_cstr. unfold named, used. tauto. }
  pose proof (find_first_spec 0 (entry_capacity s)
    (fun i => me_in_use (entries s).[i] && str_eq_and (me_name (entries s).[i]) nm)) as Hf.
  destruct (find_first _ _ _) as [i|]; simpl.
  - destruct Hf as (Hi & Ht & Hlow). left. exists i. split; [by apply Htest|]. split; [done|].
    intros j Hj Hn. apply Htest in Hn; [|lia]. by rewrite Hlow in Hn.
  - right. split; [|done]. intros i Hn. assert (Hi : 0 <= i < entry_capacity s) by apply Hn.
    apply Htest in Hn; [|done]. by rewrite Hf in Hn.
Qed.

Lemma copy_name_spec dst nm :
  zlen dst = 32 -> zlen (copy_name dst nm) = 32 /\
  zlen (cstr (copy_name dst nm)) <= 31 /\
  cstr (copy_name dst nm) = take 31 (cstr nm).
Proof.
  intros Hl. unfold copy_name, MEMFS_NAME_MAX.
  destruct (str_copy_spec dst 0 nm (32 - 1)) as (Hn & Hz & Hg); [lia|lia|lia|].
  destruct (str_copy _ _ _ _) as [d i]. simpl in *. pose proof (zlen_nonneg (cstr nm)).
  set (n := Z.min 31 (zlen (cstr nm))) in *.
  assert (Htake : zlen (take 31 (cstr nm)) = n).
  { unfold zlen in *. rewrite length_take. lia. }
  assert (Hget : forall j, 0 <= j < n -> (take 31 (cstr nm)).[j] = nm.[j] /\ nm.[j] <> 0).
  { intros j Hj. destruct (cstr_get nm j) as [E1 E2]; [lia|]. split; [|done]. rewrite E1.
    rewrite !list_lookup_total_alt, lookup_take_lt by lia. done. }
  assert (E : cstr (d.[i <- 0]) = take 31 (cstr nm)).
  { apply cstr_unique; rewrite Htake.
    - intros j Hj. destruct (Hget j Hj) as [-> Hne]. split; [|done].
      rewrite aget_aset_ne by lia. rewrite Hg by lia. rewrite decide_True by lia.
      by rewrite Z.sub_0_r.
    - rewrite Hn. apply aget_aset_eq. lia. }
  split; [rewrite aset_length; lia|]. split; [|done]. rewrite E, Htake. lia.
Qed.

(** ** Creation and deletion *)

(** Slots other than [h] hold the same files in [s] and [s'] ([h = -1]: all do). *)
Definition same_files_but s s' (h : Z) : Prop :=
  forall i, i <> h -> (used s' i <-> used s i) /\
    (used s i -> me_name (entries s').[i] = me_name (entries s).[i] /\
                 memfs_content s' i = memfs_content s i).

Definition create_outcome s nm (r : memfs H * Z) : Prop :=
  (r = (s, -1) /\ exists i, named s i nm) \/
  ((forall i, ~ named s i nm) /\ exists s' L', memfs_wf s' L' /\
     ((r = (s', -1) /\ same_files_but s s' (-1)) \/
      exists slot, r = (s', slot) /\ ~ used s slot /\ used s' slot /\ same_files_but s s' slot /\
        cstr (me_name (entries s').[slot]) = take 31 (cstr nm) /\
        memfs_content s' slot = [] /\
        (zlen (cstr nm) <= 31 -> memfs_find s' nm = slot))).

Lemma files_kept_same s s' : files_kept s s' -> same_files_but s s' (-1).
Proof.
  intros [Hc Hk] i _. unfold used. rewrite Hc. split.
  - split; intros [Hi Hu]; destruct (Hk i Hi) as [E _]; split; congruence.
  - intros Hu. by apply Hk; [apply Hu|].
Qed.

(** A free slot: one there already, or the first of a grown table. *)
Lemma free_slot_spec s L :
  memfs_wf s L ->
  exists s' slot L', obtain_slot s = Some (s', slot) /\ memfs_wf s' L' /\ same_files_but s s' (-1) /\
    (slot = -1 \/ (0 <= slot < entry_capacity s' /\ me_in_use (entries s').[slot] = false)).
Proof.
  intros Hw. unfold obtain_slot, find_free_slot.
  pose proof (find_first_spec 0 (entry_capacity s) (fun i => negb (me_in_use (entries s).[i]))) as Hf.
  destruct (find_first _ _ _) as [i|]; simpl.
  - destruct Hf as (Hi & Hfree & _). replace (i =? -1) with false by lia.
    exists s, i, L. split; [done|]. split; [done|]. split; [by intros j|]. right.
    split; [done|]. by apply negb_true_iff in Hfree.
  - destruct (grow_table_spec s L Hw) as (s' & rc & L' & -> & Hw' & Hout). cbn [mbind option_bind].
    pose proof (table_bound s L Hw).
    destruct Hout as [(-> & Hk & _)|(-> & Hc & Hold & Hnew)]; cbn [negb Z.eqb].
    + exists s', (-1), L'. split; [done|]. split; [done|]. split; [by apply files_kept_same|by left].
    + exists s', (entry_capacity s), L'. split; [done|]. split; [done|]. split.
      * intros i _. unfold used. split.
        -- split; intros [Hi Hu].
           ++ destruct (decide (i < entry_capacity s)); [|by rewrite Hnew in Hu by lia].
              destruct (Hold i ltac:(lia)) as [E _]. split; [lia|congruence].
           ++ destruct (Hold i Hi) as [E _]. split; [lia|congruence].
        -- intros Hu. destruct (Hold i ltac:(apply Hu)) as [E Hcont]. split; [by rewrite E|by apply Hcont].
      * right. split; [lia|]. apply Hnew. lia.
Qed.

Lemma memfs_create_spec s L nm :
  memfs_wf s L -> exists r, memfs_create s nm = Some r /\ create_outcome s nm r.
Proof.
  intros Hw. unfold memfs_create, create_outcome.
  destruct (find_slot_cases s nm) as [(i & Hn & -> & _)|[Hno ->]].
  { destruct Hn as [[Hi Hu] E] eqn:En. clear En. replace (i >=? 0) with true by lia.
    eexists. split; [done|]. left. split; [done|]. by exists i. }
  replace (-1 >=? 0) with false by lia.
  destruct (free_slot_spec s L Hw) as (s1 & slot & L1 & -> & Hw1 & Hsame & Hslot). cbn [mbind option_bind].
  destruct Hslot as [->|[Hslot Hfree]].
  { eexists. split; [done|]. right. split; [done|]. exists s1, L1. split; [done|]. by left. }
  replace (slot =? -1) with false by lia.
  destruct (al_malloc_law (fs_heap s1) (fs_mem s1) L1 MEMFS_INITIAL_BUFFER_SIZE (mf_rep _ _ Hw1))
    as (h & m & p & -> & Hk & Hout); [unfold MEMFS_INITIAL_BUFFER_SIZE; lia|]. cbn [mbind option_bind].
  assert (Hsm : forall i, used s1 i -> memfs_content (with_heap s1 h m) i = memfs_content s1 i)
    by (intros i Hi; by apply (keeps_content s1 _ L1)).
  destruct Hout as [[-> Hr]|(Hfresh & n & Hn & Hr)].
  { eexists. split; [done|]. right. split; [done|]. exists (with_heap s1 h m), L1.
    split; [by apply memfs_wf_heap|]. left. split; [done|]. intros i Hi.
    destruct (Hsame i Hi) as [E F]. split; [exact E|]. intros Hu. destruct (F Hu) as [F1 F2].
    split; [done|]. rewrite Hsm; [done|tauto]. }
  destruct (al_range _ _ _ p n Hr ltac:(by rewrite lookup_insert_eq)) as (Hp & _ & _).
  replace (p =? 0) with false by lia.
  destruct (copy_name_spec (me_name (entries s1).[slot]) nm) as (C1 & C2 & C3);
    [by apply (mf_names s1 L1 Hw1)|].
  pose proof (memfs_wf_malloc s1 L1 h m p n Hw1 Hfresh Hr) as Hw2. simpl.
  set (e := mk_entry (copy_name (me_name (entries s1).[slot]) nm) p 0 MEMFS_INITIAL_BUFFER_SIZE true).
  set (s' := with_entry (with_heap s1 h m) slot e).
  unfold MEMFS_INITIAL_BUFFER_SIZE in Hn.
  assert (Hw' : memfs_wf s' (<[p := n]> L1)).
  { apply memfs_wf_entry; try done. intros _. simpl. split; [done|].
    unfold MEMFS_INITIAL_BUFFER_SIZE. split; [lia|]. split; [lia|]. split.
    - destruct (mf_table _ _ Hw1) as [[? ?]|(x & Hx & _)]; [lia|congruence].
    - split; [exists n; split; [by rewrite lookup_insert_eq|lia]|].
      intros j [Hj Hu] _. destruct (mf_data s1 L1 Hw1 j Hj Hu) as (_ & _ & _ & x & Hx & _). congruence. }
  assert (Hget : forall j, 0 <= j < entry_capacity s1 ->
    (entries s').[j] = if decide (slot = j) then e else (entries s1).[j]).
  { intros j Hj. simpl. apply aget_aset_cases; [rewrite (mf_len _ _ Hw1)|]; lia. }
  assert (He : (entries s').[slot] = e) by (rewrite Hget, decide_True by done; done).
  eexists. split; [done|]. right. split; [done|]. exists s', (<[p := n]> L1). split; [done|]. right.
  assert (Hs1 : used s1 slot <-> used s slot) by (apply Hsame; lia).
  assert (Hother : same_files_but s s' slot).
  { intros i Hi. destruct (decide (0 <= i < entry_capacity s1)) as [Hin|Hin].
    - destruct (Hsame i ltac:(lia)) as [E F].
      assert (Ei : (entries s').[i] = (entries s1).[i]) by (rewrite Hget, decide_False by congruence; done).
      assert (Eu : used s' i <-> used s1 i) by (unfold used; rewrite Ei; done).
      split; [tauto|]. intros Hu. destruct (F Hu) as [F1 F2]. rewrite Ei. split; [done|].
      rewrite <- F2, <- (Hsm i) by tauto. apply content_ext; rewrite Ei; done.
    - assert (N1 : ~ used s' i) by (intros [? _]; simpl in *; lia).
      destruct (decide (i = -1)) as [->|Hne].
      + split; [split; [done|intros [? _]; lia]|intros [? _]; lia].
      + destruct (Hsame i Hne) as [E _]. assert (~ used s1 i) by (intros [? _]; lia).
        split; [tauto|tauto]. }
  exists slot. split; [done|]. split; [rewrite <- Hs1; intros [_ ?]; congruence|].
  split; [split; [done|by rewrite He]|]. split; [done|]. rewrite He. split; [done|]. split.
  { unfold memfs_content. by rewrite He. }
  intros Hlen. destruct (find_slot_cases s' nm) as [(i & [Hu Hn'] & Ei & _)|[Hno' _]].
  - unfold memfs_find. rewrite Ei. destruct (decide (i = slot)) as [->|Hne]; [done|]. exfalso.
    destruct (Hother i Hne) as [E F]. apply (Hno i). split; [tauto|].
    destruct (F ltac:(tauto)) as [<- _]. done.
  - exfalso. apply (Hno' slot). split; [split; [done|by rewrite He]|]. rewrite He. simpl. rewrite C3.
    apply take_ge. unfold zlen in Hlen. lia.
Qed.

Definition delete_outcome s nm (r : memfs H * Z) : Prop :=
  ((forall i, ~ named s i nm) /\ r = (s, -1)) \/
  exists s' L' slot, r = (s', 0) /\ memfs_wf s' L' /\ named s slot nm /\
    (forall j, 0 <= j < slot -> ~ named s j nm) /\ ~ used s' slot /\ same_files_but s s' slot.

Lemma memfs_delete_spec s L nm :
  memfs_wf s L -> exists r, memfs_delete s nm = Some r /\ delete_outcome s nm r.
Proof.
  intros Hw. unfold memfs_delete, delete_outcome.
  destruct (find_slot_cases s nm) as [(i & Hn & -> & Hfirst)|[Hno ->]].
  2: { eexists. split; [done|by left]. }
  assert (Hu : used s i) by apply Hn. destruct Hu as [Hi Hu]. replace (i =? -1) with false by lia.
  destruct (mf_data s L Hw i Hi Hu) as (D1 & D2 & D3 & n & Dn & D4).
  set (e := (entries s).[i]) in *.
  destruct (al_free_law (fs_heap s) (fs_mem s) L (me_data e) n (mf_rep _ _ Hw) Dn) as (h & m & -> & Hk & Hr).
  cbn [mbind option_bind]. set (L' := delete (me_data e) L) in *.
  set (s' := with_entry (with_heap s h m) i (init_entry_slot e)).
  eexists. split; [done|]. right. exists s', L', i. split; [done|].
  assert (Hget : forall j, 0 <= j < entry_capacity s ->
    (entries s').[j] = if decide (i = j) then init_entry_slot e else (entries s).[j]).
  { intros j Hj. simpl. apply aget_aset_cases; [rewrite (mf_len _ _ Hw)|]; lia. }
  assert (Hne : forall j, used s j -> j <> i -> me_data (entries s).[j] <> me_data e).
  { intros j [Hj Huj] Hji. by apply (mf_distinct s L Hw). }
  assert (Hnu : ~ used s' i) by (intros [_ Hf]; rewrite Hget, decide_True in Hf by done; done).
  split.
  { destruct Hw as [W1 W2 W3 W4 W5 W6]. split; simpl; try done.
    - by rewrite aset_length.
    - destruct W3 as [?|(x & Hx & ?)]; [by left|right]. exists x. split; [|done].
      unfold L'. by rewrite lookup_delete_ne.
    - intros j Hj Huj. change ((entries s).[i <- init_entry_slot e]) with (entries s') in Huj |- *.
      rewrite Hget in Huj |- * by done. case_decide as Eij; [done|].
      destruct (W4 j Hj Huj) as (J1 & J2 & J3 & x & Hx & J4). split; [done|]. split; [done|].
      split; [done|]. exists x. split; [|done]. unfold L'. rewrite lookup_delete_ne; [done|].
      intros E. by apply (Hne j); [split|congruence|].
    - intros j k Hj Hk' Hjk Huj Huk. change ((entries s).[i <- init_entry_slot e]) with (entries s') in Huj, Huk |- *.
      rewrite Hget in Huj by done. rewrite Hget in Huk by done. rewrite !Hget by done.
      destruct (decide (i = j)), (decide (i = k)); try done. by apply W5.
    - intros j Hj. change ((entries s).[i <- init_entry_slot e]) with (entries s'). rewrite Hget by done.
      case_decide; [|by apply W6]. simpl. split; [|done]. rewrite aset_length. apply W6. lia. }
  split; [done|]. split; [done|]. split; [done|]. intros j Hji.
  destruct (decide (0 <= j < entry_capacity s)) as [Hj|Hj].
  - assert (Ej : (entries s').[j] = (entries s).[j]) by (rewrite Hget, decide_False by congruence; done).
    split; [unfold used; rewrite Ej; done|]. intros Huj. rewrite Ej. split; [done|].
    apply content_ext; rewrite Ej; [done|]. intros k Hkb. simpl.
    destruct (content_live s L j k Hw Huj Hkb) as (x & Hx & Hin).
    apply (Hk (me_data (entries s).[j]) x); [|done]. unfold L'. rewrite lookup_delete_ne; [done|].
    intros E. by apply (Hne j).
  - split; [split; intros [? _]; simpl in *; lia|intros [? _]; lia].
Qed.
End proofs.

(** * Results *)

Section results.
Context {H : Type} {A : Allocator H} {AL : AllocatorLaws H}.
Implicit Types (s : memfs H) (nm buf : list Z) (L : gmap Z Z).

(** [memfs_write_at] returns for every request up to 2 GiB: it fails with the
    files unchanged (bad handle, overflow, or the buffer could not grow), or stores
    exactly the bytes given, grows the file to the end of the write, and leaves
    every other file's name and contents alone. *)
Theorem memfs_write_at_correct s L h offset buf len :
  memfs_wf s L -> bytes_ok buf -> 0 <= offset < 4294967296 -> 0 <= len < 2147483648 ->
  (offset + len <= 2147483648 \/ 4294967296 <= offset + len) ->
  exists r, memfs_write_at s h offset buf len = Some r /\ write_outcome s h offset buf len r.
Proof. apply memfs_write_at_spec. Qed.

(** [memfs_read_at] returns the bytes of the file from [offset], cut at its
    end, and leaves the rest of the buffer alone. *)
Theorem memfs_read_at_correct s L h offset out len :
  memfs_wf s L -> 0 <= offset < 4294967296 -> 0 <= len <= zlen out -> len < 2147483648 ->
  read_outcome s h offset out len (memfs_read_at s h offset out len).
Proof. apply memfs_read_at_spec. Qed.

(** [memfs_create] fails on a name in use or without memory, keeping every
    file; otherwise it adds an empty file under the first 31 characters of the
    name, growing the table when it is full, and finds it again when the name has
    at most 31. *)
Theorem memfs_create_correct s L nm :
  memfs_wf s L -> exists r, memfs_create s nm = Some r /\ create_outcome s nm r.
Proof. apply memfs_create_spec. Qed.

(** [memfs_delete] releases the first file of that name and keeps all others,
    or fails without effect when there is none. *)
Theorem memfs_delete_correct s L nm :
  memfs_wf s L -> exists r, memfs_delete s nm = Some r /\ delete_outcome s nm r.
Proof. apply memfs_delete_spec. Qed.

(** Once a character past the 31st is there, the name is never found. *)
Theorem memfs_long_name_lost s L nm :
  memfs_wf s L -> 31 < zlen (cstr nm) -> memfs_find s nm = -1.
Proof.
  intros Hw Hlen. destruct (find_slot_cases s nm) as [(i & [[Hi Hu] E] & _)|[_ ?]]; [|done].
  destruct (mf_names s L Hw i Hi) as [_ Hn]. specialize (Hn Hu). rewrite E in Hn. lia.
Qed.

(** Above 2 GiB the doubling of [ensure_capacity] wraps to 0 and never ends. *)
Theorem double_until_diverges fuel needed k :
  2147483648 < needed -> 0 <= k <= 31 -> double_until fuel needed (2 ^ k) = None.
Proof.
  intros Hn Hk.
  assert (H0 : forall n, double_until n needed 0 = None).
  { induction n as [|n IH]; [done|]. unfold double_until in *. simpl.
    replace (0 <? needed) with true by lia. exact IH. }
  revert k Hk. induction fuel as [|fuel IH]; intros k Hk; [done|].
  assert (Hp : 0 < 2 ^ k <= 2 ^ 31) by (split; [apply Z.pow_pos_nonneg; lia|apply Z.pow_le_mono_r; lia]).
  change (2 ^ 31) with 2147483648 in Hp.
  unfold double_until. cbn [while_loop]. replace (2 ^ k <? needed) with true by lia.
  replace (2 ^ k * 2) with (2 ^ (k + 1)) by (rewrite Z.pow_add_r by lia; lia).
  destruct (decide (k = 31)) as [->|].
  - change (u32 (2 ^ (31 + 1))) with 0. apply H0.
  - assert (2 ^ (k + 1) <= 2 ^ 31) by (apply Z.pow_le_mono_r; lia).
    change (2 ^ 31) with 2147483648 in *.
    rewrite u32_small by (split; [apply Z.pow_nonneg|]; lia). apply IH. lia.
Qed.

End results.

(** * One file of three bytes on the two-block heap *)

Definition demo_memfs : memfs heap :=
  mk_memfs [mk_entry ([97] ++ replicate 31 0) 4120 3 64 true] 4216 1 demo_heap1 demo_mem2.

Lemma demo_memfs_wf : memfs_wf demo_memfs demo_live2.
Proof.
  assert (Hget : forall i, 0 <= i < 1 -> i = 0) by lia.
  split; simpl.
  - exact demo_heap2_live.
  - done.
  - right. exists 64. split; [reflexivity|lia].
  - intros i Hi. rewrite (Hget i Hi). simpl. intros _. split; [lia|]. split; [lia|]. split; [lia|].
    exists 64. split; [reflexivity|lia].
  - intros i j Hi Hj. lia.
  - intros i Hi. rewrite (Hget i Hi). split; [reflexivity|]. intros _. vm_compute. congruence.
Qed.

Definition demo_text : list Z := [104; 105].

Lemma memfs_write_at_correct_witness :
  memfs_wf demo_memfs demo_live2 /\
  exists r, memfs_write_at demo_memfs 0 1 demo_text 2 = Some r /\
    write_outcome demo_memfs 0 1 demo_text 2 r.
Proof.
  split; [exact demo_memfs_wf|].
  apply (memfs_write_at_correct demo_memfs demo_live2 0 1 demo_text 2 demo_memfs_wf); try lia.
  intros i Hi. unfold demo_text. destruct (Z.to_nat i) as [|[|[|n]]]; simpl; lia.
Defined.

Lemma memfs_read_at_correct_witness :
  memfs_wf demo_memfs demo_live2 /\
  read_outcome demo_memfs 0 1 (replicate 8 0) 8 (memfs_read_at demo_memfs 0 1 (replicate 8 0) 8).
Proof.
  split; [exact demo_memfs_wf|].
  apply (memfs_read_at_correct demo_memfs demo_live2 0 1 (replicate 8 0) 8 demo_memfs_wf);
    [lia|by vm_compute|lia].
Defined.

Lemma memfs_create_correct_witness :
  memfs_wf demo_memfs demo_live2 /\
  exists r, memfs_create demo_memfs demo_text = Some r /\ create_outcome demo_memfs demo_text r.
Proof.
  exact (conj demo_memfs_wf (memfs_create_correct demo_memfs demo_live2 demo_text demo_memfs_wf)).
Defined.

Lemma memfs_delete_correct_witness :
  memfs_wf demo_memfs demo_live2 /\
  exists r, memfs_delete demo_memfs [97] = Some r /\ delete_outcome demo_memfs [97] r.
Proof.
  exact (conj demo_memfs_wf (memfs_delete_correct demo_memfs demo_live2 [97] demo_memfs_wf)).
Defined.
