(* ===== verification/Users.v ===== *)
(** The account table of [kernel/core/users.c], kept in the file [.passwd]. *)
From S2P Require Import Prelude CString Blk Ufs UfsSpec.

Definition USER_NAME_MAX : Z := 20.
Definition USER_MAX_ACCOUNTS : Z := 16.
Definition RECORD_SIZE : Z := 32.
(** [".passwd"] *)
Definition PASSWD_FILE : list Z := [46; 112; 97; 115; 115; 119; 100].

Record account_t := mk_account {
  username : list Z;
  uid : Z;
  password_hash : Z;
}.

#[export] Instance account_inhabited : Inhabited account_t :=
  populate (mk_account (replicate 20 0) 0 0).

(** * The model *)

(** One round of the hash: [h ^= (unsigned char)c; h *= 16777619u;] *)
Definition hash_step (h c : Z) : Z := Z.lxor h (u8 c) *32 16777619.

(** ["MiniKernelSalt"] *)
Definition salt : list Z := [77; 105; 110; 105; 75; 101; 114; 110; 101; 108; 83; 97; 108; 116].

Definition hash_password (password : list Z) : Z :=
  let h := 2166136261 in
  let h := foldl hash_step h (cstr salt) in
  foldl hash_step h (cstr password).

Definition set_username (accounts : list account_t) (slot : Z) (name : list Z) : list account_t :=
  let a := accounts.[slot] in
  let (u, i) := str_copy (username a) 0 name (USER_NAME_MAX - 1) in
  accounts.[slot <- mk_account (u.[i <- 0]) (uid a) (password_hash a)].

Definition set_credentials (accounts : list account_t) (slot id hash : Z) : list account_t :=
  accounts.[slot <- mk_account (username accounts.[slot]) id hash].

(** The record of account [a] written at [rec] of the buffer. *)
Definition write_record (buf : list Z) (rec : Z) (a : account_t) : list Z :=
  let buf := for_each 0 USER_NAME_MAX (fun j buf => buf.[rec + j <- u8 (username a).[j]]) buf in
  let buf := write_u32 buf (rec + 20) (uid a) in
  let buf := write_u32 buf (rec + 24) (password_hash a) in
  buf.[rec + 31 <- 0].[rec + 30 <- 0].[rec + 29 <- 0].[rec + 28 <- 0].

Definition passwd_image (accounts : list account_t) (buf : list Z) : list Z :=
  for_each 0 USER_MAX_ACCOUNTS
    (fun i buf => write_record buf (i * RECORD_SIZE) accounts.[i]) buf.

Section model.
Context {D : Type} `{BlockDev D}.
Implicit Types (accounts : list account_t) (s : ufs D) (name password : list Z).

(** The static buffer of [persist] is rewritten in full; it starts as zeros. *)
Definition persist accounts s : option (ufs D) :=
  let buf := passwd_image accounts (replicate 512 0) in
  let handle := ufs_find s PASSWD_FILE in
  let '(s, handle) :=
    if handle <? 0 then
      let (s, handle) := ufs_create s PASSWD_FILE 0 in
      if handle <? 0 then (s, handle) else ((ufs_chmod s handle 0).1, handle)
    else ((ufs_truncate s handle 0).1, handle) in
  if handle <? 0 then Some s
  else
    '(s, _) ← ufs_write_at s handle 0 buf (USER_MAX_ACCOUNTS * RECORD_SIZE);
    Some s.

Definition seed_defaults accounts s : option (list account_t * ufs D) :=
  let a := for_each 0 USER_MAX_ACCOUNTS
    (fun i a => a.[i <- mk_account ((username a.[i]).[0 <- 0]) (uid a.[i]) (password_hash a.[i])])
    accounts in
  let root := [114; 111; 111; 116] in
  let user := [117; 115; 101; 114] in
  let a := set_username a 0 root in
  let a := set_credentials a 0 0 (hash_password root) in
  let a := set_username a 1 user in
  let a := set_credentials a 1 1000 (hash_password user) in
  s ← persist a s;
  Some (a, s).

Definition read_record (buf : list Z) (rec : Z) (a : account_t) : account_t :=
  let name := for_each 0 USER_NAME_MAX (fun j n => n.[j <- buf.[rec + j]]) (username a) in
  mk_account name (read_u32 buf (rec + 20)) (read_u32 buf (rec + 24)).

Definition load_accounts (buf : list Z) accounts : list account_t :=
  for_each 0 USER_MAX_ACCOUNTS
    (fun i a => a.[i <- read_record buf (i * RECORD_SIZE) a.[i]]) accounts.

Definition users_init accounts s : option (list account_t * ufs D) :=
  let handle := ufs_find s PASSWD_FILE in
  if handle <? 0 then seed_defaults accounts s
  else if negb (ufs_size s handle =? USER_MAX_ACCOUNTS * RECORD_SIZE) then seed_defaults accounts s
  else
    '(s, buf, _) ← ufs_read_at s handle 0 (replicate 512 0) (USER_MAX_ACCOUNTS * RECORD_SIZE);
    Some (load_accounts buf accounts, s).

(** The result, and the uid stored through [out_uid] on success. *)
Definition users_authenticate accounts name password : Z * option Z :=
  let h := hash_password password in
  match for_range 0 USER_MAX_ACCOUNTS
    (fun i _ =>
       let a := accounts.[i] in
       if (username a).[0] =? 0 then inl tt
       else if negb (str_eq (username a) name) then inl tt
       else if negb (password_hash a =? h) then inr (-1, None)
       else inr (0, Some (uid a))) tt with
  | inr r => r
  | inl _ => (-1, None)
  end.

Definition users_add accounts s name password (id : Z) : option (list account_t * ufs D * Z) :=
  if (str_len name =? 0) || (str_len name >=? USER_NAME_MAX) then Some (accounts, s, -1)
  else
    match find_first 0 USER_MAX_ACCOUNTS
            (fun i => negb ((username accounts.[i]).[0] =? 0) &&
                      str_eq (username accounts.[i]) name) with
    | Some _ => Some (accounts, s, -1)
    | None =>
        match find_first 0 USER_MAX_ACCOUNTS (fun i => (username accounts.[i]).[0] =? 0) with
        | None => Some (accounts, s, -1)
        | Some slot =>
            let a := set_username accounts slot name in
            let a := set_credentials a slot id (hash_password password) in
            s ← persist a s;
            Some (a, s, 0)
        end
    end.

(** The bytes stored at [out], the terminator included; [None] for result -1. *)
Definition users_name_for_uid accounts (id out_len : Z) : option (list Z) :=
  match find_first 0 USER_MAX_ACCOUNTS
    (fun i => negb ((username accounts.[i]).[0] =? 0) && (uid accounts.[i] =? id)) with
  | None => None
  | Some i =>
      let name := username accounts.[i] in
      Some (match for_range 0 USER_NAME_MAX
              (fun j out => if negb (name.[j] =? 0) && (j +32 1 <? out_len)
                            then inl (out ++ [name.[j]]) else inr out) [] with
            | inl out | inr out => out ++ [0]
            end)
  end.
End model.

(** * The record format *)

Record acc_ok (a : account_t) : Prop := {
  ao_len : zlen (username a) = 20;
  ao_bytes : bytes_ok (username a);
  ao_term : (username a).[19] = 0;
  ao_uid : 0 <= uid a < 4294967296;
  ao_hash : 0 <= password_hash a < 4294967296;
}.

(** The table has its 16 slots, every account is well formed, names are unique. *)
Record accounts_ok (accounts : list account_t) : Prop := {
  as_len : zlen accounts = 16;
  as_acc : forall i, 0 <= i < 16 -> acc_ok accounts.[i];
  as_unique : forall i j, 0 <= i < 16 -> 0 <= j < 16 -> (username accounts.[i]).[0] <> 0 ->
    cstr (username accounts.[i]) = cstr (username accounts.[j]) -> i = j;
}.

Section format.
Implicit Types (a : account_t) (accounts : list account_t) (buf : list Z).

(** Byte [j] of the record of [a]. *)
Definition rec_byte a (j : Z) : Z :=
  if decide (j < 20) then (username a).[j]
  else if decide (j < 24) then (uid a / 256 ^ (j - 20)) mod 256
  else if decide (j < 28) then (password_hash a / 256 ^ (j - 24)) mod 256
  else 0.

Lemma rec_byte_ok a j : acc_ok a -> 0 <= j -> 0 <= rec_byte a j < 256.
Proof.
  intros Ha Hj. unfold rec_byte.
  repeat case_decide; try (apply (ao_bytes _ Ha); lia); try (apply Z.mod_pos_bound; lia); lia.
Qed.

Lemma write_record_spec buf rec a :
  acc_ok a -> 0 <= rec -> rec + 32 <= zlen buf ->
  zlen (write_record buf rec a) = zlen buf /\
  forall k, 0 <= k -> (write_record buf rec a).[k] =
    if decide (rec <= k < rec + 32) then rec_byte a (k - rec) else buf.[k].
Proof.
  intros Ha Hr Hl. unfold write_record, USER_NAME_MAX.
  set (b1 := for_each 0 20 _ buf).
  assert (H1 : zlen b1 = zlen buf /\ forall k, 0 <= k -> b1.[k] =
    if decide (rec <= k < rec + 20) then (username a).[k - rec] else buf.[k]).
  { apply (for_each_inv 0 20 _ buf (fun n b => zlen b = zlen buf /\ forall k, 0 <= k -> b.[k] =
      if decide (rec <= k < rec + n) then (username a).[k - rec] else buf.[k])); [lia| |].
    - split; [done|]. intros k Hk. by rewrite decide_False by lia.
    - intros n b Hn [Hz Hg]. split; [by rewrite aset_length|]. intros k Hk.
      rewrite aget_aset_cases by lia. rewrite u8_small by (apply (ao_bytes _ Ha); lia).
      destruct (decide (rec + n = k)) as [<-|].
      + rewrite decide_True by lia. f_equal. f_equal. lia.
      + rewrite Hg by done. repeat case_decide; try lia; done. }
  destruct H1 as [Hz1 Hg1]. clearbody b1.
  split; [by rewrite !aset_length, !write_u32_length|]. intros k Hk.
  rewrite !aget_aset_cases by (rewrite ?aset_length, ?write_u32_length; lia).
  rewrite !write_u32_get by (rewrite ?write_u32_length; lia). rewrite Hg1 by done.
  unfold rec_byte. replace (k - rec - 20) with (k - (rec + 20)) by lia.
  replace (k - rec - 24) with (k - (rec + 24)) by lia.
  repeat case_decide; try lia; done.
Qed.

Lemma passwd_image_spec accounts buf :
  accounts_ok accounts -> zlen buf = 512 ->
  zlen (passwd_image accounts buf) = 512 /\
  forall i j, 0 <= i < 16 -> 0 <= j < 32 ->
    (passwd_image accounts buf).[i * 32 + j] = rec_byte accounts.[i] j.
Proof.
  intros [Hl Ha _] Hb. unfold passwd_image, USER_MAX_ACCOUNTS, RECORD_SIZE.
  apply (for_each_inv 0 16 _ buf (fun n b => zlen b = 512 /\ forall i j, 0 <= i < n -> 0 <= j < 32 ->
    b.[i * 32 + j] = rec_byte accounts.[i] j)); [lia| |].
  - split; [done|]. intros. lia.
  - intros n b Hn [Hz Hg].
    destruct (write_record_spec b (n * 32) accounts.[n] (Ha n Hn) ltac:(lia) ltac:(lia)) as [Hz' Hg'].
    split; [by rewrite Hz'|]. intros i j Hi Hj. rewrite Hg' by lia. case_decide.
    + assert (i = n) as -> by lia. f_equal. lia.
    + apply Hg; lia.
Qed.

Lemma image_bytes_ok accounts buf :
  accounts_ok accounts -> zlen buf = 512 -> bytes_ok (passwd_image accounts buf).
Proof.
  intros Ha Hb k Hk. destruct (passwd_image_spec accounts buf Ha Hb) as [Hz Hg].
  destruct (decide (k < 512)).
  - rewrite (Z.div_mod k 32) by lia. rewrite (Z.mul_comm 32).
    rewrite Hg by div_lia. apply rec_byte_ok; [apply (as_acc _ Ha); div_lia|apply Z.mod_pos_bound; lia].
  - rewrite list_lookup_total_alt, lookup_ge_None_2; [simpl; lia|]. unfold zlen in Hz. lia.
Qed.

Lemma read_record_image accounts buf a i :
  accounts_ok accounts -> zlen buf = 512 -> bytes_ok buf -> zlen (username a) = 20 -> 0 <= i < 16 ->
  (forall j, 0 <= j < 32 -> buf.[i * 32 + j] = rec_byte accounts.[i] j) ->
  read_record buf (i * RECORD_SIZE) a = accounts.[i].
Proof.
  intros Has Hz Hb Hn Hi Hg. pose proof (as_acc _ Has i Hi) as Ha. unfold read_record, RECORD_SIZE.
  rewrite (read_u32_of_bytes buf _ (uid accounts.[i])), (read_u32_of_bytes buf _ (password_hash accounts.[i]));
    try done; try lia.
  - rewrite !u32_small by apply Ha.
    destruct (for_each_fill (username a) 20 (fun j => buf.[i * 32 + j]) ltac:(lia)) as [Hl Hf].
    change (for_each 0 USER_NAME_MAX) with (for_each (S := list Z) 0 20).
    replace (for_each 0 20 (fun j n => n.[j <- buf.[i * 32 + j]]) (username a)) with (username accounts.[i]).
    + by destruct accounts.[i].
    + symmetry. apply array_ext; [rewrite Hl, Hn; symmetry; apply Ha|]. intros j Hj.
      rewrite Hf by lia. rewrite decide_True by lia. rewrite Hg by lia.
      unfold rec_byte. by rewrite decide_True by lia.
  - intros k Hk. replace (i * 32 + 24 + k) with (i * 32 + (24 + k)) by lia. rewrite Hg by lia.
    unfold rec_byte. rewrite !decide_False by lia. rewrite decide_True by lia. do 3 f_equal. lia.
  - intros k Hk. replace (i * 32 + 20 + k) with (i * 32 + (20 + k)) by lia. rewrite Hg by lia.
    unfold rec_byte. rewrite decide_False by lia. rewrite decide_True by lia. do 3 f_equal. lia.
Qed.

(** The image of the table loads as the table, whatever the static table held. *)
Lemma load_image accounts buf old :
  accounts_ok accounts -> zlen buf = 512 -> bytes_ok buf -> zlen old = 16 ->
  (forall i, 0 <= i < 16 -> zlen (username old.[i]) = 20) ->
  (forall i j, 0 <= i < 16 -> 0 <= j < 32 -> buf.[i * 32 + j] = rec_byte accounts.[i] j) ->
  load_accounts buf old = accounts.
Proof.
  intros Has Hz Hb Hlo Hno Hg. unfold load_accounts, USER_MAX_ACCOUNTS.
  assert (Hinv : forall x, x = for_each 0 16
      (fun i (t : list account_t) => t.[i <- read_record buf (i * RECORD_SIZE) t.[i]]) old ->
    zlen x = 16 /\ forall i, 0 <= i < 16 -> x.[i] = if decide (i < 16) then accounts.[i] else old.[i]).
  { intros x ->. apply (for_each_inv 0 16 _ old (fun n x => zlen x = 16 /\ forall i, 0 <= i < 16 ->
      x.[i] = if decide (i < n) then accounts.[i] else old.[i])); [lia| |].
    - split; [done|]. intros i Hi. by rewrite decide_False by lia.
    - intros n x Hn [Hzx Hgx]. split; [by rewrite aset_length|]. intros i Hi.
      rewrite aget_aset_cases by lia. destruct (decide (n = i)) as [->|].
      + rewrite decide_True by lia. apply read_record_image; try done; [|intros; by apply Hg].
        rewrite Hgx, decide_False by lia. by apply Hno.
      + rewrite Hgx by done. repeat case_decide; try lia; done. }
  destruct (Hinv _ eq_refl) as [Hzx Hgx].
  apply array_ext; [rewrite Hzx; symmetry; apply Has|]. intros i Hi.
  rewrite Hgx by lia. by rewrite decide_True by lia.
Qed.
End format.

(** * Saving and loading *)

Section saving.
Context {D : Type} {B : BlockDev D} {L : BlockDevLaws D}.
Implicit Types (accounts : list account_t) (s : ufs D) (name password : list Z).

(** The file can be made if it is not there, and 1 KiB of data area is left. *)
Definition has_room s : Prop :=
  ((exists i, named s i PASSWD_FILE) \/
   (exists i, 0 <= i < 64 /\ de_used (dirent_at (directory s) i) = false)) /\
  next_free_lba s + 2 <= UFS_DATA_END_LBA.

Lemma passwd_name_ok : bytes_ok PASSWD_FILE.
Proof. by apply small_bytes_ok. Qed.

(** The state in which [persist] calls [ufs_write_at]. *)
Definition persist_target s : ufs D * Z :=
  let handle := ufs_find s PASSWD_FILE in
  if handle <? 0 then
    let (s, handle) := ufs_create s PASSWD_FILE 0 in
    if handle <? 0 then (s, handle) else ((ufs_chmod s handle 0).1, handle)
  else ((ufs_truncate s handle 0).1, handle).

Lemma persist_target_spec s :
  ufs_wf s ->
  let (s1, h) := persist_target s in
  ufs_wf s1 /\ next_free_lba s1 = next_free_lba s /\ -1 <= h /\
  (0 <= h -> named s1 h PASSWD_FILE /\ handle_valid s1 h = true /\
             de_size (dirent_at (directory s1) h) = 0) /\
  (h < 0 -> ~ has_room s).
Proof.
  intros Hw. unfold persist_target.
  assert (Hval : forall s h, ufs_wf s -> named s h PASSWD_FILE -> handle_valid s h = true).
  { intros s1 h Hw1 (Hh & Hu & _). apply handle_valid_iff; [apply Hw1|done]. }
  destruct (ufs_find_cases s PASSWD_FILE (uw_mem _ Hw)) as [(h & Hn & ->)|[Hno ->]].
  - pose proof Hn as (Hh & Hu & Hname). replace (h <? 0) with false by lia.
    destruct (ufs_truncate_spec s h 0 Hw ltac:(lia)) as [[_ Hbad]|(s' & -> & _ & Hw' & Hent & Hnext & _)].
    { exfalso. destruct (cap_bound s h (uw_mem _ Hw) Hh Hu) as (_ & ? & _).
      rewrite (Hval s h Hw Hn) in Hbad. destruct Hbad; [done|lia]. }
    cbv zeta in Hent. assert (Hn' : named s' h PASSWD_FILE) by (split; [done|]; by rewrite Hent).
    cbn [fst]. split; [done|]. split; [done|]. split; [lia|]. split; [|lia].
    intros _. split; [done|]. split; [by apply Hval|]. by rewrite Hent.
  - replace (-1 <? 0) with true by lia.
    destruct (ufs_create_spec s PASSWD_FILE 0 Hw passwd_name_ok)
      as [[Hfail ->]|(_ & s1 & h & -> & Hh & _ & Hw1 & Hent & _ & _ & Hnext & _)].
    { replace (-1 <? 0) with true by lia. split; [done|]. split; [done|]. split; [lia|].
      split; [lia|]. intros _ [Hr _]. destruct Hfail as [Hf|[Hf|[Hf|Hf]]]; [done| | |].
      - change (zlen (cstr PASSWD_FILE)) with 7 in Hf. lia.
      - destruct Hf as [i Hi]. by apply (Hno i).
      - destruct Hr as [[i Hi]|(i & Hi & Hu)]; [by apply (Hno i)|]. by rewrite Hf in Hu. }
    replace (h <? 0) with false by lia.
    assert (Hn1 : named s1 h PASSWD_FILE) by (split; [done|]; by rewrite Hent).
    destruct (ufs_chmod_spec s1 h 0 Hw1 ltac:(lia)) as [[Hbad _]|(s2 & -> & _ & Hw2 & _ & Hent2 & Hnext2 & _)].
    { by rewrite (Hval s1 h Hw1 Hn1) in Hbad. }
    cbv zeta in Hent2. rewrite Hent in Hent2. simpl in Hent2.
    assert (Hn2 : named s2 h PASSWD_FILE) by (split; [done|]; by rewrite Hent2).
    cbn [fst]. split; [done|]. split; [congruence|]. split; [lia|]. split; [|lia].
    intros _. split; [done|]. split; [by apply Hval|]. by rewrite Hent2.
Qed.

Definition saved s accounts : Prop :=
  exists h, named s h PASSWD_FILE /\ handle_valid s h = true /\
    ufs_content s h = passwd_image accounts (replicate 512 0).

Lemma persist_spec accounts s :
  ufs_wf s -> accounts_ok accounts ->
  exists s', persist accounts s = Some s' /\ ufs_wf s' /\ (has_room s -> saved s' accounts).
Proof.
  intros Hw Ha. unfold persist. fold (persist_target s).
  pose proof (persist_target_spec s Hw) as Ht. destruct (persist_target s) as [s1 h].
  destruct Ht as (Hw1 & Hnext & Hm & Hok & Hneg).
  destruct (h <? 0) eqn:E; bool_prop; [exists s1; split; [done|]; split; [done|]; intros Hr; by destruct (Hneg E)|].
  destruct (Hok E) as (Hn & Hv & Hsz). set (img := passwd_image accounts (replicate 512 0)).
  destruct (passwd_image_spec accounts (replicate 512 0) Ha eq_refl) as [Hzi _].
  destruct (ufs_write_at_spec s1 h 0 img (USER_MAX_ACCOUNTS * RECORD_SIZE) Hw1
    (image_bytes_ok accounts (replicate 512 0) Ha eq_refl)) as (r & -> & Hout); try (unfold USER_MAX_ACCOUNTS, RECORD_SIZE; first [lia|split; lia]).
  cbn [mbind option_bind].
  destruct Hout as [[-> Hbad]|(s2 & -> & _ & Hw2 & [Hcl Hcb] & (Iu & In & _) & _)].
  - exists s1. split; [done|]. split; [done|]. intros [_ Hr]. exfalso.
    destruct Hbad as [Hbad|[Hbad|Hbad]]; [congruence| |].
    + unfold USER_MAX_ACCOUNTS, RECORD_SIZE in Hbad. lia.
    + change ((0 + USER_MAX_ACCOUNTS * RECORD_SIZE + 511) / 512) with 1 in Hbad. lia.
  - exists s2. split; [done|]. split; [done|]. intros _. exists h.
    destruct Hn as (Hh & Hu & Hname).
    assert (Hn2 : named s2 h PASSWD_FILE) by (split; [done|]; split; congruence).
    split; [done|]. split; [apply handle_valid_iff; [apply Hw2|]; split; [done|congruence]|].
    unfold USER_MAX_ACCOUNTS, RECORD_SIZE in *.
    assert (Hl : zlen (ufs_content s2 h) = 512).
    { rewrite Hcl, content_length by first [exact Hh|exact (mw_dir _ (uw_mem _ Hw1))]. lia. }
    apply array_ext; [by rewrite Hl, Hzi|]. intros i Hi. destruct (Hcb i Hi) as [Hw0 _].
    rewrite Hw0 by lia. by rewrite Z.sub_0_r.
Qed.

(** Mounting the accounts from a file system they were saved on. *)
Lemma users_init_saved s accounts old :
  ufs_wf s -> saved s accounts -> accounts_ok accounts -> zlen old = 16 ->
  (forall i, 0 <= i < 16 -> zlen (username old.[i]) = 20) ->
  exists s', users_init old s = Some (accounts, s') /\ ufs_wf s' /\
    directory s' = directory s /\ (forall j, ufs_content s' j = ufs_content s j).
Proof.
  intros Hw (h & Hn & Hv & Hc) Ha Hlo Hno. unfold users_init.
  rewrite (ufs_find_named s h PASSWD_FILE (uw_mem _ Hw) Hn). pose proof Hn as (Hh & Hu & _).
  replace (h <? 0) with false by lia. unfold ufs_size. rewrite Hv. cbn [negb].
  change (read_u32 (directory s) (entry_off h + UFS_OFF_SIZE)) with (de_size (dirent_at (directory s) h)).
  destruct (passwd_image_spec accounts (replicate 512 0) Ha eq_refl) as [Hzi Hgi].
  assert (Hl : zlen (ufs_content s h) = 512) by (by rewrite Hc).
  pose proof Hl as Hsz. rewrite content_length in Hsz by first [exact Hh|exact (mw_dir _ (uw_mem _ Hw))].
  rewrite Hsz. unfold USER_MAX_ACCOUNTS, RECORD_SIZE. change (negb (512 =? 16 * 32)) with false.
  cbn [negb].
  destruct (ufs_read_at_spec s h 0 (replicate 512 0) (16 * 32) Hw) as (r & -> & Hout);
    [lia|unfold zlen; rewrite length_replicate; lia|]. cbn [mbind option_bind].
  destruct Hout as [[Hbad _]|[(_ & Hbad & _)|(_ & _ & s' & buf & -> & Hzb & Hb & Hw' & Hkept)]];
    [congruence|lia|].
  exists s'. split; [|exact (conj Hw' Hkept)]. do 2 f_equal. rewrite Hl in Hb.
  assert (Hbi : forall i, 0 <= i < 512 -> buf.[i] = (passwd_image accounts (replicate 512 0)).[i]).
  { intros i Hi. rewrite Hb by lia. rewrite decide_True by lia. by rewrite Hc. }
  assert (Ebuf : buf = passwd_image accounts (replicate 512 0)).
  { apply array_ext; [rewrite Hzb, Hzi; reflexivity|]. intros i Hi. apply Hbi.
    rewrite Hzb in Hi. exact Hi. }
  rewrite Ebuf. exact (load_image accounts _ old Ha Hzi (image_bytes_ok accounts (replicate 512 0) Ha eq_refl) Hlo Hno Hgi).
Qed.
End saving.

(** * Authentication *)

Section authentication.
Implicit Types (a : account_t) (accounts : list account_t) (name password : list Z).

Definition account_of accounts (i : Z) name : Prop :=
  0 <= i < 16 /\ (username accounts.[i]).[0] <> 0 /\ cstr (username accounts.[i]) = cstr name.

Lemma users_authenticate_cases accounts name password :
  let h := hash_password password in
  let r := users_authenticate accounts name password in
  ((forall i, ~ account_of accounts i name) /\ r = (-1, None)) \/
  exists i, account_of accounts i name /\
    r = if password_hash accounts.[i] =? h then (0, Some (uid accounts.[i])) else (-1, None).
Proof.
  intros h r. subst r. unfold users_authenticate, USER_MAX_ACCOUNTS. fold h.
  apply (for_range_cases 0 16 _ tt
    (fun n _ => forall i, 0 <= i < n -> ~ account_of accounts i name)
    (fun x => let r := match x with inr r => r | inl _ => (-1, None) end in
      ((forall i, ~ account_of accounts i name) /\ r = (-1, None)) \/
      exists i, account_of accounts i name /\
        r = if password_hash accounts.[i] =? h then (0, Some (uid accounts.[i])) else (-1, None)));
    [lia|intros; lia|..].
  - intros n [] Hn IH. cbv zeta.
    assert (Hskip : ~ account_of accounts n name ->
      forall i, 0 <= i < n + 1 -> ~ account_of accounts i name).
    { intros Hno i Hi. destruct (decide (i = n)) as [->|]; [done|]. apply IH. lia. }
    destruct (_ =? 0) eqn:E0; bool_prop; [apply Hskip; by intros (_ & ? & _)|].
    destruct (str_eq _ _) eqn:Es; cbn [negb].
    + assert (Hac : account_of accounts n name) by (split; [lia|]; split; [done|]; by apply str_eq_cstr).
      destruct (_ =? h) eqn:Eh; cbn [negb]; right; exists n; by rewrite Eh.
    + apply Hskip. intros (_ & _ & Hac). apply str_eq_cstr in Hac. congruence.
  - intros _ Hno. left. split; [|done]. intros i Hi. exact (Hno i (proj1 Hi) Hi).
Qed.

Lemma hash_password_bounds password : 0 <= hash_password password < 4294967296.
Proof.
  unfold hash_password.
  assert (H : forall l h, 0 <= h < 4294967296 -> 0 <= foldl hash_step h l < 4294967296).
  { intros l. induction l as [|c l IH]; intros h Hh; [done|]. apply IH. apply u32_bounds. }
  apply H, H. lia.
Qed.

Lemma cstr_head (s : list Z) : s.[0] = 0 <-> cstr s = [].
Proof.
  destruct s as [|c s]; [done|]. change ((c :: s).[0]) with c. simpl. destruct (c =? 0) eqn:E; bool_prop.
  - done.
  - by split.
Qed.

(** Entering a name in a free slot keeps the table well formed. *)
Lemma fill_slot accounts slot name id hash :
  accounts_ok accounts -> 0 <= slot < 16 -> bytes_ok name -> 0 < zlen (cstr name) < 20 ->
  0 <= id < 4294967296 -> 0 <= hash < 4294967296 ->
  (forall i, i <> slot -> ~ account_of accounts i name) ->
  let a := set_credentials (set_username accounts slot name) slot id hash in
  accounts_ok a /\ account_of a slot name /\ uid a.[slot] = id /\ password_hash a.[slot] = hash /\
  forall i, 0 <= i < 16 -> i <> slot -> a.[i] = accounts.[i].
Proof.
  intros [Hl Ha Hu] Hs Hb Hn Hid Hh Hno a. subst a. unfold set_credentials, set_username, USER_NAME_MAX.
  pose proof (Ha slot Hs) as [Hz Hby Ht _ _].
  pose proof (str_copy_spec (username accounts.[slot]) 0 name 19 ltac:(lia) ltac:(lia) ltac:(rewrite Hz; lia)) as Hc.
  change (20 - 1) with 19. destruct (str_copy _ 0 name 19) as [u n]. cbn [fst snd] in Hc.
  rewrite Z.min_r in Hc by lia. destruct Hc as (-> & Hzu & Hg). set (n := zlen (cstr name)) in *.
  set (v := u.[n <- 0]). rewrite list_insert_insert_eq.
  assert (Hv : forall j, 0 <= j -> v.[j] = if decide (j < n) then name.[j] else
    if decide (j = n) then 0 else (username accounts.[slot]).[j]).
  { intros j Hj. unfold v. rewrite aget_aset_cases by lia. rewrite Hg by lia. rewrite Z.sub_0_r.
    repeat case_decide; try lia; done. }
  assert (Ecs : cstr v = cstr name).
  { apply cstr_unique.
    - intros j Hj. rewrite Hv by lia. rewrite decide_True by (unfold n; lia). destruct (cstr_get name j Hj) as [<- ?]. done.
    - rewrite Hv by lia. rewrite decide_False by lia. by rewrite decide_True by done. }
  rewrite aget_aset_eq by (rewrite Hl; lia). cbn [username].
  assert (Hok : acc_ok (mk_account v id hash)).
  { split; cbn [username uid password_hash]; try done.
    - unfold v. rewrite aset_length. lia.
    - intros j Hj. rewrite Hv by done. repeat case_decide; [apply Hb|lia|apply Hby]; done.
    - rewrite Hv by lia. repeat case_decide; try lia; done. }
  assert (Hhd : v.[0] <> 0) by (rewrite cstr_head, Ecs; intros E; unfold n in Hn; rewrite E in Hn; unfold zlen in Hn; simpl in Hn; lia).
  assert (Hget : forall i, 0 <= i < 16 -> (accounts.[slot <- mk_account v id hash]).[i] =
    if decide (slot = i) then mk_account v id hash else accounts.[i]).
  { intros i Hi. by rewrite aget_aset_cases by lia. }
  split; [split|].
  - by rewrite aset_length.
  - intros i Hi. rewrite Hget by done. case_decide; [done|by apply Ha].
  - assert (Hx : forall i, 0 <= i < 16 -> slot <> i -> cstr v <> cstr (username accounts.[i])).
    { intros i Hi Hne E. apply (Hno i ltac:(congruence)). split; [done|]. split; [|congruence].
      intros E0. apply Hhd. apply cstr_head. rewrite E. by apply cstr_head. }
    intros i j Hi Hj. rewrite !Hget by done. repeat case_decide; cbn [username]; subst; try done.
    + intros _ E. by destruct (Hx j Hj ltac:(done)).
    + intros _ E. by destruct (Hx i Hi ltac:(done)).
    + by apply Hu.
  - unfold account_of. rewrite Hget by done. rewrite decide_True by done. repeat split; try done; try lia.
    intros i Hi Hne. rewrite Hget by done. by rewrite decide_False by done.
Qed.

Lemma account_unique accounts i j name :
  accounts_ok accounts -> account_of accounts i name -> account_of accounts j name -> i = j.
Proof. intros Ha (Hi & H0 & Hn) (Hj & _ & Hn'). apply (as_unique _ Ha); congruence. Qed.

(** What authentication answers when the account is known. *)
Lemma users_authenticate_known accounts i name password :
  accounts_ok accounts -> account_of accounts i name ->
  users_authenticate accounts name password =
    if password_hash accounts.[i] =? hash_password password then (0, Some (uid accounts.[i]))
    else (-1, None).
Proof.
  intros Ha Hi. destruct (users_authenticate_cases accounts name password) as [[Hno _]|(j & Hj & ->)].
  - by destruct (Hno i).
  - by rewrite (account_unique accounts i j name Ha Hi Hj).
Qed.

Lemma users_authenticate_unknown accounts name password :
  (forall i, ~ account_of accounts i name) -> users_authenticate accounts name password = (-1, None).
Proof.
  intros Hno. destruct (users_authenticate_cases accounts name password) as [[_ ->]|(j & Hj & _)]; [done|].
  by destruct (Hno j).
Qed.
End authentication.

(** * The claims *)

(** A static table of the right shape, whatever it holds. *)
Definition table_shape (old : list account_t) : Prop :=
  zlen old = 16 /\ forall i, 0 <= i < 16 -> zlen (username old.[i]) = 20.

Section claims.
Context {D : Type} {B : BlockDev D} {L : BlockDevLaws D}.
Implicit Types (a accounts old : list account_t) (s : ufs D) (name password : list Z).

(** What authenticates against [accounts]: one account of that name whose stored
    hash is the password's. *)
Definition authenticates accounts name password (u : Z) : Prop :=
  exists i, account_of accounts i name /\
    password_hash accounts.[i] = hash_password password /\ uid accounts.[i] = u.

(** After [accounts] were saved on [s], the next boot loads them back. *)
Definition reloads s accounts : Prop :=
  forall old, table_shape old -> exists s', users_init old s = Some (accounts, s') /\ ufs_wf s'.

Definition users_add_outcome accounts s name password id
    (r : list account_t * ufs D * Z) : Prop :=
  (r = (accounts, s, -1) /\
   (cstr name = [] \/ 20 <= zlen (cstr name) \/ (exists i, account_of accounts i name) \/
    (forall i, 0 <= i < 16 -> (username accounts.[i]).[0] <> 0))) \/
  exists a s', r = (a, s', 0) /\ accounts_ok a /\ ufs_wf s' /\
    (forall pw, users_authenticate a name pw =
       if hash_password password =? hash_password pw then (0, Some id) else (-1, None)) /\
    (forall name' pw, cstr name' <> cstr name ->
       users_authenticate a name' pw = users_authenticate accounts name' pw) /\
    (has_room s -> reloads s' a).

Lemma saved_reloads s accounts : ufs_wf s -> accounts_ok accounts -> saved s accounts -> reloads s accounts.
Proof.
  intros Hw Ha Hs old [Hl Ho]. destruct (users_init_saved s accounts old Hw Hs Ha Hl Ho) as (s' & E & Hw' & _). by exists s'.
Qed.

Lemma authenticate_same a accounts slot name name' pw :
  accounts_ok a -> accounts_ok accounts -> account_of a slot name ->
  (username accounts.[slot]).[0] = 0 ->
  (forall i, 0 <= i < 16 -> i <> slot -> a.[i] = accounts.[i]) ->
  cstr name' <> cstr name ->
  users_authenticate a name' pw = users_authenticate accounts name' pw.
Proof.
  intros Ha Hac Hs Hfree Hsame Hne.
  assert (Hiff : forall i, account_of a i name' <-> account_of accounts i name').
  { intros i. destruct (decide (i = slot)) as [->|Hi].
    - split; [intros (_ & _ & E); destruct Hs as (_ & _ & E'); congruence|by intros (_ & ? & _)].
    - unfold account_of. split; intros (Hr & H); [rewrite <- Hsame by done|rewrite Hsame by done]; done. }
  destruct (users_authenticate_cases accounts name' pw) as [[Hno ->]|(i & Hi & ->)].
  - apply users_authenticate_unknown. intros i. rewrite Hiff. apply Hno.
  - rewrite (users_authenticate_known a i name' pw Ha) by by apply Hiff.
    rewrite Hsame; [done|apply Hi|]. intros ->. by destruct Hi as (_ & ? & _).
Qed.

(** C6: [users_authenticate] answers 0 and a uid exactly when the table has an
    account of that name with the hash of that password and that uid, and
    answers -1, storing nothing, in every other case. *)
Theorem users_authenticate_correct accounts name password :
  accounts_ok accounts ->
  (forall u, users_authenticate accounts name password = (0, Some u) <->
     authenticates accounts name password u) /\
  ((forall u, ~ authenticates accounts name password u) ->
     users_authenticate accounts name password = (-1, None)).
Proof.
  intros Ha. unfold authenticates.
  destruct (users_authenticate_cases accounts name password) as [[Hno ->]|(i & Hi & ->)].
  - split; [|done]. intros u. split; [done|]. intros (i & Hi & _). by destruct (Hno i).
  - destruct (password_hash accounts.[i] =? hash_password password) eqn:E; bool_prop.
    + split; [|by intros Hno; destruct (Hno (uid accounts.[i])); exists i].
      intros u. split; [intros [= <-]; by exists i|].
      intros (j & Hj & _ & <-). by rewrite (account_unique accounts i j name Ha Hi Hj).
    + split; [|done]. intros u. split; [done|].
      intros (j & Hj & Hh & _). by rewrite (account_unique accounts j i name Ha Hj Hi) in Hh.
Qed.

(** [users_add] either refuses (an empty or too long name, a name already
    taken, a full table) and changes nothing, or adds an account: that name then
    authenticates with exactly the passwords of the same hash, every other name
    authenticates as before, and, if the disk had room, the next boot reads the
    same table back from [.passwd]. *)
Theorem users_add_correct accounts s name password id :
  accounts_ok accounts -> ufs_wf s -> bytes_ok name -> 0 <= id < 4294967296 ->
  exists r, users_add accounts s name password id = Some r /\
    users_add_outcome accounts s name password id r.
Proof.
  intros Ha Hw Hb Hid. unfold users_add, users_add_outcome, USER_NAME_MAX, USER_MAX_ACCOUNTS.
  rewrite str_len_cstr. destruct ((_ =? 0) || _) eqn:E0.
  { eexists. split; [done|]. left. split; [done|]. apply orb_prop in E0 as [E0|E0]; bool_prop.
    - left. by destruct (cstr name).
    - right; left; lia. }
  bool_prop. destruct (find_first 0 16 (fun i => negb _ && _)) as [i|] eqn:Ef.
  { apply find_first_Some in Ef as (Hi & E & _).
    apply andb_prop in E as [Hi0 E]. apply str_eq_cstr in E. bool_prop.
    eexists. split; [done|]. left. split; [done|]. right; right; left. by exists i. }
  assert (Hno : forall i, ~ account_of accounts i name).
  { intros i (Hi & Hi0 & E). apply find_first_None with (k := i) in Ef; [|done].
    apply str_eq_cstr in E. rewrite E, andb_true_r in Ef. by bool_prop. }
  destruct (find_first 0 16 (fun i => _ =? 0)) as [slot|] eqn:Es.
  2:{ eexists. split; [done|]. left. split; [done|]. right; right; right. intros i Hi.
      apply find_first_None with (k := i) in Es; [|done]. by bool_prop. }
  apply find_first_Some in Es as (Hs & Hfree & _). bool_prop.
  pose proof (zlen_nonneg (cstr name)).
  destruct (fill_slot accounts slot name id (hash_password password) Ha Hs Hb ltac:(lia) Hid
    (hash_password_bounds _) ltac:(auto)) as (Ha' & Hac & Huid & Hhash & Hsame).
  set (a := set_credentials _ _ _ _) in *. clearbody a.
  destruct (persist_spec a s Hw Ha') as (s' & -> & Hw' & Hsaved). cbn [mbind option_bind].
  eexists. split; [done|]. right. exists a, s'. split; [done|]. split; [done|]. split; [done|]. split; [|split].
  - intros pw. rewrite (users_authenticate_known a slot name pw Ha' Hac). by rewrite Huid, Hhash.
  - intros name' pw. by apply (authenticate_same a accounts slot name).
  - intros Hr. by apply saved_reloads; [..|apply Hsaved].
Qed.

(** The table of [seed_defaults] before the two accounts are entered. *)
Lemma cleared_ok old :
  zlen old = 16 -> (forall i, 0 <= i < 16 -> acc_ok old.[i]) ->
  let a := for_each 0 USER_MAX_ACCOUNTS
    (fun i a => a.[i <- mk_account ((username a.[i]).[0 <- 0]) (uid a.[i]) (password_hash a.[i])]) old in
  accounts_ok a /\ forall i, 0 <= i < 16 -> (username a.[i]).[0] = 0.
Proof.
  intros Hl Ho a.
  assert (Ha : zlen a = 16 /\ (forall i, 0 <= i < 16 -> acc_ok a.[i]) /\
               forall i, 0 <= i < 16 -> (username a.[i]).[0] = 0).
  { unfold a, USER_MAX_ACCOUNTS.
    apply (for_each_inv 0 16 _ old (fun n a => zlen a = 16 /\ (forall i, 0 <= i < 16 -> acc_ok a.[i]) /\
      forall i, 0 <= i < n -> (username a.[i]).[0] = 0)); [lia|by split; [|split; [|intros; lia]]|].
    intros n x Hn (Hx & Hok & H0). pose proof (Hok n Hn) as [Hz Hb Ht Hu Hh].
    split; [by rewrite aset_length|]. split; intros i Hi; rewrite aget_aset_cases by lia;
      case_decide; try (apply Hok; lia); try (apply H0; lia).
    - split; cbn [username uid password_hash]; try done.
      + by rewrite aset_length.
      + by apply aset_ok; [|lia|lia].
      + by rewrite aget_aset_ne by lia.
    - cbn [username]. rewrite aget_aset_eq by lia. done. }
  destruct Ha as (Hz & Hok & H0). split; [|done]. split; [done|done|].
  intros i j Hi Hj H. by rewrite H0 in H.
Qed.

Lemma no_account accounts name :
  (forall i, 0 <= i < 16 -> (username accounts.[i]).[0] = 0) -> forall i, ~ account_of accounts i name.
Proof. intros H0 i (Hi & H & _). by rewrite H0 in H. Qed.

Definition root_name : list Z := [114; 111; 111; 116].
Definition user_name : list Z := [117; 115; 101; 114].

(** Two accounts entered in an empty table. *)
Lemma two_accounts a0 n1 n2 id1 id2 h1 h2 :
  accounts_ok a0 -> (forall i, 0 <= i < 16 -> (username a0.[i]).[0] = 0) ->
  bytes_ok n1 -> bytes_ok n2 -> 0 < zlen (cstr n1) < 20 -> 0 < zlen (cstr n2) < 20 ->
  cstr n1 <> cstr n2 -> 0 <= id1 < 4294967296 -> 0 <= id2 < 4294967296 ->
  0 <= h1 < 4294967296 -> 0 <= h2 < 4294967296 ->
  let a1 := set_credentials (set_username a0 0 n1) 0 id1 h1 in
  let a2 := set_credentials (set_username a1 1 n2) 1 id2 h2 in
  accounts_ok a2 /\ (account_of a2 0 n1 /\ uid a2.[0] = id1 /\ password_hash a2.[0] = h1) /\
  (account_of a2 1 n2 /\ uid a2.[1] = id2 /\ password_hash a2.[1] = h2) /\
  forall i name, account_of a2 i name -> cstr name = cstr n1 \/ cstr name = cstr n2.
Proof.
  intros Hok0 Hfree Hb1 Hb2 Hl1 Hl2 Hne Hi1 Hi2 Hh1 Hh2 a1.
  destruct (fill_slot a0 0 n1 id1 h1 Hok0 ltac:(lia) Hb1 Hl1 Hi1 Hh1 ltac:(intros i _; by apply no_account))
    as (Hok1 & Hac1 & Eu1 & Eh1 & Hs1).
  fold a1 in Hok1, Hac1, Eu1, Eh1, Hs1. clearbody a1.
  assert (Hfree1 : forall i, 0 <= i < 16 -> i <> 0 -> (username a1.[i]).[0] = 0).
  { intros i Hi Hn. rewrite Hs1 by done. by apply Hfree. }
  destruct (fill_slot a1 1 n2 id2 h2 Hok1 ltac:(lia) Hb2 Hl2 Hi2 Hh2) as (Hok2 & Hac2 & Eu2 & Eh2 & Hs2).
  { intros i Hi (Hi' & H0 & E). destruct (decide (i = 0)) as [->|]; [|by rewrite Hfree1 in H0].
    destruct Hac1 as (_ & _ & E'). congruence. }
  intros a2. fold a2 in Hok2, Hac2, Eu2, Eh2, Hs2. clearbody a2.
  split; [done|]. split; [|split; [done|]].
  - unfold account_of. rewrite Hs2 by lia. done.
  - intros i name (Hi & H0 & E). destruct (decide (i = 1)) as [->|].
    + right. destruct Hac2 as (_ & _ & E2). congruence.
    + left. rewrite Hs2 in H0, E by done. destruct (decide (i = 0)) as [->|]; [|by rewrite Hfree1 in H0].
      destruct Hac1 as (_ & _ & E2). congruence.
Qed.

(** on a disk without [.passwd] that has room for it, [users_init] enters
    the accounts [root] (uid 0) and [user] (uid 1000), each with its name as
    password; no other name authenticates; and every later boot reads that table
    back instead of seeding again. *)
Theorem users_first_boot old s :
  ufs_wf s -> has_room s -> (forall i, ~ named s i PASSWD_FILE) ->
  zlen old = 16 -> (forall i, 0 <= i < 16 -> acc_ok old.[i]) ->
  exists a s', users_init old s = Some (a, s') /\ accounts_ok a /\ ufs_wf s' /\
    users_authenticate a root_name root_name = (0, Some 0) /\
    users_authenticate a user_name user_name = (0, Some 1000) /\
    (forall name pw, cstr name <> root_name -> cstr name <> user_name ->
       users_authenticate a name pw = (-1, None)) /\
    reloads s' a.
Proof.
  intros Hw Hr Hno Hl Ho. unfold users_init, seed_defaults.
  destruct (ufs_find_cases s PASSWD_FILE (uw_mem _ Hw)) as [(h & Hn & _)|[_ ->]]; [by destruct (Hno h)|].
  change (-1 <? 0) with true. cbv iota zeta. fold root_name user_name.
  destruct (cleared_ok old Hl Ho) as [Hok0 Hfree].
  set (a0 := for_each 0 USER_MAX_ACCOUNTS _ old) in *. clearbody a0.
  destruct (two_accounts a0 root_name user_name 0 1000 (hash_password root_name) (hash_password user_name)
    Hok0 Hfree (small_bytes_ok root_name eq_refl) (small_bytes_ok user_name eq_refl))
    as (Hok & (Hac1 & Hu1 & Hh1) & (Hac2 & Hu2 & Hh2) & Honly);
    [vm_compute; done|vm_compute; done|discriminate|lia|lia|apply hash_password_bounds|apply hash_password_bounds|].
  set (a2 := set_credentials _ 1 _ _) in *. clearbody a2.
  destruct (persist_spec a2 s Hw Hok) as (s' & -> & Hw' & Hsaved). cbn [mbind option_bind].
  exists a2, s'. split; [exact eq_refl|]. split; [exact Hok|]. split; [exact Hw'|].
  split; [|split; [|split; [|by apply saved_reloads; [..|apply Hsaved]]]].
  - by rewrite (users_authenticate_known a2 0 _ _ Hok Hac1), Hh1, Hu1, Z.eqb_refl.
  - by rewrite (users_authenticate_known a2 1 _ _ Hok Hac2), Hh2, Hu2, Z.eqb_refl.
  - intros name pw Hn1 Hn2. apply users_authenticate_unknown. intros i Hi.
    destruct (Honly i name Hi) as [E|E]; [exact (Hn1 E)|exact (Hn2 E)].
Qed.
End claims.

(** * Witnesses *)

(** The table at boot is zeros. *)
Definition boot_accounts : list account_t := replicate 16 (mk_account (replicate 20 0) 0 0).
Definition demo_accounts : list account_t :=
  set_credentials (set_username boot_accounts 0 root_name) 0 0 (hash_password root_name).

Lemma boot_account_ok i : 0 <= i < 16 -> acc_ok boot_accounts.[i].
Proof.
  intros Hi. unfold boot_accounts. rewrite lookup_total_replicate_2 by lia.
  split; [done|by apply small_bytes_ok|done|simpl; lia|simpl; lia].
Qed.

Lemma boot_free i : 0 <= i < 16 -> (username boot_accounts.[i]).[0] = 0.
Proof. intros Hi. unfold boot_accounts. by rewrite lookup_total_replicate_2 by lia. Qed.

Lemma boot_accounts_ok : accounts_ok boot_accounts.
Proof.
  split; [done|apply boot_account_ok|]. intros i j Hi Hj H. by rewrite boot_free in H.
Qed.

Lemma demo_accounts_ok : accounts_ok demo_accounts.
Proof.
  apply fill_slot; [apply boot_accounts_ok|lia|by apply small_bytes_ok|done|lia|apply hash_password_bounds|].
  intros i _. apply no_account, boot_free.
Qed.

Lemma demo_ufs_room : has_room demo_ufs /\ forall i, ~ named demo_ufs i PASSWD_FILE.
Proof.
  destruct demo_ufs_empty as (He & Hno & Hn). split.
  - split; [right; exists 0; split; [lia|apply He; lia]|by rewrite Hn].
  - intros i. apply Hno.
Qed.

Lemma users_authenticate_correct_witness :
  accounts_ok demo_accounts /\
  (forall u, users_authenticate demo_accounts root_name root_name = (0, Some u) <->
     authenticates demo_accounts root_name root_name u) /\
  ((forall u, ~ authenticates demo_accounts root_name root_name u) ->
     users_authenticate demo_accounts root_name root_name = (-1, None)).
Proof.
  exact (conj demo_accounts_ok (users_authenticate_correct demo_accounts root_name root_name demo_accounts_ok)).
Defined.

Lemma users_add_correct_witness :
  (accounts_ok demo_accounts /\ ufs_wf demo_ufs /\ has_room demo_ufs) /\
  exists r, users_add demo_accounts demo_ufs user_name user_name 1000 = Some r /\
    users_add_outcome demo_accounts demo_ufs user_name user_name 1000 r.
Proof.
  exact (conj (conj demo_accounts_ok (conj demo_ufs_wf (proj1 demo_ufs_room)))
    (users_add_correct demo_accounts demo_ufs user_name user_name 1000 demo_accounts_ok demo_ufs_wf
      (small_bytes_ok user_name eq_refl) ltac:(lia))).
Defined.

Lemma users_first_boot_witness :
  (ufs_wf demo_ufs /\ has_room demo_ufs) /\
  exists a s', users_init boot_accounts demo_ufs = Some (a, s') /\ accounts_ok a /\ ufs_wf s' /\
    users_authenticate a root_name root_name = (0, Some 0) /\
    users_authenticate a user_name user_name = (0, Some 1000) /\
    (forall name pw, cstr name <> root_name -> cstr name <> user_name ->
       users_authenticate a name pw = (-1, None)) /\
    reloads s' a.
Proof.
  split; [exact (conj demo_ufs_wf (proj1 demo_ufs_room))|].
  exact (users_first_boot boot_accounts demo_ufs demo_ufs_wf (proj1 demo_ufs_room) (proj2 demo_ufs_room)
    eq_refl boot_account_ok).
Defined.
