(* ===== verification/UfsRights.v ===== *)
(** What no call but [ufs_delete] and [ufs_chmod] can take from a file: its entry stays
    in use under the same name, owner and permission bits, whatever the arguments are
    and whatever the disk answers. *)
From S2P Require Import Prelude CString Blk Ufs UfsSpec Users.

(** * Bytes of the directory *)

Section bytes.
Implicit Types (l dir : list Z).

(** Only the bytes from [lo] up to [hi] may differ. *)
Definition within_bytes (lo hi : Z) l l' : Prop :=
  zlen l' = zlen l /\ forall j, 0 <= j -> ~ (lo <= j < hi) -> l'.[j] = l.[j].

Lemma within_bytes_refl lo hi l : within_bytes lo hi l l.
Proof. done. Qed.

Lemma within_bytes_trans lo hi l1 l2 l3 :
  within_bytes lo hi l1 l2 -> within_bytes lo hi l2 l3 -> within_bytes lo hi l1 l3.
Proof. intros [Z1 H1] [Z2 H2]. split; [congruence|]. intros j Hj Hn. by rewrite H2, H1. Qed.

Lemma within_bytes_aset lo hi l i v : 0 <= lo <= i -> i < hi -> within_bytes lo hi l (l.[i <- v]).
Proof. intros Hi Hh. split; [apply aset_length|]. intros j Hj Hn. apply aget_aset_ne; lia. Qed.

Lemma within_bytes_u32 lo hi l i v : 0 <= lo <= i -> i + 4 <= hi -> within_bytes lo hi l (write_u32 l i v).
Proof.
  intros Hi Hh. unfold write_u32.
  repeat (eapply within_bytes_trans; [|apply within_bytes_aset; lia]). done.
Qed.

Lemma within_bytes_for_each lo hi l a b (g : Z -> list Z -> list Z) :
  (forall i l', a <= i < b -> within_bytes lo hi l' (g i l')) -> within_bytes lo hi l (for_each a b g l).
Proof.
  intros Hg. apply for_each_keep; [done|]. intros i l' Hi Hl. eapply within_bytes_trans; [done|by apply Hg].
Qed.

Lemma set_name_bytes dir e nm : 0 <= e -> within_bytes e (e + 20) dir (set_name dir e nm).
Proof.
  intros He. unfold set_name. ufs_consts.
  assert (Hc : within_bytes e (e + 20) dir (str_copy dir e nm (20 - 1)).1 /\
    0 <= (str_copy dir e nm (20 - 1)).2).
  { unfold str_copy. apply (for_range_cases 0 (20 - 1) _ dir (fun _ d => within_bytes e (e + 20) dir d)
      (fun r => within_bytes e (e + 20) dir (match r with inr r => r | inl d => (d, 20 - 1) end).1 /\
         0 <= (match r with inr r => r | inl d => (d, 20 - 1) end).2)); [lia|done| |].
    - intros j d Hj Hd. destruct (_ =? 0); [split; [done|simpl; lia]|].
      eapply within_bytes_trans; [done|]. apply within_bytes_aset; lia.
    - intros d Hd. split; [done|simpl; lia]. }
  destruct (str_copy _ _ _ _) as [d n]. destruct Hc as [Hd Hn]. simpl in Hd, Hn.
  eapply within_bytes_trans; [done|]. apply within_bytes_for_each. intros i l' Hi.
  apply within_bytes_aset; lia.
Qed.

Lemma init_entry_bytes dir e nm owner : 0 <= e -> within_bytes e (e + 40) dir (init_entry dir e nm owner).
Proof.
  intros He. unfold init_entry, UFS_OFF_START_LBA, UFS_OFF_SIZE, UFS_OFF_CAPACITY, UFS_OFF_OWNER, UFS_OFF_PERM.
  eapply within_bytes_trans; [|apply within_bytes_aset; lia].
  repeat (eapply within_bytes_trans; [|apply within_bytes_u32; lia]).
  destruct (set_name_bytes dir e nm He) as [Hz Hn]. split; [done|]. intros j Hj Hout. apply Hn; lia.
Qed.

(** ** Rights *)

(** Every entry in use keeps its name, owner and permission bits; only the bytes of the
    start, the size and the capacity may differ. *)
Definition rights_kept dir dir' : Prop :=
  zlen dir' = zlen dir /\
  forall h k, 0 <= h < 64 -> entry_used dir h = true -> 0 <= k < 40 -> ~ (20 <= k < 32) ->
    dir'.[entry_off h + k] = dir.[entry_off h + k].

Lemma rights_used dir dir' h :
  rights_kept dir dir' -> 0 <= h < 64 -> entry_used dir h = true -> entry_used dir' h = true.
Proof.
  intros [_ Hk] Hh Hu. unfold entry_used in *. specialize (Hk h 0 Hh Hu ltac:(lia) ltac:(lia)).
  rewrite Z.add_0_r in Hk. by rewrite Hk.
Qed.

Lemma rights_refl dir : rights_kept dir dir.
Proof. done. Qed.

Lemma rights_trans dir1 dir2 dir3 :
  rights_kept dir1 dir2 -> rights_kept dir2 dir3 -> rights_kept dir1 dir3.
Proof.
  intros H12 H23. split; [destruct H12, H23; congruence|]. intros h k Hh Hu Hk Hn.
  destruct H23 as [_ H23]. rewrite H23; [by apply H12|done|by apply (rights_used dir1)|done|done].
Qed.

(** A store into the three fields of an entry, or into an entry that is not in use. *)
Lemma rights_field dir dir' h lo hi :
  0 <= h < 64 -> 20 <= lo -> hi <= 32 -> within_bytes (entry_off h + lo) (entry_off h + hi) dir dir' ->
  rights_kept dir dir'.
Proof.
  intros Hh Hlo Hhi [Hz Hw]. split; [done|]. intros j k Hj _ Hk Hn. ufs_consts. apply Hw; lia.
Qed.

Lemma rights_unused dir dir' h :
  0 <= h < 64 -> entry_used dir h = false -> within_bytes (entry_off h) (entry_off h + 40) dir dir' ->
  rights_kept dir dir'.
Proof.
  intros Hh Hf [Hz Hw]. split; [done|]. intros j k Hj Hu Hk _.
  assert (j <> h) by congruence. ufs_consts. apply Hw; lia.
Qed.

(** In the terms of the entries. *)
Lemma rights_identity dir dir' h :
  rights_kept dir dir' -> 0 <= h < 64 -> entry_used dir h = true ->
  same_identity (dirent_at dir h) (dirent_at dir' h).
Proof.
  intros Hr Hh Hu. pose proof (rights_used _ _ _ Hr Hh Hu) as Hu'. destruct Hr as [Hz Hk].
  unfold same_identity, dirent_at. cbn [de_used de_name de_owner de_perm]. split; [congruence|]. split.
  - f_equal. apply array_ext; [unfold slice, zlen in *; rewrite !length_take, !length_drop; lia|].
    intros i Hi. assert (Hi20 : 0 <= i < 20).
    { unfold slice, UFS_NAME_MAX, zlen in Hi. rewrite length_take in Hi. lia. }
    rewrite !slice_get by (ufs_consts; lia). apply Hk; try done; lia.
  - split; [|apply Hk; try done; unfold UFS_OFF_PERM; lia].
    apply read_u32_ext. unfold UFS_OFF_OWNER. intros i Hi.
    replace i with (entry_off h + (i - entry_off h)) by lia. apply Hk; try done; lia.
Qed.
End bytes.

(** * The operations *)

Section operations.
Context {D : Type} {B : BlockDev D}.
Implicit Types (s : ufs D) (nm buf : list Z).

Definition rights s s' : Prop := rights_kept (directory s) (directory s').

Lemma persist_dir s ok : directory (persist_and_return s ok).1 = directory s.
Proof.
  unfold persist_and_return, persist_directory, persist_superblock. destruct (ata_write_sectors _ _ _ _) as [r d].
  destruct (negb (r =? 0)); [done|]. destruct (ata_write_sectors _ _ _ _) as [r2 d2]. by destruct (negb (r2 =? 0)).
Qed.

Lemma valid_slot s h : handle_valid s h = true -> 0 <= h < 64.
Proof. unfold handle_valid. change UFS_MAX_ENTRIES with 64. intros Hv. bool_prop. lia. Qed.

Lemma ufs_truncate_rights s h n : rights s (ufs_truncate s h n).1.
Proof.
  unfold rights, ufs_truncate. destruct (handle_valid s h) eqn:Hv; cbn [negb]; [|done].
  destruct (n >? _); [done|]. rewrite persist_dir. cbn [with_directory directory]. apply valid_slot in Hv.
  apply (rights_field _ _ h 24 28); [done|lia|lia|]. unfold UFS_OFF_SIZE. ufs_consts.
  apply within_bytes_u32; lia.
Qed.

Lemma ufs_create_bytes s nm owner :
  directory (ufs_create s nm owner).1 = directory s /\ (ufs_create s nm owner).2 = -1 \/
  exists h, 0 <= h < 64 /\ entry_used (directory s) h = false /\
    within_bytes (entry_off h) (entry_off h + 40) (directory s) (directory (ufs_create s nm owner).1) /\
    ((ufs_create s nm owner).2 = h \/ (ufs_create s nm owner).2 = -1).
Proof.
  unfold ufs_create. repeat (split_if; [by left|]).
  pose proof (find_first_spec 0 UFS_MAX_ENTRIES (fun i => negb (entry_used (directory s) i))) as Hf.
  destruct (find_first _ _ _) as [h|]; [|by left]. destruct Hf as (Hh & Hu & _).
  change UFS_MAX_ENTRIES with 64 in Hh. apply negb_true_iff in Hu. right. exists h. split; [done|]. split; [done|].
  rewrite persist_dir. split; [apply init_entry_bytes; ufs_consts; lia|].
  unfold persist_and_return. repeat (case_match; simpl; auto).
Qed.

Lemma ufs_create_rights s nm owner : rights s (ufs_create s nm owner).1.
Proof.
  destruct (ufs_create_bytes s nm owner) as [[Hd _]|(h & Hh & Hu & Hb & _)]; unfold rights; [by rewrite Hd|].
  by apply (rights_unused _ _ h).
Qed.

Lemma ensure_capacity_rights s h n s' r :
  0 <= h < 64 -> ensure_capacity s h n = Some (s', r) -> rights s s'.
Proof.
  intros Hh. unfold rights, ensure_capacity. split_if; [intros [= <- _]; done|].
  destruct (double_until _ _ _) as [c|]; cbn [mbind option_bind]; [|done]. split_if; [intros [= <- _]; done|].
  destruct (if _ >? 0 then _ else _) as [[d q]|]; cbn [mbind option_bind]; [|done].
  split_if; [intros [= <- _]; done|]. intros [= Eq]. apply (f_equal fst) in Eq. cbn [fst] in Eq. subst s'.
  rewrite persist_dir. cbn [with_next with_directory with_disk directory].
  apply (rights_field _ _ h 20 32); [done|lia|lia|]. unfold UFS_OFF_START_LBA, UFS_OFF_CAPACITY. ufs_consts.
  eapply within_bytes_trans; apply within_bytes_u32; lia.
Qed.

Lemma ufs_write_at_rights s h offset buf len s' r : ufs_write_at s h offset buf len = Some (s', r) -> rights s s'.
Proof.
  unfold ufs_write_at. destruct (handle_valid s h) eqn:Hv; cbn [negb]; [|intros [= <- _]; done].
  apply valid_slot in Hv. split_if; [intros [= <- _]; done|].
  destruct (if len >? 0 then _ else _) as [[s1 r1]|] eqn:Ee; cbn [mbind option_bind]; [|done].
  assert (Hr1 : rights s s1).
  { revert Ee. split_if; [by apply ensure_capacity_rights|]. by intros [= <- _]. }
  split_if; [by intros [= <- _]|].
  destruct (write_sectors _ _ _ _ _) as [[d q]|]; cbn [mbind option_bind]; [|done].
  split_if; [by intros [= <- _]|]. split_if; [|by intros [= <- _]].
  intros [= Eq]. apply (f_equal fst) in Eq. cbn [fst] in Eq. subst s'.
  unfold rights. rewrite persist_dir. cbn [with_directory with_disk directory].
  apply (rights_trans _ (directory s1)); [done|]. apply (rights_field _ _ h 24 28); [done|lia|lia|].
  unfold UFS_OFF_SIZE. ufs_consts. apply within_bytes_u32; lia.
Qed.

Lemma ufs_read_at_rights s h offset out len s' out' r :
  ufs_read_at s h offset out len = Some (s', out', r) -> rights s s'.
Proof.
  unfold ufs_read_at, rights. split_if; [by intros [= <- _ _]|]. cbv zeta. split_if; [by intros [= <- _ _]|].
  destruct (read_sectors _ _ _ _ _) as [[[d o] q]|]; cbn [mbind option_bind]; [|done].
  by split_if; intros [= <- _ _].
Qed.

(** Saving the accounts: only the entry of the password file is made or changed. *)
Lemma persist_rights accounts s s' : persist accounts s = Some s' -> rights s s'.
Proof.
  unfold persist. cbv zeta. set (buf := passwd_image _ _). set (h := ufs_find s PASSWD_FILE).
  assert (Ht : forall t, t = (if h <? 0 then
      let (s, handle) := ufs_create s PASSWD_FILE 0 in
      if handle <? 0 then (s, handle) else ((ufs_chmod s handle 0).1, handle)
    else ((ufs_truncate s h 0).1, h)) -> rights s t.1).
  { intros t ->. destruct (h <? 0); [|apply ufs_truncate_rights].
    pose proof (ufs_create_rights s PASSWD_FILE 0) as Hr. pose proof (ufs_create_bytes s PASSWD_FILE 0) as Hb.
    destruct (ufs_create s PASSWD_FILE 0) as [s1 n]. cbn [fst snd] in *. destruct (n <? 0) eqn:En; [done|]. bool_prop.
    destruct Hb as [[_ ?]|(i & Hi & Hu & Hw & [-> |?])]; [lia| |lia].
    cbn [fst]. unfold ufs_chmod. destruct (handle_valid s1 i); cbn [negb]; [|done].
    unfold rights. rewrite persist_dir. cbn [with_directory directory]. apply (rights_unused _ _ i); [done|done|].
    eapply within_bytes_trans; [done|]. unfold UFS_OFF_PERM. ufs_consts. apply within_bytes_aset; lia. }
  destruct (if h <? 0 then _ else _) as [s1 n]. specialize (Ht _ eq_refl). cbn [fst] in Ht.
  destruct (n <? 0); [by intros [= <-]|].
  destruct (ufs_write_at s1 n 0 buf _) as [[s2 q]|] eqn:Ew; cbn [mbind option_bind]; [|done].
  intros [= <-]. apply (rights_trans _ (directory s1)); [done|]. by eapply ufs_write_at_rights.
Qed.

Lemma users_add_rights accounts s nm pw id a s' r : users_add accounts s nm pw id = Some (a, s', r) -> rights s s'.
Proof.
  unfold users_add. split_if; [by intros [= _ <- _]|]. destruct (find_first _ _ _); [by intros [= _ <- _]|].
  destruct (find_first _ _ _) as [slot|]; [|by intros [= _ <- _]]. cbv zeta.
  destruct (persist _ _) as [s1|] eqn:Ep; cbn [mbind option_bind]; [|done]. intros [= _ <- _]. by eapply persist_rights.
Qed.
End operations.
