(* ===== verification/Thread.v ===== *)
(** The scheduler of [kernel/sched/thread.c]: the thread table, the round-robin
    switch, ticks, sleeping and waking, spawning, and the descriptor tables.
    Exit, kill and reap call the process table and are in [Process]. *)
From S2P Require Import Prelude.

Definition INITIAL_THREAD_CAPACITY : Z := 4.
Definition THREAD_STACK_PAGES : Z := 2.
Definition THREAD_STACK_SIZE : Z := 8192.
Definition THREAD_MAX_FDS : Z := 8.
(** [sizeof(thread_t)] and the offset of [uid] in it. *)
Definition THREAD_SIZEOF : Z := 168.
Definition THREAD_UID_OFF : Z := 160.

Inductive thread_state_t :=
  | THREAD_UNUSED
  | THREAD_READY
  | THREAD_RUNNING
  | THREAD_BLOCKED
  | THREAD_ZOMBIE.

#[export] Instance thread_state_eq_dec : EqDecision thread_state_t.
Proof. solve_decision. Defined.

Definition THREAD_PRIO_LOW : Z := 0.
Definition THREAD_PRIO_NORMAL : Z := 1.
Definition THREAD_PRIO_HIGH : Z := 2.
Definition THREAD_PRIO_COUNT : Z := 3.

Definition quantum_ticks (priority : Z) : Z := [2; 4; 8].[priority].

Definition FD_KIND_UNUSED : Z := 0.
Definition FD_KIND_CONSOLE : Z := 1.
Definition FD_KIND_MEMFS : Z := 2.
Definition FD_KIND_UFS : Z := 3.
Definition FD_KIND_PIPE_READ : Z := 4.
Definition FD_KIND_PIPE_WRITE : Z := 5.

Record fd_slot_t := mk_fd { fd_kind : Z; fd_handle : Z; fd_cursor : Z }.

#[export] Instance fd_slot_inhabited : Inhabited fd_slot_t := populate (mk_fd 0 0 0).

Record thread_t := mk_thread {
  rsp : Z;
  state : thread_state_t;
  stack_low : Z;
  guard_page : Z;
  priority : Z;
  ticks_remaining : Z;
  address_space : Z;
  wait_channel : Z;
  context : Z;
  fds : list fd_slot_t;
  thread_uid : Z;
}.

#[export] Instance thread_inhabited : Inhabited thread_t :=
  populate (mk_thread 0 THREAD_UNUSED 0 0 0 0 0 0 0 (replicate 8 (mk_fd 0 0 0)) 0).

(** What the scheduler calls: the heap, the frame allocator, the page tables, the
    TSS and the context switch.  [K] is the state of all of them. *)
Class SchedEnv (K : Type) := {
  env_malloc : K -> Z -> option (K * Z);
  env_free : K -> Z -> option K;
  env_ld32 : K -> Z -> Z;
  env_st64 : K -> Z -> Z -> K;
  env_alloc_contiguous : K -> Z -> K * Z;
  env_free_frame : K -> Z -> K;
  env_guard_page : K -> Z -> K;
  env_is_mapped : K -> Z -> bool;
  env_map_page : K -> Z -> Z -> Z -> K;
  env_kernel_space : K -> Z;
  env_switch_space : K -> Z -> K;
  env_set_kernel_stack : K -> Z -> K;
  (** Saves the registers on the running stack and loads those at the stack
      pointer given; the result is the stack pointer saved. *)
  env_switch_context : K -> Z -> K * Z;
}.

Record sched (K : Type) := mk_sched {
  threads : list thread_t;
  (** The address of the table; the list is what it holds. *)
  threads_ptr : Z;
  thread_capacity : Z;
  current_thread : Z;
  env : K;
}.
Arguments mk_sched {K}.
Arguments threads {K}.
Arguments threads_ptr {K}.
Arguments thread_capacity {K}.
Arguments current_thread {K}.
Arguments env {K}.

(** * Writes to one field *)

Definition set_state (st : thread_state_t) (t : thread_t) : thread_t :=
  mk_thread (rsp t) st (stack_low t) (guard_page t) (priority t) (ticks_remaining t)
    (address_space t) (wait_channel t) (context t) (fds t) (thread_uid t).
Definition set_rsp (v : Z) (t : thread_t) : thread_t :=
  mk_thread v (state t) (stack_low t) (guard_page t) (priority t) (ticks_remaining t)
    (address_space t) (wait_channel t) (context t) (fds t) (thread_uid t).
Definition set_ticks (v : Z) (t : thread_t) : thread_t :=
  mk_thread (rsp t) (state t) (stack_low t) (guard_page t) (priority t) v
    (address_space t) (wait_channel t) (context t) (fds t) (thread_uid t).
Definition set_wait (v : Z) (t : thread_t) : thread_t :=
  mk_thread (rsp t) (state t) (stack_low t) (guard_page t) (priority t) (ticks_remaining t)
    (address_space t) v (context t) (fds t) (thread_uid t).
Definition set_prio (v : Z) (t : thread_t) : thread_t :=
  mk_thread (rsp t) (state t) (stack_low t) (guard_page t) v (ticks_remaining t)
    (address_space t) (wait_channel t) (context t) (fds t) (thread_uid t).
Definition set_space (v : Z) (t : thread_t) : thread_t :=
  mk_thread (rsp t) (state t) (stack_low t) (guard_page t) (priority t) (ticks_remaining t)
    v (wait_channel t) (context t) (fds t) (thread_uid t).
Definition set_context (v : Z) (t : thread_t) : thread_t :=
  mk_thread (rsp t) (state t) (stack_low t) (guard_page t) (priority t) (ticks_remaining t)
    (address_space t) (wait_channel t) v (fds t) (thread_uid t).
Definition set_fds (v : list fd_slot_t) (t : thread_t) : thread_t :=
  mk_thread (rsp t) (state t) (stack_low t) (guard_page t) (priority t) (ticks_remaining t)
    (address_space t) (wait_channel t) (context t) v (thread_uid t).
Definition set_uid (v : Z) (t : thread_t) : thread_t :=
  mk_thread (rsp t) (state t) (stack_low t) (guard_page t) (priority t) (ticks_remaining t)
    (address_space t) (wait_channel t) (context t) (fds t) v.

(** * The model *)

Definition reset_fd_slot : fd_slot_t := mk_fd FD_KIND_UNUSED (-1) 0.

(** Every field but [uid] is written. *)
Definition init_thread_slot (t : thread_t) : thread_t :=
  mk_thread 0 THREAD_UNUSED 0 0 THREAD_PRIO_NORMAL (quantum_ticks THREAD_PRIO_NORMAL) 0 0 0
    (for_each 0 THREAD_MAX_FDS (fun i l => l.[i <- reset_fd_slot]) (fds t)) (thread_uid t).

(** Every field but [uid] is copied. *)
Definition copy_thread_slot (dst src : thread_t) : thread_t :=
  mk_thread (rsp src) (state src) (stack_low src) (guard_page src) (priority src)
    (ticks_remaining src) (address_space src) (wait_channel src) (context src)
    (for_each 0 THREAD_MAX_FDS (fun i l => l.[i <- (fds src).[i]]) (fds dst)) (thread_uid dst).

Definition console_fd : fd_slot_t := mk_fd FD_KIND_CONSOLE 0 0.

Section model.
Context {K : Type} `{SchedEnv K}.
Implicit Types (s : sched K) (tid fd channel : Z).

Definition with_threads s (l : list thread_t) : sched K :=
  mk_sched l (threads_ptr s) (thread_capacity s) (current_thread s) (env s).
Definition with_current s tid : sched K :=
  mk_sched (threads s) (threads_ptr s) (thread_capacity s) tid (env s).
Definition with_env s (k : K) : sched K :=
  mk_sched (threads s) (threads_ptr s) (thread_capacity s) (current_thread s) k.
Definition on_thread s tid (f : thread_t -> thread_t) : sched K :=
  with_threads s ((threads s).[tid <- f (threads s).[tid]]).

(** The slots of a table fresh from [kmalloc]: only [uid] is read before it is
    written, so only its bytes are taken from memory. *)
Definition raw_table (k : K) (p n : Z) : list thread_t :=
  map (fun i => mk_thread 0 THREAD_UNUSED 0 0 0 0 0 0 0 (replicate 8 (mk_fd 0 0 0))
                  (env_ld32 k (p + THREAD_SIZEOF * i + THREAD_UID_OFF)))
    (seqZ 0 n).

Definition grow_thread_table s : option (sched K * Z) :=
  let new_capacity :=
    if thread_capacity s =? 0 then INITIAL_THREAD_CAPACITY else thread_capacity s * 2 in
  '(k, new_table) ← env_malloc (env s) (THREAD_SIZEOF *64 new_capacity);
  if new_table =? 0 then Some (with_env s k, -1)
  else
    let l := raw_table k new_table new_capacity in
    let l := for_each 0 (thread_capacity s)
               (fun i l => l.[i <- copy_thread_slot l.[i] (threads s).[i]]) l in
    let l := for_each (thread_capacity s) new_capacity
               (fun i l => l.[i <- init_thread_slot l.[i]]) l in
    let old_table := threads_ptr s in
    k ← (if negb (old_table =? 0) then env_free k old_table else Some k);
    Some (mk_sched l new_table new_capacity (current_thread s) k, 0).

Definition runnable (t : thread_t) : bool :=
  bool_decide (state t = THREAD_READY) || bool_decide (state t = THREAD_RUNNING).

Definition find_next_runnable s (from : Z) : Z :=
  match for_range 0 (thread_capacity s)
    (fun _ next =>
       let next := (next + 1) mod thread_capacity s in
       if runnable (threads s).[next] then inr next else inl next) from with
  | inl next | inr next => next
  end.

(** The stack and its guard page, or [None] for result -1. *)
Definition alloc_guarded_stack (k : K) : K * option (Z * Z) :=
  let (k, region) := env_alloc_contiguous k (THREAD_STACK_PAGES + 1) in
  if region =? 0 then (k, None)
  else
    let guard_page := region in
    let stack_low := region +64 4096 in
    let k := env_guard_page k guard_page in
    if env_is_mapped k guard_page then
      (for_each 0 (THREAD_STACK_PAGES + 1) (fun i k => env_free_frame k (region +64 i * 4096)) k,
       None)
    else (k, Some (stack_low, guard_page)).

Definition activate s tid : sched K :=
  let k := env_set_kernel_stack (env s) (stack_low (threads s).[tid] +64 THREAD_STACK_SIZE) in
  with_env s (env_switch_space k (address_space (threads s).[tid])).

Definition sched_init s : option (sched K) :=
  '(s, _) ← grow_thread_table s;
  let (k, st) := alloc_guarded_stack (env s) in
  let '(stack_low, guard_page) := default (0, 0) st in
  let s := with_env s k in
  let s := on_thread s 0 (fun t =>
    mk_thread (rsp t) THREAD_RUNNING stack_low guard_page (priority t) (ticks_remaining t)
      (env_kernel_space k) (wait_channel t) (context t)
      ((fds t).[0 <- console_fd].[1 <- console_fd]) 0) in
  Some (activate (with_current s 0) 0).

(** The frame a new thread is first switched to. *)
Definition push_frame (k : K) (stack_low entry : Z) : K * Z :=
  let sp := stack_low +64 THREAD_STACK_SIZE in
  let sp := sp -64 8 in let k := env_st64 k sp entry in
  let sp := sp -64 8 in let k := env_st64 k sp 0x202 in
  let sp := sp -64 8 in let k := env_st64 k sp 0 in
  let sp := sp -64 8 in let k := env_st64 k sp 0 in
  let sp := sp -64 8 in let k := env_st64 k sp 0 in
  let sp := sp -64 8 in let k := env_st64 k sp 0 in
  let sp := sp -64 8 in let k := env_st64 k sp 0 in
  let sp := sp -64 8 in let k := env_st64 k sp 0 in
  (k, sp).

Definition sched_spawn_prio_with_context s (entry priority context : Z) : option (sched K * Z) :=
  let priority :=
    if (priority <? 0) || (priority >=? THREAD_PRIO_COUNT) then THREAD_PRIO_NORMAL else priority in
  '(s, slot) ←
    match find_first 0 (thread_capacity s)
            (fun i => bool_decide (state (threads s).[i] = THREAD_UNUSED)) with
    | Some i => Some (s, i)
    | None =>
        let previous_capacity := thread_capacity s in
        '(s, r) ← grow_thread_table s;
        Some (s, if negb (r =? 0) then -1 else previous_capacity)
    end;
  if slot =? -1 then Some (s, -1)
  else
    let (k, st) := alloc_guarded_stack (env s) in
    let s := with_env s k in
    match st with
    | None => Some (s, -1)
    | Some (stack_low, guard_page) =>
        let (k, sp) := push_frame (env s) stack_low entry in
        let s := with_env s k in
        let uid := if current_thread s >=? 0 then thread_uid (threads s).[current_thread s] else 0 in
        let s := on_thread s slot (fun t =>
          mk_thread sp THREAD_READY stack_low guard_page priority (quantum_ticks priority)
            (env_kernel_space k) (wait_channel t) context
            (for_each 2 THREAD_MAX_FDS (fun i l => l.[i <- reset_fd_slot])
              ((fds t).[0 <- console_fd].[1 <- console_fd])) uid) in
        Some (s, slot)
    end.

Definition sched_spawn_prio s (entry priority : Z) := sched_spawn_prio_with_context s entry priority 0.
Definition sched_spawn s (entry : Z) :=
  sched_spawn_prio_with_context s entry THREAD_PRIO_NORMAL 0.
Definition sched_spawn_with_context s (entry context : Z) :=
  sched_spawn_prio_with_context s entry THREAD_PRIO_NORMAL context.

Definition sched_set_address_space s tid (space : Z) : sched K :=
  if (tid <? 0) || (tid >=? thread_capacity s) then s
  else
    let s := on_thread s tid (set_space space) in
    if tid =? current_thread s then with_env s (env_switch_space (env s) space) else s.

(** [threads[next]] starts running with a full quantum. *)
Definition start_running s (next : Z) : sched K :=
  let s := on_thread s next (set_state THREAD_RUNNING) in
  on_thread s next (set_ticks (quantum_ticks (priority (threads s).[next]))).

(** [switch_context(&threads[prev].rsp, &threads[next].rsp)] *)
Definition switch_to s (prev next : Z) : sched K :=
  let (k, saved) := env_switch_context (env s) (rsp (threads s).[next]) in
  on_thread (with_env s k) prev (set_rsp saved).

Definition sched_yield s : sched K :=
  if current_thread s =? -1 then s
  else
    let next := find_next_runnable s (current_thread s) in
    if next =? current_thread s then s
    else
      let s := on_thread s (current_thread s) (set_state THREAD_READY) in
      let s := start_running s next in
      let prev := current_thread s in
      let s := activate (with_current s next) next in
      switch_to s prev next.

Definition sched_tick s : sched K :=
  if current_thread s =? -1 then s
  else
    let s := on_thread s (current_thread s) (fun t => set_ticks (s32 (ticks_remaining t - 1)) t) in
    if ticks_remaining (threads s).[current_thread s] >? 0 then s else sched_yield s.

(** [true]: nothing else can run, and the caller halts until an interrupt handler
    has changed its state ([sleep_resume]).  [false]: another thread runs now. *)
Definition sched_sleep s channel : sched K * bool :=
  let me := current_thread s in
  let s := on_thread s me (set_wait channel) in
  let s := on_thread s me (set_state THREAD_BLOCKED) in
  let next := find_next_runnable s me in
  if next =? me then (s, true)
  else
    let s := start_running s next in
    let s := activate (with_current s next) next in
    (switch_to s me next, false).

(** One round of the halt loop: [None] while the caller is still blocked. *)
Definition sleep_resume s : option (sched K) :=
  if bool_decide (state (threads s).[current_thread s] = THREAD_BLOCKED) then None
  else Some (on_thread s (current_thread s) (set_state THREAD_RUNNING)).

Definition wake_one channel (t : thread_t) : thread_t :=
  if bool_decide (state t = THREAD_BLOCKED) && (wait_channel t =? channel)
  then set_wait 0 (set_state THREAD_READY t) else t.

Definition sched_wakeup s channel : sched K :=
  for_each 0 (thread_capacity s) (fun i s => on_thread s i (wake_one channel)) s.

Definition sched_is_alive s tid : bool :=
  if (tid <? 0) || (tid >=? thread_capacity s) then false
  else
    let t := (threads s).[tid] in
    bool_decide (state t = THREAD_READY) || bool_decide (state t = THREAD_RUNNING) ||
    bool_decide (state t = THREAD_BLOCKED).

(** One turn of the loop of [sched_wait]: [None] when it returns. *)
Definition sched_wait_turn s tid : option (sched K * bool) :=
  if sched_is_alive s tid then Some (sched_sleep s tid) else None.

Definition sched_fd_open s (kind handle : Z) : sched K * Z :=
  let me := current_thread s in
  if me =? -1 then (s, -1)
  else
    match find_first 2 THREAD_MAX_FDS
            (fun i => fd_kind (fds (threads s).[me]).[i] =? FD_KIND_UNUSED) with
    | Some i => (on_thread s me (fun t => set_fds ((fds t).[i <- mk_fd kind handle 0]) t), i)
    | None => (s, -1)
    end.

Definition sched_fd_close s fd : sched K * Z :=
  let me := current_thread s in
  if (me =? -1) || (fd <? 0) || (fd >=? THREAD_MAX_FDS) then (s, -1)
  else (on_thread s me (fun t => set_fds ((fds t).[fd <- reset_fd_slot]) t), 0).

Definition sched_fd_get s fd : option fd_slot_t :=
  let me := current_thread s in
  if (me =? -1) || (fd <? 0) || (fd >=? THREAD_MAX_FDS) then None
  else if fd_kind (fds (threads s).[me]).[fd] =? FD_KIND_UNUSED then None
  else Some (fds (threads s).[me]).[fd].

Definition sched_fd_get_for s tid fd : option fd_slot_t :=
  if (tid <? 0) || (tid >=? thread_capacity s) || (fd <? 0) || (fd >=? THREAD_MAX_FDS) then None
  else if fd_kind (fds (threads s).[tid]).[fd] =? FD_KIND_UNUSED then None
  else Some (fds (threads s).[tid]).[fd].

Definition sched_fd_set s tid fd (kind handle : Z) : sched K * Z :=
  if (tid <? 0) || (tid >=? thread_capacity s) || (fd <? 0) || (fd >=? THREAD_MAX_FDS)
  then (s, -1)
  else (on_thread s tid (fun t => set_fds ((fds t).[fd <- mk_fd kind handle 0]) t), 0).

Definition sched_set_priority s tid (priority : Z) : sched K :=
  if (tid <? 0) || (tid >=? thread_capacity s) then s
  else if (priority <? 0) || (priority >=? THREAD_PRIO_COUNT) then s
  else on_thread s tid (set_prio priority).

Definition sched_current_tid s : Z := current_thread s.

Definition sched_get_uid s tid : Z :=
  if (tid <? 0) || (tid >=? thread_capacity s) then 0 else thread_uid (threads s).[tid].

Definition sched_set_uid s tid (uid : Z) : sched K * Z :=
  if (tid <? 0) || (tid >=? thread_capacity s) then (s, -1)
  else (on_thread s tid (set_uid uid), 0).

Definition sched_current_context s : Z :=
  if (current_thread s <? 0) || (current_thread s >=? thread_capacity s) then 0
  else context (threads s).[current_thread s].

Definition sched_set_current_context s (ctx : Z) : sched K :=
  if (current_thread s <? 0) || (current_thread s >=? thread_capacity s) then s
  else on_thread s (current_thread s) (set_context ctx).
End model.

(** * The invariant *)

Definition thread_ok (t : thread_t) : Prop := zlen (fds t) = 8 /\ 0 <= priority t < 3.

(** The table has its capacity, the current thread is in it, and no other thread
    is marked running. *)
Record sched_wf {K} (s : sched K) : Prop := {
  sw_cap : 0 < thread_capacity s;
  sw_len : zlen (threads s) = thread_capacity s;
  sw_cur : 0 <= current_thread s < thread_capacity s;
  sw_thread : forall i, 0 <= i < thread_capacity s -> thread_ok (threads s).[i];
  sw_running : forall i, 0 <= i < thread_capacity s -> state (threads s).[i] = THREAD_RUNNING ->
    i = current_thread s;
}.

Section lemmas.
Context {K : Type} `{E : SchedEnv K}.
Implicit Types (s : sched K) (tid fd channel next : Z).

Lemma on_thread_get s i f j :
  0 <= i < zlen (threads s) -> 0 <= j ->
  (threads (on_thread s i f)).[j] =
    if decide (j = i) then f (threads s).[i] else (threads s).[j].
Proof.
  intros Hi Hj. unfold on_thread, with_threads. cbn [threads].
  rewrite aget_aset_cases by lia. repeat case_decide; congruence.
Qed.

Lemma on_thread_length s i f : zlen (threads (on_thread s i f)) = zlen (threads s).
Proof. apply aset_length. Qed.

Lemma runnable_iff (t : thread_t) :
  runnable t = true <-> state t = THREAD_READY \/ state t = THREAD_RUNNING.
Proof. unfold runnable. rewrite orb_true_iff, !bool_decide_eq_true. done. Qed.

(** The search stops at the first runnable thread after [from] in cyclic order,
    and comes back to [from] when there is none. *)
Lemma find_next_spec s from :
  0 < thread_capacity s -> 0 <= from < thread_capacity s ->
  exists k, 1 <= k <= thread_capacity s /\
    find_next_runnable s from = (from + k) mod thread_capacity s /\
    (forall j, 1 <= j < k -> runnable (threads s).[(from + j) mod thread_capacity s] = false) /\
    (k < thread_capacity s ->
       runnable (threads s).[(from + k) mod thread_capacity s] = true).
Proof.
  intros Hc Hf. set (n := thread_capacity s) in *. unfold find_next_runnable. fold n.
  apply (for_range_cases 0 n _ from
    (fun i next => next = (from + i) mod n /\
       forall j, 1 <= j <= i -> runnable (threads s).[(from + j) mod n] = false)
    (fun r => exists k, 1 <= k <= n /\ match r with inl x | inr x => x end = (from + k) mod n /\
       (forall j, 1 <= j < k -> runnable (threads s).[(from + j) mod n] = false) /\
       (k < n -> runnable (threads s).[(from + k) mod n] = true))); [lia| | |].
  - split; [by rewrite Z.add_0_r, Z.mod_small|]. intros. lia.
  - intros i next Hi [-> Hno]. cbv zeta.
    rewrite Zplus_mod_idemp_l. replace (from + i + 1) with (from + (i + 1)) by lia.
    destruct (runnable _) eqn:Er.
    + exists (i + 1). split; [lia|]. split; [done|]. split; [|done]. intros j Hj. apply Hno. lia.
    + split; [done|]. intros j Hj. destruct (decide (j = i + 1)) as [->|]; [done|]. apply Hno. lia.
  - intros x [-> Hno]. exists n. split; [lia|]. split; [done|]. split; [|lia].
    intros j Hj. apply Hno. lia.
Qed.

(** Threads at a cyclic distance. *)
Definition after s k : Z := (current_thread s + k) mod thread_capacity s.
Definition distance s tid : Z := (tid - current_thread s) mod thread_capacity s.

Lemma after_bounds s k : 0 < thread_capacity s -> 0 <= after s k < thread_capacity s.
Proof. intros. by apply Z.mod_pos_bound. Qed.

Lemma after_distance s tid :
  0 <= tid < thread_capacity s -> after s (distance s tid) = tid.
Proof.
  intros Ht. unfold after, distance. rewrite Zplus_mod_idemp_r.
  replace (_ + _) with tid by lia. by apply Z.mod_small.
Qed.

Lemma distance_bounds s tid :
  0 <= tid < thread_capacity s -> 0 <= current_thread s < thread_capacity s ->
  tid <> current_thread s -> 1 <= distance s tid < thread_capacity s.
Proof.
  intros Ht Hc Hne. pose proof (after_distance s tid Ht) as Ha. unfold distance in *.
  pose proof (Z.mod_pos_bound (tid - current_thread s) (thread_capacity s) ltac:(lia)).
  destruct (decide ((tid - current_thread s) mod thread_capacity s = 0)) as [E0|]; [|lia].
  unfold after in Ha. rewrite E0, Z.add_0_r, Z.mod_small in Ha by lia. congruence.
Qed.

(** [next] is the first runnable thread after the current one. *)
Definition first_runnable s next : Prop :=
  exists k, 1 <= k < thread_capacity s /\ next = after s k /\
    runnable (threads s).[next] = true /\
    forall j, 1 <= j < k -> runnable (threads s).[after s j] = false.

Definition none_runnable s : Prop :=
  forall i, 0 <= i < thread_capacity s -> i <> current_thread s -> runnable (threads s).[i] = false.

Lemma find_next_cases s :
  sched_wf s ->
  (find_next_runnable s (current_thread s) = current_thread s /\ none_runnable s) \/
  (find_next_runnable s (current_thread s) <> current_thread s /\
   first_runnable s (find_next_runnable s (current_thread s))).
Proof.
  intros Hw. destruct Hw as [Hc Hl Hcur _ _].
  destruct (find_next_spec s (current_thread s) Hc Hcur) as (k & Hk & -> & Hno & Hyes).
  destruct (decide (k = thread_capacity s)) as [->|Hne].
  - left. split.
    + replace (_ + _) with (current_thread s + 1 * thread_capacity s) by lia.
      rewrite Z.mod_add by lia. by apply Z.mod_small.
    + intros i Hi Hne. pose proof (distance_bounds s i Hi Hcur Hne).
      rewrite <- (after_distance s i Hi). apply Hno. lia.
  - right. split.
    + intros E'. destruct (decide (current_thread s + k < thread_capacity s)).
      * rewrite Z.mod_small in E' by lia. lia.
      * rewrite <- (Z.mod_add _ (-1)), Z.mod_small in E' by lia. lia.
    + exists k. split; [lia|]. split; [done|]. split; [apply Hyes; lia|done].
Qed.

(** What a switch to thread [t] does outside the table: its kernel stack in the
    TSS, its address space, its registers; the result has the stack pointer saved
    for the thread that was running. *)
Definition entered (k : K) (t : thread_t) : K * Z :=
  env_switch_context
    (env_switch_space (env_set_kernel_stack k (stack_low t +64 THREAD_STACK_SIZE)) (address_space t))
    (rsp t).

Definition running_thread (t : thread_t) : thread_t :=
  set_ticks (quantum_ticks (priority t)) (set_state THREAD_RUNNING t).

(** [s'] is [s] after a switch to [next], the running thread parked by [park]. *)
Record switched s s' next (park : thread_t -> thread_t) : Prop := {
  sd_current : current_thread s' = next;
  sd_capacity : thread_capacity s' = thread_capacity s;
  sd_ptr : threads_ptr s' = threads_ptr s;
  sd_env : env s' = (entered (env s) (threads s).[next]).1;
  sd_length : zlen (threads s') = zlen (threads s);
  sd_next : (threads s').[next] = running_thread (threads s).[next];
  sd_parked : (threads s').[current_thread s] =
    set_rsp (entered (env s) (threads s).[next]).2 (park (threads s).[current_thread s]);
  sd_others : forall i, 0 <= i -> i <> next -> i <> current_thread s ->
    (threads s').[i] = (threads s).[i];
}.

Lemma switch_spec s next park :
  sched_wf s -> 0 <= next < thread_capacity s -> next <> current_thread s ->
  let s1 := on_thread s (current_thread s) park in
  switched s (switch_to (activate (with_current (start_running s1 next) next) next)
                (current_thread s) next) next park.
Proof.
  intros [Hc Hl Hcur _ _] Hn Hne s1. subst s1.
  unfold switch_to, activate, start_running, with_current, with_env, on_thread, with_threads.
  cbn [threads threads_ptr thread_capacity current_thread env].
  set (l := (threads s).[current_thread s <- park (threads s).[current_thread s]]).
  assert (Hll : zlen l = thread_capacity s) by (unfold l; by rewrite aset_length).
  assert (Hln : l.[next] = (threads s).[next]) by (unfold l; by rewrite aget_aset_ne by lia).
  assert (Hlc : l.[current_thread s] = park (threads s).[current_thread s])
    by (unfold l; by rewrite aget_aset_eq by lia).
  assert (Hlo : forall i, 0 <= i -> i <> current_thread s -> l.[i] = (threads s).[i])
    by (intros i Hi Hi'; unfold l; by rewrite aget_aset_ne by lia).
  clearbody l. rewrite !aget_aset_eq by (rewrite ?aset_length; lia). rewrite Hln.
  rewrite list_insert_insert_eq. set (l2 := l.[next <- _]).
  assert (Hl2 : zlen l2 = thread_capacity s) by (unfold l2; by rewrite aset_length).
  assert (E2 : l2.[next] = running_thread (threads s).[next]) by (unfold l2; by rewrite aget_aset_eq by lia).
  assert (E3 : l2.[current_thread s] = park (threads s).[current_thread s])
    by (unfold l2; by rewrite aget_aset_ne by lia).
  assert (E4 : forall i, 0 <= i -> i <> next -> l2.[i] = l.[i])
    by (intros i Hi Hi'; unfold l2; by rewrite aget_aset_ne by lia).
  cbn [running_thread set_ticks set_state stack_low address_space rsp].
  fold (entered (env s) (threads s).[next]).
  destruct (entered (env s) (threads s).[next]) as [k saved] eqn:Ek.
  split; cbn [threads threads_ptr thread_capacity current_thread env fst snd]; rewrite ?Ek; cbn [fst snd];
    try done.
  - by rewrite aset_length, Hl2.
  - by rewrite aget_aset_ne by lia.
  - rewrite aget_aset_eq by lia. by rewrite E3.
  - intros i Hi Hi1 Hi2. rewrite aget_aset_ne by lia. by rewrite E4, Hlo.
Qed.

Lemma switched_wf s s' next park :
  sched_wf s -> 0 <= next < thread_capacity s -> next <> current_thread s ->
  (forall t, thread_ok t -> thread_ok (park t)) -> (forall t, state (park t) <> THREAD_RUNNING) ->
  switched s s' next park -> sched_wf s'.
Proof.
  intros [Hc Hl Hcur Hok Hrun] Hn Hne Hp Hps [E1 E2 _ _ E5 E6 E7 E8].
  split; rewrite ?E1, ?E2, ?E5; try done; intros i Hi.
  - destruct (decide (i = next)) as [->|]; [rewrite E6; by apply Hok|].
    destruct (decide (i = current_thread s)) as [->|]; [rewrite E7; by apply Hp, Hok|].
    rewrite E8 by lia. by apply Hok.
  - intros Hr. destruct (decide (i = next)) as [->|]; [done|].
    destruct (decide (i = current_thread s)) as [->|]; [rewrite E7 in Hr; by destruct (Hps (threads s).[current_thread s])|].
    rewrite E8 in Hr by lia. by apply Hrun in Hr.
Qed.

(** [sched_yield] on a running system. *)
Definition yield_outcome s s' : Prop :=
  (none_runnable s /\ s' = s) \/
  exists next, first_runnable s next /\ switched s s' next (set_state THREAD_READY).

Lemma first_runnable_other s next :
  sched_wf s -> first_runnable s next -> 0 <= next < thread_capacity s /\ next <> current_thread s.
Proof.
  intros [Hc Hl Hcur _ _] (k & Hk & -> & _). split; [by apply after_bounds|]. unfold after. intros E'.
  destruct (decide (current_thread s + k < thread_capacity s)).
  - rewrite Z.mod_small in E' by lia. lia.
  - rewrite <- (Z.mod_add _ (-1)), Z.mod_small in E' by lia. lia.
Qed.

Lemma sched_yield_spec s : sched_wf s -> yield_outcome s (sched_yield s).
Proof.
  intros Hw. unfold sched_yield, yield_outcome. pose proof (sw_cur _ Hw).
  replace (current_thread s =? -1) with false by lia.
  destruct (find_next_cases s Hw) as [[-> Hno]|[Hne Hf]].
  - left. by rewrite Z.eqb_refl.
  - right. exists (find_next_runnable s (current_thread s)). split; [done|].
    destruct (_ =? _) eqn:E'; bool_prop; [done|].
    apply (switch_spec s (find_next_runnable s (current_thread s)) (set_state THREAD_READY) Hw); [|done].
    by apply first_runnable_other.
Qed.

Lemma sched_yield_wf s : sched_wf s -> sched_wf (sched_yield s).
Proof.
  intros Hw. destruct (sched_yield_spec s Hw) as [[_ ->]|(next & Hf & Hs)]; [done|].
  destruct (first_runnable_other s next Hw Hf) as [Hn Hne].
  refine (switched_wf s _ next (set_state THREAD_READY) Hw Hn Hne _ _ Hs); [intros t Ht; exact Ht|done].
Qed.

(** ** Ticks *)

(** What the timer interrupt does: one tick less for the running thread, and a
    switch once its quantum is used up. *)
Definition decremented s : sched K :=
  on_thread s (current_thread s) (fun t => set_ticks (s32 (ticks_remaining t - 1)) t).

Definition ticks_left s : Z := ticks_remaining (threads s).[current_thread s].

Lemma on_current_wf s (f : thread_t -> thread_t) :
  sched_wf s -> (forall t, thread_ok t -> thread_ok (f t)) -> sched_wf (on_thread s (current_thread s) f).
Proof.
  intros [Hc Hl Hcur Hok Hrun] Hf.
  assert (Hg : forall i, 0 <= i -> (threads (on_thread s (current_thread s) f)).[i] =
    if decide (i = current_thread s) then f (threads s).[current_thread s] else (threads s).[i])
    by (intros; by apply on_thread_get; lia).
  split; cbn [on_thread with_threads thread_capacity current_thread]; try done.
  - by rewrite on_thread_length.
  - intros i Hi. rewrite Hg by lia. case_decide; [by apply Hf, Hok|by apply Hok].
  - intros i Hi. rewrite Hg by lia. case_decide; [done|by apply Hrun].
Qed.

Lemma on_thread_wf s i (f : thread_t -> thread_t) :
  sched_wf s -> 0 <= i < thread_capacity s -> (forall t, thread_ok t -> thread_ok (f t)) ->
  (forall t, state (f t) = THREAD_RUNNING -> state t = THREAD_RUNNING) -> sched_wf (on_thread s i f).
Proof.
  intros [Hc Hl Hcur Hok Hrun] Hi Hf Hs.
  assert (Hg : forall j, 0 <= j -> (threads (on_thread s i f)).[j] =
    if decide (j = i) then f (threads s).[i] else (threads s).[j])
    by (intros; by apply on_thread_get; lia).
  split; cbn [on_thread with_threads thread_capacity current_thread]; try done.
  - by rewrite on_thread_length.
  - intros j Hj. rewrite Hg by lia. case_decide; [by apply Hf, Hok|by apply Hok].
  - intros j Hj. rewrite Hg by lia. case_decide; [subst; intros Hr; by apply Hrun, Hs|by apply Hrun].
Qed.

Lemma decremented_wf s : sched_wf s -> sched_wf (decremented s).
Proof. intros Hw. by apply on_current_wf. Qed.

Lemma decremented_get s i :
  sched_wf s -> 0 <= i -> (threads (decremented s)).[i] =
    if decide (i = current_thread s)
    then set_ticks (s32 (ticks_left s - 1)) (threads s).[current_thread s] else (threads s).[i].
Proof. intros Hw Hi. pose proof (sw_cur _ Hw). pose proof (sw_len _ Hw). unfold decremented. by rewrite on_thread_get by lia. Qed.

Lemma sched_tick_spec s :
  sched_wf s ->
  sched_tick s = if s32 (ticks_left s - 1) >? 0 then decremented s else sched_yield (decremented s).
Proof.
  intros Hw. unfold sched_tick. pose proof (sw_cur _ Hw).
  replace (current_thread s =? -1) with false by lia. fold (decremented s). cbv zeta.
  change (current_thread (decremented s)) with (current_thread s).
  rewrite decremented_get by first [done|lia]. by rewrite decide_True by done.
Qed.

Lemma sched_tick_wf s : sched_wf s -> sched_wf (sched_tick s).
Proof.
  intros Hw. rewrite sched_tick_spec by done.
  destruct (_ >? _); [by apply decremented_wf|by apply sched_yield_wf, decremented_wf].
Qed.

(** The ticks until the running thread is preempted: what is left of its quantum, or
    1 when that is used up; the counter of 32 bits wraps at its lowest value. *)
Definition quantum_left s : Z := Z.max 1 (s32 (ticks_left s - 1) + 1).

Definition ticks_int s : Prop := -2147483648 <= ticks_left s < 2147483648.

Lemma quantum_left_le s : -2147483648 < ticks_left s <= 8 -> quantum_left s <= 8.
Proof. intros H. unfold quantum_left. rewrite s32_small by lia. lia. Qed.

(** A runnable thread at distance [d] is reached by the ticks of the running quantum
    and at most [d - 1] full ones: the bound a tick decreases. *)
Definition wait_bound s tid : Z := 8 * (distance s tid - 1) + quantum_left s.

Lemma decremented_runnable s i :
  sched_wf s -> 0 <= i -> runnable (threads (decremented s)).[i] = runnable (threads s).[i].
Proof. intros Hw Hi. rewrite decremented_get by done. case_decide; [by subst|done]. Qed.

Lemma quantum_bounds p : 0 <= p < 3 -> 2 <= quantum_ticks p <= 8.
Proof.
  intros Hp. assert (p = 0 \/ p = 1 \/ p = 2) as [-> | [-> | ->]] by lia; vm_compute; split; discriminate.
Qed.

(** Cyclic distances seen from the thread at distance [k]. *)
Lemma distance_after s s' k tid :
  thread_capacity s' = thread_capacity s -> current_thread s' = after s k ->
  0 <= k <= distance s tid -> 0 < thread_capacity s ->
  distance s' tid = distance s tid - k.
Proof.
  intros Hc Hcur Hk Hn. unfold distance in *. rewrite Hc, Hcur. unfold after.
  rewrite Zminus_mod_idemp_r. replace (tid - (current_thread s + k)) with (tid - current_thread s - k) by lia.
  pose proof (Z.mod_pos_bound (tid - current_thread s) (thread_capacity s) Hn).
  rewrite (Z.div_mod (tid - current_thread s) (thread_capacity s)) at 1 by lia.
  replace (_ + _ - k) with ((tid - current_thread s) mod thread_capacity s - k +
    ((tid - current_thread s) / thread_capacity s) * thread_capacity s) by lia.
  rewrite Z.mod_add by lia. apply Z.mod_small. lia.
Qed.

(** One tick brings a waiting runnable thread closer to the processor. *)
Lemma tick_progress s tid :
  sched_wf s -> 0 <= tid < thread_capacity s -> tid <> current_thread s ->
  runnable (threads s).[tid] = true -> ticks_int s ->
  let s' := sched_tick s in
  sched_wf s' /\ thread_capacity s' = thread_capacity s /\
  ((current_thread s' = tid /\ state (threads s').[tid] = THREAD_RUNNING) \/
   (tid <> current_thread s' /\ runnable (threads s').[tid] = true /\
    ticks_int s' /\ wait_bound s' tid < wait_bound s tid)).
Proof.
  intros Hw Ht Hne Hr Hticks s'. split; [by apply sched_tick_wf|]. subst s'.
  rewrite sched_tick_spec by done. pose proof (sw_cur _ Hw) as Hcur.
  pose proof (distance_bounds s tid Ht Hcur Hne) as Hd.
  destruct (s32 (ticks_left s - 1) >? 0) eqn:Eq; bool_prop.
  { split; [done|]. right. pose proof (s32_bounds (ticks_left s - 1)) as Hb32.
    assert (Hl : ticks_left (decremented s) = s32 (ticks_left s - 1)).
    { unfold ticks_left at 1. change (current_thread (decremented s)) with (current_thread s).
      rewrite decremented_get by first [done|lia]. by rewrite decide_True by done. }
    split; [done|]. split; [by rewrite decremented_runnable by first [done|lia]|].
    unfold ticks_int, wait_bound, quantum_left. rewrite Hl.
    rewrite (s32_small (s32 (ticks_left s - 1) - 1)) by lia.
    change (distance (decremented s) tid) with (distance s tid). lia. }
  pose proof (decremented_wf s Hw) as Hwd.
  destruct (sched_yield_spec (decremented s) Hwd) as [[Hno _]|(next & Hf & Hs)].
  { specialize (Hno tid Ht Hne). rewrite decremented_runnable in Hno by first [done|lia]. congruence. }
  destruct (first_runnable_other _ _ Hwd Hf) as [Hn Hnc].
  change (thread_capacity (decremented s)) with (thread_capacity s) in Hn.
  change (current_thread (decremented s)) with (current_thread s) in Hnc.
  destruct Hf as (k & Hk & -> & _ & Hbefore). change (after (decremented s)) with (after s) in *.
  change (thread_capacity (decremented s)) with (thread_capacity s) in Hk.
  destruct Hs as [Ecur Ecap _ _ _ Enext _ Eoth].
  change (current_thread (decremented s)) with (current_thread s) in Eoth.
  change (thread_capacity (decremented s)) with (thread_capacity s) in Ecap.
  set (s' := sched_yield (decremented s)) in *. clearbody s'. split; [done|].
  assert (Hkd : k <= distance s tid).
  { destruct (decide (k <= distance s tid)); [done|]. exfalso.
    pose proof (Hbefore (distance s tid) ltac:(lia)) as Hb.
    rewrite after_distance, decremented_runnable in Hb by first [done|lia]. congruence. }
  destruct (decide (after s k = tid)) as [E1|Hne1].
  - left. split; [congruence|]. rewrite E1 in Enext. by rewrite Enext.
  - right. assert (k <> distance s tid) by (intros ->; by rewrite after_distance in Hne1).
    split; [congruence|]. split; [rewrite Eoth by first [lia|congruence]; by rewrite decremented_runnable by first [done|lia]|].
    assert (Hl : 2 <= ticks_left s' <= 8).
    { unfold ticks_left. rewrite Ecur, Enext. apply quantum_bounds.
      rewrite decremented_get by first [done|lia]. rewrite decide_False by congruence.
      by apply (sw_thread _ Hw). }
    split; [unfold ticks_int; lia|]. pose proof (quantum_left_le s' ltac:(lia)).
    unfold wait_bound. rewrite (distance_after s s' k tid) by first [done|lia]. unfold quantum_left at 2. lia.
Qed.

Lemma ticks_reach b s tid :
  sched_wf s -> 0 <= tid < thread_capacity s -> tid <> current_thread s ->
  runnable (threads s).[tid] = true -> ticks_int s ->
  wait_bound s tid <= Z.of_nat b ->
  exists n, (1 <= n <= b)%nat /\ current_thread (Nat.iter n sched_tick s) = tid /\
    state (threads (Nat.iter n sched_tick s)).[tid] = THREAD_RUNNING.
Proof.
  revert s. induction b as [|b IH]; intros s Hw Ht Hne Hr Hticks Hb.
  - pose proof (distance_bounds s tid Ht (sw_cur _ Hw) Hne). unfold wait_bound, quantum_left in Hb. lia.
  - destruct (tick_progress s tid Hw Ht Hne Hr Hticks) as (Hw' & Hc & [[Hd Hs]|(Hne' & Hr' & Ht' & Hb')]).
    + exists 1%nat. split; [lia|]. done.
    + destruct (IH (sched_tick s)) as (n & Hn & H1 & H2); try done; try lia.
      exists (S n). split; [lia|]. rewrite Nat.iter_succ_r. done.
Qed.

(** ** Sleeping and waking *)

(** [sched_sleep] parks the running thread on the channel. *)
Definition asleep channel (t : thread_t) : thread_t := set_state THREAD_BLOCKED (set_wait channel t).

Definition sleep_outcome s channel (r : sched K * bool) : Prop :=
  (none_runnable s /\ r = (on_thread s (current_thread s) (asleep channel), true)) \/
  exists next s', r = (s', false) /\ first_runnable s next /\ switched s s' next (asleep channel).

Lemma on_thread_twice s i f g :
  0 <= i < zlen (threads s) ->
  on_thread (on_thread s i f) i g = on_thread s i (fun t => g (f t)).
Proof.
  intros Hi. unfold on_thread, with_threads.
  cbn [threads threads_ptr thread_capacity current_thread env].
  by rewrite aget_aset_eq, list_insert_insert_eq by lia.
Qed.

(** What the running thread's own entry holds does not matter to the search. *)
Lemma runnable_on_current s f i :
  sched_wf s -> 0 <= i -> i <> current_thread s ->
  runnable (threads (on_thread s (current_thread s) f)).[i] = runnable (threads s).[i].
Proof.
  intros [_ Hl Hcur _ _] Hi Hne. rewrite on_thread_get by lia. by rewrite decide_False by done.
Qed.

Lemma none_runnable_on_current s f :
  sched_wf s -> none_runnable (on_thread s (current_thread s) f) -> none_runnable s.
Proof.
  intros Hw Hno i Hi Hne. rewrite <- (runnable_on_current s f) by first [done|lia]. by apply Hno.
Qed.

Lemma first_runnable_on_current s f next :
  sched_wf s -> sched_wf (on_thread s (current_thread s) f) ->
  first_runnable (on_thread s (current_thread s) f) next -> first_runnable s next.
Proof.
  intros Hw Hw' Hf. destruct (first_runnable_other _ _ Hw' Hf) as [Hn Hne].
  destruct Hf as (k & Hk & -> & Hr & Hb). change (after (on_thread s (current_thread s) f)) with (after s) in *.
  change (current_thread (on_thread s (current_thread s) f)) with (current_thread s) in Hne.
  change (thread_capacity (on_thread s (current_thread s) f)) with (thread_capacity s) in *.
  exists k. split; [done|]. split; [done|]. split.
  - by rewrite runnable_on_current in Hr by first [done|lia].
  - intros j Hj. specialize (Hb j Hj).
    assert (Haj : 0 <= after s j < thread_capacity s) by (apply after_bounds; lia).
    rewrite runnable_on_current in Hb; [done|done|lia|].
    pose proof (sw_cur _ Hw). unfold after. intros E'.
    destruct (decide (current_thread s + j < thread_capacity s)).
    + rewrite Z.mod_small in E' by lia. lia.
    + rewrite <- (Z.mod_add _ (-1)), Z.mod_small in E' by lia. lia.
Qed.

Lemma sched_sleep_spec s channel : sched_wf s -> sleep_outcome s channel (sched_sleep s channel).
Proof.
  intros Hw. pose proof (sw_cur _ Hw) as Hcur. pose proof (sw_len _ Hw) as Hl.
  unfold sched_sleep, sleep_outcome. rewrite on_thread_twice by lia. fold (asleep channel).
  set (s1 := on_thread s (current_thread s) (asleep channel)).
  assert (Hw1 : sched_wf s1) by by apply on_current_wf.
  pose proof (find_next_cases s1 Hw1) as Hcases.
  change (current_thread s1) with (current_thread s) in Hcases.
  destruct Hcases as [[-> Hno]|[Hne Hf]].
  - left. rewrite Z.eqb_refl. split; [by apply none_runnable_on_current in Hno|done].
  - right.
    replace (find_next_runnable s1 (current_thread s) =? current_thread s) with false by lia.
    apply first_runnable_on_current in Hf; [|done..].
    destruct (first_runnable_other s _ Hw Hf) as [Hn _].
    eexists _, _. split; [done|]. split; [done|]. by apply switch_spec.
Qed.

Lemma sched_sleep_wf s channel : sched_wf s -> sched_wf (sched_sleep s channel).1.
Proof.
  intros Hw. destruct (sched_sleep_spec s channel Hw) as [[_ ->]|(next & s' & -> & Hf & Hs)].
  - by apply on_current_wf.
  - destruct (first_runnable_other s next Hw Hf) as [Hn Hne].
    refine (switched_wf s _ next (asleep channel) Hw Hn Hne _ _ Hs); [intros t Ht; exact Ht|done].
Qed.

(** [sched_wakeup] treats every slot on its own. *)
Record woken s s' channel : Prop := {
  wk_current : current_thread s' = current_thread s;
  wk_capacity : thread_capacity s' = thread_capacity s;
  wk_ptr : threads_ptr s' = threads_ptr s;
  wk_env : env s' = env s;
  wk_length : zlen (threads s') = zlen (threads s);
  wk_threads : forall i, 0 <= i < thread_capacity s ->
    (threads s').[i] = wake_one channel (threads s).[i];
}.

Lemma sched_wakeup_spec s channel : sched_wf s -> woken s (sched_wakeup s channel) channel.
Proof.
  intros [Hc Hl _ _ _]. unfold sched_wakeup.
  pose proof (for_each_inv 0 (thread_capacity s)
    (fun i (s : sched K) => on_thread s i (wake_one channel)) s (fun n x =>
      current_thread x = current_thread s /\ thread_capacity x = thread_capacity s /\
      threads_ptr x = threads_ptr s /\ env x = env s /\ zlen (threads x) = zlen (threads s) /\
      forall i, 0 <= i < thread_capacity s -> (threads x).[i] =
        if decide (i < n) then wake_one channel (threads s).[i] else (threads s).[i])) as Hinv.
  destruct Hinv as (E1 & E2 & E3 & E4 & E5 & Hg); [lia| | |].
  - do 5 (split; [done|]). intros i Hi. by rewrite decide_False by lia.
  - intros n x Hn (E1 & E2 & E3 & E4 & E5 & Hg). do 4 (split; [done|]).
    split; [by rewrite on_thread_length|]. intros i Hi.
    rewrite on_thread_get by lia. destruct (decide (i = n)) as [->|].
    + rewrite Hg by lia. rewrite decide_False by lia. by rewrite decide_True by lia.
    + rewrite Hg by lia. repeat case_decide; try lia; done.
  - split; try done. intros i Hi. rewrite Hg by done. by rewrite decide_True by lia.
Qed.

Lemma wake_one_ok channel t : thread_ok t -> thread_ok (wake_one channel t).
Proof. unfold wake_one. by destruct (_ && _). Qed.

Lemma wake_one_running channel t :
  state (wake_one channel t) = THREAD_RUNNING -> state t = THREAD_RUNNING.
Proof. unfold wake_one. by destruct (_ && _). Qed.

Lemma sched_wakeup_wf s channel : sched_wf s -> sched_wf (sched_wakeup s channel).
Proof.
  intros Hw. destruct (sched_wakeup_spec s channel Hw) as [E1 E2 _ _ E5 Hg].
  destruct Hw as [Hc Hl Hcur Hok Hrun]. split; rewrite ?E1, ?E2, ?E5; try done.
  - intros i Hi. rewrite Hg by done. by apply wake_one_ok, Hok.
  - intros i Hi. rewrite Hg by done. intros Hr. by apply Hrun, (wake_one_running channel).
Qed.

(** ** Growing the table and spawning *)

Lemma fds_overwritten (l : list fd_slot_t) lo (g : Z -> fd_slot_t) :
  zlen l = 8 -> 0 <= lo <= 8 ->
  zlen (for_each lo THREAD_MAX_FDS (fun i l => l.[i <- g i]) l) = 8 /\
  forall j, 0 <= j < 8 -> (for_each lo THREAD_MAX_FDS (fun i l => l.[i <- g i]) l).[j] =
    if decide (lo <= j) then g j else l.[j].
Proof.
  intros Hl Hlo. unfold THREAD_MAX_FDS.
  pose proof (for_each_inv lo 8 (fun i l => l.[i <- g i]) l (fun n x => zlen x = 8 /\
    forall j, 0 <= j < 8 -> x.[j] = if decide (lo <= j < n) then g j else l.[j])) as Hinv.
  destruct Hinv as [Hz Hg]; [lia|split; [done|]; intros; by rewrite decide_False by lia| |].
  - intros n x Hn [Hz Hg]. split; [by rewrite aset_length|]. intros j Hj.
    rewrite aget_aset_cases by lia. rewrite Hg by done. repeat case_decide; subst; try lia; done.
  - split; [done|]. intros j Hj. rewrite Hg by done. repeat case_decide; try lia; done.
Qed.

Lemma raw_table_get (k : K) p n i :
  0 <= n -> zlen (raw_table k p n) = n /\
  (0 <= i < n -> zlen (fds (raw_table k p n).[i]) = 8 /\
     thread_uid (raw_table k p n).[i] = env_ld32 k (p + THREAD_SIZEOF * i + THREAD_UID_OFF)).
Proof.
  intros Hn. unfold raw_table. split.
  - unfold zlen. rewrite length_map, length_seqZ. lia.
  - intros Hi. rewrite (list_lookup_total_correct _ _
      (mk_thread 0 THREAD_UNUSED 0 0 0 0 0 0 0 (replicate 8 (mk_fd 0 0 0))
        (env_ld32 k (p + THREAD_SIZEOF * i + THREAD_UID_OFF)))); [done|].
    apply list_lookup_fmap_Some_2 with (f := fun i => mk_thread 0 THREAD_UNUSED 0 0 0 0 0 0 0
      (replicate 8 (mk_fd 0 0 0)) (env_ld32 k (p + THREAD_SIZEOF * i + THREAD_UID_OFF))).
    rewrite lookup_seqZ. lia.
Qed.

(** A table as growth leaves it: the old entries in place, each with the uid that
    the bytes of the new block happen to hold, and free slots after them. *)
Record grown s s' (k : K) p : Prop := {
  gr_current : current_thread s' = current_thread s;
  gr_capacity : thread_capacity s' = thread_capacity s * 2;
  gr_length : zlen (threads s') = thread_capacity s * 2;
  gr_old : forall i, 0 <= i < thread_capacity s -> (threads s').[i] =
    set_uid (env_ld32 k (p + THREAD_SIZEOF * i + THREAD_UID_OFF)) (threads s).[i];
  gr_new : forall i, thread_capacity s <= i < thread_capacity s * 2 ->
    state (threads s').[i] = THREAD_UNUSED /\ thread_ok (threads s').[i];
}.

Lemma copy_thread_slot_eq dst src :
  zlen (fds dst) = 8 -> zlen (fds src) = 8 -> copy_thread_slot dst src = set_uid (thread_uid dst) src.
Proof.
  intros Hd Hs. unfold copy_thread_slot.
  destruct (fds_overwritten (fds dst) 0 (fun i => (fds src).[i]) Hd ltac:(lia)) as [Hz Hg].
  replace (for_each 0 THREAD_MAX_FDS _ _) with (fds src); [done|].
  apply array_ext; [congruence|]. intros i Hi. rewrite Hg by lia. by rewrite decide_True by lia.
Qed.

Lemma init_thread_slot_ok t : zlen (fds t) = 8 -> thread_ok (init_thread_slot t).
Proof. intros Hz. split; [by apply fds_overwritten|done]. Qed.

Lemma new_table_spec s (l0 : list thread_t) n :
  sched_wf s -> n = thread_capacity s * 2 -> zlen l0 = n ->
  (forall i, 0 <= i < n -> zlen (fds l0.[i]) = 8) ->
  let l := for_each 0 (thread_capacity s)
             (fun i l => l.[i <- copy_thread_slot l.[i] (threads s).[i]]) l0 in
  let l := for_each (thread_capacity s) n (fun i l => l.[i <- init_thread_slot l.[i]]) l in
  zlen l = n /\
  (forall i, 0 <= i < thread_capacity s -> l.[i] = set_uid (thread_uid l0.[i]) (threads s).[i]) /\
  (forall i, thread_capacity s <= i < n -> state l.[i] = THREAD_UNUSED /\ thread_ok l.[i]).
Proof.
  intros Hw Hn Hl0 H8 l1 l. pose proof (sw_cap _ Hw) as Hc. set (c := thread_capacity s) in *.
  assert (H1 : zlen l1 = n /\ forall i, 0 <= i < n -> l1.[i] =
    if decide (i < c) then set_uid (thread_uid l0.[i]) (threads s).[i] else l0.[i]).
  { apply (for_each_inv 0 c _ l0 (fun m l => zlen l = n /\ forall i, 0 <= i < n -> l.[i] =
      if decide (i < m) then set_uid (thread_uid l0.[i]) (threads s).[i] else l0.[i])); [lia| |].
    - split; [done|]. intros i Hi. by rewrite decide_False by lia.
    - intros m x Hm [Hz Hg]. split; [by rewrite aset_length|]. intros i Hi.
      rewrite aget_aset_cases by lia. destruct (decide (m = i)) as [->|].
      + rewrite Hg by lia. rewrite decide_False by lia. rewrite decide_True by lia.
        apply copy_thread_slot_eq; [apply H8; lia|]. by apply (sw_thread _ Hw).
      + rewrite Hg by lia. repeat case_decide; try lia; done. }
  destruct H1 as [Hz1 Hg1]. clearbody l1.
  assert (H2 : zlen l = n /\ forall i, 0 <= i < n -> l.[i] =
    if decide (c <= i < n) then init_thread_slot l1.[i] else l1.[i]).
  { apply (for_each_inv c n _ l1 (fun m l => zlen l = n /\ forall i, 0 <= i < n -> l.[i] =
      if decide (c <= i < m) then init_thread_slot l1.[i] else l1.[i])); [lia| |].
    - split; [done|]. intros i Hi. by rewrite decide_False by lia.
    - intros m x Hm [Hz Hg]. split; [by rewrite aset_length|]. intros i Hi.
      rewrite aget_aset_cases by lia. destruct (decide (m = i)) as [->|].
      + rewrite Hg by lia. rewrite decide_False by lia. by rewrite decide_True by lia.
      + rewrite Hg by lia. repeat case_decide; try lia; done. }
  destruct H2 as [Hz2 Hg2]. split; [done|]. split; intros i Hi; rewrite Hg2 by lia.
  - rewrite decide_False by lia. rewrite Hg1 by lia. by rewrite decide_True by lia.
  - rewrite decide_True by lia. split; [done|]. apply init_thread_slot_ok.
    rewrite Hg1 by lia. rewrite decide_False by lia. apply H8. lia.
Qed.

(** The heap answers the requests of a growth. *)
Definition heap_answers s : Prop :=
  (forall n, is_Some (env_malloc (env s) n)) /\
  (forall n (k : K) p, env_malloc (env s) n = Some (k, p) -> is_Some (env_free k (threads_ptr s))).

Lemma grow_thread_table_spec s :
  sched_wf s -> heap_answers s ->
  exists (k : K) p, env_malloc (env s) (THREAD_SIZEOF *64 (thread_capacity s * 2)) = Some (k, p) /\
    exists r, grow_thread_table s = Some r /\
      ((p = 0 /\ r = (with_env s k, -1)) \/ (exists s', r = (s', 0) /\ grown s s' k p)).
Proof.
  intros Hw [Hm Hf]. pose proof (sw_cap _ Hw) as Hc. unfold grow_thread_table.
  replace (thread_capacity s =? 0) with false by lia. cbv zeta.
  destruct (Hm (THREAD_SIZEOF *64 (thread_capacity s * 2))) as [[k p] Em].
  exists k, p. split; [done|]. rewrite Em. cbn [mbind option_bind].
  destruct (p =? 0) eqn:Ep; bool_prop; [eexists; split; [done|]; by left|].
  destruct (new_table_spec s (raw_table k p (thread_capacity s * 2)) _ Hw eq_refl) as (Hz & Ho & Hn).
  { by apply (raw_table_get k p _ 0); lia. }
  { intros i Hi. by apply raw_table_get; lia. }
  set (l := for_each (thread_capacity s) _ _ _) in *. clearbody l.
  assert (Hfree : exists k' : K, (if negb (threads_ptr s =? 0) then env_free k (threads_ptr s) else Some k) = Some k').
  { destruct (negb _); [|by eexists]. destruct (Hf _ _ _ Em) as [k' ->]. by exists k'. }
  destruct Hfree as [k' ->]. cbn [mbind option_bind]. eexists. split; [done|]. right.
  eexists. split; [done|]. split; cbn [current_thread thread_capacity threads]; try done.
  intros i Hi. rewrite Ho by done. f_equal. by apply raw_table_get; lia.
Qed.

Definition spawn_priority (p : Z) : Z :=
  if (p <? 0) || (p >=? THREAD_PRIO_COUNT) then THREAD_PRIO_NORMAL else p.

Lemma spawn_priority_bounds p : 0 <= spawn_priority p < 3.
Proof.
  unfold spawn_priority, THREAD_PRIO_COUNT, THREAD_PRIO_NORMAL.
  destruct (_ || _) eqn:E'; [lia|]. bool_prop. lia.
Qed.

(** A thread as [sched_spawn_prio_with_context] leaves it. *)
Record spawned (t : thread_t) (prio ctx uid : Z) : Prop := {
  sp_state : state t = THREAD_READY;
  sp_priority : priority t = spawn_priority prio;
  sp_ticks : ticks_remaining t = quantum_ticks (spawn_priority prio);
  sp_context : context t = ctx;
  sp_uid : thread_uid t = uid;
  sp_stack : stack_low t = guard_page t +64 4096;
  sp_rsp : rsp t = stack_low t +64 (THREAD_STACK_SIZE - 64);
  sp_fds : fds t = [console_fd; console_fd] ++ replicate 6 reset_fd_slot;
}.

Definition same_table s s' : Prop :=
  threads s' = threads s /\ thread_capacity s' = thread_capacity s /\
  current_thread s' = current_thread s.

(** The table spawning works in: the old one, or a larger one when all of its
    slots are taken. *)
Definition table_used s s1 : Prop :=
  same_table s s1 \/
  (exists k p, grown s s1 k p) /\
  forall i, 0 <= i < thread_capacity s -> state (threads s).[i] <> THREAD_UNUSED.

Definition spawn_outcome s (prio ctx : Z) (r : sched K * Z) : Prop :=
  exists s1, table_used s s1 /\
    ((r.2 = -1 /\ same_table s1 r.1) \/
     (0 <= r.2 < thread_capacity s1 /\ state (threads s1).[r.2] = THREAD_UNUSED /\
      (forall i, 0 <= i < r.2 -> state (threads s1).[i] <> THREAD_UNUSED) /\
      spawned (threads r.1).[r.2] prio ctx (thread_uid (threads s1).[current_thread s]) /\
      (forall i, 0 <= i < thread_capacity s1 -> i <> r.2 -> (threads r.1).[i] = (threads s1).[i]) /\
      thread_capacity r.1 = thread_capacity s1 /\ current_thread r.1 = current_thread s /\
      zlen (threads r.1) = zlen (threads s1))).

Lemma same_table_wf s s' : same_table s s' -> sched_wf s -> sched_wf s'.
Proof. intros (E1 & E2 & E3) [Hc Hl Hcur Hok Hrun]. split; rewrite ?E1, ?E2, ?E3; done. Qed.

Lemma grown_wf s s' k p : grown s s' k p -> sched_wf s -> sched_wf s'.
Proof.
  intros [E1 E2 E3 Ho Hn] [Hc Hl Hcur Hok Hrun]. split; rewrite ?E1, ?E2, ?E3; try lia; intros i Hi.
  - destruct (decide (i < thread_capacity s)); [rewrite Ho by lia; apply Hok; lia|apply Hn; lia].
  - destruct (decide (i < thread_capacity s)); [rewrite Ho by lia; apply Hrun; lia|].
    destruct (Hn i ltac:(lia)) as [E' _]. by rewrite E'.
Qed.

Lemma table_used_wf s s1 : table_used s s1 -> sched_wf s -> sched_wf s1.
Proof.
  intros [H|[(k & p & H) _]] Hw; [by eapply same_table_wf|by eapply grown_wf].
Qed.

(** Where the new thread goes. *)
Lemma find_slot_spec s :
  sched_wf s -> heap_answers s ->
  exists s1 slot, table_used s s1 /\ current_thread s1 = current_thread s /\
    match find_first 0 (thread_capacity s)
            (fun i => bool_decide (state (threads s).[i] = THREAD_UNUSED)) with
    | Some i => Some (s, i)
    | None =>
        '(s', r) ← grow_thread_table s;
        Some (s', if negb (r =? 0) then -1 else thread_capacity s)
    end = Some (s1, slot) /\
    (slot = -1 \/ (0 <= slot < thread_capacity s1 /\ state (threads s1).[slot] = THREAD_UNUSED /\
       forall i, 0 <= i < slot -> state (threads s1).[i] <> THREAD_UNUSED)).
Proof.
  intros Hw Hh. pose proof (sw_cap _ Hw) as Hc. destruct (find_first _ _ _) as [i|] eqn:Ef.
  - apply find_first_Some in Ef as (Hi & Hs & Hb). exists s, i. apply bool_decide_eq_true in Hs.
    split; [by left|]. split; [done|]. split; [done|]. right. split; [done|]. split; [done|].
    intros j Hj. specialize (Hb j Hj). by apply bool_decide_eq_false in Hb.
  - assert (Hfull : forall i, 0 <= i < thread_capacity s -> state (threads s).[i] <> THREAD_UNUSED).
    { intros i Hi. apply find_first_None with (k := i) in Ef; [|done]. by apply bool_decide_eq_false in Ef. }
    destruct (grow_thread_table_spec s Hw Hh) as (k & p & _ & r & -> & [[_ ->]|(s1 & -> & Hg)]).
    + exists (with_env s k), (-1). cbn [mbind option_bind]. split; [by left|]. split; [done|]. split; [done|]. by left.
    + exists s1, (thread_capacity s). cbn [mbind option_bind]. destruct Hg as [E1 E2 E3 Ho Hn].
      split; [right; split; [by exists k, p|done]|]. split; [done|]. split; [done|]. right. split; [lia|].
      split; [apply Hn; lia|]. intros i Hi. rewrite Ho by lia. by apply Hfull.
Qed.

Lemma alloc_guarded_stack_fst (k : K) st g : (alloc_guarded_stack k).2 = Some (st, g) -> st = g +64 4096.
Proof.
  unfold alloc_guarded_stack. destruct (env_alloc_contiguous k _) as [k1 region].
  destruct (region =? 0); [done|]. destruct (env_is_mapped _ _); [done|]. by intros [= <- <-].
Qed.

Lemma u64_sub8 x c : u64 (u64 (x + c) - 8) = u64 (x + (c - 8)).
Proof. unfold u64. rewrite Zminus_mod_idemp_l. f_equal. lia. Qed.

Lemma push_frame_sp (k : K) st entry :
  (push_frame k st entry).2 = st +64 (THREAD_STACK_SIZE - 64).
Proof. unfold push_frame. cbn [snd]. rewrite !u64_sub8. f_equal. Qed.

Lemma spawn_fds (l : list fd_slot_t) :
  zlen l = 8 ->
  for_each 2 THREAD_MAX_FDS (fun i l => l.[i <- reset_fd_slot]) (l.[0 <- console_fd].[1 <- console_fd]) =
  [console_fd; console_fd] ++ replicate 6 reset_fd_slot.
Proof.
  intros Hl. set (l1 := l.[0 <- console_fd].[1 <- console_fd]).
  assert (Hl1 : zlen l1 = 8) by (unfold l1; by rewrite !aset_length).
  destruct (fds_overwritten l1 2 (fun _ => reset_fd_slot) Hl1 ltac:(lia)) as [Hz Hg].
  apply array_ext; [by rewrite Hz|]. intros i Hi. rewrite Hz in Hi. rewrite Hg by lia.
  assert (E' : i = 0 \/ i = 1 \/ 2 <= i < 8) by lia. destruct E' as [-> | [-> | Hi']].
  - unfold l1. rewrite decide_False by lia. rewrite aget_aset_ne by lia. by rewrite aget_aset_eq by lia.
  - unfold l1. rewrite decide_False by lia. by rewrite aget_aset_eq by (rewrite ?aset_length; lia).
  - rewrite decide_True by lia.
    assert (Ei : i = 2 \/ i = 3 \/ i = 4 \/ i = 5 \/ i = 6 \/ i = 7) by lia.
    by destruct Ei as [-> | [-> | [-> | [-> | [-> | ->]]]]].
Qed.

Lemma sched_spawn_spec s entry prio ctx :
  sched_wf s -> heap_answers s ->
  exists r, sched_spawn_prio_with_context s entry prio ctx = Some r /\ spawn_outcome s prio ctx r.
Proof.
  intros Hw Hh. unfold sched_spawn_prio_with_context. fold (spawn_priority prio).
  destruct (find_slot_spec s Hw Hh) as (s1 & slot & Hu & Hcur & -> & Hslot). cbn [mbind option_bind].
  pose proof (table_used_wf s s1 Hu Hw) as Hw1.
  destruct (slot =? -1) eqn:Es; bool_prop.
  { eexists. split; [done|]. exists s1. split; [done|]. left. by split. }
  destruct Hslot as [->|(Hs & Hunused & Hbefore)]; [done|].
  pose proof (alloc_guarded_stack_fst (env s1)) as Hst.
  destruct (alloc_guarded_stack (env s1)) as [k [[st g]|]].
  2:{ eexists. split; [done|]. exists s1. split; [done|]. left. by split. }
  specialize (Hst st g eq_refl). cbn [with_env env].
  pose proof (push_frame_sp k st entry) as Hsp. destruct (push_frame k st entry) as [k2 sp].
  cbn [snd] in Hsp. eexists. split; [done|]. exists s1. split; [done|]. right.
  cbn [fst snd with_env threads thread_capacity current_thread env].
  destruct Hw1 as [Hc1 Hl1 Hcur1 Hok1 _].
  split; [done|]. split; [done|]. split; [done|]. split; [|split; [|split; [done|split; [done|]]]].
  - rewrite on_thread_get by (cbn; lia). rewrite decide_True by done.
    split; cbn [state priority ticks_remaining context thread_uid stack_low guard_page rsp fds]; try done.
    + rewrite Hcur. by replace (current_thread s >=? 0) with true by lia.
    + by apply spawn_fds, Hok1.
  - intros i Hi Hne. rewrite on_thread_get by (cbn; lia). by rewrite decide_False by done.
  - by rewrite on_thread_length.
Qed.

Lemma spawn_wf s prio ctx r : sched_wf s -> spawn_outcome s prio ctx r -> sched_wf r.1.
Proof.
  intros Hw (s1 & Hu & Hr). pose proof (table_used_wf s s1 Hu Hw) as Hw1.
  destruct Hr as [[_ Hsame]|(Hs & Hunused & _ & Hsp & Hoth & Hc & Hcur & Hl)]; [by eapply same_table_wf|].
  assert (Ecur : current_thread s1 = current_thread s) by
    (destruct Hu as [(_ & _ & E')|[(k & p & [E' _ _ _ _]) _]]; done).
  destruct Hw1 as [Hc1 Hl1 Hcur1 Hok1 Hrun1]. split; rewrite ?Hc, ?Hcur, ?Hl; try done; try congruence; intros i Hi.
  - destruct (decide (i = r.2)) as [->|]; [|rewrite Hoth by done; by apply Hok1].
    destruct Hsp as [_ E2 _ _ _ _ _ E8]. split; [by rewrite E8|rewrite E2; apply spawn_priority_bounds].
  - destruct (decide (i = r.2)) as [->|]; [destruct Hsp as [E' _ _ _ _ _ _ _]; by rewrite E'|].
    rewrite Hoth by done. intros Hr. rewrite <- Ecur. by apply Hrun1.
Qed.
End lemmas.

(** * Descriptors *)

Section descriptors.
Context {K : Type} `{E : SchedEnv K}.
Implicit Types (s : sched K) (tid fd channel : Z).

Definition fds_of s tid : list fd_slot_t := fds (threads s).[tid].

Lemma with_fds_wf s tid (f : list fd_slot_t -> list fd_slot_t) :
  sched_wf s -> 0 <= tid < thread_capacity s -> (forall l, zlen (f l) = zlen l) ->
  sched_wf (on_thread s tid (fun t => set_fds (f (fds t)) t)).
Proof.
  intros Hw Ht Hf. apply on_thread_wf; [done|done| |done].
  intros t [Hz Hp]. split; [|done]. cbn [fds set_fds]. by rewrite Hf.
Qed.

Lemma sched_fd_open_wf s kind handle : sched_wf s -> sched_wf (sched_fd_open s kind handle).1.
Proof.
  intros Hw. unfold sched_fd_open. destruct (_ =? _); [done|].
  destruct (find_first _ _ _) as [i|]; [|done].
  apply (with_fds_wf s _ (fun l => l.[i <- mk_fd kind handle 0])); [done|apply Hw|].
  intros l. apply aset_length.
Qed.

Lemma sched_fd_close_wf s fd : sched_wf s -> sched_wf (sched_fd_close s fd).1.
Proof.
  intros Hw. unfold sched_fd_close. destruct (_ || _); [done|].
  apply (with_fds_wf s _ (fun l => l.[fd <- reset_fd_slot])); [done|apply Hw|].
  intros l. apply aset_length.
Qed.

Lemma sched_fd_set_wf s tid fd kind handle : sched_wf s -> sched_wf (sched_fd_set s tid fd kind handle).1.
Proof.
  intros Hw. unfold sched_fd_set. destruct (_ || _) eqn:E0; [done|]. bool_prop.
  apply (with_fds_wf s tid (fun l => l.[fd <- mk_fd kind handle 0])); [done|lia|].
  intros l. apply aset_length.
Qed.

(** A descriptor is given to a free number from 2 up, the lowest, and read back. *)
Lemma sched_fd_open_spec s kind handle :
  sched_wf s -> kind <> FD_KIND_UNUSED ->
  let r := sched_fd_open s kind handle in
  (r = (s, -1) /\ forall i, 2 <= i < 8 -> fd_kind (fds_of s (current_thread s)).[i] <> FD_KIND_UNUSED) \/
  (2 <= r.2 < 8 /\ sched_fd_get s r.2 = None /\ sched_fd_get r.1 r.2 = Some (mk_fd kind handle 0) /\
   (forall fd, fd <> r.2 -> sched_fd_get r.1 fd = sched_fd_get s fd) /\
   (forall tid, 0 <= tid -> tid <> current_thread s -> (threads r.1).[tid] = (threads s).[tid])).
Proof.
  intros Hw Hk r. subst r. unfold sched_fd_open. pose proof (sw_cur _ Hw) as Hc. pose proof (sw_len _ Hw) as Hl.
  replace (current_thread s =? -1) with false by lia.
  destruct (find_first 2 _ _) as [i|] eqn:Ef.
  - apply find_first_Some in Ef as (Hi & Hfree & _). right. cbn [fst snd]. unfold THREAD_MAX_FDS in Hi.
    set (f := fun t => set_fds ((fds t).[i <- mk_fd kind handle 0]) t).
    assert (Hg : forall tid, 0 <= tid -> (threads (on_thread s (current_thread s) f)).[tid] =
      if decide (tid = current_thread s) then f (threads s).[current_thread s] else (threads s).[tid])
      by (intros; apply on_thread_get; lia).
    pose proof (sw_thread _ Hw _ Hc) as [H8 _].
    assert (Hfd : forall fd, 0 <= fd -> (fds (f (threads s).[current_thread s])).[fd] =
      if decide (i = fd) then mk_fd kind handle 0 else (fds (threads s).[current_thread s]).[fd])
      by (intros; unfold f; cbn [fds set_fds]; apply aget_aset_cases; lia).
    unfold sched_fd_get. change (current_thread (on_thread s (current_thread s) f)) with (current_thread s).
    rewrite Hg by lia. rewrite decide_True by done. unfold THREAD_MAX_FDS.
    replace (current_thread s =? -1) with false by lia.
    split; [done|]. split; [|split; [|split]].
    + replace (i <? 0) with false by lia. replace (i >=? 8) with false by lia. cbn [orb]. by rewrite Hfree.
    + replace (i <? 0) with false by lia. replace (i >=? 8) with false by lia. cbn [orb].
      rewrite Hfd by lia. rewrite decide_True by done. cbn [fd_kind].
      by replace (kind =? FD_KIND_UNUSED) with false by lia.
    + intros fd Hne. destruct (_ || _) eqn:E0; [done|]. bool_prop. rewrite Hfd by lia.
      by rewrite decide_False by congruence.
    + intros tid Ht Hne. rewrite Hg by done. by rewrite decide_False by done.
  - left. split; [done|]. intros i Hi. apply find_first_None with (k := i) in Ef; [|done].
    by bool_prop.
Qed.
End descriptors.

(** * The claims *)

Section claims.
Context {K : Type} `{E : SchedEnv K}.
Implicit Types (s : sched K) (tid channel : Z).

(** [sched_yield] keeps the caller running when no other thread is runnable;
    otherwise it switches to the first runnable thread after the caller in cyclic
    order: the caller is ready with its stack pointer saved, the other runs with
    a full quantum in its own address space and on its own kernel stack, and no
    other thread changes. *)
Theorem sched_yield_correct s :
  sched_wf s -> sched_wf (sched_yield s) /\ yield_outcome s (sched_yield s).
Proof. intros Hw. split; [by apply sched_yield_wf|by apply sched_yield_spec]. Qed.

(** C7: no runnable thread starves: whatever the priorities, if nothing blocks or
    wakes meanwhile, a runnable thread at cyclic distance [d] from the running one runs
    after the ticks left of the running quantum and at most [8 * (d - 1)] more: at most
    [8 * d] in all, unless the counter of the running thread stands at its lowest value
    (after 2^31 ticks with nothing else to run), where it wraps to a quantum of 2^31. *)
Theorem sched_tick_fair s tid :
  sched_wf s -> 0 <= tid < thread_capacity s -> tid <> current_thread s ->
  runnable (threads s).[tid] = true -> ticks_int s ->
  exists n, 1 <= Z.of_nat n <= quantum_left s + 8 * (distance s tid - 1) /\
    (-2147483648 < ticks_left s <= 8 -> Z.of_nat n <= 8 * distance s tid) /\
    current_thread (Nat.iter n sched_tick s) = tid /\
    state (threads (Nat.iter n sched_tick s)).[tid] = THREAD_RUNNING.
Proof.
  intros Hw Ht Hne Hr Hticks. pose proof (distance_bounds s tid Ht (sw_cur _ Hw) Hne) as Hd.
  destruct (ticks_reach (Z.to_nat (wait_bound s tid)) s tid) as (n & Hn & H1 & H2); try done.
  { unfold wait_bound, quantum_left. lia. }
  exists n. unfold wait_bound in Hn. split; [lia|]. split; [|done].
  intros Hq. pose proof (quantum_left_le s Hq). lia.
Qed.

(** Waking a channel, thread by thread. *)
Record wakeup_effect s s' channel : Prop := {
  we_woken : forall i, 0 <= i < thread_capacity s -> state (threads s).[i] = THREAD_BLOCKED ->
    wait_channel (threads s).[i] = channel ->
    (threads s').[i] = set_wait 0 (set_state THREAD_READY (threads s).[i]);
  we_others : forall i, 0 <= i < thread_capacity s ->
    (state (threads s).[i] <> THREAD_BLOCKED \/ wait_channel (threads s).[i] <> channel) ->
    (threads s').[i] = (threads s).[i];
  we_table : current_thread s' = current_thread s /\ thread_capacity s' = thread_capacity s /\
    threads_ptr s' = threads_ptr s /\ env s' = env s /\ zlen (threads s') = zlen (threads s);
}.

Lemma sched_wakeup_effect s channel : sched_wf s -> wakeup_effect s (sched_wakeup s channel) channel.
Proof.
  intros Hw. destruct (sched_wakeup_spec s channel Hw) as [E1 E2 E3 E4 E5 Hg]. split; [| |done].
  - intros i Hi Hs Hc. rewrite Hg by done. unfold wake_one. by rewrite bool_decide_eq_true_2, Hc, Z.eqb_refl.
  - intros i Hi Hn. rewrite Hg by done. unfold wake_one. destruct Hn as [Hn|Hn].
    + by rewrite bool_decide_eq_false_2.
    + replace (_ =? channel) with false by lia. by rewrite andb_false_r.
Qed.

(** C8: no wakeup is lost: [sched_sleep] parks exactly the caller on the channel, and
    [sched_wakeup] makes every thread that is blocked on its channel ready and changes
    no other: the caller becomes ready by a wakeup on its channel and stays blocked
    under one on another. *)
Theorem sched_sleep_wakeup s channel :
  sched_wf s ->
  let s' := (sched_sleep s channel).1 in
  sleep_outcome s channel (sched_sleep s channel) /\ sched_wf s' /\
  state (threads s').[current_thread s] = THREAD_BLOCKED /\
  wait_channel (threads s').[current_thread s] = channel /\
  (forall z other, sched_wf z -> wakeup_effect z (sched_wakeup z other) other) /\
  (forall other, state (threads (sched_wakeup s' other)).[current_thread s] =
     if decide (other = channel) then THREAD_READY else THREAD_BLOCKED).
Proof.
  intros Hw s'. pose proof (sched_sleep_spec s channel Hw) as Ho. pose proof (sw_cur _ Hw) as Hc.
  assert (Hw' : sched_wf s') by by apply sched_sleep_wf.
  assert (Hcap : thread_capacity s' = thread_capacity s /\
    state (threads s').[current_thread s] = THREAD_BLOCKED /\
    wait_channel (threads s').[current_thread s] = channel).
  { unfold s'. destruct Ho as [[_ ->]|(next & s1 & -> & _ & [_ Ec _ _ _ _ Ep _])]; cbn [fst].
    - rewrite on_thread_get by (pose proof (sw_len _ Hw); lia). by rewrite decide_True by done.
    - by rewrite Ep. }
  destruct Hcap as (Hcap & Hst & Hch). do 4 (split; [done|]). split; [apply sched_wakeup_effect|].
  intros other. destruct (sched_wakeup_effect s' other Hw') as [Hwo Hot _]. case_decide as Ech.
  - rewrite Hwo by (congruence || lia). done.
  - rewrite Hot by (try lia; right; congruence). done.
Qed.

(** spawning returns: it fails with the threads as they were, or makes a
    ready thread in the lowest free slot, with a full quantum, the console on
    descriptors 0 and 1, the uid its parent's entry holds and its first frame on
    its own guarded stack.  A full table is doubled first; then every old thread
    keeps all its fields but the uid, which becomes whatever the fresh block
    held. *)
Theorem sched_spawn_correct s entry prio ctx :
  sched_wf s -> heap_answers s ->
  exists r, sched_spawn_prio_with_context s entry prio ctx = Some r /\
    spawn_outcome s prio ctx r /\ sched_wf r.1.
Proof.
  intros Hw Hh. destruct (sched_spawn_spec s entry prio ctx Hw Hh) as (r & Hr & Ho).
  exists r. split; [done|]. split; [done|]. by eapply spawn_wf.
Qed.

(** The tick counter of a thread that nothing preempts wraps: 2^31 ticks later it
    gets a quantum of 2^31 - 1 ticks. *)
Lemma sched_tick_wraps s :
  sched_wf s -> ticks_left s = -2147483648 ->
  current_thread (sched_tick s) = current_thread s /\ ticks_left (sched_tick s) = 2147483647.
Proof.
  intros Hw Ht. rewrite sched_tick_spec by done. rewrite Ht.
  assert (Es : s32 (-2147483648 - 1) = 2147483647) by reflexivity.
  rewrite Es. replace (2147483647 >? 0) with true by reflexivity.
  split; [done|]. unfold ticks_left at 1. change (current_thread (decremented s)) with (current_thread s).
  rewrite decremented_get by (first [done|pose proof (sw_cur _ Hw); lia]).
  rewrite decide_True, Ht by done. exact Es.
Qed.
End claims.

(** * A concrete system *)

(** A machine that hands out fresh addresses and maps no page. *)
#[export] Instance demo_env : SchedEnv Z := {
  env_malloc := fun k n => Some (k + n, k);
  env_free := fun k _ => Some k;
  env_ld32 := fun _ _ => 0;
  env_st64 := fun k _ _ => k;
  env_alloc_contiguous := fun k n => (k + n * 4096, k);
  env_free_frame := fun k _ => k;
  env_guard_page := fun k _ => k;
  env_is_mapped := fun _ _ => false;
  env_map_page := fun k _ _ _ => k;
  env_kernel_space := fun _ => 4096;
  env_switch_space := fun k _ => k;
  env_set_kernel_stack := fun k _ => k;
  env_switch_context := fun k _ => (k, 0);
}.

Definition demo_thread (st : thread_state_t) (ch : Z) : thread_t :=
  mk_thread 0 st 0 0 THREAD_PRIO_NORMAL 4 4096 ch 0 (replicate 8 (mk_fd 0 0 0)) 0.

Definition demo_sched : sched Z :=
  mk_sched [demo_thread THREAD_RUNNING 0; demo_thread THREAD_BLOCKED 7;
            demo_thread THREAD_ZOMBIE 0; demo_thread THREAD_READY 0] 65536 4 0 1048576.

Lemma demo_cases (P : Z -> Prop) : P 0 -> P 1 -> P 2 -> P 3 -> forall i, 0 <= i < 4 -> P i.
Proof.
  intros H0 H1 H2 H3 i Hi. assert (E : i = 0 \/ i = 1 \/ i = 2 \/ i = 3) by lia.
  by destruct E as [-> | [-> | [-> | ->]]].
Qed.

Lemma demo_sched_wf : sched_wf demo_sched.
Proof.
  split; [done|done|done| |].
  - apply (demo_cases (fun i => thread_ok (threads demo_sched).[i])); by split.
  - by apply (demo_cases (fun i => state (threads demo_sched).[i] = THREAD_RUNNING -> i = 0)).
Qed.

Lemma demo_heap_answers : heap_answers demo_sched.
Proof. split; intros; eexists; reflexivity. Qed.

Lemma sched_yield_correct_witness :
  sched_wf demo_sched /\ sched_wf (sched_yield demo_sched) /\
  yield_outcome demo_sched (sched_yield demo_sched).
Proof. exact (conj demo_sched_wf (sched_yield_correct demo_sched demo_sched_wf)). Defined.

Lemma sched_tick_fair_witness :
  sched_wf demo_sched /\
  exists n, 1 <= Z.of_nat n <= quantum_left demo_sched + 8 * (distance demo_sched 3 - 1) /\
    (-2147483648 < ticks_left demo_sched <= 8 -> Z.of_nat n <= 8 * distance demo_sched 3) /\
    current_thread (Nat.iter n sched_tick demo_sched) = 3 /\
    state (threads (Nat.iter n sched_tick demo_sched)).[3] = THREAD_RUNNING.
Proof.
  split; [exact demo_sched_wf|].
  apply (sched_tick_fair demo_sched 3 demo_sched_wf); [done|discriminate|reflexivity|done].
Defined.

Lemma sched_sleep_wakeup_witness :
  sched_wf demo_sched /\
  let s' := (sched_sleep demo_sched 9).1 in
  sleep_outcome demo_sched 9 (sched_sleep demo_sched 9) /\ sched_wf s' /\
  state (threads s').[0] = THREAD_BLOCKED /\ wait_channel (threads s').[0] = 9 /\
  (forall (z : sched Z) other, sched_wf z -> wakeup_effect z (sched_wakeup z other) other) /\
  (forall other, state (threads (sched_wakeup s' other)).[0] =
     if decide (other = 9) then THREAD_READY else THREAD_BLOCKED).
Proof. exact (conj demo_sched_wf (sched_sleep_wakeup demo_sched 9 demo_sched_wf)). Defined.

Lemma sched_spawn_correct_witness :
  (sched_wf demo_sched /\ heap_answers demo_sched) /\
  exists r, sched_spawn_prio_with_context demo_sched 16 2 5 = Some r /\
    spawn_outcome demo_sched 2 5 r /\ sched_wf r.1.
Proof.
  exact (conj (conj demo_sched_wf demo_heap_answers)
    (sched_spawn_correct demo_sched 16 2 5 demo_sched_wf demo_heap_answers)).
Defined.
