(* ===== verification/Pipe.v ===== *)
(** The pipes of [kernel/core/pipe.c]: eight bounded byte queues with reader and
    writer counts, blocking through the scheduler.  A read or a write is a loop;
    one turn of it runs with interrupts off and is atomic. *)
From S2P Require Import Prelude CString Thread.

Definition PIPE_MAX : Z := 8.
Definition PIPE_BUF_SIZE : Z := 1024.
(** [sizeof(pipe_t)] *)
Definition PIPE_SIZEOF : Z := 1048.

Record pipe_t := mk_pipe {
  in_use : bool;
  p_buf : list Z;
  read_pos : Z;
  write_pos : Z;
  count : Z;
  readers : Z;
  writers : Z;
}.

#[export] Instance pipe_inhabited : Inhabited pipe_t :=
  populate (mk_pipe false (replicate 1024 0) 0 0 0 0 0).

(** The table at boot. *)
Definition no_pipes : list pipe_t := replicate 8 inhabitant.

(** * The model *)

(** How a turn of [pipe_read] or [pipe_write] ends: the call returns, or the caller
    sleeps ([true]: halted, nothing else can run) and takes another turn later. *)
Inductive turn (A : Type) :=
  | Returned (a : A)
  | Slept (halted : bool).
Arguments Returned {A}.
Arguments Slept {A}.

Section model.
Context {K : Type} `{SchedEnv K}.
(** The address of the table; the address of an entry is its wait channel. *)
Context (pipes_addr : Z).
Implicit Types (ps : list pipe_t) (s : sched K) (idx : Z).

Definition pipe_channel idx : Z := pipes_addr + idx * PIPE_SIZEOF.

Definition valid ps idx : bool := (0 <=? idx) && (idx <? PIPE_MAX) && in_use ps.[idx].

Definition maybe_free (p : pipe_t) : pipe_t :=
  if (readers p <=? 0) && (writers p <=? 0)
  then mk_pipe false (p_buf p) (read_pos p) (write_pos p) (count p) (readers p) (writers p)
  else p.

Definition pipe_create ps : list pipe_t * Z :=
  match find_first 0 PIPE_MAX (fun i => negb (in_use ps.[i])) with
  | Some i => (ps.[i <- mk_pipe true (p_buf ps.[i]) 0 0 0 1 1], i)
  | None => (ps, -1)
  end.

Definition add_readers (p : pipe_t) (n : Z) : pipe_t :=
  mk_pipe (in_use p) (p_buf p) (read_pos p) (write_pos p) (count p) (readers p + n) (writers p).
Definition add_writers (p : pipe_t) (n : Z) : pipe_t :=
  mk_pipe (in_use p) (p_buf p) (read_pos p) (write_pos p) (count p) (readers p) (writers p + n).

Definition pipe_add_reader ps idx : list pipe_t * Z :=
  if negb (valid ps idx) then (ps, -1) else (ps.[idx <- add_readers ps.[idx] 1], 0).

Definition pipe_add_writer ps idx : list pipe_t * Z :=
  if negb (valid ps idx) then (ps, -1) else (ps.[idx <- add_writers ps.[idx] 1], 0).

Definition pipe_close_reader ps s idx : list pipe_t * sched K :=
  if (idx <? 0) || (idx >=? PIPE_MAX) || negb (in_use ps.[idx]) then (ps, s)
  else
    let p := ps.[idx] in
    let p := if readers p >? 0 then add_readers p (-1) else p in
    let p := maybe_free p in
    (ps.[idx <- p], sched_wakeup s (pipe_channel idx)).

Definition pipe_close_writer ps s idx : list pipe_t * sched K :=
  if (idx <? 0) || (idx >=? PIPE_MAX) || negb (in_use ps.[idx]) then (ps, s)
  else
    let p := ps.[idx] in
    let p := if writers p >? 0 then add_writers p (-1) else p in
    let p := maybe_free p in
    (ps.[idx <- p], sched_wakeup s (pipe_channel idx)).

(** The copy loop of [pipe_read]: [n] bytes from the ring to [dst]. *)
Definition take_bytes (p : pipe_t) (dst : list Z) (n : Z) : list Z * Z :=
  for_each 0 n (fun i '(dst, r) => (dst.[i <- (p_buf p).[r]], (r + 1) mod PIPE_BUF_SIZE))
    (dst, read_pos p).

(** The copy loop of [pipe_write]. *)
Definition put_bytes (p : pipe_t) (src : list Z) (n : Z) : list Z * Z :=
  for_each 0 n (fun i '(b, w) => (b.[w <- u8 src.[i]], (w + 1) mod PIPE_BUF_SIZE))
    (p_buf p, write_pos p).

(** One turn of [pipe_read]: the pipes, the scheduler, the buffer, how it ends. *)
Definition pipe_read ps s idx (dst : list Z) (len : Z) :
    list pipe_t * sched K * list Z * turn Z :=
  if (idx <? 0) || (idx >=? PIPE_MAX) then (ps, s, dst, Returned (-1))
  else
    let p := ps.[idx] in
    if negb (in_use p) then (ps, s, dst, Returned (-1))
    else if count p >? 0 then
      let n := if count p <? len then count p else len in
      let (dst, r) := take_bytes p dst n in
      let p := mk_pipe (in_use p) (p_buf p) r (write_pos p) (count p -32 n) (readers p) (writers p) in
      (ps.[idx <- p], sched_wakeup s (pipe_channel idx), dst, Returned n)
    else if writers p <=? 0 then (ps, s, dst, Returned 0)
    else let (s, halted) := sched_sleep s (pipe_channel idx) in (ps, s, dst, Slept halted).

Definition pipe_write ps s idx (src : list Z) (len : Z) : list pipe_t * sched K * turn Z :=
  if (idx <? 0) || (idx >=? PIPE_MAX) then (ps, s, Returned (-1))
  else
    let p := ps.[idx] in
    if negb (in_use p) then (ps, s, Returned (-1))
    else if readers p <=? 0 then (ps, s, Returned (-1))
    else
      let free_space := PIPE_BUF_SIZE -32 count p in
      if free_space >? 0 then
        let n := if free_space <? len then free_space else len in
        let (b, w) := put_bytes p src n in
        let p := mk_pipe (in_use p) b (read_pos p) w (count p +32 n) (readers p) (writers p) in
        (ps.[idx <- p], sched_wakeup s (pipe_channel idx), Returned n)
      else let (s, halted) := sched_sleep s (pipe_channel idx) in (ps, s, Slept halted).
End model.

(** * The queue a pipe holds *)

Record pipe_wf (p : pipe_t) : Prop := {
  pw_buf : zlen (p_buf p) = 1024;
  pw_read : 0 <= read_pos p < 1024;
  pw_count : 0 <= count p <= 1024;
  pw_write : write_pos p = (read_pos p + count p) mod 1024;
}.

Definition pipes_wf (ps : list pipe_t) : Prop :=
  zlen ps = 8 /\ forall i, 0 <= i < 8 -> pipe_wf ps.[i].

(** The bytes written and not yet read, in order. *)
Definition pipe_queue (p : pipe_t) : list Z :=
  map (fun i => (p_buf p).[(read_pos p + i) mod 1024]) (seqZ 0 (count p)).

Section lemmas.
Implicit Types (p : pipe_t) (dst src : list Z).

Lemma map_seqZ_get (f : Z -> Z) n i : 0 <= i < n -> (map f (seqZ 0 n)).[i] = f i.
Proof.
  intros Hi. apply list_lookup_total_correct. rewrite list_lookup_fmap, fmap_Some.
  exists i. split; [|done]. apply lookup_seqZ. lia.
Qed.

Lemma zlen_map_seqZ (f : Z -> Z) n : 0 <= n -> zlen (map f (seqZ 0 n)) = n.
Proof. intros Hn. unfold zlen. rewrite length_map, length_seqZ. lia. Qed.

Lemma queue_length p : pipe_wf p -> zlen (pipe_queue p) = count p.
Proof. intros Hw. apply zlen_map_seqZ. apply Hw. Qed.

Lemma queue_get p i : 0 <= i < count p -> (pipe_queue p).[i] = (p_buf p).[(read_pos p + i) mod 1024].
Proof. apply (map_seqZ_get (fun i => (p_buf p).[(read_pos p + i) mod 1024])). Qed.

Lemma take_bytes_spec p dst n :
  pipe_wf p -> 0 <= n <= count p -> n <= zlen dst ->
  let (dst', r) := take_bytes p dst n in
  r = (read_pos p + n) mod 1024 /\ zlen dst' = zlen dst /\
  forall i, 0 <= i -> dst'.[i] = if decide (i < n) then (pipe_queue p).[i] else dst.[i].
Proof.
  intros Hw Hn Hd. unfold take_bytes, PIPE_BUF_SIZE.
  pose proof (for_each_inv 0 n
    (fun i '(dst, r) => (dst.[i <- (p_buf p).[r]], (r + 1) mod 1024)) (dst, read_pos p)
    (fun m x => x.2 = (read_pos p + m) mod 1024 /\ zlen x.1 = zlen dst /\
      forall i, 0 <= i -> x.1.[i] = if decide (i < m) then (pipe_queue p).[i] else dst.[i])) as Hinv.
  destruct (for_each 0 n _ _) as [dst' r]. apply Hinv; [lia| |].
  - cbn [fst snd]. split; [rewrite Z.add_0_r, Z.mod_small; [done|apply Hw]|]. split; [done|].
    intros i Hi. by rewrite decide_False by lia.
  - intros m [x r'] Hm (E1 & Hz & Hg). cbn [fst snd] in *. rewrite E1. clear E1.
    split; [rewrite Zplus_mod_idemp_l; f_equal; lia|]. split; [by rewrite aset_length|].
    intros i Hi. rewrite aget_aset_cases by lia. destruct (decide (m = i)) as [<-|].
    + rewrite decide_True by lia. by rewrite queue_get by lia.
    + rewrite Hg by done. repeat case_decide; try lia; done.
Qed.

(** Cells of the ring at different distances from the same start differ. *)
Lemma ring_apart r i j :
  0 <= i < 1024 -> 0 <= j < 1024 -> (r + i) mod 1024 = (r + j) mod 1024 -> i = j.
Proof. intros Hi Hj. div_lia. Qed.

Lemma put_bytes_spec p src n :
  pipe_wf p -> 0 <= n -> count p + n <= 1024 ->
  let (b, w) := put_bytes p src n in
  w = (read_pos p + (count p + n)) mod 1024 /\ zlen b = 1024 /\
  forall i, 0 <= i < count p + n -> b.[(read_pos p + i) mod 1024] =
    if decide (i < count p) then (pipe_queue p).[i] else u8 src.[i - count p].
Proof.
  intros Hw Hn Hfit. pose proof Hw as [Hb Hr Hc Hwp]. unfold put_bytes, PIPE_BUF_SIZE.
  pose proof (for_each_inv 0 n
    (fun i '(b, w) => (b.[w <- u8 src.[i]], (w + 1) mod 1024)) (p_buf p, write_pos p)
    (fun m x => x.2 = (read_pos p + (count p + m)) mod 1024 /\ zlen x.1 = 1024 /\
      forall i, 0 <= i < count p + m -> x.1.[(read_pos p + i) mod 1024] =
        if decide (i < count p) then (pipe_queue p).[i] else u8 src.[i - count p])) as Hinv.
  destruct (for_each 0 n _ _) as [b w]. apply Hinv; [lia| |].
  - cbn [fst snd]. split; [by rewrite Z.add_0_r|]. split; [done|].
    intros i Hi. rewrite decide_True by lia. by rewrite queue_get by lia.
  - intros m [x w'] Hm (E1 & Hz & Hg). cbn [fst snd] in *. rewrite E1. clear E1.
    split; [rewrite Zplus_mod_idemp_l; f_equal; lia|]. split; [by rewrite aset_length|].
    intros i Hi. pose proof (Z.mod_pos_bound (read_pos p + (count p + m)) 1024 ltac:(lia)).
    pose proof (Z.mod_pos_bound (read_pos p + i) 1024 ltac:(lia)).
    rewrite aget_aset_cases by lia. case_decide as Heq.
    + apply ring_apart in Heq; [|lia|lia]. subst i. rewrite decide_False by lia. f_equal. f_equal. lia.
    + apply Hg. destruct (decide (i = count p + m)) as [->|]; [done|lia].
Qed.
End lemmas.

(** * What a turn does *)

Section turns.
Context {K : Type} `{E : SchedEnv K}.
Context (pipes_addr : Z).
Implicit Types (ps : list pipe_t) (s : sched K) (idx : Z) (dst src : list Z).

Definition usable ps idx : Prop := 0 <= idx < 8 /\ in_use ps.[idx] = true.

Definition same_ends (p p' : pipe_t) : Prop :=
  in_use p' = in_use p /\ readers p' = readers p /\ writers p' = writers p.

(** A read turn: an error on a bad pipe; the oldest bytes and a wakeup when there
    are some; end of file when there are none and no writer is left; sleep when
    there are none yet. *)
Definition pipe_read_outcome ps s idx dst len (r : list pipe_t * sched K * list Z * turn Z) : Prop :=
  (~ usable ps idx /\ r = (ps, s, dst, Returned (-1))) \/
  (usable ps idx /\ exists n p' dst',
     r = (ps.[idx <- p'], sched_wakeup s (pipe_channel pipes_addr idx), dst', Returned n) /\
     0 < zlen (pipe_queue ps.[idx]) /\ n = Z.min (zlen (pipe_queue ps.[idx])) len /\
     zlen dst' = zlen dst /\ pipe_queue ps.[idx] = take (Z.to_nat n) dst' ++ pipe_queue p' /\
     (forall i, n <= i -> dst'.[i] = dst.[i]) /\ pipe_wf p' /\ same_ends ps.[idx] p') \/
  (usable ps idx /\ pipe_queue ps.[idx] = [] /\ writers ps.[idx] <= 0 /\ r = (ps, s, dst, Returned 0)) \/
  (usable ps idx /\ pipe_queue ps.[idx] = [] /\ 0 < writers ps.[idx] /\
     r = (ps, (sched_sleep s (pipe_channel pipes_addr idx)).1, dst,
          Slept (sched_sleep s (pipe_channel pipes_addr idx)).2)).

(** A write turn: an error on a bad or broken pipe; as many bytes as fit, and a
    wakeup, when there is room; sleep when the pipe is full. *)
Definition pipe_write_outcome ps s idx src len (r : list pipe_t * sched K * turn Z) : Prop :=
  ((~ usable ps idx \/ readers ps.[idx] <= 0) /\ r = (ps, s, Returned (-1))) \/
  (usable ps idx /\ 0 < readers ps.[idx] /\ exists n p',
     r = (ps.[idx <- p'], sched_wakeup s (pipe_channel pipes_addr idx), Returned n) /\
     zlen (pipe_queue ps.[idx]) < 1024 /\ n = Z.min (1024 - zlen (pipe_queue ps.[idx])) len /\
     pipe_queue p' = pipe_queue ps.[idx] ++ take (Z.to_nat n) src /\
     pipe_wf p' /\ same_ends ps.[idx] p') \/
  (usable ps idx /\ 0 < readers ps.[idx] /\ zlen (pipe_queue ps.[idx]) = 1024 /\
     r = (ps, (sched_sleep s (pipe_channel pipes_addr idx)).1,
          Slept (sched_sleep s (pipe_channel pipes_addr idx)).2)).

Lemma zlen_nil (l : list Z) : zlen l = 0 <-> l = [].
Proof. unfold zlen. destruct l; simpl; split; try done; lia. Qed.

Lemma take_get (l : list Z) n i : 0 <= i < n -> (take (Z.to_nat n) l).[i] = l.[i].
Proof. intros Hi. rewrite !list_lookup_total_alt, lookup_take_lt by lia. done. Qed.

Lemma zlen_take (l : list Z) n : 0 <= n <= zlen l -> zlen (take (Z.to_nat n) l) = n.
Proof. unfold zlen. intros Hn. rewrite length_take. lia. Qed.

Lemma app_get (l l' : list Z) i :
  0 <= i -> (l ++ l').[i] = if decide (i < zlen l) then l.[i] else l'.[i - zlen l].
Proof.
  intros Hi. unfold zlen. rewrite !list_lookup_total_alt. case_decide.
  - rewrite lookup_app_l by lia. done.
  - rewrite lookup_app_r by lia. do 2 f_equal. lia.
Qed.

Lemma zlen_app (l l' : list Z) : zlen (l ++ l') = zlen l + zlen l'.
Proof. unfold zlen. rewrite length_app. lia. Qed.

Lemma usable_cases ps idx :
  ((idx <? 0) || (idx >=? PIPE_MAX) = true /\ ~ usable ps idx) \/
  ((idx <? 0) || (idx >=? PIPE_MAX) = false /\ 0 <= idx < 8).
Proof.
  unfold PIPE_MAX, usable. destruct (_ || _) eqn:E0.
  - left. split; [done|]. apply orb_prop in E0 as [E0|E0]; bool_prop; lia.
  - right. bool_prop. lia.
Qed.

Lemma pipe_read_spec ps s idx dst len :
  pipes_wf ps -> 0 <= len <= zlen dst ->
  pipe_read_outcome ps s idx dst len (pipe_read pipes_addr ps s idx dst len).
Proof.
  intros [Hz Hps] Hlen. unfold pipe_read, pipe_read_outcome.
  destruct (usable_cases ps idx) as [[-> Hno]|[-> Hi]]; [by left|].
  pose proof (Hps idx Hi) as Hw. pose proof (queue_length _ Hw) as Hql.
  destruct (in_use ps.[idx]) eqn:Eu; cbn [negb]; [|left; by split; [intros [_ ?]; congruence|]].
  assert (Hus : usable ps idx) by done. pose proof Hw as [Hb Hr Hc Hwp].
  destruct (count ps.[idx] >? 0) eqn:Ec; bool_prop.
  - right; left. split; [done|].
    set (n := if count ps.[idx] <? len then count ps.[idx] else len).
    assert (En : n = Z.min (zlen (pipe_queue ps.[idx])) len) by (unfold n; rewrite Hql; split_if; bool_prop; lia).
    clearbody n. pose proof (take_bytes_spec ps.[idx] dst n Hw ltac:(lia) ltac:(lia)) as Ht.
    destruct (take_bytes ps.[idx] dst n) as [dst' r]. destruct Ht as (-> & Hzd & Hg).
    eexists n, _, dst'. split; [reflexivity|]. split; [lia|]. split; [done|]. split; [done|].
    rewrite u32_small by lia. set (p' := mk_pipe _ _ _ _ _ _ _).
    assert (Hw' : pipe_wf p').
    { split; cbn; [done|by apply Z.mod_pos_bound|lia|]. rewrite Hwp, Zplus_mod_idemp_l. f_equal. lia. }
    split; [|split; [intros i Hi'; rewrite Hg by lia; by rewrite decide_False by lia|split; done]].
    apply array_ext.
    { rewrite zlen_app, zlen_take by lia. rewrite Hql, (queue_length p' Hw'). cbn. lia. }
    intros i Hi'. rewrite Hql in Hi'. rewrite app_get, zlen_take by lia. case_decide.
    + rewrite take_get by lia. rewrite Hg by lia. by rewrite decide_True by lia.
    + rewrite !queue_get by (cbn; lia). cbn. f_equal. f_equal. rewrite Zplus_mod_idemp_l. f_equal. lia.
  - assert (Hq : pipe_queue ps.[idx] = []) by (apply zlen_nil; lia).
    destruct (writers ps.[idx] <=? 0) eqn:Ew; bool_prop; right; right; [by left|right].
    destruct (sched_sleep _ _) as [s' halted]. done.
Qed.

Lemma pipe_write_spec ps s idx src len :
  pipes_wf ps -> bytes_ok src -> 0 <= len <= zlen src ->
  pipe_write_outcome ps s idx src len (pipe_write pipes_addr ps s idx src len).
Proof.
  intros [Hz Hps] Hsrc Hlen. unfold pipe_write, pipe_write_outcome.
  destruct (usable_cases ps idx) as [[-> Hno]|[-> Hi]]; [left; by split; [left|]|].
  pose proof (Hps idx Hi) as Hw. pose proof (queue_length _ Hw) as Hql.
  destruct (in_use ps.[idx]) eqn:Eu; cbn [negb]; [|left; split; [left; intros [_ ?]; congruence|done]].
  assert (Hus : usable ps idx) by done. pose proof Hw as [Hb Hr Hc Hwp].
  destruct (readers ps.[idx] <=? 0) eqn:Er; bool_prop; [left; by split; [right|]|].
  unfold PIPE_BUF_SIZE. rewrite u32_small by lia. destruct (1024 - count ps.[idx] >? 0) eqn:Ef; bool_prop.
  - right; left. split; [done|]. split; [done|].
    set (n := if 1024 - count ps.[idx] <? len then 1024 - count ps.[idx] else len).
    assert (En : n = Z.min (1024 - zlen (pipe_queue ps.[idx])) len) by (unfold n; rewrite Hql; split_if; bool_prop; lia).
    clearbody n. pose proof (put_bytes_spec ps.[idx] src n Hw ltac:(lia) ltac:(lia)) as Hp.
    destruct (put_bytes ps.[idx] src n) as [b w]. destruct Hp as (-> & Hzb & Hg).
    eexists n, _. split; [reflexivity|]. split; [lia|]. split; [done|]. rewrite u32_small by lia.
    set (p' := mk_pipe _ _ _ _ _ _ _). assert (Hw' : pipe_wf p') by (split; cbn; try done; lia).
    split; [|done]. apply array_ext.
    { rewrite zlen_app, zlen_take by lia. rewrite Hql, (queue_length p' Hw'). done. }
    intros i Hi'. rewrite (queue_length p' Hw') in Hi'. cbn in Hi'.
    rewrite queue_get by done. cbn [p' p_buf read_pos]. rewrite Hg by lia.
    rewrite app_get by lia. rewrite Hql. case_decide; [done|].
    rewrite take_get by lia. apply u8_small, Hsrc. lia.
  - right; right. split; [done|]. split; [done|]. split; [lia|]. destruct (sched_sleep _ _). done.
Qed.

Lemma pipes_wf_set ps idx p :
  pipes_wf ps -> 0 <= idx < 8 -> pipe_wf p -> pipes_wf (ps.[idx <- p]).
Proof.
  intros [Hz Hps] Hi Hp. split; [by rewrite aset_length|]. intros i Hi'.
  rewrite aget_aset_cases by lia. by case_decide; [|apply Hps].
Qed.

(** Opening and closing ends leaves the queue alone. *)
Definition same_queue (p p' : pipe_t) : Prop := pipe_queue p' = pipe_queue p /\ (pipe_wf p -> pipe_wf p').

Lemma maybe_free_queue p : same_queue p (maybe_free p).
Proof. unfold maybe_free. destruct (_ && _); [|done]. split; [done|]. intros []. by split. Qed.

Lemma add_readers_queue p n : same_queue p (add_readers p n).
Proof. split; [done|]. intros []. by split. Qed.

Lemma add_writers_queue p n : same_queue p (add_writers p n).
Proof. split; [done|]. intros []. by split. Qed.

Lemma same_queue_trans p1 p2 p3 : same_queue p1 p2 -> same_queue p2 p3 -> same_queue p1 p3.
Proof. intros [E1 H1] [E2 H2]. split; [congruence|auto]. Qed.

Lemma pipe_close_reader_spec ps s idx :
  (~ usable ps idx /\ pipe_close_reader pipes_addr ps s idx = (ps, s)) \/
  (usable ps idx /\ exists p', same_queue ps.[idx] p' /\
     readers p' = Z.max (Z.min (readers ps.[idx]) 0) (readers ps.[idx] - 1) /\
     writers p' = writers ps.[idx] /\
     in_use p' = negb ((readers p' <=? 0) && (writers p' <=? 0)) /\
     pipe_close_reader pipes_addr ps s idx =
       (ps.[idx <- p'], sched_wakeup s (pipe_channel pipes_addr idx))).
Proof.
  unfold pipe_close_reader. destruct (usable_cases ps idx) as [[-> Hno]|[-> Hi]]; [by left|]. cbn [orb].
  destruct (in_use ps.[idx]) eqn:Eu; cbn [negb]; [right|left; by split; [intros [_ ?]; congruence|]].
  split; [done|]. set (p := if readers ps.[idx] >? 0 then _ else _). exists (maybe_free p).
  assert (Hp : same_queue ps.[idx] p /\ writers p = writers ps.[idx] /\ in_use p = true /\
    readers p = Z.max (Z.min (readers ps.[idx]) 0) (readers ps.[idx] - 1)).
  { unfold p. destruct (_ >? 0) eqn:Er; bool_prop.
    - split; [apply add_readers_queue|]. cbn. repeat split; try done. lia.
    - split; [done|]. repeat split; try done. lia. }
  destruct Hp as (Hq & Ew & Ei & Er). clearbody p.
  split; [eapply same_queue_trans; [exact Hq|apply maybe_free_queue]|].
  unfold maybe_free. destruct (_ && _) eqn:Ef; cbn [in_use readers writers]; rewrite ?Ef, ?Ei; done.
Qed.

Lemma pipe_close_writer_spec ps s idx :
  (~ usable ps idx /\ pipe_close_writer pipes_addr ps s idx = (ps, s)) \/
  (usable ps idx /\ exists p', same_queue ps.[idx] p' /\
     writers p' = Z.max (Z.min (writers ps.[idx]) 0) (writers ps.[idx] - 1) /\
     readers p' = readers ps.[idx] /\
     in_use p' = negb ((readers p' <=? 0) && (writers p' <=? 0)) /\
     pipe_close_writer pipes_addr ps s idx =
       (ps.[idx <- p'], sched_wakeup s (pipe_channel pipes_addr idx))).
Proof.
  unfold pipe_close_writer. destruct (usable_cases ps idx) as [[-> Hno]|[-> Hi]]; [by left|]. cbn [orb].
  destruct (in_use ps.[idx]) eqn:Eu; cbn [negb]; [right|left; by split; [intros [_ ?]; congruence|]].
  split; [done|]. set (p := if writers ps.[idx] >? 0 then _ else _). exists (maybe_free p).
  assert (Hp : same_queue ps.[idx] p /\ readers p = readers ps.[idx] /\ in_use p = true /\
    writers p = Z.max (Z.min (writers ps.[idx]) 0) (writers ps.[idx] - 1)).
  { unfold p. destruct (_ >? 0) eqn:Er; bool_prop.
    - split; [apply add_writers_queue|]. cbn. repeat split; try done. lia.
    - split; [done|]. repeat split; try done. lia. }
  destruct Hp as (Hq & Ew & Ei & Er). clearbody p.
  split; [eapply same_queue_trans; [exact Hq|apply maybe_free_queue]|].
  unfold maybe_free. destruct (_ && _) eqn:Ef; cbn [in_use readers writers]; rewrite ?Ef, ?Ei; done.
Qed.
End turns.

(** * Streams *)

Inductive pipe_op :=
  | PWrite (idx : Z) (src : list Z)
  | PRead (idx len : Z)
  | PAddReader (idx : Z)
  | PAddWriter (idx : Z)
  | PCloseReader (idx : Z)
  | PCloseWriter (idx : Z).

Definition op_ok (op : pipe_op) : Prop :=
  match op with
  | PWrite _ src => bytes_ok src
  | PRead _ len => 0 <= len
  | _ => True
  end.

Section streams.
Context {K : Type} `{E : SchedEnv K}.
Context (pipes_addr : Z).
Implicit Types (ps : list pipe_t) (s : sched K) (w g : list Z).

(** A turn by some thread, logging the bytes pipe [i] accepted ([w]) and the bytes
    it handed out ([g]). *)
Definition run_op (i : Z) (st : list pipe_t * sched K * list Z * list Z) (op : pipe_op) :
    list pipe_t * sched K * list Z * list Z :=
  let '(ps, s, w, g) := st in
  match op with
  | PWrite idx src =>
      let '(ps, s, t) := pipe_write pipes_addr ps s idx src (zlen src) in
      (ps, s, match t with
              | Returned n => if idx =? i then w ++ take (Z.to_nat n) src else w
              | Slept _ => w
              end, g)
  | PRead idx len =>
      let '(ps, s, dst, t) := pipe_read pipes_addr ps s idx (replicate (Z.to_nat len) 0) len in
      (ps, s, w, match t with
                 | Returned n => if idx =? i then g ++ take (Z.to_nat n) dst else g
                 | Slept _ => g
                 end)
  | PAddReader idx => ((pipe_add_reader ps idx).1, s, w, g)
  | PAddWriter idx => ((pipe_add_writer ps idx).1, s, w, g)
  | PCloseReader idx =>
      let (ps, s) := pipe_close_reader pipes_addr ps s idx in (ps, s, w, g)
  | PCloseWriter idx =>
      let (ps, s) := pipe_close_writer pipes_addr ps s idx in (ps, s, w, g)
  end.

(** The bytes read, then those still queued, are the bytes queued at the start,
    then those written. *)
Definition in_order i (q : list Z) (st : list pipe_t * sched K * list Z * list Z) : Prop :=
  let '(ps, _, w, g) := st in pipes_wf ps /\ g ++ pipe_queue ps.[i] = q ++ w.

Lemma valid_usable ps idx : valid ps idx = true <-> usable ps idx.
Proof.
  unfold valid, usable, PIPE_MAX. rewrite !andb_true_iff. rewrite Z.leb_le, Z.ltb_lt. tauto.
Qed.

Lemma in_order_same i q ps s s' w g idx p' :
  0 <= i < 8 -> usable ps idx -> same_queue ps.[idx] p' ->
  in_order i q (ps, s, w, g) -> in_order i q (ps.[idx <- p'], s', w, g).
Proof.
  intros Hi [Hidx _] [Eq Hwf] [Hw Ho]. destruct Hw as [Hz Hps].
  split; [by apply pipes_wf_set; [split| |auto]|].
  rewrite aget_aset_cases by lia. case_decide; [subst; by rewrite Eq|done].
Qed.

Lemma run_op_order i q st op :
  0 <= i < 8 -> op_ok op -> in_order i q st -> in_order i q (run_op i st op).
Proof.
  intros Hi Hop. destruct st as [[[ps s] w] g]. intros Hst. pose proof Hst as [Hw Ho].
  destruct op as [idx src|idx len|idx|idx|idx|idx]; cbn [run_op op_ok] in *.
  - pose proof (pipe_write_spec pipes_addr ps s idx src (zlen src) Hw Hop
      ltac:(pose proof (zlen_nonneg src); lia)) as Hr.
    destruct Hr as [[_ ->]|[([Hidx _] & _ & n & p' & -> & _ & Hn & Hq & Hp' & _)|(_ & _ & _ & ->)]]; cbv iota.
    + change (Z.to_nat (-1)) with 0%nat. rewrite take_0, app_nil_r. by destruct (_ =? _).
    + split; [by apply pipes_wf_set|]. pose proof (proj1 Hw) as Hz. rewrite aget_aset_cases by lia.
      destruct (decide (idx = i)) as [->|Hne].
      * rewrite Z.eqb_refl, Hq. by rewrite !(assoc_L (++)), Ho.
      * by replace (idx =? i) with false by lia.
    + done.
  - pose proof (pipe_read_spec pipes_addr ps s idx (replicate (Z.to_nat len) 0) len Hw
      ltac:(unfold zlen; rewrite length_replicate; lia)) as Hr.
    destruct Hr as [[_ ->]|[([Hidx _] & n & p' & dst' & -> & _ & _ & _ & Hq & _ & Hp' & _)|[(_ & _ & _ & ->)|(_ & _ & _ & ->)]]]; cbv iota.
    + change (Z.to_nat (-1)) with 0%nat. rewrite take_0, app_nil_r. by destruct (_ =? _).
    + split; [by apply pipes_wf_set|]. pose proof (proj1 Hw) as Hz. rewrite aget_aset_cases by lia.
      destruct (decide (idx = i)) as [->|Hne].
      * rewrite Z.eqb_refl. rewrite Hq in Ho. by rewrite <- (assoc_L (++)).
      * by replace (idx =? i) with false by lia.
    + change (Z.to_nat 0) with 0%nat. rewrite take_0, app_nil_r. by destruct (_ =? _).
    + done.
  - unfold pipe_add_reader. destruct (valid ps idx) eqn:Ev; cbn [negb fst]; [|done].
    apply valid_usable in Ev. eapply in_order_same; [done|done|apply add_readers_queue|done].
  - unfold pipe_add_writer. destruct (valid ps idx) eqn:Ev; cbn [negb fst]; [|done].
    apply valid_usable in Ev. eapply in_order_same; [done|done|apply add_writers_queue|done].
  - destruct (pipe_close_reader_spec pipes_addr ps s idx) as [[_ ->]|(Hu & p' & Hq & _ & _ & _ & ->)]; [done|].
    by eapply in_order_same.
  - destruct (pipe_close_writer_spec pipes_addr ps s idx) as [[_ ->]|(Hu & p' & Hq & _ & _ & _ & ->)]; [done|].
    by eapply in_order_same.
Qed.

Lemma pipe_create_spec ps :
  pipes_wf ps ->
  (pipe_create ps = (ps, -1) /\ forall i, 0 <= i < 8 -> in_use ps.[i] = true) \/
  exists i p, pipe_create ps = (ps.[i <- p], i) /\ 0 <= i < 8 /\ in_use ps.[i] = false /\
    pipe_wf p /\ pipe_queue p = [] /\ in_use p = true /\ readers p = 1 /\ writers p = 1.
Proof.
  intros [Hz Hps]. unfold pipe_create, PIPE_MAX. destruct (find_first _ _ _) as [i|] eqn:Ef.
  - apply find_first_Some in Ef as (Hi & Hu & _). bool_prop. right. eexists i, _. split; [done|].
    split; [done|]. split; [done|]. split; [|done]. split; cbn; try done. by apply Hps.
  - left. split; [done|]. intros i Hi. apply find_first_None with (k := i) in Ef; [|done]. by bool_prop.
Qed.

(** one turn of [pipe_read] or [pipe_write] moves the oldest bytes out, or as
    many bytes as fit in, waking the sleepers, and says end of file, broken pipe
    or sleep exactly when the queue and the other end's count call for it. *)
Theorem pipe_turns_correct ps s idx dst src len :
  pipes_wf ps -> bytes_ok src -> 0 <= len <= zlen dst -> len <= zlen src ->
  pipe_read_outcome pipes_addr ps s idx dst len (pipe_read pipes_addr ps s idx dst len) /\
  pipe_write_outcome pipes_addr ps s idx src len (pipe_write pipes_addr ps s idx src len).
Proof.
  intros Hw Hs Hl1 Hl2. split; [by apply pipe_read_spec|apply pipe_write_spec; [done|done|lia]].
Qed.

(** C9: a pipe is a FIFO stream: after [pipe_create] hands out pipe [i], whatever
    turns of reads, writes, opens and closes follow on any pipes, in any order and
    by any threads, the bytes read from [i] and then those still queued (at most
    1024) are exactly the bytes it accepted, in order. *)
Theorem pipe_stream ps0 ps s i ops :
  pipes_wf ps0 -> pipe_create ps0 = (ps, i) -> 0 <= i -> Forall op_ok ops ->
  let '(ps', _, w, g) := foldl (run_op i) (ps, s, [], []) ops in
  g ++ pipe_queue ps'.[i] = w /\ zlen (pipe_queue ps'.[i]) <= 1024.
Proof.
  intros Hw0 Hc Hi0 Hops.
  assert (Hstart : 0 <= i < 8 /\ in_order i [] (ps, s, [], [])).
  { destruct (pipe_create_spec ps0 Hw0) as [[E' _]|(j & p & E' & Hj & _ & Hp & Hq & _)];
      rewrite E' in Hc; injection Hc as <- <-; [lia|]. split; [done|].
    split; [by apply pipes_wf_set|]. pose proof (proj1 Hw0). rewrite aget_aset_eq by lia. by rewrite Hq. }
  destruct Hstart as [Hi Hst]. clear Hc Hw0 Hi0. revert Hst.
  generalize (ps, s, @nil Z, @nil Z). induction Hops as [|op ops Hop _ IH]; intros st Hst; cbn [foldl].
  - destruct st as [[[ps' s'] w] g]. destruct Hst as [Hw Ho]. split; [done|].
    rewrite queue_length by by apply Hw. by apply Hw.
  - apply IH. by apply run_op_order.
Qed.
End streams.

(** * A concrete pipe *)

Lemma no_pipes_wf : pipes_wf no_pipes.
Proof.
  split; [done|]. intros i Hi. unfold no_pipes. rewrite lookup_total_replicate_2 by lia. by split.
Qed.

Definition demo_pipes : list pipe_t := (pipe_create no_pipes).1.

Lemma demo_pipes_wf : pipes_wf demo_pipes.
Proof.
  unfold demo_pipes. destruct (pipe_create_spec no_pipes no_pipes_wf) as [[-> _]|(i & p & -> & Hi & _ & Hp & _)].
  - apply no_pipes_wf.
  - by apply pipes_wf_set; [apply no_pipes_wf| |].
Qed.

Definition demo_src : list Z := [1; 2; 3].

Lemma demo_src_ok : bytes_ok demo_src.
Proof.
  intros i Hi. assert (E : i = 0 \/ i = 1 \/ i = 2 \/ 3 <= i) by lia.
  destruct E as [-> | [-> | [-> | Hi']]]; try (vm_compute; split; [discriminate|reflexivity]).
  rewrite list_lookup_total_alt, lookup_ge_None_2; [simpl; lia|]. simpl. lia.
Qed.

Lemma pipe_turns_correct_witness :
  pipes_wf demo_pipes /\
  pipe_read_outcome 4096 demo_pipes demo_sched 0 [0; 0] 2 (pipe_read 4096 demo_pipes demo_sched 0 [0; 0] 2) /\
  pipe_write_outcome 4096 demo_pipes demo_sched 0 demo_src 2 (pipe_write 4096 demo_pipes demo_sched 0 demo_src 2).
Proof.
  split; [exact demo_pipes_wf|].
  apply (pipe_turns_correct 4096 demo_pipes demo_sched 0 [0; 0] demo_src 2 demo_pipes_wf demo_src_ok);
    vm_compute; [split|]; discriminate.
Defined.

Lemma pipe_stream_witness :
  let '(ps', _, w, g) := foldl (run_op 4096 0) (demo_pipes, demo_sched, [], [])
    [PWrite 0 demo_src; PRead 0 2] in
  g ++ pipe_queue ps'.[0] = w /\ zlen (pipe_queue ps'.[0]) <= 1024.
Proof.
  refine (pipe_stream 4096 no_pipes demo_pipes demo_sched 0 [PWrite 0 demo_src; PRead 0 2] no_pipes_wf _ _ _).
  - vm_compute. reflexivity.
  - discriminate.
  - constructor; [exact demo_src_ok|]. constructor; [discriminate|constructor].
Defined.
