(* ===== verification/Video.v ===== *)
(** The text screen of [kernel/drivers/video.c]: 25 rows of 80 cells, a cursor,
    and scrolling of the rows below the three header rows. *)
From S2P Require Import Prelude.

Definition VGA_COLS : Z := 80.
Definition VGA_ROWS : Z := 25.
Definition VGA_EXTENT : Z := 2000.
Definition STYLE_WB : Z := 15.
Definition VGA_CRTC_INDEX : Z := 0x3D4.
Definition VGA_CRTC_DATA : Z := 0x3D5.
Definition VGA_CRTC_CURSOR_HIGH : Z := 0x0E.
Definition VGA_CRTC_CURSOR_LOW : Z := 0x0F.
Definition INPUT_START_ROW : Z := 3.
Definition TAB_WIDTH : Z := 4.

Record vga_char := mk_cell { character : Z; style : Z }.

#[export] Instance vga_char_inhabited : Inhabited vga_char := populate (mk_cell 0 0).

Record video := mk_video {
  text_area : list vga_char;
  cursor_row : Z;
  cursor_col : Z;
  (** Every port write, oldest first: port and value. *)
  ports : list (Z * Z);
}.

(** * The model *)

Definition cell (c : Z) : vga_char := mk_cell c STYLE_WB.

Definition with_text (v : video) (t : list vga_char) : video :=
  mk_video t (cursor_row v) (cursor_col v) (ports v).
Definition with_cursor (v : video) (row col : Z) : video :=
  mk_video (text_area v) row col (ports v).
Definition outb (v : video) (port val : Z) : video :=
  mk_video (text_area v) (cursor_row v) (cursor_col v) (ports v ++ [(port, val)]).

Definition update_hardware_cursor (v : video) : video :=
  let pos := u16 (cursor_row v *32 VGA_COLS +32 cursor_col v) in
  let v := outb v VGA_CRTC_INDEX VGA_CRTC_CURSOR_LOW in
  let v := outb v VGA_CRTC_DATA (Z.land pos 255) in
  let v := outb v VGA_CRTC_INDEX VGA_CRTC_CURSOR_HIGH in
  outb v VGA_CRTC_DATA (Z.land (Z.shiftr pos 8) 255).

Definition clearwin (v : video) : video :=
  with_text v (for_each 0 VGA_EXTENT (fun i t => t.[i <- cell 32]) (text_area v)).

(** [str] is a string with its terminator. *)
Definition putstr_from (v : video) (str : list Z) (base : Z) : video :=
  with_text v
    match for_range 0 (zlen str)
      (fun i t => if str.[i] =? 0 then inr t
                  else if base +32 i >=? VGA_EXTENT then inr t
                  else inl (t.[base +32 i <- cell str.[i]])) (text_area v) with
    | inl t | inr t => t
    end.

Definition putstr (v : video) (str : list Z) : video := putstr_from v str 0.
Definition putstr_at (v : video) (str : list Z) (row : Z) : video :=
  putstr_from v str (row *32 VGA_COLS).

Definition write_cell (v : video) (row col c : Z) : video :=
  let pos := row *32 VGA_COLS +32 col in
  if pos >=? VGA_EXTENT then v else with_text v ((text_area v).[pos <- cell c]).

Definition scroll_up (v : video) : video :=
  let t := for_each (INPUT_START_ROW + 1) VGA_ROWS
    (fun row t => for_each 0 VGA_COLS
       (fun col t => t.[(row - 1) * VGA_COLS + col <- t.[row * VGA_COLS + col]]) t)
    (text_area v) in
  with_text v (for_each 0 VGA_COLS (fun col t => t.[(VGA_ROWS - 1) * VGA_COLS + col <- cell 32]) t).

Definition video_reset_cursor (v : video) : video :=
  update_hardware_cursor (with_cursor v INPUT_START_ROW 0).

Definition video_set_cursor (v : video) (row col : Z) : video :=
  let v := if row <? VGA_ROWS then with_cursor v row (cursor_col v) else v in
  let v := if col <? VGA_COLS then with_cursor v (cursor_row v) col else v in
  update_hardware_cursor v.

Definition video_draw_row (v : video) (row : Z) (buf : list Z) (len : Z) : video :=
  if row >=? VGA_ROWS then v
  else
    let base := row * VGA_COLS in
    with_text v (for_each 0 VGA_COLS
      (fun col t => t.[base + col <- cell (if col <? len then buf.[col] else 32)]) (text_area v)).

Definition video_cols : Z := VGA_COLS.
Definition video_rows : Z := VGA_ROWS.

(** [cursor_col >= VGA_COLS]: on to the next row. *)
Definition wrap_column (v : video) : video :=
  if cursor_col v >=? VGA_COLS then with_cursor v (cursor_row v +32 1) 0 else v.

(** The tab loop, from the column of the cursor to the stop or the end of the row. *)
Definition put_tab (v : video) : video :=
  let next_stop := (cursor_col v / TAB_WIDTH + 1) * TAB_WIDTH in
  let v := for_each (cursor_col v) (Z.min next_stop VGA_COLS)
    (fun _ v => let v := write_cell v (cursor_row v) (cursor_col v) 32 in
                with_cursor v (cursor_row v) (cursor_col v +32 1)) v in
  wrap_column v.

(** One iteration of the scrolling loop per row past the last. *)
Definition scroll_into_view (v : video) : video :=
  for_each VGA_ROWS (cursor_row v + 1)
    (fun _ v => let v := scroll_up v in with_cursor v (cursor_row v -32 1) (cursor_col v)) v.

Definition putchar_at_cursor (v : video) (c : Z) : video :=
  let v :=
    if c =? 10 then with_cursor v (cursor_row v +32 1) 0
    else if c =? 8 then
      if cursor_col v >? 0 then
        let v := with_cursor v (cursor_row v) (cursor_col v -32 1) in
        write_cell v (cursor_row v) (cursor_col v) 32
      else if cursor_row v >? INPUT_START_ROW then
        let v := with_cursor v (cursor_row v -32 1) (VGA_COLS - 1) in
        write_cell v (cursor_row v) (cursor_col v) 32
      else v
    else if c =? 9 then put_tab v
    else
      let v := write_cell v (cursor_row v) (cursor_col v) c in
      wrap_column (with_cursor v (cursor_row v) (cursor_col v +32 1)) in
  update_hardware_cursor (scroll_into_view v).

(** * The screen as rows of cells *)

Record video_wf (v : video) : Prop := {
  vw_len : zlen (text_area v) = 2000;
  vw_row : 0 <= cursor_row v < 25;
  vw_col : 0 <= cursor_col v < 80;
}.

Definition at_cell (v : video) (row col : Z) : vga_char := (text_area v).[row * 80 + col].

(** The cells after the scrolling of [n] rows (0 or 1): rows 3 to 24 move up. *)
Definition scrolled (cells : Z -> Z -> vga_char) : Z -> Z -> vga_char := fun row col =>
  if decide (3 <= row < 24) then cells (row + 1) col
  else if decide (row = 24) then cell 32 else cells row col.

Definition written (cells : Z -> Z -> vga_char) (r c0 c1 ch : Z) : Z -> Z -> vga_char := fun row col =>
  if decide (row = r /\ c0 <= col < c1) then cell ch else cells row col.

Definition same_cells (v : video) (cells : Z -> Z -> vga_char) : Prop :=
  forall row col, 0 <= row < 25 -> 0 <= col < 80 -> at_cell v row col = cells row col.

Section lemmas.
Implicit Types (v : video) (t : list vga_char) (row col c : Z).

Lemma cell_index row col row' col' :
  0 <= col < 80 -> 0 <= col' < 80 -> row * 80 + col = row' * 80 + col' <-> row = row' /\ col = col'.
Proof. lia. Qed.

Lemma write_cell_spec v row col c :
  zlen (text_area v) = 2000 -> 0 <= row < 25 -> 0 <= col < 80 ->
  zlen (text_area (write_cell v row col c)) = 2000 /\
  cursor_row (write_cell v row col c) = cursor_row v /\
  cursor_col (write_cell v row col c) = cursor_col v /\ ports (write_cell v row col c) = ports v /\
  same_cells (write_cell v row col c) (written (at_cell v) row col (col + 1) c).
Proof.
  intros Hl Hr Hc. unfold write_cell, VGA_COLS, VGA_EXTENT. rewrite !u32_small by (rewrite ?u32_small; lia).
  replace (row * 80 + col >=? 2000) with false by lia. cbn [with_text text_area cursor_row cursor_col ports].
  split; [by rewrite aset_length|]. do 3 (split; [done|]). intros row' col' Hr' Hc'.
  unfold at_cell, written. cbn [with_text text_area].
  rewrite aget_aset_cases by lia. repeat case_decide; try done; lia.
Qed.

Lemma scroll_rows_spec t :
  zlen t = 2000 ->
  let t' := for_each 4 25 (fun row t => for_each 0 80
       (fun col t => t.[(row - 1) * 80 + col <- t.[row * 80 + col]]) t) t in
  zlen t' = 2000 /\ forall row col, 0 <= row < 25 -> 0 <= col < 80 ->
    t'.[row * 80 + col] = if decide (3 <= row < 24) then t.[(row + 1) * 80 + col] else t.[row * 80 + col].
Proof.
  intros Hl t'. pose proof (for_each_inv 4 25 (fun row t => for_each 0 80
       (fun col t => t.[(row - 1) * 80 + col <- t.[row * 80 + col]]) t) t
    (fun n x => zlen x = 2000 /\ forall row col, 0 <= row < 25 -> 0 <= col < 80 ->
      x.[row * 80 + col] = if decide (3 <= row < n - 1) then t.[(row + 1) * 80 + col] else t.[row * 80 + col]))
    as Hinv. destruct Hinv as [Hz Hg]; [lia| | |].
  - split; [done|]. intros row col Hr Hc. by rewrite decide_False by lia.
  - intros n x Hn [Hz Hg].
    pose proof (for_each_inv 0 80 (fun col t => t.[(n - 1) * 80 + col <- t.[n * 80 + col]]) x
      (fun m y => zlen y = 2000 /\ forall row col, 0 <= row < 25 -> 0 <= col < 80 ->
        y.[row * 80 + col] = if decide (row = n - 1 /\ col < m) then x.[n * 80 + col] else x.[row * 80 + col]))
      as Hin. destruct Hin as [Hz2 Hg2]; [lia| | |].
    + split; [done|]. intros row col Hr Hc. by rewrite decide_False by lia.
    + intros m y Hm [Hzy Hgy]. split; [by rewrite aset_length|]. intros row col Hr Hc.
      rewrite aget_aset_cases by lia. rewrite !Hgy by lia. repeat case_decide; try lia; try done.
      assert (col = m) as -> by lia. done.
    + split; [done|]. intros row col Hr Hc. rewrite Hg2 by done. rewrite !Hg by lia.
      repeat case_decide; try lia; try done. by replace (row + 1) with n by lia.
  - split; [done|]. intros row col Hr Hc. rewrite Hg by done. repeat case_decide; try lia; done.
Qed.

Lemma scroll_up_spec v :
  zlen (text_area v) = 2000 ->
  zlen (text_area (scroll_up v)) = 2000 /\ cursor_row (scroll_up v) = cursor_row v /\
  cursor_col (scroll_up v) = cursor_col v /\ ports (scroll_up v) = ports v /\
  same_cells (scroll_up v) (scrolled (at_cell v)).
Proof.
  intros Hl. unfold scroll_up, VGA_COLS, VGA_ROWS, INPUT_START_ROW.
  change (3 + 1) with 4. change ((25 - 1) * 80) with 1920.
  destruct (scroll_rows_spec (text_area v) Hl) as [Hz Hg]. set (t := for_each 4 25 _ _) in *. clearbody t.
  pose proof (for_each_inv 0 80 (fun col t => t.[1920 + col <- cell 32]) t
    (fun m y => zlen y = 2000 /\ forall k, 0 <= k < 2000 ->
      y.[k] = if decide (1920 <= k < 1920 + m) then cell 32 else t.[k])) as Hin.
  destruct Hin as [Hz2 Hg2]; [lia|split; [done|]; intros; by rewrite decide_False by lia| |].
  { intros m y Hm [Hzy Hgy]. split; [by rewrite aset_length|]. intros k Hk.
    rewrite aget_aset_cases by lia. rewrite Hgy by done. repeat case_decide; try lia; done. }
  cbn [with_text text_area cursor_row cursor_col ports]. split; [done|]. do 3 (split; [done|]).
  intros row col Hr Hc. unfold at_cell at 1, scrolled. cbn [with_text text_area].
  rewrite Hg2 by lia. rewrite Hg by done. unfold at_cell. repeat case_decide; try lia; done.
Qed.

Lemma put_tab_cells v :
  video_wf v ->
  let stop := Z.min ((cursor_col v / 4 + 1) * 4) 80 in
  let v' := for_each (cursor_col v) stop
    (fun _ v => let v := write_cell v (cursor_row v) (cursor_col v) 32 in
                with_cursor v (cursor_row v) (cursor_col v +32 1)) v in
  zlen (text_area v') = 2000 /\ cursor_row v' = cursor_row v /\ cursor_col v' = stop /\
  ports v' = ports v /\
  same_cells v' (written (at_cell v) (cursor_row v) (cursor_col v) stop 32).
Proof.
  intros [Hl Hr Hc] stop v'. assert (Hs : cursor_col v < stop <= 80) by (unfold stop; div_lia).
  clearbody stop. subst v'.
  apply (for_each_inv (cursor_col v) stop _ v (fun n x => zlen (text_area x) = 2000 /\
    cursor_row x = cursor_row v /\ cursor_col x = n /\ ports x = ports v /\
    same_cells x (written (at_cell v) (cursor_row v) (cursor_col v) n 32))); [lia| |].
  - do 4 (split; [done|]). intros row col Hr' Hc'. unfold written. by rewrite decide_False by lia.
  - intros n x Hn (Hlx & Er & Ec & Ep & Hg). rewrite Er, Ec.
    destruct (write_cell_spec x (cursor_row v) n 32 Hlx Hr ltac:(lia)) as (H1 & H2 & H3 & H4 & H5).
    cbn [with_cursor text_area cursor_row cursor_col ports]. rewrite H3, Ec, u32_small by lia.
    split; [done|]. split; [congruence|]. split; [done|]. split; [congruence|].
    intros row col Hr' Hc'. unfold at_cell at 1. cbn [with_cursor text_area].
    change ((text_area (write_cell x (cursor_row v) n 32)).[row * 80 + col])
      with (at_cell (write_cell x (cursor_row v) n 32) row col).
    rewrite H5 by done. unfold written at 1. rewrite Hg by done. unfold written.
    repeat case_decide; try lia; done.
Qed.

(** The terminal a screen implements: rows and columns, no arithmetic limits. *)
Definition term : Type := (Z -> Z -> vga_char) * Z * Z.

Definition next_column (cells : Z -> Z -> vga_char) row col : term :=
  if col =? 80 then (cells, row + 1, 0) else (cells, row, col).

Definition term_move (s : term) c : term :=
  let '(cells, row, col) := s in
  if c =? 10 then (cells, row + 1, 0)
  else if c =? 8 then
    if 0 <? col then (written cells row (col - 1) col 32, row, col - 1)
    else if 3 <? row then (written cells (row - 1) 79 80 32, row - 1, 79)
    else (cells, row, col)
  else if c =? 9 then
    let stop := Z.min ((col / 4 + 1) * 4) 80 in
    next_column (written cells row col stop 32) row stop
  else next_column (written cells row col (col + 1) c) row (col + 1).

Definition term_put (s : term) c : term :=
  let '(cells, row, col) := term_move s c in
  if row =? 25 then (scrolled cells, 24, col) else (cells, row, col).

(** [v] shows the terminal [s]; the row may still have to be scrolled into view. *)
Definition shows v (s : term) : Prop :=
  let '(cells, row, col) := s in
  zlen (text_area v) = 2000 /\ cursor_row v = row /\ cursor_col v = col /\ same_cells v cells.

Lemma next_column_spec v cells row col :
  0 <= row < 25 -> 0 <= col <= 80 -> shows v (cells, row, col) ->
  shows (wrap_column v) (next_column cells row col) /\ ports (wrap_column v) = ports v.
Proof.
  intros Hr Hc (Hl & Er & Ec & Hg). unfold wrap_column, next_column, VGA_COLS. rewrite Ec.
  destruct (decide (col = 80)) as [->|Hne].
  - split; [|done]. split; [done|]. split; [|done]. cbn. rewrite Er. by apply u32_small; lia.
  - replace (col >=? 80) with false by lia. by replace (col =? 80) with false by lia.
Qed.

Lemma at_cell_cursor v r c row col : at_cell (with_cursor v r c) row col = at_cell v row col.
Proof. done. Qed.

Lemma shows_cursor v cells row col row' col' :
  shows v (cells, row, col) -> shows (with_cursor v row' col') (cells, row', col').
Proof. intros (Hl & _ & _ & Hg). by split. Qed.

Lemma shows_write v cells row col row' col' c :
  0 <= row' < 25 -> 0 <= col' < 80 -> shows v (cells, row, col) ->
  shows (write_cell v row' col' c) (written cells row' col' (col' + 1) c, row, col) /\
  ports (write_cell v row' col' c) = ports v.
Proof.
  intros Hr Hc (Hl & Er & Ec & Hg). destruct (write_cell_spec v row' col' c Hl Hr Hc) as (H1 & H2 & H3 & H4 & H5).
  split; [|done]. split; [done|]. split; [congruence|]. split; [congruence|].
  intros r k Hr' Hk. rewrite H5 by done. unfold written. by rewrite Hg by done.
Qed.

Definition put_move v c : video :=
  if c =? 10 then with_cursor v (cursor_row v +32 1) 0
  else if c =? 8 then
    if cursor_col v >? 0 then
      let v := with_cursor v (cursor_row v) (cursor_col v -32 1) in
      write_cell v (cursor_row v) (cursor_col v) 32
    else if cursor_row v >? INPUT_START_ROW then
      let v := with_cursor v (cursor_row v -32 1) (VGA_COLS - 1) in
      write_cell v (cursor_row v) (cursor_col v) 32
    else v
  else if c =? 9 then put_tab v
  else
    let v := write_cell v (cursor_row v) (cursor_col v) c in
    wrap_column (with_cursor v (cursor_row v) (cursor_col v +32 1)).

Lemma put_move_spec v c :
  video_wf v ->
  shows (put_move v c) (term_move (at_cell v, cursor_row v, cursor_col v) c) /\
  ports (put_move v c) = ports v /\
  0 <= cursor_row (put_move v c) <= 25 /\ 0 <= cursor_col (put_move v c) < 80.
Proof.
  intros Hw. pose proof Hw as [Hl Hr Hc]. unfold put_move, term_move, INPUT_START_ROW, VGA_COLS.
  assert (Hv : shows v (at_cell v, cursor_row v, cursor_col v)) by done.
  destruct (c =? 10); [|destruct (c =? 8)].
  - rewrite u32_small by lia. split; [by eapply shows_cursor|]. split; [done|]. cbn. lia.
  - rewrite !Z.gtb_ltb. destruct (0 <? cursor_col v) eqn:E0; bool_prop; [|destruct (3 <? cursor_row v) eqn:E3; bool_prop; [|split; [done|]; split; [done|lia]]].
    + rewrite u32_small by lia. cbn [with_cursor cursor_row cursor_col].
      destruct (shows_write (with_cursor v (cursor_row v) (cursor_col v - 1)) (at_cell v) (cursor_row v)
        (cursor_col v - 1) (cursor_row v) (cursor_col v - 1) 32 ltac:(lia) ltac:(lia)) as [Hs Hp];
        [by eapply shows_cursor|].
      replace (cursor_col v - 1 + 1) with (cursor_col v) in Hs by lia.
      split; [done|]. split; [done|]. destruct Hs as (_ & -> & -> & _). lia.
    + rewrite u32_small by lia. cbn [with_cursor cursor_row cursor_col]. change (80 - 1) with 79.
      destruct (shows_write (with_cursor v (cursor_row v - 1) 79) (at_cell v) (cursor_row v - 1)
        79 (cursor_row v - 1) 79 32 ltac:(lia) ltac:(lia)) as [Hs Hp]; [by eapply shows_cursor|].
      split; [done|]. split; [done|]. destruct Hs as (_ & -> & -> & _). lia.
  - assert (Hend : forall x s col, 0 < col <= 80 -> shows x (s, cursor_row v, col) -> ports x = ports v ->
      shows (wrap_column x) (next_column s (cursor_row v) col) /\ ports (wrap_column x) = ports v /\
      0 <= cursor_row (wrap_column x) <= 25 /\ 0 <= cursor_col (wrap_column x) < 80).
    { intros x s col Hcol Hx Hp. destruct (next_column_spec x s (cursor_row v) col Hr ltac:(lia) Hx) as [Hs Hp2].
      split; [done|]. split; [congruence|]. unfold next_column in Hs.
      destruct (col =? 80) eqn:E80; bool_prop; destruct Hs as (_ & -> & -> & _); lia. }
    destruct (c =? 9).
    + unfold put_tab, TAB_WIDTH, VGA_COLS. destruct (put_tab_cells v Hw) as (H1 & H2 & H3 & H4 & H5).
      apply Hend; [div_lia|done|done].
    + destruct (shows_write v (at_cell v) (cursor_row v) (cursor_col v) (cursor_row v) (cursor_col v) c Hr Hc Hv) as [Hs Hp].
      pose proof Hs as (_ & -> & -> & _). rewrite u32_small by lia.
      apply Hend; [lia|by eapply shows_cursor|done].
Qed.

Lemma scroll_into_view_spec v cells row col :
  0 <= row <= 25 -> shows v (cells, row, col) ->
  shows (scroll_into_view v) (if row =? 25 then (scrolled cells, 24, col) else (cells, row, col)) /\
  ports (scroll_into_view v) = ports v.
Proof.
  intros Hr (Hl & Er & Ec & Hg). unfold scroll_into_view, VGA_ROWS. rewrite Er.
  destruct (decide (row = 25)) as [->|Hne].
  - change (25 + 1) with 26. rewrite for_each_step by lia. change (25 + 1) with 26.
    rewrite for_each_empty by lia. change (25 =? 25) with true. cbv iota.
    destruct (scroll_up_spec v Hl) as (H1 & H2 & H3 & H4 & H5).
    cbn [with_cursor cursor_row cursor_col ports text_area shows].
    split; [|done]. split; [done|]. split; [by rewrite H2, Er|]. split; [congruence|].
    intros r k Hr' Hk. rewrite at_cell_cursor. rewrite H5 by done. unfold scrolled.
    repeat case_decide; try lia; try done; apply Hg; lia.
  - rewrite for_each_empty by lia. by replace (row =? 25) with false by lia.
Qed.

(** What the CRT controller is told: the low byte, then the high byte. *)
Definition cursor_ports (row col : Z) : list (Z * Z) :=
  [(VGA_CRTC_INDEX, VGA_CRTC_CURSOR_LOW); (VGA_CRTC_DATA, (row * 80 + col) mod 256);
   (VGA_CRTC_INDEX, VGA_CRTC_CURSOR_HIGH); (VGA_CRTC_DATA, (row * 80 + col) / 256)].

Lemma update_hardware_cursor_spec v :
  0 <= cursor_row v < 25 -> 0 <= cursor_col v < 80 ->
  text_area (update_hardware_cursor v) = text_area v /\
  cursor_row (update_hardware_cursor v) = cursor_row v /\
  cursor_col (update_hardware_cursor v) = cursor_col v /\
  ports (update_hardware_cursor v) = ports v ++ cursor_ports (cursor_row v) (cursor_col v).
Proof.
  intros Hr Hc. unfold update_hardware_cursor, VGA_COLS. cbn [outb text_area cursor_row cursor_col ports].
  rewrite !u32_small by (rewrite ?u32_small; lia). rewrite u16_small by lia.
  do 3 (split; [done|]). rewrite <- !(assoc_L (++)). unfold cursor_ports. cbn [app].
  change 255 with (Z.ones 8). rewrite !Z.land_ones, !Z.shiftr_div_pow2 by lia.
  change (2 ^ 8) with 256. rewrite (Z.mod_small (_ / 256)) by div_lia. done.
Qed.
End lemmas.

Section claims.

(** What one character does. *)
Lemma putchar_spec v c :
  video_wf v ->
  let v' := putchar_at_cursor v c in
  let '(cells, row, col) := term_put (at_cell v, cursor_row v, cursor_col v) c in
  video_wf v' /\ cursor_row v' = row /\ cursor_col v' = col /\ same_cells v' cells /\
  ports v' = ports v ++ cursor_ports row col /\
  (3 <= cursor_row v -> 3 <= row /\
     forall r k, 0 <= r < 3 -> 0 <= k < 80 -> at_cell v' r k = at_cell v r k).
Proof.
  intros Hw v'. destruct (put_move_spec v c Hw) as (Hs & Hp & Hr & Hc).
  unfold putchar_at_cursor in v'. fold (put_move v c) in v'. unfold term_put.
  assert (Htop : 3 <= cursor_row v ->
    let '(cells, row, col) := term_move (at_cell v, cursor_row v, cursor_col v) c in
    3 <= row /\ forall r k, 0 <= r < 3 -> cells r k = at_cell v r k).
  { intros H3. unfold term_move, next_column. clear -H3.
    repeat match goal with |- context [if ?b then _ else _] => destruct b eqn:?; bool_prop end;
      (split; [lia|intros r k Hrk; unfold written; rewrite ?decide_False by lia; done]). }
  destruct (term_move _ c) as [[cells row] col]. destruct Hs as (Hl & Er & Ec & Hg). rewrite Er in Hr.
  destruct (scroll_into_view_spec (put_move v c) cells row col Hr) as [Hs2 Hp2]; [done|].
  set (s := if row =? 25 then _ else _) in *.
  assert (Hbound : let '(_, row', col') := s in 0 <= row' < 25 /\ col' = col).
  { unfold s. destruct (row =? 25) eqn:E25; bool_prop; lia. }
  assert (Htop2 : 3 <= cursor_row v -> let '(cells', row', _) := s in 3 <= row' /\
    forall r k, 0 <= r < 3 -> cells' r k = at_cell v r k).
  { intros H3. destruct (Htop H3) as [H3' Hcells]. unfold s. destruct (row =? 25); (split; [lia|]); [|done].
    intros r k Hrk. unfold scrolled. rewrite !decide_False by lia. by apply Hcells. }
  destruct s as [[cells' row'] col']. destruct Hs2 as (Hl2 & Er2 & Ec2 & Hg2). destruct Hbound as [Hr' ->].
  destruct (update_hardware_cursor_spec (scroll_into_view (put_move v c))) as (E1 & E2 & E3 & E4); [lia|lia|].
  fold v' in E1, E2, E3, E4. rewrite Er2 in E2. rewrite Ec2 in E3.
  assert (Hcells : same_cells v' cells') by (intros r k Hr1 Hk; unfold at_cell; rewrite E1; by apply Hg2).
  split; [by split; rewrite ?E1, ?E2, ?E3; [|lia|lia]|]. split; [done|]. split; [done|]. split; [done|].
  split; [by rewrite E4, Hp2, Hp, Er2, Ec2|]. intros H3. destruct (Htop2 H3) as [H3' Htc].
  split; [done|]. intros r k Hr1 Hk. rewrite Hcells by lia. by apply Htc.
Qed.

(** C11: [putchar_at_cursor] implements a terminal of 25 rows and 80 columns whose
    first three rows never scroll: newline, backspace (also onto the row before),
    tab to the next stop of 4, and a printed character that wraps at column 80;
    the screen scrolls exactly when the cursor leaves the last row, every write
    stays on the screen, and the hardware cursor is told the final position. *)
Theorem putchar_refines_terminal v c :
  video_wf v ->
  let v' := putchar_at_cursor v c in
  let '(cells, row, col) := term_put (at_cell v, cursor_row v, cursor_col v) c in
  video_wf v' /\ cursor_row v' = row /\ cursor_col v' = col /\ same_cells v' cells /\
  ports v' = ports v ++ cursor_ports row col /\
  (3 <= cursor_row v -> 3 <= row /\
     forall r k, 0 <= r < 3 -> 0 <= k < 80 -> at_cell v' r k = at_cell v r k).
Proof. apply putchar_spec. Qed.

Definition demo_video : video := mk_video (replicate 2000 (cell 32)) 24 79 [].

Lemma putchar_refines_terminal_witness :
  let v' := putchar_at_cursor demo_video 65 in
  let '(cells, row, col) := term_put (at_cell demo_video, cursor_row demo_video, cursor_col demo_video) 65 in
  video_wf v' /\ cursor_row v' = row /\ cursor_col v' = col /\ same_cells v' cells /\
  ports v' = ports demo_video ++ cursor_ports row col /\
  (3 <= cursor_row demo_video -> 3 <= row /\
     forall r k, 0 <= r < 3 -> 0 <= k < 80 -> at_cell v' r k = at_cell demo_video r k).
Proof.
  apply (putchar_refines_terminal demo_video 65).
  split; [reflexivity|split; [discriminate|reflexivity]|split; [discriminate|reflexivity]].
Defined.
End claims.
