(* ===== verification/Keyboard.v ===== *)
(** The keyboard of [kernel/drivers/keyboard]: the interrupt handler, the Turkish
    layout and the blocking read of a character. *)
From S2P Require Import Prelude RingBuffer Thread Pipe.

Definition SCANCODE_LSHIFT : Z := 0x2A.
Definition SCANCODE_RSHIFT : Z := 0x36.
Definition SCANCODE_RELEASE_BIT : Z := 0x80.
Definition SCANCODE_LSHIFT_UP : Z := Z.lor SCANCODE_LSHIFT 0x80.
Definition SCANCODE_RSHIFT_UP : Z := Z.lor SCANCODE_RSHIFT 0x80.
Definition KBD_BUFFER_SIZE : Z := 256.

(** * The layout *)

(** Scan code and UTF-8 bytes; the other entries of the array are null. *)
Definition scancode_to_str : list (Z * list Z) :=
  [(1, [27]); (2, [49]); (3, [50]); (4, [51]); (5, [52]); (6, [53]); (7, [54]); (8, [55]);
   (9, [56]); (10, [57]); (11, [48]); (12, [42]); (13, [45]); (14, [8]); (15, [9]); (16, [113]);
   (17, [119]); (18, [101]); (19, [114]); (20, [116]); (21, [121]); (22, [117]);
   (23, [196; 177]); (24, [111]); (25, [112]); (26, [196; 159]); (27, [195; 188]); (28, [10]);
   (30, [97]); (31, [115]); (32, [100]); (33, [102]); (34, [103]); (35, [104]); (36, [106]);
   (37, [107]); (38, [108]); (39, [197; 159]); (40, [105]); (41, [34]); (43, [44]); (44, [122]);
   (45, [120]); (46, [99]); (47, [118]); (48, [98]); (49, [110]); (50, [109]); (51, [195; 182]);
   (52, [195; 167]); (53, [46]); (55, [42]); (57, [32]); (74, [45]); (78, [43]); (86, [60])].

Definition scancode_to_str_shifted : list (Z * list Z) :=
  [(1, [27]); (2, [33]); (3, [39]); (4, [94]); (5, [43]); (6, [37]); (7, [38]); (8, [47]);
   (9, [40]); (10, [41]); (11, [61]); (12, [63]); (13, [95]); (14, [8]); (15, [9]); (16, [81]);
   (17, [87]); (18, [69]); (19, [82]); (20, [84]); (21, [89]); (22, [85]); (23, [73]);
   (24, [79]); (25, [80]); (26, [196; 158]); (27, [195; 156]); (28, [10]); (30, [65]);
   (31, [83]); (32, [68]); (33, [70]); (34, [71]); (35, [72]); (36, [74]); (37, [75]);
   (38, [76]); (39, [197; 158]); (40, [196; 176]); (41, [195; 169]); (43, [59]); (44, [90]);
   (45, [88]); (46, [67]); (47, [86]); (48, [66]); (49, [78]); (50, [77]); (51, [195; 150]);
   (52, [195; 135]); (53, [58]); (55, [42]); (57, [32]); (74, [45]); (78, [43]); (86, [62])].

Definition layout_entry (table : list (Z * list Z)) (scancode : Z) : option (list Z) :=
  snd <$> find (fun e => e.1 =? scancode) table.

Definition keyboard_layout_translate (scancode : Z) (shifted : bool) : option (list Z) :=
  if scancode >=? 128 then None
  else layout_entry (if shifted then scancode_to_str_shifted else scancode_to_str) scancode.

(** * The driver *)

Record keyboard := mk_keyboard {
  shift_held : bool;
  kbd_buffer : ring_buffer_t;
}.

(** [keyboard_driver_init] *)
Definition keyboard_driver_init (k : keyboard) (kbd_storage : list Z) : keyboard :=
  mk_keyboard (shift_held k) (ring_buffer_init kbd_storage KBD_BUFFER_SIZE).

Section model.
Context {K : Type} `{SchedEnv K}.
(** The address of [kbd_wait_channel]. *)
Context (kbd_wait_channel : Z).
Implicit Types (k : keyboard) (s : sched K).

Definition kbd_read_char k : keyboard * option Z :=
  let (b, c) := ring_buffer_pop (kbd_buffer k) in (mk_keyboard (shift_held k) b, c).

(** One turn of the loop of [kbd_getchar]. *)
Definition kbd_getchar k s : keyboard * sched K * turn Z :=
  let (b, c) := ring_buffer_pop (kbd_buffer k) in
  match c with
  | Some c => (mk_keyboard (shift_held k) b, s, Returned c)
  | None =>
      let (s, halted) := sched_sleep s kbd_wait_channel in
      (mk_keyboard (shift_held k) b, s, Slept halted)
  end.

Definition push_seq (b : ring_buffer_t) (seq : list Z) : ring_buffer_t :=
  foldl (fun b c => (ring_buffer_push b c).1) b seq.

(** [scancode] is what the controller's data port gives. *)
Definition keyboard_irq_handler k s (scancode : Z) : keyboard * sched K :=
  if (scancode =? SCANCODE_LSHIFT) || (scancode =? SCANCODE_RSHIFT) then
    (mk_keyboard true (kbd_buffer k), s)
  else if (scancode =? SCANCODE_LSHIFT_UP) || (scancode =? SCANCODE_RSHIFT_UP) then
    (mk_keyboard false (kbd_buffer k), s)
  else if negb (Z.land scancode SCANCODE_RELEASE_BIT =? 0) then (k, s)
  else
    match keyboard_layout_translate scancode (shift_held k) with
    | None => (k, s)
    | Some seq =>
        (mk_keyboard (shift_held k) (push_seq (kbd_buffer k) seq), sched_wakeup s kbd_wait_channel)
    end.
End model.

(** * What a keyboard promises: a bounded queue of bytes *)

Definition keyboard_wf (k : keyboard) : Prop :=
  rb_wf (kbd_buffer k) /\ capacity (kbd_buffer k) = 256.

Definition typed (k : keyboard) : list Z := rb_contents (kbd_buffer k).

(** What one scan code does to the shift state and to the waiting bytes; [true]:
    the sleepers are woken. *)
Definition key_effect (shift : bool) (q : list Z) (scancode : Z) : bool * list Z * bool :=
  if (scancode =? 0x2A) || (scancode =? 0x36) then (true, q, false)
  else if (scancode =? 0xAA) || (scancode =? 0xB6) then (false, q, false)
  else if scancode >=? 128 then (shift, q, false)
  else
    match layout_entry (if shift then scancode_to_str_shifted else scancode_to_str) scancode with
    | None => (shift, q, false)
    | Some seq => (shift, take 255 (q ++ seq), true)
    end.

Section lemmas.
Implicit Types (k : keyboard) (b : ring_buffer_t) (seq q : list Z).

Lemma take_full (l : list Z) (n : nat) c : length l = n -> take n (l ++ [c]) = l.
Proof. intros <-. apply take_app_length. Qed.

Lemma push_one b c :
  rb_wf b -> capacity b = 256 ->
  let b' := (ring_buffer_push b c).1 in
  rb_wf b' /\ capacity b' = 256 /\ rb_contents b' = take 255 (rb_contents b ++ [c]).
Proof.
  intros Hw Hc b'. split; [by apply ring_buffer_push_wf|].
  pose proof (rb_contents_length b Hw) as Hl. pose proof (rb_count_bounds b Hw) as Hb. rewrite Hc in Hb.
  destruct (decide (rb_count b < 255)) as [Hlt|Hge].
  - split.
    + unfold b', ring_buffer_push. by destruct (_ =? _).
    + unfold b'. rewrite rb_push_contents by first [done|lia]. symmetry. apply take_ge.
      rewrite length_app. unfold zlen in Hl. simpl. lia.
  - assert (Hfull : u32 (head b + 1) mod capacity b = tail b) by (apply rb_full_iff; [done|lia]).
    assert (Eb : b' = b) by (unfold b', ring_buffer_push; by rewrite Hfull, Z.eqb_refl).
    rewrite Eb. split; [done|]. symmetry. apply take_full. unfold zlen in Hl. lia.
Qed.

Lemma push_seq_spec b seq :
  rb_wf b -> capacity b = 256 ->
  rb_wf (push_seq b seq) /\ capacity (push_seq b seq) = 256 /\
  rb_contents (push_seq b seq) = take 255 (rb_contents b ++ seq).
Proof.
  revert b. induction seq as [|c seq IH]; intros b Hw Hc; cbn [push_seq foldl].
  - split; [done|]. split; [done|]. rewrite app_nil_r. symmetry. apply take_ge.
    pose proof (rb_contents_length b Hw) as Hl. pose proof (rb_count_bounds b Hw). unfold zlen in Hl. lia.
  - destruct (push_one b c Hw Hc) as (Hw' & Hc' & Hq). fold (push_seq (ring_buffer_push b c).1 seq).
    destruct (IH _ Hw' Hc') as (H1 & H2 & H3). split; [done|]. split; [done|]. rewrite H3, Hq.
    replace (rb_contents b ++ c :: seq) with ((rb_contents b ++ [c]) ++ seq) by by rewrite <- (assoc_L (++)).
    set (l := rb_contents b ++ [c]). destruct (decide (length l <= 255)%nat).
    + by rewrite (take_ge l) by lia.
    + rewrite !take_app. rewrite length_take, take_take.
      replace (255 - 255 `min` length l)%nat with 0%nat by lia.
      replace (255 - length l)%nat with 0%nat by lia. by replace (255 `min` 255)%nat with 255%nat by lia.
Qed.
End lemmas.

Section claims.
Context {K : Type} `{E : SchedEnv K}.
Context (chan : Z).
Implicit Types (k : keyboard) (s : sched K) (q : list Z).

Inductive kbd_op := KeyIrq (scancode : Z) | KbdGet.

(** A run of interrupts and of turns of [kbd_getchar], with what the turns gave. *)
Definition kbd_run_op (st : keyboard * sched K * list (option Z)) (op : kbd_op) :
    keyboard * sched K * list (option Z) :=
  let '(k, s, out) := st in
  match op with
  | KeyIrq sc => let (k, s) := keyboard_irq_handler chan k s sc in (k, s, out)
  | KbdGet =>
      let '(k, s, t) := kbd_getchar chan k s in
      (k, s, out ++ [match t with Returned c => Some c | Slept _ => None end])
  end.

(** The same on the shift state and a queue of at most 255 bytes. *)
Definition queue_run_op (st : bool * list Z * list (option Z)) (op : kbd_op) :
    bool * list Z * list (option Z) :=
  let '(shift, q, out) := st in
  match op with
  | KeyIrq sc => let '(shift, q, _) := key_effect shift q sc in (shift, q, out)
  | KbdGet => match q with [] => (shift, [], out ++ [None]) | c :: q => (shift, q, out ++ [Some c]) end
  end.

Definition op_byte (op : kbd_op) : Prop :=
  match op with KeyIrq sc => 0 <= sc < 256 | KbdGet => True end.

Lemma release_bit sc : 0 <= sc < 256 -> negb (Z.land sc SCANCODE_RELEASE_BIT =? 0) = (sc >=? 128).
Proof.
  intros Hsc. unfold SCANCODE_RELEASE_BIT. change 0x80 with (2 ^ 7).
  rewrite land_pow2_eqb, negb_involutive by lia. rewrite Z.testbit_odd, Z.shiftr_div_pow2 by lia.
  change (2 ^ 7) with 128. rewrite Z.geb_leb. destruct (128 <=? sc) eqn:E0; bool_prop.
  - by replace (sc / 128) with 1 by div_lia.
  - by rewrite Z.div_small by lia.
Qed.

Lemma keyboard_irq_spec k s sc :
  keyboard_wf k -> 0 <= sc < 256 ->
  let '(shift, q, wake) := key_effect (shift_held k) (typed k) sc in
  let r := keyboard_irq_handler chan k s sc in
  keyboard_wf r.1 /\ shift_held r.1 = shift /\ typed r.1 = q /\
  r.2 = if wake then sched_wakeup s chan else s.
Proof.
  intros Hw Hsc. unfold key_effect, keyboard_irq_handler.
  change SCANCODE_LSHIFT with 0x2A. change SCANCODE_RSHIFT with 0x36.
  change SCANCODE_LSHIFT_UP with 0xAA. change SCANCODE_RSHIFT_UP with 0xB6.
  rewrite release_bit by done. unfold keyboard_layout_translate.
  destruct (_ || _); [done|]. destruct (_ || _); [done|]. destruct (sc >=? 128); [done|].
  destruct (layout_entry _ sc) as [seq|]; [|done]. destruct Hw as [Hb Hc].
  destruct (push_seq_spec (kbd_buffer k) seq Hb Hc) as (H1 & H2 & H3). by split.
Qed.

Lemma kbd_getchar_spec k s :
  keyboard_wf k ->
  (typed k = [] /\ kbd_getchar chan k s = (k, (sched_sleep s chan).1, Slept (sched_sleep s chan).2)) \/
  exists c k', kbd_getchar chan k s = (k', s, Returned c) /\ typed k = c :: typed k' /\
    keyboard_wf k' /\ shift_held k' = shift_held k.
Proof.
  intros [Hb Hc]. unfold kbd_getchar. destruct (decide (tail (kbd_buffer k) = head (kbd_buffer k))) as [He|Hne].
  - left. split.
    + unfold typed, rb_contents, rb_count. by rewrite He, Z.sub_diag, Z.mod_0_l by lia.
    + unfold ring_buffer_pop. rewrite He, Z.eqb_refl. destruct (sched_sleep s chan). by destruct k.
  - right. pose proof (rb_pop_contents _ Hb Hne) as Hp. pose proof (ring_buffer_pop_wf _ Hb) as Hw'.
    unfold ring_buffer_pop in *. replace (tail (kbd_buffer k) =? head (kbd_buffer k)) with false in * by lia.
    eexists _, _. split; [reflexivity|]. split; [exact Hp|]. by split.
Qed.

(** C12: the keyboard is a queue: under any interleaving of key interrupts and of
    [kbd_getchar] turns, readers get the bytes of the translated keys in typing
    order, shift as held at each press, a reader sleeps exactly when nothing is
    waiting, and bytes are dropped only when 255 are waiting already. *)
Theorem keyboard_refines_queue k s ops :
  keyboard_wf k -> Forall op_byte ops ->
  let '(k', _, out) := foldl kbd_run_op (k, s, []) ops in
  keyboard_wf k' /\
  (shift_held k', typed k', out) = foldl queue_run_op (shift_held k, typed k, []) ops.
Proof.
  intros Hw Hops. revert Hw. generalize (@nil (option Z)). revert k s.
  induction Hops as [|op ops Hop _ IH]; intros k s out Hw; cbn [foldl]; [done|].
  destruct op as [sc|]; cbn [kbd_run_op queue_run_op op_byte] in *.
  - pose proof (keyboard_irq_spec k s sc Hw Hop) as Hk.
    destruct (key_effect (shift_held k) (typed k) sc) as [[shift q] wake].
    destruct (keyboard_irq_handler chan k s sc) as [k' s']. cbn [fst snd] in Hk.
    destruct Hk as (Hw' & <- & <- & _). by apply IH.
  - destruct (kbd_getchar_spec k s Hw) as [[Hq ->]|(c & k' & -> & Hq & Hw' & Hs)].
    + rewrite Hq. specialize (IH k (sched_sleep s chan).1 (out ++ [None]) Hw). by rewrite Hq in IH.
    + rewrite Hq, <- Hs. by apply IH.
Qed.
End claims.

Definition demo_keyboard : keyboard :=
  keyboard_driver_init (mk_keyboard false (ring_buffer_init [] 1)) (replicate 256 0).

Lemma demo_keyboard_wf : keyboard_wf demo_keyboard.
Proof. split; [|done]. split; [done|]. split; [done|]. by split. Qed.

(** Shift down, a, shift up, dotless i, read, read, read. *)
Definition demo_keys : list kbd_op :=
  [KbdGet; KeyIrq 0x2A; KeyIrq 0x1E; KeyIrq 0xAA; KeyIrq 0x17; KbdGet; KbdGet; KbdGet].

Lemma demo_keys_ok : Forall op_byte demo_keys.
Proof. repeat (constructor; [simpl; lia|]). constructor. Qed.

Lemma keyboard_refines_queue_witness :
  let '(k', _, out) := foldl (kbd_run_op 4096) (demo_keyboard, demo_sched, []) demo_keys in
  keyboard_wf k' /\
  (shift_held k', typed k', out) =
    foldl queue_run_op (shift_held demo_keyboard, typed demo_keyboard, []) demo_keys.
Proof.
  exact (keyboard_refines_queue 4096 demo_keyboard demo_sched demo_keys demo_keyboard_wf demo_keys_ok).
Defined.
