(* ===== verification/Fd.v ===== *)
(** File descriptors, [kernel/core/fd.c]: opening by name, reading and writing
    through the descriptor table of the running thread, and the uid checks. *)
From S2P Require Import Prelude CString RingBuffer Alloc Heap Memfs Blk Ufs UfsSpec Thread Pipe Video Keyboard.

Definition FD_CREATE : Z := 1.
Definition FD_PERSIST : Z := 2.
Definition FD_TRUNC : Z := 4.

(** What the descriptors reach: the scheduler and its table, the pipes, the
    console's two halves and the two file systems. *)
Record io_state (K D H : Type) := mk_io {
  io_sched : sched K;
  io_pipes : list pipe_t;
  io_keyboard : keyboard;
  io_video : video;
  io_ufs : ufs D;
  io_memfs : memfs H;
}.
Arguments mk_io {K D H}.
Arguments io_sched {K D H}.
Arguments io_pipes {K D H}.
Arguments io_keyboard {K D H}.
Arguments io_video {K D H}.
Arguments io_ufs {K D H}.
Arguments io_memfs {K D H}.

(** How a read or a write ends: with a result, or asleep, to go on later from
    byte [from] ([true]: halted). *)
Inductive io_turn :=
  | IoReturned (r : Z)
  | IoSlept (from : Z) (halted : bool).

(** * The model *)

Section cleanup.
Context {K : Type} `{SchedEnv K}.
Context (pipes_addr : Z).
Implicit Types (ps : list pipe_t) (s : sched K).

Definition release_slot ps s (slot : fd_slot_t) : list pipe_t * sched K :=
  if fd_kind slot =? FD_KIND_PIPE_READ then pipe_close_reader pipes_addr ps s (fd_handle slot)
  else if fd_kind slot =? FD_KIND_PIPE_WRITE then pipe_close_writer pipes_addr ps s (fd_handle slot)
  else (ps, s).

Definition fd_cleanup_thread ps s (tid : Z) : list pipe_t * sched K :=
  for_each 0 THREAD_MAX_FDS
    (fun fd '(ps, s) =>
       match sched_fd_get_for s tid fd with
       | Some slot => release_slot ps s slot
       | None => (ps, s)
       end) (ps, s).
End cleanup.

Section model.
Context {K D H : Type} `{SchedEnv K} `{BlockDev D} `{Allocator H}.
(** The wait channels: the pipe table and the keyboard's. *)
Context (pipes_addr kbd_channel : Z).
Implicit Types (f : io_state K D H) (fd : Z) (name buf : list Z).

Definition with_sched f (s : sched K) : io_state K D H :=
  mk_io s (io_pipes f) (io_keyboard f) (io_video f) (io_ufs f) (io_memfs f).
Definition with_pipes f (ps : list pipe_t) : io_state K D H :=
  mk_io (io_sched f) ps (io_keyboard f) (io_video f) (io_ufs f) (io_memfs f).
Definition with_keyboard f (k : keyboard) : io_state K D H :=
  mk_io (io_sched f) (io_pipes f) k (io_video f) (io_ufs f) (io_memfs f).
Definition with_video f (v : video) : io_state K D H :=
  mk_io (io_sched f) (io_pipes f) (io_keyboard f) v (io_ufs f) (io_memfs f).
Definition with_ufs f (u : ufs D) : io_state K D H :=
  mk_io (io_sched f) (io_pipes f) (io_keyboard f) (io_video f) u (io_memfs f).
Definition with_memfs f (m : memfs H) : io_state K D H :=
  mk_io (io_sched f) (io_pipes f) (io_keyboard f) (io_video f) (io_ufs f) m.

Definition current_uid f : Z := sched_get_uid (io_sched f) (sched_current_tid (io_sched f)).

(** [me] may use the file under [mask] of its permission bits. *)
Definition allowed f (handle mask : Z) : bool :=
  (current_uid f =? ufs_owner (io_ufs f) handle) ||
  negb (Z.land (ufs_perm (io_ufs f) handle) mask =? 0).

Definition open_slot f (kind handle : Z) : io_state K D H * Z :=
  let (s, fd) := sched_fd_open (io_sched f) kind handle in (with_sched f s, fd).

Definition fd_open_persist f name (flags : Z) : io_state K D H * Z :=
  let handle := ufs_find (io_ufs f) name in
  if handle <? 0 then
    if Z.land flags FD_CREATE =? 0 then (f, -1)
    else
      let (u, handle) := ufs_create (io_ufs f) name (current_uid f) in
      let f := with_ufs f u in
      if handle <? 0 then (f, -1) else open_slot f FD_KIND_UFS handle
  else if negb (allowed f handle UFS_PERM_OTHER_READ) then (f, -1)
  else if negb (Z.land flags FD_TRUNC =? 0) then
    if negb (allowed f handle UFS_PERM_OTHER_WRITE) then (f, -1)
    else open_slot (with_ufs f (ufs_truncate (io_ufs f) handle 0).1) FD_KIND_UFS handle
  else open_slot f FD_KIND_UFS handle.

Definition fd_open f name (flags : Z) : option (io_state K D H * Z) :=
  if negb (Z.land flags FD_PERSIST =? 0) then Some (fd_open_persist f name flags)
  else
    let handle := memfs_find (io_memfs f) name in
    if handle <? 0 then
      if Z.land flags FD_CREATE =? 0 then Some (f, -1)
      else
        '(m, handle) ← memfs_create (io_memfs f) name;
        let f := with_memfs f m in
        if handle <? 0 then Some (f, -1) else Some (open_slot f FD_KIND_MEMFS handle)
    else Some (open_slot f FD_KIND_MEMFS handle).

Definition fd_close f fd : io_state K D H * Z :=
  match sched_fd_get (io_sched f) fd with
  | None => (f, -1)
  | Some slot =>
      let (ps, s) := release_slot pipes_addr (io_pipes f) (io_sched f) slot in
      let (s, r) := sched_fd_close s fd in
      (with_sched (with_pipes f ps) s, r)
  end.

(** [slot->cursor += n] *)
Definition advance_cursor f fd (n : Z) : io_state K D H :=
  with_sched f (on_thread (io_sched f) (current_thread (io_sched f)) (fun t =>
    let slot := (fds t).[fd] in
    set_fds ((fds t).[fd <- mk_fd (fd_kind slot) (fd_handle slot) (fd_cursor slot +32 n)]) t)).

Definition after_file f fd (n : Z) : io_state K D H * io_turn :=
  (if n >? 0 then advance_cursor f fd n else f, IoReturned n).

(** The console loop of [fd_read] from byte [from], up to its end or a sleep. *)
Definition console_read f buf (from len : Z) : io_state K D H * list Z * io_turn :=
  match for_range from len
    (fun i '(f, buf) =>
       let '(k, s, t) := kbd_getchar kbd_channel (io_keyboard f) (io_sched f) in
       let f := with_keyboard (with_sched f s) k in
       match t with
       | Returned c => inl (f, buf.[i <- c])
       | Slept halted => inr (f, buf, i, halted)
       end) (f, buf) with
  | inl (f, buf) => (f, buf, IoReturned (s64 len))
  | inr (f, buf, i, halted) => (f, buf, IoSlept i halted)
  end.

(** The first turn of [fd_read]; after a sleep the call goes on with
    [console_read] or [pipe_read]. *)
Definition fd_read f fd buf (len : Z) : option (io_state K D H * list Z * io_turn) :=
  match sched_fd_get (io_sched f) fd with
  | None => Some (f, buf, IoReturned (-1))
  | Some slot =>
      if fd_kind slot =? FD_KIND_CONSOLE then Some (console_read f buf 0 len)
      else if fd_kind slot =? FD_KIND_PIPE_READ then
        let '(ps, s, buf, t) :=
          pipe_read pipes_addr (io_pipes f) (io_sched f) (fd_handle slot) buf (u32 len) in
        Some (with_sched (with_pipes f ps) s, buf,
              match t with Returned n => IoReturned n | Slept halted => IoSlept 0 halted end)
      else if fd_kind slot =? FD_KIND_UFS then
        if negb (allowed f (fd_handle slot) UFS_PERM_OTHER_READ) then Some (f, buf, IoReturned (-1))
        else
          '(u, buf, n) ← ufs_read_at (io_ufs f) (fd_handle slot) (fd_cursor slot) buf (u32 len);
          let (f, t) := after_file (with_ufs f u) fd n in
          Some (f, buf, t)
      else if fd_kind slot =? FD_KIND_MEMFS then
        let (buf, n) := memfs_read_at (io_memfs f) (fd_handle slot) (fd_cursor slot) buf (u32 len) in
        let (f, t) := after_file f fd n in
        Some (f, buf, t)
      else Some (f, buf, IoReturned (-1))
  end.

Definition fd_write f fd buf (len : Z) : option (io_state K D H * io_turn) :=
  match sched_fd_get (io_sched f) fd with
  | None => Some (f, IoReturned (-1))
  | Some slot =>
      if fd_kind slot =? FD_KIND_CONSOLE then
        Some (with_video f (for_each 0 len (fun i v => putchar_at_cursor v buf.[i]) (io_video f)),
              IoReturned (s64 len))
      else if fd_kind slot =? FD_KIND_PIPE_WRITE then
        let '(ps, s, t) :=
          pipe_write pipes_addr (io_pipes f) (io_sched f) (fd_handle slot) buf (u32 len) in
        Some (with_sched (with_pipes f ps) s,
              match t with Returned n => IoReturned n | Slept halted => IoSlept 0 halted end)
      else if fd_kind slot =? FD_KIND_UFS then
        if negb (allowed f (fd_handle slot) UFS_PERM_OTHER_WRITE) then Some (f, IoReturned (-1))
        else
          '(u, n) ← ufs_write_at (io_ufs f) (fd_handle slot) (fd_cursor slot) buf (u32 len);
          Some (after_file (with_ufs f u) fd n)
      else if fd_kind slot =? FD_KIND_MEMFS then
        '(m, n) ← memfs_write_at (io_memfs f) (fd_handle slot) (fd_cursor slot) buf (u32 len);
        Some (after_file (with_memfs f m) fd n)
      else Some (f, IoReturned (-1))
  end.
End model.

(** * What each call does to the file system *)

Section access.
Context {K D H : Type} `{SchedEnv K} {B : BlockDev D} {L : BlockDevLaws D} `{Allocator H}.
Context (pipes_addr kbd_channel : Z).
Implicit Types (f : io_state K D H) (u : ufs D) (fd h me : Z) (name buf : list Z).

Lemma ufs_perm_valid u h : handle_valid u h = true -> ufs_perm u h = de_perm (dirent_at (directory u) h).
Proof. intros Hv. unfold ufs_perm. by rewrite Hv. Qed.

Lemma ufs_owner_valid u h : handle_valid u h = true -> ufs_owner u h = de_owner (dirent_at (directory u) h).
Proof. intros Hv. unfold ufs_owner. by rewrite Hv. Qed.

Lemma open_slot_ufs f kind handle : io_ufs (open_slot f kind handle).1 = io_ufs f.
Proof. unfold open_slot. by destruct (sched_fd_open _ _ _). Qed.

Lemma after_file_ufs f fd n : io_ufs (after_file f fd n).1 = io_ufs f.
Proof. unfold after_file. cbn [fst]. by destruct (_ >? _). Qed.

Lemma console_read_ufs f buf from len : io_ufs (console_read kbd_channel f buf from len).1.1 = io_ufs f.
Proof.
  unfold console_read. destruct (decide (from <= len)) as [Hl|Hl].
  2:{ unfold for_range. by replace (Z.to_nat (len - from)) with O by lia. }
  apply (for_range_cases from len _ (f, buf) (fun _ x => io_ufs x.1 = io_ufs f)
    (fun r => io_ufs (match r with
      | inl (f, buf) => (f, buf, IoReturned (s64 len))
      | inr (f, buf, i, halted) => (f, buf, IoSlept i halted) end).1.1 = io_ufs f)); [lia|done| |].
  - intros i [g b] Hi Hg. destruct (kbd_getchar _ _ _) as [[k s] [c|halted]]; exact Hg.
  - intros [g b] Hg. exact Hg.
Qed.

Lemma fd_close_effect f fd : io_ufs (fd_close pipes_addr f fd).1 = io_ufs f.
Proof.
  unfold fd_close. destruct (sched_fd_get _ _); [|done].
  destruct (release_slot _ _ _ _). by destruct (sched_fd_close _ _).
Qed.

Lemma fd_write_effect f fd buf len r :
  fd_write pipes_addr f fd buf len = Some r ->
  io_ufs r.1 = io_ufs f \/
  exists slot n, sched_fd_get (io_sched f) fd = Some slot /\ fd_kind slot = FD_KIND_UFS /\
    allowed f (fd_handle slot) UFS_PERM_OTHER_WRITE = true /\
    ufs_write_at (io_ufs f) (fd_handle slot) (fd_cursor slot) buf (u32 len) = Some (io_ufs r.1, n).
Proof.
  unfold fd_write. destruct (sched_fd_get _ _) as [slot|]; [|intros [= <-]; by left].
  destruct (_ =? FD_KIND_CONSOLE); [intros [= <-]; by left|].
  destruct (_ =? FD_KIND_PIPE_WRITE).
  { destruct (pipe_write _ _ _ _ _ _) as [[ps s] t]. intros [= <-]. by left. }
  destruct (fd_kind slot =? FD_KIND_UFS) eqn:Ek; bool_prop.
  - destruct (allowed _ _ _) eqn:Ea; cbn [negb]; [|intros [= <-]; by left].
    destruct (ufs_write_at _ _ _ _ _) as [[u n]|] eqn:Ew; cbn [mbind option_bind]; [|done].
    intros [= <-]. right. exists slot, n. rewrite after_file_ufs. done.
  - destruct (_ =? FD_KIND_MEMFS); [|intros [= <-]; by left].
    destruct (memfs_write_at _ _ _ _ _) as [[m n]|]; cbn [mbind option_bind]; [|done].
    intros [= <-]. left. by rewrite after_file_ufs.
Qed.

Lemma fd_read_effect f fd buf len r :
  fd_read pipes_addr kbd_channel f fd buf len = Some r ->
  io_ufs r.1.1 = io_ufs f \/
  exists slot out n, sched_fd_get (io_sched f) fd = Some slot /\ fd_kind slot = FD_KIND_UFS /\
    allowed f (fd_handle slot) UFS_PERM_OTHER_READ = true /\
    ufs_read_at (io_ufs f) (fd_handle slot) (fd_cursor slot) buf (u32 len) = Some (io_ufs r.1.1, out, n).
Proof.
  unfold fd_read. destruct (sched_fd_get _ _) as [slot|]; [|intros [= <-]; by left].
  destruct (_ =? FD_KIND_CONSOLE).
  { intros [= <-]. left. by apply console_read_ufs. }
  destruct (_ =? FD_KIND_PIPE_READ).
  { destruct (pipe_read _ _ _ _ _ _) as [[[ps s] b] t]. intros [= <-]. by left. }
  destruct (fd_kind slot =? FD_KIND_UFS) eqn:Ek; bool_prop.
  - destruct (allowed _ _ _) eqn:Ea; cbn [negb]; [|intros [= <-]; by left].
    destruct (ufs_read_at _ _ _ _ _) as [[[u out] n]|] eqn:Ew; cbn [mbind option_bind]; [|done].
    destruct (after_file (with_ufs f u) fd n) as [g t] eqn:Eg. intros [= <-]. right. exists slot, out, n.
    cbn [fst]. replace (io_ufs g) with u; [done|].
    pose proof (after_file_ufs (with_ufs f u) fd n) as Ha. rewrite Eg in Ha. done.
  - destruct (_ =? FD_KIND_MEMFS); [|intros [= <-]; by left].
    destruct (memfs_read_at _ _ _ _ _) as [out n].
    destruct (after_file f fd n) as [g t] eqn:Eg. intros [= <-]. left. cbn [fst].
    pose proof (after_file_ufs f fd n) as Ha. by rewrite Eg in Ha.
Qed.

(** * Files of others *)

(** A call by a thread whose uid is not [owner], or anything that leaves the files
    alone (scheduling, interrupts, other devices).  A write of nothing past the
    end of its file is left out, it breaks the extents. *)
Inductive outsider_call (owner : Z) f : io_state K D H -> Prop :=
  | CallOpen name flags r : current_uid f <> owner -> bytes_ok name ->
      fd_open f name flags = Some r -> outsider_call owner f r.1
  | CallClose fd : current_uid f <> owner -> outsider_call owner f (fd_close pipes_addr f fd).1
  | CallRead fd buf len r : current_uid f <> owner -> 0 <= len < 4294967296 -> len <= zlen buf ->
      (forall slot, sched_fd_get (io_sched f) fd = Some slot -> 0 <= fd_cursor slot < 4294967296) ->
      fd_read pipes_addr kbd_channel f fd buf len = Some r -> outsider_call owner f r.1.1
  | CallWrite fd buf len r : current_uid f <> owner -> bytes_ok buf -> 0 <= len < 4294967296 ->
      (forall slot, sched_fd_get (io_sched f) fd = Some slot -> fd_kind slot = FD_KIND_UFS ->
         0 <= fd_cursor slot < 4294967296 /\
         write_in_range (io_ufs f) (fd_handle slot) (fd_cursor slot) len) ->
      fd_write pipes_addr f fd buf len = Some r -> outsider_call owner f r.1
  | CallOther f' : io_ufs f' = io_ufs f -> outsider_call owner f f'.

(** File [h] is owned by [owner], closed to writes by others, and reads [c]. *)
Record protected (owner h : Z) (e : dirent) (c : list Z) u : Prop := {
  pr_wf : ufs_wf u;
  pr_slot : 0 <= h < 64;
  pr_entry : dirent_at (directory u) h = e;
  pr_used : de_used e = true;
  pr_owner : de_owner e = owner;
  pr_perm : Z.land (de_perm e) UFS_PERM_OTHER_WRITE = 0;
  pr_content : ufs_content u h = c;
}.

Lemma protected_valid owner h e c u : protected owner h e c u -> handle_valid u h = true.
Proof.
  intros [Hw Hh He Hu _ _ _]. apply handle_valid_iff; [apply Hw|]. by rewrite He.
Qed.

Lemma protected_denied owner h e c f :
  protected owner h e c (io_ufs f) -> current_uid f <> owner ->
  allowed f h UFS_PERM_OTHER_WRITE = false.
Proof.
  intros Hp Hme. pose proof (protected_valid _ _ _ _ _ Hp) as Hv. destruct Hp as [_ _ He _ Ho Hpm _].
  unfold allowed. rewrite ufs_owner_valid, ufs_perm_valid, He, Hpm, Ho by done.
  by replace (current_uid f =? owner) with false by lia.
Qed.

(** Changes to other slots of the table keep the file. *)
Lemma protected_others owner h e c u u' j :
  protected owner h e c u -> ufs_wf u' -> j <> h -> same_others u u' j ->
  ufs_content u' h = ufs_content u h -> protected owner h e c u'.
Proof.
  intros [Hw Hh He Hu Ho Hpm Hc] Hw' Hj Hs Hc'. split; try done; [|congruence].
  rewrite Hs by first [done|congruence]. done.
Qed.

Lemma protected_create owner h e c u name me u' n :
  protected owner h e c u -> bytes_ok name -> ufs_create u name me = (u', n) -> protected owner h e c u'.
Proof.
  intros Hp Hb Hc. pose proof Hp as [Hw Hh He Hu _ _ _].
  destruct (ufs_create_spec u name me Hw Hb) as [[_ E]|(_ & s' & slot & E & Hs & Hfree & Hw' & _ & Hoth & Hsame & _)];
    rewrite E in Hc; injection Hc as <- <-; [done|].
  assert (Hne : slot <> h) by (intros ->; congruence).
  apply (protected_others _ _ _ _ u _ slot); try done.
  apply content_same; try done; [apply Hw|by rewrite He|..]; rewrite Hoth by first [done|congruence]; done.
Qed.

Lemma protected_truncate owner h e c u j :
  protected owner h e c u -> j <> h -> protected owner h e c (ufs_truncate u j 0).1.
Proof.
  intros Hp Hj. pose proof Hp as [Hw Hh He Hu _ _ _].
  destruct (ufs_truncate_spec u j 0 Hw ltac:(lia)) as [[-> _]|(s' & -> & _ & Hw' & _ & _ & Hoth & _ & _ & Hk)]; [done|].
  cbn [fst]. apply (protected_others _ _ _ _ u _ j); try done. apply Hk; [done|congruence|by rewrite He].
Qed.

Lemma protected_write owner h e c u j offset buf len u' n :
  protected owner h e c u -> j <> h -> bytes_ok buf ->
  0 <= offset < 4294967296 -> 0 <= len < 4294967296 -> write_in_range u j offset len ->
  ufs_write_at u j offset buf len = Some (u', n) -> protected owner h e c u'.
Proof.
  intros Hp Hj Hb Ho Hl Hz Hwr. pose proof Hp as [Hw Hh He Hu _ _ _].
  destruct (ufs_write_at_spec u j offset buf len Hw Hb Ho Hl Hz) as (r & Hr & Hout).
  rewrite Hwr in Hr. injection Hr as <-.
  destruct Hout as [[E _]|(s' & E & _ & Hw' & _ & _ & Hoth & Hk)]; injection E as -> _; [done|].
  apply (protected_others _ _ _ _ u _ j); try done. apply Hk; [done|congruence|by rewrite He].
Qed.

Lemma protected_read owner h e c u j offset buf len u' out n :
  protected owner h e c u -> 0 <= offset < 4294967296 -> 0 <= len <= zlen buf ->
  ufs_read_at u j offset buf len = Some (u', out, n) -> protected owner h e c u'.
Proof.
  intros Hp Ho Hl Hrd. pose proof Hp as [Hw Hh He Hu Hown Hpm Hc].
  destruct (ufs_read_at_spec u j offset buf len Hw Ho Hl) as (r & Hr & Hout). rewrite Hrd in Hr. injection Hr as <-.
  destruct Hout as [[_ E]|[(_ & _ & E)|(_ & _ & s' & out' & E & _ & _ & Hw' & Hdir & Hk)]];
    injection E as -> _ _; try done.
  split; try done; [by rewrite Hdir|by rewrite Hk].
Qed.

Lemma outsider_step owner h e c f f' :
  protected owner h e c (io_ufs f) -> outsider_call owner f f' -> protected owner h e c (io_ufs f').
Proof.
  intros Hp Hs. pose proof (fun Hme => protected_denied owner h e c f Hp Hme) as Hdeny.
  destruct Hs as [name flags r Hme Hb Ho|fd Hme|fd buf len r Hme Hl Hlb Hcur Hr|fd buf len r Hme Hb Hl Hcur Hwr|f' E].
  - unfold fd_open in Ho. destruct (negb (Z.land flags FD_PERSIST =? 0)).
    + injection Ho as <-. unfold fd_open_persist. destruct (_ <? 0).
      * destruct (Z.land flags FD_CREATE =? 0); [done|].
        destruct (ufs_create _ _ _) as [u n] eqn:Ec. assert (protected owner h e c u) by by eapply protected_create.
        destruct (n <? 0); [done|]. by rewrite open_slot_ufs.
      * destruct (negb (allowed f _ UFS_PERM_OTHER_READ)); [done|].
        destruct (negb (Z.land flags FD_TRUNC =? 0)); [|by rewrite open_slot_ufs].
        destruct (allowed f (ufs_find (io_ufs f) name) UFS_PERM_OTHER_WRITE) eqn:Ea; cbn [negb]; [|done].
        rewrite open_slot_ufs. cbn [with_ufs io_ufs]. apply protected_truncate; [done|].
        intros E. rewrite E, Hdeny in Ea; done.
    + destruct (_ <? 0); [|injection Ho as <-; by rewrite open_slot_ufs].
      destruct (Z.land flags FD_CREATE =? 0); [injection Ho as <-; done|].
      destruct (memfs_create _ _) as [[m n]|]; cbn [mbind option_bind] in Ho; [|done].
      destruct (n <? 0); injection Ho as <-; [done|]. by rewrite open_slot_ufs.
  - by rewrite fd_close_effect.
  - destruct (fd_read_effect f fd buf len r Hr) as [->|(slot & out & n & Hg & _ & _ & Hrd)]; [done|].
    rewrite u32_small in Hrd by lia. eapply protected_read; [exact Hp| | |exact Hrd]; [by apply Hcur|lia].
  - destruct (fd_write_effect f fd buf len r Hwr) as [->|(slot & n & Hg & Hk & Ha & Hw)]; [done|].
    rewrite u32_small in Hw by lia. destruct (Hcur slot Hg Hk) as [Hc1 Hc2].
    eapply protected_write; [exact Hp| |exact Hb|exact Hc1|exact Hl|exact Hc2|exact Hw].
    intros E. rewrite E, Hdeny in Ha; done.
  - by rewrite E.
Qed.
End access.

(** * Reading back *)

Section files.
Context {K D H : Type} `{SchedEnv K} {B : BlockDev D} {L : BlockDevLaws D} `{Allocator H}.
Context (pipes_addr kbd_channel : Z).
Implicit Types (f g : io_state K D H) (u : ufs D) (fd h : Z) (buf : list Z).

(** Descriptor [fd] of the running thread is open on file [h] at [cursor]. *)
Definition opened f fd h cursor : Prop :=
  sched_fd_get (io_sched f) fd = Some (mk_fd FD_KIND_UFS h cursor).

Lemma advance_cursor_get f fd n fd' :
  sched_wf (io_sched f) -> 0 <= fd < 8 ->
  sched_fd_get (io_sched (advance_cursor f fd n)) fd' =
    if decide (fd' = fd)
    then (fun slot => mk_fd (fd_kind slot) (fd_handle slot) (fd_cursor slot +32 n)) <$> sched_fd_get (io_sched f) fd
    else sched_fd_get (io_sched f) fd'.
Proof.
  intros Hw Hfd. pose proof (sw_cur _ Hw) as Hc. pose proof (sw_len _ Hw) as Hl.
  pose proof (sw_thread _ Hw _ Hc) as [H8 _].
  unfold sched_fd_get, advance_cursor, THREAD_MAX_FDS. cbn [with_sched io_sched on_thread with_threads current_thread].
  rewrite on_thread_get by lia. rewrite decide_True by done. cbn [fds set_fds].
  destruct (decide (fd' = fd)) as [-> |Hne].
  - rewrite aget_aset_eq by lia. cbn [fd_kind]. destruct (_ || _ || _); [done|]. by destruct (_ =? _).
  - destruct (_ || _ || _) eqn:E0; [done|]. bool_prop. by rewrite aget_aset_ne by lia.
Qed.

Lemma opened_bounds f fd h c : opened f fd h c -> 0 <= fd < 8.
Proof.
  unfold opened, sched_fd_get, THREAD_MAX_FDS. destruct (_ || _ || _) eqn:E0; [done|]. bool_prop. lia.
Qed.

Lemma opened_advance f fd h c n fd' h' c' :
  sched_wf (io_sched f) -> opened f fd h c -> opened f fd' h' c' ->
  opened (advance_cursor f fd n) fd' h' (if decide (fd' = fd) then c' +32 n else c').
Proof.
  intros Hw Ho Ho'. unfold opened in *. rewrite advance_cursor_get by first [done|by eapply opened_bounds].
  case_decide; [|done]. subst. by rewrite Ho'.
Qed.

(** The uid of the running thread is not in the descriptor table. *)
Lemma advance_cursor_uid f fd n : sched_wf (io_sched f) -> current_uid (advance_cursor f fd n) = current_uid f.
Proof.
  intros Hw. pose proof (sw_cur _ Hw) as Hc. pose proof (sw_len _ Hw) as Hl.
  unfold current_uid, sched_get_uid, sched_current_tid, advance_cursor.
  cbn [with_sched io_sched on_thread with_threads current_thread thread_capacity].
  destruct (_ || _); [done|]. rewrite on_thread_get by lia. by case_decide.
Qed.

Lemma fd_write_ufs f fd h c buf len :
  opened f fd h c -> allowed f h UFS_PERM_OTHER_WRITE = true ->
  fd_write pipes_addr f fd buf len =
    '(u, n) ← ufs_write_at (io_ufs f) h c buf (u32 len); Some (after_file (with_ufs f u) fd n).
Proof. intros Ho Ha. unfold fd_write. rewrite Ho. cbn [fd_kind fd_handle fd_cursor]. simpl. by rewrite Ha. Qed.

Lemma fd_read_ufs f fd h c buf len :
  opened f fd h c -> allowed f h UFS_PERM_OTHER_READ = true ->
  fd_read pipes_addr kbd_channel f fd buf len =
    '(u, buf, n) ← ufs_read_at (io_ufs f) h c buf (u32 len);
    let (f, t) := after_file (with_ufs f u) fd n in Some (f, buf, t).
Proof. intros Ho Ha. unfold fd_read. rewrite Ho. cbn [fd_kind fd_handle fd_cursor]. simpl. by rewrite Ha. Qed.

(** The outcome of writing [len] bytes of [buf] through [fd], open on [h] at [c]:
    no room, or the cursor is past the bytes, and any other descriptor that stands
    on the same place reads them back. *)
Definition fd_write_outcome f fd h c buf len (r : io_state K D H * io_turn) : Prop :=
  (r = (f, IoReturned (-1)) /\
   UFS_DATA_END_LBA < next_free_lba (io_ufs f) + 2 * ((c + len + 511) / 512)) \/
  (r.2 = IoReturned len /\ ufs_wf (io_ufs r.1) /\ opened r.1 fd h (c + len) /\
   zlen (ufs_content (io_ufs r.1) h) = Z.max (zlen (ufs_content (io_ufs f) h)) (c + len) /\
   (forall j, 0 <= j < 64 -> j <> h -> de_used (dirent_at (directory (io_ufs f)) j) = true ->
      ufs_content (io_ufs r.1) j = ufs_content (io_ufs f) j) /\
   forall fd2 dst, fd2 <> fd -> opened f fd2 h c -> allowed f h UFS_PERM_OTHER_READ = true ->
     len <= zlen dst ->
     exists f2 dst2, fd_read pipes_addr kbd_channel r.1 fd2 dst len = Some (f2, dst2, IoReturned len) /\
       opened f2 fd2 h (c + len) /\ zlen dst2 = zlen dst /\
       forall i, 0 <= i -> dst2.[i] = if decide (i < len) then buf.[i] else dst.[i]).

Lemma allowed_same f g h mask :
  current_uid g = current_uid f -> handle_valid (io_ufs f) h = true -> handle_valid (io_ufs g) h = true ->
  same_identity (dirent_at (directory (io_ufs f)) h) (dirent_at (directory (io_ufs g)) h) ->
  allowed g h mask = allowed f h mask.
Proof.
  intros Hu Hf Hg (_ & _ & Eo & Ep). unfold allowed.
  by rewrite !ufs_owner_valid, !ufs_perm_valid, Hu, Eo, Ep by done.
Qed.

Lemma fd_write_spec f fd h c buf len :
  ufs_wf (io_ufs f) -> sched_wf (io_sched f) -> bytes_ok buf ->
  opened f fd h c -> handle_valid (io_ufs f) h = true -> allowed f h UFS_PERM_OTHER_WRITE = true ->
  0 <= c -> 0 < len < 2147483648 -> c + len <= 4294966784 ->
  exists r, fd_write pipes_addr f fd buf len = Some r /\ fd_write_outcome f fd h c buf len r.
Proof.
  intros Hw Hs Hb Ho Hv Ha Hc Hl Hcl. rewrite (fd_write_ufs f fd h c) by done. rewrite u32_small by lia.
  destruct (ufs_write_at_spec (io_ufs f) h c buf len Hw Hb ltac:(lia) ltac:(lia) ltac:(split; lia))
    as (r & -> & Hout). cbn [mbind option_bind].
  destruct Hout as [[-> Hbad]|(u & -> & _ & Hw' & [Hcl' Hcb] & Hid & _ & Hoth)].
  { eexists. split; [done|]. left. split; [by destruct f|]. destruct Hbad as [Hbad|[Hbad|Hbad]]; [congruence|lia|done]. }
  unfold after_file. replace (len >? 0) with true by lia. eexists. split; [done|]. right. cbn [fst snd].
  set (g := with_ufs f u). change (sched_wf (io_sched g)) in Hs.
  assert (Ho1 : opened (advance_cursor g fd len) fd h (c + len)).
  { pose proof (opened_advance g fd h c len fd h c Hs Ho Ho) as Ho1. rewrite decide_True in Ho1 by done.
    by rewrite u32_small in Ho1 by lia. }
  change (io_ufs (advance_cursor g fd len)) with u.
  split; [done|]. split; [done|]. split; [done|]. split; [done|]. split; [done|].
  intros fd2 dst Hne Ho2 Hr Hd.
  assert (Hh : 0 <= h < 64) by (apply handle_valid_iff in Hv; [tauto|apply Hw]).
  assert (Hv' : handle_valid u h = true).
  { apply handle_valid_iff; [apply Hw'|]. split; [done|]. destruct Hid as (E & _). rewrite E.
    apply handle_valid_iff in Hv; [tauto|apply Hw]. }
  pose proof (opened_advance g fd h c len fd2 h c Hs Ho Ho2) as Ho2'. rewrite decide_False in Ho2' by done.
  rewrite (fd_read_ufs (advance_cursor g fd len) fd2 h c) by
    first [done|rewrite (allowed_same f) by first [done|apply (advance_cursor_uid g fd len Hs)]; done].
  rewrite u32_small by lia. change (io_ufs (advance_cursor g fd len)) with u.
  destruct (ufs_read_at_spec u h c dst len Hw' ltac:(lia) ltac:(lia)) as (r & -> & Hrd). cbn [mbind option_bind].
  destruct Hrd as [[Hbad _]|[(_ & Hbad & _)|(_ & _ & u2 & dst2 & -> & Hz & Hd2 & _)]]; [congruence|lia|].
  rewrite Hcl' in Hd2. replace (len `min` _) with len in * by lia.
  unfold after_file. replace (len >? 0) with true by lia. eexists _, dst2. split; [reflexivity|].
  split; [|split; [done|]].
  - assert (Hs' : sched_wf (io_sched (with_ufs (advance_cursor g fd len) u2))).
    { apply (with_fds_wf (io_sched g) (current_thread (io_sched g)) (fun l => l.[fd <-
        mk_fd (fd_kind l.[fd]) (fd_handle l.[fd]) (fd_cursor l.[fd] +32 len)])); [done|apply Hs|].
      intros l. apply aset_length. }
    pose proof (opened_advance (with_ufs (advance_cursor g fd len) u2) fd2 h c len fd2 h c Hs' Ho2' Ho2') as Ho3.
    rewrite decide_True in Ho3 by done. by rewrite u32_small in Ho3 by lia.
  - intros i Hi. rewrite Hd2, Z.min_l by lia. case_decide; [|done].
    destruct (Hcb (c + i) ltac:(lia)) as [Hin _]. rewrite Hin by lia. f_equal. f_equal. lia.
Qed.

(** C10: a file closed to writes by others is safe from them: whatever sequence of
    opens (creating and truncating ones included), reads, closes and writes in range
    ([write_in_range] of [UfsSpec]: no empty write behind the sectors of a file, and none
    that ends in the last 511 bytes below 2^32, which break the file system itself)
    threads of other uids make, mixed with anything that leaves the file system alone,
    the file keeps its name, owner, permissions and bytes. *)
Theorem fd_protects_files f f' h owner :
  ufs_wf (io_ufs f) -> handle_valid (io_ufs f) h = true -> ufs_owner (io_ufs f) h = owner ->
  Z.land (ufs_perm (io_ufs f) h) UFS_PERM_OTHER_WRITE = 0 ->
  rtc (outsider_call pipes_addr kbd_channel owner) f f' ->
  ufs_wf (io_ufs f') /\
  dirent_at (directory (io_ufs f')) h = dirent_at (directory (io_ufs f)) h /\
  ufs_content (io_ufs f') h = ufs_content (io_ufs f) h.
Proof.
  intros Hw Hv Hown Hpm Hsteps.
  pose proof (proj1 (handle_valid_iff (io_ufs f) h (mw_ready _ (uw_mem _ Hw))) Hv) as [Hh Hu].
  assert (Hp : protected owner h (dirent_at (directory (io_ufs f)) h) (ufs_content (io_ufs f) h) (io_ufs f)).
  { split; try done; [by rewrite <- ufs_owner_valid|by rewrite <- ufs_perm_valid]. }
  revert Hp. generalize (dirent_at (directory (io_ufs f)) h) (ufs_content (io_ufs f) h).
  clear Hw Hv Hown Hpm Hh Hu. induction Hsteps as [f|f g f' Hstep _ IH]; intros e c Hp.
  - by destruct Hp.
  - apply IH. by eapply outsider_step.
Qed.

(** [fd_write] on a file its thread may write either finds no room and changes
    nothing, or stores the bytes at the cursor and moves it, and leaves every other
    file alone; then [fd_read] through any other descriptor that stands at the same
    place returns exactly those bytes. *)
Theorem fd_write_then_read f fd h c buf len :
  ufs_wf (io_ufs f) -> sched_wf (io_sched f) -> bytes_ok buf ->
  opened f fd h c -> handle_valid (io_ufs f) h = true -> allowed f h UFS_PERM_OTHER_WRITE = true ->
  0 <= c -> 0 < len < 2147483648 -> c + len <= 4294966784 ->
  exists r, fd_write pipes_addr f fd buf len = Some r /\ fd_write_outcome f fd h c buf len r.
Proof. apply fd_write_spec. Qed.
End files.

(** * A concrete system *)

Definition demo_io_thread (uid : Z) : thread_t :=
  mk_thread 0 THREAD_RUNNING 0 0 THREAD_PRIO_NORMAL 4 4096 0 0
    ([console_fd; console_fd; mk_fd FD_KIND_UFS 0 0] ++ replicate 5 reset_fd_slot) uid.

(** One thread with descriptor 2 open on the file of [demo_created]. *)
Definition demo_io (uid : Z) : io_state Z memdisk Heap.heap :=
  mk_io (mk_sched [demo_io_thread uid] 65536 1 0 1048576) no_pipes demo_keyboard demo_video
    demo_created demo_memfs.

Lemma demo_io_sched_wf uid : sched_wf (io_sched (demo_io uid)).
Proof.
  split; [done|done|done| |]; intros i Hi; cbn in Hi; assert (i = 0) as -> by lia; [by split|done].
Qed.

(** The entry of [demo_created]'s file, as the descriptors see it. *)
Lemma demo_created_valid : handle_valid demo_created 0 = true.
Proof.
  apply handle_valid_iff; [apply demo_created_wf|]. split; [lia|]. by rewrite (proj1 demo_created_entry).
Qed.

Lemma demo_created_rights : ufs_owner demo_created 0 = 1000 /\ ufs_perm demo_created 0 = 0.
Proof.
  rewrite ufs_owner_valid, ufs_perm_valid by apply demo_created_valid.
  by rewrite (proj1 demo_created_entry).
Qed.

(** A thread of uid 7 stores through its descriptor, closes it and creates a file of
    its own. *)
Definition demo_attack1 : io_state Z memdisk Heap.heap := demo_io 7.
Definition demo_attack2 : io_state Z memdisk Heap.heap := (fd_close 4096 demo_attack1 2).1.
Definition demo_attack3 : io_state Z memdisk Heap.heap :=
  (fd_open_persist demo_attack2 [108; 111; 103] (Z.lor FD_PERSIST FD_CREATE)).1.

Lemma demo_flags : negb (Z.land (Z.lor FD_PERSIST FD_CREATE) FD_PERSIST =? 0) = true.
Proof. reflexivity. Qed.

Lemma demo_attack2_uid : current_uid demo_attack2 = 7.
Proof. reflexivity. Qed.

Lemma demo_attack_refused : fd_write 4096 demo_attack1 2 demo_bytes 3 = Some (demo_attack1, IoReturned (-1)).
Proof.
  unfold fd_write. change (sched_fd_get (io_sched demo_attack1) 2) with (Some (mk_fd FD_KIND_UFS 0 0)).
  cbn [fd_kind fd_handle]. unfold allowed. change (io_ufs demo_attack1) with demo_created.
  by rewrite (proj1 demo_created_rights), (proj2 demo_created_rights).
Qed.

Lemma fd_protects_files_witness :
  (ufs_wf demo_created /\ ufs_owner demo_created 0 = 1000) /\
  rtc (outsider_call 4096 8192 1000) demo_attack1 demo_attack3 /\
  ufs_wf (io_ufs demo_attack3) /\
  dirent_at (directory (io_ufs demo_attack3)) 0 = dirent_at (directory demo_created) 0 /\
  ufs_content (io_ufs demo_attack3) 0 = ufs_content demo_created 0.
Proof.
  destruct demo_created_rights as [Ho Hn].
  assert (Hp : Z.land (ufs_perm demo_created 0) UFS_PERM_OTHER_WRITE = 0) by (rewrite Hn; reflexivity).
  assert (R : rtc (outsider_call 4096 8192 1000) demo_attack1 demo_attack3).
  { apply rtc_l with demo_attack1.
    { apply (CallWrite 4096 8192 1000 demo_attack1 2 demo_bytes 3 (demo_attack1, IoReturned (-1)));
        [discriminate|by apply small_bytes_ok|lia| |exact demo_attack_refused].
      intros slot Hs _. injection Hs as <-. cbn [fd_cursor]. split; [lia|split; lia]. }
    apply rtc_l with demo_attack2; [apply CallClose; discriminate|]. apply rtc_once.
    unfold demo_attack3. apply CallOpen with [108; 111; 103] (Z.lor FD_PERSIST FD_CREATE);
      [rewrite demo_attack2_uid; discriminate|by apply small_bytes_ok|].
    unfold fd_open. by rewrite demo_flags. }
  split; [exact (conj demo_created_wf Ho)|]. split; [exact R|].
  exact (fd_protects_files 4096 8192 demo_attack1 demo_attack3 0 1000 demo_created_wf demo_created_valid Ho Hp R).
Defined.

Lemma fd_write_then_read_witness :
  (opened (demo_io 1000) 2 0 0 /\ allowed (demo_io 1000) 0 UFS_PERM_OTHER_WRITE = true) /\
  exists r, fd_write 4096 (demo_io 1000) 2 demo_bytes 3 = Some r /\
    fd_write_outcome 4096 8192 (demo_io 1000) 2 0 0 demo_bytes 3 r.
Proof.
  assert (Ha : allowed (demo_io 1000) 0 UFS_PERM_OTHER_WRITE = true)
    by (unfold allowed; cbn [io_ufs demo_io]; rewrite (proj1 demo_created_rights); reflexivity).
  split; [exact (conj eq_refl Ha)|].
  apply (fd_write_then_read 4096 8192 (demo_io 1000) 2 0 0 demo_bytes 3 demo_created_wf
    (demo_io_sched_wf 1000) (small_bytes_ok demo_bytes eq_refl) eq_refl demo_created_valid Ha); lia.
Defined.
