(* ===== verification/Vmm.v ===== *)
(** The page tables of [kernel/mm/vmm.c]: four levels of tables in physical
    memory, created and split on demand.  Table memory is reached at its physical
    address (the kernel is identity mapped); the TLB is not modelled, so [invlpg]
    and the reload of CR3 leave no trace but the new CR3. *)
From S2P Require Import Prelude Mem Pmm.

Definition PAGE_PRESENT : Z := 0x1.
Definition PAGE_WRITABLE : Z := 0x2.
Definition PAGE_USER : Z := 0x4.
Definition PAGE_SIZE_2MB : Z := 0x80.
Definition PAGE_ADDR_MASK : Z := 0x000FFFFFFFFFF000.
Definition ENTRIES_PER_TABLE : Z := 512.
Definition PAGE_2MB_SIZE : Z := 2097152.
Definition PAGE_4KB_SIZE : Z := 4096.
Definition VMM_WRITABLE : Z := 0x2.
Definition VMM_USER : Z := 0x4.

Record vmm := mk_vmm {
  vm_pmm : pmm;
  vm_mem : mem;
  kernel_pml4 : Z;
  cr3 : Z;
}.

(** * The model *)

Definition pml4_index (addr : Z) : Z := Z.land (Z.shiftr addr 39) 0x1FF.
Definition pdpt_index (addr : Z) : Z := Z.land (Z.shiftr addr 30) 0x1FF.
Definition pd_index (addr : Z) : Z := Z.land (Z.shiftr addr 21) 0x1FF.
Definition pt_index (addr : Z) : Z := Z.land (Z.shiftr addr 12) 0x1FF.

(** [e & bit] as a C condition. *)
Definition has (e bit : Z) : bool := negb (Z.land e bit =? 0).

(** [table[index]] *)
Definition entry (m : mem) (table index : Z) : Z := ld64 m (table + 8 * index).
Definition set_entry (m : mem) (table index v : Z) : mem := st64 m (table + 8 * index) v.

Definition table_addr (e : Z) : Z := Z.land e PAGE_ADDR_MASK.

Section model.
Implicit Types (v : vmm) (table index space virt_addr phys_addr flags : Z).

Definition with_mem v (m : mem) : vmm := mk_vmm (vm_pmm v) m (kernel_pml4 v) (cr3 v).
Definition with_pmm v (p : pmm) : vmm := mk_vmm p (vm_mem v) (kernel_pml4 v) (cr3 v).

(** [for (i = 0; i < 512; i++) table[i] = f(i);] *)
Definition fill_table (m : mem) table (f : Z -> Z) : mem :=
  for_each 0 ENTRIES_PER_TABLE (fun i m => set_entry m table i (f i)) m.

Definition get_or_create_table v table index : vmm * Z :=
  let finish v :=
    let m := set_entry (vm_mem v) table index (Z.lor (entry (vm_mem v) table index) PAGE_USER) in
    (with_mem v m, table_addr (entry m table index)) in
  if negb (has (entry (vm_mem v) table index) PAGE_PRESENT) then
    let (p, frame) := pmm_alloc_frame (vm_pmm v) in
    let v := with_pmm v p in
    if frame =? 0 then (v, 0)
    else
      let m := fill_table (vm_mem v) frame (fun _ => 0) in
      let m := set_entry m table index (Z.lor (Z.lor frame PAGE_PRESENT) PAGE_WRITABLE) in
      finish (with_mem v m)
  else finish v.

Definition map_2mb_identity v (pml4 : Z) phys_addr : vmm :=
  let (v, pdpt) := get_or_create_table v pml4 (pml4_index phys_addr) in
  if pdpt =? 0 then v
  else
    let (v, pd) := get_or_create_table v pdpt (pdpt_index phys_addr) in
    if pd =? 0 then v
    else
      let pdi := pd_index phys_addr in
      if negb (has (entry (vm_mem v) pd pdi) PAGE_PRESENT) then
        with_mem v (set_entry (vm_mem v) pd pdi
          (Z.lor (Z.lor (Z.lor phys_addr PAGE_PRESENT) PAGE_WRITABLE) PAGE_SIZE_2MB))
      else v.

(** The table and index of the entry, or [None] for the null pointer. *)
Definition get_pd_entry (m : mem) (pml4 : Z) virt_addr : option (Z * Z) :=
  if negb (has (entry m pml4 (pml4_index virt_addr)) PAGE_PRESENT) then None
  else
    let pdpt := table_addr (entry m pml4 (pml4_index virt_addr)) in
    if negb (has (entry m pdpt (pdpt_index virt_addr)) PAGE_PRESENT) then None
    else
      let pd := table_addr (entry m pdpt (pdpt_index virt_addr)) in
      Some (pd, pd_index virt_addr).

(** The page table under [pd[pdi]], made or split if need be; 0 when no frame is
    left. *)
Definition get_or_split_pt v (pd pdi : Z) : vmm * Z :=
  let pd_entry := entry (vm_mem v) pd pdi in
  if has pd_entry PAGE_PRESENT then
    if has pd_entry PAGE_SIZE_2MB then
      let region_phys := table_addr pd_entry in
      let region_flags := Z.land pd_entry (Z.lor PAGE_PRESENT PAGE_WRITABLE) in
      let (p, new_pt_frame) := pmm_alloc_frame (vm_pmm v) in
      let v := with_pmm v p in
      if new_pt_frame =? 0 then (v, 0)
      else
        let m := fill_table (vm_mem v) new_pt_frame
                   (fun i => Z.lor (region_phys +64 i * PAGE_4KB_SIZE) region_flags) in
        let m := set_entry m pd pdi
          (Z.lor (Z.lor (Z.lor new_pt_frame PAGE_PRESENT) PAGE_WRITABLE) PAGE_USER) in
        (with_mem v m, new_pt_frame)
    else (v, table_addr pd_entry)
  else
    let (p, new_pt_frame) := pmm_alloc_frame (vm_pmm v) in
    let v := with_pmm v p in
    if new_pt_frame =? 0 then (v, 0)
    else
      let m := fill_table (vm_mem v) new_pt_frame (fun _ => 0) in
      let m := set_entry m pd pdi
        (Z.lor (Z.lor (Z.lor new_pt_frame PAGE_PRESENT) PAGE_WRITABLE) PAGE_USER) in
      (with_mem v m, new_pt_frame).

Definition get_or_split_pt_entry v (pml4 : Z) virt_addr : vmm * option (Z * Z) :=
  let (v, pdpt) := get_or_create_table v pml4 (pml4_index virt_addr) in
  if pdpt =? 0 then (v, None)
  else
    let (v, pd) := get_or_create_table v pdpt (pdpt_index virt_addr) in
    if pd =? 0 then (v, None)
    else
      let pdi := pd_index virt_addr in
      let (v, pt) := get_or_split_pt v pd pdi in
      if pt =? 0 then (v, None)
      else
        let m := set_entry (vm_mem v) pd pdi (Z.lor (entry (vm_mem v) pd pdi) PAGE_USER) in
        (with_mem v m, Some (pt, pt_index virt_addr)).

Definition space_pml4 space : Z := table_addr space.

Definition vmm_map_page_in v space virt_addr phys_addr flags : vmm * Z :=
  let (v, pte) := get_or_split_pt_entry v (space_pml4 space) virt_addr in
  match pte with
  | None => (v, -1)
  | Some (pt, i) =>
      (with_mem v (set_entry (vm_mem v) pt i
         (Z.lor (Z.lor (Z.land phys_addr PAGE_ADDR_MASK) (Z.land flags 0xFFF)) PAGE_PRESENT)), 0)
  end.

Definition vmm_unmap_page_in v space virt_addr : vmm * Z :=
  let pml4 := space_pml4 space in
  match get_pd_entry (vm_mem v) pml4 virt_addr with
  | None => (v, 0)
  | Some (pd, pdi) =>
      if negb (has (entry (vm_mem v) pd pdi) PAGE_PRESENT) then (v, 0)
      else
        let (v, pte) := get_or_split_pt_entry v pml4 virt_addr in
        match pte with
        | None => (v, -1)
        | Some (pt, i) => (with_mem v (set_entry (vm_mem v) pt i 0), 0)
        end
  end.

Definition vmm_is_mapped_in v space virt_addr : bool :=
  match get_pd_entry (vm_mem v) (space_pml4 space) virt_addr with
  | None => false
  | Some (pd, pdi) =>
      let e := entry (vm_mem v) pd pdi in
      if negb (has e PAGE_PRESENT) then false
      else if has e PAGE_SIZE_2MB then true
      else has (entry (vm_mem v) (table_addr e) (pt_index virt_addr)) PAGE_PRESENT
  end.

Definition vmm_is_user_accessible_in v space virt_addr : bool :=
  let m := vm_mem v in
  let l4 := entry m (space_pml4 space) (pml4_index virt_addr) in
  if negb (has l4 PAGE_PRESENT) || negb (has l4 PAGE_USER) then false
  else
    let l3 := entry m (table_addr l4) (pdpt_index virt_addr) in
    if negb (has l3 PAGE_PRESENT) || negb (has l3 PAGE_USER) then false
    else
      let l2 := entry m (table_addr l3) (pd_index virt_addr) in
      if negb (has l2 PAGE_PRESENT) || negb (has l2 PAGE_USER) then false
      else if has l2 PAGE_SIZE_2MB then true
      else
        let l1 := entry m (table_addr l2) (pt_index virt_addr) in
        has l1 PAGE_PRESENT && has l1 PAGE_USER.

Definition vmm_guard_page_in v space virt_addr : vmm := (vmm_unmap_page_in v space virt_addr).1.

Definition vmm_mark_user_in v space virt_addr : vmm :=
  (vmm_map_page_in v space virt_addr virt_addr (Z.lor VMM_WRITABLE VMM_USER)).1.

Definition vmm_debug_walk_flags_in v space virt_addr : Z :=
  let m := vm_mem v in
  let pml4 := space_pml4 space in
  let l4 := Z.land (entry m pml4 (pml4_index virt_addr)) 0xFFF in
  if negb (has l4 PAGE_PRESENT) then l4
  else
    let pdpt := table_addr (entry m pml4 (pml4_index virt_addr)) in
    let l3 := Z.land (entry m pdpt (pdpt_index virt_addr)) 0xFFF in
    if negb (has l3 PAGE_PRESENT) then Z.lor l4 (Z.shiftl l3 12)
    else
      let pd := table_addr (entry m pdpt (pdpt_index virt_addr)) in
      let l2 := Z.land (entry m pd (pd_index virt_addr)) 0xFFF in
      if negb (has l2 PAGE_PRESENT) || has l2 PAGE_SIZE_2MB then
        Z.lor (Z.lor l4 (Z.shiftl l3 12)) (Z.shiftl l2 24)
      else
        let pt := table_addr (entry m pd (pd_index virt_addr)) in
        let l1 := Z.land (entry m pt (pt_index virt_addr)) 0xFFF in
        Z.lor (Z.lor (Z.lor l4 (Z.shiftl l3 12)) (Z.shiftl l2 24)) (Z.shiftl l1 36).

Definition vmm_current_address_space v : Z := Z.land (cr3 v) PAGE_ADDR_MASK.
Definition vmm_kernel_address_space v : Z := kernel_pml4 v.
Definition vmm_switch_address_space v space : vmm :=
  mk_vmm (vm_pmm v) (vm_mem v) (kernel_pml4 v) space.

Definition vmm_map_page v virt_addr phys_addr flags : vmm * Z :=
  vmm_map_page_in v (vmm_current_address_space v) virt_addr phys_addr flags.
Definition vmm_unmap_page v virt_addr : vmm * Z :=
  vmm_unmap_page_in v (vmm_current_address_space v) virt_addr.
Definition vmm_is_mapped v virt_addr : bool :=
  vmm_is_mapped_in v (vmm_current_address_space v) virt_addr.
Definition vmm_guard_page v virt_addr : vmm :=
  vmm_guard_page_in v (vmm_current_address_space v) virt_addr.
Definition vmm_mark_user v virt_addr : vmm :=
  vmm_mark_user_in v (vmm_current_address_space v) virt_addr.
Definition vmm_debug_walk_flags v virt_addr : Z :=
  vmm_debug_walk_flags_in v (vmm_current_address_space v) virt_addr.

Definition vmm_create_address_space v : vmm * Z :=
  let (p, frame) := pmm_alloc_frame (vm_pmm v) in
  let v := with_pmm v p in
  if frame =? 0 then (v, 0)
  else
    (with_mem v (for_each 0 ENTRIES_PER_TABLE
       (fun i m => set_entry m frame i (entry m (kernel_pml4 v) i)) (vm_mem v)), frame).

Definition destroy_pt (m : mem) (pt : Z) (p : pmm) : pmm :=
  for_each 0 ENTRIES_PER_TABLE (fun l1i p =>
    let pte := entry m pt l1i in
    if Z.land pte (Z.lor PAGE_PRESENT PAGE_USER) =? Z.lor PAGE_PRESENT PAGE_USER
    then pmm_free_frame p (Z.land pte PAGE_ADDR_MASK) else p) p.

Definition destroy_pd (m : mem) (pd : Z) (p : pmm) : pmm :=
  for_each 0 ENTRIES_PER_TABLE (fun l2i p =>
    let l2 := entry m pd l2i in
    if negb (has l2 PAGE_PRESENT) then p
    else if has l2 PAGE_SIZE_2MB then p
    else
      let pt := table_addr l2 in
      pmm_free_frame (destroy_pt m pt p) pt) p.

Definition destroy_pdpt (m : mem) (pdpt : Z) (p : pmm) : pmm :=
  for_each 0 ENTRIES_PER_TABLE (fun l3i p =>
    let l3 := entry m pdpt l3i in
    if negb (has l3 PAGE_PRESENT) then p
    else
      let pd := table_addr l3 in
      pmm_free_frame (destroy_pd m pd p) pd) p.

Definition vmm_destroy_address_space v space : vmm :=
  if (space =? 0) || (space =? vmm_kernel_address_space v) then v
  else
    let m := vm_mem v in
    let pml4 := space_pml4 space in
    let p := for_each 0 ENTRIES_PER_TABLE (fun l4i p =>
      let l4 := entry m pml4 l4i in
      if negb (has l4 PAGE_PRESENT) || (l4 =? entry m (kernel_pml4 v) l4i) then p
      else
        let pdpt := table_addr l4 in
        pmm_free_frame (destroy_pdpt m pdpt p) pdpt) (vm_pmm v) in
    with_pmm v (pmm_free_frame p space).

(** The addresses of the inner loop: from [start] in steps of 2 MiB below [end_]. *)
Definition init_region v (e : E820.e820_entry_t) : vmm :=
  if negb (E820.type e =? E820.E820_TYPE_USABLE) then v
  else
    let start := Z.land (E820.base e) (U64_MAX -64 (PAGE_2MB_SIZE - 1)) in
    let end_ := E820.base e +64 E820.length e in
    for_each 0 ((end_ - start + PAGE_2MB_SIZE - 1) / PAGE_2MB_SIZE)
      (fun k v => map_2mb_identity v (kernel_pml4 v) (start + k * PAGE_2MB_SIZE)) v.

Definition vmm_init v (e820 : E820.e820_buffer_t) : vmm :=
  let v := mk_vmm (vm_pmm v) (vm_mem v) (Z.land (cr3 v) PAGE_ADDR_MASK) (cr3 v) in
  for_each 0 (E820.e820_entry_count e820)
    (fun i v => match E820.e820_get_entry e820 i with
                | None => v
                | Some e => init_region v e
                end) v.
End model.
