(* ===== verification/VmmSpec.v ===== *)
(** The paging code against the processor's page walk: the four-level tree as
    a partial map from paths to tables, the translations it holds, and what
    mapping, unmapping and the query functions of [Vmm.v] do to them. *)
From S2P Require Import Prelude Mem Pmm Vmm.

(** * Bits of an entry *)

Section bits.
Implicit Types (a e f x : Z).

(** The address part, arithmetically. *)
Lemma table_addr_eq e : table_addr e = e mod 2 ^ 52 / 4096 * 4096.
Proof.
  unfold table_addr, PAGE_ADDR_MASK.
  change 0x000FFFFFFFFFF000 with (Z.shiftl (Z.ones 40) 12).
  change 4096 with (2 ^ 12) at 1 2. rewrite <- Z.shiftr_div_pow2, <- Z.shiftl_mul_pow2 by lia.
  apply Z.bits_inj'. intros n Hn. rewrite Z.land_spec, !Z.shiftl_spec by lia.
  destruct (decide (n < 12)).
  - rewrite !(Z.testbit_neg_r _ (n - 12)) by lia. apply andb_false_r.
  - rewrite Z.shiftr_spec by lia. replace (n - 12 + 12) with n by lia.
    destruct (decide (n < 52)).
    + rewrite Z.ones_spec_low, Z.mod_pow2_bits_low by lia. apply andb_true_r.
    + rewrite Z.ones_spec_high, Z.mod_pow2_bits_high by lia. apply andb_false_r.
Qed.

Lemma table_addr_mod e : table_addr e mod 4096 = 0.
Proof. rewrite table_addr_eq. apply Z.mod_mul. lia. Qed.

Lemma table_addr_bounds e : 0 <= table_addr e < 2 ^ 52.
Proof.
  rewrite table_addr_eq. pose proof (Z.mod_pos_bound e (2 ^ 52) ltac:(lia)). div_lia.
Qed.

Lemma table_addr_page a : 0 <= a < 2 ^ 52 -> a mod 4096 = 0 -> table_addr a = a.
Proof. intros. rewrite table_addr_eq, (Z.mod_small a) by lia. div_lia. Qed.

(** Bits below the address leave it alone. *)
Lemma table_addr_lor e f : Z.land f PAGE_ADDR_MASK = 0 -> table_addr (Z.lor e f) = table_addr e.
Proof. intros H. unfold table_addr. by rewrite Z.land_lor_distr_l, H, Z.lor_0_r. Qed.

Lemma table_addr_low f : 0 <= f < 4096 -> Z.land f PAGE_ADDR_MASK = 0.
Proof.
  intros. change (table_addr f = 0). rewrite table_addr_eq, Z.mod_small, Z.div_small by lia. done.
Qed.

Lemma has_lor e f x : has (Z.lor e f) x = has e x || has f x.
Proof.
  unfold has. rewrite Z.land_lor_distr_l.
  destruct (Z.land e x =? 0) eqn:E1; bool_prop.
  - by rewrite E1, Z.lor_0_l.
  - simpl. apply negb_true_iff, Z.eqb_neq. intros H. by apply Z.lor_eq_0_l in H.
Qed.

Lemma has_land e f x : Z.land f x = x -> has (Z.land e f) x = has e x.
Proof. intros H. unfold has. by rewrite <- Z.land_assoc, H. Qed.

(** No flag is a bit of a page-aligned address. *)
Lemma has_page a x : a mod 4096 = 0 -> 0 <= x < 4096 -> has a x = false.
Proof.
  intros Ha Hx. unfold has. apply negb_false_iff, Z.eqb_eq.
  replace a with (Z.shiftl (a / 4096) 12) by (rewrite Z.shiftl_mul_pow2 by lia; div_lia).
  rewrite <- (Z.mod_small x (2 ^ 12)), <- Z.land_ones by lia.
  apply Z.bits_inj'. intros n Hn. rewrite Z.bits_0, !Z.land_spec, Z.shiftl_spec by lia.
  destruct (decide (n < 12)).
  - by rewrite Z.testbit_neg_r by lia.
  - rewrite Z.ones_spec_high by lia. by rewrite !andb_false_r.
Qed.

Lemma lor_bound a b k : 0 <= a < 2 ^ k -> 0 <= b < 2 ^ k -> 0 <= k -> 0 <= Z.lor a b < 2 ^ k.
Proof.
  intros Ha Hb Hk. split; [apply Z.lor_nonneg; lia|].
  destruct (decide (Z.lor a b = 0)) as [->|]; [lia|].
  assert (0 <= Z.lor a b) by (apply Z.lor_nonneg; lia).
  apply Z.log2_lt_pow2; [lia|]. rewrite Z.log2_lor by lia.
  destruct (decide (a = 0)) as [->|]; destruct (decide (b = 0)) as [->|]; simpl.
  - by destruct n.
  - rewrite Z.max_r by apply Z.log2_nonneg. apply Z.log2_lt_pow2; lia.
  - rewrite Z.max_l by apply Z.log2_nonneg. apply Z.log2_lt_pow2; lia.
  - apply Z.max_lub_lt; apply Z.log2_lt_pow2; lia.
Qed.

(** The indices as digits of the page number in base 512. *)
Lemma index_digit (addr k : Z) :
  0 <= k -> Z.land (Z.shiftr addr k) 0x1FF = addr / 2 ^ k mod 512.
Proof.
  intros. change 0x1FF with (Z.ones 9). by rewrite Z.land_ones, Z.shiftr_div_pow2 by lia.
Qed.
End bits.

(** * Entries of a table *)

(** A page-aligned, non-null table of the identity-mapped part of memory. *)
Definition aligned (t : Z) : Prop := t mod 4096 = 0 /\ 0 < t < PMM_MAX_MEMORY.
Definition index_ok (i : Z) : Prop := 0 <= i < ENTRIES_PER_TABLE.

Section entries.
Implicit Types (m : mem) (t i j e : Z).

Lemma entry_bounds m t i : 0 <= entry m t i < 18446744073709551616.
Proof. apply ld64_bounds. Qed.

Lemma entry_set m t i e t' j :
  t mod 4096 = 0 -> t' mod 4096 = 0 -> index_ok i -> index_ok j ->
  entry (set_entry m t i e) t' j =
    if decide (t' = t /\ j = i) then u64 e else entry m t' j.
Proof.
  unfold entry, set_entry, index_ok, ENTRIES_PER_TABLE. intros Ht Ht' Hi Hj.
  case_decide as E; [destruct E as [-> ->]; apply ld64_st64_eq|].
  apply ld64_st64_ne. destruct (decide (t' = t)); [lia|].
  apply Z.mod_divide in Ht as [q ->]; [|lia]. apply Z.mod_divide in Ht' as [q' ->]; [|lia]. lia.
Qed.

Lemma set_entry_only_differ m t i e :
  index_ok i -> only_differ m (set_entry m t i e) t 4096.
Proof.
  unfold index_ok, ENTRIES_PER_TABLE. intros. eapply only_differ_weaken; [apply st64_only_differ| |]; lia.
Qed.

Lemma fill_table_spec m t (f : Z -> Z) :
  t mod 4096 = 0 ->
  only_differ m (fill_table m t f) t 4096 /\
  forall i, index_ok i -> entry (fill_table m t f) t i = u64 (f i).
Proof.
  intros Ht.
  assert (H : only_differ m (fill_table m t f) t 4096 /\
    forall i, index_ok i -> i < ENTRIES_PER_TABLE -> entry (fill_table m t f) t i = u64 (f i)).
  { apply (for_each_inv 0 ENTRIES_PER_TABLE _ m (fun k m' => only_differ m m' t 4096 /\
      forall i, index_ok i -> i < k -> entry m' t i = u64 (f i))).
    - unfold ENTRIES_PER_TABLE. lia.
    - split; [done|]. intros i [? _] ?. lia.
    - intros k m' Hk [IH1 IH2]. split.
      + eapply only_differ_trans; [done|]. by apply set_entry_only_differ.
      + intros i Hi Hik. rewrite entry_set by done. case_decide as E; [by destruct E as [_ ->]|].
        apply IH2; [done|]. destruct (decide (i = k)); [|lia]. by destruct E. }
  split; [apply H|]. intros i Hi. apply H; [done|apply Hi].
Qed.

(** A table outside the bytes that changed keeps its entries. *)
Lemma entry_only_differ m m' t0 t i :
  only_differ m m' t0 4096 -> t0 mod 4096 = 0 -> t mod 4096 = 0 -> t <> t0 -> index_ok i ->
  entry m' t i = entry m t i.
Proof.
  intros H H0 Ht Hne [Hi Hi']. unfold ENTRIES_PER_TABLE in *. eapply only_differ_ld64; [done|].
  apply Z.mod_divide in Ht as [q ->]; [|lia]. apply Z.mod_divide in H0 as [q0 ->]; [|lia]. lia.
Qed.
End entries.

(** * The tree of tables *)

(** The next table an entry points to. *)
Definition link (e : Z) : option Z :=
  if has e PAGE_PRESENT && negb (has e PAGE_SIZE_2MB) then Some (table_addr e) else None.

(** The table at the end of a path of indices. *)
Fixpoint descend (m : mem) (t : Z) (path : list Z) : option Z :=
  match path with
  | [] => Some t
  | i :: path => link (entry m t i) ≫= fun t' => descend m t' path
  end.

(** Whether an entry, if it is a link, lets writes through, and whether all links on
    a path do; what is not there denies nothing. *)
Definition link_writable (e : Z) : bool :=
  match link e with Some _ => has e PAGE_WRITABLE | None => true end.

Fixpoint links_writable (m : mem) (t : Z) (path : list Z) : bool :=
  match path with
  | [] => true
  | i :: path =>
      link_writable (entry m t i) &&
      match link (entry m t i) with Some t' => links_writable m t' path | None => true end
  end.

Definition path_ok (r : list Z) : Prop := (length r <= 3)%nat /\ Forall index_ok r.

(** A well-formed address space: its tables are distinct allocated frames, only
    page directories hold large pages, and these are aligned and not open to
    user code. *)
Record space_wf (p : pmm) (m : mem) (root : Z) : Prop := {
  wf_table r t : path_ok r -> descend m root r = Some t ->
    aligned t /\ is_used p (frame_of t) = true;
  wf_inj r r' t : path_ok r -> path_ok r' ->
    descend m root r = Some t -> descend m root r' = Some t -> r = r';
  wf_upper r t i : path_ok r -> (length r <= 1)%nat -> index_ok i ->
    descend m root r = Some t -> has (entry m t i) PAGE_PRESENT = true ->
    has (entry m t i) PAGE_SIZE_2MB = false;
  wf_large r t i : path_ok r -> length r = 2%nat -> index_ok i ->
    descend m root r = Some t -> has (entry m t i) PAGE_PRESENT = true ->
    has (entry m t i) PAGE_SIZE_2MB = true ->
    table_addr (entry m t i) mod PAGE_2MB_SIZE = 0 /\ has (entry m t i) PAGE_USER = false;
}.

Lemma descend_snoc m t r i :
  descend m t (r ++ [i]) = descend m t r ≫= fun t' => link (entry m t' i).
Proof.
  revert t. induction r as [|j r IH]; intros t; simpl.
  - by destruct (link (entry m t i)).
  - destruct (link (entry m t j)); simpl; [apply IH|done].
Qed.

Lemma links_writable_snoc m t r i :
  links_writable m t (r ++ [i]) =
    links_writable m t r &&
    match descend m t r with Some t' => link_writable (entry m t' i) | None => true end.
Proof.
  revert t. induction r as [|j r IH]; intros t; simpl.
  - destruct (link (entry m t i)); by rewrite ?andb_true_r.
  - destruct (link (entry m t j)) as [t'|]; simpl; [by rewrite IH, andb_assoc|by rewrite !andb_true_r].
Qed.

Lemma path_ok_snoc r i :
  path_ok (r ++ [i]) <-> (length r <= 2)%nat /\ Forall index_ok r /\ index_ok i.
Proof.
  unfold path_ok. rewrite length_app, Forall_app, Forall_singleton. simpl.
  split; [intros (? & ? & ?)|intros (? & ? & ?)]; split_and!; try done; lia.
Qed.

Lemma path_ok_prefix r i : path_ok (r ++ [i]) -> path_ok r.
Proof. rewrite path_ok_snoc. intros (? & ? & _). split; [lia|done]. Qed.

Lemma links_writable_ext m m' root r :
  (forall q, path_ok q -> descend m' root q = descend m root q) ->
  (forall q t i, path_ok q -> descend m root q = Some t -> index_ok i -> entry m' t i = entry m t i) ->
  path_ok r -> links_writable m' root r = links_writable m root r.
Proof.
  intros D E. induction r as [|j r IH] using rev_ind; intros Hr; [done|].
  pose proof (path_ok_prefix r j Hr) as Hr'. apply path_ok_snoc in Hr as (_ & _ & Hj).
  rewrite !links_writable_snoc, IH, D by done. f_equal.
  destruct (descend m root r) as [t|] eqn:Ed; [|done]. by rewrite (E r t).
Qed.

Section update.
Context (p : pmm) (m : mem) (root : Z) (Hwf : space_wf p m root).
Implicit Types (q r : list Z) (t i j e f : Z).

Lemma table_aligned r t : path_ok r -> descend m root r = Some t -> t mod 4096 = 0.
Proof using Hwf. intros Hr Hd. apply (wf_table _ _ _ Hwf r t Hr Hd). Qed.

(** A link at [(q, i)] replaced by an equivalent one, or any entry of a last-level
    table replaced: no path changes. *)
Lemma descend_same_link q t i e r :
  path_ok q -> descend m root q = Some t -> index_ok i ->
  ((length q <= 2)%nat -> link (u64 e) = link (entry m t i)) ->
  path_ok r -> descend (set_entry m t i e) root r = descend m root r.
Proof using Hwf.
  intros Hq Hd Hi Hl. induction r as [|j r IH] using rev_ind; intros Hr; [done|].
  pose proof (path_ok_prefix r j Hr) as Hr'. apply path_ok_snoc in Hr as (Hlr & _ & Hj).
  rewrite !descend_snoc, IH by done. destruct (descend m root r) as [t'|] eqn:E; simpl; [|done].
  rewrite entry_set; eauto using table_aligned.
  case_decide as Ec; [|done]. destruct Ec as [-> ->]. apply Hl.
  by rewrite (wf_inj _ _ _ Hwf q r t).
Qed.

(** The entries seen through the tree after a store. *)
Lemma entry_same_link q t i e r t' j :
  path_ok q -> descend m root q = Some t -> index_ok i ->
  path_ok r -> descend m root r = Some t' -> index_ok j ->
  entry (set_entry m t i e) t' j = if decide (r = q /\ j = i) then u64 e else entry m t' j.
Proof using Hwf.
  intros Hq Hd Hi Hr Hd' Hj. rewrite entry_set; eauto using table_aligned.
  destruct (decide (r = q)) as [->|Hne].
  - assert (t' = t) as -> by congruence. by repeat case_decide; try tauto.
  - destruct (decide (t' = t)) as [->|]; [destruct Hne; by eapply (wf_inj _ _ _ Hwf)|].
    rewrite !decide_False by tauto. done.
Qed.

Lemma links_writable_same_link q t i e r :
  path_ok q -> descend m root q = Some t -> index_ok i ->
  ((length q <= 2)%nat -> link (u64 e) = link (entry m t i) /\
     link_writable (u64 e) = link_writable (entry m t i)) ->
  path_ok r -> links_writable (set_entry m t i e) root r = links_writable m root r.
Proof using Hwf.
  intros Hq Hd Hi Hl. induction r as [|j r IH] using rev_ind; intros Hr; [done|].
  pose proof (path_ok_prefix r j Hr) as Hr'. apply path_ok_snoc in Hr as (Hlr & _ & Hj).
  rewrite !links_writable_snoc, IH by done. f_equal.
  rewrite (descend_same_link q t i e r Hq Hd Hi (fun H => proj1 (Hl H)) Hr').
  destruct (descend m root r) as [t'|] eqn:E; [|done].
  rewrite (entry_same_link q t i e r t' j) by done.
  case_decide as Ec; [|done]. destruct Ec as [-> ->].
  assert (t' = t) as -> by congruence. by apply Hl.
Qed.

Lemma same_link_wf q t i e p' :
  path_ok q -> descend m root q = Some t -> index_ok i ->
  ((length q <= 2)%nat -> link (u64 e) = link (entry m t i) /\
     (has (u64 e) PAGE_PRESENT = true -> has (u64 e) PAGE_SIZE_2MB = false)) ->
  (forall f, 0 <= f -> is_used p f = true -> is_used p' f = true) ->
  space_wf p' (set_entry m t i e) root.
Proof using Hwf.
  intros Hq Hd Hi Hl Hp.
  pose proof (fun r => descend_same_link q t i e r Hq Hd Hi (fun H => proj1 (Hl H))) as D.
  split.
  - intros r t' Hr. rewrite D by done. intros Hd'.
    destruct (wf_table _ _ _ Hwf r t' Hr Hd') as [Ha Hu]. split; [done|].
    apply Hp; [|done]. unfold frame_of, PMM_FRAME_SIZE. destruct Ha. div_lia.
  - intros r r' t' Hr Hr'. rewrite !D by done. by apply (wf_inj _ _ _ Hwf).
  - intros r t' j Hr Hlr Hj. rewrite D by done. intros Hd'.
    rewrite (entry_same_link q t i e r t' j) by done.
    case_decide as Ec; [destruct Ec as [-> ->]; apply Hl; lia|]. by eapply (wf_upper _ _ _ Hwf).
  - intros r t' j Hr Hlr Hj. rewrite D by done. intros Hd'.
    rewrite (entry_same_link q t i e r t' j) by done.
    case_decide as Ec; [destruct Ec as [-> ->]|].
    { intros H1 H2. destruct (Hl ltac:(lia)) as [_ Hb]. by rewrite Hb in H2. }
    by eapply (wf_large _ _ _ Hwf).
Qed.

(** A new table [f], a frame that was free, linked at an entry that led nowhere. *)
Section fresh.
Context (p' : pmm) (m1 : mem) (q : list Z) (t i e f : Z).
Context (Hq : path_ok q) (Hd : descend m root q = Some t) (Hi : index_ok i)
  (Hlen : (length q <= 2)%nat) (Hnone : link (entry m t i) = None)
  (Hlink : link (u64 e) = Some f) (Hf : aligned f) (Hfree : is_used p (frame_of f) = false)
  (Hm1 : only_differ m m1 f 4096)
  (Hzero : (length q <= 1)%nat -> forall j, index_ok j -> entry m1 f j = 0)
  (Hp : forall g, 0 <= g -> is_used p' g = (frame_of f =? g) || is_used p g).

Lemma fresh_ne r t' : path_ok r -> descend m root r = Some t' -> t' <> f.
Proof using Hwf Hfree.
  intros Hr Hd' E. destruct (wf_table _ _ _ Hwf r t' Hr Hd') as [_ Hu]. congruence.
Qed.

Lemma entry_fresh_old r t' j :
  path_ok r -> descend m root r = Some t' -> index_ok j ->
  entry (set_entry m1 t i e) t' j = if decide (r = q /\ j = i) then u64 e else entry m t' j.
Proof using Hwf Hfree Hq Hd Hi Hf Hm1.
  intros Hr Hd' Hj. rewrite entry_set; eauto using table_aligned.
  rewrite (entry_only_differ m m1 f t' j);
    eauto using table_aligned; [|apply Hf|by eapply fresh_ne].
  destruct (decide (r = q)) as [->|Hne].
  - assert (t' = t) as -> by congruence. by repeat case_decide; try tauto.
  - destruct (decide (t' = t)) as [->|]; [destruct Hne; by eapply (wf_inj _ _ _ Hwf)|].
    rewrite !decide_False by tauto. done.
Qed.

Lemma entry_fresh_new j :
  index_ok j -> entry (set_entry m1 t i e) f j = entry m1 f j.
Proof using Hwf Hfree Hq Hd Hi Hf.
  intros Hj. rewrite entry_set; eauto using table_aligned; [|apply Hf].
  apply decide_False. intros [E _]. by apply (fresh_ne q t).
Qed.

Lemma descend_fresh r :
  path_ok r ->
  descend (set_entry m1 t i e) root r =
    if decide (r = q ++ [i]) then Some f else descend m root r.
Proof using All.
  induction r as [|j r IH] using rev_ind; intros Hr.
  { rewrite decide_False; [done|]. by destruct q. }
  pose proof (path_ok_prefix r j Hr) as Hr'. pose proof Hr as (Hlr & _ & Hj)%path_ok_snoc.
  rewrite !descend_snoc, IH by done. case_decide as Er.
  - simpl. rewrite entry_fresh_new, Hzero; [|rewrite Er, length_app in Hlr; simpl in Hlr; lia|done|done].
    rewrite decide_False.
    + rewrite Er, descend_snoc, Hd. simpl. by rewrite Hnone.
    + intros [-> _]%app_inj_tail. apply (f_equal length) in Er. rewrite length_app in Er.
      simpl in Er. lia.
  - destruct (descend m root r) as [t'|] eqn:E; simpl.
    + rewrite (entry_fresh_old r t' j) by done. repeat case_decide; try tauto.
      * by destruct H0; destruct H as [-> ->].
      * by apply app_inj_tail in H0.
    + rewrite decide_False; [done|]. intros [-> _]%app_inj_tail. congruence.
Qed.

Lemma links_writable_fresh r :
  has (u64 e) PAGE_WRITABLE = true ->
  path_ok r -> links_writable (set_entry m1 t i e) root r = links_writable m root r.
Proof using All.
  intros Hwr. induction r as [|j r IH] using rev_ind; intros Hr; [done|].
  pose proof (path_ok_prefix r j Hr) as Hr'. pose proof Hr as (Hlr & _ & Hj)%path_ok_snoc.
  rewrite !links_writable_snoc, IH by done. f_equal. rewrite descend_fresh by done. case_decide as Er.
  - rewrite entry_fresh_new, Hzero; [|rewrite Er, length_app in Hlr; simpl in Hlr; lia|done|done].
    rewrite Er, descend_snoc, Hd. cbn [mbind option_bind]. by rewrite Hnone.
  - destruct (descend m root r) as [t'|] eqn:E; [|done].
    rewrite (entry_fresh_old r t' j) by done. case_decide as Ec; [|done]. destruct Ec as [-> ->].
    assert (t' = t) as -> by congruence. unfold link_writable. by rewrite Hlink, Hwr, Hnone.
Qed.

Lemma fresh_wf : (has (u64 e) PAGE_SIZE_2MB = false) -> space_wf p' (set_entry m1 t i e) root.
Proof using All.
  intros Hbit.
  assert (Hfr : is_used p' (frame_of f) = true).
  { rewrite Hp, Z.eqb_refl; [done|]. destruct Hf. unfold frame_of, PMM_FRAME_SIZE. div_lia. }
  assert (Hold : forall r t', path_ok r -> descend m root r = Some t' ->
    aligned t' /\ is_used p' (frame_of t') = true).
  { intros r t' Hr Hd'. destruct (wf_table _ _ _ Hwf r t' Hr Hd') as [Ha Hu]. split; [done|].
    rewrite Hp, Hu; [apply orb_true_r|]. destruct Ha. unfold frame_of, PMM_FRAME_SIZE. div_lia. }
  split.
  - intros r t' Hr. rewrite descend_fresh by done. case_decide; [intros [= <-]; done|by apply Hold].
  - intros r r' t' Hr Hr'. rewrite !descend_fresh by done. repeat case_decide; intros H1 H2.
    + congruence.
    + destruct (fresh_ne r' t' Hr' H2). congruence.
    + destruct (fresh_ne r t' Hr H1). congruence.
    + by eapply (wf_inj _ _ _ Hwf).
  - intros r t' j Hr Hlr Hj. rewrite descend_fresh by done. case_decide as Er.
    + intros [= <-]. rewrite entry_fresh_new, Hzero; [done| |done|done].
      rewrite Er, length_app in Hlr. simpl in Hlr. lia.
    + intros Hd'. rewrite (entry_fresh_old r t' j) by done.
      case_decide; [done|]. by eapply (wf_upper _ _ _ Hwf).
  - intros r t' j Hr Hlr Hj. rewrite descend_fresh by done. case_decide as Er.
    + intros [= <-]. rewrite entry_fresh_new, Hzero; [done| |done|done].
      rewrite Er, length_app in Hlr. simpl in Hlr. lia.
    + intros Hd'. rewrite (entry_fresh_old r t' j) by done.
      case_decide; [by rewrite Hbit|]. by eapply (wf_large _ _ _ Hwf).
Qed.
End fresh.
End update.

(** * Translations *)

(** The attributes of a page that its last entry decides. *)
Definition PAGE_ATTRS : Z := 0x6.

Definition pte_view (e : Z) : option (Z * Z) :=
  if has e PAGE_PRESENT then Some (table_addr e, Z.land e PAGE_ATTRS) else None.

Definition large_view (e i : Z) : option (Z * Z) :=
  if has e PAGE_PRESENT && has e PAGE_SIZE_2MB
  then Some (table_addr e + i * PAGE_4KB_SIZE, Z.land e PAGE_ATTRS) else None.

Definition pd_path (va : Z) : list Z := [pml4_index va; pdpt_index va].
Definition pt_path (va : Z) : list Z := [pml4_index va; pdpt_index va; pd_index va].

(** The 4 KiB page that [va] is translated to, with its attributes. *)
Definition leaf (m : mem) (root va : Z) : option (Z * Z) :=
  match descend m root (pt_path va) with
  | Some pt => pte_view (entry m pt (pt_index va))
  | None =>
      descend m root (pd_path va) ≫= fun pd =>
      large_view (entry m pd (pd_index va)) (pt_index va)
  end.

Definition same_page (va va' : Z) : Prop :=
  pt_path va = pt_path va' /\ pt_index va = pt_index va'.

#[export] Instance same_page_dec va va' : Decision (same_page va va').
Proof. unfold same_page. apply _. Defined.

Lemma mask_index_ok (x : Z) : index_ok (Z.land x 0x1FF).
Proof.
  change 0x1FF with (Z.ones 9). rewrite Z.land_ones by lia.
  apply (Z.mod_pos_bound x (2 ^ 9)). lia.
Qed.

Lemma pml4_index_ok va : index_ok (pml4_index va).
Proof. apply mask_index_ok. Qed.
Lemma pdpt_index_ok va : index_ok (pdpt_index va).
Proof. apply mask_index_ok. Qed.
Lemma pd_index_ok va : index_ok (pd_index va).
Proof. apply mask_index_ok. Qed.
Lemma pt_index_ok va : index_ok (pt_index va).
Proof. apply mask_index_ok. Qed.
Create HintDb vmm.
#[export] Hint Resolve pml4_index_ok pdpt_index_ok pd_index_ok pt_index_ok : vmm.

Ltac path_ok :=
  split; [simpl; lia|repeat (apply Forall_cons; [auto with vmm|]); apply Forall_nil].

Lemma pml4_path_ok va : path_ok [pml4_index va].
Proof. path_ok. Qed.
Lemma pd_path_ok va : path_ok (pd_path va).
Proof. path_ok. Qed.
Lemma pt_path_ok va : path_ok (pt_path va).
Proof. path_ok. Qed.
Lemma nil_path_ok : path_ok [].
Proof. path_ok. Qed.
#[export] Hint Resolve pml4_path_ok pd_path_ok pt_path_ok nil_path_ok : vmm.

(** Two addresses are on the same page when their page numbers agree on the 36
    bits that are translated. *)
Lemma same_page_number va va' :
  0 <= va -> 0 <= va' ->
  same_page va va' <-> va / 4096 mod 2 ^ 36 = va' / 4096 mod 2 ^ 36.
Proof.
  intros H0 H0'. unfold same_page, pt_path, pml4_index, pdpt_index, pd_index, pt_index.
  rewrite !index_digit by lia.
  replace (2 ^ 39) with (4096 * 134217728) by done. replace (2 ^ 30) with (4096 * 262144) by done.
  replace (2 ^ 21) with (4096 * 512) by done. replace (2 ^ 12) with 4096 by done.
  rewrite <- !Z.div_div by lia.
  assert (0 <= va / 4096) by (apply Z.div_pos; lia).
  assert (0 <= va' / 4096) by (apply Z.div_pos; lia).
  generalize dependent (va / 4096). generalize dependent (va' / 4096). clear. intros y Hy x Hx.
  split.
  - intros [[= H1 H2 H3] H4]. div_lia.
  - intros H. split; [f_equal; [|f_equal; [|f_equal]]|]; div_lia.
Qed.

Lemma leaf_ext m m' root va :
  descend m' root (pt_path va) = descend m root (pt_path va) ->
  descend m' root (pd_path va) = descend m root (pd_path va) ->
  (forall pt, descend m root (pt_path va) = Some pt ->
     entry m' pt (pt_index va) = entry m pt (pt_index va)) ->
  (forall pd, descend m root (pt_path va) = None -> descend m root (pd_path va) = Some pd ->
     entry m' pd (pd_index va) = entry m pd (pd_index va)) ->
  leaf m' root va = leaf m root va.
Proof.
  intros H1 H2 H3 H4. unfold leaf. rewrite H1, H2.
  destruct (descend m root (pt_path va)) as [pt|] eqn:E1; [by rewrite H3|].
  destruct (descend m root (pd_path va)) as [pd|] eqn:E2; simpl; [by rewrite H4|done].
Qed.

(** What an operation on a space keeps: the tables' invariant, the frames in use, the
    tables, the user bit of their links and what the links say about writes, the
    translation of every page of [keep], and every byte that is neither in a table of
    the space nor in a frame that was free. *)
Record evolves (root : Z) (keep : Z -> Prop) (v v' : vmm) : Prop := {
  ev_space : space_wf (vm_pmm v') (vm_mem v') root;
  ev_pmm : pmm_wf (vm_pmm v') /\ is_used (vm_pmm v') 0 = true;
  ev_leaf va : keep va -> leaf (vm_mem v') root va = leaf (vm_mem v) root va;
  ev_used f : 0 <= f -> is_used (vm_pmm v) f = true -> is_used (vm_pmm v') f = true;
  ev_path r t : path_ok r -> descend (vm_mem v) root r = Some t ->
    descend (vm_mem v') root r = Some t;
  ev_user r t i : path_ok (r ++ [i]) -> descend (vm_mem v) root r = Some t ->
    is_Some (link (entry (vm_mem v) t i)) -> has (entry (vm_mem v) t i) PAGE_USER = true ->
    has (entry (vm_mem v') t i) PAGE_USER = true;
  ev_write r : path_ok r ->
    links_writable (vm_mem v') root r = links_writable (vm_mem v) root r;
  ev_table r t : path_ok r -> descend (vm_mem v') root r = Some t ->
    descend (vm_mem v) root r = Some t \/ is_used (vm_pmm v) (frame_of t) = false;
  ev_data a : 0 <= a -> is_used (vm_pmm v) (frame_of a) = true ->
    (forall r t, path_ok r -> descend (vm_mem v) root r = Some t -> frame_of a <> frame_of t) ->
    ld8 (vm_mem v') a = ld8 (vm_mem v) a;
  ev_regs : kernel_pml4 v' = kernel_pml4 v /\ cr3 v' = cr3 v;
}.

Definition vmm_wf (root : Z) (v : vmm) : Prop :=
  space_wf (vm_pmm v) (vm_mem v) root /\ pmm_wf (vm_pmm v) /\ is_used (vm_pmm v) 0 = true.

Lemma evolves_refl root keep v : vmm_wf root v -> evolves root keep v v.
Proof. intros (? & ? & ?). split; auto. Qed.

Lemma evolves_wf root keep v v' : evolves root keep v v' -> vmm_wf root v'.
Proof. intros H. split; [apply H|apply H]. Qed.

Lemma evolves_weaken root (keep keep' : Z -> Prop) v v' :
  evolves root keep v v' -> (forall va, keep' va -> keep va) -> evolves root keep' v v'.
Proof. intros [] ?. split; auto. Qed.

Lemma evolves_trans root keep v1 v2 v3 :
  evolves root keep v1 v2 -> evolves root keep v2 v3 -> evolves root keep v1 v3.
Proof.
  intros H1 H2. split; try apply H2.
  - intros va Hk. by rewrite (ev_leaf _ _ _ _ H2), (ev_leaf _ _ _ _ H1).
  - intros f Hf Hu. apply (ev_used _ _ _ _ H2); [done|]. by apply (ev_used _ _ _ _ H1).
  - intros r t Hr Hd. apply (ev_path _ _ _ _ H2); [done|]. by apply (ev_path _ _ _ _ H1).
  - intros r t i Hr Hd [t' Hl] Hu. pose proof (path_ok_prefix r i Hr) as Hr'.
    assert (Hd2 : descend (vm_mem v2) root (r ++ [i]) = Some t').
    { apply (ev_path _ _ _ _ H1); [done|]. rewrite descend_snoc, Hd. done. }
    rewrite descend_snoc, (ev_path _ _ _ _ H1 r t) in Hd2 by done.
    apply (ev_user _ _ _ _ H2 r); [done|by apply (ev_path _ _ _ _ H1)|by exists t'|].
    apply (ev_user _ _ _ _ H1 r); [done|done|by exists t'|done].
  - intros r Hr. by rewrite (ev_write _ _ _ _ H2), (ev_write _ _ _ _ H1).
  - intros r t Hr Hd.
    assert (Ht : 0 <= frame_of t).
    { destruct (wf_table _ _ _ (ev_space _ _ _ _ H2) r t Hr Hd) as [[_ ?] _].
      unfold frame_of, PMM_FRAME_SIZE. div_lia. }
    destruct (ev_table _ _ _ _ H2 r t Hr Hd) as [Hd1|Hu].
    + by apply (ev_table _ _ _ _ H1).
    + right. destruct (is_used (vm_pmm v1) (frame_of t)) eqn:E; [|done].
      by rewrite (ev_used _ _ _ _ H1) in Hu.
  - intros a Ha Hu Hn.
    assert (Hf : 0 <= frame_of a) by (unfold frame_of, PMM_FRAME_SIZE; div_lia).
    rewrite (ev_data _ _ _ _ H2); [by apply (ev_data _ _ _ _ H1)|done|by apply (ev_used _ _ _ _ H1)|].
    intros r t Hr Hd Ef. destruct (ev_table _ _ _ _ H1 r t Hr Hd) as [Hd1|Hu1].
    + by apply (Hn r t).
    + congruence.
  - destruct (ev_regs _ _ _ _ H1), (ev_regs _ _ _ _ H2). split; congruence.
Qed.

(** A byte of another frame is outside the table. *)
Lemma frame_apart a t : t mod 4096 = 0 -> frame_of a <> frame_of t -> ~ (t <= a < t + 4096).
Proof. unfold frame_of, PMM_FRAME_SIZE. intros. div_lia. Qed.

(** Replacing an entry by one with the same link. *)
Lemma evolves_same_link v root (q : list Z) (t i e : Z) :
  vmm_wf root v -> path_ok q -> descend (vm_mem v) root q = Some t -> index_ok i ->
  ((length q <= 2)%nat -> link (u64 e) = link (entry (vm_mem v) t i) /\
     is_Some (link (entry (vm_mem v) t i)) /\
     (has (entry (vm_mem v) t i) PAGE_USER = true -> has (u64 e) PAGE_USER = true) /\
     has (u64 e) PAGE_WRITABLE = has (entry (vm_mem v) t i) PAGE_WRITABLE) ->
  evolves root (fun va => (length q <= 2)%nat \/ ~ (pt_path va = q /\ pt_index va = i)) v
    (with_mem v (set_entry (vm_mem v) t i e)).
Proof.
  intros (Hw & Hp & H0) Hq Hd Hi Hl. set (m := vm_mem v) in *.
  pose proof (fun r => descend_same_link _ m root Hw q t i e r Hq Hd Hi (fun H => proj1 (Hl H))) as D.
  pose proof (fun r t' j => entry_same_link _ m root Hw q t i e r t' j Hq Hd Hi) as E.
  split; simpl; try done.
  - apply (same_link_wf _ m root Hw q t i e); try done.
    intros Hlen. destruct (Hl Hlen) as (El & [t' Es] & _). split; [done|]. intros _.
    rewrite Es in El. unfold link in El. by destruct (has (u64 e) PAGE_PRESENT), (has (u64 e) PAGE_SIZE_2MB).
  - intros va Hk. apply leaf_ext; [apply D; auto with vmm|apply D; auto with vmm| |].
    + intros pt Hpt. rewrite (E (pt_path va) pt) by auto with vmm. apply decide_False.
      intros [<- <-]. simpl in Hk. destruct Hk as [?|Hk]; [lia|]. by destruct Hk.
    + intros pd Hnone Hpd. rewrite (E (pd_path va) pd) by auto with vmm. apply decide_False.
      intros [<- <-]. destruct (Hl ltac:(simpl; lia)) as (_ & [t' Es] & _).
      change (pt_path va) with (pd_path va ++ [pd_index va]) in Hnone.
      fold m in Hnone. rewrite descend_snoc, Hd in Hnone. change (link (entry m t (pd_index va)) = None) in Hnone.
      by rewrite Es in Hnone.
  - intros r t' Hr. by rewrite D by done.
  - intros r t' j Hr Hd' _ Hu. fold m in Hd', Hu. pose proof (path_ok_prefix r j Hr) as Hr'.
    apply path_ok_snoc in Hr as (Hlr & _ & Hj). rewrite (E r t') by done.
    case_decide as Ec; [|done]. destruct Ec as [-> ->].
    assert (t' = t) as -> by congruence. by apply Hl.
  - intros r Hr. apply (links_writable_same_link _ m root Hw q t i e r); try done.
    intros Hlen. destruct (Hl Hlen) as (El & [t' Es] & _ & Ew). split; [done|].
    unfold link_writable. by rewrite El, Es, Ew.
  - intros r t' Hr. rewrite D by done. auto.
  - intros a Ha Hu Hn. apply (set_entry_only_differ _ t i e Hi).
    apply frame_apart; [exact (table_aligned _ _ _ Hw q t Hq Hd)|by apply (Hn q t)].
Qed.

(** Linking a table made of a frame just allocated, whose entries translate as
    the entry it replaces did. *)
Lemma evolves_fresh v root (p' : pmm) (m1 : mem) (q : list Z) (t i e f : Z) :
  vmm_wf root v -> path_ok q -> descend (vm_mem v) root q = Some t -> index_ok i ->
  (length q <= 2)%nat -> link (entry (vm_mem v) t i) = None ->
  link (u64 e) = Some f -> has (u64 e) PAGE_SIZE_2MB = false -> has (u64 e) PAGE_WRITABLE = true ->
  aligned f -> is_used (vm_pmm v) (frame_of f) = false ->
  pmm_wf p' -> (forall g, 0 <= g -> is_used p' g = (frame_of f =? g) || is_used (vm_pmm v) g) ->
  only_differ (vm_mem v) m1 f 4096 ->
  ((length q <= 1)%nat -> forall j, index_ok j -> entry m1 f j = 0) ->
  (length q = 2%nat -> forall j, index_ok j ->
     pte_view (entry m1 f j) = large_view (entry (vm_mem v) t i) j) ->
  let v' := with_mem (with_pmm v p') (set_entry m1 t i e) in
  evolves root (fun _ => True) v v' /\ descend (vm_mem v') root (q ++ [i]) = Some f.
Proof.
  intros (Hw & Hp & H0) Hq Hd Hi Hlen Hnone Hlink Hbit Hwr Hf Hfree Hp' Hused Hm1 Hzero Hview.
  pose proof (descend_fresh _ _ root Hw p' m1 q t i e f Hq Hd Hi Hlen Hnone Hlink Hf Hfree Hm1 Hzero
    Hused) as D.
  pose proof (entry_fresh_old _ _ root Hw m1 q t i e f Hq Hd Hi Hf Hfree Hm1) as E.
  pose proof (entry_fresh_new _ _ root Hw m1 q t i e f Hq Hd Hi Hf Hfree) as EN.
  pose proof (fresh_wf _ _ root Hw p' m1 q t i e f Hq Hd Hi Hlen Hnone Hlink Hf Hfree Hm1 Hzero
    Hused Hbit) as W.
  set (m := vm_mem v) in *. set (m' := set_entry m1 t i e) in *.
  assert (Hqi : path_ok (q ++ [i])).
  { apply path_ok_snoc. split_and!; [done|apply Hq|done]. }
  split; [split; simpl; try done|].
  - by rewrite Hused, H0, orb_true_r by lia.
  - intros va _. fold m m'.
    destruct (decide (pt_path va = q ++ [i])) as [E3|N3].
    { change (pt_path va) with (pd_path va ++ [pd_index va]) in E3.
      apply app_inj_tail in E3 as [<- <-]. unfold leaf.
      change (pt_path va) with (pd_path va ++ [pd_index va]).
      rewrite D, decide_True by done. rewrite EN by auto with vmm.
      rewrite (Hview eq_refl) by auto with vmm. rewrite descend_snoc, Hd.
      cbn [mbind option_bind]. by rewrite Hnone. }
    assert (D3 : descend m' root (pt_path va) = descend m root (pt_path va)).
    { rewrite D by auto with vmm. by apply decide_False. }
    destruct (decide (pd_path va = q ++ [i])) as [E2|N2].
    { assert (Hpd : descend m root (pd_path va) = None).
      { rewrite E2, descend_snoc, Hd. simpl. by rewrite Hnone. }
      assert (Hpt : descend m root (pt_path va) = None).
      { change (pt_path va) with (pd_path va ++ [pd_index va]). by rewrite descend_snoc, Hpd. }
      unfold leaf. rewrite D3, Hpt, Hpd, D, decide_True by auto with vmm. simpl.
      rewrite EN, Hzero; [done| |auto with vmm|auto with vmm].
      apply (f_equal length) in E2. rewrite length_app in E2. simpl in E2. lia. }
    apply leaf_ext; [done| | |].
    + rewrite D by auto with vmm. by apply decide_False.
    + intros pt Hpt. rewrite (E (pt_path va) pt) by auto with vmm. apply decide_False.
      intros [E1 _]. rewrite <- E1 in Hlen. simpl in Hlen. lia.
    + intros pd _ Hpd. rewrite (E (pd_path va) pd) by auto with vmm. apply decide_False.
      intros [E1 E2]. apply N3. rewrite <- E1, <- E2. done.
  - intros g Hg Hu. by rewrite Hused, Hu, orb_true_r.
  - intros r t' Hr Hd'. fold m in Hd'. fold m m'. rewrite D by done. case_decide as Er; [|done].
    rewrite Er, descend_snoc, Hd in Hd'. cbn [mbind option_bind] in Hd'. by rewrite Hnone in Hd'.
  - intros r t' j Hr Hd' [t2 Hl] Hu. pose proof (path_ok_prefix r j Hr) as Hr'.
    apply path_ok_snoc in Hr as (_ & _ & Hj). fold m in Hd', Hl. fold m m'. rewrite (E r t') by done.
    case_decide as Ec; [|done]. destruct Ec as [-> ->].
    assert (t' = t) as -> by congruence. by rewrite Hnone in Hl.
  - intros r Hr. by apply (links_writable_fresh _ m root Hw p' m1 q t i e f Hq Hd Hi Hlen Hnone Hlink Hf Hfree Hm1
      Hzero Hused).
  - intros r t' Hr. fold m m'. rewrite D by done. case_decide; [intros [= <-]; by right|by left].
  - intros a Ha Hu Hn. fold m m'. fold m in Hn.
    transitivity (ld8 m1 a).
    + apply (set_entry_only_differ _ t i e Hi).
      apply frame_apart; [exact (table_aligned _ _ _ Hw q t Hq Hd)|by apply (Hn q t)].
    + apply Hm1, frame_apart; [apply Hf|]. intros Ef. rewrite <- Ef in Hfree. congruence.
  - change (descend m' root (q ++ [i]) = Some f). rewrite D by done. by apply decide_True.
Qed.

(** * The operations *)

Definition no_frames (v : vmm) : Prop :=
  forall f, 0 <= f < PMM_MAX_FRAMES -> is_used (vm_pmm v) f = true.

(** A frame address with flag bits below it. *)
Lemma frame_entry (f x b : Z) :
  aligned f -> 0 <= x < 4096 -> 0 <= b < 4096 ->
  u64 (Z.lor f x) = Z.lor f x /\ table_addr (Z.lor f x) = f /\ has (Z.lor f x) b = has x b.
Proof.
  unfold aligned, PMM_MAX_MEMORY. intros [Ha Hb] Hx Hbit. split_and!.
  - apply u64_small. apply (lor_bound f x 64); lia.
  - rewrite table_addr_lor by (by apply table_addr_low). apply table_addr_page; lia.
  - by rewrite has_lor, has_page.
Qed.

Lemma frame_link (f x : Z) :
  aligned f -> 0 <= x < 4096 -> has x PAGE_PRESENT = true -> has x PAGE_SIZE_2MB = false ->
  link (u64 (Z.lor f x)) = Some f /\ has (u64 (Z.lor f x)) PAGE_SIZE_2MB = false /\
  has (u64 (Z.lor f x)) PAGE_WRITABLE = has x PAGE_WRITABLE.
Proof.
  intros Hf Hx Hp Hb.
  destruct (frame_entry f x PAGE_PRESENT Hf Hx ltac:(unfold PAGE_PRESENT; lia)) as (-> & Ha & Hp').
  destruct (frame_entry f x PAGE_SIZE_2MB Hf Hx ltac:(unfold PAGE_SIZE_2MB; lia)) as (_ & _ & Hb').
  destruct (frame_entry f x PAGE_WRITABLE Hf Hx ltac:(unfold PAGE_WRITABLE; lia)) as (_ & _ & Hw').
  unfold link. by rewrite Ha, Hp', Hb', Hw', Hp, Hb.
Qed.

(** Adding the user bit to an entry. *)
Lemma user_bit (e : Z) :
  0 <= e < 18446744073709551616 ->
  u64 (Z.lor e PAGE_USER) = Z.lor e PAGE_USER /\ link (Z.lor e PAGE_USER) = link e /\
  has (Z.lor e PAGE_USER) PAGE_USER = true /\ has (Z.lor e PAGE_USER) PAGE_WRITABLE = has e PAGE_WRITABLE.
Proof.
  intros He. unfold link. rewrite !has_lor, table_addr_lor by done.
  change (has PAGE_USER PAGE_PRESENT) with false. change (has PAGE_USER PAGE_SIZE_2MB) with false.
  change (has PAGE_USER PAGE_USER) with true. change (has PAGE_USER PAGE_WRITABLE) with false. rewrite !orb_false_r, orb_true_r. split; [|done].
  apply u64_small. apply (lor_bound e PAGE_USER 64); [lia|unfold PAGE_USER; lia|lia].
Qed.

(** What the frame allocator gives the paging code. *)
Lemma vmm_alloc_cases v root :
  vmm_wf root v ->
  (pmm_alloc_frame (vm_pmm v) = (vm_pmm v, 0) /\ no_frames v) \/
  exists p' f, pmm_alloc_frame (vm_pmm v) = (p', f) /\ f <> 0 /\ aligned f /\
    is_used (vm_pmm v) (frame_of f) = false /\ pmm_wf p' /\
    (forall g, 0 <= g -> is_used p' g = (frame_of f =? g) || is_used (vm_pmm v) g).
Proof.
  intros (_ & Hp & H0).
  destruct (pmm_alloc_frame_spec (vm_pmm v) Hp) as [Hall|f p' Hf Hfree Hu _ _ _ _ Hw]; [by left|].
  right. exists p', (f * PMM_FRAME_SIZE).
  assert (Hfo : frame_of (f * PMM_FRAME_SIZE) = f) by (unfold frame_of; apply Z.div_mul; done).
  assert (f <> 0) by (intros ->; congruence).
  rewrite Hfo. unfold PMM_FRAME_SIZE in *. frames. split_and!; try done; [lia|].
  split; [apply Z.mod_mul; lia|unfold PMM_MAX_MEMORY; lia].
Qed.

Lemma with_pmm_id v : with_pmm v (vm_pmm v) = v.
Proof. by destruct v. Qed.

(** Setting the user bit of a link. *)
Lemma set_user_spec v root (q : list Z) (t i t' : Z) :
  vmm_wf root v -> path_ok (q ++ [i]) -> descend (vm_mem v) root q = Some t ->
  link (entry (vm_mem v) t i) = Some t' ->
  let v' := with_mem v (set_entry (vm_mem v) t i (Z.lor (entry (vm_mem v) t i) PAGE_USER)) in
  evolves root (fun _ => True) v v' /\ has (entry (vm_mem v') t i) PAGE_USER = true /\
  table_addr (entry (vm_mem v') t i) = t'.
Proof.
  intros Hw Hqi Hd Hl. pose proof (path_ok_prefix q i Hqi) as Hq.
  apply path_ok_snoc in Hqi as (Hlen & _ & Hi).
  destruct (user_bit (entry (vm_mem v) t i) (entry_bounds _ _ _)) as (Hu64 & Hl' & Hu & Hwr).
  simpl. split.
  - eapply evolves_weaken; [apply (evolves_same_link v root q); try done|by left].
    intros _. rewrite Hu64, Hl', Hl. split_and!; [done|by exists t'|done|done].
  - pose proof (table_aligned _ _ _ (proj1 Hw) q t Hq Hd) as Ha.
    rewrite entry_set, decide_True, Hu64 by done. split; [done|].
    rewrite <- Hl' in Hl. unfold link in Hl.
    destruct (has _ _ && _); [by injection Hl|done].
Qed.

(** [get_or_create_table]: the next table, present and open to user code, or the
    failure of the frame allocator. *)
Lemma get_or_create_table_spec v root (q : list Z) (t i : Z) :
  vmm_wf root v -> path_ok (q ++ [i]) -> (length q <= 1)%nat ->
  descend (vm_mem v) root q = Some t ->
  let (v', t') := get_or_create_table v t i in
  evolves root (fun _ => True) v v' /\
  ((t' = 0 /\ no_frames v') \/
   (t' <> 0 /\ descend (vm_mem v') root (q ++ [i]) = Some t' /\
    has (entry (vm_mem v') t i) PAGE_USER = true)).
Proof.
  intros Hw Hqi Hlen Hd. pose proof (path_ok_prefix q i Hqi) as Hq.
  pose proof Hqi as (_ & _ & Hi)%path_ok_snoc.
  assert (Hfin : forall v1 t', evolves root (fun _ => True) v v1 ->
    descend (vm_mem v1) root (q ++ [i]) = Some t' ->
    let m := set_entry (vm_mem v1) t i (Z.lor (entry (vm_mem v1) t i) PAGE_USER) in
    evolves root (fun _ => True) v (with_mem v1 m) /\
    ((table_addr (entry m t i) = 0 /\ no_frames (with_mem v1 m)) \/
     (table_addr (entry m t i) <> 0 /\
      descend m root (q ++ [i]) = Some (table_addr (entry m t i)) /\
      has (entry m t i) PAGE_USER = true))).
  { intros v1 t' He Hd'. pose proof (evolves_wf _ _ _ _ He) as Hw1.
    pose proof (ev_path _ _ _ _ He q t Hq Hd) as Hd1.
    pose proof Hd' as Hl. rewrite descend_snoc, Hd1 in Hl. cbn [mbind option_bind] in Hl.
    destruct (set_user_spec v1 root q t i t' Hw1 Hqi Hd1 Hl) as (He1 & Hu & Ht). simpl in Hu, Ht.
    cbv zeta. rewrite Ht. split; [by eapply evolves_trans|]. right.
    pose proof (ev_path _ _ _ _ He1 _ _ Hqi Hd') as Hd2. split_and!; [|done|done].
    destruct (wf_table _ _ _ (proj1 Hw1) _ _ Hqi Hd') as [[_ ?] _]. lia. }
  unfold get_or_create_table. destruct (has (entry (vm_mem v) t i) PAGE_PRESENT) eqn:Hpres; simpl.
  - apply (Hfin v (table_addr (entry (vm_mem v) t i))); [by apply evolves_refl|].
    rewrite descend_snoc, Hd. cbn [mbind option_bind]. unfold link.
    by rewrite Hpres, (wf_upper _ _ _ (proj1 Hw) q).
  - destruct (vmm_alloc_cases v root Hw) as [[-> Hno]|(p' & f & -> & Hf0 & Hf & Hfree & Hp' & Hus)].
    + simpl. rewrite with_pmm_id. split; [by apply evolves_refl|by left].
    + replace (f =? 0) with false by lia. cbn [vm_mem with_pmm].
      destruct (fill_table_spec (vm_mem v) f (fun _ => 0) (proj1 Hf)) as [Hm1 Hz].
      generalize dependent (fill_table (vm_mem v) f (fun _ => 0)). intros m1 Hm1 Hz.
      rewrite <- Z.lor_assoc.
      destruct (frame_link f (Z.lor PAGE_PRESENT PAGE_WRITABLE) Hf ltac:(done) eq_refl eq_refl)
        as (Hl & Hb & Hwr).
      destruct (evolves_fresh v root p' m1 q t i
        (Z.lor f (Z.lor PAGE_PRESENT PAGE_WRITABLE)) f) as [He Hd']; try done.
      * lia.
      * unfold link. by rewrite Hpres.
      * lia.
      * exact (Hfin _ f He Hd').
Qed.

Lemma land_page (a x : Z) : a mod 4096 = 0 -> 0 <= x < 4096 -> Z.land a x = 0.
Proof.
  intros Ha Hx. pose proof (has_page a x Ha Hx) as H. unfold has in H.
  by apply negb_false_iff, Z.eqb_eq in H.
Qed.

(** The entries of a page table made from a 2 MiB page. *)
Lemma split_view (e j : Z) :
  has e PAGE_PRESENT = true -> has e PAGE_SIZE_2MB = true ->
  table_addr e mod PAGE_2MB_SIZE = 0 -> has e PAGE_USER = false -> index_ok j ->
  pte_view (u64 (Z.lor (table_addr e +64 j * PAGE_4KB_SIZE)
                       (Z.land e (Z.lor PAGE_PRESENT PAGE_WRITABLE)))) = large_view e j.
Proof.
  intros Hp Hb Hal Hu Hj. pose proof (table_addr_bounds e) as Hbd.
  unfold index_ok, ENTRIES_PER_TABLE in Hj. unfold PAGE_2MB_SIZE, PAGE_4KB_SIZE in *.
  unfold large_view, PAGE_4KB_SIZE. rewrite Hp, Hb. simpl.
  assert (Ha : 0 <= table_addr e + j * 4096 < 2 ^ 52) by div_lia.
  assert (Ham : (table_addr e + j * 4096) mod 4096 = 0) by (clear Ha; div_lia).
  rewrite (u64_small (table_addr e + _)) by lia.
  set (a := table_addr e + j * 4096) in *. clearbody a.
  set (fl := Z.land e 3).
  assert (Hfl : 0 <= fl < 4096).
  { unfold fl. change 3 with (Z.ones 2). rewrite Z.land_ones by lia.
    pose proof (Z.mod_pos_bound e (2 ^ 2)). lia. }
  change (Z.land e (Z.lor PAGE_PRESENT PAGE_WRITABLE)) with fl.
  rewrite u64_small by (apply (lor_bound a fl 64); lia).
  unfold pte_view. rewrite has_lor, (has_page a PAGE_PRESENT) by (done || unfold PAGE_PRESENT; lia).
  unfold fl at 1. rewrite has_land, Hp by done. simpl.
  rewrite table_addr_lor by (by apply table_addr_low). rewrite table_addr_page by done.
  f_equal. f_equal. rewrite Z.land_lor_distr_l, land_page by (done || unfold PAGE_ATTRS; lia).
  rewrite Z.lor_0_l. unfold fl, PAGE_ATTRS. rewrite <- Z.land_assoc. change (Z.land 3 6) with 2.
  change 6 with (Z.lor 2 4). rewrite Z.land_lor_distr_r.
  unfold has, PAGE_USER in Hu. apply negb_false_iff, Z.eqb_eq in Hu. by rewrite Hu, Z.lor_0_r.
Qed.

Lemma pte_view_absent e i : has e PAGE_PRESENT = false -> pte_view (u64 0) = large_view e i.
Proof. intros H. unfold large_view. by rewrite H. Qed.

Lemma get_or_split_pt_spec v root (va pd : Z) :
  vmm_wf root v -> descend (vm_mem v) root (pd_path va) = Some pd ->
  let (v', pt) := get_or_split_pt v pd (pd_index va) in
  evolves root (fun _ => True) v v' /\
  ((pt = 0 /\ no_frames v') \/
   (pt <> 0 /\ descend (vm_mem v') root (pt_path va) = Some pt)).
Proof.
  intros Hw Hd. set (e := entry (vm_mem v) pd (pd_index va)).
  assert (Hfresh : forall g : Z -> Z, link e = None ->
    (forall j, index_ok j -> pte_view (u64 (g j)) = large_view e j) ->
    let (v', pt) :=
      let (p, frame) := pmm_alloc_frame (vm_pmm v) in
      if frame =? 0 then (with_pmm v p, 0)
      else (with_mem (with_pmm v p)
              (set_entry (fill_table (vm_mem v) frame g) pd (pd_index va)
                 (Z.lor (Z.lor (Z.lor frame PAGE_PRESENT) PAGE_WRITABLE) PAGE_USER)), frame) in
    evolves root (fun _ => True) v v' /\
    ((pt = 0 /\ no_frames v') \/
     (pt <> 0 /\ descend (vm_mem v') root (pt_path va) = Some pt))).
  { intros g Hl Hg.
    destruct (vmm_alloc_cases v root Hw) as [[-> Hno]|(p' & f & -> & Hf0 & Hf & Hfree & Hp' & Hus)].
    { simpl. rewrite with_pmm_id. split; [by apply evolves_refl|by left]. }
    replace (f =? 0) with false by lia.
    destruct (fill_table_spec (vm_mem v) f g (proj1 Hf)) as [Hm1 Hz].
    generalize dependent (fill_table (vm_mem v) f g). intros m1 Hm1 Hz.
    rewrite <- !Z.lor_assoc.
    destruct (frame_link f (Z.lor PAGE_PRESENT (Z.lor PAGE_WRITABLE PAGE_USER)) Hf ltac:(done)
      eq_refl eq_refl) as (Hl' & Hb & Hwr).
    destruct (evolves_fresh v root p' m1 (pd_path va) pd (pd_index va)
      (Z.lor f (Z.lor PAGE_PRESENT (Z.lor PAGE_WRITABLE PAGE_USER))) f) as [He Hd'];
      try done; auto with vmm.
    - simpl. lia.
    - intros _ j Hj. rewrite Hz by done. by apply Hg. }
  unfold get_or_split_pt. fold e. destruct (has e PAGE_PRESENT) eqn:Hp.
  - destruct (has e PAGE_SIZE_2MB) eqn:Hb.
    + destruct (wf_large _ _ _ (proj1 Hw) (pd_path va) pd (pd_index va)) as [Hal Hu];
        auto with vmm. fold e in Hal, Hu.
      apply Hfresh; [unfold link; by rewrite Hp, Hb|]. intros j Hj. by apply split_view.
    + assert (Hd' : descend (vm_mem v) root (pt_path va) = Some (table_addr e)).
      { change (pt_path va) with (pd_path va ++ [pd_index va]). rewrite descend_snoc, Hd.
        cbn [mbind option_bind]. fold e. unfold link. by rewrite Hp, Hb. }
      split; [by apply evolves_refl|right]. split; [|done].
      destruct (wf_table _ _ _ (proj1 Hw) (pt_path va) (table_addr e)) as [[_ ?] _];
        auto with vmm. lia.
  - apply (Hfresh (fun _ => 0)); [unfold link; by rewrite Hp|].
    intros j Hj. by apply pte_view_absent.
Qed.

(** Every link on the way to the page table of [va] is open to user code. *)
Definition user_path (m : mem) (root va : Z) : Prop :=
  has (entry m root (pml4_index va)) PAGE_USER = true /\
  (forall t, descend m root [pml4_index va] = Some t ->
     has (entry m t (pdpt_index va)) PAGE_USER = true) /\
  (forall t, descend m root (pd_path va) = Some t ->
     has (entry m t (pd_index va)) PAGE_USER = true).

Lemma get_or_split_pt_entry_spec v root (va : Z) :
  vmm_wf root v ->
  let (v', o) := get_or_split_pt_entry v root va in
  evolves root (fun _ => True) v v' /\
  ((o = None /\ no_frames v') \/
   exists pt, o = Some (pt, pt_index va) /\
     descend (vm_mem v') root (pt_path va) = Some pt /\ user_path (vm_mem v') root va).
Proof.
  intros Hw. unfold get_or_split_pt_entry.
  assert (P1 : path_ok ([] ++ [pml4_index va])) by apply pml4_path_ok.
  assert (P2 : path_ok ([pml4_index va] ++ [pdpt_index va])) by apply pd_path_ok.
  assert (P3 : path_ok (pd_path va ++ [pd_index va])) by apply pt_path_ok.
  pose proof (get_or_create_table_spec v root [] root (pml4_index va) Hw P1
    ltac:(simpl; lia) eq_refl) as H1.
  destruct (get_or_create_table v root (pml4_index va)) as [v1 t1].
  destruct H1 as [E1 [[-> Hno]|(N1 & D1 & U1)]]; [split; [exact E1|by left]|].
  replace (t1 =? 0) with false by lia.
  pose proof (get_or_create_table_spec v1 root [pml4_index va] t1 (pdpt_index va)
    (evolves_wf _ _ _ _ E1) P2 ltac:(simpl; lia) D1) as H2.
  destruct (get_or_create_table v1 t1 (pdpt_index va)) as [v2 t2].
  destruct H2 as [E2 [[-> Hno]|(N2 & D2 & U2)]].
  { split; [by eapply evolves_trans|by left]. }
  replace (t2 =? 0) with false by lia.
  pose proof (get_or_split_pt_spec v2 root va t2 (evolves_wf _ _ _ _ E2) D2) as H3.
  destruct (get_or_split_pt v2 t2 (pd_index va)) as [v3 t3].
  destruct H3 as [E3 [[-> Hno]|(N3 & D3)]].
  { split; [eapply evolves_trans; [exact E1|by eapply evolves_trans]|by left]. }
  replace (t3 =? 0) with false by lia.
  assert (Dp : descend (vm_mem v3) root (pd_path va) = Some t2).
  { apply (ev_path _ _ _ _ E3); [auto with vmm|done]. }
  assert (L3 : link (entry (vm_mem v3) t2 (pd_index va)) = Some t3).
  { change (pt_path va) with (pd_path va ++ [pd_index va]) in D3.
    rewrite descend_snoc, Dp in D3. done. }
  destruct (set_user_spec v3 root (pd_path va) t2 (pd_index va) t3 (evolves_wf _ _ _ _ E3)
    P3 Dp L3) as (E4 & U4 & _).
  set (v4 := with_mem v3 _) in *. change (with_mem v3 _) with v4.
  pose proof (evolves_trans _ _ _ _ _ E3 E4) as E34.
  pose proof (evolves_trans _ _ _ _ _ E2 E34) as E24. split; [by eapply evolves_trans|].
  right. exists t3. split; [done|]. split; [by apply (ev_path _ _ _ _ E4); [auto with vmm|]|].
  pose proof (ev_path _ _ _ _ E24 _ _ P1 D1) as D1'. pose proof (ev_path _ _ _ _ E34 _ _ P2 D2) as D2'.
  assert (L1 : link (entry (vm_mem v1) root (pml4_index va)) = Some t1).
  { rewrite descend_snoc in D1. exact D1. }
  assert (L2 : link (entry (vm_mem v2) t1 (pdpt_index va)) = Some t2).
  { rewrite descend_snoc, (ev_path _ _ _ _ E2 [pml4_index va] t1) in D2; [exact D2|auto with vmm|done]. }
  split_and!.
  - by apply (ev_user _ _ _ _ E24 [] root); [..|exists t1|].
  - intros t Ht. assert (t = t1) as -> by (cbn [app] in D1'; congruence).
    apply (ev_user _ _ _ _ E34 [pml4_index va]); [done| |by exists t2|done].
    apply (ev_path _ _ _ _ E2); [auto with vmm|done].
  - intros t Ht. assert (t = t2) as -> by (change ([pml4_index va] ++ [pdpt_index va])
      with (pd_path va) in D2'; congruence). done.
Qed.

(** * The processor's walk *)

(** The translation of [va] by the MMU, from a table of the given level: the
    physical address, and whether writes and user accesses are allowed. *)
Fixpoint mmu_walk (level : nat) (m : mem) (t va : Z) : option (Z * bool * bool) :=
  let size := 2 ^ (12 + 9 * Z.of_nat level) in
  let e := entry m t (va / size mod 512) in
  if negb (has e PAGE_PRESENT) then None
  else
    match level with
    | O => Some (table_addr e + va mod size, has e PAGE_WRITABLE, has e PAGE_USER)
    | S level' =>
        if has e PAGE_SIZE_2MB then
          if decide (level = 3%nat) then None
          else Some (table_addr e / size * size + va mod size, has e PAGE_WRITABLE, has e PAGE_USER)
        else
          '(p, w, u) ← mmu_walk level' m (table_addr e) va;
          Some (p, has e PAGE_WRITABLE && w, has e PAGE_USER && u)
    end.

(** The page that an architectural walk finds, and its last entry's rights. *)
Definition walk (m : mem) (root va : Z) : option (Z * bool * bool) := mmu_walk 3 m root va.

(** The walk in the terms of the tree: the rights of the links and the leaf. *)
Lemma mmu_walk_unfold m root va :
  walk m root va =
  let l4 := entry m root (pml4_index va) in
  let l3 := entry m (table_addr l4) (pdpt_index va) in
  let l2 := entry m (table_addr l3) (pd_index va) in
  let l1 := entry m (table_addr l2) (pt_index va) in
  if negb (has l4 PAGE_PRESENT) || has l4 PAGE_SIZE_2MB then None
  else if negb (has l3 PAGE_PRESENT) then None
  else if has l3 PAGE_SIZE_2MB then
    Some (table_addr l3 / 2 ^ 30 * 2 ^ 30 + va mod 2 ^ 30,
          has l4 PAGE_WRITABLE && has l3 PAGE_WRITABLE, has l4 PAGE_USER && has l3 PAGE_USER)
  else if negb (has l2 PAGE_PRESENT) then None
  else if has l2 PAGE_SIZE_2MB then
    Some (table_addr l2 / 2 ^ 21 * 2 ^ 21 + va mod 2 ^ 21,
          has l4 PAGE_WRITABLE && (has l3 PAGE_WRITABLE && has l2 PAGE_WRITABLE),
          has l4 PAGE_USER && (has l3 PAGE_USER && has l2 PAGE_USER))
  else if negb (has l1 PAGE_PRESENT) then None
  else
    Some (table_addr l1 + va mod 2 ^ 12,
          has l4 PAGE_WRITABLE && (has l3 PAGE_WRITABLE && (has l2 PAGE_WRITABLE && has l1 PAGE_WRITABLE)),
          has l4 PAGE_USER && (has l3 PAGE_USER && (has l2 PAGE_USER && has l1 PAGE_USER))).
Proof.
  unfold walk, pml4_index, pdpt_index, pd_index, pt_index. rewrite !index_digit by lia.
  cbn [mmu_walk]. change (12 + 9 * Z.of_nat 3) with 39. change (12 + 9 * Z.of_nat 2) with 30.
  change (12 + 9 * Z.of_nat 1) with 21. change (12 + 9 * Z.of_nat 0) with 12.
  cbv zeta. rewrite decide_True by done. rewrite !decide_False by done.
  by repeat (split_if; try done; cbn [negb orb mbind option_bind]).
Qed.

Lemma link_none e : has e PAGE_PRESENT = false -> link e = None.
Proof. intros H. unfold link. by rewrite H. Qed.
Lemma link_some e :
  has e PAGE_PRESENT = true -> has e PAGE_SIZE_2MB = false -> link e = Some (table_addr e).
Proof. intros H1 H2. unfold link. by rewrite H1, H2. Qed.

(** The entries a walk reads. *)
Definition l4_entry (m : mem) (root va : Z) : Z := entry m root (pml4_index va).
Definition l3_entry (m : mem) (root va : Z) : Z :=
  entry m (table_addr (l4_entry m root va)) (pdpt_index va).
Definition l2_entry (m : mem) (root va : Z) : Z :=
  entry m (table_addr (l3_entry m root va)) (pd_index va).
Definition l1_entry (m : mem) (root va : Z) : Z :=
  entry m (table_addr (l2_entry m root va)) (pt_index va).

Section walks.
Context (p : pmm) (m : mem) (root va : Z) (Hw : space_wf p m root).
#[local] Abbreviation l4 := (l4_entry m root va).
#[local] Abbreviation l3 := (l3_entry m root va).
#[local] Abbreviation l2 := (l2_entry m root va).
#[local] Abbreviation l1 := (l1_entry m root va).

(** The upper levels hold no large pages, so presence is what decides a link. *)
Lemma levels_cases :
  (has l4 PAGE_PRESENT = true -> has l4 PAGE_SIZE_2MB = false /\
   (has l3 PAGE_PRESENT = true -> has l3 PAGE_SIZE_2MB = false /\
    (has l2 PAGE_PRESENT = true -> has l2 PAGE_SIZE_2MB = true ->
       table_addr l2 mod PAGE_2MB_SIZE = 0))).
Proof using Hw.
  intros H4. assert (L4 : has l4 PAGE_SIZE_2MB = false).
  { exact (wf_upper _ _ _ Hw [] root (pml4_index va) nil_path_ok
      ltac:(simpl; lia) (pml4_index_ok va) eq_refl H4). }
  split; [exact L4|].
  assert (D4 : descend m root [pml4_index va] = Some (table_addr l4)).
  { cbn [descend]. fold (l4_entry m root va). unfold link. by rewrite H4, L4. }
  intros H3. assert (L3 : has l3 PAGE_SIZE_2MB = false).
  { exact (wf_upper _ _ _ Hw _ _ (pdpt_index va) (pml4_path_ok va)
      ltac:(simpl; lia) (pdpt_index_ok va) D4 H3). }
  split; [exact L3|].
  assert (D3 : descend m root (pd_path va) = Some (table_addr l3)).
  { change (pd_path va) with ([pml4_index va] ++ [pdpt_index va]).
    rewrite descend_snoc, D4. cbn [mbind option_bind]. fold (l3_entry m root va). unfold link. by rewrite H3, L3. }
  intros H2 L2. by apply (wf_large _ _ _ Hw _ _ (pd_index va) (pd_path_ok va) eq_refl (pd_index_ok va) D3).
Qed.

(** The translations of the tree, level by level. *)
Lemma leaf_unfold :
  leaf m root va =
    if negb (has l4 PAGE_PRESENT) then None
    else if negb (has l3 PAGE_PRESENT) then None
    else if has l2 PAGE_PRESENT && negb (has l2 PAGE_SIZE_2MB) then pte_view l1
    else large_view l2 (pt_index va).
Proof using Hw.
  pose proof levels_cases as Hc. unfold leaf, pt_path, pd_path. cbn [descend].
  fold (l4_entry m root va).
  destruct (has l4 PAGE_PRESENT) eqn:E4; [|by rewrite (link_none l4)].
  destruct (Hc eq_refl) as [L4 Hc3]. rewrite (link_some l4) by done.
  cbn [negb mbind option_bind]. fold (l3_entry m root va).
  destruct (has l3 PAGE_PRESENT) eqn:E3; [|by rewrite (link_none l3)].
  destruct (Hc3 eq_refl) as [L3 _]. rewrite (link_some l3) by done.
  cbn [negb mbind option_bind]. fold (l2_entry m root va). unfold link.
  by destruct (has l2 PAGE_PRESENT && negb (has l2 PAGE_SIZE_2MB)).
Qed.

(** With every link open to user code, the last entry decides. *)
Lemma user_path_walk pt :
  user_path m root va -> descend m root (pt_path va) = Some pt ->
  let e := entry m pt (pt_index va) in
  exists w, walk m root va =
    if has e PAGE_PRESENT then Some (table_addr e + va mod 4096, w, has e PAGE_USER) else None.
Proof using Hw.
  intros (U4 & U3 & U2) Hpt e. pose proof levels_cases as Hc. rewrite mmu_walk_unfold. cbv zeta.
  unfold pt_path, pd_path in *. cbn [descend] in *. fold (l4_entry m root va) in U4, U3, U2, Hpt.
  fold (l4_entry m root va). fold (l3_entry m root va). fold (l2_entry m root va).
  fold (l1_entry m root va).
  destruct (has l4 PAGE_PRESENT) eqn:E4; [|by rewrite (link_none l4) in Hpt].
  destruct (Hc eq_refl) as [L4 Hc3]. rewrite (link_some l4) in Hpt, U3, U2 by done.
  cbn [negb mbind option_bind] in *. specialize (U3 _ eq_refl). fold (l3_entry m root va) in Hpt, U3, U2.
  destruct (has l3 PAGE_PRESENT) eqn:E3; [|by rewrite (link_none l3) in Hpt].
  destruct (Hc3 eq_refl) as [L3 _]. rewrite (link_some l3) in Hpt, U2 by done.
  cbn [negb mbind option_bind] in *. specialize (U2 _ eq_refl). fold (l2_entry m root va) in Hpt, U2.
  destruct (has l2 PAGE_PRESENT) eqn:E2; [|by rewrite (link_none l2) in Hpt].
  destruct (has l2 PAGE_SIZE_2MB) eqn:L2; [by unfold link in Hpt; rewrite E2, L2 in Hpt|].
  rewrite (link_some l2) in Hpt by done. cbn [mbind option_bind] in Hpt. injection Hpt as <-.
  change e with l1. rewrite L4, L3, U4, U3, U2. cbn [negb orb andb].
  destruct (has l1 PAGE_PRESENT); [|by exists true]. by eexists.
Qed.

(** The address the processor computes is the offset in the leaf's page, and it
    grants no right that the leaf's entry denies. *)
Lemma walk_leaf :
  match leaf m root va with
  | None => walk m root va = None
  | Some (page, attrs) => exists w u,
      walk m root va = Some (page + va mod 4096, w, u) /\
      (w = true -> has attrs PAGE_WRITABLE = true) /\ (u = true -> has attrs PAGE_USER = true)
  end.
Proof using Hw.
  rewrite leaf_unfold, mmu_walk_unfold. cbv zeta. fold (l4_entry m root va). fold (l3_entry m root va). fold (l2_entry m root va). fold (l1_entry m root va).
  pose proof levels_cases as Hc. destruct (has l4 PAGE_PRESENT); [|done].
  destruct (Hc eq_refl) as [-> Hc3]. clear Hc. cbn [negb orb].
  destruct (has l3 PAGE_PRESENT); [|done]. destruct (Hc3 eq_refl) as [-> Hc2]. clear Hc3.
  unfold pte_view, large_view. destruct (has l2 PAGE_PRESENT); [|done].
  destruct (has l2 PAGE_SIZE_2MB); cbn [negb andb].
  - specialize (Hc2 eq_refl eq_refl). eexists _, _. split.
    + f_equal. f_equal. f_equal. unfold pt_index. rewrite index_digit by lia.
      unfold PAGE_2MB_SIZE, PAGE_4KB_SIZE in *. change (2 ^ 21) with 2097152. change (2 ^ 12) with 4096.
      div_lia.
    + rewrite !(has_land l2 PAGE_ATTRS) by done.
      split; intros H; by repeat apply andb_prop in H as [_ H].
  - destruct (has l1 PAGE_PRESENT); [|done]. eexists _, _. split; [done|].
    rewrite !(has_land l1 PAGE_ATTRS) by done.
    split; intros H; by repeat apply andb_prop in H as [_ H].
Qed.

(** The processor lets writes through exactly where the links and the leaf do. *)
Lemma walk_write :
  fst <$> walk m root va =
  (fun '(page, attrs) => (page + va mod 4096, links_writable m root (pt_path va) && has attrs PAGE_WRITABLE))
    <$> leaf m root va.
Proof using Hw.
  pose proof walk_leaf as Hwl. rewrite leaf_unfold in *. unfold pt_path. cbn [links_writable]. unfold link_writable.
  fold (l4_entry m root va). pose proof levels_cases as Hc. rewrite mmu_walk_unfold in *. cbv zeta in *.
  fold (l4_entry m root va) in *. fold (l3_entry m root va) in *. fold (l2_entry m root va) in *.
  fold (l1_entry m root va) in *.
  destruct (has l4 PAGE_PRESENT) eqn:E4; [|done]. destruct (Hc eq_refl) as [L4 Hc3]. clear Hc.
  rewrite (link_some l4), L4 in * by done. cbn [negb orb] in *. fold (l3_entry m root va).
  destruct (has l3 PAGE_PRESENT) eqn:E3; [|done]. destruct (Hc3 eq_refl) as [L3 _]. clear Hc3.
  rewrite (link_some l3), L3 in * by done. cbn [negb] in *. fold (l2_entry m root va).
  unfold pte_view, large_view in *. destruct (has l2 PAGE_PRESENT) eqn:E2; [|done].
  destruct (has l2 PAGE_SIZE_2MB) eqn:L2; cbn [negb andb] in *.
  - destruct Hwl as (w & u & E & _). injection E as E _ _. cbn [fmap option_fmap option_map fst]. rewrite E.
    unfold link at 1 2. rewrite E2, L2, (has_land l2) by done. cbn [andb negb]. by rewrite !andb_true_r, andb_assoc.
  - rewrite (link_some l2) by done. destruct (has l1 PAGE_PRESENT); [|done].
    cbn [fmap option_fmap option_map fst]. by rewrite andb_true_r, (has_land l1), !andb_assoc by done.
Qed.
End walks.

(** * What the operations promise *)

(** Where the leaf stays, the processor finds the same byte and the same right to
    write it; the right of user code can only grow with the links. *)
Lemma evolves_walk root keep v v' va :
  vmm_wf root v -> evolves root keep v v' -> keep va ->
  fst <$> walk (vm_mem v') root va = fst <$> walk (vm_mem v) root va.
Proof.
  intros Hw He Hk. rewrite (walk_write _ _ _ _ (proj1 Hw)), (walk_write _ _ _ _ (ev_space _ _ _ _ He)).
  by rewrite (ev_leaf _ _ _ _ He va Hk), (ev_write _ _ _ _ He _ (pt_path_ok va)).
Qed.

(** The user bits of the links stay. *)
Lemma user_path_evolves root keep v v' (va pt : Z) :
  evolves root keep v v' -> descend (vm_mem v) root (pt_path va) = Some pt ->
  user_path (vm_mem v) root va -> user_path (vm_mem v') root va.
Proof.
  intros He Hd (U4 & U3 & U2). unfold pt_path in Hd. cbn [descend] in Hd.
  destruct (link (entry (vm_mem v) root (pml4_index va))) as [t1|] eqn:L1; [|done].
  cbn [mbind option_bind] in Hd.
  destruct (link (entry (vm_mem v) t1 (pdpt_index va))) as [t2|] eqn:L2; [|done].
  cbn [mbind option_bind] in Hd.
  destruct (link (entry (vm_mem v) t2 (pd_index va))) as [t3|] eqn:L3; [|done].
  assert (D1 : descend (vm_mem v) root [pml4_index va] = Some t1).
  { cbn [descend]. by rewrite L1. }
  assert (D2 : descend (vm_mem v) root (pd_path va) = Some t2).
  { unfold pd_path. cbn [descend]. rewrite L1. cbn [mbind option_bind]. by rewrite L2. }
  split_and!.
  - apply (ev_user _ _ _ _ He [] root); [apply pml4_path_ok|done|by exists t1|done].
  - intros t Ht. rewrite (ev_path _ _ _ _ He _ t1) in Ht; auto with vmm. injection Ht as <-.
    apply (ev_user _ _ _ _ He [pml4_index va] t1); [apply pd_path_ok|done|by exists t2|by apply U3].
  - intros t Ht. rewrite (ev_path _ _ _ _ He _ t2) in Ht; auto with vmm. injection Ht as <-.
    apply (ev_user _ _ _ _ He (pd_path va) t2); [apply pt_path_ok|done|by exists t3|by apply U2].
Qed.

(** [va]'s page is mapped at [page] with [attrs], and its links are open to user
    code. *)
Definition user_page (m : mem) (root va page attrs : Z) : Prop :=
  exists pt, descend m root (pt_path va) = Some pt /\ user_path m root va /\
    pte_view (entry m pt (pt_index va)) = Some (page, attrs).

Lemma user_page_leaf m root va page attrs :
  user_page m root va page attrs -> leaf m root va = Some (page, attrs).
Proof. intros (pt & Hd & _ & Hv). unfold leaf. by rewrite Hd. Qed.

Lemma user_page_evolves root (keep : Z -> Prop) v v' (va page attrs : Z) :
  evolves root keep v v' -> keep va -> user_page (vm_mem v) root va page attrs ->
  user_page (vm_mem v') root va page attrs.
Proof.
  intros He Hk Hp. pose proof (user_page_leaf _ _ _ _ _ Hp) as Hl. destruct Hp as (pt & Hd & Hu & _).
  pose proof (ev_path _ _ _ _ He (pt_path va) pt (pt_path_ok va) Hd) as Hd'.
  exists pt. split; [done|]. split; [by eapply user_path_evolves|].
  rewrite <- Hl, <- (ev_leaf _ _ _ _ He va Hk). unfold leaf. by rewrite Hd'.
Qed.

(** The processor translates a user page, allowing user access as its entry does. *)
Lemma user_page_walk p m root va page attrs :
  space_wf p m root -> user_page m root va page attrs ->
  exists w, walk m root va = Some (page + va mod 4096, w, has attrs PAGE_USER).
Proof.
  intros Hw (pt & Hd & Hu & Hv). destruct (user_path_walk p m root va Hw pt Hu Hd) as [w Hwalk].
  exists w. rewrite Hwalk. unfold pte_view in Hv. destruct (has _ PAGE_PRESENT); [|done].
  injection Hv as <- <-. by rewrite has_land.
Qed.

(** A store into the last-level entry of [va]. *)
Lemma store_pte_spec v root (va pt e : Z) :
  vmm_wf root v -> descend (vm_mem v) root (pt_path va) = Some pt -> user_path (vm_mem v) root va ->
  let v' := with_mem v (set_entry (vm_mem v) pt (pt_index va) e) in
  evolves root (fun va' => ~ same_page va va') v v' /\
  descend (vm_mem v') root (pt_path va) = Some pt /\ user_path (vm_mem v') root va /\
  entry (vm_mem v') pt (pt_index va) = u64 e.
Proof.
  intros Hw Hd Hu v'.
  assert (He : evolves root (fun va' => ~ same_page va va') v v').
  { eapply evolves_weaken; [apply (evolves_same_link v root (pt_path va)); auto with vmm|].
    - simpl. lia.
    - intros va' Hn. right. intros [E1 E2]. apply Hn. by split. }
  split; [done|]. split; [by apply (ev_path _ _ _ _ He); [apply pt_path_ok|]|].
  split; [by eapply user_path_evolves|].
  unfold v'. cbn [vm_mem with_mem].
  assert (pt mod 4096 = 0) by (eapply table_aligned; [apply Hw|apply (pt_path_ok va)|done]).
  rewrite entry_set, decide_True; auto with vmm.
Qed.

(** The entry [vmm_map_page_in] writes. *)
Lemma mapping_entry (pa flags : Z) :
  let e := Z.lor (Z.lor (Z.land pa PAGE_ADDR_MASK) (Z.land flags 0xFFF)) PAGE_PRESENT in
  u64 e = e /\ pte_view e = Some (table_addr pa, Z.land flags PAGE_ATTRS).
Proof.
  intros e. unfold e. fold (table_addr pa).
  pose proof (table_addr_bounds pa). pose proof (table_addr_mod pa) as Hmod.
  assert (Hf : 0 <= Z.land flags 0xFFF < 4096).
  { change 0xFFF with (Z.ones 12). rewrite Z.land_ones by lia. apply (Z.mod_pos_bound flags (2 ^ 12)). lia. }
  split.
  - apply u64_small. apply (lor_bound _ _ 64); [|unfold PAGE_PRESENT; lia|lia].
    apply (lor_bound _ _ 64); lia.
  - unfold pte_view. rewrite has_lor. change (has PAGE_PRESENT PAGE_PRESENT) with true.
    rewrite orb_true_r. f_equal. f_equal.
    + rewrite !table_addr_lor by (done || by apply table_addr_low). by apply table_addr_page.
    + rewrite !Z.land_lor_distr_l, (land_page (table_addr pa)) by (done || unfold PAGE_ATTRS; lia).
      rewrite Z.lor_0_l, <- Z.land_assoc. change (Z.land PAGE_PRESENT PAGE_ATTRS) with 0.
      rewrite Z.lor_0_r. done.
Qed.

(** The attributes a mapping asks for. *)
Definition map_attrs (flags : Z) : Z := Z.land flags PAGE_ATTRS.

Lemma map_page_spec v space virt_addr phys_addr flags :
  vmm_wf (space_pml4 space) v ->
  let root := space_pml4 space in
  let (v', r) := vmm_map_page_in v space virt_addr phys_addr flags in
  evolves root (fun va => r = 0 -> ~ same_page virt_addr va) v v' /\
  ((r = -1 /\ no_frames v') \/
   (r = 0 /\ user_page (vm_mem v') root virt_addr (table_addr phys_addr) (map_attrs flags))).
Proof.
  intros Hw root. unfold vmm_map_page_in. fold root in Hw |- *.
  pose proof (get_or_split_pt_entry_spec v root virt_addr Hw) as Hs.
  destruct (get_or_split_pt_entry v root virt_addr) as [v1 o].
  destruct Hs as [E1 [[-> Hno]|(pt & -> & Hd & Hu)]].
  - split; [by eapply evolves_weaken|by left].
  - destruct (mapping_entry phys_addr flags) as (H64 & Hview).
    destruct (store_pte_spec v1 root virt_addr pt
      (Z.lor (Z.lor (Z.land phys_addr PAGE_ADDR_MASK) (Z.land flags 0xFFF)) PAGE_PRESENT)
      (evolves_wf _ _ _ _ E1) Hd Hu) as (E2 & Hd2 & Hu2 & He2).
    split; [|right; split; [done|]].
    + eapply evolves_trans; [by apply (evolves_weaken _ _ _ _ _ E1)|].
      apply (evolves_weaken _ _ _ _ _ E2). auto.
    + exists pt. split; [done|]. split; [done|]. by rewrite He2, H64.
Qed.

(** C13: mapping a page either fails because no frame is left, with every
    translation kept, or makes the processor translate exactly that page to the
    physical frame, with user access as the flags ask and write access as the flags ask
    where the links above, which the call leaves as they are, let writes through.  All
    other pages of the space (also those of a large page it splits) keep their frame
    and their write access, and all memory in use outside the tables is unchanged. *)
Theorem vmm_map_page_in_correct v space virt_addr phys_addr flags :
  vmm_wf (space_pml4 space) v ->
  let root := space_pml4 space in
  let (v', r) := vmm_map_page_in v space virt_addr phys_addr flags in
  evolves root (fun va => r = 0 -> ~ same_page virt_addr va) v v' /\
  (forall va, (r = 0 -> ~ same_page virt_addr va) ->
     fst <$> walk (vm_mem v') root va = fst <$> walk (vm_mem v) root va) /\
  ((r = -1 /\ no_frames v') \/
   (r = 0 /\ walk (vm_mem v') root virt_addr =
      Some (table_addr phys_addr + virt_addr mod 4096,
            links_writable (vm_mem v) root (pt_path virt_addr) && has flags PAGE_WRITABLE,
            has flags PAGE_USER))).
Proof.
  intros Hw root. pose proof (map_page_spec v space virt_addr phys_addr flags Hw) as H.
  cbv zeta in H. fold root in H, Hw. destruct (vmm_map_page_in _ _ _ _ _) as [v' r].
  destruct H as [E H]. split; [done|]. split; [intros va Hk; by eapply evolves_walk|].
  destruct H as [H|[Hr Hp]]; [by left|right]. split; [done|].
  destruct (user_page_walk _ _ _ _ _ _ (ev_space _ _ _ _ E) Hp) as [w Hwalk].
  pose proof (walk_write _ _ root virt_addr (ev_space _ _ _ _ E)) as Hww.
  rewrite (user_page_leaf _ _ _ _ _ Hp), Hwalk, (ev_write _ _ _ _ E _ (pt_path_ok virt_addr)) in Hww.
  injection Hww as ->. rewrite Hwalk. unfold map_attrs. by rewrite !has_land.
Qed.

(** unmapping a page leaves the processor without a translation of it, and
    fails only for want of a frame to split a large page; every other page keeps
    its translation. *)
Theorem vmm_unmap_page_in_correct v space virt_addr :
  vmm_wf (space_pml4 space) v ->
  let root := space_pml4 space in
  let (v', r) := vmm_unmap_page_in v space virt_addr in
  evolves root (fun va => r = 0 -> ~ same_page virt_addr va) v v' /\
  ((r = -1 /\ no_frames v') \/ (r = 0 /\ walk (vm_mem v') root virt_addr = None)).
Proof.
  intros Hw root. unfold vmm_unmap_page_in. fold root in Hw |- *.
  assert (Hdone : walk (vm_mem v) root virt_addr = None ->
    evolves root (fun va => 0 = 0 -> ~ same_page virt_addr va) v v /\
    ((0 = -1 /\ no_frames v) \/ (0 = 0 /\ walk (vm_mem v) root virt_addr = None))).
  { intros H. split; [by apply evolves_refl|by right]. }
  pose proof (levels_cases _ _ _ virt_addr (proj1 Hw)) as Hc.
  pose proof (mmu_walk_unfold (vm_mem v) root virt_addr) as Hwk. cbv zeta in Hwk.
  unfold get_pd_entry. fold (l4_entry (vm_mem v) root virt_addr) in Hwk |- *.
  destruct (has (l4_entry _ _ _) PAGE_PRESENT); [|by apply Hdone].
  destruct (Hc eq_refl) as [L4 Hc3]. rewrite L4 in Hwk. cbn [negb orb] in Hwk |- *.
  fold (l3_entry (vm_mem v) root virt_addr) in Hwk |- *.
  destruct (has (l3_entry _ _ _) PAGE_PRESENT); [|by apply Hdone].
  destruct (Hc3 eq_refl) as [L3 _]. rewrite L3 in Hwk. cbn [negb] in Hwk |- *.
  fold (l2_entry (vm_mem v) root virt_addr) in Hwk |- *.
  destruct (has (l2_entry _ _ _) PAGE_PRESENT); [|by apply Hdone]. cbn [negb].
  clear Hdone Hwk Hc Hc3 L3 L4.
  pose proof (get_or_split_pt_entry_spec v root virt_addr Hw) as Hs.
  destruct (get_or_split_pt_entry v root virt_addr) as [v1 o].
  destruct Hs as [E1 [[-> Hno]|(pt & -> & Hd & Hu)]].
  - split; [by eapply evolves_weaken|by left].
  - destruct (store_pte_spec v1 root virt_addr pt 0 (evolves_wf _ _ _ _ E1) Hd Hu)
      as (E2 & Hd2 & Hu2 & He2).
    split; [|right; split; [done|]].
    2: { destruct (user_path_walk _ _ _ _ (ev_space _ _ _ _ E2) pt Hu2 Hd2) as [w Hwalk].
         cbv zeta in Hwalk. rewrite He2 in Hwalk. exact Hwalk. }
    eapply evolves_trans; [by apply (evolves_weaken _ _ _ _ _ E1)|].
    apply (evolves_weaken _ _ _ _ _ E2). auto.
Qed.

Lemma is_mapped_walk v space virt_addr :
  space_wf (vm_pmm v) (vm_mem v) (space_pml4 space) ->
  vmm_is_mapped_in v space virt_addr =
    bool_decide (is_Some (walk (vm_mem v) (space_pml4 space) virt_addr)).
Proof.
  intros Hw. rewrite mmu_walk_unfold. cbv zeta. pose proof (levels_cases _ _ _ virt_addr Hw) as Hc.
  set (root := space_pml4 space) in *. set (m := vm_mem v) in *.
  unfold vmm_is_mapped_in, get_pd_entry. fold root m.
  fold (l4_entry m root virt_addr). fold (l3_entry m root virt_addr).
  fold (l2_entry m root virt_addr). fold (l1_entry m root virt_addr).
  destruct (has (l4_entry m root virt_addr) PAGE_PRESENT); [|done].
  destruct (Hc eq_refl) as [-> Hc3]. cbn [negb orb]. fold (l3_entry m root virt_addr).
  destruct (has (l3_entry m root virt_addr) PAGE_PRESENT); [|done].
  destruct (Hc3 eq_refl) as [-> _]. cbn [negb orb]. fold (l2_entry m root virt_addr).
  fold (l1_entry m root virt_addr).
  by destruct (has (l2_entry m root virt_addr) PAGE_PRESENT),
    (has (l2_entry m root virt_addr) PAGE_SIZE_2MB), (has (l1_entry m root virt_addr) PAGE_PRESENT).
Qed.

(** the two questions the system-call layer asks of a page table have the
    processor's answers: a page is mapped exactly when the walk of its address
    succeeds, and user accessible exactly when that walk allows user access. *)
Theorem vmm_queries_match_walk v space virt_addr :
  space_wf (vm_pmm v) (vm_mem v) (space_pml4 space) ->
  let w := walk (vm_mem v) (space_pml4 space) virt_addr in
  vmm_is_mapped_in v space virt_addr = bool_decide (is_Some w) /\
  vmm_is_user_accessible_in v space virt_addr =
    match w with Some (_, _, user) => user | None => false end.
Proof.
  intros Hw. cbv zeta. split; [by apply is_mapped_walk|]. rewrite mmu_walk_unfold. cbv zeta.
  pose proof (levels_cases _ _ _ virt_addr Hw) as Hc.
  set (root := space_pml4 space) in *. set (m := vm_mem v) in *.
  unfold vmm_is_user_accessible_in. fold root m.
  fold (l4_entry m root virt_addr). fold (l3_entry m root virt_addr).
  fold (l2_entry m root virt_addr). fold (l1_entry m root virt_addr).
  destruct (has (l4_entry m root virt_addr) PAGE_PRESENT); [|done].
  destruct (Hc eq_refl) as [-> Hc3]. cbn [negb orb].
  destruct (has (l3_entry m root virt_addr) PAGE_PRESENT);
    [|by destruct (has (l4_entry m root virt_addr) PAGE_USER)].
  destruct (Hc3 eq_refl) as [-> _]. cbn [negb orb].
  by destruct (has (l4_entry m root virt_addr) PAGE_USER), (has (l3_entry m root virt_addr) PAGE_USER),
    (has (l2_entry m root virt_addr) PAGE_PRESENT), (has (l2_entry m root virt_addr) PAGE_USER),
    (has (l2_entry m root virt_addr) PAGE_SIZE_2MB), (has (l1_entry m root virt_addr) PAGE_PRESENT),
    (has (l1_entry m root virt_addr) PAGE_USER).
Qed.

(** ** A concrete space: an empty top-level table in a reserved frame *)

Definition demo_root : Z := 81920000.
Definition demo_vmm : vmm := mk_vmm demo_pmm ∅ demo_root demo_root.

Lemma demo_frame_used f : f = 0 \/ 20000 <= f <= 20001 -> is_used demo_pmm f = true.
Proof.
  intros Hf. destruct (pmm_init_spec pmm_static demo_e820 demo_kernel_end demo_e820_ok
    demo_kernel_end_ok) as [_ H].
  apply not_false_iff_true. intros Hu.
  apply H in Hu as [(i & Hi & Hty & Hb & He) _]; [|frames; lia].
  simpl in Hi. assert (i = 0 \/ i = 1) as [-> | ->] by lia; [done|].
  simpl in Hb, He. unfold PMM_FRAME_SIZE in *. lia.
Qed.

Lemma entry_empty t i : entry ∅ t i = 0.
Proof. done. Qed.

Lemma demo_vmm_wf : vmm_wf demo_root demo_vmm.
Proof.
  assert (Hd : forall r t, descend ∅ demo_root r = Some t -> r = [] /\ t = demo_root).
  { intros [|i r] t; simpl; [by intros [= <-]|]. by rewrite entry_empty. }
  split; [|split; [apply demo_pmm_wf|by apply demo_frame_used; left]]. simpl. split.
  - intros r t _ [_ ->]%Hd. split; [done|]. apply demo_frame_used. by right.
  - intros r r' t _ _ [-> _]%Hd [-> _]%Hd. done.
  - intros r t i _ _ _ _ H. by rewrite entry_empty in H.
  - intros r t i _ _ _ _ H. by rewrite entry_empty in H.
Qed.

(** The same space with anything in the reserved frame behind the table. *)
Lemma demo_descend_mem (m : mem) r t :
  only_differ ∅ m 81924096 4096 ->
  path_ok r -> descend m demo_root r = Some t -> r = [] /\ t = demo_root.
Proof.
  intros Hm. destruct r as [|i r]; cbn [descend]; [intros _ [= <-]; split; reflexivity|].
  intros [_ Hr]. apply Forall_cons_1 in Hr as [Hi _].
  rewrite (entry_only_differ ∅ m 81924096 demo_root i);
    [|exact Hm|reflexivity|reflexivity|discriminate|exact Hi].
  change (link (entry ∅ demo_root i)) with (@None Z). discriminate.
Qed.

Lemma demo_wf_mem (m : mem) :
  only_differ ∅ m 81924096 4096 -> vmm_wf demo_root (mk_vmm demo_pmm m demo_root demo_root).
Proof.
  intros Hm. pose proof (fun r t => demo_descend_mem m r t Hm) as Hd.
  assert (He : forall i, index_ok i -> has (entry m demo_root i) PAGE_PRESENT = true -> False).
  { intros i Hi. rewrite (entry_only_differ ∅ m 81924096 demo_root i);
      [|exact Hm|reflexivity|reflexivity|discriminate|exact Hi]. rewrite entry_empty. discriminate. }
  split; [|split; [apply demo_pmm_wf|by apply demo_frame_used; left]]. cbn [vm_pmm vm_mem]. split.
  - intros r t Hr [_ ->]%Hd; [|done]. split; [done|]. apply demo_frame_used. by right.
  - intros r r' t Hr Hr' [-> _]%Hd [-> _]%Hd; done.
  - intros r t i Hr _ Hi [_ ->]%Hd H; [|done]. by destruct (He i Hi).
  - intros r t i Hr _ Hi [_ ->]%Hd H; [|done]. by destruct (He i Hi).
Qed.

Lemma vmm_map_page_in_correct_witness :
  vmm_wf (space_pml4 demo_root) demo_vmm /\
  let (v', r) := vmm_map_page_in demo_vmm demo_root 549755813888 4194304 6 in
  evolves demo_root (fun va => r = 0 -> ~ same_page 549755813888 va) demo_vmm v' /\
  (forall va, (r = 0 -> ~ same_page 549755813888 va) ->
     fst <$> walk (vm_mem v') demo_root va = fst <$> walk (vm_mem demo_vmm) demo_root va) /\
  ((r = -1 /\ no_frames v') \/
   (r = 0 /\ walk (vm_mem v') demo_root 549755813888 = Some (4194304, true, true))).
Proof.
  exact (conj demo_vmm_wf
    (vmm_map_page_in_correct demo_vmm demo_root 549755813888 4194304 6 demo_vmm_wf)).
Defined.

Lemma vmm_unmap_page_in_correct_witness :
  vmm_wf (space_pml4 demo_root) demo_vmm /\
  let (v', r) := vmm_unmap_page_in demo_vmm demo_root 549755813888 in
  evolves demo_root (fun va => r = 0 -> ~ same_page 549755813888 va) demo_vmm v' /\
  ((r = -1 /\ no_frames v') \/ (r = 0 /\ walk (vm_mem v') demo_root 549755813888 = None)).
Proof.
  exact (conj demo_vmm_wf
    (vmm_unmap_page_in_correct demo_vmm demo_root 549755813888 demo_vmm_wf)).
Defined.

(** A page table that maps one user page, written out by hand. *)
Definition demo_tables : mem :=
  set_entry (set_entry (set_entry (set_entry ∅ demo_root 1 (81924096 + 7))
    81924096 0 (81928192 + 7)) 81928192 0 (81932288 + 7)) 81932288 5 (4194304 + 7).

Example demo_walk : walk demo_tables demo_root 549755834385 = Some (4194321, true, true).
Proof. vm_compute. reflexivity. Qed.

Lemma vmm_queries_match_walk_witness :
  space_wf demo_pmm ∅ demo_root /\ vmm_is_mapped_in demo_vmm demo_root 549755834385 = false.
Proof.
  split; [apply demo_vmm_wf|].
  rewrite (proj1 (vmm_queries_match_walk demo_vmm demo_root 549755834385 (proj1 demo_vmm_wf))).
  reflexivity.
Defined.
