(* ===== verification/VmmFrame.v ===== *)
(** The memory that the paging operations of [Vmm.v] leave alone, and the frames
    their clients take, fill and map. *)
From S2P Require Import Prelude Mem Pmm Vmm VmmSpec.

(** * Memory that the paging code leaves alone *)

(** A byte of a frame in use that is no table of the space. *)
Definition owned (root : Z) (v : vmm) (a : Z) : Prop :=
  0 <= a /\ is_used (vm_pmm v) (frame_of a) = true /\
  forall r t, path_ok r -> descend (vm_mem v) root r = Some t -> frame_of a <> frame_of t.

Lemma frame_of_nonneg a : 0 <= a -> 0 <= frame_of a.
Proof. intros. unfold frame_of, PMM_FRAME_SIZE. div_lia. Qed.

Lemma owned_evolves root keep v v' a :
  evolves root keep v v' -> owned root v a ->
  owned root v' a /\ ld8 (vm_mem v') a = ld8 (vm_mem v) a.
Proof.
  intros He (H0 & Hu & Hn). split; [|by apply (ev_data _ _ _ _ He)].
  split; [done|]. split; [apply (ev_used _ _ _ _ He); [by apply frame_of_nonneg|done]|].
  intros r t Hr Hd E. destruct (ev_table _ _ _ _ He r t Hr Hd) as [Hd'|Hf]; [by eapply Hn|].
  rewrite <- E in Hf. congruence.
Qed.

(** Entries depend on the bytes of their tables only. *)
Lemma space_wf_data p m m' root (f : Z) :
  space_wf p m root -> aligned f -> only_differ m m' f 4096 ->
  (forall r t, path_ok r -> descend m root r = Some t -> t <> f) ->
  space_wf p m' root /\ (forall r, path_ok r -> descend m' root r = descend m root r) /\
  (forall r t i, path_ok r -> descend m root r = Some t -> index_ok i -> entry m' t i = entry m t i).
Proof.
  intros Hw [Hf _] Hm Hne.
  assert (E : forall r t i, path_ok r -> descend m root r = Some t -> index_ok i ->
    entry m' t i = entry m t i).
  { intros r t i Hr Hd Hi. apply (entry_only_differ m m' f); [done|done| |by eapply Hne|done].
    by eapply table_aligned. }
  assert (D : forall r, path_ok r -> descend m' root r = descend m root r).
  { induction r as [|j r IH] using rev_ind; intros Hr; [done|].
    pose proof (path_ok_prefix r j Hr) as Hr'. apply path_ok_snoc in Hr as (_ & _ & Hj).
    rewrite !descend_snoc, IH by done. destruct (descend m root r) as [t|] eqn:Et; simpl; [|done].
    by rewrite (E r t). }
  split; [|by split]. split.
  - intros r t Hr. rewrite D by done. by apply (wf_table _ _ _ Hw).
  - intros r r' t Hr Hr'. rewrite !D by done. by apply (wf_inj _ _ _ Hw).
  - intros r t i Hr Hl Hi. rewrite D by done. intros Hd. rewrite (E r t i) by done.
    by eapply (wf_upper _ _ _ Hw).
  - intros r t i Hr Hl Hi. rewrite D by done. intros Hd. rewrite (E r t i) by done.
    by eapply (wf_large _ _ _ Hw).
Qed.

(** Writing to a frame that was free at the start and is no table. *)
Lemma evolves_write root keep v v1 m2 (f : Z) :
  evolves root keep v v1 -> aligned f -> is_used (vm_pmm v) (frame_of f) = false ->
  (forall r t, path_ok r -> descend (vm_mem v1) root r = Some t -> t <> f) ->
  only_differ (vm_mem v1) m2 f 4096 ->
  evolves root keep v (with_mem v1 m2).
Proof.
  intros He Hf Hfree Hne Hm.
  destruct (space_wf_data _ _ m2 root f (ev_space _ _ _ _ He) Hf Hm Hne) as (Hw2 & D & E).
  split; simpl; try apply He; try done.
  - intros va Hk. rewrite <- (ev_leaf _ _ _ _ He va Hk). apply leaf_ext; auto with vmm.
    + intros pt Hd. apply (E (pt_path va)); auto with vmm.
    + intros pd _ Hd. apply (E (pd_path va)); auto with vmm.
  - intros r t Hr Hd. rewrite D by done. by apply (ev_path _ _ _ _ He).
  - intros r t i Hr Hd Hl Hu. pose proof (path_ok_prefix r i Hr) as Hr'.
    pose proof Hr as (_ & _ & Hi)%path_ok_snoc.
    rewrite (E r) by (try done; by apply (ev_path _ _ _ _ He)).
    by apply (ev_user _ _ _ _ He r t i Hr Hd).
  - intros r Hr. rewrite <- (ev_write _ _ _ _ He r Hr). by apply links_writable_ext.
  - intros r t Hr. rewrite D by done. by apply (ev_table _ _ _ _ He).
  - intros a Ha Hu Hn. rewrite <- (ev_data _ _ _ _ He a Ha Hu Hn).
    apply Hm, frame_apart; [apply Hf|]. intros Ef. rewrite Ef in Hu. congruence.
Qed.

(** More frames in use. *)
Lemma evolves_more_used root v p' :
  vmm_wf root v -> pmm_wf p' ->
  (forall g, 0 <= g -> is_used (vm_pmm v) g = true -> is_used p' g = true) ->
  evolves root (fun _ => True) v (with_pmm v p').
Proof.
  intros (Hw & Hp & H0) Hp' Hmono. split; simpl; try done.
  - split; try apply Hw. intros r t Hr Hd. destruct (wf_table _ _ _ Hw r t Hr Hd) as [Ha E].
    split; [done|]. apply Hmono; [|done]. apply frame_of_nonneg. destruct Ha. lia.
  - split; [done|]. by apply Hmono.
  - intros r t Hr Hd. by left.
Qed.

(** A frame just allocated. *)
Lemma evolves_alloc root v p' (f : Z) :
  vmm_wf root v -> pmm_wf p' ->
  (forall g, 0 <= g -> is_used p' g = (frame_of f =? g) || is_used (vm_pmm v) g) ->
  evolves root (fun _ => True) v (with_pmm v p').
Proof.
  intros Hw Hp' Hu. apply evolves_more_used; [done|done|]. intros g Hg E. by rewrite Hu, E, orb_true_r.
Qed.

Lemma evolves_free_frames root keep v v' :
  pmm_wf (vm_pmm v) -> evolves root keep v v' -> free_frames (vm_pmm v') <= free_frames (vm_pmm v).
Proof.
  intros [Hc _] He. destruct (ev_pmm _ _ _ _ He) as [[Hc' _] _]. rewrite Hc, Hc'.
  unfold free_count. apply count_if_le. intros f Hf Hu. apply negb_true_iff in Hu.
  apply negb_true_iff. destruct (is_used (vm_pmm v) f) eqn:E; [|done].
  rewrite (ev_used _ _ _ _ He) in Hu; [done|lia|done].
Qed.

(** * Frames of a client *)

(** A frame that was free in [v0], is in use and no table in [v]. *)
Definition own_frame (root : Z) (v0 v : vmm) (f : Z) : Prop :=
  aligned f /\ is_used (vm_pmm v0) (frame_of f) = false /\
  forall o, 0 <= o < 4096 -> owned root v (f + o).

Lemma own_frame_no_table root v0 v f :
  own_frame root v0 v f ->
  forall r t, path_ok r -> descend (vm_mem v) root r = Some t -> t <> f.
Proof.
  intros (_ & _ & Ho) r t Hr Hd ->. destruct (Ho 0 ltac:(lia)) as (_ & _ & Hn).
  apply (Hn r f Hr Hd). f_equal. lia.
Qed.

(** Writing to such a frame. *)
Lemma own_frame_write root keep v0 v f m2 :
  evolves root keep v0 v -> own_frame root v0 v f -> only_differ (vm_mem v) m2 f 4096 ->
  evolves root keep v0 (with_mem v m2) /\ own_frame root v0 (with_mem v m2) f /\
  forall va page attrs, user_page (vm_mem v) root va page attrs -> user_page m2 root va page attrs.
Proof.
  intros He Hown Hm. pose proof Hown as (Hf & Hfree & Ho).
  pose proof (own_frame_no_table _ _ _ _ Hown) as Hnt.
  destruct (space_wf_data _ _ m2 root f (ev_space _ _ _ _ He) Hf Hm Hnt) as (_ & D & E).
  split; [by eapply evolves_write|]. split.
  - split; [done|]. split; [done|]. intros o Hoo. destruct (Ho o Hoo) as (Ha & Hb & Hc).
    split; [done|]. split; [done|]. intros r t Hr. simpl. rewrite D by done. by apply Hc.
  - intros va page attrs (pt & Hd & (U4 & U3 & U2) & Hv). exists pt.
    rewrite D by auto with vmm. split; [done|]. split.
    + split_and!.
      * rewrite (E [] root); auto with vmm.
      * intros t. rewrite D by auto with vmm. intros Ht.
        rewrite (E [pml4_index va] t); auto with vmm.
      * intros t. rewrite D by auto with vmm. intros Ht. rewrite (E (pd_path va) t); auto with vmm.
    + rewrite (E (pt_path va) pt); auto with vmm.
Qed.

(** A frame just taken from the allocator. *)
Lemma own_frame_alloc root v p' f :
  vmm_wf root v -> aligned f -> is_used (vm_pmm v) (frame_of f) = false ->
  (forall g, 0 <= g -> is_used p' g = (frame_of f =? g) || is_used (vm_pmm v) g) ->
  own_frame root v (with_pmm v p') f.
Proof.
  intros Hw Hf Hfree Hus. split; [done|]. split; [done|]. intros o Ho.
  pose proof Hf as [Hfm Hfb].
  assert (Efo : frame_of (f + o) = frame_of f) by (unfold frame_of, PMM_FRAME_SIZE; div_lia).
  split; [lia|]. rewrite Efo. simpl. split.
  - rewrite Hus, Z.eqb_refl by (apply frame_of_nonneg; lia). done.
  - intros r t Hr Hd Ef. destruct (wf_table _ _ _ (proj1 Hw) r t Hr Hd) as [_ Hu].
    rewrite <- Ef in Hu. congruence.
Qed.

Lemma own_frame_evolves root keep v0 v v' f :
  evolves root keep v v' -> own_frame root v0 v f -> own_frame root v0 v' f.
Proof.
  intros He (Hf & Hfree & Ho). split; [done|]. split; [done|]. intros o Hoo.
  apply (owned_evolves _ _ _ _ _ He), Ho, Hoo.
Qed.

(** [pmm_alloc_zeroed_frame] for a client of the space. *)
Lemma zeroed_frame_spec root v :
  vmm_wf root v ->
  let '(p, m, f) := pmm_alloc_zeroed_frame (vm_pmm v) (vm_mem v) in
  let v' := with_mem (with_pmm v p) m in
  evolves root (fun _ => True) v v' /\
  ((f = 0 /\ v' = v /\ no_frames v) \/
   (f <> 0 /\ own_frame root v v' f /\ forall o, 0 <= o < 4096 -> ld8 m (f + o) = 0)).
Proof.
  intros Hw. unfold pmm_alloc_zeroed_frame.
  destruct (vmm_alloc_cases v root Hw) as [[-> Hno]|(p' & f & -> & Hf0 & Hf & Hfree & Hp' & Hus)].
  - simpl. assert (E : with_mem (with_pmm v (vm_pmm v)) (vm_mem v) = v) by by destruct v.
    rewrite E. split; [by apply evolves_refl|by left].
  - replace (f =? 0) with false by lia.
    pose proof (evolves_alloc root v p' f Hw Hp' Hus) as E0.
    pose proof (own_frame_alloc root v p' f Hw Hf Hfree Hus) as O0.
    destruct (own_frame_write _ _ _ _ _ (fill8 (vm_mem v) f PMM_FRAME_SIZE 0) E0 O0
      (fill8_only_differ _ _ _ _)) as (E1 & O1 & _).
    split; [done|right]. split; [done|]. split; [done|].
    intros o Ho. unfold PMM_FRAME_SIZE. by rewrite fill8_spec, decide_True by lia.
Qed.

(** Giving such a frame back. *)
Lemma own_frame_free root keep v0 v f :
  evolves root keep v0 v -> own_frame root v0 v f ->
  evolves root keep v0 (with_pmm v (pmm_free_frame (vm_pmm v) f)) /\
  free_frames (pmm_free_frame (vm_pmm v) f) = free_frames (vm_pmm v) + 1.
Proof.
  intros He Hown. pose proof Hown as ((Hfm & Hfb) & Hfree & Ho).
  pose proof (own_frame_no_table _ _ _ _ Hown) as Hnt.
  assert (Hfr : 0 <= frame_of f < PMM_MAX_FRAMES).
  { unfold PMM_MAX_MEMORY in Hfb. unfold frame_of, PMM_FRAME_SIZE. frames. div_lia. }
  assert (Hu : forall g, 0 <= g -> is_used (pmm_free_frame (vm_pmm v) f) g =
    negb (frame_of f =? g) && is_used (vm_pmm v) g).
  { intros g Hg. unfold pmm_free_frame. destruct (decide (g < PMM_MAX_FRAMES)).
    - apply is_used_set_free; lia.
    - rewrite !is_used_out by lia. by replace (frame_of f =? g) with false by lia. }
  assert (Huf : is_used (vm_pmm v) (frame_of f) = true).
  { destruct (Ho 0 ltac:(lia)) as (_ & H & _). by rewrite Z.add_0_r in H. }
  assert (Hmono : forall g, 0 <= g -> g <> frame_of f -> is_used (vm_pmm v) g = true ->
    is_used (pmm_free_frame (vm_pmm v) f) g = true).
  { intros g Hg Hne E. rewrite Hu, E by done. by replace (frame_of f =? g) with false by lia. }
  destruct (ev_pmm _ _ _ _ He) as [Hpw H0].
  split; [|by apply set_free_free_frames].
  split; simpl; try apply He.
  - pose proof (ev_space _ _ _ _ He) as Hw. split; try apply Hw. intros r t Hr Hd.
    destruct (wf_table _ _ _ Hw r t Hr Hd) as [[Htm Htb] Hut]. split; [done|].
    apply Hmono; [apply frame_of_nonneg; lia| |done]. intros Ef. apply (Hnt r t Hr Hd).
    unfold frame_of, PMM_FRAME_SIZE in Ef. div_lia.
  - split; [apply pmm_free_frame_wf; [lia|done]|]. apply Hmono; [done| |done].
    unfold frame_of, PMM_FRAME_SIZE. div_lia.
  - intros g Hg E. apply Hmono; [done|congruence|]. by apply (ev_used _ _ _ _ He).
Qed.

(** Another such frame is not touched by that. *)
Lemma own_frame_free_other root v0 v f g :
  own_frame root v0 v f -> own_frame root v0 v g -> frame_of f <> frame_of g ->
  own_frame root v0 (with_pmm v (pmm_free_frame (vm_pmm v) f)) g.
Proof.
  intros ((Hfm & Hfb) & _ & _) (Hg & Hfree & Ho) Hne. split; [done|]. split; [done|]. intros o Hoo.
  destruct (Ho o Hoo) as (Ha & Hu & Hn). split; [done|]. split; [|exact Hn].
  assert (Ego : frame_of (g + o) = frame_of g).
  { destruct Hg. unfold frame_of, PMM_FRAME_SIZE. div_lia. }
  rewrite Ego in Hu |- *. cbn [with_pmm vm_pmm]. unfold pmm_free_frame.
  assert (Hfr : 0 <= frame_of f < PMM_MAX_FRAMES).
  { unfold PMM_MAX_MEMORY in Hfb. unfold frame_of, PMM_FRAME_SIZE. frames. div_lia. }
  assert (0 <= frame_of g) by (apply frame_of_nonneg; destruct Hg; lia).
  destruct (decide (frame_of g < PMM_MAX_FRAMES)); [|by rewrite is_used_out by lia].
  rewrite is_used_set_free, Hu by lia. by replace (frame_of f =? frame_of g) with false by lia.
Qed.

(** ** Runs of frames *)

(** [n] frames from [start] on. *)
Definition own_run (root : Z) (v0 v : vmm) (start n : Z) : Prop :=
  forall i, 0 <= i < n -> own_frame root v0 v (start + i * 4096).

Lemma own_run_evolves root keep v0 v v' start n :
  evolves root keep v v' -> own_run root v0 v start n -> own_run root v0 v' start n.
Proof. intros He Hr i Hi. by eapply own_frame_evolves, Hr. Qed.

(** [pmm_alloc_contiguous] for a client of the space. *)
Lemma run_alloc_spec root v n :
  vmm_wf root v -> 0 < n < 18446744073709551616 ->
  let (p, a) := pmm_alloc_contiguous (vm_pmm v) n in
  evolves root (fun _ => True) v (with_pmm v p) /\
  ((a = 0 /\ p = vm_pmm v /\ forall s, 0 <= s -> s + n <= PMM_MAX_FRAMES -> ~ run_free (vm_pmm v) s n) \/
   (aligned a /\ a + n * 4096 <= PMM_MAX_MEMORY /\ own_run root v (with_pmm v p) a n)).
Proof.
  intros Hw Hn. pose proof Hw as (Hs & Hp & H0).
  destruct (pmm_alloc_contiguous_spec (vm_pmm v) n Hp Hn) as [Hno|s p' Hs0 Hsc Hrun _ Hused _ Hwf].
  - replace (with_pmm v (vm_pmm v)) with v by by destruct v. split; [by apply evolves_refl|]. by left.
  - assert (Hpos : s <> 0) by (intros ->; rewrite (Hrun 0) in H0 by lia; done).
    assert (He : evolves root (fun _ => True) v (with_pmm v p')).
    { apply evolves_more_used; [done|done|]. intros g Hg E. rewrite Hused by done. by rewrite E, orb_true_r. }
    split; [done|]. right. unfold PMM_FRAME_SIZE in *. frames.
    split; [split; [apply Z.mod_mul; lia|unfold PMM_MAX_MEMORY; lia]|]. split; [unfold PMM_MAX_MEMORY; lia|].
    intros i Hi. replace (s * 4096 + i * 4096) with ((s + i) * 4096) by lia.
    assert (Ef : forall o, 0 <= o < 4096 -> frame_of ((s + i) * 4096 + o) = s + i).
    { intros o Ho. unfold frame_of, PMM_FRAME_SIZE. div_lia. }
    pose proof (Ef 0 ltac:(lia)) as E0. rewrite Z.add_0_r in E0.
    assert (Hfree : is_used (vm_pmm v) (s + i) = false) by (apply Hrun; lia).
    split; [split; [apply Z.mod_mul; lia|unfold PMM_MAX_MEMORY; lia]|]. split; [by rewrite E0|].
    intros o Ho. split; [lia|]. rewrite Ef by done. cbn [with_pmm vm_pmm vm_mem]. split.
    + rewrite Hused by lia. replace (s <=? s + i) with true by lia. by replace (s + i <? s + n) with true by lia.
    + intros r t Hr Hd E. destruct (wf_table _ _ _ Hs r t Hr Hd) as [_ Hu]. rewrite <- E in Hu. congruence.
Qed.

(** Giving a run back, frame by frame. *)
Lemma own_run_free root keep v0 start n v :
  0 <= n -> evolves root keep v0 v -> own_run root v0 v start n ->
  let v' := with_pmm v (for_each 0 n (fun i p => pmm_free_frame p (start + i * 4096)) (vm_pmm v)) in
  evolves root keep v0 v'.
Proof.
  intros Hn He Hr. cbv zeta.
  assert (Hinv : let v' := with_pmm v (for_each 0 n (fun i p => pmm_free_frame p (start + i * 4096)) (vm_pmm v)) in
    evolves root keep v0 v' /\ forall i, n <= i < n -> own_frame root v0 v' (start + i * 4096)); [|apply Hinv].
  apply (for_each_inv 0 n _ (vm_pmm v) (fun k p => let v' := with_pmm v p in
    evolves root keep v0 v' /\ forall i, k <= i < n -> own_frame root v0 v' (start + i * 4096))).
  - done.
  - replace (with_pmm v (vm_pmm v)) with v by by destruct v. done.
  - intros k p Hk [He' Ho]. pose proof (Ho k ltac:(lia)) as Hok.
    destruct (own_frame_free _ _ _ _ _ He' Hok) as [He2 _]. split; [exact He2|]. intros i Hi.
    apply (own_frame_free_other root v0 (with_pmm v p)); [done|apply Ho; lia|].
    destruct Hok as [[_ ?] _]. unfold frame_of, PMM_FRAME_SIZE. div_lia.
Qed.

(** All addresses of a page are mapped alike. *)
Lemma user_page_same m root va va' page attrs :
  same_page va va' -> user_page m root va page attrs -> user_page m root va' page attrs.
Proof.
  intros [Hp Hi] (pt & Hd & (U4 & U3 & U2) & Hv). unfold pt_path in Hp. injection Hp as E4 E3 E2.
  exists pt. unfold user_path, pt_path, pd_path in *. rewrite <- Hi, <- E4, <- E3, <- E2.
  by split_and!.
Qed.

Lemma same_page_offset va a : 0 <= va -> va mod 4096 = 0 -> va <= a < va + 4096 -> same_page va a.
Proof. intros. apply same_page_number; [lia|lia|]. f_equal. div_lia. Qed.
