(* ===== verification/Fs.v ===== *)
(** The read-only program file system of [kernel/core/fs.c]: one directory sector
    of sixteen entries, and files of consecutive sectors. *)
From S2P Require Import Prelude CString Blk.

Definition FS_BASE_LBA : Z := 2048.
Definition FS_SUPERBLOCK_LBA : Z := FS_BASE_LBA + 0.
Definition FS_DIR_LBA : Z := FS_BASE_LBA + 1.
Definition FS_MAX_ENTRIES : Z := 16.
Definition FS_NAME_MAX : Z := 20.

(** [fs_name] is the entry's bytes from [name] on: the two fields that follow lie
    behind it in the struct, so a name without terminator reads into them. *)
Record fs_dirent_t := mk_fs_dirent {
  fs_name : list Z;
  fs_start_lba : Z;
  fs_size_bytes : Z;
}.

Record fs (D : Type) := mk_fs {
  fs_superblock : list Z;
  dir_sector : list Z;
  fs_ready : bool;
  fs_cached_count : Z;
  fs_disk : D;
}.
Arguments mk_fs {D}.
Arguments fs_superblock {D}.
Arguments dir_sector {D}.
Arguments fs_ready {D}.
Arguments fs_cached_count {D}.
Arguments fs_disk {D}.

(** * The model *)

Section model.
Context {D : Type} `{BlockDev D}.
Implicit Types (s : fs D) (d : D) (name buf : list Z).

Definition fs_bad_magic (sb : list Z) : bool :=
  negb (sb.[0] =? 77) || negb (sb.[1] =? 70) || negb (sb.[2] =? 83) || negb (sb.[3] =? 49).

Definition fs_init s : fs D :=
  let '(r, sb, d) := ata_read_sectors (fs_disk s) FS_SUPERBLOCK_LBA 1 (fs_superblock s) in
  let s := mk_fs sb (dir_sector s) false 0 d in
  if negb (r =? 0) then s
  else if fs_bad_magic sb then s
  else
    let '(r, dir, d) := ata_read_sectors d FS_DIR_LBA 1 (dir_sector s) in
    let s := mk_fs sb dir false 0 d in
    if negb (r =? 0) then s
    else
      let count := read_u32 sb 4 in
      let count := if count >? FS_MAX_ENTRIES then FS_MAX_ENTRIES else count in
      mk_fs sb dir true count d.

Definition fs_file_count s : Z := if fs_ready s then fs_cached_count s else 0.

Definition fs_entry s (index : Z) : option fs_dirent_t :=
  if negb (fs_ready s) || (index >=? fs_cached_count s) then None
  else
    let raw := index * 32 in
    Some (mk_fs_dirent (slice (dir_sector s) raw 28)
            (read_u32 (dir_sector s) (raw + 20)) (read_u32 (dir_sector s) (raw + 24))).

Definition fs_find s name : option fs_dirent_t :=
  match for_range 0 (fs_file_count s)
          (fun i (_ : unit) =>
             match fs_entry s i with
             | Some e => if str_eq (fs_name e) name then inr e else inl tt
             | None => inl tt
             end) tt with
  | inl _ => None
  | inr e => Some e
  end.

(** [buf] is the memory from the caller's buffer on; reads go to its byte [off]. *)
Definition fs_read_file d (e : option fs_dirent_t) buf : option (Z * list Z * D) :=
  match e with
  | None => Some (-1, buf, d)
  | Some e =>
      let sectors := (fs_size_bytes e +32 511) / 512 in
      let sectors := if sectors =? 0 then 1 else sectors in
      while_loop (S (Z.to_nat sectors)) (fun '(buf, d, off, sectors) =>
        if sectors >? 0 then
          let chunk := if sectors >? 256 then 256 else sectors in
          let '(r, tail, d) :=
            ata_read_sectors d (fs_start_lba e + off / 512) chunk (drop (Z.to_nat off) buf) in
          let buf := take (Z.to_nat off) buf ++ tail in
          if negb (r =? 0) then inr (-1, buf, d)
          else inl (buf, d, off + chunk * 512, sectors - chunk)
        else inr (0, buf, d)) (buf, d, 0, sectors)
  end.
End model.

(** * What is on the disk *)

Section device.
Context {D : Type} {B : BlockDev D} {L : BlockDevLaws D}.
Implicit Types (s : fs D) (d : D) (name buf : list Z).

(** The program directory as the disk holds it. *)
Definition disk_u32 d (a : Z) : Z :=
  blk_byte d a + 256 * blk_byte d (a + 1) + 65536 * blk_byte d (a + 2) + 16777216 * blk_byte d (a + 3).
Definition disk_magic d : Prop :=
  [blk_byte d 1048576; blk_byte d 1048577; blk_byte d 1048578; blk_byte d 1048579] = [77; 70; 83; 49].
Definition disk_count d : Z := Z.min (disk_u32 d 1048580) 16.
Definition disk_record (i : Z) : Z := 1049088 + 32 * i.
(** The characters of a record's name, up to its NUL. *)
Definition disk_name d (i : Z) : list Z :=
  cstr (map (fun k => blk_byte d (disk_record i + k)) (seqZ 0 20)).

Definition fs_buffers s : Prop := zlen (fs_superblock s) = 512 /\ zlen (dir_sector s) = 512.

(** The mounted state holds what the disk holds. *)
Record fs_mounted s : Prop := {
  fm_ready : fs_ready s = true;
  fm_count : fs_cached_count s = disk_count (fs_disk s);
  fm_len : zlen (dir_sector s) = 512;
  fm_dir i : 0 <= i < 512 -> (dir_sector s).[i] = blk_byte (fs_disk s) (1049088 + i);
}.

Lemma sector_bytes_ok d (l : list Z) base :
  blk_ok d -> zlen l = 512 -> (forall i, 0 <= i < 512 -> l.[i] = blk_byte d (base + i)) ->
  bytes_ok l.
Proof.
  intros Hok Hl H i Hi. destruct (decide (i < 512)).
  - rewrite H by lia. by apply blk_byte_ok.
  - rewrite list_lookup_total_alt, lookup_ge_None_2; [simpl; lia|]. unfold zlen in Hl. lia.
Qed.

Lemma read_u32_disk d (l : list Z) off base :
  blk_ok d -> zlen l = 512 -> (forall i, 0 <= i < 512 -> l.[i] = blk_byte d (base + i)) ->
  0 <= off <= 508 -> read_u32 l off = disk_u32 d (base + off).
Proof.
  intros Hok Hlen Hl Hoff.
  rewrite read_u32_bytes by (try (by eapply sector_bytes_ok); lia).
  rewrite !Hl by lia. unfold disk_u32. rewrite !Z.add_assoc. lia.
Qed.

Lemma read_sector d lba (buf : list Z) :
  blk_ok d -> 0 <= lba -> lba + 1 <= blk_limit d -> zlen buf = 512 ->
  exists buf' d', ata_read_sectors d lba 1 buf = (0, buf', d') /\ blk_ok d' /\
    blk_limit d' = blk_limit d /\ (forall a, blk_byte d' a = blk_byte d a) /\ zlen buf' = 512 /\
    (forall i, 0 <= i < 512 -> buf'.[i] = blk_byte d (lba * 512 + i)).
Proof.
  intros Hok H0 Hl Hb.
  destruct (blk_read_law d lba 1 buf Hok H0 ltac:(lia) Hl) as (b & d' & E & Ho & Hli & Hby & Hz & Hi).
  { unfold SECTOR_SIZE. lia. }
  exists b, d'. split_and!; try done; [lia|]. intros i Hi'.
  rewrite Hi, decide_True by (unfold SECTOR_SIZE; lia). done.
Qed.

Lemma disk_magic_spec d (sb : list Z) :
  (forall i, 0 <= i < 512 -> sb.[i] = blk_byte d (1048576 + i)) ->
  fs_bad_magic sb = false <-> disk_magic d.
Proof.
  intros H. unfold fs_bad_magic, disk_magic. rewrite !H by lia. rewrite Z.add_0_r.
  change (1048576 + 1) with 1048577. change (1048576 + 2) with 1048578.
  change (1048576 + 3) with 1048579. split.
  - intros Hb. bool_prop. congruence.
  - intros [= -> -> -> ->]. done.
Qed.

(** Mounting a disk: what the state holds afterwards. *)
Lemma fs_init_spec s :
  blk_ok (fs_disk s) -> 2050 <= blk_limit (fs_disk s) -> fs_buffers s ->
  let s' := fs_init s in
  (forall a, blk_byte (fs_disk s') a = blk_byte (fs_disk s) a) /\ blk_ok (fs_disk s') /\
  (disk_magic (fs_disk s) -> fs_mounted s') /\
  (~ disk_magic (fs_disk s) -> fs_ready s' = false).
Proof.
  intros Hok Hlim [Hsb Hdir]. cbv zeta. unfold fs_init.
  destruct (read_sector (fs_disk s) FS_SUPERBLOCK_LBA (fs_superblock s)) as
    (sb & d1 & -> & Hok1 & Hl1 & Hby1 & Hz1 & Hi1); [done|done|unfold FS_SUPERBLOCK_LBA, FS_BASE_LBA; lia|done|].
  cbn [Z.eqb negb]. pose proof (disk_magic_spec (fs_disk s) sb Hi1) as Hm.
  destruct (fs_bad_magic sb) eqn:Eb.
  { split_and!; try done. intros Hd. apply Hm in Hd. done. }
  assert (Hmag : disk_magic (fs_disk s)) by by apply Hm.
  cbn [dir_sector].
  destruct (read_sector d1 FS_DIR_LBA (dir_sector s)) as
    (dir & d2 & -> & Hok2 & Hl2 & Hby2 & Hz2 & Hi2); [done|done|rewrite Hl1; unfold FS_DIR_LBA, FS_BASE_LBA; lia|done|].
  cbn [Z.eqb negb]. split_and!; try done.
  - intros a. simpl. by rewrite Hby2, Hby1.
  - intros _. split; simpl; try done.
    + rewrite (read_u32_disk (fs_disk s) sb 4 1048576) by (done || lia).
      unfold disk_count, disk_u32. rewrite !Hby2, !Hby1. change (1048576 + 4) with 1048580.
      change FS_MAX_ENTRIES with 16. split_if; lia.
    + intros i Hi. rewrite Hi2, Hby1, Hby2, Hby1 by done. done.
Qed.

Lemma cstr_take n (l : list Z) : cstr (take n l) = take n (cstr l).
Proof.
  revert l. induction n as [|n IH]; intros [|c l]; simpl; try done.
  destruct (c =? 0); [done|]. simpl. by rewrite IH.
Qed.

(** A short name compares with the record's name alone. *)
Lemma short_name_eq (l name : list Z) n :
  zlen (cstr name) < Z.of_nat n -> str_eq l name = true <-> cstr (take n l) = cstr name.
Proof.
  intros Hn. rewrite str_eq_cstr, cstr_take. unfold zlen in Hn. split; intros H.
  - rewrite H. apply take_ge. lia.
  - rewrite <- H. symmetry. apply take_ge. rewrite <- H in Hn. rewrite length_take in Hn. lia.
Qed.

Lemma fs_record_name s i :
  fs_mounted s -> 0 <= i < 16 ->
  cstr (take 20 (slice (dir_sector s) (i * 32) 28)) = disk_name (fs_disk s) i.
Proof.
  intros Hm Hi. unfold disk_name. f_equal.
  assert (E : take 20 (slice (dir_sector s) (i * 32) 28) = slice (dir_sector s) (i * 32) 20).
  { unfold slice. rewrite take_take. f_equal. }
  rewrite E. pose proof (fm_len _ Hm) as Hlen.
  apply array_ext.
  - rewrite slice_length by lia. unfold zlen. rewrite length_map, length_seqZ. lia.
  - intros k Hk. rewrite slice_length in Hk by lia. rewrite slice_get by lia.
    rewrite (fm_dir _ Hm) by lia. symmetry. apply list_lookup_total_correct.
    rewrite list_lookup_fmap, lookup_seqZ_lt by lia. simpl. f_equal. f_equal. unfold disk_record. lia.
Qed.

Lemma fs_entry_spec s i :
  fs_mounted s -> blk_ok (fs_disk s) -> 0 <= i < disk_count (fs_disk s) ->
  exists e, fs_entry s i = Some e /\
    fs_name e = slice (dir_sector s) (i * 32) 28 /\
    fs_start_lba e = disk_u32 (fs_disk s) (disk_record i + 20) /\
    fs_size_bytes e = disk_u32 (fs_disk s) (disk_record i + 24).
Proof.
  intros Hm Hok Hi. pose proof (fm_count _ Hm) as Hc. unfold fs_entry. rewrite (fm_ready _ Hm), Hc.
  assert (Hi16 : i < 16) by (unfold disk_count in Hi; lia).
  replace (i >=? disk_count (fs_disk s)) with false by lia. simpl.
  eexists. split; [done|]. simpl. split; [done|].
  rewrite !(read_u32_disk (fs_disk s) (dir_sector s) _ 1049088);
    (done || apply fm_len, Hm || apply fm_dir, Hm || lia || idtac).
  unfold disk_record. split; f_equal; lia.
Qed.

(** Where [fs_find] looks: the first record of the disk with that name. *)
Definition fs_find_outcome d name (r : option fs_dirent_t) : Prop :=
  match r with
  | Some e => exists i, 0 <= i < disk_count d /\ disk_name d i = cstr name /\
      (forall j, 0 <= j < i -> disk_name d j <> cstr name) /\
      fs_start_lba e = disk_u32 d (disk_record i + 20) /\
      fs_size_bytes e = disk_u32 d (disk_record i + 24)
  | None => forall i, 0 <= i < disk_count d -> disk_name d i <> cstr name
  end.

Lemma fs_find_spec s name :
  fs_mounted s -> blk_ok (fs_disk s) -> 0 <= disk_count (fs_disk s) -> zlen (cstr name) < 20 ->
  fs_find_outcome (fs_disk s) name (fs_find s name).
Proof.
  intros Hm Hok H0 Hn. unfold fs_find, fs_file_count. rewrite (fm_ready _ Hm), (fm_count _ Hm).
  apply (for_range_cases 0 (disk_count (fs_disk s)) _ tt
    (fun i _ => forall j, 0 <= j < i -> disk_name (fs_disk s) j <> cstr name)
    (fun r => fs_find_outcome (fs_disk s) name (match r with inl _ => None | inr e => Some e end)));
    [done|intros j Hj; lia| |intros _ Hall; exact Hall].
  intros i _ Hi Hlow. destruct (fs_entry_spec s i Hm Hok Hi) as (e & -> & En & Es & Ez).
  pose proof (short_name_eq (fs_name e) name 20 ltac:(lia)) as Hq.
  rewrite En, fs_record_name in Hq by (done || unfold disk_count in Hi; lia). rewrite En.
  destruct (str_eq _ _).
  - exists i. split; [done|]. split; [by apply Hq|]. done.
  - intros j Hj. destruct (decide (j = i)) as [->|]; [|apply Hlow; lia]. intros E. by apply Hq in E.
Qed.

Lemma disk_count_bounds d : blk_ok d -> 0 <= disk_count d <= 16.
Proof.
  intros Hok. unfold disk_count, disk_u32. pose proof (blk_byte_ok d 1048580 Hok).
  pose proof (blk_byte_ok d (1048580 + 1) Hok). pose proof (blk_byte_ok d (1048580 + 2) Hok).
  pose proof (blk_byte_ok d (1048580 + 3) Hok). lia.
Qed.

(** after mounting, a program name of at most 19 characters is looked up as the
    disk says: the first directory record with that name, with the start and size the
    record holds, or nothing when no record has it; without the magic number nothing
    is ever found. *)
Theorem fs_mount_find_correct s name :
  blk_ok (fs_disk s) -> 2050 <= blk_limit (fs_disk s) -> fs_buffers s -> zlen (cstr name) < 20 ->
  (disk_magic (fs_disk s) -> fs_find_outcome (fs_disk s) name (fs_find (fs_init s) name)) /\
  (~ disk_magic (fs_disk s) -> fs_find (fs_init s) name = None /\ fs_file_count (fs_init s) = 0).
Proof.
  intros Hok Hlim Hb Hn. destruct (fs_init_spec s Hok Hlim Hb) as (Hby & Hok' & Hm & Hno). split.
  - intros Hmag. pose proof (fs_find_spec (fs_init s) name (Hm Hmag) Hok'
      (proj1 (disk_count_bounds _ Hok')) Hn) as Hf.
    revert Hf. unfold fs_find_outcome, disk_count, disk_name, disk_u32.
    destruct (fs_find (fs_init s) name) as [e|].
    + intros (i & Hi & Hnm & Hlow & Hs & Hz). exists i. revert Hi Hnm Hlow Hs Hz.
      rewrite !Hby. intros Hi Hnm Hlow Hs Hz.
      assert (Hmap : forall j, map (fun k => blk_byte (fs_disk (fs_init s)) (disk_record j + k)) (seqZ 0 20) =
        map (fun k => blk_byte (fs_disk s) (disk_record j + k)) (seqZ 0 20)).
      { intros j. apply map_ext. intros k. apply Hby. }
      rewrite <- Hmap. split; [exact Hi|]. split; [exact Hnm|].
      split; [|exact (conj Hs Hz)]. intros j Hj. rewrite <- Hmap. by apply Hlow.
    + rewrite !Hby. intros Hall i Hi. specialize (Hall i Hi).
      erewrite map_ext in Hall; [exact Hall|]. intros k. apply Hby.
  - intros Hmag. unfold fs_find, fs_file_count. by rewrite (Hno Hmag).
Qed.

(** The number of sectors [fs_read_file] transfers. *)
Definition file_sectors (size : Z) : Z :=
  if u32 (size + 511) / 512 =? 0 then 1 else u32 (size + 511) / 512.

Lemma file_sectors_bounds size :
  0 <= size < 4294967296 ->
  1 <= file_sectors size <= 8388608 /\
  (size <= 4294966784 -> size <= file_sectors size * 512 < Z.max 1 size + 512) /\
  (4294966784 < size -> file_sectors size = 1).
Proof.
  intros H. unfold file_sectors. destruct (decide (size <= 4294966784)) as [Hs|Hs].
  - rewrite u32_small by lia. split_if; div_lia.
  - assert (E : u32 (size + 511) = size + 511 - 4294967296)
      by (unfold u32; symmetry; rewrite <- (Z.mod_unique (size + 511) 4294967296 1 (size + 511 - 4294967296)); lia).
    rewrite E, Z.div_small by lia. cbn [Z.eqb]. lia.
Qed.

(** C14: reading a file returns and stores exactly the sectors that hold it at the
    buffer, in order, and nothing behind them.  It stores whole sectors: up to 511
    bytes more than the file has, and 512 for an empty file, so a buffer of the file's
    size is too small; of a file whose size, above 4294966784, wraps when it is rounded
    up to sectors, it reads one sector. *)
Theorem fs_read_file_correct d e buf :
  blk_ok d -> 0 <= fs_size_bytes e < 4294967296 -> 0 <= fs_start_lba e ->
  let n := file_sectors (fs_size_bytes e) in
  fs_start_lba e + n <= blk_limit d -> n * 512 <= zlen buf ->
  (fs_size_bytes e <= 4294966784 ->
     fs_size_bytes e <= n * 512 /\
     n * 512 <= (if fs_size_bytes e =? 0 then 512 else fs_size_bytes e + 511)) /\
  (4294966784 < fs_size_bytes e -> n = 1) /\
  exists buf' d', fs_read_file d (Some e) buf = Some (0, buf', d') /\
    (forall a, blk_byte d' a = blk_byte d a) /\ zlen buf' = zlen buf /\
    forall i, 0 <= i -> buf'.[i] =
      if decide (i < n * 512) then blk_byte d (fs_start_lba e * 512 + i) else buf.[i].
Proof.
  intros Hok Hsize Hstart n Hlim Hbuf.
  destruct (file_sectors_bounds (fs_size_bytes e) Hsize) as (Hn1 & Hn2 & Hn3). fold n in Hn1, Hn2, Hn3.
  split; [intros Hs; specialize (Hn2 Hs); split; [lia|split_if; lia]|]. split; [done|]. unfold fs_read_file. fold (file_sectors (fs_size_bytes e)). fold n.
  set (Inv := fun '(b, d1, off, k) => blk_ok d1 /\ blk_limit d1 = blk_limit d /\
    (forall a, blk_byte d1 a = blk_byte d a) /\ zlen b = zlen buf /\ 0 <= k <= n /\
    off = (n - k) * 512 /\
    (forall i, 0 <= i -> b.[i] =
      if decide (i < off) then blk_byte d (fs_start_lba e * 512 + i) else buf.[i])).
  while_inv (fun st : list Z * D * Z * Z => st.2) Inv (fun r : Z * list Z * D =>
    let '(r, b, d1) := r in r = 0 /\ (forall a, blk_byte d1 a = blk_byte d a) /\ zlen b = zlen buf /\
    forall i, 0 <= i -> b.[i] =
      if decide (i < n * 512) then blk_byte d (fs_start_lba e * 512 + i) else buf.[i]).
  - unfold Inv. split_and!; try done; try lia. intros i Hi. by rewrite decide_False by lia.
  - simpl. lia.
  - intros [[[b d1] off] k] (Ho & Hl & Hby & Hz & Hk & Hoff & Hi). split_if.
    + set (chunk := if k >? 256 then 256 else k).
      assert (Hc : 1 <= chunk <= 256 /\ chunk <= k) by (unfold chunk; split_if; lia).
      clearbody chunk.
      assert (Hq : off / 512 = n - k) by (subst off; apply Z.div_mul; lia).
      assert (Hdz : zlen (drop (Z.to_nat off) b) = zlen b - off) by (unfold zlen in *; rewrite length_drop; lia).
      destruct (blk_read_law d1 (fs_start_lba e + off / 512) chunk (drop (Z.to_nat off) b))
        as (tail & d2 & -> & Ho2 & Hl2 & Hby2 & Hz2 & Hi2); [done|lia|lia|lia|unfold SECTOR_SIZE; lia|].
      cbn [Z.eqb negb]. split; [|simpl; lia]. unfold Inv.
      assert (Htk : zlen (take (Z.to_nat off) b) = off) by (unfold zlen in *; rewrite length_take; lia).
      split_and!; try done; try lia.
      * intros a. by rewrite Hby2.
      * unfold zlen in *. rewrite length_app. lia.
      * intros i H0. destruct (decide (i < off)).
        { rewrite list_lookup_total_alt, lookup_app_l by (unfold zlen in Htk; lia).
          rewrite lookup_take_lt by lia. rewrite <- list_lookup_total_alt, Hi by done.
          by rewrite !decide_True by lia. }
        replace (Z.to_nat i) with (length (take (Z.to_nat off) b) + Z.to_nat (i - off))%nat
          by (unfold zlen in Htk; lia).
        rewrite list_lookup_total_alt, lookup_app_r by lia.
        replace (length (take (Z.to_nat off) b) + Z.to_nat (i - off) - length (take (Z.to_nat off) b))%nat
          with (Z.to_nat (i - off)) by lia.
        rewrite <- list_lookup_total_alt, Hi2 by lia. unfold SECTOR_SIZE. rewrite Hby, Hq.
        destruct (decide (i - off < chunk * 512)).
        -- rewrite decide_True by lia. f_equal. lia.
        -- rewrite decide_False by lia. rewrite list_lookup_total_alt, lookup_drop.
           replace (Z.to_nat off + Z.to_nat (i - off))%nat with (Z.to_nat i) by lia.
           rewrite <- list_lookup_total_alt, Hi by done. rewrite decide_False by lia.
           f_equal. unfold zlen in Htk. lia.
    + assert (k = 0) as -> by lia. split_and!; try done. intros i H0. rewrite Hi by done.
      replace off with (n * 512) by lia. done.
  - simpl. lia.
  - destruct Hloop as ([[r b] d'] & E & -> & Hby & Hz & Hi). exists b, d'. by rewrite E.
Qed.
End device.

(** ** A concrete disk with one program *)

(** Two records: [sh] of 700 bytes in sectors 2060 and 2061, and [ls]. *)
Definition demo_fs_bytes : gmap Z Z :=
  list_to_map [(1048576, 77); (1048577, 70); (1048578, 83); (1048579, 49); (1048580, 2);
    (1049088, 115); (1049089, 104); (1049108, 12); (1049109, 8); (1049112, 188); (1049113, 2);
    (1049120, 108); (1049121, 115); (1049140, 14); (1049141, 8); (1049144, 9)].
Definition demo_fs_disk : memdisk := mk_memdisk 4096 demo_fs_bytes.
Definition demo_fs : fs memdisk :=
  mk_fs (replicate 512 0) (replicate 512 0) false 0 demo_fs_disk.

Example demo_fs_find :
  option_map fs_start_lba (fs_find (fs_init demo_fs) [108; 115; 0]) = Some 2062.
Proof. vm_compute. reflexivity. Qed.

Lemma fs_mount_find_correct_witness :
  disk_magic demo_fs_disk /\
  fs_find_outcome demo_fs_disk [115; 104; 0] (fs_find (fs_init demo_fs) [115; 104; 0]).
Proof.
  assert (Hm : disk_magic demo_fs_disk) by (vm_compute; reflexivity).
  assert (Hl : 2050 <= blk_limit (fs_disk demo_fs)) by (vm_compute; congruence).
  assert (Hn : zlen (cstr [115; 104; 0]) < 20) by (vm_compute; reflexivity).
  exact (conj Hm (proj1 (fs_mount_find_correct demo_fs [115; 104; 0] I Hl
    (conj eq_refl eq_refl) Hn) Hm)).
Defined.

Lemma fs_read_file_correct_witness :
  let e := mk_fs_dirent [115; 104; 0] 2060 700 in
  exists buf' d', fs_read_file demo_fs_disk (Some e) (replicate 1024 7) = Some (0, buf', d') /\
    zlen buf' = 1024 /\ buf'.[1023] = 0.
Proof.
  intros e.
  destruct (fs_read_file_correct demo_fs_disk e (replicate 1024 7)) as (_ & _ & b & d' & E & _ & Hz & Hi);
    [exact I|simpl; lia|simpl; lia|vm_compute; congruence|vm_compute; congruence|].
  exists b, d'. split; [exact E|]. split; [exact Hz|]. rewrite Hi by lia. reflexivity.
Defined.
