(* ===== verification/Elf.v ===== *)
(** The ELF loader of [kernel/core/elf/elf_loader.c]: header checks and the copy of
    the loadable segments into fresh user pages of an address space. *)
From S2P Require Import Prelude Mem Pmm Vmm VmmSpec VmmFrame.

Definition PT_LOAD : Z := 1.
Definition PAGE_SIZE_4K : Z := 4096.
Definition ELF_MACHINE_X86_64 : Z := 0x3E.
Definition ELF_CLASS_64 : Z := 2.
Definition ELF_TYPE_EXEC : Z := 2.
Definition PF_X : Z := 0x1.
Definition PF_W : Z := 0x2.

Definition EHDR_SIZEOF : Z := 64.
Definition PHDR_SIZEOF : Z := 56.

Record elf64_ehdr_t := mk_ehdr {
  e_ident : list Z;
  e_type : Z;
  e_machine : Z;
  e_entry : Z;
  e_phoff : Z;
  e_phentsize : Z;
  e_phnum : Z;
}.

Record elf64_phdr_t := mk_phdr {
  p_type : Z;
  p_flags : Z;
  p_offset : Z;
  p_vaddr : Z;
  p_filesz : Z;
  p_memsz : Z;
}.

(** * The model *)

(** The header structs at an address, at the offsets of the packed layout. *)
Definition ehdr_at (m : mem) (a : Z) : elf64_ehdr_t :=
  mk_ehdr (map (fun i => ld8 m (a + i)) (seqZ 0 16)) (ldn 2 m (a + 16)) (ldn 2 m (a + 18))
    (ld64 m (a + 24)) (ld64 m (a + 32)) (ldn 2 m (a + 54)) (ldn 2 m (a + 56)).

Definition phdr_at (m : mem) (a : Z) : elf64_phdr_t :=
  mk_phdr (ld32 m a) (ld32 m (a + 4)) (ld64 m (a + 8)) (ld64 m (a + 16))
    (ld64 m (a + 32)) (ld64 m (a + 40)).

(** [x & ~(PAGE_SIZE_4K - 1)] on 64-bit values. *)
Definition page_down (x : Z) : Z := Z.land x (U64_MAX -64 (PAGE_SIZE_4K - 1)).

(** A zeroed frame mapped at [va]: the frame, or 0 for result -1. *)
Definition map_fresh_page (v : vmm) (space : Z) (ph : elf64_phdr_t) (va : Z) : vmm * Z :=
  let (p, frame) := pmm_alloc_frame (vm_pmm v) in
  let v := with_pmm v p in
  if frame =? 0 then (v, 0)
  else
    let v := with_mem v (fill8 (vm_mem v) frame PAGE_SIZE_4K 0) in
    let flags := VMM_USER in
    let flags := if has (p_flags ph) PF_W then Z.lor flags VMM_WRITABLE else flags in
    let (v, r) := vmm_map_page_in v space va frame flags in
    if negb (r =? 0) then (v, 0) else (v, frame).

(** The part of the file that falls on the page at [va]. *)
Definition copy_page (m : mem) (frame data : Z) (ph : elf64_phdr_t) (segment_vaddr va : Z) : mem :=
  let page_vend := va +64 PAGE_SIZE_4K in
  let seg_data_end := segment_vaddr +64 p_filesz ph in
  let copy_start := if va >? segment_vaddr then va else segment_vaddr in
  let copy_end := if page_vend <? seg_data_end then page_vend else seg_data_end in
  if copy_end >? copy_start then
    let file_off := p_offset ph +64 (copy_start -64 segment_vaddr) in
    let page_off := copy_start -64 va in
    let n := copy_end -64 copy_start in
    for_each 0 n (fun k m => st8 m (frame + page_off + k) (ld8 m (data + file_off + k))) m
  else m.

(** One page of a segment: the body of the loop. *)
Definition load_page (v : vmm) (space data : Z) (ph : elf64_phdr_t) (segment_vaddr va : Z) : vmm * Z :=
  let (v, frame) := map_fresh_page v space ph va in
  if frame =? 0 then (v, -1)
  else (with_mem v (copy_page (vm_mem v) frame data ph segment_vaddr va), 0).

(** Every page costs a frame, so there are at most [PMM_MAX_FRAMES] of them. *)
Definition LOAD_FUEL : positive := 1048578.

Definition load_segment (v : vmm) (space data size : Z) (ph : elf64_phdr_t) (load_bias : Z) :
    option (vmm * Z) :=
  if (p_filesz ph >? p_memsz ph) || (p_offset ph >? size) || (p_filesz ph >? size - p_offset ph)
  then Some (v, -1)
  else if p_vaddr ph +64 load_bias <? p_vaddr ph then Some (v, -1)
  else
    let segment_vaddr := p_vaddr ph +64 load_bias in
    if p_memsz ph =? 0 then Some (v, 0)
    else
      let vaddr_start := page_down segment_vaddr in
      let vaddr_end := page_down (segment_vaddr +64 p_memsz ph +64 (PAGE_SIZE_4K - 1)) in
      if vaddr_end <? segment_vaddr then Some (v, -1)
      else
        while_pos LOAD_FUEL (fun '(v, va) =>
          if va <? vaddr_end then
            let (v, r) := load_page v space data ph segment_vaddr va in
            if negb (r =? 0) then inr (v, -1) else inl (v, va +64 PAGE_SIZE_4K)
          else inr (v, 0)) (v, vaddr_start).

Definition entry_is_executable (m : mem) (eh : elf64_ehdr_t) (data : Z) : bool :=
  match for_range 0 (e_phnum eh) (fun i (_ : unit) =>
    let ph := phdr_at m (data + e_phoff eh + i * e_phentsize eh) in
    if negb (p_type ph =? PT_LOAD) || negb (has (p_flags ph) PF_X) || (p_memsz ph =? 0) then inl tt
    else if p_vaddr ph +64 p_memsz ph <? p_vaddr ph then inr false
    else if (e_entry eh >=? p_vaddr ph) && (e_entry eh <? p_vaddr ph +64 p_memsz ph) then inr true
    else inl tt) tt with
  | inl _ => false
  | inr b => b
  end.

(** The headers refused before anything is mapped. *)
Definition bad_header (m : mem) (data size : Z) : bool :=
  (size <? EHDR_SIZEOF) ||
  (let eh := ehdr_at m data in
   negb ((e_ident eh).[0] =? 0x7F) || negb ((e_ident eh).[1] =? 69) ||
   negb ((e_ident eh).[2] =? 76) || negb ((e_ident eh).[3] =? 70) ||
   negb ((e_ident eh).[4] =? ELF_CLASS_64) || negb (e_machine eh =? ELF_MACHINE_X86_64) ||
   negb (e_type eh =? ELF_TYPE_EXEC) || negb (e_phentsize eh =? PHDR_SIZEOF) ||
   (e_phoff eh >? size) || (e_phnum eh >? (size - e_phoff eh) / e_phentsize eh)).

(** The entry point, or [None] for result -1. *)
Definition elf_load (v : vmm) (space data size load_bias : Z) : option (vmm * option Z) :=
  if bad_header (vm_mem v) data size then Some (v, None)
  else
    let eh := ehdr_at (vm_mem v) data in
    if negb (entry_is_executable (vm_mem v) eh data) then Some (v, None)
    else
      match for_range 0 (e_phnum eh) (fun i v =>
        let ph := phdr_at (vm_mem v) (data + e_phoff eh + i * e_phentsize eh) in
        if negb (p_type ph =? PT_LOAD) then inl v
        else
          match load_segment v space data size ph load_bias with
          | None => inr None
          | Some (v, r) => if negb (r =? 0) then inr (Some (v, None)) else inl v
          end) v with
      | inr r => r
      | inl v =>
          if e_entry eh +64 load_bias <? e_entry eh then Some (v, None)
          else Some (v, Some (e_entry eh +64 load_bias))
      end.

(** The walk looks at the low 48 bits: a segment at [2^48 + a] lands on the page of
    [a], and nothing in [load_segment] refuses it. *)
Lemma page_noncanonical (a : Z) : 0 <= a -> same_page (281474976710656 + a) a.
Proof.
  intros Ha. apply same_page_number; [lia|done|].
  replace (281474976710656 + a) with (a + 68719476736 * 4096) by lia. rewrite Z.div_add by lia.
  replace 68719476736 with (1 * 2 ^ 36) by done. by rewrite Z.mod_add by done.
Qed.

(** * One page *)

Definition segment_flags (ph : elf64_phdr_t) : Z :=
  if has (p_flags ph) PF_W then Z.lor VMM_USER VMM_WRITABLE else VMM_USER.

(** The file's bytes are in memory the loader does not touch, and the segment's
    bytes are inside the file and inside the address range. *)
Definition image_ok (root : Z) (v : vmm) (data size : Z) : Prop :=
  data + size < 18446744073709551616 /\ forall i, 0 <= i < size -> owned root v (data + i).

Definition segment_ok (size seg : Z) (ph : elf64_phdr_t) : Prop :=
  0 < size /\ 0 <= seg /\ 0 <= p_offset ph /\ 0 <= p_filesz ph /\ p_offset ph + p_filesz ph <= size /\
  size < 18446744073709551616 /\ seg + p_filesz ph < 18446744073709551616.

(** The byte the loaded segment has at [a]. *)
Definition segment_byte (m : mem) (data seg : Z) (ph : elf64_phdr_t) (a : Z) : Z :=
  if decide (seg <= a < seg + p_filesz ph) then ld8 m (data + p_offset ph + (a - seg)) else 0.

(** What [map_fresh_page] gives: a zeroed frame behind the page, or nothing. *)
Lemma map_fresh_page_spec v space ph va :
  let root := space_pml4 space in
  vmm_wf root v ->
  let (v', f) := map_fresh_page v space ph va in
  evolves root (fun a => ~ same_page va a) v v' /\
  (f = 0 \/ f <> 0 /\ own_frame root v v' f /\
    free_frames (vm_pmm v') < free_frames (vm_pmm v) /\
    user_page (vm_mem v') root va f (map_attrs (segment_flags ph)) /\
    forall o, 0 <= o < 4096 -> ld8 (vm_mem v') (f + o) = 0).
Proof.
  intros root Hw. unfold map_fresh_page.
  destruct (vmm_alloc_cases v root Hw) as [[-> Hno]|(p' & f & Ea & Hf0 & Hf & Hfree & Hp' & Hus)].
  { simpl. rewrite with_pmm_id. split; [by apply evolves_refl|by left]. }
  assert (Hff : free_frames p' = free_frames (vm_pmm v) - 1).
  { destruct Hw as (_ & Hp & _). destruct (pmm_alloc_frame_spec (vm_pmm v) Hp); [congruence|].
    by injection Ea as <- _. }
  rewrite Ea. replace (f =? 0) with false by lia.
  pose proof (evolves_alloc root v p' f Hw Hp' Hus) as E0.
  pose proof (own_frame_alloc root v p' f Hw Hf Hfree Hus) as O0.
  cbn [vm_mem with_pmm]. set (m1 := fill8 (vm_mem v) f PAGE_SIZE_4K 0).
  assert (Hz1 : forall o, 0 <= o < 4096 -> ld8 m1 (f + o) = 0).
  { intros o Ho. unfold m1, PAGE_SIZE_4K. by rewrite fill8_spec, decide_True by lia. }
  destruct (own_frame_write _ _ _ _ _ m1 E0 O0 (fill8_only_differ _ _ _ _)) as (E1 & O1 & _).
  clearbody m1. set (v1 := with_mem (with_pmm v p') m1) in *.
  change (if has (p_flags ph) PF_W then Z.lor VMM_USER VMM_WRITABLE else VMM_USER)
    with (segment_flags ph).
  pose proof (map_page_spec v1 space va f (segment_flags ph) (evolves_wf _ _ _ _ E1)) as Hmap.
  cbv zeta in Hmap. fold root in Hmap.
  destruct (vmm_map_page_in v1 space va f (segment_flags ph)) as [v2 r]. destruct Hmap as [E2 Hr].
  assert (E12 : evolves root (fun a => ~ same_page va a) v v2).
  { eapply evolves_trans; [by apply (evolves_weaken _ _ _ _ _ E1)|].
    apply (evolves_weaken _ _ _ _ _ E2). auto. }
  destruct Hr as [[-> Hno]|[-> Hup]]; [split; [done|by left]|].
  split; [done|right]. split; [done|]. split; [by apply (own_frame_evolves _ _ _ _ _ _ E2)|]. split_and!.
  - pose proof (evolves_free_frames _ _ _ _ (proj1 (ev_pmm _ _ _ _ E1)) E2) as H2. simpl in H2. lia.
  - replace (table_addr f) with f in Hup; [done|]. symmetry. destruct Hf as [? Hfb].
    unfold PMM_MAX_MEMORY in Hfb. apply table_addr_page; lia.
  - intros o Ho. destruct O1 as (_ & _ & O1).
    rewrite (proj2 (owned_evolves _ _ _ _ _ E2 (O1 o Ho))). by apply Hz1.
Qed.

(** The copy stays inside the frame, whatever the header says. *)
Lemma copy_page_only_differ (m : mem) f data ph seg va :
  0 <= va -> va + 4096 < 18446744073709551616 -> 0 <= seg ->
  only_differ m (copy_page m f data ph seg va) f 4096.
Proof.
  intros H0 Hv Hs. unfold copy_page, PAGE_SIZE_4K. rewrite (u64_small (va + 4096)) by lia.
  set (cs := if va >? seg then va else seg).
  set (ce := if va + 4096 <? _ then _ else _).
  assert (Hcs : va <= cs /\ 0 <= cs) by (unfold cs; split_if; lia).
  assert (Hce : ce <= va + 4096) by (unfold ce; split_if; lia).
  destruct (ce >? cs) eqn:Ec; bool_prop; [|done].
  rewrite (u64_small (cs - va)), (u64_small (ce - cs)) by lia. intros a Ha.
  apply (for_each_inv 0 (ce - cs) _ m (fun _ m' => ld8 m' a = ld8 m a)); [lia|done|].
  intros j m' Hj IH. rewrite ld8_st8_ne by lia. exact IH.
Qed.

(** On a zeroed frame it leaves the bytes of the segment. *)
Lemma copy_page_bytes (m : mem) f data size ph seg va o :
  0 <= va -> va + 4096 < 18446744073709551616 -> segment_ok size seg ph ->
  data + size <= f \/ f + 4096 <= data -> data + size < 18446744073709551616 -> 0 <= o < 4096 ->
  ld8 m (f + o) = 0 ->
  ld8 (copy_page m f data ph seg va) (f + o) = segment_byte m data seg ph (va + o).
Proof.
  intros H0 Hv (Hsz0 & Hs0 & Hso & Hsf & Hse & Hsz & Hsw) Hap Hdm Ho Hz.
  unfold copy_page, PAGE_SIZE_4K, segment_byte.
  rewrite (u64_small (va + 4096)), (u64_small (seg + _)) by lia.
  set (cs := if va >? seg then va else seg).
  set (ce := if va + 4096 <? _ then _ else _).
  assert (Ecs : cs = Z.max va seg) by (unfold cs; split_if; lia).
  assert (Ece : ce = Z.min (va + 4096) (seg + p_filesz ph)) by (unfold ce; split_if; lia).
  clearbody cs ce. destruct (ce >? cs) eqn:Ec; bool_prop.
  - rewrite (u64_small (cs - va)), (u64_small (ce - cs)), (u64_small (cs - seg)) by lia.
    rewrite (u64_small (p_offset ph + _)) by lia.
    rewrite copy_mem_spec by lia. destruct (decide (seg <= va + o < seg + p_filesz ph)).
    + rewrite decide_True by lia. f_equal. lia.
    + by rewrite decide_False by lia.
  - by rewrite decide_False by lia.
Qed.

(** The page at [va] is loaded, in a frame of its own that was free in [v0]. *)
Definition page_loaded (root : Z) (v0 v : vmm) (data seg : Z) (ph : elf64_phdr_t) (va : Z) : Prop :=
  exists f, own_frame root v0 v f /\
    user_page (vm_mem v) root va f (map_attrs (segment_flags ph)) /\
    forall o, 0 <= o < 4096 -> ld8 (vm_mem v) (f + o) = segment_byte (vm_mem v0) data seg ph (va + o).

(** An image in use is apart from a frame that was free. *)
Lemma image_apart root v0 v data size f :
  image_ok root v0 data size -> 0 < size -> own_frame root v0 v f ->
  data + size <= f \/ f + 4096 <= data.
Proof.
  intros [_ Hown] Hs ([Hfm Hfb] & Hfree & _).
  destruct (decide (data + size <= f)); [by left|]. destruct (decide (f + 4096 <= data)); [by right|].
  exfalso. destruct (Hown (Z.max f data - data) ltac:(lia)) as (_ & Hu & _).
  replace (frame_of (data + (Z.max f data - data))) with (frame_of f) in Hu; [congruence|].
  unfold frame_of, PMM_FRAME_SIZE. div_lia.
Qed.

Lemma segment_byte_evolves root keep v0 v data size seg ph a :
  evolves root keep v0 v -> image_ok root v0 data size -> segment_ok size seg ph ->
  segment_byte (vm_mem v) data seg ph a = segment_byte (vm_mem v0) data seg ph a.
Proof.
  intros He [_ Hown] (_ & _ & Hso & Hsf & Hse & _). unfold segment_byte. case_decide; [|done].
  rewrite <- Z.add_assoc. apply (owned_evolves _ _ _ _ _ He), Hown. lia.
Qed.

Lemma load_page_spec v space data ph seg va :
  let root := space_pml4 space in
  vmm_wf root v -> 0 <= va -> va + 4096 < 18446744073709551616 -> 0 <= seg ->
  let (v', r) := load_page v space data ph seg va in
  evolves root (fun a => ~ same_page va a) v v' /\
  (r = -1 \/ r = 0 /\ free_frames (vm_pmm v') < free_frames (vm_pmm v) /\
   forall size, image_ok root v data size -> segment_ok size seg ph ->
     page_loaded root v v' data seg ph va).
Proof.
  intros root Hw Hva Hend Hseg. unfold load_page.
  pose proof (map_fresh_page_spec v space ph va Hw) as Hm. cbv zeta in Hm. fold root in Hm.
  destruct (map_fresh_page v space ph va) as [v1 f]. destruct Hm as [E1 [->|Hm]].
  { split; [done|by left]. }
  destruct Hm as (Hf0 & Ho & Hff & Hup & Hz). replace (f =? 0) with false by lia.
  pose proof (copy_page_only_differ (vm_mem v1) f data ph seg va Hva Hend Hseg) as Hd.
  destruct (own_frame_write _ _ _ _ _ _ E1 Ho Hd) as (E2 & Ho2 & Hup2).
  split; [done|right]. split; [done|]. split; [done|]. intros size Him Hsg.
  exists f. split; [done|]. split; [by apply Hup2|]. intros o Hoo. cbn [vm_mem with_mem].
  rewrite (copy_page_bytes _ f data size);
    [by eapply segment_byte_evolves|done|done|done| |apply Him|done|by apply Hz].
  eapply image_apart; [done|apply Hsg|done].
Qed.

(** Loaded pages stay loaded while other pages are. *)
Lemma page_loaded_evolves root (keep : Z -> Prop) v0 v v' data seg ph va :
  evolves root keep v v' -> keep va ->
  page_loaded root v0 v data seg ph va -> page_loaded root v0 v' data seg ph va.
Proof.
  intros He Hk (f & Ho & Hup & Hb). exists f. split; [by apply (own_frame_evolves _ _ _ _ _ _ He)|].
  split; [by eapply user_page_evolves|]. intros o Hoo. rewrite <- Hb by done.
  apply (owned_evolves _ _ _ _ _ He). apply Ho, Hoo.
Qed.

(** [v0] may be moved back. *)
Lemma page_loaded_from root keep v0 v1 v data size seg ph va :
  evolves root keep v0 v1 -> image_ok root v0 data size -> segment_ok size seg ph ->
  page_loaded root v1 v data seg ph va -> page_loaded root v0 v data seg ph va.
Proof.
  intros He Him Hsg (f & (Hf & Hfree & Ho) & Hup & Hb). exists f. split; [split; [done|split; [|done]]|].
  - destruct (is_used (vm_pmm v0) (frame_of f)) eqn:E; [|done].
    rewrite (ev_used _ _ _ _ He) in Hfree; [done| |done]. apply frame_of_nonneg. destruct Hf. lia.
  - split; [done|]. intros o Hoo. rewrite Hb by done. by eapply segment_byte_evolves.
Qed.

Lemma image_ok_evolves root keep v v' data size :
  evolves root keep v v' -> image_ok root v data size -> image_ok root v' data size.
Proof.
  intros He [Hd Ho]. split; [done|]. intros i Hi. apply (owned_evolves _ _ _ _ _ He), Ho, Hi.
Qed.

(** * One segment *)

Lemma page_down_eq x : 0 <= x < 18446744073709551616 -> page_down x = x / 4096 * 4096.
Proof. apply page_mask_eq. Qed.

Definition seg_start (ph : elf64_phdr_t) (bias : Z) : Z := page_down (p_vaddr ph +64 bias).
Definition seg_end (ph : elf64_phdr_t) (bias : Z) : Z :=
  page_down (p_vaddr ph +64 bias +64 p_memsz ph +64 (PAGE_SIZE_4K - 1)).

(** [a] is on a page the segment is mapped to. *)
Definition touches (ph : elf64_phdr_t) (bias hi a : Z) : Prop :=
  exists va, seg_start ph bias <= va < hi /\ va mod 4096 = 0 /\ same_page va a.

Definition phdr_ok (ph : elf64_phdr_t) : Prop :=
  0 <= p_offset ph /\ 0 <= p_vaddr ph /\ 0 <= p_filesz ph /\ 0 <= p_memsz ph.

Lemma pages_differ va p :
  0 <= p < va -> va mod 4096 = 0 -> p mod 4096 = 0 -> va - p < 2 ^ 48 -> ~ same_page va p.
Proof.
  intros Hp Hv1 Hp1 Hd Hs. apply same_page_number in Hs; [|lia|lia].
  apply Z.mod_divide in Hv1 as [x ->]; [|lia]. apply Z.mod_divide in Hp1 as [y ->]; [|lia].
  rewrite !Z.div_mul in Hs by lia. div_lia.
Qed.

(** What one call for a segment does. *)
Definition segment_outcome (root : Z) (v : vmm) (data size : Z) (ph : elf64_phdr_t) (bias : Z)
    (v' : vmm) (r : Z) : Prop :=
  evolves root (fun a => ~ touches ph bias (seg_end ph bias) a) v v' /\
  (r = -1 \/ r = 0 /\ p_filesz ph <= p_memsz ph /\ p_offset ph + p_filesz ph <= size /\
   (image_ok root v data size -> segment_ok size (p_vaddr ph +64 bias) ph -> 0 < p_memsz ph ->
    forall va, seg_start ph bias <= va < seg_end ph bias -> va mod 4096 = 0 ->
      page_loaded root v v' data (p_vaddr ph +64 bias) ph va)).

Lemma load_segment_spec v space data size ph bias :
  let root := space_pml4 space in
  vmm_wf root v -> phdr_ok ph ->
  exists v' r, load_segment v space data size ph bias = Some (v', r) /\
    segment_outcome root v data size ph bias v' r.
Proof.
  intros root Hw (Hpo & Hpv & Hpf & Hpm). unfold load_segment, segment_outcome.
  fold (seg_start ph bias). fold (seg_end ph bias).
  pose proof (u64_bounds (p_vaddr ph + bias)) as Hseg. set (seg := p_vaddr ph +64 bias) in *.
  assert (Hfail : exists v' r, Some (v, -1) = Some (v', r) /\
    evolves root (fun a => ~ touches ph bias (seg_end ph bias) a) v v' /\
    (r = -1 \/ r = 0 /\ p_filesz ph <= p_memsz ph /\ p_offset ph + p_filesz ph <= size /\
      (image_ok root v data size -> segment_ok size seg ph -> 0 < p_memsz ph -> forall va, seg_start ph bias <= va < seg_end ph bias -> va mod 4096 = 0 ->
      page_loaded root v v' data seg ph va))).
  { exists v, (-1). split; [done|]. split; [by apply evolves_refl|by left]. }
  split_if; [exact Hfail|]. split_if; [exact Hfail|]. split_if.
  { exists v, 0. split; [done|]. split; [by apply evolves_refl|]. right. split_and!; lia. }
  split_if; [exact Hfail|]. clear Hfail.
  assert (Hst : seg_start ph bias = seg / 4096 * 4096) by (apply page_down_eq; done).
  pose proof (u64_bounds (seg +64 p_memsz ph + (PAGE_SIZE_4K - 1))) as Hend.
  assert (Hen : seg_end ph bias = (seg +64 p_memsz ph +64 (PAGE_SIZE_4K - 1)) / 4096 * 4096).
  { by apply page_down_eq. }
  set (last := seg_end ph bias) in *. set (start := seg_start ph bias) in *.
  assert (Hlb : last + 4096 <= 18446744073709551616 /\ last mod 4096 = 0 /\
    0 <= start /\ start mod 4096 = 0) by (rewrite Hen, Hst; clear Hen Hst; div_lia).
  set (P := fun (n : Z) '(v1, va) => evolves root (fun a => ~ touches ph bias va a) v v1 /\
    start <= va /\ va <= Z.max start last /\ va mod 4096 = 0 /\
    free_frames (vm_pmm v1) <= n /\ (va - start) / 4096 + n <= PMM_MAX_FRAMES /\
    (image_ok root v data size -> segment_ok size seg ph ->
     forall p, start <= p < va -> p mod 4096 = 0 -> page_loaded root v v1 data seg ph p)).
  while_pos_inv (free_frames (vm_pmm v)) P (fun '(v1, r) =>
    evolves root (fun a => ~ touches ph bias last a) v v1 /\
    (r = -1 \/ r = 0 /\ (image_ok root v data size -> segment_ok size seg ph ->
      forall p, start <= p < last -> p mod 4096 = 0 -> page_loaded root v v1 data seg ph p))).
  - pose proof (free_count_bounds (vm_pmm v)). destruct Hw as (? & [Hfc ?] & ?).
    unfold P. rewrite Z.sub_diag, Z.div_0_l by lia. split_and!; try done; try lia.
    apply evolves_refl. by split_and!.
  - pose proof (free_count_bounds (vm_pmm v)). destruct Hw as (_ & [Hfc _] & _).
    rewrite Hfc. unfold LOAD_FUEL. frames. lia.
  - intros n [v1 va] Hn (He & Hi1 & Hi2 & Hi3 & Hi4 & Hi5 & Hi6). destruct (va <? last) eqn:Elt; bool_prop.
    + assert (Hva : va + 4096 <= last) by (clear - Elt Hi3 Hlb; div_lia).
      pose proof (load_page_spec v1 space data ph seg va (evolves_wf _ _ _ _ He)
        ltac:(lia) ltac:(lia) ltac:(lia)) as Hp. cbv zeta in Hp. fold root in Hp.
      destruct (load_page v1 space data ph seg va) as [v2 r]. destruct Hp as [E2 Hr].
      assert (E12 : evolves root (fun a => ~ touches ph bias (va + 4096) a) v v2).
      { eapply evolves_trans.
        - apply (evolves_weaken _ _ _ _ _ He). intros a Hn1 (p & Hp & ?). apply Hn1.
          exists p. split; [lia|done].
        - apply (evolves_weaken _ _ _ _ _ E2). intros a Hn1 Hs. apply Hn1.
          exists va. split; [fold start; lia|done]. }
      destruct Hr as [->|(-> & Hff & Hpl)]; cbn [Z.eqb negb].
      * split; [|by left]. apply (evolves_weaken _ _ _ _ _ E12). intros a Hn1 (p & Hp & ?).
        apply Hn1. exists p. split; [lia|done].
      * exists (n - 1). unfold PAGE_SIZE_4K. rewrite u64_small by lia.
        destruct (ev_pmm _ _ _ _ E2) as [[Hc2 _] _]. pose proof (free_count_bounds (vm_pmm v2)).
        assert (Hq : (va + 4096 - start) / 4096 = (va - start) / 4096 + 1)
          by (clear - Hi1; div_lia).
        split; [lia|]. unfold P. split; [done|]. split; [lia|]. split; [lia|].
        split; [clear - Hi3; div_lia|]. split; [lia|]. split; [lia|].
        intros Him Hsg p Hp Hpg. destruct (decide (p = va)) as [->|Hne].
        -- apply (page_loaded_from _ _ _ _ _ _ _ _ _ _ He Him Hsg).
           apply (Hpl size); [by eapply image_ok_evolves|done].
        -- assert (Hlt : start <= p < va) by (clear - Hp Hpg Hne Hi3; div_lia).
           apply (page_loaded_evolves _ _ _ _ _ _ _ _ _ E2); [|by apply Hi6].
           apply pages_differ; [lia|done|done|]. frames. clear - Hi5 Hn Hi1 Hlt. div_lia.
    + split.
      * apply (evolves_weaken _ _ _ _ _ He). intros a Hn1 (p & Hp & ?). apply Hn1.
        exists p. split; [lia|done].
      * right. split; [done|]. intros Him Hsg p Hp. apply Hi6; [done|done|lia].
  - destruct Hloop as ([v' r] & Eq & He & Hr). exists v', r. split; [exact Eq|]. split; [done|].
    destruct Hr as [->|[-> Hr]]; [by left|right]. split_and!; [done|lia|lia|auto].
Qed.

(** * The whole file *)

Lemma phdr_at_ext (m m' : mem) a :
  (forall b, a <= b < a + PHDR_SIZEOF -> ld8 m' b = ld8 m b) -> phdr_at m' a = phdr_at m a.
Proof.
  unfold PHDR_SIZEOF. intros H. unfold phdr_at, ld32.
  rewrite !(ldn_ext 4 m m'), !(ld64_ext m m') by (intros; apply H; lia). done.
Qed.

Lemma phdr_at_ok m a : phdr_ok (phdr_at m a).
Proof. split_and!; apply ld64_bounds. Qed.

(** The program header of index [i], and whether it is loaded. *)
Definition phdr (v : vmm) (data i : Z) : elf64_phdr_t :=
  let eh := ehdr_at (vm_mem v) data in
  phdr_at (vm_mem v) (data + e_phoff eh + i * e_phentsize eh).
Definition loads (v : vmm) (data i : Z) : Prop :=
  0 <= i < e_phnum (ehdr_at (vm_mem v) data) /\ p_type (phdr v data i) = PT_LOAD.

(** The pages of segment [j]. *)
Definition on_segment (v : vmm) (data bias j a : Z) : Prop :=
  touches (phdr v data j) bias (seg_end (phdr v data j) bias) a.

(** The state after [i] headers. *)
Definition loaded_upto (root : Z) (v : vmm) (data size bias i : Z) (v1 : vmm) : Prop :=
  evolves root (fun a => forall j, j < i -> loads v data j -> ~ on_segment v data bias j a) v v1 /\
  forall j, j < i -> loads v data j ->
    let ph := phdr v data j in
    p_filesz ph <= p_memsz ph /\ p_offset ph + p_filesz ph <= size /\
    (segment_ok size (p_vaddr ph +64 bias) ph -> 0 < p_memsz ph ->
     forall va, seg_start ph bias <= va < seg_end ph bias -> va mod 4096 = 0 ->
       (forall k, j < k < i -> loads v data k -> ~ on_segment v data bias k va) ->
       page_loaded root v v1 data (p_vaddr ph +64 bias) ph va).

(** A good header keeps the header table inside the file. *)
Lemma header_table v data size i :
  bad_header (vm_mem v) data size = false -> let eh := ehdr_at (vm_mem v) data in
  0 <= i < e_phnum eh ->
  0 <= e_phoff eh + i * e_phentsize eh /\ e_phoff eh + i * e_phentsize eh + PHDR_SIZEOF <= size /\
  0 < size.
Proof.
  intros Hb eh Hi. unfold bad_header in Hb. cbv zeta in Hb. fold eh in Hb. bool_prop.
  assert (He : e_phentsize eh = PHDR_SIZEOF) by lia. rewrite He in *.
  assert (0 <= e_phoff eh) by apply ld64_bounds. unfold PHDR_SIZEOF, EHDR_SIZEOF in *.
  assert (e_phnum eh * 56 <= size - e_phoff eh) by div_lia. split_and!; lia.
Qed.

Lemma load_step v space data size bias i v1 :
  let root := space_pml4 space in
  image_ok root v data size -> bad_header (vm_mem v) data size = false ->
  0 <= i < e_phnum (ehdr_at (vm_mem v) data) ->
  loaded_upto root v data size bias i v1 ->
  let eh := ehdr_at (vm_mem v) data in
  let ph := phdr_at (vm_mem v1) (data + e_phoff eh + i * e_phentsize eh) in
  if negb (p_type ph =? PT_LOAD) then loaded_upto root v data size bias (i + 1) v1
  else exists v2 r, load_segment v1 space data size ph bias = Some (v2, r) /\
    evolves root (fun a => forall j, j < i + 1 -> loads v data j -> ~ on_segment v data bias j a) v v2 /\
    (r = -1 \/ r = 0 /\ loaded_upto root v data size bias (i + 1) v2).
Proof.
  intros root Him Hb Hi [He Hold] eh ph.
  assert (Eph : ph = phdr v data i).
  { apply phdr_at_ext. intros b Hbb. destruct (header_table v data size i Hb Hi) as (H1 & H2 & _).
    destruct Him as [_ Hown]. fold eh in Hbb.
    change (ehdr_at (vm_mem v) data) with eh in H1, H2.
    replace b with (data + (b - data)) by lia.
    apply (owned_evolves _ _ _ _ _ He), Hown. unfold PHDR_SIZEOF in *. lia. }
  rewrite Eph. destruct (p_type (phdr v data i) =? PT_LOAD) eqn:Et; bool_prop; simpl.
  2: { assert (Hnl : ~ loads v data i) by (intros [_ ?]; done). split.
       - apply (evolves_weaken _ _ _ _ _ He). intros a Hk j Hj. apply Hk. lia.
       - intros j Hj Hl. assert (j <> i) by (intros ->; done).
         destruct (Hold j ltac:(lia) Hl) as (H1 & H2 & H3). split; [done|]. split; [done|].
         intros Hs Hm va Hva Hvm Hk. apply H3; try done. intros k Hkk. apply Hk. lia. }
  destruct (load_segment_spec v1 space data size (phdr v data i) bias (evolves_wf _ _ _ _ He)
    (phdr_at_ok _ _)) as (v2 & r & El & E2 & Hr). fold root in E2, Hr.
  exists v2, r. split; [exact El|].
  assert (E12 : evolves root (fun a => forall j, j < i + 1 -> loads v data j ->
    ~ on_segment v data bias j a) v v2).
  { eapply evolves_trans.
    - apply (evolves_weaken _ _ _ _ _ He). intros a Hk j Hj. apply Hk. lia.
    - apply (evolves_weaken _ _ _ _ _ E2). intros a Hk. apply (Hk i); [lia|by split]. }
  split; [done|]. destruct Hr as [->|(-> & Hf & Ho & Hl)]; [by left|right]. split; [done|].
  split; [done|]. intros j Hj Hlj. cbv zeta. destruct (decide (j = i)) as [->|Hne].
  - split; [done|]. split; [done|]. intros Hs Hm va Hva Hvm _.
    eapply page_loaded_from; [exact He|exact Him|done|].
    apply Hl; try done. by eapply image_ok_evolves.
  - destruct (Hold j ltac:(lia) Hlj) as (H1 & H2 & H3). split; [done|]. split; [done|].
    intros Hs Hm va Hva Hvm Hk. apply (page_loaded_evolves _ _ _ _ _ _ _ _ _ E2).
    + apply (Hk i); [lia|by split].
    + apply H3; try done. intros k Hkk. apply Hk. lia.
Qed.

Lemma e_phnum_nonneg m a : 0 <= e_phnum (ehdr_at m a).
Proof. apply (ldn_bounds 2 m (a + 56)). Qed.

(** [None] of [elf_load] would be a segment loop that does not end. *)
Lemma elf_load_cases v space data size bias (G : option (vmm * option Z) -> Prop) :
  let root := space_pml4 space in
  vmm_wf root v -> image_ok root v data size -> 
  (forall v', evolves root (fun a => forall j, loads v data j -> ~ on_segment v data bias j a) v v' ->
     G (Some (v', None))) ->
  (forall v', bad_header (vm_mem v) data size = false ->
     entry_is_executable (vm_mem v) (ehdr_at (vm_mem v) data) data = true ->
     u64 (e_entry (ehdr_at (vm_mem v) data) + bias) >= e_entry (ehdr_at (vm_mem v) data) ->
     loaded_upto root v data size bias (e_phnum (ehdr_at (vm_mem v) data)) v' ->
     G (Some (v', Some (u64 (e_entry (ehdr_at (vm_mem v) data) + bias))))) ->
  G (elf_load v space data size bias).
Proof.
  intros root Hw Him HN HS. unfold elf_load.
  destruct (bad_header (vm_mem v) data size) eqn:Hb; [apply HN; by apply evolves_refl|].
  destruct (entry_is_executable _ _ _) eqn:Hx; cbn [negb]; [|apply HN; by apply evolves_refl].
  set (eh := ehdr_at (vm_mem v) data) in *.
  apply (for_range_cases 0 (e_phnum eh) _ v (fun i v1 => loaded_upto root v data size bias i v1)
    (fun o => G (match o with
      | inl v1 => if e_entry eh +64 bias <? e_entry eh then Some (v1, None)
                  else Some (v1, Some (e_entry eh +64 bias))
      | inr r => r
      end))); [apply e_phnum_nonneg| | |].
  - split; [apply evolves_refl; done|]. intros j Hj [[? _] _]. lia.
  - intros i v1 Hi Hl. pose proof (load_step v space data size bias i v1 Him Hb Hi Hl) as Hst.
    cbv zeta in Hst |- *. fold root eh in Hst.
    destruct (negb _); [exact Hst|].
    destruct Hst as (v2 & r & -> & He & [->|[-> Hl2]]); simpl; [|exact Hl2].
    apply HN. apply (evolves_weaken _ _ _ _ _ He). intros a Hk j _. apply Hk.
  - intros v1 Hl. split_if.
    + apply HN. apply (evolves_weaken _ _ _ _ _ (proj1 Hl)). intros a Hk j _. apply Hk.
    + apply HS; try done. lia.
Qed.

(** What user code finds at [a] when segment [j] is the last one on its page. *)
Definition byte_loaded (root : Z) (v v' : vmm) (data bias a : Z) (ph : elf64_phdr_t) : Prop :=
  exists phys w, walk (vm_mem v') root a = Some (phys, w, true) /\
    ld8 (vm_mem v') phys = segment_byte (vm_mem v) data (p_vaddr ph + bias) ph a.

Lemma page_loaded_byte root v0 v data seg ph va a :
  space_wf (vm_pmm v) (vm_mem v) root ->
  page_loaded root v0 v data seg ph va -> 0 <= va -> va mod 4096 = 0 -> va <= a < va + 4096 ->
  exists phys w, walk (vm_mem v) root a = Some (phys, w, true) /\
    ld8 (vm_mem v) phys = segment_byte (vm_mem v0) data seg ph a.
Proof.
  intros Hw (f & Ho & Hup & Hb) H0 Hm Ha.
  assert (Hs : same_page va a).
  { apply same_page_number; [lia|lia|]. f_equal. div_lia. }
  apply (user_page_same _ _ _ a) in Hup; [|done].
  destruct (user_page_walk _ _ _ _ _ _ Hw Hup) as [w Hwalk]. exists (f + a mod 4096), w.
  assert (Hattr : has (map_attrs (segment_flags ph)) PAGE_USER = true).
  { unfold map_attrs, segment_flags. rewrite has_land by done. by destruct (has _ PF_W). }
  rewrite Hattr in Hwalk. split; [done|].
  replace (a mod 4096) with (a - va) by div_lia. rewrite Hb by lia. f_equal. lia.
Qed.

(** [elf_load] ends on every file, whatever its headers say: every page it
    maps costs one frame, so the page loop stops at the last one.  The page tables
    stay well formed. *)
Theorem elf_load_terminates v space data size load_bias :
  vmm_wf (space_pml4 space) v -> image_ok (space_pml4 space) v data size ->
  exists v' entry, elf_load v space data size load_bias = Some (v', entry) /\
    vmm_wf (space_pml4 space) v'.
Proof.
  intros Hw Him. apply (elf_load_cases v space data size load_bias
    (fun o => exists v' entry, o = Some (v', entry) /\ vmm_wf (space_pml4 space) v') Hw Him).
  - intros v' He. exists v', None. split; [done|]. by eapply evolves_wf.
  - intros v' _ _ _ [He _]. eexists v', _. split; [done|]. by eapply evolves_wf.
Qed.

(** What [elf_load] promises: an answer; the pages of the loadable segments and no
    others changed; and on success the program in place. *)
Definition elf_load_outcome (root : Z) (v : vmm) (data load_bias : Z)
    (o : option (vmm * option Z)) : Prop :=
  exists v' entry, o = Some (v', entry) /\
    evolves root (fun a => forall j, loads v data j -> ~ on_segment v data load_bias j a) v v' /\
    forall e, entry = Some e ->
      e = e_entry (ehdr_at (vm_mem v) data) + load_bias /\
      forall j, loads v data j -> let ph := phdr v data j in
        p_vaddr ph + load_bias + p_memsz ph + 4095 < 18446744073709551616 ->
        forall a, p_vaddr ph + load_bias <= a < p_vaddr ph + load_bias + p_memsz ph ->
          (forall k, j < k -> loads v data k -> ~ on_segment v data load_bias k (a / 4096 * 4096)) ->
          byte_loaded root v v' data load_bias a ph.

(** C15: loading a program changes no page but those of its loadable segments, and
    no memory in use outside the tables.  When it succeeds, the entry point is the
    header's plus the bias, and user code finds the file's byte, or zero past the file's
    part, at every address of a loadable segment that ends at least a page below 2^64
    (where its last page can be counted), on a page that no later segment maps again
    (for the loader gives such a page a new frame, and what it held is lost). *)
Theorem elf_load_correct v space data size load_bias :
  let root := space_pml4 space in
  vmm_wf root v -> image_ok root v data size -> 0 <= load_bias < 18446744073709551616 ->
  elf_load_outcome root v data load_bias (elf_load v space data size load_bias).
Proof.
  intros root Hw Him Hbias.
  apply (elf_load_cases v space data size load_bias (elf_load_outcome root v data load_bias) Hw Him).
  - intros v' He. exists v', None. split; [done|]. by split.
  - intros v' Hb Hx Hent [He Hl]. eexists v', _. split; [done|]. split.
    { apply (evolves_weaken _ _ _ _ _ He). intros a Hk j _. apply Hk. }
    intros e [= <-]. split.
    { pose proof (ld64_bounds (vm_mem v) (data + 24)) as Hbe.
      change (e_entry (ehdr_at (vm_mem v) data)) with (ld64 (vm_mem v) (data + 24)) in *.
      clear - Hent Hbe Hbias. unfold u64 in *. div_lia. }
    intros j Hj ph Hfit a Ha Hlast. destruct (Hl j (proj2 (proj1 Hj)) Hj) as (H1 & H2 & H3).
    fold ph in H1, H2, H3. destruct (phdr_at_ok (vm_mem v) (data + e_phoff (ehdr_at (vm_mem v) data) +
      j * e_phentsize (ehdr_at (vm_mem v) data))) as (P1 & P2 & P3 & P4).
    change (phdr_at _ _) with ph in P1, P2, P3, P4.
    assert (Hseg : p_vaddr ph +64 load_bias = p_vaddr ph + load_bias) by (apply u64_small; lia).
    rewrite Hseg in H3. destruct (header_table v data size j Hb (proj1 Hj)) as (_ & _ & Hsize).
    assert (Hs : seg_start ph load_bias <= a / 4096 * 4096 < seg_end ph load_bias).
    { unfold seg_start, seg_end. rewrite Hseg, (u64_small (_ + p_memsz ph)) by lia.
      unfold PAGE_SIZE_4K. rewrite u64_small by lia. rewrite !page_down_eq by lia. div_lia. }
    apply (page_loaded_byte root v v' data _ ph (a / 4096 * 4096)).
    + apply He.
    + destruct Him as [Hdm Hown]. destruct (Hown 0 ltac:(lia)) as [Hd0 _].
      apply H3; [split_and!; try done; lia|lia|done|apply Z.mod_mul; lia|].
      intros k Hk Hlk. apply Hlast; [lia|done].
    + div_lia.
    + apply Z.mod_mul. lia.
    + div_lia.
Qed.

(** ** The built-in program *)

Definition tiny_elf_binary : list Z :=
  [127; 69; 76; 70; 2; 1; 1; 0; 0; 0; 0; 0; 0; 0; 0; 0;
   2; 0; 62; 0; 1; 0; 0; 0; 120; 0; 0; 0; 128; 0; 0; 0;
   64; 0; 0; 0; 0; 0; 0; 0; 0; 0; 0; 0; 0; 0; 0; 0;
   0; 0; 0; 0; 64; 0; 56; 0; 1; 0; 0; 0; 0; 0; 0; 0;
   1; 0; 0; 0; 5; 0; 0; 0; 0; 0; 0; 0; 0; 0; 0; 0;
   0; 0; 0; 0; 128; 0; 0; 0; 0; 0; 0; 0; 128; 0; 0; 0;
   220; 0; 0; 0; 0; 0; 0; 0; 220; 0; 0; 0; 0; 0; 0; 0;
   0; 16; 0; 0; 0; 0; 0; 0; 72; 184; 3; 0; 0; 0; 0; 0;
   0; 0; 72; 191; 1; 0; 0; 0; 0; 0; 0; 0; 72; 190; 176; 0;
   0; 0; 128; 0; 0; 0; 72; 186; 44; 0; 0; 0; 0; 0; 0; 0;
   205; 128; 72; 184; 2; 0; 0; 0; 0; 0; 0; 0; 205; 128; 235; 254;
   104; 101; 108; 108; 111; 32; 102; 114; 111; 109; 32; 97; 32; 114; 101; 97;
   108; 32; 101; 108; 102; 32; 115; 121; 115; 99; 97; 108; 108; 32; 118; 105;
   97; 32; 115; 121; 115; 95; 119; 114; 105; 116; 101; 10].
Definition tiny_elf_binary_size : Z := zlen tiny_elf_binary.

(** It lies in a reserved frame, next to an empty top-level table. *)
Definition demo_data : Z := 81924096.
Definition demo_elf_mem : mem := copy_in ∅ demo_data tiny_elf_binary tiny_elf_binary_size.
Definition demo_elf_vmm : vmm := mk_vmm demo_pmm demo_elf_mem demo_root demo_root.

Lemma demo_elf_vmm_wf : vmm_wf demo_root demo_elf_vmm.
Proof.
  apply demo_wf_mem. eapply only_differ_weaken; [apply copy_in_only_differ|vm_compute; congruence|vm_compute; congruence].
Qed.

Lemma demo_elf_descend r t :
  path_ok r -> descend demo_elf_mem demo_root r = Some t -> r = [] /\ t = demo_root.
Proof.
  apply demo_descend_mem.
  eapply only_differ_weaken; [apply copy_in_only_differ|vm_compute; congruence|vm_compute; congruence].
Qed.

Lemma demo_image_ok : image_ok demo_root demo_elf_vmm demo_data tiny_elf_binary_size.
Proof.
  change tiny_elf_binary_size with 220. unfold demo_data. split; [lia|]. intros i Hi.
  assert (Ef : frame_of (81924096 + i) = 20001) by (unfold frame_of, PMM_FRAME_SIZE; div_lia).
  split; [lia|]. rewrite Ef. split.
  - apply demo_frame_used. lia.
  - intros r t Hr [_ ->]%demo_elf_descend; done.
Qed.

Lemma elf_load_terminates_witness :
  vmm_wf demo_root demo_elf_vmm /\
  exists v' entry, elf_load demo_elf_vmm demo_root demo_data tiny_elf_binary_size 549768396800
    = Some (v', entry) /\ vmm_wf demo_root v'.
Proof.
  exact (conj demo_elf_vmm_wf (elf_load_terminates demo_elf_vmm demo_root demo_data
    tiny_elf_binary_size 549768396800 demo_elf_vmm_wf demo_image_ok)).
Defined.

Lemma elf_load_correct_witness :
  image_ok demo_root demo_elf_vmm demo_data tiny_elf_binary_size /\
  elf_load_outcome demo_root demo_elf_vmm demo_data 549768396800
    (elf_load demo_elf_vmm demo_root demo_data tiny_elf_binary_size 549768396800).
Proof.
  assert (Hb : 0 <= 549768396800 < 18446744073709551616) by lia.
  exact (conj demo_image_ok (elf_load_correct demo_elf_vmm demo_root demo_data
    tiny_elf_binary_size 549768396800 demo_elf_vmm_wf demo_image_ok Hb)).
Defined.
