(* ===== verification/VmmStack.v ===== *)
(** Growable user stacks, [kernel/mm/vmm_growable_stack.c]: a list of regions in
    heap blocks, and the page-fault handler that maps a stack page on first touch. *)
From S2P Require Import Prelude Mem Pmm Heap Vmm VmmSpec VmmFrame.

(** [sizeof(stack_region_t)]; the fields lie at 0, 8, 16 and 24. *)
Definition REGION_SIZEOF : Z := 32.
Definition region_space (m : mem) (r : Z) : Z := ld64 m r.
Definition region_top (m : mem) (r : Z) : Z := ld64 m (r + 8).
Definition region_limit (m : mem) (r : Z) : Z := ld64 m (r + 16).
Definition region_next (m : mem) (r : Z) : Z := ld64 m (r + 24).

(** The kernel's memory: the page tables with the one frame allocator and the one
    physical memory, the head of the heap's block list, and the list of stacks. *)
Record machine := mk_machine {
  mc_vmm : vmm;
  mc_heap_head : Z;
  stack_regions : Z;
}.

(** * The model *)

Section model.
Implicit Types (mc : machine) (space : Z).

Definition mc_mem mc : mem := vm_mem (mc_vmm mc).
Definition set_vmm mc (v : vmm) : machine := mk_machine v (mc_heap_head mc) (stack_regions mc).
Definition set_mem mc (m : mem) : machine := set_vmm mc (with_mem (mc_vmm mc) m).
Definition set_regions mc (r : Z) : machine := mk_machine (mc_vmm mc) (mc_heap_head mc) r.

(** [kmalloc] and [kfree] on this memory. *)
Definition mc_malloc mc (size : Z) : option (machine * Z) :=
  '(h, m, p) ← kmalloc (mk_heap (mc_heap_head mc) (vm_pmm (mc_vmm mc))) (mc_mem mc) size;
  Some (mk_machine (with_mem (with_pmm (mc_vmm mc) (heap_pmm h)) m) (heap_head h)
          (stack_regions mc), p).

Definition mc_free mc (p : Z) : option machine :=
  m ← kfree (mk_heap (mc_heap_head mc) (vm_pmm (mc_vmm mc))) (mc_mem mc) p;
  Some (set_mem mc m).

Definition vmm_register_growable_stack mc space (stack_top max_size : Z) : option machine :=
  '(mc, region) ← mc_malloc mc REGION_SIZEOF;
  if region =? 0 then Some mc
  else
    let m := st64 (mc_mem mc) region space in
    let m := st64 m (region + 8) stack_top in
    let m := st64 m (region + 16) (stack_top -64 max_size) in
    let m := st64 m (region + 24) (stack_regions mc) in
    Some (set_regions (set_mem mc m) region).

(** A region costs a heap block, so a list is no longer than the heap. *)
Definition REGION_FUEL : positive := 4294967296.

(** [link] is the address of a [next] field, or 0 for [stack_regions] itself. *)
Definition read_link mc (link : Z) : Z :=
  if link =? 0 then stack_regions mc else ld64 (mc_mem mc) link.
Definition write_link mc (link v : Z) : machine :=
  if link =? 0 then set_regions mc v else set_mem mc (st64 (mc_mem mc) link v).

Definition vmm_unregister_growable_stack mc space : option machine :=
  found ← while_pos REGION_FUEL (fun link =>
    let r := read_link mc link in
    if negb (r =? 0) then
      if region_space (mc_mem mc) r =? space then inr (Some (link, r)) else inl (r + 24)
    else inr None) 0;
  match found with
  | None => Some mc
  | Some (link, dead) => mc_free (write_link mc link (region_next (mc_mem mc) dead)) dead
  end.

(** The region, or 0. *)
Definition find_region mc space (page : Z) : option Z :=
  let m := mc_mem mc in
  while_pos REGION_FUEL (fun region =>
    if negb (region =? 0) then
      if negb (region_space m region =? space) then inl (region_next m region)
      else if (page <? region_limit m region) || (page >=? region_top m region)
      then inl (region_next m region)
      else inr region
    else inr 0) (stack_regions mc).

Definition vmm_handle_page_fault mc (fault_addr : Z) : option (machine * Z) :=
  let space := vmm_current_address_space (mc_vmm mc) in
  let page := Z.land fault_addr (U64_MAX -64 (4096 - 1)) in
  region ← find_region mc space page;
  if region =? 0 then Some (mc, 0)
  else if vmm_is_mapped_in (mc_vmm mc) space page then Some (mc, 0)
  else
    let '(p, m, frame) := pmm_alloc_zeroed_frame (vm_pmm (mc_vmm mc)) (mc_mem mc) in
    let v := with_mem (with_pmm (mc_vmm mc) p) m in
    if frame =? 0 then Some (set_vmm mc v, 0)
    else
      let (v, r) := vmm_map_page_in v space page frame (Z.lor VMM_WRITABLE VMM_USER) in
      if negb (r =? 0) then Some (set_vmm mc (with_pmm v (pmm_free_frame (vm_pmm v) frame)), 0)
      else Some (set_vmm mc v, 1).
End model.

(** * The list of stacks *)

(** The region blocks from [r] on, in list order. *)
Fixpoint regions_at (m : mem) (r : Z) (rs : list Z) : Prop :=
  match rs with
  | [] => r = 0
  | a :: rs => r = a /\ a <> 0 /\ regions_at m (region_next m a) rs
  end.

(** Block [a] is a stack of [space] that may have the page. *)
Definition covers (m : mem) (space page a : Z) : bool :=
  (region_space m a =? space) && (region_limit m a <=? page) && (page <? region_top m a).

(** The search finds the first region of the list that covers the page. *)
Lemma find_region_spec mc space page rs :
  regions_at (mc_mem mc) (stack_regions mc) rs -> zlen rs < 4294967296 ->
  exists r, find_region mc space page = Some r /\
    ((r = 0 /\ Forall (fun a => covers (mc_mem mc) space page a = false) rs) \/
     (r <> 0 /\ r ∈ rs /\ covers (mc_mem mc) space page r = true)).
Proof.
  intros Hrs Hlen. unfold find_region. set (m := mc_mem mc) in *.
  set (P := fun (n : Z) r => exists done todo, rs = done ++ todo /\ n = zlen todo /\
    regions_at m r todo /\ Forall (fun a => covers m space page a = false) done).
  while_pos_inv (zlen rs) P (fun r => (r = 0 /\ Forall (fun a => covers m space page a = false) rs) \/
     (r <> 0 /\ r ∈ rs /\ covers m space page r = true)).
  - exists [], rs. by split_and!.
  - unfold zlen in *. unfold REGION_FUEL. lia.
  - intros n r _ (dn & [|a todo] & -> & -> & Hr & Hd); simpl in Hr.
    + subst r. simpl. left. split; [done|]. by rewrite app_nil_r.
    + destruct Hr as (-> & Ha & Hr). replace (a =? 0) with false by lia. cbn [negb].
      assert (Hnext : covers m space page a = false ->
        exists n', 0 <= n' < zlen (a :: todo) /\ P n' (region_next m a)).
      { intros Hc. exists (zlen todo). unfold zlen. simpl. split; [lia|].
        exists (dn ++ [a]), todo. rewrite <- app_assoc. split_and!; try done.
        by apply Forall_app_2; [|apply Forall_cons; [|apply Forall_nil]]. }
      unfold covers in Hnext at 1. destruct (region_space m a =? space) eqn:Es; simpl in Hnext |- *.
      2: { by apply Hnext. }
      destruct ((page <? region_limit m a) || (page >=? region_top m a)) eqn:Eb.
      * apply Hnext. apply andb_false_iff. apply orb_prop in Eb as [?|?]; bool_prop; [left|right]; lia.
      * bool_prop. right. split; [done|]. split; [set_solver|]. unfold covers.
        rewrite (proj2 (Z.eqb_eq _ _)), (proj2 (Z.leb_le _ _)), (proj2 (Z.ltb_lt _ _)) by lia. done.
  - destruct Hloop as (r & -> & Hr). by exists r.
Qed.

Lemma fault_page (a : Z) :
  0 <= a < 18446744073709551616 -> Z.land a (U64_MAX -64 (4096 - 1)) = a / 4096 * 4096.
Proof. apply page_mask_eq. Qed.

(** What the handler may answer for a fault at [a]. *)
Definition fault_outcome (mc : machine) (a : Z) (rs : list Z) (mc' : machine) (r : Z) : Prop :=
  let v := mc_vmm mc in
  let space := vmm_current_address_space v in
  let root := space_pml4 space in
  let page := a / 4096 * 4096 in
  evolves root (fun b => r = 1 -> ~ same_page page b) v (mc_vmm mc') /\
  stack_regions mc' = stack_regions mc /\
  ((r = 1 /\ (exists s, s ∈ rs /\ covers (mc_mem mc) space page s = true) /\
    walk (mc_mem mc) root page = None /\
    exists f w, own_frame root v (mc_vmm mc') f /\
      walk (mc_mem mc') root a = Some (f + a mod 4096, w, true) /\
      forall o, 0 <= o < 4096 -> ld8 (mc_mem mc') (f + o) = 0) \/
   (r = 0 /\ (Forall (fun s => covers (mc_mem mc) space page s = false) rs \/
              is_Some (walk (mc_mem mc) root page) \/
              free_frames (vm_pmm (mc_vmm mc')) <= 1))).

(** C16: a page fault is handled exactly when it hits an unmapped page of a stack of
    the running space and memory lasts: then the page is backed by a zeroed frame of
    its own that user code can reach, and nothing else changes; otherwise the handler
    declines and no translation has changed. *)
Theorem vmm_handle_page_fault_correct mc fault_addr rs :
  vmm_wf (space_pml4 (vmm_current_address_space (mc_vmm mc))) (mc_vmm mc) ->
  regions_at (mc_mem mc) (stack_regions mc) rs -> zlen rs < 4294967296 ->
  0 <= fault_addr < 18446744073709551616 ->
  exists mc' r, vmm_handle_page_fault mc fault_addr = Some (mc', r) /\
    fault_outcome mc fault_addr rs mc' r.
Proof.
  intros Hw Hrs Hlen Ha. unfold vmm_handle_page_fault, fault_outcome. rewrite fault_page by done.
  set (v := mc_vmm mc) in *. set (space := vmm_current_address_space v) in *.
  set (root := space_pml4 space) in *. set (page := fault_addr / 4096 * 4096).
  destruct (find_region_spec mc space page rs Hrs Hlen) as (reg & -> & [[-> Hall]|(Hr0 & Hin & Hcov)]).
  { simpl. exists mc, 0. split; [done|]. split; [by apply evolves_refl|]. split; [done|]. auto. }
  simpl. replace (reg =? 0) with false by lia.
  pose proof (is_mapped_walk v space page (proj1 Hw)) as Hmap. fold root in Hmap.
  destruct (vmm_is_mapped_in v space page).
  { symmetry in Hmap. apply bool_decide_eq_true in Hmap.
    exists mc, 0. split; [done|]. split; [by apply evolves_refl|]. split; [done|]. auto. }
  symmetry in Hmap. apply bool_decide_eq_false in Hmap. apply eq_None_not_Some in Hmap.
  change (mc_mem mc) with (vm_mem v).
  pose proof (zeroed_frame_spec root v Hw) as Hz.
  destruct (pmm_alloc_zeroed_frame (vm_pmm v) (vm_mem v)) as [[p m] f].
  destruct Hz as [E1 [(-> & Ev & Hno)|(Hf0 & Ho & Hz)]].
  { simpl. exists (set_vmm mc v), 0. rewrite Ev. split; [done|]. split; [by apply evolves_refl|].
    split; [done|]. right. split; [done|]. right. right. simpl. fold v.
    destruct Hw as (_ & [Hc _] & _). rewrite Hc. unfold free_count.
    rewrite count_if_none; [lia|]. intros k Hk. by rewrite Hno. }
  replace (f =? 0) with false by lia. set (v1 := with_mem (with_pmm v p) m) in *.
  pose proof (map_page_spec v1 space page f (Z.lor VMM_WRITABLE VMM_USER) (evolves_wf _ _ _ _ E1)) as Hm.
  cbv zeta in Hm. fold root in Hm.
  destruct (vmm_map_page_in v1 space page f (Z.lor VMM_WRITABLE VMM_USER)) as [v2 r].
  destruct Hm as [E2 Hr].
  assert (E12 : evolves root (fun b => r = 0 -> ~ same_page page b) v v2).
  { eapply evolves_trans; [by apply (evolves_weaken _ _ _ _ _ E1)|done]. }
  pose proof (own_frame_evolves _ _ _ _ _ _ E2 Ho) as Ho2.
  destruct Hr as [[-> Hno]|[-> Hup]]; simpl.
  - destruct (own_frame_free _ _ _ _ _ E12 Ho2) as [E3 Hff]. eexists _, 0. split; [done|]. simpl.
    split; [apply (evolves_weaken _ _ _ _ _ E3); lia|]. split; [done|].
    right. split; [done|]. right. right. rewrite Hff.
    destruct (ev_pmm _ _ _ _ E12) as [[Hc _] _]. rewrite Hc. unfold free_count.
    rewrite count_if_none; [lia|]. intros k Hk. by rewrite Hno.
  - eexists _, 1. split; [done|]. simpl. split; [apply (evolves_weaken _ _ _ _ _ E12); auto|].
    split; [done|]. left. split; [done|]. split; [by exists reg|]. split; [done|].
    replace (table_addr f) with f in Hup
      by (symmetry; destruct Ho as [[? Hfb] _]; unfold PMM_MAX_MEMORY in Hfb; apply table_addr_page; lia).
    assert (Hsp : same_page page fault_addr) by (apply same_page_offset; unfold page; div_lia).
    apply (user_page_same _ _ _ fault_addr) in Hup; [|done].
    destruct (user_page_walk _ _ _ _ _ _ (ev_space _ _ _ _ E2) Hup) as [w Hwalk].
    exists f, w. split; [done|]. split; [exact Hwalk|]. intros o Hoo. destruct Ho as (_ & _ & Ho).
    rewrite <- (Hz o Hoo). apply (owned_evolves _ _ _ _ _ E2), Ho, Hoo.
Qed.

(** ** One stack of 1 MiB in the empty space of [VmmSpec] *)

Definition demo_region : Z := 81924096.
Definition demo_stack_mem : mem :=
  st64 (st64 (st64 (st64 ∅ demo_region demo_root) (demo_region + 8) 549755813888)
    (demo_region + 16) 549754765312) (demo_region + 24) 0.
Definition demo_machine : machine :=
  mk_machine (mk_vmm demo_pmm demo_stack_mem demo_root demo_root) 0 demo_region.

Lemma demo_machine_wf : vmm_wf demo_root (mc_vmm demo_machine).
Proof.
  assert (Hd : only_differ ∅ demo_stack_mem 81924096 4096).
  { unfold demo_stack_mem, demo_region.
    repeat (eapply only_differ_trans; [|eapply only_differ_weaken; [apply st64_only_differ|lia|lia]]).
    apply only_differ_refl. }
  exact (demo_wf_mem demo_stack_mem Hd).
Qed.

Lemma vmm_handle_page_fault_correct_witness :
  exists mc' r, vmm_handle_page_fault demo_machine 549755813000 = Some (mc', r) /\
    fault_outcome demo_machine 549755813000 [demo_region] mc' r.
Proof.
  assert (Hrs : regions_at (mc_mem demo_machine) demo_region [demo_region]).
  { split; [reflexivity|]. split; [discriminate|]. vm_compute. reflexivity. }
  assert (Hl : zlen [demo_region] < 4294967296) by reflexivity.
  assert (Ha : 0 <= 549755813000 < 18446744073709551616) by lia.
  exact (vmm_handle_page_fault_correct demo_machine 549755813000 [demo_region]
    demo_machine_wf Hrs Hl Ha).
Defined.
