(* ===== verification/VmmSpace.v ===== *)
(** The life of an address space, [kernel/mm/vmm.c]: a new space translates as the
    kernel does, the pages a program is given change nothing outside it, and its
    destruction gives back exactly the frames it took. *)
From S2P Require Import Prelude Mem Pmm Heap Vmm VmmSpec VmmFrame Elf VmmStack.

(** * What a mapping touches *)

(** [i] is the index that the walk for [va] takes in the table at [r]. *)
Definition on_walk (va : Z) (r : list Z) (i : Z) : Prop :=
  (r, i) = ([], pml4_index va) \/ (r, i) = ([pml4_index va], pdpt_index va) \/
  (r, i) = (pd_path va, pd_index va) \/ (r, i) = (pt_path va, pt_index va).

(** The tables below the root on the walk for [va]. *)
Definition on_path (va : Z) (r : list Z) : Prop :=
  r = [pml4_index va] \/ r = pd_path va \/ r = pt_path va.

(** Memory in use changes only in the entries of the walk, and the frames taken are
    the tables of the walk. *)
Record localized (root va : Z) (v v' : vmm) : Prop := {
  lo_bytes a : 0 <= a -> is_used (vm_pmm v) (frame_of a) = true ->
    (forall r i t, on_walk va r i -> descend (vm_mem v') root r = Some t ->
       ~ (t + 8 * i <= a < t + 8 * i + 8)) ->
    ld8 (vm_mem v') a = ld8 (vm_mem v) a;
  lo_used g : 0 <= g -> is_used (vm_pmm v') g = true ->
    is_used (vm_pmm v) g = true \/
    exists r t, on_path va r /\ descend (vm_mem v') root r = Some t /\ frame_of t = g;
}.

Lemma on_walk_ok va r i : on_walk va r i -> path_ok r.
Proof. intros [[= -> ->]|[[= -> ->]|[[= -> ->]|[= -> ->]]]]; auto with vmm. Qed.

Lemma on_path_ok va r : on_path va r -> path_ok r.
Proof. intros [->|[->| ->]]; auto with vmm. Qed.

Lemma localized_refl root va v : localized root va v v.
Proof. split; [done|]. intros g _ Hg. by left. Qed.

Lemma localized_trans root keep va v1 v2 v3 :
  evolves root keep v1 v2 -> evolves root keep v2 v3 ->
  localized root va v1 v2 -> localized root va v2 v3 -> localized root va v1 v3.
Proof.
  intros H12 H23 [B12 U12] [B23 U23]. split.
  - intros a Ha Hu Hn. rewrite B23; [apply B12; try done| |..|exact Hn].
    + intros r i t Hw Hd. apply (Hn r i t Hw).
      apply (ev_path _ _ _ _ H23); [by eapply on_walk_ok|done].
    + done.
    + apply (ev_used _ _ _ _ H12); [by apply frame_of_nonneg|done].
  - intros g Hg Hu. destruct (U23 g Hg Hu) as [Hu2|]; [|by right].
    destruct (U12 g Hg Hu2) as [|(r & t & Hp & Hd & E)]; [by left|right].
    exists r, t. split; [done|]. split; [|done].
    apply (ev_path _ _ _ _ H23); [by eapply on_path_ok|done].
Qed.

(** A store into an entry of the walk, after writing to a frame that was free. *)
Lemma localized_store root va v p' (m1 : mem) (r : list Z) (t i e f : Z) :
  let v' := with_mem (with_pmm v p') (set_entry m1 t i e) in
  on_walk va r i -> descend (vm_mem v') root r = Some t ->
  (p' = vm_pmm v /\ m1 = vm_mem v \/
   on_path va (r ++ [i]) /\ descend (vm_mem v') root (r ++ [i]) = Some f /\ aligned f /\
   is_used (vm_pmm v) (frame_of f) = false /\ only_differ (vm_mem v) m1 f 4096 /\
   forall g, 0 <= g -> is_used p' g = (frame_of f =? g) || is_used (vm_pmm v) g) ->
  localized root va v v'.
Proof.
  intros v' Hw Hd Hc. split.
  - intros a Ha Hu Hn. transitivity (ld8 m1 a).
    + apply (st64_only_differ m1 (t + 8 * i) e). exact (Hn r i t Hw Hd).
    + destruct Hc as [[_ ->]|(_ & _ & [Hf _] & Hfree & Hm & _)]; [done|].
      apply Hm, frame_apart; [done|]. intros E. congruence.
  - intros g Hg Hu. destruct Hc as [[-> _]|(Hp & Hdf & _ & _ & _ & Hus)]; [by left|].
    cbn [v' vm_pmm with_mem with_pmm] in Hu. rewrite Hus in Hu by done.
    destruct (frame_of f =? g) eqn:E; [|by left]. right. exists (r ++ [i]), f. split_and!; [done|done|lia].
Qed.

Lemma localized_set root va v (r : list Z) (t i e : Z) :
  on_walk va r i -> descend (set_entry (vm_mem v) t i e) root r = Some t ->
  localized root va v (with_mem v (set_entry (vm_mem v) t i e)).
Proof.
  intros Hw Hd. pose proof (localized_store root va v (vm_pmm v) (vm_mem v) r t i e 0) as H.
  rewrite with_pmm_id in H. apply H; [done|done|by left].
Qed.

(** The address in a link to a new table once user code may follow it. *)
Lemma linked_entry (f : Z) :
  aligned f ->
  table_addr (u64 (Z.lor (u64 (Z.lor (Z.lor f PAGE_PRESENT) PAGE_WRITABLE)) PAGE_USER)) = f.
Proof.
  intros Hf. destruct (frame_link f (Z.lor PAGE_PRESENT PAGE_WRITABLE) Hf ltac:(done) eq_refl eq_refl) as [Hl _].
  rewrite Z.lor_assoc in Hl. set (e := u64 (Z.lor (Z.lor f PAGE_PRESENT) PAGE_WRITABLE)) in *.
  destruct (user_bit e (u64_bounds _)) as (-> & Hl2 & _). rewrite Hl in Hl2.
  unfold link in Hl2. destruct (has _ _ && _); [|done]. by injection Hl2.
Qed.

(** A new table [f] linked at [(q, i)], and the link opened to user code. *)
Lemma localized_link root va v p' (m1 : mem) (q : list Z) (t i f : Z) :
  let m2 := set_entry m1 t i (Z.lor (Z.lor f PAGE_PRESENT) PAGE_WRITABLE) in
  let m3 := set_entry m2 t i (Z.lor (entry m2 t i) PAGE_USER) in
  t mod 4096 = 0 -> index_ok i -> on_walk va q i -> on_path va (q ++ [i]) ->
  aligned f -> is_used (vm_pmm v) (frame_of f) = false -> only_differ (vm_mem v) m1 f 4096 ->
  (forall g, 0 <= g -> is_used p' g = (frame_of f =? g) || is_used (vm_pmm v) g) ->
  descend m3 root q = Some t -> descend m3 root (q ++ [i]) = Some (table_addr (entry m3 t i)) ->
  localized root va v (with_mem (with_pmm v p') m3).
Proof.
  intros m2 m3 Ht Hi Hwalk Hp Hf Hfree Hm1 Hus Hd Hdf.
  assert (Ef : forall m e, entry (set_entry m t i e) t i = u64 e).
  { intros m e. by rewrite entry_set, decide_True. }
  unfold m3 in Hdf at 2. rewrite Ef in Hdf. unfold m2 in Hdf at 1. rewrite Ef, linked_entry in Hdf by done.
  split.
  - intros a Ha Hu Hn. cbn [vm_mem with_mem]. pose proof (Hn q i t Hwalk Hd) as Hout.
    etransitivity; [exact (st64_only_differ _ _ _ a Hout)|].
    etransitivity; [exact (st64_only_differ _ _ _ a Hout)|].
    apply Hm1, frame_apart; [apply Hf|]. intros Efr. congruence.
  - intros g Hg Hu. cbn [vm_pmm with_mem with_pmm] in Hu. rewrite Hus in Hu by done.
    destruct (frame_of f =? g) eqn:Eg; [|by left]. right. exists (q ++ [i]), f.
    split; [done|]. split; [exact Hdf|lia].
Qed.

(** [get_or_create_table] on the walk. *)
Lemma get_or_create_table_local v root va (q : list Z) (t i : Z) :
  vmm_wf root v -> on_walk va q i -> on_path va (q ++ [i]) -> (length q <= 1)%nat ->
  descend (vm_mem v) root q = Some t ->
  let (v', _) := get_or_create_table v t i in localized root va v v'.
Proof.
  intros Hw Hwalk Hp Hlen Hd. pose proof (on_walk_ok _ _ _ Hwalk) as Hq.
  pose proof (get_or_create_table_spec v root q t i Hw (on_path_ok _ _ Hp) Hlen Hd) as Hs.
  assert (Ht : t mod 4096 = 0) by exact (table_aligned _ _ _ (proj1 Hw) q t Hq Hd).
  assert (Hi : index_ok i) by (by apply on_path_ok, path_ok_snoc in Hp as (_ & _ & ?)).
  revert Hs. unfold get_or_create_table.
  destruct (has (entry (vm_mem v) t i) PAGE_PRESENT) eqn:Hpres; cbn [negb].
  { intros [He _]. apply (localized_set root va v q); [done|]. by apply (ev_path _ _ _ _ He). }
  destruct (vmm_alloc_cases v root Hw) as [[-> Hno]|(p' & f & -> & Hf0 & Hf & Hfree & Hp' & Hus)].
  { intros _. simpl. rewrite with_pmm_id. apply localized_refl. }
  replace (f =? 0) with false by lia. cbn [vm_mem with_pmm with_mem].
  destruct (fill_table_spec (vm_mem v) f (fun _ => 0) (proj1 Hf)) as [Hm1 _].
  generalize dependent (fill_table (vm_mem v) f (fun _ => 0)). intros m1 Hm1 [He Hc].
  apply (localized_link root va v p' m1 q t i f); try assumption.
  - exact (ev_path _ _ _ _ He q t Hq Hd).
  - destruct Hc as [[H0 _]|(_ & Hdf & _)]; [|exact Hdf]. exfalso.
    rewrite entry_set, decide_True in H0 by done. rewrite entry_set, decide_True in H0 by done.
    rewrite linked_entry in H0 by done. lia.
Qed.

(** [get_or_split_pt] on the walk. *)
Lemma get_or_split_pt_local v root va pd :
  vmm_wf root v -> descend (vm_mem v) root (pd_path va) = Some pd ->
  let (v', _) := get_or_split_pt v pd (pd_index va) in localized root va v v'.
Proof.
  intros Hw Hd. pose proof (get_or_split_pt_spec v root va pd Hw Hd) as Hs.
  assert (Hfresh : forall g : Z -> Z,
    let out :=
      let (p, frame) := pmm_alloc_frame (vm_pmm v) in
      if frame =? 0 then (with_pmm v p, 0)
      else (with_mem (with_pmm v p)
              (set_entry (fill_table (vm_mem v) frame g) pd (pd_index va)
                 (Z.lor (Z.lor (Z.lor frame PAGE_PRESENT) PAGE_WRITABLE) PAGE_USER)), frame) in
    (let (v', pt) := out in
     evolves root (fun _ => True) v v' /\
     ((pt = 0 /\ no_frames v') \/ (pt <> 0 /\ descend (vm_mem v') root (pt_path va) = Some pt))) ->
    let (v', _) := out in localized root va v v').
  { intros g out. unfold out. clear out Hs.
    destruct (vmm_alloc_cases v root Hw) as [[-> Hno]|(p' & f & -> & Hf0 & Hf & Hfree & Hp' & Hus)].
    { intros _. simpl. rewrite with_pmm_id. apply localized_refl. }
    replace (f =? 0) with false by lia. cbn [vm_mem vm_pmm with_mem with_pmm]. intros [He [[? _]|[_ Hdf]]]; [done|].
    destruct (fill_table_spec (vm_mem v) f g (proj1 Hf)) as [Hm1 _].
    apply (localized_store root va v p' _ (pd_path va) pd (pd_index va) _ f).
    - right. right. by left.
    - apply (ev_path _ _ _ _ He); [apply pd_path_ok|done].
    - right. exact (conj (or_intror (or_intror eq_refl)) (conj Hdf (conj Hf (conj Hfree (conj Hm1 Hus))))). }
  unfold get_or_split_pt in *. destruct (has (entry (vm_mem v) pd (pd_index va)) PAGE_PRESENT).
  - destruct (has (entry (vm_mem v) pd (pd_index va)) PAGE_SIZE_2MB); [|apply localized_refl].
    by apply Hfresh.
  - by apply (Hfresh (fun _ => 0)).
Qed.

Lemma get_or_split_pt_entry_local v root va :
  vmm_wf root v ->
  let (v', _) := get_or_split_pt_entry v root va in localized root va v v'.
Proof.
  intros Hw. unfold get_or_split_pt_entry.
  assert (W1 : on_walk va [] (pml4_index va)) by by left.
  assert (W2 : on_walk va [pml4_index va] (pdpt_index va)) by (right; by left).
  assert (W3 : on_walk va (pd_path va) (pd_index va)) by (right; right; by left).
  pose proof (get_or_create_table_spec v root [] root (pml4_index va) Hw (pml4_path_ok va)
    ltac:(simpl; lia) eq_refl) as H1.
  pose proof (get_or_create_table_local v root va [] root (pml4_index va) Hw W1 ltac:(by left)
    ltac:(simpl; lia) eq_refl) as L1.
  destruct (get_or_create_table v root (pml4_index va)) as [v1 t1].
  destruct H1 as [E1 [[-> _]|(N1 & D1 & _)]]; [done|]. replace (t1 =? 0) with false by lia.
  pose proof (evolves_wf _ _ _ _ E1) as Hw1.
  pose proof (get_or_create_table_spec v1 root [pml4_index va] t1 (pdpt_index va) Hw1 (pd_path_ok va)
    ltac:(simpl; lia) D1) as H2.
  pose proof (get_or_create_table_local v1 root va [pml4_index va] t1 (pdpt_index va) Hw1 W2
    ltac:(right; by left) ltac:(simpl; lia) D1) as L2.
  destruct (get_or_create_table v1 t1 (pdpt_index va)) as [v2 t2]. destruct H2 as [E2 H2].
  pose proof (localized_trans _ _ _ _ _ _ E1 E2 L1 L2) as L12. pose proof (evolves_trans _ _ _ _ _ E1 E2) as E12.
  destruct H2 as [[-> _]|(N2 & D2 & _)]; [done|]. replace (t2 =? 0) with false by lia.
  pose proof (evolves_wf _ _ _ _ E2) as Hw2.
  pose proof (get_or_split_pt_spec v2 root va t2 Hw2 D2) as H3.
  pose proof (get_or_split_pt_local v2 root va t2 Hw2 D2) as L3.
  destruct (get_or_split_pt v2 t2 (pd_index va)) as [v3 t3]. destruct H3 as [E3 H3].
  pose proof (localized_trans _ _ _ _ _ _ E12 E3 L12 L3) as L13. pose proof (evolves_trans _ _ _ _ _ E12 E3) as E13.
  destruct H3 as [[-> _]|(N3 & D3)]; [done|]. replace (t3 =? 0) with false by lia.
  assert (Dp : descend (vm_mem v3) root (pd_path va) = Some t2).
  { apply (ev_path _ _ _ _ E3); [auto with vmm|done]. }
  assert (K3 : link (entry (vm_mem v3) t2 (pd_index va)) = Some t3).
  { change (pt_path va) with (pd_path va ++ [pd_index va]) in D3. rewrite descend_snoc, Dp in D3. done. }
  destruct (set_user_spec v3 root (pd_path va) t2 (pd_index va) t3 (evolves_wf _ _ _ _ E3)
    (pt_path_ok va) Dp K3) as (E4 & _).
  apply (localized_trans _ _ _ _ _ _ E13 E4 L13). apply (localized_set _ _ _ (pd_path va)); [done|].
  apply (ev_path _ _ _ _ E4 (pd_path va) t2); [auto with vmm|done].
Qed.

Lemma map_page_local v space virt_addr phys_addr flags :
  vmm_wf (space_pml4 space) v ->
  let (v', _) := vmm_map_page_in v space virt_addr phys_addr flags in
  localized (space_pml4 space) virt_addr v v'.
Proof.
  intros Hw. unfold vmm_map_page_in. set (root := space_pml4 space) in *.
  pose proof (get_or_split_pt_entry_spec v root virt_addr Hw) as Hs.
  pose proof (get_or_split_pt_entry_local v root virt_addr Hw) as L1.
  destruct (get_or_split_pt_entry v root virt_addr) as [v1 o].
  destruct Hs as [E1 [[-> Hno]|(pt & -> & Hd & Hu)]]; [done|].
  match goal with |- context [set_entry (vm_mem v1) pt _ ?e] =>
    destruct (store_pte_spec v1 root virt_addr pt e (evolves_wf _ _ _ _ E1) Hd Hu) as (E2 & Hd2 & _) end.
  eapply (localized_trans root (fun va => ~ same_page virt_addr va)); [by apply (evolves_weaken _ _ _ _ _ E1)|exact E2|done|].
  apply (localized_set _ _ _ (pt_path virt_addr)); [|done]. right. right. by right.
Qed.

(** * A new space *)

(** The copy of the kernel's top table. *)
Lemma copy_table_spec (m : mem) (f k : Z) :
  f mod 4096 = 0 -> k mod 4096 = 0 -> k <> f ->
  let m' := for_each 0 ENTRIES_PER_TABLE (fun i m => set_entry m f i (entry m k i)) m in
  only_differ m m' f 4096 /\ forall i, index_ok i -> entry m' f i = entry m k i.
Proof.
  intros Hf Hk Hne m'.
  assert (H : only_differ m m' f 4096 /\ forall i, index_ok i -> i < ENTRIES_PER_TABLE -> entry m' f i = entry m k i).
  { apply (for_each_inv 0 ENTRIES_PER_TABLE _ m (fun n m' => only_differ m m' f 4096 /\
      forall i, index_ok i -> i < n -> entry m' f i = entry m k i)).
    - unfold ENTRIES_PER_TABLE. lia.
    - split; [done|]. intros i [? _] ?. lia.
    - intros j m1 Hj [IH1 IH2].
      assert (Ej : entry m1 k j = entry m k j) by (by apply (entry_only_differ m m1 f)).
      split; [eapply only_differ_trans; [exact IH1|by apply set_entry_only_differ]|].
      intros i Hi Hij. rewrite entry_set by done. case_decide as E.
      + destruct E as [_ ->]. rewrite Ej. apply u64_small, entry_bounds.
      + apply IH2; [done|]. destruct (decide (i = j)); [|lia]. by destruct E. }
  destruct H as [H1 H2]. split; [exact H1|]. intros i Hi. apply H2; [done|apply Hi].
Qed.

(** Walks agree when the entries of the two roots and of the tables below do. *)
Lemma walk_ext (m m' : mem) (root root' va : Z) :
  entry m' root' (pml4_index va) = entry m root (pml4_index va) ->
  (forall r t i, r <> [] -> path_ok r -> descend m root r = Some t -> index_ok i -> entry m' t i = entry m t i) ->
  walk m' root' va = walk m root va.
Proof.
  intros He E. rewrite !mmu_walk_unfold. cbv zeta. rewrite He.
  set (l4 := entry m root (pml4_index va)). destruct (has l4 PAGE_PRESENT) eqn:P4; [|done].
  destruct (has l4 PAGE_SIZE_2MB) eqn:S4; [done|]. cbn [negb orb].
  assert (D4 : descend m root [pml4_index va] = Some (table_addr l4)).
  { cbn [descend]. fold l4. by rewrite link_some. }
  rewrite (E [pml4_index va] (table_addr l4)) by (done || auto with vmm).
  set (l3 := entry m (table_addr l4) (pdpt_index va)). destruct (has l3 PAGE_PRESENT) eqn:P3; [|done].
  destruct (has l3 PAGE_SIZE_2MB) eqn:S3; [done|]. cbn [negb].
  assert (D3 : descend m root (pd_path va) = Some (table_addr l3)).
  { change (pd_path va) with ([pml4_index va] ++ [pdpt_index va]). rewrite descend_snoc, D4.
    cbn [mbind option_bind]. by apply link_some. }
  rewrite (E (pd_path va) (table_addr l3)) by (done || auto with vmm).
  set (l2 := entry m (table_addr l3) (pd_index va)). destruct (has l2 PAGE_PRESENT) eqn:P2; [|done].
  destruct (has l2 PAGE_SIZE_2MB) eqn:S2; [done|]. cbn [negb].
  rewrite (E (pt_path va) (table_addr l2)); [done|done|auto with vmm| |auto with vmm].
  change (pt_path va) with (pd_path va ++ [pd_index va]). rewrite descend_snoc, D3.
  cbn [mbind option_bind]. by apply link_some.
Qed.

(** A top table [f] with the entries of [k]: the same tables below it. *)
Section clone.
Context (p p' : pmm) (m m' : mem) (k f : Z).
Context (Hw : space_wf p m k) (Hf : aligned f) (Hfree : is_used p (frame_of f) = false)
  (Hm : only_differ m m' f 4096) (He : forall i, index_ok i -> entry m' f i = entry m k i)
  (Hp : forall g, 0 <= g -> is_used p' g = (frame_of f =? g) || is_used p g).

Lemma clone_ne r t : path_ok r -> descend m k r = Some t -> t <> f.
Proof using Hw Hfree. intros Hr Hd ->. destruct (wf_table _ _ _ Hw r f Hr Hd). congruence. Qed.

Lemma clone_kernel :
  space_wf p m' k /\ (forall r, path_ok r -> descend m' k r = descend m k r) /\
  (forall r t i, path_ok r -> descend m k r = Some t -> index_ok i -> entry m' t i = entry m t i).
Proof using Hw Hfree Hf Hm. apply (space_wf_data p m m' k f); [done|done|done|apply clone_ne]. Qed.

Lemma clone_mono g : 0 <= g -> is_used p g = true -> is_used p' g = true.
Proof using Hp. intros Hg E. by rewrite Hp, E, orb_true_r. Qed.

Lemma clone_descend r : r <> [] -> path_ok r -> descend m' f r = descend m k r.
Proof using Hw Hfree Hf Hm He.
  destruct clone_kernel as (_ & D & _). intros Hn Hr. rewrite <- D by done.
  destruct r as [|i r]; [done|]. cbn [descend]. destruct Hr as [_ Hr]. apply Forall_cons_1 in Hr as [Hi _].
  rewrite He by done. destruct clone_kernel as (_ & _ & E). by rewrite (E [] k) by auto with vmm.
Qed.

Lemma clone_table r t :
  path_ok r -> descend m' f r = Some t -> r = [] /\ t = f \/ r <> [] /\ descend m k r = Some t.
Proof using Hw Hfree Hf Hm He.
  intros Hr Hd. destruct r as [|i r]; [left; by injection Hd|right]. split; [done|]. by rewrite <- clone_descend.
Qed.

Lemma clone_entry r t i :
  path_ok r -> descend m' f r = Some t -> index_ok i ->
  exists t0, descend m k r = Some t0 /\ entry m' t i = entry m t0 i.
Proof using Hw Hfree Hf Hm He.
  intros Hr Hd Hi. destruct (clone_table r t Hr Hd) as [[-> ->]|[_ Hd0]].
  - exists k. split; [done|]. by apply He.
  - exists t. split; [done|]. destruct clone_kernel as (_ & _ & E). by apply (E r).
Qed.

Lemma clone_wf : space_wf p' m' f.
Proof using Hw Hfree Hf Hm He Hp.
  split.
  - intros r t Hr Hd. destruct (clone_table r t Hr Hd) as [[-> ->]|[_ Hd0]].
    + split; [done|]. destruct Hf. rewrite Hp, Z.eqb_refl by (apply frame_of_nonneg; lia). done.
    + destruct (wf_table _ _ _ Hw r t Hr Hd0) as [[Ha Hb] Hu]. split; [done|].
      apply clone_mono; [apply frame_of_nonneg; lia|done].
  - intros r r' t Hr Hr' Hd Hd'.
    destruct (clone_table r t Hr Hd) as [[Er Et]|[Hn H0]], (clone_table r' t Hr' Hd') as [[Er' Et']|[Hn' H0']].
    + congruence.
    + by destruct (clone_ne r' t Hr' H0').
    + by destruct (clone_ne r t Hr H0).
    + by apply (wf_inj _ _ _ Hw r r' t).
  - intros r t i Hr Hl Hi Hd. destruct (clone_entry r t i Hr Hd Hi) as (t0 & Hd0 & ->).
    by apply (wf_upper _ _ _ Hw r).
  - intros r t i Hr Hl Hi Hd. destruct (clone_entry r t i Hr Hd Hi) as (t0 & Hd0 & ->).
    by apply (wf_large _ _ _ Hw r).
Qed.

Lemma clone_leaf va : leaf m' f va = leaf m k va.
Proof using Hw Hfree Hf Hm He.
  destruct clone_kernel as (_ & _ & E). unfold leaf. rewrite !clone_descend; auto with vmm; try done.
  destruct (descend m k (pt_path va)) as [pt|] eqn:E1; [by rewrite (E (pt_path va) pt); auto with vmm|].
  destruct (descend m k (pd_path va)) as [pd|] eqn:E2; [|done]. cbn [mbind option_bind].
  by rewrite (E (pd_path va) pd); auto with vmm.
Qed.

Lemma clone_walk va : walk m' f va = walk m k va.
Proof using Hw Hfree Hf Hm He.
  apply walk_ext; [by apply He; auto with vmm|]. destruct clone_kernel as (_ & _ & E). intros r t i _. by apply E.
Qed.

Lemma clone_kernel_walk va : walk m' k va = walk m k va.
Proof using Hw Hfree Hf Hm.
  destruct clone_kernel as (_ & _ & E).
  apply walk_ext; [exact (E [] k _ nil_path_ok eq_refl (pml4_index_ok va))|]. intros r t i _. by apply E.
Qed.
End clone.

(** [vmm_create_address_space]: a frame that was free becomes a space that the
    processor walks exactly as the kernel's, and nothing else changes. *)
Record cloned (k : Z) (v : vmm) (s : Z) (v' : vmm) : Prop := {
  cl_frame : aligned s /\ is_used (vm_pmm v) (frame_of s) = false;
  cl_used g : 0 <= g -> is_used (vm_pmm v') g = (frame_of s =? g) || is_used (vm_pmm v) g;
  cl_bytes : only_differ (vm_mem v) (vm_mem v') s 4096;
  cl_entries i : index_ok i -> entry (vm_mem v') s i = entry (vm_mem v) k i;
  cl_space : vmm_wf s v';
  cl_kernel : vmm_wf k v';
  cl_walk va : walk (vm_mem v') s va = walk (vm_mem v) k va /\ walk (vm_mem v') k va = walk (vm_mem v) k va;
  cl_regs : kernel_pml4 v' = kernel_pml4 v /\ cr3 v' = cr3 v;
}.

Lemma create_spec v :
  let k := kernel_pml4 v in
  vmm_wf k v ->
  let (v', s) := vmm_create_address_space v in
  (s = 0 /\ v' = v /\ no_frames v) \/ (s <> 0 /\ cloned k v s v').
Proof.
  intros k Hw. unfold vmm_create_address_space.
  destruct (vmm_alloc_cases v k Hw) as [[-> Hno]|(p' & f & -> & Hf0 & Hf & Hfree & Hp' & Hus)].
  { left. split; [done|]. split; [apply with_pmm_id|done]. }
  replace (f =? 0) with false by lia. right. split; [done|]. cbn [kernel_pml4 with_pmm vm_mem]. fold k.
  destruct Hw as (Hs & _ & H0).
  assert (Hk : k mod 4096 = 0) by exact (table_aligned _ _ _ Hs [] k nil_path_ok eq_refl).
  assert (Hne : k <> f) by exact (clone_ne _ _ k f Hs Hfree [] k nil_path_ok eq_refl).
  destruct (copy_table_spec (vm_mem v) f k (proj1 Hf) Hk Hne) as [Hm He].
  generalize dependent (for_each 0 ENTRIES_PER_TABLE (fun i m => set_entry m f i (entry m k i)) (vm_mem v)).
  intros m' Hm He. pose proof (clone_kernel _ _ m' k f Hs Hf Hfree Hm) as (Hk' & Dk & _).
  assert (H0' : is_used p' 0 = true) by (rewrite Hus, H0 by lia; apply orb_true_r).
  split; cbn [vm_mem vm_pmm with_mem with_pmm]; try done.
  - split; [exact (clone_wf _ _ _ _ _ _ Hs Hf Hfree Hm He Hus)|by split].
  - split; [|by split]. destruct Hk' as [W1 W2 W3 W4]. split; try done. intros r t Hr Hd.
    destruct (W1 r t Hr Hd) as [[Ha Hb] Hu]. split; [done|]. cbn [vm_pmm with_mem with_pmm].
    rewrite Hus, Hu by (apply frame_of_nonneg; lia). apply orb_true_r.
  - intros va. split; [exact (clone_walk _ _ _ _ _ Hs Hf Hfree Hm He va)|].
    exact (clone_kernel_walk _ _ m' k f Hs Hf Hfree Hm va).
Qed.

(** * Giving a space back *)

(** From [p] to [p'] exactly the frames of [S] are released. *)
Definition frees (p p' : pmm) (S : Z -> Prop) : Prop :=
  (pmm_wf p -> pmm_wf p') /\
  forall g, 0 <= g < PMM_MAX_FRAMES -> is_used p' g = true <-> is_used p g = true /\ ~ S g.

Lemma frees_ext p p' (S S' : Z -> Prop) : (forall g, S g <-> S' g) -> frees p p' S -> frees p p' S'.
Proof. intros E [Hw H]. split; [done|]. intros g Hg. rewrite H by done. by rewrite E. Qed.

Lemma frees_none p (S : Z -> Prop) : (forall g, ~ S g) -> frees p p S.
Proof. intros Hn. split; [done|]. intros g Hg. specialize (Hn g). tauto. Qed.

Lemma frees_trans p1 p2 p3 (S1 S2 : Z -> Prop) :
  frees p1 p2 S1 -> frees p2 p3 S2 -> frees p1 p3 (fun g => S1 g \/ S2 g).
Proof. intros [W1 H1] [W2 H2]. split; [auto|]. intros g Hg. rewrite H2, H1 by done. tauto. Qed.

Lemma frees_frame p a : 0 <= a -> frees p (pmm_free_frame p a) (fun g => g = frame_of a).
Proof.
  intros Ha. split; [by apply pmm_free_frame_wf|]. intros g Hg. unfold pmm_free_frame.
  pose proof (frame_of_nonneg a Ha). destruct (decide (frame_of a < PMM_MAX_FRAMES)).
  - rewrite is_used_set_free by lia. destruct (frame_of a =? g) eqn:E; bool_prop; simpl.
    + split; [done|]. intros [_ Hn]. lia.
    + split; [intros ->|by intros [-> _]]. split; [done|lia].
  - rewrite set_free_out by lia. split; [intros ->|by intros [-> _]]. split; [done|lia].
Qed.

Lemma frees_for_each n p (body : Z -> pmm -> pmm) (S : Z -> Z -> Prop) :
  0 <= n -> (forall i p', 0 <= i < n -> frees p' (body i p') (S i)) ->
  frees p (for_each 0 n body p) (fun g => exists i, 0 <= i < n /\ S i g).
Proof.
  intros Hn Hb. apply (for_each_inv 0 n body p (fun k p' => frees p p' (fun g => exists i, 0 <= i < k /\ S i g))); [lia| |].
  - apply frees_none. intros g (i & Hi & _). lia.
  - intros j p' Hj IH. eapply frees_ext; [|exact (frees_trans _ _ _ _ _ IH (Hb j p' Hj))].
    intros g. split.
    + intros [(i & Hi & Hs)|Hs]; [exists i|exists j]; (split; [lia|done]).
    + intros (i & Hi & Hs). destruct (decide (i = j)) as [->|]; [by right|left].
      exists i. split; [lia|done].
Qed.

(** The frames under a table of each level. *)
Definition user_entry (e : Z) : bool := Z.land e (Z.lor PAGE_PRESENT PAGE_USER) =? Z.lor PAGE_PRESENT PAGE_USER.

Definition under_pt (m : mem) (pt g : Z) : Prop :=
  exists i, index_ok i /\ user_entry (entry m pt i) = true /\ g = frame_of (table_addr (entry m pt i)).

Definition under (m : mem) (t : Z) (below : Z -> Z -> Prop) (g : Z) : Prop :=
  exists i t', index_ok i /\ link (entry m t i) = Some t' /\ (below t' g \/ g = frame_of t').

Definition under_pd (m : mem) (pd : Z) : Z -> Prop := under m pd (under_pt m).
Definition under_pdpt (m : mem) (pdpt : Z) : Z -> Prop := under m pdpt (under_pd m).

Lemma destroy_pt_frees m pt p : frees p (destroy_pt m pt p) (under_pt m pt).
Proof.
  unfold destroy_pt. eapply frees_ext; [|apply frees_for_each; [unfold ENTRIES_PER_TABLE; lia|]].
  2: { intros i p' Hi. instantiate (1 := fun i g => user_entry (entry m pt i) = true /\ g = frame_of (table_addr (entry m pt i))).
    cbv beta. fold (user_entry (entry m pt i)). destruct (user_entry (entry m pt i)) eqn:E.
    - eapply frees_ext; [|apply frees_frame; apply table_addr_bounds]. intros g. tauto.
    - apply frees_none. by intros g [? _]. }
  intros g. unfold under_pt, index_ok. split; intros (i & Hi & H); by exists i.
Qed.

(** A loop that releases what lies behind the links of a table. *)
Lemma links_frees m t p (body : Z -> pmm -> pmm) (inner : Z -> pmm -> pmm) (below : Z -> Z -> Prop) :
  (forall i p, index_ok i -> link (entry m t i) = None -> body i p = p) ->
  (forall i t' p, index_ok i -> link (entry m t i) = Some t' ->
     body i p = pmm_free_frame (inner t' p) t' /\ frees p (inner t' p) (below t')) ->
  frees p (for_each 0 ENTRIES_PER_TABLE body p) (under m t below).
Proof.
  intros Hno Hyes. eapply frees_ext; [|apply frees_for_each; [unfold ENTRIES_PER_TABLE; lia|]].
  2: { intros i q Hi. instantiate (1 := fun i g => exists t', link (entry m t i) = Some t' /\ (below t' g \/ g = frame_of t')).
    cbv beta. destruct (link (entry m t i)) as [t'|] eqn:Hl.
    - destruct (Hyes i t' q Hi Hl) as [-> Hin].
      assert (0 <= t') by (unfold link in Hl; destruct (has _ _ && _); [injection Hl as <-; apply table_addr_bounds|done]).
      eapply frees_ext; [|eapply frees_trans; [exact Hin|by apply frees_frame]].
      intros g. split; [intros H1; by exists t'|]. by intros (t2 & [= <-] & H1).
    - rewrite Hno by done. apply frees_none. by intros g (t' & ? & _). }
  intros g. unfold under. split.
  - intros (i & Hi & t' & Hs). by exists i, t'.
  - intros (i & t' & Hi & Hs). exists i. split; [done|]. by exists t'.
Qed.

(** What a link says of the bits the code looks at. *)
Lemma link_cases e :
  match link e with
  | Some t => has e PAGE_PRESENT = true /\ has e PAGE_SIZE_2MB = false /\ table_addr e = t
  | None => has e PAGE_PRESENT = false \/ has e PAGE_SIZE_2MB = true
  end.
Proof. unfold link. destruct (has e PAGE_PRESENT), (has e PAGE_SIZE_2MB); simpl; auto. Qed.

Lemma destroy_pd_frees m pd p : frees p (destroy_pd m pd p) (under_pd m pd).
Proof.
  apply (links_frees m pd p _ (destroy_pt m)); intros i; [intros q Hi Hl|intros t q Hi Hl];
    pose proof (link_cases (entry m pd i)) as Hc; rewrite Hl in Hc; cbv beta zeta.
  - destruct Hc as [-> | ->]; [done|]. by destruct (has _ PAGE_PRESENT).
  - destruct Hc as (-> & -> & ->). split; [done|apply destroy_pt_frees].
Qed.

(** The upper levels hold no large pages, and the code does not look for them. *)
Definition no_large (m : mem) (t : Z) : Prop :=
  forall i, index_ok i -> has (entry m t i) PAGE_PRESENT = true -> has (entry m t i) PAGE_SIZE_2MB = false.

Lemma destroy_pdpt_frees m pdpt p : no_large m pdpt -> frees p (destroy_pdpt m pdpt p) (under_pdpt m pdpt).
Proof.
  intros Hn. apply (links_frees m pdpt p _ (destroy_pd m)); intros i; [intros q Hi Hl|intros t q Hi Hl];
    pose proof (link_cases (entry m pdpt i)) as Hc; rewrite Hl in Hc; cbv beta zeta.
  - destruct Hc as [-> |Hb]; [done|]. destruct (has _ PAGE_PRESENT) eqn:E; [|done]. by rewrite (Hn i Hi E) in Hb.
  - destruct Hc as (-> & _ & ->). split; [done|apply destroy_pd_frees].
Qed.

(** * What a space holds *)

(** A slot of the top table that the kernel does not use. *)
Definition private (m : mem) (k i : Z) : Prop := index_ok i /\ has (entry m k i) PAGE_PRESENT = false.

(** The frames of a space: its top table, its tables below private slots, and the
    pages they give to user code. *)
Inductive held (m0 : mem) (k : Z) (m : mem) (s g : Z) : Prop :=
  | held_top : g = frame_of s -> held m0 k m s g
  | held_table i r t :
      private m0 k i -> path_ok (i :: r) -> descend m s (i :: r) = Some t -> g = frame_of t ->
      held m0 k m s g
  | held_page va page attrs :
      private m0 k (pml4_index va) -> leaf m s va = Some (page, attrs) ->
      has attrs PAGE_USER = true -> g = frame_of page -> held m0 k m s g.

Lemma user_entry_bits e : user_entry e = has e PAGE_PRESENT && has e PAGE_USER.
Proof.
  unfold user_entry, has. change PAGE_PRESENT with (2 ^ 0). change PAGE_USER with (2 ^ 2).
  rewrite !land_pow2_eqb, !negb_involutive by lia. apply eq_bool_prop_intro. split.
  - intros H%Is_true_eq_true%Z.eqb_eq.
    pose proof (f_equal (fun x => Z.testbit x 0) H) as H1. pose proof (f_equal (fun x => Z.testbit x 2) H) as H2.
    cbv beta in H1, H2. rewrite Z.land_spec in H1, H2. change (Z.testbit (Z.lor (2 ^ 0) (2 ^ 2)) 0) with true in H1.
    change (Z.testbit (Z.lor (2 ^ 0) (2 ^ 2)) 2) with true in H2. rewrite andb_true_r in H1, H2. by rewrite H1, H2.
  - intros H%Is_true_eq_true. apply andb_prop in H as [H0 H2]. apply Is_true_eq_left, Z.eqb_eq.
    apply Z.bits_inj'. intros n Hn. rewrite Z.land_spec.
    destruct (decide (n = 0)) as [->|]; [by rewrite H0|]. destruct (decide (n = 2)) as [->|]; [by rewrite H2|].
    rewrite Z.lor_spec, !Z.pow2_bits_false by lia. apply andb_false_r.
Qed.

Ltac indices := repeat (apply Forall_cons; [done|]); apply Forall_nil.

(** An address with given indices. *)
Lemma address_of a b c d :
  index_ok a -> index_ok b -> index_ok c -> index_ok d ->
  exists va, pt_path va = [a; b; c] /\ pt_index va = d /\ pml4_index va = a.
Proof.
  unfold index_ok, ENTRIES_PER_TABLE. intros Ha Hb Hc Hd.
  exists ((((a * 512 + b) * 512 + c) * 512 + d) * 4096).
  unfold pt_path, pml4_index, pdpt_index, pd_index, pt_index. rewrite !index_digit by lia.
  change (2 ^ 39) with 549755813888. change (2 ^ 30) with 1073741824. change (2 ^ 21) with 2097152. change (2 ^ 12) with 4096.
  assert (E1 : (((a * 512 + b) * 512 + c) * 512 + d) * 4096 / 549755813888 = a) by div_lia.
  assert (E2 : (((a * 512 + b) * 512 + c) * 512 + d) * 4096 / 1073741824 = a * 512 + b) by div_lia.
  assert (E3 : (((a * 512 + b) * 512 + c) * 512 + d) * 4096 / 2097152 = (a * 512 + b) * 512 + c) by div_lia.
  assert (E4 : (((a * 512 + b) * 512 + c) * 512 + d) * 4096 / 4096 = ((a * 512 + b) * 512 + c) * 512 + d) by div_lia.
  rewrite E1, E2, E3, E4. split_and!; [|div_lia|div_lia]. f_equal; [div_lia|]. f_equal; [div_lia|]. f_equal. div_lia.
Qed.

Section held.
Context (p : pmm) (m0 m : mem) (k s : Z) (Hw : space_wf p m s).

(** A page given to user code has an entry of its own in a page table. *)
Lemma user_leaf_entry va page attrs :
  leaf m s va = Some (page, attrs) -> has attrs PAGE_USER = true ->
  exists pt, descend m s (pt_path va) = Some pt /\ user_entry (entry m pt (pt_index va)) = true /\
    page = table_addr (entry m pt (pt_index va)).
Proof using Hw.
  unfold leaf. destruct (descend m s (pt_path va)) as [pt|] eqn:Hpt.
  - unfold pte_view. destruct (has _ PAGE_PRESENT) eqn:Hp; [|done]. intros [= <- <-] Hu. exists pt.
    rewrite has_land in Hu by done. by rewrite user_entry_bits, Hp, Hu.
  - destruct (descend m s (pd_path va)) as [pd|] eqn:Hpd; [|done]. cbn [mbind option_bind]. unfold large_view.
    destruct (has _ PAGE_PRESENT) eqn:Hp; [|done]. destruct (has _ PAGE_SIZE_2MB) eqn:Hb; [|done].
    intros [= _ <-] Hu. rewrite has_land in Hu by done.
    destruct (wf_large _ _ _ Hw (pd_path va) pd (pd_index va)) as [_ Hn]; auto with vmm. congruence.
Qed.

Lemma descend3 a b c :
  descend m s [a; b; c] = link (entry m s a) ≫= fun t1 => link (entry m t1 b) ≫= fun t2 => link (entry m t2 c).
Proof. cbn [descend]. destruct (link (entry m s a)) as [t1|]; [|done]. cbn [mbind option_bind].
  destruct (link (entry m t1 b)) as [t2|]; [|done]. cbn [mbind option_bind]. by destruct (link (entry m t2 c)). Qed.

(** The frames of a space, slot by slot. *)
Lemma held_slots g :
  held m0 k m s g <->
  (exists i t, private m0 k i /\ link (entry m s i) = Some t /\ (under_pdpt m t g \/ g = frame_of t)) \/ g = frame_of s.
Proof using Hw.
  split.
  - intros [-> |i r t Hi Hr Hd -> |va page attrs Hi Hl Hu ->]; [by right|left|left].
    + exists i. cbn [descend] in Hd. destruct (link (entry m s i)) as [t1|]; [|done]. exists t1.
      split; [done|]. split; [done|]. cbn [mbind option_bind] in Hd. destruct Hr as [Hlen Hr].
      apply Forall_cons_1 in Hr as [_ Hr].
      destruct r as [|j r]; [right; by injection Hd as <-|left].
      apply Forall_cons_1 in Hr as [Hj Hr]. exists j. cbn [descend] in Hd.
      destruct (link (entry m t1 j)) as [t2|]; [|done]. exists t2. split; [done|]. split; [done|].
      cbn [mbind option_bind] in Hd. destruct r as [|l r]; [right; by injection Hd as <-|left].
      apply Forall_cons_1 in Hr as [Hll Hr]. exists l. cbn [descend] in Hd.
      destruct (link (entry m t2 l)) as [t3|]; [|done]. exists t3. split; [done|]. split; [done|].
      right. destruct r; [by injection Hd as <-|]. simpl in Hlen. lia.
    + destruct (user_leaf_entry va page attrs Hl Hu) as (pt & Hd & He & ->).
      change (pt_path va) with [pml4_index va; pdpt_index va; pd_index va] in Hd. rewrite descend3 in Hd.
      exists (pml4_index va). destruct (link (entry m s _)) as [t1|]; [|done]. exists t1.
      split; [done|]. split; [done|]. left. cbn [mbind option_bind] in Hd.
      exists (pdpt_index va). destruct (link (entry m t1 _)) as [t2|]; [|done]. exists t2.
      split; [auto with vmm|]. split; [done|]. left. cbn [mbind option_bind] in Hd.
      exists (pd_index va), pt. split; [auto with vmm|]. split; [done|]. left.
      exists (pt_index va). split; [auto with vmm|]. by split.
  - intros [(i & t & Hi & Hl & Hg)| ->]; [|by apply held_top].
    assert (Hok : forall r, (length r <= 2)%nat -> Forall index_ok r -> path_ok (i :: r)).
    { intros r Hlen Hr. split; [simpl; lia|]. apply Forall_cons; [apply Hi|done]. }
    destruct Hg as [(j & t2 & Hj & Hl2 & Hg)| ->].
    2: { apply (held_table m0 k m s _ i [] t); [done|apply Hok; [simpl; lia|indices]| |done]. cbn [descend]. by rewrite Hl. }
    destruct Hg as [(l & t3 & Hll & Hl3 & Hg)| ->].
    2: { apply (held_table m0 k m s _ i [j] t2); [done|apply Hok; [simpl; lia|indices]| |done].
         cbn [descend]. rewrite Hl. cbn [mbind option_bind]. by rewrite Hl2. }
    assert (Hd : descend m s [i; j; l] = Some t3).
    { rewrite descend3, Hl. cbn [mbind option_bind]. rewrite Hl2. cbn [mbind option_bind]. by rewrite Hl3. }
    destruct Hg as [(n & Hn & He & ->)| ->].
    2: { apply (held_table m0 k m s _ i [j; l] t3); [done|apply Hok; [simpl; lia|indices]|done|done]. }
    destruct (address_of i j l n) as (va & Ep & En & Ei); [apply Hi|done|done|done|].
    rewrite user_entry_bits in He. apply andb_prop in He as [Hp Hu].
    apply (held_page m0 k m s _ va (table_addr (entry m t3 n)) (Z.land (entry m t3 n) PAGE_ATTRS)); [by rewrite Ei| |by rewrite has_land|done].
    unfold leaf. rewrite Ep, Hd, En. unfold pte_view. by rewrite Hp.
Qed.
End held.

(** [vmm_destroy_address_space] releases exactly what the space holds. *)
Lemma destroy_frees v s :
  let k := kernel_pml4 v in
  space_wf (vm_pmm v) (vm_mem v) s -> aligned s -> s <> k ->
  (forall i, index_ok i -> has (entry (vm_mem v) k i) PAGE_PRESENT = true ->
     entry (vm_mem v) s i = entry (vm_mem v) k i) ->
  let v' := vmm_destroy_address_space v s in
  frees (vm_pmm v) (vm_pmm v') (held (vm_mem v) k (vm_mem v) s) /\ vm_mem v' = vm_mem v /\
  kernel_pml4 v' = k /\ cr3 v' = cr3 v.
Proof.
  intros k Hw Hs Hne Hslots. unfold vmm_destroy_address_space, vmm_kernel_address_space. fold k.
  pose proof Hs as [Hsm Hsb]. unfold PMM_MAX_MEMORY in Hsb.
  replace ((s =? 0) || (s =? k)) with false by lia. cbv zeta. cbn [vm_pmm vm_mem with_pmm kernel_pml4 cr3].
  split; [|done]. set (m := vm_mem v) in *.
  assert (Es : space_pml4 s = s) by (apply table_addr_page; [lia|done]). rewrite Es.
  eapply frees_ext; [intros g; symmetry; apply (held_slots _ m m k s Hw)|].
  eapply frees_trans; [|apply frees_frame; lia].
  eapply frees_ext; [|apply frees_for_each; [unfold ENTRIES_PER_TABLE; lia|]].
  2: { intros i q Hi. instantiate (1 := fun i g => exists t, private m k i /\ link (entry m s i) = Some t /\
         (under_pdpt m t g \/ g = frame_of t)). cbv beta zeta.
    destruct (has (entry m s i) PAGE_PRESENT) eqn:Hp; cbn [negb orb].
    2: { apply frees_none. intros g (t & _ & Hl & _). unfold link in Hl. by rewrite Hp in Hl. }
    destruct (has (entry m k i) PAGE_PRESENT) eqn:Hk.
    { rewrite (Hslots i Hi Hk), Z.eqb_refl. apply frees_none. intros g (t & [_ Hn] & _). congruence. }
    replace (entry m s i =? entry m k i) with false by (symmetry; apply Z.eqb_neq; congruence).
    assert (Hl : link (entry m s i) = Some (table_addr (entry m s i))).
    { apply link_some; [done|]. apply (wf_upper _ _ _ Hw [] s i nil_path_ok); [simpl; lia|done|done|done]. }
    assert (Hd : descend m s [i] = Some (table_addr (entry m s i))) by (cbn [descend]; by rewrite Hl).
    eapply frees_ext; [|eapply frees_trans; [apply destroy_pdpt_frees|apply frees_frame, table_addr_bounds]].
    - intros g. split; [intros H1; exists (table_addr (entry m s i)); by split_and!|].
      intros (t & _ & Hl2 & H1). rewrite Hl in Hl2. by injection Hl2 as <-.
    - intros j Hj. apply (wf_upper _ _ _ Hw [i]); [|simpl; lia|done|done].
      split; [simpl; lia|indices]. }
  intros g. split.
  - intros (i & Hi & t & H1). by exists i, t.
  - intros (i & t & H1 & H2). exists i. split; [apply H1|]. by exists t.
Qed.

(** * A space in use *)

(** Space [s] was made in [v0], whose kernel tables are at [k]: since then memory and
    frames that were in use are as they were, the kernel's slots are the kernel's, and
    the frames taken are those the space holds, and those of [E]. *)
Record lives (k : Z) (v0 : vmm) (s : Z) (E : Z -> Prop) (v : vmm) : Prop := {
  lv_wf : vmm_wf s v;
  lv_regs : kernel_pml4 v = k;
  lv_frame : aligned s /\ is_used (vm_pmm v0) (frame_of s) = false;
  lv_used g : 0 <= g -> is_used (vm_pmm v0) g = true -> is_used (vm_pmm v) g = true;
  lv_bytes a : 0 <= a -> is_used (vm_pmm v0) (frame_of a) = true -> ld8 (vm_mem v) a = ld8 (vm_mem v0) a;
  lv_slots i : index_ok i -> has (entry (vm_mem v0) k i) PAGE_PRESENT = true ->
    entry (vm_mem v) s i = entry (vm_mem v0) k i;
  lv_owns g : 0 <= g < PMM_MAX_FRAMES ->
    is_used (vm_pmm v) g = true /\ is_used (vm_pmm v0) g = false <->
    held (vm_mem v0) k (vm_mem v) s g \/ E g;
}.

Definition nothing (_ : Z) : Prop := False.

Lemma aligned_frame t : aligned t -> 0 <= frame_of t < PMM_MAX_FRAMES.
Proof. intros [Hm Hb]. frames. div_lia. Qed.

Lemma same_frame t t' : aligned t -> aligned t' -> frame_of t = frame_of t' -> t = t'.
Proof. intros [Hm _] [Hm' _]. unfold frame_of, PMM_FRAME_SIZE. intros. div_lia. Qed.

Section lives.
Context (k : Z) (v0 : vmm) (s : Z).
#[local] Abbreviation m0 := (vm_mem v0).
Implicit Types (E : Z -> Prop) (v : vmm).

(** A space just made. *)
Lemma lives_created v : k = kernel_pml4 v0 -> cloned k v0 s v -> lives k v0 s nothing v.
Proof.
  intros Hk [[Hs Hfree] Hus Hb He Hw _ _ [Hr _]]. pose proof (aligned_frame s Hs) as Hfs.
  assert (Hnone : forall i r, private m0 k i -> descend (vm_mem v) s (i :: r) = None).
  { intros i r [Hi Hp]. cbn [descend]. rewrite He by done. by rewrite link_none. }
  split; try done.
  - congruence.
  - intros g Hg Hu. by rewrite Hus, Hu, orb_true_r.
  - intros a Ha Hu. apply Hb, frame_apart; [apply Hs|]. congruence.
  - intros i Hi _. by apply He.
  - intros g Hg. rewrite Hus by lia. split.
    + intros [Hu Hn]. rewrite Hn, orb_false_r in Hu. left. apply held_top. lia.
    + intros [[-> |i r t Hi _ Hd _|va page attrs Hi Hl _ _]|[]].
      * by rewrite Z.eqb_refl.
      * by rewrite Hnone in Hd.
      * unfold leaf, pt_path, pd_path in Hl. by rewrite !Hnone in Hl.
Qed.

Section alive.
Context (E : Z -> Prop) (v : vmm) (L : lives k v0 s E v).

(** A private table is not among the frames of [v0]. *)
Lemma private_table_new i r t :
  private m0 k i -> path_ok (i :: r) -> descend (vm_mem v) s (i :: r) = Some t ->
  is_used (vm_pmm v0) (frame_of t) = false.
Proof using L.
  intros Hi Hr Hd. destruct (wf_table _ _ _ (proj1 (lv_wf _ _ _ _ _ L)) _ t Hr Hd) as [Ht _].
  apply (lv_owns _ _ _ _ _ L); [by apply aligned_frame|]. left. by eapply held_table.
Qed.

(** A frame from the allocator. *)
Lemma lives_alloc p' f :
  aligned f -> is_used (vm_pmm v) (frame_of f) = false -> pmm_wf p' ->
  (forall g, 0 <= g -> is_used p' g = (frame_of f =? g) || is_used (vm_pmm v) g) ->
  lives k v0 s (fun g => E g \/ g = frame_of f) (with_pmm v p').
Proof using L.
  intros Hf Hfree Hp Hus. destruct L as [Hw Hr Hs Hu Hb Hsl Ho]. pose proof (aligned_frame f Hf) as Hff.
  split; try done; cbn [vm_pmm vm_mem with_pmm].
  - exact (evolves_wf _ _ _ _ (evolves_alloc s v p' f Hw Hp Hus)).
  - intros g Hg Hg0. by rewrite Hus, Hu, orb_true_r.
  - intros g Hg. rewrite Hus by lia. specialize (Ho g Hg).
    assert (Hnew : frame_of f = g -> is_used (vm_pmm v0) g = false).
    { intros <-. destruct (is_used (vm_pmm v0) (frame_of f)) eqn:Eu; [|done].
      rewrite Hu in Hfree; [done|lia|done]. }
    destruct (frame_of f =? g) eqn:Eg; bool_prop; simpl; [|rewrite Ho; assert (g <> frame_of f) by lia; tauto].
    specialize (Hnew Eg). split; [intros _; right; by right|done].
Qed.

(** Writing to a frame that is new and no table. *)
Lemma lives_write m2 f :
  only_differ (vm_mem v) m2 f 4096 -> aligned f -> is_used (vm_pmm v0) (frame_of f) = false ->
  (forall r t, path_ok r -> descend (vm_mem v) s r = Some t -> t <> f) ->
  lives k v0 s E (with_mem v m2).
Proof using L.
  intros Hm Hf Hnew Hnt. destruct L as [Hw Hr Hs Hu Hb Hsl Ho].
  destruct (space_wf_data _ _ m2 s f (proj1 Hw) Hf Hm Hnt) as (Hw2 & D & En).
  assert (Hleaf : forall va, leaf m2 s va = leaf (vm_mem v) s va).
  { intros va. apply leaf_ext; [by apply D; auto with vmm|by apply D; auto with vmm| |].
    - intros pt Hd. apply (En (pt_path va)); auto with vmm.
    - intros pd _ Hd. apply (En (pd_path va)); auto with vmm. }
  split; try done; cbn [vm_pmm vm_mem with_mem].
  - by split; [|apply Hw].
  - intros a Ha Hua. rewrite <- Hb by done. apply Hm, frame_apart; [apply Hf|congruence].
  - intros i Hi Hp. rewrite (En [] s); [by apply Hsl|auto with vmm|done|done].
  - intros g Hg. rewrite (Ho g Hg). apply or_iff_compat_r.
    split; (intros [-> |i r t Hi Hr' Hd Eg|va page attrs Hi Hl Hus Eg]; [by apply held_top| |]).
    + apply (held_table _ _ _ _ _ i r t); [done|done|by rewrite D|done].
    + apply (held_page _ _ _ _ _ va page attrs); [done|by rewrite Hleaf|done|done].
    + rewrite D in Hd by done. by apply (held_table _ _ _ _ _ i r t).
    + rewrite Hleaf in Hl. by apply (held_page _ _ _ _ _ va page attrs).
Qed.

(** An operation on the tables of a private address. *)
Section evolving.
Context (E' : Z -> Prop) (va : Z) (keep : Z -> Prop) (v' : vmm).
Context (He : evolves s keep v v') (Hlo : localized s va v v') (Hpriv : private m0 k (pml4_index va)).
Context (Hkeep : forall a, ~ same_page va a -> keep a).
Context (Hgain : forall a page attrs, same_page va a -> has attrs PAGE_USER = true ->
  leaf (vm_mem v') s a = Some (page, attrs) -> held m0 k (vm_mem v) s (frame_of page) \/ E (frame_of page)).
Context (Hlost : forall a page attrs, same_page va a -> has attrs PAGE_USER = true ->
  leaf (vm_mem v) s a = Some (page, attrs) -> held m0 k (vm_mem v') s (frame_of page) \/ E' (frame_of page)).
Context (HE : forall g, E g -> held m0 k (vm_mem v') s g \/ E' g).
Context (HE' : forall g, E' g -> held m0 k (vm_mem v) s g \/ E g).

Lemma evolve_owned g :
  0 <= g < PMM_MAX_FRAMES -> held m0 k (vm_mem v') s g \/ E' g ->
  is_used (vm_pmm v') g = true /\ is_used (vm_pmm v0) g = false.
Proof using L He Hkeep Hgain HE'.
  intros Hg Hh. pose proof (ev_space _ _ _ _ He) as Hw'.
  assert (Hc : (held m0 k (vm_mem v) s g \/ E g) \/ exists t, aligned t /\ g = frame_of t /\
    is_used (vm_pmm v) g = false /\ is_used (vm_pmm v') g = true).
  { destruct Hh as [[-> |i r t Hi Hr' Hd ->|a page attrs Hi Hl Hus ->]|]; [by left; left; apply held_top| | |by left; apply HE'].
    - destruct (ev_table _ _ _ _ He _ t Hr' Hd) as [Hd0|Hn]; [by left; left; apply (held_table _ _ _ _ _ i r t)|].
      right. exists t. destruct (wf_table _ _ _ Hw' _ t Hr' Hd). by split_and!.
    - left. destruct (decide (same_page va a)) as [Hsp|Hn]; [by apply (Hgain a page attrs)|].
      left. rewrite (ev_leaf _ _ _ _ He) in Hl by auto. by apply (held_page _ _ _ _ _ a page attrs). }
  destruct Hc as [Hc|(t & Ht & -> & Hn & Hy)].
  - destruct (proj2 (lv_owns _ _ _ _ _ L g Hg) Hc) as [H1 H2]. split; [|done]. apply (ev_used _ _ _ _ He); [lia|done].
  - split; [done|]. destruct (is_used (vm_pmm v0) (frame_of t)) eqn:Eu; [|done].
    rewrite (lv_used _ _ _ _ _ L) in Hn; [done|lia|done].
Qed.

Lemma on_path_private r t :
  on_path va r -> descend (vm_mem v') s r = Some t -> held m0 k (vm_mem v') s (frame_of t).
Proof using Hpriv.
  intros Hp Hd. pose proof (on_path_ok _ _ Hp) as Hr.
  destruct Hp as [->|[->| ->]]; by eapply (held_table _ _ _ _ _ (pml4_index va)).
Qed.

(** The tables the operation writes to are new since [v0]. *)
Lemma evolve_walk_new r i t :
  on_walk va r i -> descend (vm_mem v') s r = Some t ->
  aligned t /\ index_ok i /\ is_used (vm_pmm v0) (frame_of t) = false.
Proof using L He Hpriv Hkeep Hgain HE'.
  intros Hwk Hd. destruct (wf_table _ _ _ (ev_space _ _ _ _ He) r t (on_walk_ok _ _ _ Hwk) Hd) as [Ht _].
  split; [done|]. split; [destruct Hwk as [[= _ ->]|[[= _ ->]|[[= _ ->]|[= _ ->]]]]; auto with vmm|].
  destruct Hwk as [[= -> _]|Hwk]; [injection Hd as <-; apply (lv_frame _ _ _ _ _ L)|].
  apply evolve_owned; [by apply aligned_frame|left; apply (on_path_private r); [|done]].
  destruct Hwk as [[= -> _]|[[= -> _]|[= -> _]]]; [by left|right; by left|right; by right].
Qed.

Lemma evolve_bytes a :
  0 <= a -> is_used (vm_pmm v0) (frame_of a) = true -> ld8 (vm_mem v') a = ld8 m0 a.
Proof using L He Hlo Hpriv Hkeep Hgain HE'.
  intros Ha Hua. rewrite <- (lv_bytes _ _ _ _ _ L) by done. apply (lo_bytes _ _ _ _ Hlo); [done| |].
  { apply (lv_used _ _ _ _ _ L); [by apply frame_of_nonneg|done]. }
  intros r i t Hwk Hd Hin. destruct (evolve_walk_new r i t Hwk Hd) as ([Hm _] & Hi & Hn).
  assert (frame_of a = frame_of t); [|congruence].
  unfold index_ok, ENTRIES_PER_TABLE in Hi. unfold frame_of, PMM_FRAME_SIZE. div_lia.
Qed.

Lemma evolve_slots i :
  index_ok i -> has (entry m0 k i) PAGE_PRESENT = true -> entry (vm_mem v') s i = entry m0 k i.
Proof using L He Hlo Hpriv Hkeep Hgain HE'.
  intros Hi Hp. rewrite <- (lv_slots _ _ _ _ _ L) by done. unfold entry. apply ld64_ext. intros a Ha.
  destruct (lv_frame _ _ _ _ _ L) as [Hs _]. pose proof Hs as [Hsm Hsb].
  unfold index_ok, ENTRIES_PER_TABLE in Hi.
  assert (Efa : frame_of a = frame_of s) by (unfold frame_of, PMM_FRAME_SIZE; div_lia).
  apply (lo_bytes _ _ _ _ Hlo); [lia| |].
  { rewrite Efa. apply (wf_table _ _ _ (proj1 (lv_wf _ _ _ _ _ L)) [] s nil_path_ok eq_refl). }
  intros r j t Hwk Hd Hin. destruct (evolve_walk_new r j t Hwk Hd) as (Ht & Hj & _).
  unfold index_ok, ENTRIES_PER_TABLE in Hj.
  assert (Ets : t = s).
  { apply same_frame; [done|done|]. rewrite <- Efa. destruct Ht as [Hm _].
    unfold frame_of, PMM_FRAME_SIZE. div_lia. }
  subst t. assert (r = []) as ->.
  { apply (wf_inj _ _ _ (ev_space _ _ _ _ He) r [] s); [by eapply on_walk_ok|apply nil_path_ok|done|done]. }
  assert (j = pml4_index va) as -> by (destruct Hwk as [[= ->]|[[=]|[[=]|[=]]]]; done).
  destruct Hpriv as [_ Hpn]. assert (i = pml4_index va) as -> by lia. congruence.
Qed.

Lemma lives_evolve : lives k v0 s E' v'.
Proof using L He Hlo Hpriv Hkeep Hgain Hlost HE HE'.
  destruct (ev_regs _ _ _ _ He) as [Hk _]. split.
  - exact (evolves_wf _ _ _ _ He).
  - rewrite Hk. apply L.
  - apply L.
  - intros g Hg Hg0. apply (ev_used _ _ _ _ He); [done|]. by apply (lv_used _ _ _ _ _ L).
  - exact evolve_bytes.
  - exact evolve_slots.
  - intros g Hg. split; [|by apply evolve_owned]. intros [Hy Hn].
    destruct (lo_used _ _ _ _ Hlo g ltac:(lia) Hy) as [Hold|(r & t & Hp & Hd & <-)]; [|left; by apply (on_path_private r)].
    destruct (proj1 (lv_owns _ _ _ _ _ L g Hg) (conj Hold Hn)) as [[-> |i r t Hi Hr' Hd ->|a page attrs Hi Hl Hus ->]|HEg].
    + left. by apply held_top.
    + left. apply (held_table _ _ _ _ _ i r t); try done. by apply (ev_path _ _ _ _ He).
    + destruct (decide (same_page va a)) as [Hsp|Hnp]; [by apply (Hlost a page attrs)|].
      left. apply (held_page _ _ _ _ _ a page attrs); try done. by rewrite (ev_leaf _ _ _ _ He) by auto.
    + by apply HE.
Qed.
End evolving.
End alive.

(** ** The operations on a program's pages *)

Lemma leaf_same_page m root a b : same_page a b -> leaf m root a = leaf m root b.
Proof.
  intros [Hp Hi]. unfold leaf. rewrite Hp, Hi. destruct (descend m root (pt_path b)); [done|].
  unfold pt_path in Hp. injection Hp as E4 E3 E2. unfold pd_path. by rewrite E4, E3, E2.
Qed.

Lemma unmapped_leaf v va :
  vmm_wf (space_pml4 s) v -> vmm_is_mapped_in v s va = false -> leaf (vm_mem v) (space_pml4 s) va = None.
Proof.
  intros [Hw _]. rewrite is_mapped_walk by done. intros Hn%bool_decide_eq_false.
  pose proof (walk_leaf _ _ _ va Hw) as Hl. destruct (leaf _ _ va) as [[page attrs]|]; [|done].
  destruct Hl as (w & u & E & _). destruct Hn. by rewrite E.
Qed.

Lemma space_root : aligned s -> space_pml4 s = s.
Proof. intros [Hm Hb]. unfold PMM_MAX_MEMORY in Hb. apply table_addr_page; [lia|done]. Qed.

(** The frame of the page that user code finds at [va], if there is one. *)
Definition user_frame v va : list Z :=
  match leaf (vm_mem v) s va with
  | Some (page, attrs) => if has attrs PAGE_USER then [frame_of page] else []
  | None => []
  end.

Lemma user_frame_spec v va g :
  g ∈ user_frame v va <-> exists page attrs, leaf (vm_mem v) s va = Some (page, attrs) /\
    has attrs PAGE_USER = true /\ g = frame_of page.
Proof.
  unfold user_frame. destruct (leaf (vm_mem v) s va) as [[page attrs]|].
  - destruct (has attrs PAGE_USER) eqn:Hu.
    + rewrite list_elem_of_singleton. split; [intros ->; by exists page, attrs|]. by intros (? & ? & [= <- <-] & _ & ->).
    + split; [by intros ?%elem_of_nil|]. intros (? & ? & [= <- <-] & Hx & _). congruence.
  - split; [by intros ?%elem_of_nil|]. by intros (? & ? & ? & _).
Qed.

Lemma lives_ext E E' v : (forall g, E g <-> E' g) -> lives k v0 s E v -> lives k v0 s E' v.
Proof. intros He [A B C D F G Ho]. split; try done. intros g Hg. by rewrite (Ho g Hg), He. Qed.

Lemma same_page_private va a : same_page va a -> private m0 k (pml4_index va) -> private m0 k (pml4_index a).
Proof. intros [Hp _]. unfold pt_path in Hp. injection Hp as -> _ _. done. Qed.

(** Mapping a new frame at a private address: the page that was there is lost. *)
Lemma lives_map E v f va flags :
  lives k v0 s (fun g => E g \/ g = frame_of f) v -> aligned f -> private m0 k (pml4_index va) ->
  has flags PAGE_USER = true ->
  let (v', r) := vmm_map_page_in v s va f flags in
  (r = 0 /\ lives k v0 s (fun g => E g \/ g ∈ user_frame v va) v') \/
  (r = -1 /\ lives k v0 s (fun g => E g \/ g = frame_of f) v' /\ forall a, leaf (vm_mem v') s a = leaf (vm_mem v) s a).
Proof.
  intros L Hf Hpriv Hus. pose proof (space_root (proj1 (lv_frame _ _ _ _ _ L))) as Es.
  pose proof (lv_wf _ _ _ _ _ L) as Hw. rewrite <- Es in Hw.
  pose proof (map_page_spec v s va f flags Hw) as Hm. pose proof (map_page_local v s va f flags Hw) as Hlo.
  cbv zeta in Hm. rewrite Es in Hm, Hlo. destruct (vmm_map_page_in v s va f flags) as [v' r].
  destruct Hm as [He [[-> _]|[-> Hup]]]; [right|left]; split; try done.
  - assert (Hl : forall a, leaf (vm_mem v') s a = leaf (vm_mem v) s a) by (intros a; by apply (ev_leaf _ _ _ _ He)).
    split; [|exact Hl]. apply (lives_evolve _ v L _ va _ v' He Hlo Hpriv); auto.
    + intros a page attrs Hsp Hu. rewrite Hl. intros Hla. left.
      apply (held_page _ _ _ _ _ a page attrs); [by apply (same_page_private va)|done..].
    + intros a page attrs Hsp Hu. rewrite <- Hl. intros Hla. left.
      apply (held_page _ _ _ _ _ a page attrs); [by apply (same_page_private va)|done..].
  - assert (Ef : table_addr f = f) by (destruct Hf as [Hfm Hfb]; unfold PMM_MAX_MEMORY in Hfb; apply table_addr_page; [lia|done]).
    rewrite Ef in Hup. apply user_page_leaf in Hup.
    apply (lives_evolve _ v L _ va _ v' He Hlo Hpriv); auto; try done.
    + intros a page attrs Hsp _. rewrite <- (leaf_same_page _ _ va a), Hup by done. intros [= <- _]. right. by right.
    + intros a page attrs Hsp Hu Hl. right. right. apply user_frame_spec. exists page, attrs.
      by rewrite (leaf_same_page _ _ va a).
    + intros g [Hg| ->]; [by right; left|]. left. apply (held_page _ _ _ _ _ va f (map_attrs flags)); [done|done| |done].
      unfold map_attrs. by rewrite has_land.
    + intros g [Hg|Hg]; [by right; left|]. left. apply user_frame_spec in Hg as (page & attrs & Hl & Hu & ->).
      by apply (held_page _ _ _ _ _ va page attrs).
Qed.

(** Where nothing was mapped, nothing is lost. *)
Lemma user_frame_none v va : leaf (vm_mem v) s va = None -> user_frame v va = [].
Proof. intros Hn. unfold user_frame. by rewrite Hn. Qed.

(** A frame taken from the allocator and filled. *)
Lemma lives_take E v p' m2 f :
  lives k v0 s E v -> aligned f -> is_used (vm_pmm v) (frame_of f) = false -> pmm_wf p' ->
  (forall g, 0 <= g -> is_used p' g = (frame_of f =? g) || is_used (vm_pmm v) g) ->
  only_differ (vm_mem v) m2 f 4096 ->
  lives k v0 s (fun g => E g \/ g = frame_of f) (with_mem (with_pmm v p') m2) /\
  is_used (vm_pmm v0) (frame_of f) = false.
Proof.
  intros L Hf Hfree Hp Hus Hm.
  assert (Hnew : is_used (vm_pmm v0) (frame_of f) = false).
  { destruct (is_used (vm_pmm v0) (frame_of f)) eqn:Eu; [|done].
    rewrite (lv_used _ _ _ _ _ L) in Hfree; [done|apply aligned_frame, Hf|done]. }
  split; [|done]. pose proof (lives_alloc _ _ L p' f Hf Hfree Hp Hus) as L1.
  apply (lives_write _ _ L1) with (f := f); [done|done|done|].
  intros r t Hr Hd ->. destruct (wf_table _ _ _ (proj1 (lv_wf _ _ _ _ _ L)) r f Hr Hd). congruence.
Qed.

(** The frames lost to the space when the page at [va] is loaded with result [r]: the
    page that was there, or, where the tables cannot be made, the frame just taken. *)
Definition load_loses v va (r : Z) : list Z :=
  if r =? 0 then user_frame v va
  else let f := (pmm_alloc_frame (vm_pmm v)).2 in if f =? 0 then [] else [frame_of f].

(** A segment page, as the loader maps and fills it. *)
Lemma lives_load_page E v data ph seg va v' r :
  lives k v0 s E v -> private m0 k (pml4_index va) -> 0 <= va -> va + 4096 < 18446744073709551616 ->
  0 <= seg -> load_page v s data ph seg va = (v', r) ->
  lives k v0 s (fun g => E g \/ g ∈ load_loses v va r) v'.
Proof.
  intros L Hpriv Hva Hend Hseg. pose proof (space_root (proj1 (lv_frame _ _ _ _ _ L))) as Es.
  pose proof (lv_wf _ _ _ _ _ L) as Hw. unfold load_page, map_fresh_page, load_loses.
  destruct (vmm_alloc_cases v s Hw) as [[-> Hno]|(p' & f & -> & Hf0 & Hf & Hfree & Hp' & Hus)].
  { intros [= <- <-]. replace (with_pmm v (vm_pmm v)) with v by by destruct v.
    apply (lives_ext E); [|done]. intros g. split; [by left|]. by intros [?|?%elem_of_nil]. }
  cbn [snd]. replace (f =? 0) with false by lia. cbn [vm_mem with_pmm].
  pose proof (fill8_only_differ (vm_mem v) f PAGE_SIZE_4K 0) as Hfill.
  generalize dependent (fill8 (vm_mem v) f PAGE_SIZE_4K 0). intros m2 Hm2. unfold PAGE_SIZE_4K in Hm2.
  destruct (lives_take E v p' m2 f L Hf Hfree Hp' Hus Hm2) as [L1 Hnew].
  pose proof (own_frame_alloc s v p' f Hw Hf Hfree Hus) as O0.
  pose proof (evolves_alloc s v p' f Hw Hp' Hus) as E0.
  destruct (own_frame_write _ _ _ _ _ m2 E0 O0 Hm2) as (E1 & O1 & _).
  change (if has (p_flags ph) PF_W then Z.lor VMM_USER VMM_WRITABLE else VMM_USER) with (segment_flags ph).
  assert (Hu : has (segment_flags ph) PAGE_USER = true) by (unfold segment_flags; by destruct (has (p_flags ph) PF_W)).
  set (v1 := with_mem (with_pmm v p') m2) in *.
  assert (Euf : user_frame v1 va = user_frame v va) by (unfold user_frame; by rewrite (ev_leaf _ _ _ _ E1)).
  pose proof (lives_map E v1 f va (segment_flags ph) L1 Hf Hpriv Hu) as Hm. rewrite Euf in Hm.
  pose proof (map_page_spec v1 s va f (segment_flags ph)) as Hsp. cbv zeta in Hsp. rewrite Es in Hsp.
  specialize (Hsp (evolves_wf _ _ _ _ E1)).
  destruct (vmm_map_page_in v1 s va f (segment_flags ph)) as [v2 q]. destruct Hsp as [E2 _].
  destruct Hm as [[-> L2]|(-> & L2 & _)]; cbn [Z.eqb negb].
  - replace (f =? 0) with false by lia. intros [= <- <-].
    apply (lives_write _ v2 L2 _ f); [by apply copy_page_only_differ|done|done|].
    exact (own_frame_no_table _ _ _ _ (own_frame_evolves _ _ _ _ _ _ E2 O1)).
  - intros [= <- <-]. cbn [Z.eqb]. apply (lives_ext (fun g => E g \/ g = frame_of f)); [|done].
    intros g. by rewrite list_elem_of_singleton.
Qed.

(** Giving back a frame that is no table and no page. *)
Lemma lives_release E v f :
  lives k v0 s (fun g => E g \/ g = frame_of f) v -> aligned f -> ~ E (frame_of f) ->
  (forall r t, path_ok r -> descend (vm_mem v) s r = Some t -> t <> f) ->
  (forall a page attrs, private m0 k (pml4_index a) -> leaf (vm_mem v) s a = Some (page, attrs) ->
     has attrs PAGE_USER = true -> frame_of page <> frame_of f) ->
  lives k v0 s E (with_pmm v (pmm_free_frame (vm_pmm v) f)).
Proof.
  intros L Hf HnE Hnt Hnp. pose proof (aligned_frame f Hf) as Hff. destruct L as [Hw Hr Hs Hu Hb Hsl Ho].
  assert (Hrel : forall g, 0 <= g -> is_used (pmm_free_frame (vm_pmm v) f) g = negb (frame_of f =? g) && is_used (vm_pmm v) g).
  { intros g Hg. unfold pmm_free_frame. destruct (decide (g < PMM_MAX_FRAMES)); [by apply is_used_set_free|].
    rewrite !is_used_out by lia. by replace (frame_of f =? g) with false by lia. }
  assert (Hnf : ~ held m0 k (vm_mem v) s (frame_of f)).
  { intros [Eg|i r t _ Hr' Hd Eg|va page attrs Hi Hl Hus Eg].
    - apply (Hnt [] s nil_path_ok eq_refl). by apply same_frame; [apply Hs| |].
    - apply (Hnt _ t Hr' Hd). destruct (wf_table _ _ _ (proj1 Hw) _ t Hr' Hd). by apply same_frame.
    - by apply (Hnp va page attrs Hi Hl Hus). }
  split; try done; cbn [vm_pmm vm_mem with_pmm].
  - destruct Hw as (Hsp & Hp & H0). split; [|split].
    + destruct Hsp as [W1 W2 W3 W4]. split; try done. intros r t Hr' Hd. destruct (W1 r t Hr' Hd) as [Ht Hut].
      split; [done|]. pose proof (aligned_frame t Ht). cbn [vm_pmm with_pmm]. rewrite Hrel, Hut by lia.
      destruct (frame_of f =? frame_of t) eqn:Et; [|done]. bool_prop. by destruct (Hnt r t Hr' Hd); apply same_frame.
    + apply pmm_free_frame_wf; [destruct Hf; lia|done].
    + cbn [vm_pmm with_pmm]. rewrite Hrel, H0 by lia. destruct Hf as [Hfm Hfb].
      assert (frame_of f <> 0) by (unfold frame_of, PMM_FRAME_SIZE; div_lia). by replace (frame_of f =? 0) with false by lia.
  - intros g Hg Hg0. rewrite Hrel, Hu by done. destruct (frame_of f =? g) eqn:Eg; [|done]. bool_prop. subst g.
    destruct (proj2 (Ho _ Hff) (or_intror (or_intror eq_refl))). congruence.
  - intros g Hg. rewrite Hrel by lia. specialize (Ho g Hg).
    destruct (frame_of f =? g) eqn:Eg; bool_prop; cbn [negb andb].
    + subst g. split; [by intros [? _]|]. by intros [?|?].
    + rewrite Ho. split; [intros [?|[?|?]]; [by left|by right|lia]|intros [?|?]; [by left|by right; left]].
Qed.

(** The handler of page faults, whatever it answers. *)
Lemma lives_fault E mc a mc' r :
  lives k v0 s E (mc_vmm mc) -> vmm_current_address_space (mc_vmm mc) = s ->
  private m0 k (pml4_index (Z.land a (U64_MAX -64 (4096 - 1)))) ->
  vmm_handle_page_fault mc a = Some (mc', r) -> lives k v0 s E (mc_vmm mc').
Proof.
  intros L Hcur Hpriv. unfold vmm_handle_page_fault. rewrite Hcur. set (page := Z.land a _) in *.
  destruct (find_region mc s page) as [reg|]; [|done]. cbn [mbind option_bind].
  destruct (reg =? 0); [by intros [= <- _]|].
  pose proof (space_root (proj1 (lv_frame _ _ _ _ _ L))) as Es. set (v := mc_vmm mc) in *.
  pose proof (lv_wf _ _ _ _ _ L) as Hw.
  destruct (vmm_is_mapped_in v s page) eqn:Hnm; [by intros [= <- _]|].
  apply unmapped_leaf in Hnm; [|by rewrite Es]. rewrite Es in Hnm. unfold mc_mem. fold v.
  unfold pmm_alloc_zeroed_frame.
  destruct (vmm_alloc_cases v s Hw) as [[-> Hno]|(p' & f & -> & Hf0 & Hf & Hfree & Hp' & Hus)].
  { cbn. intros [= <- _]. cbn [mc_vmm set_vmm]. by destruct v. }
  replace (f =? 0) with false by lia. cbv zeta.
  pose proof (fill8_only_differ (vm_mem v) f PMM_FRAME_SIZE 0) as Hfill.
  generalize dependent (fill8 (vm_mem v) f PMM_FRAME_SIZE 0). intros m2 Hm2. unfold PMM_FRAME_SIZE in Hm2.
  replace (f =? 0) with false by lia.
  destruct (lives_take E v p' m2 f L Hf Hfree Hp' Hus Hm2) as [L1 Hnew].
  pose proof (own_frame_alloc s v p' f Hw Hf Hfree Hus) as O0.
  destruct (own_frame_write _ _ _ _ _ m2 (evolves_alloc s v p' f Hw Hp' Hus) O0 Hm2) as (E1 & O1 & _).
  set (v1 := with_mem (with_pmm v p') m2) in *.
  assert (Hl1 : forall b, leaf (vm_mem v1) s b = leaf (vm_mem v) s b) by (intros b; by apply (ev_leaf _ _ _ _ E1)).
  assert (Hnone : leaf (vm_mem v1) s page = None) by (by rewrite Hl1).
  pose proof (lives_map E v1 f page (Z.lor VMM_WRITABLE VMM_USER) L1 Hf Hpriv eq_refl) as Hm.
  rewrite (user_frame_none _ _ Hnone) in Hm.
  pose proof (map_page_spec v1 s page f (Z.lor VMM_WRITABLE VMM_USER)) as Hsp. cbv zeta in Hsp. rewrite Es in Hsp.
  specialize (Hsp (evolves_wf _ _ _ _ E1)).
  destruct (vmm_map_page_in v1 s page f (Z.lor VMM_WRITABLE VMM_USER)) as [v2 q]. destruct Hsp as [E2 _].
  destruct Hm as [[-> L2]|(-> & L2 & Hl2)]; cbn [Z.eqb negb]; intros [= <- _].
  { apply (lives_ext (fun g => E g \/ g ∈ [])); [|exact L2]. intros g. split; [by intros [?|?%elem_of_nil]|by left]. }
  cbn [mc_vmm set_vmm]. apply lives_release; [done|done| | |].
  - intros HEf. destruct (proj2 (lv_owns _ _ _ _ _ L _ (aligned_frame f Hf)) (or_intror HEf)). congruence.
  - exact (own_frame_no_table _ _ _ _ (own_frame_evolves _ _ _ _ _ _ E2 O1)).
  - intros b pg attrs Hb Hl Hu2 Eg. rewrite Hl2, Hl1 in Hl.
    assert (Hh : held m0 k (vm_mem v) s (frame_of f)) by (by apply (held_page _ _ _ _ _ b pg attrs)).
    destruct (proj2 (lv_owns _ _ _ _ _ L _ (aligned_frame f Hf)) (or_introl Hh)). congruence.
Qed.
End lives.

(** ** The life of a space *)

(** What the kernel does for a program between the making of its space and its end:
    load a page of a segment, with any result and whatever is mapped there, answer a
    page fault, switch to another space.  Beside the machine it keeps the frames that
    are lost on the way.  Addresses in a slot of the top table that the kernel uses are
    left out: [elf_loader.c] loads there too when the file asks for it, which changes
    the tables that every space shares. *)
Inductive space_step (m0 : mem) (k s : Z) : machine * list Z -> machine * list Z -> Prop :=
  | step_load mc lost data ph seg va v' r :
      private m0 k (pml4_index va) -> 0 <= va -> va + 4096 < 18446744073709551616 -> 0 <= seg ->
      load_page (mc_vmm mc) s data ph seg va = (v', r) ->
      space_step m0 k s (mc, lost) (set_vmm mc v', lost ++ load_loses s (mc_vmm mc) va r)
  | step_fault mc lost a mc' r :
      vmm_current_address_space (mc_vmm mc) = s ->
      private m0 k (pml4_index (Z.land a (U64_MAX -64 (4096 - 1)))) ->
      vmm_handle_page_fault mc a = Some (mc', r) -> space_step m0 k s (mc, lost) (mc', lost)
  | step_switch mc lost space :
      space_step m0 k s (mc, lost) (set_vmm mc (vmm_switch_address_space (mc_vmm mc) space), lost).

(** The space of a machine, with the lost frames. *)
Definition lives_with (k : Z) (v0 : vmm) (s : Z) (x : machine * list Z) : Prop :=
  lives k v0 s (fun g => g ∈ x.2) (mc_vmm x.1).

Lemma lives_steps k v0 s x y :
  rtc (space_step (vm_mem v0) k s) x y -> lives_with k v0 s x -> lives_with k v0 s y.
Proof.
  intros Hr. induction Hr as [x|x y z Hs _ IH]; [done|]. intros L. apply IH. clear IH. unfold lives_with in *.
  destruct Hs as [mc lost data ph seg va v' r Hp H0 H1 H2 Hl|mc lost a mc' r Hc Hp Hf|mc lost space]; cbn [fst snd] in *.
  - pose proof (lives_load_page k v0 s _ (mc_vmm mc) data ph seg va v' r L Hp H0 H1 H2 Hl) as L'.
    apply (lives_ext k v0 s _ (fun g => g ∈ lost ++ load_loses s (mc_vmm mc) va r)) in L'; [exact L'|].
    intros g. by rewrite elem_of_app.
  - by apply (lives_fault k v0 s _ mc a mc' r).
  - destruct L as [A B C D F G I]. by split.
Qed.

Lemma lives_started k v0 s v : lives k v0 s nothing v -> lives k v0 s (fun g => g ∈ []) v.
Proof. apply lives_ext. intros g. split; [done|]. by intros ?%elem_of_nil. Qed.

(** The kernel's tables and everything that was in use when the space was made. *)
Definition kernel_kept (k : Z) (v0 v : vmm) : Prop :=
  (forall a, 0 <= a -> is_used (vm_pmm v0) (frame_of a) = true -> ld8 (vm_mem v) a = ld8 (vm_mem v0) a) /\
  forall va, walk (vm_mem v) k va = walk (vm_mem v0) k va.

Lemma kernel_entries_kept k v0 (m : mem) :
  vmm_wf k v0 ->
  (forall a, 0 <= a -> is_used (vm_pmm v0) (frame_of a) = true -> ld8 m a = ld8 (vm_mem v0) a) ->
  forall r t i, path_ok r -> descend (vm_mem v0) k r = Some t -> index_ok i -> entry m t i = entry (vm_mem v0) t i.
Proof.
  intros [Hw _] Hb r t i Hr Hd Hi. unfold entry. apply ld64_ext. intros a Ha.
  destruct (wf_table _ _ _ Hw r t Hr Hd) as [[Hm Hbd] Hu]. unfold index_ok, ENTRIES_PER_TABLE in Hi.
  apply Hb; [lia|]. replace (frame_of a) with (frame_of t); [done|]. unfold frame_of, PMM_FRAME_SIZE. div_lia.
Qed.

Lemma kernel_walk_kept k v0 (m : mem) :
  vmm_wf k v0 ->
  (forall a, 0 <= a -> is_used (vm_pmm v0) (frame_of a) = true -> ld8 m a = ld8 (vm_mem v0) a) ->
  forall va, walk m k va = walk (vm_mem v0) k va.
Proof.
  intros Hw Hb va. pose proof (kernel_entries_kept k v0 m Hw Hb) as E.
  apply walk_ext; [exact (E [] k _ nil_path_ok eq_refl (pml4_index_ok va))|]. intros r t i _. apply E.
Qed.

(** Every step of the way: the space translates kernel slots as the kernel does, and
    gives user code nothing but frames that were free when it was made. *)
Definition isolated (k : Z) (v0 : vmm) (s : Z) (v : vmm) : Prop :=
  (forall va, has (entry (vm_mem v0) k (pml4_index va)) PAGE_PRESENT = true ->
     walk (vm_mem v) s va = walk (vm_mem v0) k va) /\
  (forall va pa w, has (entry (vm_mem v0) k (pml4_index va)) PAGE_PRESENT = false ->
     walk (vm_mem v) s va = Some (pa, w, true) -> pa < PMM_MAX_MEMORY ->
     is_used (vm_pmm v0) (frame_of pa) = false).

Lemma lives_isolated k v0 s X v : vmm_wf k v0 -> lives k v0 s X v -> isolated k v0 s v /\ kernel_kept k v0 v.
Proof.
  intros Hw L. pose proof (kernel_entries_kept k v0 (vm_mem v) Hw (lv_bytes _ _ _ _ _ L)) as E.
  split; [split|split; [exact (lv_bytes _ _ _ _ _ L)|by apply kernel_walk_kept, L]].
  - intros va Hp. apply walk_ext; [by apply (lv_slots _ _ _ _ _ L); auto with vmm|]. intros r t i _. apply E.
  - intros va pa w Hp Hwk Hpa. pose proof (proj1 (lv_wf _ _ _ _ _ L)) as Hs.
    pose proof (walk_leaf _ _ _ va Hs) as Hl. destruct (leaf (vm_mem v) s va) as [[page attrs]|] eqn:El; [|congruence].
    destruct Hl as (w' & u & Hwk' & _ & Hu). rewrite Hwk in Hwk'. injection Hwk' as -> _ <-. specialize (Hu eq_refl).
    destruct (user_leaf_entry _ _ _ Hs va page attrs El Hu) as (pt & _ & _ & Epg).
    pose proof (table_addr_mod (entry (vm_mem v) pt (pt_index va))) as Hm.
    pose proof (table_addr_bounds (entry (vm_mem v) pt (pt_index va))) as Hb. rewrite <- Epg in Hm, Hb. clear Epg.
    assert (Ef : frame_of (page + va mod 4096) = frame_of page) by (unfold frame_of, PMM_FRAME_SIZE; div_lia).
    rewrite Ef. apply (lv_owns _ _ _ _ _ L); [frames; div_lia|].
    left. apply (held_page _ _ _ _ _ va page attrs); [split; [auto with vmm|done]|done|done|done].
Qed.

(** C37: Whatever pages are loaded into the slots of the top table that the kernel does
    not use, with whatever result and over whatever is there, whatever faults there and
    whatever space is switched to, an address space gives user code at addresses in
    those slots only frames that were free when the space was made (as far as the
    allocator counts frames, below 4 GiB); addresses in the kernel's slots are translated in it exactly as the kernel's own tables do (so user
    code reaches there what those tables open to it, and no more); and those tables and
    all memory that was in use stay as they were.  Loads at addresses in the kernel's
    slots, which [elf_loader.c] does not refuse, are not covered. *)
Theorem address_space_isolated v0 mc s x :
  let k := kernel_pml4 v0 in
  vmm_wf k v0 -> vmm_create_address_space v0 = (mc_vmm mc, s) -> s <> 0 ->
  rtc (space_step (vm_mem v0) k s) (mc, []) x ->
  isolated k v0 s (mc_vmm x.1) /\ kernel_kept k v0 (mc_vmm x.1).
Proof.
  intros k Hw Hc Hs Hr. pose proof (create_spec v0 Hw) as Hcr. rewrite Hc in Hcr.
  destruct Hcr as [[? _]|[_ Hcl]]; [done|].
  apply (lives_isolated _ _ _ (fun g => g ∈ x.2)); [done|].
  apply (lives_steps _ _ _ _ _ Hr), lives_started. by apply lives_created.
Qed.

(** The end of such a space. *)
Lemma destroy_spec k v0 s X v :
  kernel_pml4 v0 = k -> vmm_wf k v0 -> lives k v0 s X v ->
  let v' := vmm_destroy_address_space v s in
  (forall g, 0 <= g -> is_used (vm_pmm v0) g = true -> is_used (vm_pmm v') g = true) /\
  (forall g, 0 <= g -> is_used (vm_pmm v') g = true -> is_used (vm_pmm v0) g = true \/ X g) /\
  pmm_wf (vm_pmm v') /\ vm_mem v' = vm_mem v /\ kernel_pml4 v' = k.
Proof.
  intros Hk0 Hw L v'. destruct (lv_frame _ _ _ _ _ L) as [Hs Hnew]. pose proof (lv_regs _ _ _ _ _ L) as Hk.
  pose proof (kernel_entries_kept k v0 (vm_mem v) Hw (lv_bytes _ _ _ _ _ L) [] k) as E.
  assert (Ek : forall i, index_ok i -> entry (vm_mem v) k i = entry (vm_mem v0) k i) by (intros i; apply E; [apply nil_path_ok|done]).
  assert (Hne : s <> k).
  { intros ->. destruct (wf_table _ _ _ (proj1 Hw) [] k nil_path_ok eq_refl). congruence. }
  destruct (destroy_frees v s (proj1 (lv_wf _ _ _ _ _ L)) Hs) as ([Hwf Hfr] & Hm & Hk' & _); rewrite ?Hk; [done| |].
  { intros i Hi Hp. rewrite Ek in Hp |- * by done. by apply (lv_slots _ _ _ _ _ L). }
  fold v' in Hwf, Hfr, Hm, Hk'. rewrite Hk in Hfr, Hk'.
  assert (Hheld : forall g, held (vm_mem v) k (vm_mem v) s g <-> held (vm_mem v0) k (vm_mem v) s g).
  { intros g. split; (intros [Eg|i r t [Hi Hp] Hr Hd Eg|va page attrs [Hi Hp] Hl Hus Eg];
      [by apply held_top|apply (held_table _ _ _ _ _ i r t)|apply (held_page _ _ _ _ _ va page attrs)]);
      try done; split; try done; by rewrite Ek in *. }
  assert (Hin : forall g, 0 <= g -> g < PMM_MAX_FRAMES \/ (is_used (vm_pmm v0) g = true /\ is_used (vm_pmm v') g = true)).
  { intros g Hg. destruct (decide (g < PMM_MAX_FRAMES)); [by left|]. rewrite !is_used_out by lia. by right. }
  split; [|split; [|split; [apply Hwf, (lv_wf _ _ _ _ _ L)|done]]]; intros g Hg Hu; destruct (Hin g Hg) as [Hlt|[H1 H2]]; auto.
  - apply (Hfr g (conj Hg Hlt)). split; [by apply (lv_used _ _ _ _ _ L)|]. intros Hh%Hheld.
    destruct (proj2 (lv_owns _ _ _ _ _ L g (conj Hg Hlt)) (or_introl Hh)). congruence.
  - apply (Hfr g (conj Hg Hlt)) in Hu as [Hy Hn]. destruct (is_used (vm_pmm v0) g) eqn:E0; [by left|right].
    destruct (proj1 (lv_owns _ _ _ _ _ L g (conj Hg Hlt)) (conj Hy E0)) as [Hh|]; [|done]. by apply Hheld in Hh.
Qed.

(** C38: Destroying an address space undoes making it, after any such run of loads, page
    faults and switches: every frame that was in use before is in use again, so none of
    the kernel's is released; of the others only those are still in use that the run
    has lost, which are the frame of a page load that fails for want of a table and the
    page that a load replaces; so a run of loads that succeed on pages not mapped before
    gives back every frame; and the kernel's memory and translations are as before. *)
Theorem address_space_returns_frames v0 mc s mc' lost :
  let k := kernel_pml4 v0 in
  vmm_wf k v0 -> vmm_create_address_space v0 = (mc_vmm mc, s) -> s <> 0 ->
  rtc (space_step (vm_mem v0) k s) (mc, []) (mc', lost) ->
  let v' := vmm_destroy_address_space (mc_vmm mc') s in
  (forall g, 0 <= g -> is_used (vm_pmm v0) g = true -> is_used (vm_pmm v') g = true) /\
  (forall g, 0 <= g -> is_used (vm_pmm v') g = true -> is_used (vm_pmm v0) g = true \/ g ∈ lost) /\
  (lost = [] -> same_frames (vm_pmm v0) (vm_pmm v') /\ pmm_free_frames (vm_pmm v') = pmm_free_frames (vm_pmm v0)) /\
  kernel_kept k v0 v'.
Proof.
  intros k Hw Hc Hs Hr v'. pose proof (create_spec v0 Hw) as Hcr. rewrite Hc in Hcr.
  destruct Hcr as [[? _]|[_ Hcl]]; [done|].
  pose proof (lives_steps _ _ _ _ _ Hr (lives_started _ _ _ _ (lives_created _ _ _ _ eq_refl Hcl))) as L.
  destruct (destroy_spec k v0 s _ (mc_vmm mc') eq_refl Hw L) as (Hin & Hout & Hwf & Hm & _). fold v' in Hin, Hout, Hwf, Hm.
  destruct (lives_isolated _ _ _ _ _ Hw L) as [_ [Hb _]]. cbn [fst snd] in *. rewrite <- Hm in Hb.
  split; [done|]. split; [done|]. split; [|split; [done|by apply kernel_walk_kept]].
  intros ->. assert (Hsame : same_frames (vm_pmm v0) (vm_pmm v')).
  { intros g Hg. specialize (Hin g Hg). specialize (Hout g Hg).
    destruct (is_used (vm_pmm v') g), (is_used (vm_pmm v0) g); try done; [|by specialize (Hin eq_refl)].
    by destruct (Hout eq_refl) as [?|?%elem_of_nil]. }
  split; [done|]. destruct Hwf as [Hc1 _]. destruct Hw as (_ & [Hc0 _] & _). unfold pmm_free_frames. rewrite Hc1, Hc0.
  unfold free_count. apply count_if_ext. intros g Hg. by rewrite Hsame by lia.
Qed.

(** ** One page of a program in a new space *)

Definition demo_space : Z := (vmm_create_address_space demo_vmm).2.
Definition demo_born : machine := mk_machine (vmm_create_address_space demo_vmm).1 0 0.
Definition demo_switched : machine := set_vmm demo_born (vmm_switch_address_space (mc_vmm demo_born) demo_space).
Definition demo_segment : elf64_phdr_t := mk_phdr PT_LOAD 2 0 549755813888 16 16.
Definition demo_loaded : vmm * Z :=
  load_page (mc_vmm demo_switched) demo_space demo_data demo_segment 549755813888 549755813888.
Definition demo_grown : machine := set_vmm demo_switched demo_loaded.1.

Example demo_space_frame : demo_space = 1048576 /\ demo_loaded.2 = 0.
Proof. vm_compute. split; reflexivity. Qed.

Lemma demo_created : vmm_create_address_space demo_vmm = (mc_vmm demo_born, demo_space).
Proof. unfold demo_born, demo_space. cbn [mc_vmm]. destruct (vmm_create_address_space demo_vmm). reflexivity. Qed.

Lemma demo_space_ok : demo_space <> 0.
Proof. rewrite (proj1 demo_space_frame). discriminate. Qed.

Lemma demo_life : rtc (space_step (vm_mem demo_vmm) demo_root demo_space) (demo_born, []) (demo_grown, []).
Proof.
  apply rtc_l with (demo_switched, []); [apply step_switch|]. apply rtc_once. unfold demo_grown.
  assert (Hl : load_loses demo_space (mc_vmm demo_switched) 549755813888 0 = []) by by vm_compute.
  assert (Hpr : private (vm_mem demo_vmm) demo_root (pml4_index 549755813888)).
  { split; [vm_compute; split; [discriminate|reflexivity]|]. by vm_compute. }
  assert (Hld : load_page (mc_vmm demo_switched) demo_space demo_data demo_segment 549755813888 549755813888 = (demo_loaded.1, 0)).
  { fold demo_loaded. rewrite <- (proj2 demo_space_frame). destruct demo_loaded. reflexivity. }
  pose proof (step_load (vm_mem demo_vmm) demo_root demo_space demo_switched [] demo_data demo_segment 549755813888
    549755813888 demo_loaded.1 0 Hpr ltac:(lia) ltac:(lia) ltac:(lia) Hld) as Hst.
  rewrite Hl in Hst. exact Hst.
Qed.

Lemma address_space_isolated_witness :
  isolated demo_root demo_vmm demo_space (mc_vmm demo_grown) /\ kernel_kept demo_root demo_vmm (mc_vmm demo_grown).
Proof.
  exact (address_space_isolated demo_vmm demo_born demo_space (demo_grown, []) demo_vmm_wf demo_created demo_space_ok demo_life).
Defined.

Lemma address_space_returns_frames_witness :
  let v' := vmm_destroy_address_space (mc_vmm demo_grown) demo_space in
  same_frames demo_pmm (vm_pmm v') /\ pmm_free_frames (vm_pmm v') = pmm_free_frames demo_pmm.
Proof.
  exact (proj1 (proj2 (proj2 (address_space_returns_frames demo_vmm demo_born demo_space demo_grown [] demo_vmm_wf
    demo_created demo_space_ok demo_life))) eq_refl).
Defined.
