(* ===== verification/VmmInit.v ===== *)
(** The start of paging, [vmm_init] of [kernel/mm/vmm.c]: every usable byte of the
    memory map becomes reachable at its own address, and nothing that was reachable
    before moves. *)
From S2P Require Import Prelude Mem Pmm Vmm VmmSpec VmmFrame.

(** * One large page *)

(** The entry that [map_2mb_identity] writes. *)
Definition large_entry (pa : Z) : Z := Z.lor (Z.lor (Z.lor pa PAGE_PRESENT) PAGE_WRITABLE) PAGE_SIZE_2MB.

Lemma large_entry_bits pa :
  0 <= pa < 2 ^ 48 -> pa mod PAGE_2MB_SIZE = 0 ->
  let e := u64 (large_entry pa) in
  has e PAGE_PRESENT = true /\ has e PAGE_SIZE_2MB = true /\ has e PAGE_USER = false /\
  table_addr e = pa /\ Z.land e PAGE_ATTRS = VMM_WRITABLE.
Proof.
  intros Hpa Hal e. assert (Hm : pa mod 4096 = 0) by (unfold PAGE_2MB_SIZE in Hal; clear e; div_lia).
  assert (He : e = Z.lor pa 0x83).
  { unfold e, large_entry. rewrite <- !Z.lor_assoc. change (Z.lor PAGE_PRESENT (Z.lor PAGE_WRITABLE PAGE_SIZE_2MB)) with 0x83.
    apply u64_small. apply (lor_bound pa 0x83 64); lia. }
  rewrite He, !has_lor, !(has_page pa) by (done || unfold PAGE_PRESENT, PAGE_SIZE_2MB, PAGE_USER; lia).
  split; [done|]. split; [done|]. split; [done|]. split.
  - rewrite table_addr_lor by (apply table_addr_low; lia). apply table_addr_page; [lia|done].
  - rewrite Z.land_lor_distr_l, land_page by (done || unfold PAGE_ATTRS; lia). done.
Qed.

(** A large page entered where the directory had nothing. *)
Section large.
Context (v : vmm) (root va pd e : Z).
Context (Hw : vmm_wf root v) (Hd : descend (vm_mem v) root (pd_path va) = Some pd).
Context (Hold : has (entry (vm_mem v) pd (pd_index va)) PAGE_PRESENT = false).
Context (Hp : has (u64 e) PAGE_PRESENT = true) (Hb : has (u64 e) PAGE_SIZE_2MB = true)
  (Hu : has (u64 e) PAGE_USER = false) (Hal : table_addr (u64 e) mod PAGE_2MB_SIZE = 0).
#[local] Abbreviation m := (vm_mem v).
#[local] Abbreviation m' := (set_entry (vm_mem v) pd (pd_index va) e).

Lemma large_link : link (u64 e) = link (entry m pd (pd_index va)).
Proof using Hold Hp Hb. unfold link. by rewrite Hold, Hp, Hb. Qed.

Lemma large_descend r : path_ok r -> descend m' root r = descend m root r.
Proof using Hw Hd Hold Hp Hb.
  apply (descend_same_link _ m root (proj1 Hw) (pd_path va)); auto with vmm. intros _. apply large_link.
Qed.

Lemma large_entries r t j :
  path_ok r -> descend m root r = Some t -> index_ok j ->
  entry m' t j = if decide (r = pd_path va /\ j = pd_index va) then u64 e else entry m t j.
Proof using Hw Hd. apply (entry_same_link _ m root (proj1 Hw) (pd_path va)); auto with vmm. Qed.

Lemma large_wf : space_wf (vm_pmm v) m' root.
Proof using Hw Hd Hold Hp Hb Hu Hal.
  pose proof (proj1 Hw) as Hs. split.
  - intros r t Hr. rewrite large_descend by done. by apply (wf_table _ _ _ Hs).
  - intros r r' t Hr Hr'. rewrite !large_descend by done. by apply (wf_inj _ _ _ Hs).
  - intros r t j Hr Hl Hj. rewrite large_descend by done. intros Ht. rewrite (large_entries r) by done.
    case_decide as E; [destruct E as [-> _]; simpl in Hl; lia|]. by apply (wf_upper _ _ _ Hs r).
  - intros r t j Hr Hl Hj. rewrite large_descend by done. intros Ht. rewrite (large_entries r) by done.
    case_decide; [by split|]. by apply (wf_large _ _ _ Hs r).
Qed.

Lemma large_none a : pt_path a = pt_path va -> descend m root (pt_path a) = None /\ descend m root (pd_path a) = Some pd /\ pd_index a = pd_index va.
Proof using Hd Hold.
  intros E. unfold pt_path in E. injection E as E4 E3 E2. unfold pt_path, pd_path. rewrite E4, E3, E2.
  change [pml4_index va; pdpt_index va; pd_index va] with (pd_path va ++ [pd_index va]).
  rewrite descend_snoc. fold (pd_path va). rewrite Hd. cbn [mbind option_bind]. by rewrite link_none.
Qed.

Lemma large_leaf a :
  leaf m' root a =
    if decide (pt_path a = pt_path va)
    then Some (table_addr (u64 e) + pt_index a * PAGE_4KB_SIZE, Z.land (u64 e) PAGE_ATTRS) else leaf m root a.
Proof using Hw Hd Hold Hp Hb.
  case_decide as E.
  - destruct (large_none a E) as (Hn & Hpd & Ei). unfold leaf. rewrite !large_descend, Hn, Hpd by auto with vmm.
    cbn [mbind option_bind]. rewrite (large_entries (pd_path va)) by auto with vmm. rewrite decide_True by by split.
    unfold large_view. by rewrite Hp, Hb.
  - apply leaf_ext; [by apply large_descend; auto with vmm|by apply large_descend; auto with vmm| |].
    + intros pt Hpt. rewrite (large_entries (pt_path a)) by auto with vmm. by rewrite decide_False by by intros [? _].
    + intros pd' _ Hpd'. rewrite (large_entries (pd_path a)) by auto with vmm. rewrite decide_False; [done|].
      intros [E1 E2]. apply E. change (pt_path a) with (pd_path a ++ [pd_index a]). by rewrite E1, E2.
Qed.

Lemma evolves_large : evolves root (fun a => pt_path a <> pt_path va) v (with_mem v m').
Proof using Hw Hd Hold Hp Hb Hu Hal.
  pose proof Hw as (Hs & Hpm & H0). split; cbn [vm_pmm vm_mem with_mem]; try done.
  - apply large_wf.
  - intros a Ha. rewrite large_leaf. by rewrite decide_False.
  - intros r t Hr. by rewrite large_descend.
  - intros r t i Hr Ht [t' Hl] Hus. pose proof (path_ok_prefix r i Hr) as Hr'. apply path_ok_snoc in Hr as (_ & _ & Hi).
    rewrite (large_entries r) by done. case_decide as E; [|done]. destruct E as [-> ->].
    assert (t = pd) as -> by congruence. by rewrite link_none in Hl.
  - intros r Hr. apply (links_writable_same_link _ m root Hs (pd_path va) pd (pd_index va) e); auto with vmm.
    intros _. split; [apply large_link|]. unfold link_writable.
    rewrite large_link, (link_none (entry m pd (pd_index va))) by done. done.
  - intros r t Hr. rewrite large_descend by done. by left.
  - intros a Ha Hus Hn. apply (set_entry_only_differ _ pd (pd_index va) e); [auto with vmm|].
    apply frame_apart; [exact (table_aligned _ _ _ Hs _ pd (pd_path_ok va) Hd)|]. by apply (Hn (pd_path va)); auto with vmm.
Qed.
End large.

(** * The tables above it *)

(** No page table appears. *)
Lemma get_or_create_table_deep v root (q : list Z) (t i : Z) r :
  vmm_wf root v -> path_ok (q ++ [i]) -> (length q <= 1)%nat -> descend (vm_mem v) root q = Some t ->
  path_ok r -> length r = 3%nat ->
  let (v', _) := get_or_create_table v t i in descend (vm_mem v') root r = descend (vm_mem v) root r.
Proof.
  intros Hw Hqi Hlen Hd Hr Hr3. pose proof (path_ok_prefix q i Hqi) as Hq.
  pose proof Hqi as (_ & _ & Hi)%path_ok_snoc.
  assert (Huser : forall v1 t', vmm_wf root v1 -> descend (vm_mem v1) root q = Some t ->
    link (entry (vm_mem v1) t i) = Some t' ->
    descend (set_entry (vm_mem v1) t i (Z.lor (entry (vm_mem v1) t i) PAGE_USER)) root r = descend (vm_mem v1) root r).
  { intros v1 t' Hw1 Hd1 Hl. apply (descend_same_link _ _ root (proj1 Hw1) q); [done|done|done| |done].
    intros _. destruct (user_bit (entry (vm_mem v1) t i) (entry_bounds _ _ _)) as (-> & -> & _). done. }
  unfold get_or_create_table. destruct (has (entry (vm_mem v) t i) PAGE_PRESENT) eqn:Hpres; cbn [negb].
  - apply (Huser v (table_addr (entry (vm_mem v) t i))); [done|done|]. apply link_some; [done|].
    by apply (wf_upper _ _ _ (proj1 Hw) q).
  - destruct (vmm_alloc_cases v root Hw) as [[-> _]|(p' & f & -> & Hf0 & Hf & Hfree & Hp' & Hus)]; [done|].
    replace (f =? 0) with false by lia. cbn [vm_mem with_pmm with_mem].
    destruct (fill_table_spec (vm_mem v) f (fun _ => 0) (proj1 Hf)) as [Hm1 Hz].
    generalize dependent (fill_table (vm_mem v) f (fun _ => 0)). intros m1 Hm1 Hz.
    rewrite <- Z.lor_assoc. set (e := Z.lor f (Z.lor PAGE_PRESENT PAGE_WRITABLE)).
    destruct (frame_link f (Z.lor PAGE_PRESENT PAGE_WRITABLE) Hf ltac:(done) eq_refl eq_refl) as (Hl & Hb & Hwr). fold e in Hl, Hb, Hwr.
    assert (Hnone : link (entry (vm_mem v) t i) = None) by by apply link_none.
    assert (Hz' : (length q <= 1)%nat -> forall j, index_ok j -> entry m1 f j = 0) by (intros _ j Hj; by rewrite Hz).
    pose proof (descend_fresh _ _ root (proj1 Hw) p' m1 q t i e f Hq Hd Hi ltac:(lia) Hnone Hl Hf Hfree Hm1 Hz' Hus) as D.
    destruct (evolves_fresh v root p' m1 q t i e f) as [He Hdf]; try done; [lia|lia|].
    transitivity (descend (set_entry m1 t i e) root r).
    + change (set_entry m1 t i e) with (vm_mem (with_mem (with_pmm v p') (set_entry m1 t i e))).
      pose proof (ev_path _ _ _ _ He q t Hq Hd) as Hd2. rewrite descend_snoc, Hd2 in Hdf. cbn [mbind option_bind] in Hdf.
      by apply (Huser _ f (evolves_wf _ _ _ _ He)).
    + rewrite D by done. rewrite decide_False; [done|]. intros ->. rewrite length_app in Hr3. simpl in Hr3. lia.
Qed.

(** * One step of the loop *)

(** What entering the large page at [pa] does: the pages of its 2 MiB that were not
    mapped are now mapped to themselves, unless memory has run out. *)
Record entered (root pa : Z) (v v' : vmm) : Prop := {
  en_evolves : evolves root (fun a => pt_path a <> pt_path pa \/ leaf (vm_mem v) root a <> None) v v';
  en_tables a : descend (vm_mem v') root (pt_path a) = descend (vm_mem v) root (pt_path a);
  en_leaf a : pt_path a = pt_path pa -> leaf (vm_mem v') root a = leaf (vm_mem v) root a \/
    leaf (vm_mem v) root a = None /\ leaf (vm_mem v') root a = Some (pa + pt_index a * PAGE_4KB_SIZE, VMM_WRITABLE);
  en_covers : no_frames v' \/ (descend (vm_mem v) root (pt_path pa) = None ->
    forall a, pt_path a = pt_path pa -> is_Some (leaf (vm_mem v') root a));
}.

(** Tables may be made without a page being entered. *)
Lemma entered_tables root pa v v' :
  evolves root (fun _ => True) v v' ->
  (forall r, path_ok r -> length r = 3%nat -> descend (vm_mem v') root r = descend (vm_mem v) root r) ->
  (no_frames v' \/ (descend (vm_mem v) root (pt_path pa) = None ->
    forall a, pt_path a = pt_path pa -> is_Some (leaf (vm_mem v') root a))) ->
  entered root pa v v'.
Proof.
  intros He Hd Hc. split; [by apply (evolves_weaken _ _ _ _ _ He)| | |done].
  - intros a. by apply Hd; auto with vmm.
  - intros a _. left. by apply (ev_leaf _ _ _ _ He).
Qed.

Lemma map_2mb_spec v root pa :
  vmm_wf root v -> 0 <= pa < 2 ^ 48 -> pa mod PAGE_2MB_SIZE = 0 -> entered root pa v (map_2mb_identity v root pa).
Proof.
  intros Hw Hpa Hal. unfold map_2mb_identity.
  pose proof (get_or_create_table_spec v root [] root (pml4_index pa) Hw (pml4_path_ok pa) ltac:(simpl; lia) eq_refl) as H1.
  pose proof (fun r => get_or_create_table_deep v root [] root (pml4_index pa) r Hw (pml4_path_ok pa) ltac:(simpl; lia) eq_refl) as T1.
  destruct (get_or_create_table v root (pml4_index pa)) as [v1 t1]. destruct H1 as [E1 [[-> Hno]|(N1 & D1 & _)]].
  { apply entered_tables; auto. }
  replace (t1 =? 0) with false by lia. pose proof (evolves_wf _ _ _ _ E1) as Hw1.
  pose proof (get_or_create_table_spec v1 root [pml4_index pa] t1 (pdpt_index pa) Hw1 (pd_path_ok pa) ltac:(simpl; lia) D1) as H2.
  pose proof (fun r => get_or_create_table_deep v1 root [pml4_index pa] t1 (pdpt_index pa) r Hw1 (pd_path_ok pa) ltac:(simpl; lia) D1) as T2.
  destruct (get_or_create_table v1 t1 (pdpt_index pa)) as [v2 t2]. destruct H2 as [E2 H2].
  pose proof (evolves_trans _ _ _ _ _ E1 E2) as E. clear E1 E2 D1.
  assert (T : forall r, path_ok r -> length r = 3%nat -> descend (vm_mem v2) root r = descend (vm_mem v) root r).
  { intros r Hr Hl. by rewrite T2, T1. }
  clear T1 T2. destruct H2 as [[-> Hno]|(N2 & D2 & _)]; [apply entered_tables; auto|].
  replace (t2 =? 0) with false by lia. pose proof (evolves_wf _ _ _ _ E) as Hw2.
  change ([pml4_index pa] ++ [pdpt_index pa]) with (pd_path pa) in D2.
  destruct (has (entry (vm_mem v2) t2 (pd_index pa)) PAGE_PRESENT) eqn:Hpres; cbn [negb].
  - apply entered_tables; [done|done|]. right. intros Hnt a Ha. rewrite <- T in Hnt by (auto with vmm || done).
    unfold leaf. rewrite Ha, Hnt. unfold pt_path in Ha. injection Ha as E4 E3 E2. unfold pd_path. rewrite E4, E3, E2.
    fold (pd_path pa). rewrite D2. cbn [mbind option_bind].
    change (pt_path pa) with (pd_path pa ++ [pd_index pa]) in Hnt. rewrite descend_snoc, D2 in Hnt.
    cbn [mbind option_bind] in Hnt. unfold link, large_view in *. rewrite Hpres in *.
    destruct (has _ PAGE_SIZE_2MB); [by eexists|done].
  - fold (large_entry pa). destruct (large_entry_bits pa Hpa Hal) as (Hp & Hb & Hu & Hta & Hat).
    assert (Hal' : table_addr (u64 (large_entry pa)) mod PAGE_2MB_SIZE = 0) by (by rewrite Hta).
    pose proof (evolves_large v2 root pa t2 _ Hw2 D2 Hpres Hp Hb Hu Hal') as E3.
    pose proof (large_leaf v2 root pa t2 _ Hw2 D2 Hpres Hp Hb) as Hl. rewrite Hta, Hat in Hl.
    pose proof (large_descend v2 root pa t2 _ Hw2 D2 Hpres Hp Hb) as Hde.
    assert (Hnone : forall a, pt_path a = pt_path pa -> leaf (vm_mem v) root a = None).
    { intros a Ha. rewrite <- (ev_leaf _ _ _ _ E a I). destruct (large_none v2 root pa t2 D2 Hpres a Ha) as (Hn & Hpd & Ei).
      unfold leaf. rewrite Hn, Hpd. cbn [mbind option_bind]. unfold large_view. by rewrite Ei, Hpres. }
    split; cbn [vm_mem with_mem].
    + eapply evolves_trans; [by apply (evolves_weaken _ _ _ _ _ E)|].
      apply (evolves_weaken _ _ _ _ _ E3). intros a [Ha|Ha] Eq; [done|]. by apply Ha, Hnone.
    + intros a. rewrite Hde by auto with vmm. by apply T; auto with vmm.
    + intros a Ha. right. split; [by apply Hnone|]. by rewrite Hl, decide_True.
    + right. intros _ a Ha. rewrite Hl, decide_True by done. by eexists.
Qed.

(** * The blocks of memory *)

(** The addresses of one large page. *)
Lemma block_address pa a :
  0 <= pa < 2 ^ 48 -> 0 <= a < 2 ^ 48 -> pa mod PAGE_2MB_SIZE = 0 ->
  (pt_path a = pt_path pa <-> a / PAGE_2MB_SIZE * PAGE_2MB_SIZE = pa) /\
  (pt_path a = pt_path pa -> pa + pt_index a * PAGE_4KB_SIZE = a / 4096 * 4096).
Proof.
  unfold PAGE_2MB_SIZE, PAGE_4KB_SIZE. intros Hpa Ha Hal.
  assert (Hiff : pt_path a = pt_path pa <-> a / 2097152 = pa / 2097152).
  { unfold pt_path, pml4_index, pdpt_index, pd_index. rewrite !index_digit by lia.
    replace (2 ^ 39) with (2097152 * 262144) by done. replace (2 ^ 30) with (2097152 * 512) by done.
    change (2 ^ 21) with 2097152. rewrite <- !Z.div_div by lia.
    assert (H1 : 0 <= a / 2097152 < 134217728) by div_lia. assert (H2 : 0 <= pa / 2097152 < 134217728) by div_lia.
    generalize dependent (a / 2097152). generalize dependent (pa / 2097152). clear. intros y Hy x Hx.
    split; [intros [= A B C]; div_lia|by intros ->]. }
  split; [rewrite Hiff; split; div_lia|]. rewrite Hiff. intros E. unfold pt_index. rewrite index_digit by lia.
  change (2 ^ 12) with 4096. clear Hiff. div_lia.
Qed.

(** * The whole loop *)

Section init.
Context (root : Z) (v : vmm).
Implicit Types (blocks : Z -> Prop).

Definition block_of (a : Z) : Z := a / PAGE_2MB_SIZE * PAGE_2MB_SIZE.

(** From [v] the blocks given were entered. *)
Record grown blocks (v' : vmm) : Prop := {
  gr_evolves : evolves root (fun a => leaf (vm_mem v) root a <> None) v v';
  gr_tables a : descend (vm_mem v') root (pt_path a) = descend (vm_mem v) root (pt_path a);
  gr_leaf a : 0 <= a < 2 ^ 48 -> leaf (vm_mem v') root a = leaf (vm_mem v) root a \/
    leaf (vm_mem v) root a = None /\ blocks (block_of a) /\ leaf (vm_mem v') root a = Some (a / 4096 * 4096, VMM_WRITABLE);
  gr_covers : no_frames v' \/ forall a, 0 <= a < 2 ^ 48 -> blocks (block_of a) ->
    descend (vm_mem v) root (pt_path a) = None -> is_Some (leaf (vm_mem v') root a);
}.

Lemma grown_refl : vmm_wf root v -> grown (fun _ => False) v.
Proof. intros Hw. split; [by apply evolves_refl|done|by left|by right]. Qed.

Lemma grown_ext blocks blocks' v' : (forall b, blocks b <-> blocks' b) -> grown blocks v' -> grown blocks' v'.
Proof.
  intros E [A B C D]. split; [done|done| |].
  - intros a Ha. rewrite <- E. by apply C.
  - destruct D as [D|D]; [by left|right]. intros a Ha Hb. apply D; [done|by apply E].
Qed.

Lemma grown_enter blocks v1 pa :
  grown blocks v1 -> 0 <= pa < 2 ^ 48 -> pa mod PAGE_2MB_SIZE = 0 ->
  grown (fun b => blocks b \/ b = pa) (map_2mb_identity v1 root pa).
Proof.
  intros [A B C D] Hpa Hal. pose proof (map_2mb_spec v1 root pa (evolves_wf _ _ _ _ A) Hpa Hal) as [E T L Cv].
  set (v2 := map_2mb_identity v1 root pa) in *. split.
  - eapply evolves_trans; [exact A|]. apply (evolves_weaken _ _ _ _ _ E). intros a Ha. right.
    by rewrite (ev_leaf _ _ _ _ A).
  - intros a. by rewrite T, B.
  - intros a Ha. destruct (block_address pa a Hpa Ha Hal) as [Hblk Hadr]. fold (block_of a) in Hblk.
    destruct (decide (pt_path a = pt_path pa)) as [Hs|Hs].
    + destruct (L a Hs) as [->|[Hn ->]].
      * destruct (C a Ha) as [?|(Hn & Hb & ?)]; [by left|right]. split; [done|]. split; [by left|done].
      * destruct (C a Ha) as [Hv|(_ & _ & Hv)]; [|congruence]. right. rewrite Hn in Hv.
        split; [done|]. split; [right; by apply Hblk|]. by rewrite Hadr.
    + rewrite (ev_leaf _ _ _ _ E) by by left.
      destruct (C a Ha) as [?|(Hn & Hb & ?)]; [by left|right]. split; [done|]. split; [by left|done].
  - destruct D as [D|D]; [left; intros f Hf; apply (ev_used _ _ _ _ E); [lia|by apply D]|].
    destruct Cv as [Cv|Cv]; [by left|right]. intros a Ha Hb Hn.
    destruct Hb as [Hb|Hb].
    + specialize (D a Ha Hb Hn). rewrite (ev_leaf _ _ _ _ E); [done|]. right. by apply not_eq_None_Some.
    + destruct (block_address pa a Hpa Ha Hal) as [Hblk _]. apply Hblk in Hb. apply Cv; [|done].
      by rewrite <- Hb, B.
Qed.

(** The blocks of a region, and of the map. *)
Definition region_block (e : E820.e820_entry_t) (b : Z) : Prop :=
  E820.type e = E820.E820_TYPE_USABLE /\
  exists j, 0 <= j /\ b = block_of (E820.base e) + j * PAGE_2MB_SIZE /\ b < E820.base e + E820.length e.

Definition map_block (e820 : E820.e820_buffer_t) (b : Z) : Prop :=
  exists i, 0 <= i < E820.count e820 /\ region_block (E820.entries e820).[i] b.

Lemma init_region_spec blocks v1 e :
  grown blocks v1 -> kernel_pml4 v1 = root ->
  0 <= E820.base e -> 0 <= E820.length e -> E820.base e + E820.length e <= 2 ^ 48 ->
  grown (fun b => blocks b \/ region_block e b) (init_region v1 e) /\ kernel_pml4 (init_region v1 e) = root.
Proof.
  intros Hg Hk Hb Hl Hlim. unfold init_region. destruct (E820.type e =? E820.E820_TYPE_USABLE) eqn:Et; cbn [negb]; bool_prop.
  2: { split; [|done]. apply (grown_ext blocks); [|done]. intros b. unfold region_block.
    split; [by left|]. intros [?|[? _]]; [done|lia]. }
  change (U64_MAX -64 (PAGE_2MB_SIZE - 1)) with (Z.shiftl (Z.ones (64 - 21)) 21).
  rewrite mask_down_eq, u64_small by lia. change (2 ^ 21) with PAGE_2MB_SIZE. fold (block_of (E820.base e)).
  set (start := block_of (E820.base e)). set (end_ := E820.base e + E820.length e) in *.
  assert (Hst : 0 <= start <= end_ /\ start mod PAGE_2MB_SIZE = 0) by (unfold start, end_, block_of, PAGE_2MB_SIZE; div_lia).
  set (n := (end_ - start + PAGE_2MB_SIZE - 1) / PAGE_2MB_SIZE).
  assert (Hn : 0 <= n /\ forall j, 0 <= j -> j < n <-> start + j * PAGE_2MB_SIZE < end_).
  { unfold n. clearbody start end_. clear - Hst. unfold PAGE_2MB_SIZE in *. split; [div_lia|]. intros j Hj. div_lia. }
  destruct (for_each_inv 0 n (fun k v => map_2mb_identity v (kernel_pml4 v) (start + k * PAGE_2MB_SIZE)) v1
    (fun i v' => grown (fun b => blocks b \/ exists j, 0 <= j < i /\ b = start + j * PAGE_2MB_SIZE) v' /\ kernel_pml4 v' = root))
    as [Hgr Hkr]; [lia| | |].
  - split; [|done]. apply (grown_ext blocks); [|done]. intros b. split; [by left|]. intros [?|(j & ? & _)]; [done|lia].
  - intros i v' Hi [Hgv Hkv]. rewrite Hkv. assert (Hpa : start + i * PAGE_2MB_SIZE < end_) by (apply Hn; lia).
    assert (Hi0 : 0 <= i * PAGE_2MB_SIZE) by (unfold PAGE_2MB_SIZE; lia).
    pose proof (grown_enter _ v' (start + i * PAGE_2MB_SIZE) Hgv ltac:(lia)) as Hen.
    rewrite Z.mod_add in Hen by done. specialize (Hen ltac:(lia)). split.
    + apply (grown_ext _ _ _) with (2 := Hen). intros b. split.
      * intros [[?|(j & Hj & ->)]| ->]; [by left|right; exists j; split; [lia|done]|right; exists i; split; [lia|done]].
      * intros [?|(j & Hj & ->)]; [by left; left|]. destruct (decide (j = i)) as [->|]; [by right|].
        left. right. exists j. split; [lia|done].
    + destruct (ev_regs _ _ _ _ (gr_evolves _ _ Hen)) as [R2 _]. destruct (ev_regs _ _ _ _ (gr_evolves _ _ Hgv)) as [R1 _]. congruence.
  - split; [|done]. apply (grown_ext _ _ _) with (2 := Hgr). intros b. unfold region_block. apply or_iff_compat_l. split.
    + intros (j & Hj & ->). split; [done|]. exists j. split; [lia|]. split; [done|]. apply Hn; lia.
    + intros (_ & j & Hj & -> & Hlt). exists j. split; [|done]. split; [done|]. by apply Hn.
Qed.
End init.

(** A memory map whose usable regions end below [2^48]. *)
Definition map_ok (e820 : E820.e820_buffer_t) : Prop :=
  e820_ok e820 /\
  forall i, 0 <= i < E820.count e820 ->
    let e := (E820.entries e820).[i] in E820.base e + E820.length e <= 2 ^ 48.

Lemma map_regions_spec root v e820 :
  vmm_wf root v -> kernel_pml4 v = root -> map_ok e820 ->
  grown root v (map_block e820)
    (for_each 0 (E820.e820_entry_count e820) (fun i v =>
       match E820.e820_get_entry e820 i with None => v | Some e => init_region v e end) v).
Proof.
  intros Hw Hk [[Hc He] Hlim]. unfold E820.e820_entry_count.
  destruct (for_each_inv 0 (E820.count e820) (fun i v =>
       match E820.e820_get_entry e820 i with None => v | Some e => init_region v e end) v
    (fun n v' => grown root v (fun b => exists i, 0 <= i < n /\ region_block (E820.entries e820).[i] b) v' /\ kernel_pml4 v' = root))
    as [Hg _]; [done| | |exact Hg].
  - split; [|done]. apply (grown_ext root v (fun _ => False)); [|by apply grown_refl]. intros b.
    split; [done|]. intros (i & ? & _). lia.
  - intros i v' Hi [Hg Hk']. unfold E820.e820_get_entry. replace (i >=? E820.count e820) with false by lia.
    destruct (He i Hi) as (H1 & H2 & _).
    destruct (init_region_spec root v _ v' _ Hg Hk' H1 H2 (Hlim i Hi)) as [Hg2 Hk2]. split; [|done].
    apply (grown_ext _ _ _ _ _) with (2 := Hg2). intros b. split.
    + intros [(j & Hj & Hb)|Hb]; [exists j|exists i]; (split; [lia|done]).
    + intros (j & Hj & Hb). destruct (decide (j = i)) as [->|]; [by right|left]. exists j. split; [lia|done].
Qed.

Lemma usable_block e820 a :
  e820_ok e820 ->
  (exists i, 0 <= i < E820.count e820 /\ let e := (E820.entries e820).[i] in
     E820.type e = E820.E820_TYPE_USABLE /\ E820.base e <= a < E820.base e + E820.length e) ->
  map_block e820 (block_of a).
Proof.
  intros [_ Hok] (i & Hi & Ht & Ha). exists i. split; [done|]. split; [done|]. destruct (Hok i Hi) as (Hb & _ & _).
  exists (a / PAGE_2MB_SIZE - E820.base (E820.entries e820).[i] / PAGE_2MB_SIZE). unfold block_of, PAGE_2MB_SIZE. div_lia.
Qed.

Lemma walk_none m p root a : space_wf p m root -> walk m root a = None <-> leaf m root a = None.
Proof.
  intros Hw. pose proof (walk_leaf p m root a Hw) as Hl. destruct (leaf m root a) as [[page attrs]|]; [|done].
  destruct Hl as (w & u & -> & _). done.
Qed.

(** The kernel's tables as [cr3] gives them. *)
Definition at_boot (v : vmm) : vmm := mk_vmm (vm_pmm v) (vm_mem v) (space_pml4 (cr3 v)) (cr3 v).

(** What [vmm_init] makes of the tables at [root]. *)
Record extended (root : Z) (e820 : E820.e820_buffer_t) (v v' : vmm) : Prop := {
  ex_evolves : evolves root (fun a => is_Some (walk (vm_mem v) root a)) v v';
  ex_identity a : 0 <= a < 2 ^ 48 -> walk (vm_mem v) root a = None ->
    walk (vm_mem v') root a = None \/
    map_block e820 (block_of a) /\ exists w, walk (vm_mem v') root a = Some (a, w, false);
  ex_covers : no_frames v' \/
    forall i a, 0 <= i < E820.count e820 -> let e := (E820.entries e820).[i] in
      E820.type e = E820.E820_TYPE_USABLE -> E820.base e <= a < E820.base e + E820.length e ->
      descend (vm_mem v) root (pt_path a) = None -> is_Some (walk (vm_mem v') root a);
}.

Lemma vmm_init_spec v e820 :
  let root := space_pml4 (cr3 v) in
  vmm_wf root (at_boot v) -> map_ok e820 -> extended root e820 (at_boot v) (vmm_init v e820).
Proof.
  intros root Hw Hm. destruct (map_regions_spec root (at_boot v) e820 Hw eq_refl Hm) as [A B C D].
  change (vmm_init v e820) with (for_each 0 (E820.e820_entry_count e820) (fun i v =>
       match E820.e820_get_entry e820 i with None => v | Some e => init_region v e end) (at_boot v)).
  set (v' := for_each _ _ _ _) in *. pose proof (ev_space _ _ _ _ A) as Hs'. pose proof (proj1 Hw) as Hs.
  assert (HS : forall a, is_Some (leaf (vm_mem v') root a) -> is_Some (walk (vm_mem v') root a)).
  { intros a. rewrite <- !not_eq_None_Some, (walk_none _ _ root a Hs'). done. }
  split.
  - apply (evolves_weaken _ _ _ _ _ A). intros a Ha Hn. apply (walk_none _ _ root a Hs) in Hn.
    rewrite Hn in Ha. by destruct Ha.
  - intros a Ha Hn. apply (walk_none _ _ root a Hs) in Hn. destruct (C a Ha) as [Hl|(_ & Hb & Hl)].
    { left. apply (walk_none _ _ root a Hs'). congruence. }
    right. split; [done|]. pose proof (walk_leaf _ _ _ a Hs') as Hwk. rewrite Hl in Hwk.
    destruct Hwk as (w & u & Hwk & _ & Hu). exists w. rewrite Hwk. destruct u; [by specialize (Hu eq_refl)|].
    f_equal. f_equal. f_equal. clear. div_lia.
  - destruct D as [D|D]; [by left|right]. intros i a Hi e Ht Ha Hn. pose proof Hm as [Hok Hlim]. apply HS, D; [|apply usable_block; [done|by exists i]|done].
    destruct Hok as [_ Hok]. destruct (Hok i Hi) as (Hb & _). specialize (Hlim i Hi). fold e in Hlim, Hb. cbv zeta in Hlim. lia.
Qed.

(** C36: [vmm_init] extends the tables of the boot loader by identity: an address that
    was not mapped before is either not mapped after, or lies in a block of 2 MiB that
    meets a usable region of the memory map (the whole block is mapped, reserved bytes
    in it included) and is mapped to itself, for the kernel only.  Every usable byte
    where no page table stood before (such a table the code leaves as it is) is mapped
    after, unless the frames run out.  No address that was mapped before is moved, and
    no memory in use outside the tables changes. *)
Theorem vmm_init_correct v e820 :
  let root := space_pml4 (cr3 v) in
  vmm_wf root (at_boot v) -> map_ok e820 ->
  let v' := vmm_init v e820 in
  extended root e820 (at_boot v) v' /\ kernel_pml4 v' = root /\ cr3 v' = cr3 v.
Proof.
  intros root Hw Hm v'. pose proof (vmm_init_spec v e820 Hw Hm) as He. split; [exact He|].
  exact (ev_regs _ _ _ _ (ex_evolves _ _ _ _ He)).
Qed.

Lemma demo_map_ok : map_ok demo_e820.
Proof.
  split; [apply demo_e820_ok|]. intros i Hi. simpl in Hi. assert (i = 0 \/ i = 1) as [-> | ->] by lia; by vm_compute.
Qed.

Lemma vmm_init_correct_witness :
  extended demo_root demo_e820 (at_boot demo_vmm) (vmm_init demo_vmm demo_e820) /\
  kernel_pml4 (vmm_init demo_vmm demo_e820) = demo_root /\ cr3 (vmm_init demo_vmm demo_e820) = cr3 demo_vmm.
Proof. exact (vmm_init_correct demo_vmm demo_e820 demo_vmm_wf demo_map_ok). Defined.
