(* ===== verification/Process.v ===== *)
(** Processes, [kernel/core/process.c], and the end of a thread in
    [kernel/sched/thread.c] (exit, kill, reap), which work on the process table. *)
From S2P Require Import Prelude CString Blk Fs Thread Pipe Fd.

Definition USER_PML4_SLOT_BASE : Z := 0x0000008000000000.
Definition USER_PROCESS_SLOT_SIZE : Z := 16777216.
Definition USER_IMAGE_LINK_BASE : Z := 0x400000.
Definition USER_STACK_MAX_SIZE : Z := 1048576.
Definition USER_ARGV_RESERVED : Z := 128.
Definition PROCESS_MAX : Z := 64.
Definition VMM_WRITABLE : Z := 0x2.
Definition VMM_USER : Z := 0x4.

(** [sizeof(elf_spawn_request_t)] and the offsets of its fields. *)
Definition REQUEST_SIZEOF : Z := 160.
Definition REQ_ELF_SIZE : Z := 8.
Definition REQ_OWNS_DATA : Z := 16.
Definition REQ_ARGV : Z := 20.
Definition REQ_ARGV_LEN : Z := 152.

Inductive process_state_t :=
  | PROCESS_UNUSED
  | PROCESS_STARTING
  | PROCESS_RUNNING
  | PROCESS_EXITED.

#[export] Instance process_state_eq_dec : EqDecision process_state_t.
Proof. solve_decision. Defined.

Record process_t := mk_process {
  pid : Z;
  tid : Z;
  parent_pid : Z;
  exit_status : Z;
  pstate : process_state_t;
  pspace : Z;
}.

#[export] Instance process_inhabited : Inhabited process_t :=
  populate (mk_process 0 0 0 0 PROCESS_UNUSED 0).

(** What processes need beyond the scheduler's environment: memory, address
    spaces, growable stacks and the ELF loader, on the same state [K]. *)
Class ProcEnv (K : Type) := {
  env_ld8 : K -> Z -> Z;
  env_st8 : K -> Z -> Z -> K;
  env_ld64 : K -> Z -> Z;
  env_st32 : K -> Z -> Z -> K;
  env_alloc_zeroed_frame : K -> K * Z;
  env_map_page_in : K -> Z -> Z -> Z -> Z -> K * Z;
  env_mark_user : K -> Z -> K;
  env_create_space : K -> K * Z;
  env_destroy_space : K -> Z -> K;
  env_register_stack : K -> Z -> Z -> Z -> option K;
  env_unregister_stack : K -> Z -> option K;
  env_elf_load : K -> Z -> Z -> Z -> Z -> option (K * option Z);
}.

Record kern (K : Type) := mk_kern {
  kn_sched : sched K;
  kn_pipes : list pipe_t;
  processes : list process_t;
  next_pid : Z;
}.
Arguments mk_kern {K}.
Arguments kn_sched {K}.
Arguments kn_pipes {K}.
Arguments processes {K}.
Arguments next_pid {K}.

(** [static process_t processes[PROCESS_MAX]; static int next_pid = 1;] *)
Definition no_processes : list process_t := replicate 64 inhabitant.

Definition is_live (st : process_state_t) : bool := negb (bool_decide (st = PROCESS_UNUSED)).

(** Writes to one field. *)
Definition set_tid (v : Z) (p : process_t) : process_t :=
  mk_process (pid p) v (parent_pid p) (exit_status p) (pstate p) (pspace p).
Definition set_pspace (v : Z) (p : process_t) : process_t :=
  mk_process (pid p) (tid p) (parent_pid p) (exit_status p) (pstate p) v.
Definition set_exited (status : Z) (p : process_t) : process_t :=
  mk_process (pid p) (tid p) (parent_pid p) status PROCESS_EXITED (pspace p).

(** How a call that may block or end its thread goes: with a result; asleep, to be
    entered again ([true]: halted); or never, the thread being gone. *)
Inductive call_end (R : Type) :=
  | Done (r : R)
  | Asleep (halted : bool)
  | Gone (halted : bool).
Arguments Done {R}.
Arguments Asleep {R}.
Arguments Gone {R}.

(** * The model *)

Section model.
Context {K : Type} `{SchedEnv K} `{ProcEnv K}.
(** The pipe table, and the entry points of the two kernel trampolines and of the
    demo program. *)
Context (pipes_addr elf_trampoline raw_trampoline user_demo_entry : Z).
Implicit Types (kn : kern K) (s : sched K) (k : K).

Definition with_ksched kn s : kern K := mk_kern s (kn_pipes kn) (processes kn) (next_pid kn).
Definition with_procs kn (ps : list process_t) : kern K :=
  mk_kern (kn_sched kn) (kn_pipes kn) ps (next_pid kn).
Definition with_k kn k : kern K := with_ksched kn (with_env (kn_sched kn) k).
Definition kn_env kn : K := env (kn_sched kn).
Definition on_process kn (i : Z) (f : process_t -> process_t) : kern K :=
  with_procs kn ((processes kn).[i <- f (processes kn).[i]]).

(** ** The process table *)

(** The index in [processes], or [None] for the null pointer. *)
Definition find_process kn (p : Z) : option Z :=
  find_first 0 PROCESS_MAX (fun i =>
    is_live (pstate (processes kn).[i]) && (pid (processes kn).[i] =? p)).

Definition find_process_by_tid kn (t : Z) : option Z :=
  find_first 0 PROCESS_MAX (fun i =>
    is_live (pstate (processes kn).[i]) && (tid (processes kn).[i] =? t)).

Definition current_pid kn : Z :=
  match find_process_by_tid kn (sched_current_tid (kn_sched kn)) with
  | Some i => pid (processes kn).[i]
  | None => 0
  end.

(** The new pid, or [None] for result -1. *)
Definition reserve_process kn : kern K * option Z :=
  match find_first 0 PROCESS_MAX (fun i => negb (is_live (pstate (processes kn).[i]))) with
  | None => (kn, None)
  | Some i =>
      let p := next_pid kn in
      let next := s32 (next_pid kn + 1) in
      let next := if next <=? 0 then 1 else next in
      let parent := current_pid kn in
      (mk_kern (kn_sched kn) (kn_pipes kn)
         ((processes kn).[i <- mk_process p (-1) parent (-1) PROCESS_STARTING 0]) next, Some p)
  end.

Definition release_process kn (p : Z) : kern K :=
  match find_process kn p with
  | None => kn
  | Some i => on_process kn i (fun _ => mk_process 0 (-1) 0 0 PROCESS_UNUSED 0)
  end.

(** The image base and the stack ceiling of the thread's slot. *)
Definition user_process_layout (t : Z) : option (Z * Z) :=
  if t <? 0 then None
  else
    let slot := u64 t *64 USER_PROCESS_SLOT_SIZE in
    if negb (slot / USER_PROCESS_SLOT_SIZE =? u64 t) ||
       (slot >? Z.shiftl 1 39 - USER_PROCESS_SLOT_SIZE) then None
    else
      let image_base := USER_PML4_SLOT_BASE +64 slot in
      Some (image_base, image_base +64 USER_PROCESS_SLOT_SIZE).

(** ** The end of a thread *)

Definition process_mark_exited kn (t status : Z) : kern K :=
  match find_process_by_tid kn t with
  | None => kn
  | Some i =>
      let kn := on_process kn i (set_exited status) in
      with_ksched kn (sched_wakeup (kn_sched kn) (u64 (pid (processes kn).[i])))
  end.

(** The caller does not come back; [true]: nothing else can run and it halts. *)
Definition sched_exit_status kn (status : Z) : kern K * call_end unit :=
  let s := kn_sched kn in
  let me := current_thread s in
  if me =? -1 then (kn, Done tt)
  else
    let kn := with_ksched kn (on_thread s me (set_state THREAD_ZOMBIE)) in
    let kn := process_mark_exited kn me status in
    let s := sched_wakeup (kn_sched kn) (u64 me) in
    let next := find_next_runnable s me in
    if next =? me then (with_ksched kn s, Gone true)
    else
      let s := on_thread s next (set_state THREAD_RUNNING) in
      let s := activate (with_current s next) next in
      let (k, _) := env_switch_context (env s) (rsp (threads s).[next]) in
      (with_ksched kn (with_env s k), Gone false).

Definition sched_exit kn : kern K * call_end unit := sched_exit_status kn (-1).

Definition process_exit kn (status : Z) : kern K * call_end unit := sched_exit_status kn status.

Definition sched_kill kn (t status : Z) : kern K * call_end Z :=
  let s := kn_sched kn in
  if (t <? 0) || (t >=? thread_capacity s) then (kn, Done (-1))
  else if t =? current_thread s then
    match sched_exit_status kn status with
    | (kn, Gone halted) => (kn, Gone halted)
    | (kn, _) => (kn, Gone false)
    end
  else if bool_decide (state (threads s).[t] = THREAD_UNUSED) ||
          bool_decide (state (threads s).[t] = THREAD_ZOMBIE) then (kn, Done (-1))
  else
    let s := on_thread s t (set_state THREAD_ZOMBIE) in
    let s := on_thread s t (set_wait 0) in
    (process_mark_exited (with_ksched kn s) t status, Done 0).

Definition process_reap_thread kn (t space : Z) : kern K :=
  let kn :=
    match find_process_by_tid kn t with
    | Some i => on_process kn i (set_pspace 0)
    | None => kn
    end in
  with_k kn (env_destroy_space (kn_env kn) space).

(** The slot of a reaped thread; priority, ticks and uid stay. *)
Definition clear_slot (t : thread_t) : thread_t :=
  mk_thread 0 THREAD_UNUSED 0 0 (priority t) (ticks_remaining t) 0 0 0
    (for_each 0 THREAD_MAX_FDS (fun i l => l.[i <- reset_fd_slot]) (fds t)) (thread_uid t).

(** The stack and its guard page go back to the frame allocator. *)
Definition free_stack k (t : thread_t) : K :=
  if negb (guard_page t =? 0) then
    let k := for_each 0 THREAD_STACK_PAGES (fun i k => env_free_frame k (stack_low t +64 i * 4096)) k in
    let k := env_map_page k (guard_page t) (guard_page t) VMM_WRITABLE in
    env_free_frame k (guard_page t)
  else k.

Definition reap_zombie kn (z : Z) : option (kern K) :=
  let s := kn_sched kn in
  if (z <? 0) || (z >=? thread_capacity s) || (z =? current_thread s) ||
     negb (bool_decide (state (threads s).[z] = THREAD_ZOMBIE)) then Some kn
  else
    let (ps, s) := fd_cleanup_thread pipes_addr (kn_pipes kn) s z in
    let kn := mk_kern s ps (processes kn) (next_pid kn) in
    let t := (threads s).[z] in
    let kn := with_k kn (free_stack (kn_env kn) t) in
    kn ← (if negb (address_space t =? env_kernel_space (kn_env kn)) then
            k ← env_unregister_stack (kn_env kn) (address_space t);
            Some (process_reap_thread (with_k kn k) z (address_space t))
          else Some kn);
    Some (with_ksched kn (on_thread (kn_sched kn) z clear_slot)).

Definition sched_reap_thread kn (t : Z) : option (kern K) := reap_zombie kn t.

(** ** Waiting and killing *)

(** One turn of the loop: the call is entered again after a sleep.  The result is
    [None] for -1. *)
Definition process_wait kn (p : Z) : option (kern K * call_end (option Z)) :=
  match find_process kn p with
  | None => Some (kn, Done None)
  | Some i =>
      let proc := (processes kn).[i] in
      if negb (parent_pid proc =? current_pid kn) then Some (kn, Done None)
      else if bool_decide (pstate proc = PROCESS_EXITED) then
        kn ← (if tid proc >=? 0 then sched_reap_thread kn (tid proc) else Some kn);
        Some (release_process kn p, Done (Some (exit_status proc)))
      else
        let (s, halted) := sched_sleep (kn_sched kn) (u64 p) in
        Some (with_ksched kn s, Asleep halted)
  end.

Definition SIGNAL_EXIT_STATUS (sig : Z) : Z := s32 (-128 - sig).

Definition process_get_tid kn (p : Z) : Z :=
  match find_process kn p with
  | Some i => if bool_decide (pstate (processes kn).[i] = PROCESS_EXITED) then -1
              else tid (processes kn).[i]
  | None => -1
  end.

Definition process_kill kn (p sig : Z) : kern K * call_end Z :=
  let t := process_get_tid kn p in
  if t <? 0 then (kn, Done (-1)) else sched_kill kn t (SIGNAL_EXIT_STATUS sig).

(** ** Spawning *)

(** [kfree((void * )elf_data)] when the request owns it. *)
Definition free_data k (owns_data elf_data : Z) : option K :=
  if negb (owns_data =? 0) then env_free k elf_data else Some k.

Definition spawn_elf_request kn (elf_data elf_size owns_data : Z) (argv_str : list Z)
    (argv_len : Z) : option (kern K * Z) :=
  '(k, request) ← env_malloc (kn_env kn) REQUEST_SIZEOF;
  if request =? 0 then
    k ← free_data k owns_data elf_data;
    Some (with_k kn k, -1)
  else
    let k := env_st64 k request elf_data in
    let k := env_st64 k (request + REQ_ELF_SIZE) elf_size in
    let k := env_st32 k (request + REQ_OWNS_DATA) owns_data in
    let argv_len := if argv_len >? USER_ARGV_RESERVED then USER_ARGV_RESERVED else argv_len in
    let k := env_st64 k (request + REQ_ARGV_LEN) argv_len in
    let k := for_each 0 argv_len (fun i k => env_st8 k (request + REQ_ARGV + i) argv_str.[i]) k in
    match reserve_process (with_k kn k) with
    | (kn, None) =>
        k ← free_data (kn_env kn) owns_data elf_data;
        k ← env_free k request;
        Some (with_k kn k, -1)
    | (kn, Some p) =>
        '(s, t) ← sched_spawn_with_context (kn_sched kn) elf_trampoline request;
        let kn := with_ksched kn s in
        if t <? 0 then
          let kn := release_process kn p in
          k ← free_data (kn_env kn) owns_data elf_data;
          k ← env_free k request;
          Some (with_k kn k, -1)
        else
          match find_process kn p with
          | Some i => Some (on_process kn i (set_tid t), p)
          | None => Some (kn, p)
          end
    end.

Definition process_spawn_from_elf kn (elf_data elf_size : Z) : option (kern K * Z) :=
  spawn_elf_request kn elf_data elf_size 0 [] 0.

(** [elf_demo] and its size stand for [tiny_elf_binary] in kernel memory. *)
Definition process_spawn_builtin_demo kn (elf_demo elf_demo_size : Z) : option (kern K * Z) :=
  process_spawn_from_elf kn elf_demo elf_demo_size.

Section files.
Context {D : Type} `{BlockDev D}.
Implicit Types (f : fs D).

(** Read a file to memory at [buf]: as many bytes as [fs_read_file] transfers. *)
Definition read_to_memory k f (e : fs_dirent_t) (buf : Z) : option (K * fs D * Z) :=
  let n := 512 * (let s := (fs_size_bytes e +32 511) / 512 in if s =? 0 then 1 else s) in
  '(r, bytes, d) ← fs_read_file (fs_disk f) (Some e) (map (fun i => env_ld8 k (buf + i)) (seqZ 0 n));
  Some (for_each 0 n (fun i k => env_st8 k (buf + i) bytes.[i]) k,
        mk_fs (fs_superblock f) (dir_sector f) (fs_ready f) (fs_cached_count f) d, r).

Definition process_spawn_from_file kn f (name argv_str : list Z) (argv_len : Z) :
    option (kern K * fs D * Z) :=
  match fs_find f name with
  | None => Some (kn, f, -1)
  | Some e =>
      '(k, buf) ← env_malloc (kn_env kn) (fs_size_bytes e);
      let kn := with_k kn k in
      if buf =? 0 then Some (kn, f, -1)
      else
        '(k, f, r) ← read_to_memory (kn_env kn) f e buf;
        let kn := with_k kn k in
        if negb (r =? 0) then
          k ← env_free (kn_env kn) buf;
          Some (with_k kn k, f, -1)
        else
          '(kn, p) ← spawn_elf_request kn buf (fs_size_bytes e) 1 argv_str argv_len;
          Some (kn, f, p)
  end.

(** Give end [want] of the caller's descriptor [src_fd] to descriptor [fd] of [t]. *)
Definition redirect kn (t src_fd fd want : Z)
    (add : list pipe_t -> Z -> list pipe_t * Z) : kern K :=
  if (t >=? 0) && (src_fd >=? 0) then
    match sched_fd_get (kn_sched kn) src_fd with
    | Some src =>
        if fd_kind src =? want then
          let ps := (add (kn_pipes kn) (fd_handle src)).1 in
          let s := (sched_fd_set (kn_sched kn) t fd want (fd_handle src)).1 in
          mk_kern s ps (processes kn) (next_pid kn)
        else kn
    | None => kn
    end
  else kn.

Definition process_spawn_from_file_redirect kn f (name argv_str : list Z)
    (argv_len stdin_fd stdout_fd : Z) : option (kern K * fs D * Z) :=
  '(kn, f, p) ← process_spawn_from_file kn f name argv_str argv_len;
  if p <? 0 then Some (kn, f, -1)
  else
    let t := match find_process kn p with Some i => tid (processes kn).[i] | None => -1 end in
    let kn := redirect kn t stdin_fd 0 FD_KIND_PIPE_READ pipe_add_reader in
    let kn := redirect kn t stdout_fd 1 FD_KIND_PIPE_WRITE pipe_add_writer in
    Some (kn, f, p).
End files.

(** ** The first steps of a process *)

(** The stack top, the address of the arguments and their length. *)
Definition setup_user_stack k (space stack_ceiling : Z) (argv : list Z) (argv_len : Z) :
    option (K * option (Z * Z * Z)) :=
  let first_page := Z.land (stack_ceiling -64 4096) (U64_MAX -64 (4096 - 1)) in
  let (k, frame) := env_alloc_zeroed_frame k in
  if frame =? 0 then Some (k, None)
  else
    let (k, r) := env_map_page_in k space first_page frame (Z.lor VMM_WRITABLE VMM_USER) in
    if negb (r =? 0) then Some (env_free_frame k frame, None)
    else
      k ← env_register_stack k space stack_ceiling USER_STACK_MAX_SIZE;
      let argv_len := if argv_len >? USER_ARGV_RESERVED then USER_ARGV_RESERVED else argv_len in
      let argv_page_offset := 4096 - USER_ARGV_RESERVED in
      let k := for_each 0 argv_len (fun i k => env_st8 k (frame + argv_page_offset + i) argv.[i]) k in
      Some (k, Some (stack_ceiling -64 USER_ARGV_RESERVED, first_page +64 argv_page_offset, argv_len)).

(** What a trampoline ends with: the jump to ring 3, or the end of the thread. *)
Inductive first_step :=
  | EnterUsermode (entry stack_top arg0 arg1 : Z)
  | Exited (e : call_end unit).

Definition leave kn (status : Z) : kern K * first_step :=
  let (kn, e) := process_exit kn status in (kn, Exited e).

(** From the new address space on. *)
Definition start_image kn (space elf_data elf_size owns_data : Z) (argv : list Z) (argv_len : Z) :
    option (kern K * first_step) :=
  let me := sched_current_tid (kn_sched kn) in
  match user_process_layout me with
  | None =>
      k ← free_data (kn_env kn) owns_data elf_data;
      Some (leave (with_k kn k) (-1))
  | Some (image_base, stack_ceiling) =>
      '(k, entry) ← env_elf_load (kn_env kn) space elf_data elf_size
                      (image_base -64 USER_IMAGE_LINK_BASE);
      k ← free_data k owns_data elf_data;
      let kn := with_k kn k in
      match entry with
      | None => Some (leave kn (-1))
      | Some entry =>
          '(k, st) ← setup_user_stack (kn_env kn) space stack_ceiling argv argv_len;
          let kn := with_k kn k in
          match st with
          | None => Some (leave kn (-1))
          | Some (stack_top, argv_uaddr, len) => Some (kn, EnterUsermode entry stack_top argv_uaddr len)
          end
      end
  end.

Definition elf_process_trampoline kn : option (kern K * first_step) :=
  let request := sched_current_context (kn_sched kn) in
  let kn := with_ksched kn (sched_set_current_context (kn_sched kn) 0) in
  if request =? 0 then Some (leave kn (-1))
  else
    let k := kn_env kn in
    let elf_data := env_ld64 k request in
    let elf_size := env_ld64 k (request + REQ_ELF_SIZE) in
    let owns_data := env_ld32 k (request + REQ_OWNS_DATA) in
    let argv_len := env_ld64 k (request + REQ_ARGV_LEN) in
    let argv := map (fun i => env_ld8 k (request + REQ_ARGV + i)) (seqZ 0 argv_len) in
    k ← env_free k request;
    let (k, space) := env_create_space k in
    let kn := with_k kn k in
    if space =? 0 then
      k ← free_data (kn_env kn) owns_data elf_data;
      Some (leave (with_k kn k) (-1))
    else
      let me := sched_current_tid (kn_sched kn) in
      let kn := with_ksched kn (sched_set_address_space (kn_sched kn) me space) in
      let kn :=
        match find_process_by_tid kn me with
        | Some i => on_process kn i (fun p =>
            mk_process (pid p) (tid p) (parent_pid p) (exit_status p) PROCESS_RUNNING space)
        | None => kn
        end in
      start_image kn space elf_data elf_size owns_data argv argv_len.

Definition raw_entry_trampoline kn : kern K * first_step :=
  let (k, user_stack_frame) := env_alloc_zeroed_frame (kn_env kn) in
  let kn := with_k kn k in
  let code_page := Z.land user_demo_entry (U64_MAX -64 0xFFF) in
  if user_stack_frame =? 0 then leave kn (-1)
  else
    let (k, space) := env_create_space (kn_env kn) in
    let kn := with_k kn k in
    if space =? 0 then leave kn (-1)
    else
      let s := sched_set_address_space (kn_sched kn) (sched_current_tid (kn_sched kn)) space in
      let kn := with_ksched kn s in
      let k := env_mark_user (kn_env kn) user_stack_frame in
      let k := env_mark_user k code_page in
      let k := env_mark_user k (code_page +64 4096) in
      (with_k kn k, EnterUsermode user_demo_entry (user_stack_frame +64 4096) 0 0).

Definition process_spawn_demo_entry kn : option (kern K * Z) :=
  '(s, t) ← sched_spawn (kn_sched kn) raw_trampoline;
  Some (with_ksched kn s, t).
End model.
