(* ===== verification/ProcessSpec.v ===== *)
(** What the process table and the end of a thread promise: the records and the
    thread table agree in every reachable state, and a waiting parent never misses
    its child's exit. *)
From S2P Require Import Prelude Thread Pipe Fd Process.

(** * Changes of the scheduler that end no thread *)

Section quiet.
Context {K : Type} `{E : SchedEnv K}.
Implicit Types (s : sched K) (t z who : Z).

(** No thread of [s] but [z] ends or is reaped, and only [who] may go to sleep. *)
Record quiet z who s s' : Prop := {
  q_wf : sched_wf s';
  q_cap : thread_capacity s <= thread_capacity s';
  q_zombie t : 0 <= t < thread_capacity s -> t <> z ->
    state (threads s').[t] = THREAD_ZOMBIE -> state (threads s).[t] = THREAD_ZOMBIE;
  q_unused t : 0 <= t < thread_capacity s -> t <> z ->
    state (threads s').[t] = THREAD_UNUSED -> state (threads s).[t] = THREAD_UNUSED;
  q_blocked t : 0 <= t < thread_capacity s -> t <> who ->
    state (threads s').[t] = THREAD_BLOCKED ->
    state (threads s).[t] = THREAD_BLOCKED /\
    wait_channel (threads s').[t] = wait_channel (threads s).[t];
}.

Lemma quiet_refl z who s : sched_wf s -> quiet z who s s.
Proof. intros Hw. by split. Qed.

Lemma quiet_trans z who s1 s2 s3 : quiet z who s1 s2 -> quiet z who s2 s3 -> quiet z who s1 s3.
Proof.
  intros [W1 C1 Z1 U1 B1] [W2 C2 Z2 U2 B2].
  assert (Ht2 : forall t, 0 <= t < thread_capacity s1 -> 0 <= t < thread_capacity s2) by lia.
  split; [done|lia|auto|auto|]. intros t Ht Hne Hb.
  destruct (B2 t (Ht2 t Ht) Hne Hb) as [Hb2 Hc2]. destruct (B1 t Ht Hne Hb2) as [Hb1 Hc1]. split; [done|congruence].
Qed.

Lemma quiet_weaken z who s s' : quiet z (-1) s s' -> quiet z who s s'.
Proof. intros [W C Z U B]. split; try done. intros t Ht _. apply B; [done|lia]. Qed.

(** Equal tables under different environments. *)
Lemma same_table_quiet z who s s' : same_table s s' -> sched_wf s -> quiet z who s s'.
Proof.
  intros Hs Hw. pose proof (same_table_wf _ _ Hs Hw) as Hw'. destruct Hs as (E1 & E2 & E3).
  split; [done|lia|intros t Ht; rewrite E1; auto..].
Qed.

Lemma with_env_table s k : same_table s (with_env s k).
Proof. done. Qed.

(** A write that leaves a thread's state and channel alone. *)
Lemma on_thread_quiet z who s (i : Z) (f : thread_t -> thread_t) :
  sched_wf s -> 0 <= i < thread_capacity s ->
  (forall u, thread_ok u -> thread_ok (f u)) -> (forall u, state (f u) = state u) ->
  (forall u, wait_channel (f u) = wait_channel u) -> quiet z who s (on_thread s i f).
Proof.
  intros Hw Hi Hok Hst Hch. pose proof (sw_len _ Hw) as Hl.
  assert (Hg : forall t, 0 <= t < thread_capacity s ->
    state (threads (on_thread s i f)).[t] = state (threads s).[t] /\
    wait_channel (threads (on_thread s i f)).[t] = wait_channel (threads s).[t]).
  { intros t Ht. rewrite on_thread_get by lia. case_decide; [subst; by rewrite Hst, Hch|done]. }
  split; [|done|..].
  - destruct Hw as [Hc _ Hcur Hk Hrun]. split; try done.
    + by rewrite on_thread_length.
    + intros j Hj. rewrite on_thread_get by lia. case_decide; [apply Hok, Hk; lia|by apply Hk].
    + intros j Hj Hr. apply Hrun; [done|]. by rewrite <- (proj1 (Hg j Hj)).
  - intros t Ht. by rewrite (proj1 (Hg t Ht)).
  - intros t Ht. by rewrite (proj1 (Hg t Ht)).
  - intros t Ht _. by rewrite (proj1 (Hg t Ht)), (proj2 (Hg t Ht)).
Qed.

(** A switch that parks the caller in a state that is neither of the last two. *)
Lemma switched_quiet z who s s' (next : Z) (park : thread_t -> thread_t) :
  sched_wf s -> sched_wf s' -> 0 <= next < thread_capacity s -> next <> current_thread s ->
  switched s s' next park ->
  (forall u, state (park u) <> THREAD_ZOMBIE /\ state (park u) <> THREAD_UNUSED) ->
  (who = current_thread s \/ forall u, state (park u) <> THREAD_BLOCKED) -> quiet z who s s'.
Proof.
  intros Hw Hw' Hn Hne [E1 E2 _ _ E5 E6 E7 E8] Hp Hb.
  assert (Hg : forall t, 0 <= t < thread_capacity s ->
    (t = next /\ state (threads s').[t] = THREAD_RUNNING) \/
    (t = current_thread s /\ exists u, state (threads s').[t] = state (park u)) \/
    (t <> current_thread s /\ (threads s').[t] = (threads s).[t])).
  { intros t Ht. destruct (decide (t = next)) as [->|]; [left; by rewrite E6|right].
    destruct (decide (t = current_thread s)) as [->|]; [left|right; split; [done|by apply E8; lia]].
    split; [done|]. exists (threads s).[current_thread s]. by rewrite E7. }
  split; [done|lia|intros t Ht..].
  - destruct (Hg t Ht) as [[-> ->]|[[-> [u ->]]|[_ ->]]]; try done. by destruct (Hp u).
  - destruct (Hg t Ht) as [[-> ->]|[[-> [u ->]]|[_ ->]]]; try done. by destruct (Hp u).
  - intros Hwho. destruct (Hg t Ht) as [[-> ->]|[[-> [u ->]]|[_ ->]]]; try done.
    destruct Hb as [->|Hb]; [done|]. intros Hx. by destruct (Hb u).
Qed.

Lemma yield_quiet z who s : sched_wf s -> quiet z who s (sched_yield s).
Proof.
  intros Hw. destruct (sched_yield_spec s Hw) as [[_ ->]|(next & Hf & Hs)]; [by apply quiet_refl|].
  destruct (first_runnable_other s next Hw Hf) as [Hn Hne].
  refine (switched_quiet z who s _ next _ Hw (sched_yield_wf s Hw) Hn Hne Hs _ _); [done|by right].
Qed.

Lemma tick_quiet z who s : sched_wf s -> quiet z who s (sched_tick s).
Proof.
  intros Hw. pose proof (sw_cur _ Hw). unfold sched_tick.
  replace (current_thread s =? -1) with false by lia.
  assert (Hq : quiet z who s (decremented s)) by by apply on_thread_quiet.
  fold (decremented s). split_if; [done|]. eapply quiet_trans; [done|]. apply yield_quiet, Hq.
Qed.

Lemma sleep_quiet z s channel : sched_wf s -> quiet z (current_thread s) s (sched_sleep s channel).1.
Proof.
  intros Hw. pose proof (sched_sleep_wf s channel Hw) as Hw'. pose proof (sw_len _ Hw).
  pose proof (sw_cur _ Hw) as Hcur.
  destruct (sched_sleep_spec s channel Hw) as [[_ E']|(next & s' & E' & Hf & Hs)]; rewrite E' in *.
  - simpl in *. split; try done; intros t Ht; rewrite on_thread_get by lia; by case_decide.
  - destruct (first_runnable_other s next Hw Hf) as [Hn Hne].
    refine (switched_quiet _ _ s s' next _ Hw Hw' Hn Hne Hs _ _); [done|by left].
Qed.

Lemma wake_one_cases channel (t : thread_t) :
  wake_one channel t = t \/ state t = THREAD_BLOCKED /\ wait_channel t = channel /\
    state (wake_one channel t) = THREAD_READY.
Proof.
  unfold wake_one. destruct (bool_decide _ && _) eqn:E'; [|by left].
  apply andb_prop in E' as [E1 E2]. apply bool_decide_eq_true in E1. right. split; [done|]. split; [lia|done].
Qed.

Lemma wakeup_quiet z who s channel : sched_wf s -> quiet z who s (sched_wakeup s channel).
Proof.
  intros Hw. pose proof (sched_wakeup_wf s channel Hw) as Hw'.
  destruct (sched_wakeup_spec s channel Hw) as [E1 E2 _ _ E5 Hg].
  split; [done|lia|intros t Ht..]; rewrite Hg by done;
    destruct (wake_one_cases channel (threads s).[t]) as [->|(H1 & H2 & H3)]; try done; by rewrite H3.
Qed.

(** Nobody sleeps on the channel any more. *)
Lemma wakeup_wakes s channel t :
  sched_wf s -> 0 <= t < thread_capacity s ->
  state (threads (sched_wakeup s channel)).[t] = THREAD_BLOCKED ->
  wait_channel (threads s).[t] <> channel.
Proof.
  intros Hw Ht. destruct (sched_wakeup_spec s channel Hw) as [_ _ _ _ _ Hg]. rewrite Hg by done.
  unfold wake_one. destruct (bool_decide _) eqn:Eb; simpl.
  - destruct (wait_channel _ =? channel) eqn:Ec; bool_prop; done.
  - intros Hb. by rewrite Hb, bool_decide_eq_true_2 in Eb.
Qed.

(** Releasing descriptors only wakes sleepers. *)
Lemma release_slot_quiet z who pipes_addr ps s slot :
  sched_wf s -> quiet z who s (release_slot pipes_addr ps s slot).2.
Proof.
  intros Hw. unfold release_slot, pipe_close_reader, pipe_close_writer.
  repeat split_if; simpl; try (by apply quiet_refl); by apply wakeup_quiet.
Qed.

Lemma fd_cleanup_quiet z who pipes_addr ps s t :
  sched_wf s -> quiet z who s (fd_cleanup_thread pipes_addr ps s t).2.
Proof.
  intros Hw. unfold fd_cleanup_thread.
  apply (for_each_keep 0 THREAD_MAX_FDS _ (ps, s) (fun st => quiet z who s st.2)); [by apply quiet_refl|].
  intros fd [ps' s'] _ Hq. destruct (sched_fd_get_for s' t fd); [|done].
  eapply quiet_trans; [exact Hq|]. apply release_slot_quiet, Hq.
Qed.
End quiet.

(** * The process table and the thread table *)

Section table.
Context {K : Type} `{E : SchedEnv K}.
Implicit Types (kn : kern K) (t i j who p : Z).

Definition live (ps : list process_t) i : Prop := 0 <= i < 64 /\ pstate ps.[i] <> PROCESS_UNUSED.

(** Live records have their own pid and their own thread. *)
Record table_wf (ps : list process_t) (next cap : Z) : Prop := {
  tw_len : zlen ps = 64;
  tw_next : 0 < next < 2147483648;
  tw_pid i : live ps i -> 0 < pid ps.[i] < next;
  tw_tid i : live ps i -> 0 <= tid ps.[i] < cap;
  tw_pids i j : live ps i -> live ps j -> pid ps.[i] = pid ps.[j] -> i = j;
  tw_tids i j : live ps i -> live ps j -> tid ps.[i] = tid ps.[j] -> i = j;
}.

Definition thread_state kn t : thread_state_t := state (threads (kn_sched kn)).[t].

(** The thread of a live record exists, and has ended only if the record says so. *)
Record kern_wf kn : Prop := {
  kw_sched : sched_wf (kn_sched kn);
  kw_table : table_wf (processes kn) (next_pid kn) (thread_capacity (kn_sched kn));
  kw_used i : live (processes kn) i -> thread_state kn (tid (processes kn).[i]) <> THREAD_UNUSED;
  kw_zombie i : live (processes kn) i -> thread_state kn (tid (processes kn).[i]) = THREAD_ZOMBIE ->
    pstate (processes kn).[i] = PROCESS_EXITED;
}.

(** While [w] sleeps it sleeps on [p], a process that has not exited. *)
Definition waiting w p kn : Prop :=
  thread_state kn w = THREAD_BLOCKED ->
  wait_channel (threads (kn_sched kn)).[w] = u64 p /\
  exists i, live (processes kn) i /\ pid (processes kn).[i] = p /\
    pstate (processes kn).[i] <> PROCESS_EXITED.

(** The status that [p], a child of [parent], has exited with is still there. *)
Definition has_status p (parent status : Z) kn : Prop :=
  exists i, live (processes kn) i /\ pid (processes kn).[i] = p /\ pstate (processes kn).[i] = PROCESS_EXITED /\
    parent_pid (processes kn).[i] = parent /\ exit_status (processes kn).[i] = status.

(** What every call by thread [who] keeps; it may collect the status of [q]. *)
Record keeps who (q : Z) kn kn' : Prop := {
  kp_wf : kern_wf kn';
  kp_cap : thread_capacity (kn_sched kn) <= thread_capacity (kn_sched kn');
  kp_waiting w p : w <> who -> 0 <= w < thread_capacity (kn_sched kn) -> 0 < p < 2147483648 ->
    waiting w p kn -> waiting w p kn';
  kp_status p parent status : p <> q -> has_status p parent status kn -> has_status p parent status kn';
}.

Lemma keeps_refl who q kn : kern_wf kn -> keeps who q kn kn.
Proof. intros Hw. by split. Qed.

Lemma keeps_chain who q kn1 kn2 kn3 : keeps who q kn1 kn2 -> keeps who q kn2 kn3 -> keeps who q kn1 kn3.
Proof.
  intros [W1 C1 P1 S1] [W2 C2 P2 S2]. split; [done|lia| |auto]. intros w p Hw Hb Hp H. apply P2; auto. lia.
Qed.

Lemma is_live_spec ps i : 0 <= i < 64 -> is_live (pstate ps.[i]) = true <-> live ps i.
Proof.
  intros Hi. unfold is_live, live. rewrite negb_true_iff, bool_decide_eq_false. tauto.
Qed.

(** The lookups. *)
Lemma find_live_spec kn (q : process_t -> bool) r :
  find_first 0 PROCESS_MAX (fun i => is_live (pstate (processes kn).[i]) && q (processes kn).[i]) = r ->
  match r with
  | Some i => live (processes kn) i /\ q (processes kn).[i] = true
  | None => forall i, live (processes kn) i -> q (processes kn).[i] = false
  end.
Proof.
  intros <-. pose proof (find_first_spec 0 PROCESS_MAX
    (fun i => is_live (pstate (processes kn).[i]) && q (processes kn).[i])) as H.
  destruct (find_first _ _ _) as [i|].
  - destruct H as (Hi & Hq & _). bool_prop. split; [by apply is_live_spec|done].
  - intros i Hl. specialize (H i (proj1 Hl)). apply is_live_spec in Hl as Hl'; [|apply Hl].
    by rewrite Hl' in H.
Qed.

Lemma find_process_spec kn p :
  match find_process kn p with
  | Some i => live (processes kn) i /\ pid (processes kn).[i] = p
  | None => forall i, live (processes kn) i -> pid (processes kn).[i] <> p
  end.
Proof.
  pose proof (find_live_spec kn (fun q => pid q =? p) _ eq_refl) as H. unfold find_process.
  destruct (find_first _ _ _).
  - destruct H. bool_prop. done.
  - intros i Hi. specialize (H i Hi). by bool_prop.
Qed.

Lemma find_process_by_tid_spec kn t :
  match find_process_by_tid kn t with
  | Some i => live (processes kn) i /\ tid (processes kn).[i] = t
  | None => forall i, live (processes kn) i -> tid (processes kn).[i] <> t
  end.
Proof.
  pose proof (find_live_spec kn (fun q => tid q =? t) _ eq_refl) as H. unfold find_process_by_tid.
  destruct (find_first _ _ _).
  - destruct H. bool_prop. done.
  - intros i Hi. specialize (H i Hi). by bool_prop.
Qed.

Lemma find_process_live kn next cap i :
  table_wf (processes kn) next cap -> live (processes kn) i ->
  find_process kn (pid (processes kn).[i]) = Some i.
Proof.
  intros Hw Hl. pose proof (find_process_spec kn (pid (processes kn).[i])) as H.
  destruct (find_process _ _) as [j|]; [|by destruct (H i Hl)].
  destruct H as [Hj E']. f_equal. by eapply (tw_pids _ _ _ Hw).
Qed.

Lemma find_process_by_tid_live kn next cap i :
  table_wf (processes kn) next cap -> live (processes kn) i ->
  find_process_by_tid kn (tid (processes kn).[i]) = Some i.
Proof.
  intros Hw Hl. pose proof (find_process_by_tid_spec kn (tid (processes kn).[i])) as H.
  destruct (find_process_by_tid _ _) as [j|]; [|by destruct (H i Hl)].
  destruct H as [Hj E']. f_equal. by eapply (tw_tids _ _ _ Hw).
Qed.

(** ** Ways the tables change *)

(** The records agree but for the address space, the parent, the status, and which of the two
    unfinished states. *)
Definition same_record (a b : process_t) : Prop :=
  (pstate a = PROCESS_UNUSED <-> pstate b = PROCESS_UNUSED) /\
  (pstate a = PROCESS_EXITED <-> pstate b = PROCESS_EXITED) /\
  (pstate b <> PROCESS_UNUSED -> pid a = pid b /\ tid a = tid b) /\
  (pstate b = PROCESS_EXITED -> parent_pid a = parent_pid b /\ exit_status a = exit_status b).

Definition same_records (ps ps' : list process_t) : Prop :=
  zlen ps' = zlen ps /\ forall i, 0 <= i < 64 -> same_record ps'.[i] ps.[i].

Lemma same_records_live ps ps' i : same_records ps ps' -> live ps' i <-> live ps i.
Proof.
  intros [_ Hr]. unfold live. split; intros [Hi Hx]; (split; [done|]);
    destruct (Hr i Hi) as (Hd & _); tauto.
Qed.

Lemma same_records_get ps ps' i :
  same_records ps ps' -> live ps' i ->
  live ps i /\ pid ps'.[i] = pid ps.[i] /\ tid ps'.[i] = tid ps.[i] /\
  (pstate ps'.[i] = PROCESS_EXITED <-> pstate ps.[i] = PROCESS_EXITED).
Proof.
  intros Hs Hi. apply (same_records_live ps ps') in Hi as Hl; [|done]. split; [done|].
  destruct (proj2 Hs i (proj1 Hi)) as (_ & Hx & Hid & _). by destruct (Hid (proj2 Hl)).
Qed.

Lemma same_record_status kn kn' i p parent status :
  live (processes kn) i -> pid (processes kn).[i] = p -> pstate (processes kn).[i] = PROCESS_EXITED ->
  parent_pid (processes kn).[i] = parent -> exit_status (processes kn).[i] = status ->
  same_record (processes kn').[i] (processes kn).[i] -> has_status p parent status kn'.
Proof.
  intros Hi Hp Hx Hpar Hst (Hd & Hx' & Hid & He). destruct (Hid (proj2 Hi)), (He Hx), Hi. exists i.
  split; [split; [done|tauto]|]. split; [congruence|]. split; [tauto|]. split; congruence.
Qed.

(** The records that are live keep their pid and their thread. *)
Definition subtable (ps ps' : list process_t) : Prop :=
  zlen ps' = zlen ps /\
  forall i, live ps' i -> live ps i /\ pid ps'.[i] = pid ps.[i] /\ tid ps'.[i] = tid ps.[i].

Lemma subtable_wf ps ps' next next' cap cap' :
  table_wf ps next cap -> subtable ps ps' -> next <= next' < 2147483648 -> cap <= cap' ->
  table_wf ps' next' cap'.
Proof.
  intros [Hl Hn Hp Ht Hps Hts] [Hz Hg] Hn' Hc. split; [lia|lia|..].
  - intros i Hi. destruct (Hg i Hi) as (Hi' & -> & _). specialize (Hp i Hi'). lia.
  - intros i Hi. destruct (Hg i Hi) as (Hi' & _ & ->). specialize (Ht i Hi'). lia.
  - intros i j Hi Hj. destruct (Hg i Hi) as (Hi' & -> & _), (Hg j Hj) as (Hj' & -> & _). auto.
  - intros i j Hi Hj. destruct (Hg i Hi) as (Hi' & _ & ->), (Hg j Hj) as (Hj' & _ & ->). auto.
Qed.

Lemma same_records_subtable ps ps' : same_records ps ps' -> subtable ps ps'.
Proof.
  intros Hs. split; [apply Hs|]. intros i Hi. by destruct (same_records_get ps ps' i Hs Hi) as (H & A & B & _).
Qed.

(** Nothing ends. *)
Lemma quiet_keeps who q kn kn' :
  kern_wf kn -> quiet (-1) who (kn_sched kn) (kn_sched kn') ->
  next_pid kn <= next_pid kn' < 2147483648 -> same_records (processes kn) (processes kn') ->
  keeps who q kn kn'.
Proof.
  intros [Hs Htab Hu Hz] [Q1 Q2 Q3 Q4 Q5] En Hr.
  pose proof (fun i => same_records_get _ _ i Hr) as Hg. pose proof (tw_tid _ _ _ Htab) as Ht.
  split; [split|..].
  - done.
  - eapply subtable_wf; [done|by apply same_records_subtable|done|done].
  - intros i Hi. destruct (Hg i Hi) as (Hi' & _ & -> & _). intros Hx. specialize (Ht i Hi').
    apply (Hu i Hi'), Q4; [done|lia|done].
  - intros i Hi. destruct (Hg i Hi) as (Hi' & _ & -> & Hex). intros Hx. specialize (Ht i Hi').
    apply Hex, (Hz i Hi'), Q3; [done|lia|done].
  - done.
  - intros w p Hne Hw _ Hwait Hb. destruct (Q5 w Hw Hne Hb) as [Hb0 Hc].
    destruct (Hwait Hb0) as (Hch & i & Hi & Epid & Hex). split; [congruence|].
    exists i. pose proof (proj2 (same_records_live _ _ i Hr) Hi) as Hi'.
    destruct (Hg i Hi') as (_ & E1 & _ & E2). split; [done|]. split; [congruence|]. by rewrite E2.
  - intros p parent status _ (i & Hi & Hp & Hx & Hpar & Hst).
    apply (same_record_status kn kn' i); try done. apply Hr, Hi.
Qed.

Lemma same_record_refl a : same_record a a.
Proof. done. Qed.

Lemma sched_keeps who q kn s' :
  kern_wf kn -> quiet (-1) who (kn_sched kn) s' -> keeps who q kn (with_ksched kn s').
Proof.
  intros Hw Hq. apply quiet_keeps; try done. pose proof (tw_next _ _ _ (kw_table _ Hw)). cbn. lia.
Qed.

(** Thread [t] ends, its record takes the status. *)
Record ended t (status : Z) kn kn' : Prop := {
  en_quiet : quiet t (-1) (kn_sched kn) (kn_sched kn');
  en_next : next_pid kn' = next_pid kn;
  en_state : thread_state kn' t = THREAD_ZOMBIE;
  en_procs : processes kn' =
    match find_process_by_tid kn t with
    | Some i => (processes kn).[i <- set_exited status (processes kn).[i]]
    | None => processes kn
    end;
  en_woken w i : 0 <= w < thread_capacity (kn_sched kn) -> find_process_by_tid kn t = Some i ->
    thread_state kn' w = THREAD_BLOCKED ->
    wait_channel (threads (kn_sched kn)).[w] <> u64 (pid (processes kn).[i]);
}.

Lemma ended_keeps t status kn kn' :
  kern_wf kn -> (forall i, find_process_by_tid kn t = Some i -> pstate (processes kn).[i] <> PROCESS_EXITED) ->
  ended t status kn kn' -> keeps (-1) 0 kn kn'.
Proof.
  intros Hw Hnx [[Q1 Q2 Q3 Q4 Q5] En Ez Ep Ew]. destruct Hw as [Hs Htab Hu Hz].
  pose proof Htab as [Hl Hn Hp Ht Hps Hts].
  pose proof (find_process_by_tid_spec kn t) as Hf.
  assert (Hrec : forall i, 0 <= i < 64 -> live (processes kn) i ->
    (tid (processes kn).[i] = t /\ find_process_by_tid kn t = Some i /\
     (processes kn').[i] = set_exited status (processes kn).[i]) \/
    (tid (processes kn).[i] <> t /\ (processes kn').[i] = (processes kn).[i])).
  { intros i Hi Hli. destruct (find_process_by_tid kn t) as [j|] eqn:Ef; [|right; split; [auto|by rewrite Ep]].
    destruct Hf as [Hj Etj]. destruct (decide (i = j)) as [->|Hne].
    - left. split; [done|]. split; [done|]. rewrite Ep. apply aget_aset_eq. lia.
    - right. split; [intros Et; apply Hne, Hts; congruence|]. rewrite Ep.
      destruct Hj. by rewrite aget_aset_ne by lia. }
  assert (Hlive : forall i, live (processes kn') i -> live (processes kn) i).
  { intros i [Hi Hx]. split; [done|]. intros Hun. apply Hx. rewrite Ep.
    destruct (find_process_by_tid kn t) as [j|]; [|done]. destruct Hf as [[Hj Hlj] _].
    rewrite aget_aset_ne by (try lia; intros ->; done). done. }
  assert (Hids : forall i, live (processes kn') i -> live (processes kn) i /\
    pid (processes kn').[i] = pid (processes kn).[i] /\ tid (processes kn').[i] = tid (processes kn).[i]).
  { intros i Hi. pose proof (Hlive i Hi) as Hi'. split; [done|].
    destruct (Hrec i (proj1 Hi) Hi') as [(_ & _ & ->)|(_ & ->)]; done. }
  split; [split|..].
  - done.
  - eapply subtable_wf; [done| |rewrite En; lia|done]. split; [|done].
    rewrite Ep. destruct (find_process_by_tid kn t); [by rewrite aset_length|done].
  - intros i Hi. destruct (Hids i Hi) as (Hi' & _ & Et). rewrite Et. specialize (Ht i Hi').
    destruct (decide (tid (processes kn).[i] = t)) as [->|Hne]; [by rewrite Ez|].
    intros Hx. by apply (Hu i Hi'), Q4.
  - intros i Hi. destruct (Hids i Hi) as (Hi' & _ & Et). rewrite Et. specialize (Ht i Hi'). intros Hx.
    destruct (Hrec i (proj1 Hi) Hi') as [(_ & _ & ->)|(Hne & ->)]; [done|]. by apply (Hz i Hi'), Q3.
  - lia.
  - intros w p Hne Hwc Hp32 Hwait Hb. destruct (Q5 w Hwc Hne Hb) as [Hb0 Hc].
    destruct (Hwait Hb0) as (Hch & i & Hi & Epid & Hex). split; [congruence|]. exists i.
    destruct (Hrec i (proj1 Hi) Hi) as [(Et & Ef & _)|(_ & Er)].
    + exfalso. apply (Ew w i Hwc Ef Hb). congruence.
    + unfold live. rewrite Er. destruct Hi. done.
  - intros p parent st _ (i & Hi & Hp' & Hx & Hpar & Hst). apply (same_record_status kn kn' i); try done.
    destruct (Hrec i (proj1 Hi) Hi) as [(_ & Ef & _)|(_ & ->)]; [by destruct (Hnx i Ef)|done].
Qed.
End table.

(** * The end of a thread *)

Section ending.
Context {K : Type} `{E : SchedEnv K}.
Implicit Types (kn : kern K) (s : sched K) (t i j z who p : Z).

(** A thread is put in a final state. *)
Lemma end_thread_quiet s t (f : thread_t -> thread_t) :
  sched_wf s -> 0 <= t < thread_capacity s -> (forall u, thread_ok u -> thread_ok (f u)) ->
  (forall u, state (f u) = THREAD_ZOMBIE \/ state (f u) = THREAD_UNUSED) -> quiet t (-1) s (on_thread s t f).
Proof.
  intros Hw Ht Hok Hst. pose proof (sw_len _ Hw) as Hl.
  assert (Hg : forall u, 0 <= u -> (threads (on_thread s t f)).[u] =
    if decide (u = t) then f (threads s).[t] else (threads s).[u]) by (intros; apply on_thread_get; lia).
  pose proof (Hst (threads s).[t]) as Hz.
  split; [|done|..].
  - apply on_thread_wf; try done. intros u Hr. destruct (Hst u); congruence.
  - intros u Hu Hx. rewrite Hg by lia. by case_decide.
  - intros u Hu Hx. rewrite Hg by lia. by case_decide.
  - intros u Hu _. rewrite Hg by lia. case_decide; [|done]. destruct Hz; congruence.
Qed.

Lemma wakeup_zombie s channel t :
  sched_wf s -> 0 <= t < thread_capacity s -> state (threads s).[t] = THREAD_ZOMBIE ->
  state (threads (sched_wakeup s channel)).[t] = THREAD_ZOMBIE.
Proof.
  intros Hw Ht Hz. destruct (sched_wakeup_spec s channel Hw) as [_ _ _ _ _ Hg]. rewrite Hg by done.
  destruct (wake_one_cases channel (threads s).[t]) as [->|(Hb & _)]; [done|congruence].
Qed.

Lemma find_process_by_tid_ksched kn s t :
  find_process_by_tid (with_ksched kn s) t = find_process_by_tid kn t.
Proof. done. Qed.

(** Marking the record wakes whoever waits for the process. *)
Lemma mark_exited_ended kn s t status :
  kern_wf kn -> 0 <= t < thread_capacity (kn_sched kn) -> quiet t (-1) (kn_sched kn) s ->
  state (threads s).[t] = THREAD_ZOMBIE -> ended t status kn (process_mark_exited (with_ksched kn s) t status).
Proof.
  intros Hk Ht Hq Hz. pose proof (q_wf _ _ _ _ Hq) as Hw. pose proof (q_cap _ _ _ _ Hq) as Hc.
  unfold process_mark_exited. rewrite find_process_by_tid_ksched.
  pose proof (find_process_by_tid_spec kn t) as Hf.
  destruct (find_process_by_tid kn t) as [i|] eqn:Ef.
  - cbn [on_process with_procs with_ksched kn_sched processes]. destruct Hf as [[Hi _] _].
    pose proof (tw_len _ _ _ (kw_table _ Hk)) as Hl.
    rewrite aget_aset_eq by lia. cbn [pid set_exited]. set (ch := u64 _).
    split; cbn [kn_sched next_pid processes]; rewrite ?Ef; try done.
    + eapply quiet_trans; [done|]. by apply wakeup_quiet.
    + apply wakeup_zombie; [done|lia|done].
    + intros w j Hwc [= <-] Hb. unfold thread_state in Hb. cbn [kn_sched] in Hb.
      pose proof (wakeup_wakes s ch w Hw ltac:(lia) Hb) as Hne.
      assert (Hwt : w <> -1) by lia.
      pose proof (q_blocked _ _ _ _ (wakeup_quiet (-1) (-1) s ch Hw) w ltac:(lia) Hwt Hb) as [Hb1 _].
      destruct (q_blocked _ _ _ _ Hq w Hwc Hwt Hb1) as [_ Hch]. by rewrite <- Hch.
  - split; cbn [kn_sched with_ksched next_pid processes]; rewrite ?Ef; done.
Qed.

(** What follows the end keeps it. *)
Lemma ended_then t status kn kn' s :
  0 <= t < thread_capacity (kn_sched kn) -> ended t status kn kn' -> quiet (-1) (-1) (kn_sched kn') s ->
  state (threads s).[t] = THREAD_ZOMBIE -> ended t status kn (with_ksched kn' s).
Proof.
  intros Ht [Hq En Ez Ep Ew] Hq' Hz. pose proof (q_cap _ _ _ _ Hq) as Hc. split; try done.
  - eapply quiet_trans; [done|]. destruct Hq' as [A B C D F]. split; auto.
    + intros u Hu _. apply C; [done|lia].
    + intros u Hu _. apply D; [done|lia].
  - intros w i Hw Hf Hb. apply (Ew w i Hw Hf).
    by destruct (q_blocked _ _ _ _ Hq' w ltac:(lia) ltac:(lia) Hb).
Qed.

(** The next thread is entered by a caller that is not coming back. *)
Lemma leave_quiet s next (k : K) :
  sched_wf s -> 0 <= next < thread_capacity s -> next <> current_thread s ->
  state (threads s).[current_thread s] <> THREAD_RUNNING ->
  let s' := with_env (activate (with_current (on_thread s next (set_state THREAD_RUNNING)) next) next) k in
  quiet (-1) (-1) s s' /\ current_thread s' = next /\ state (threads s').[next] = THREAD_RUNNING /\
  forall u, 0 <= u -> u <> next -> (threads s').[u] = (threads s).[u].
Proof.
  intros Hw Hn Hne Hcur s'. pose proof Hw as [Hc Hl _ Hok Hrun].
  assert (Hg : forall u, 0 <= u -> (threads s').[u] =
    if decide (u = next) then set_state THREAD_RUNNING (threads s).[next] else (threads s).[u])
    by (intros u Hu; unfold s'; apply (on_thread_get s); lia).
  split; [|split; [done|split; [rewrite Hg by lia; by rewrite decide_True|
    intros u Hu Hx; rewrite Hg by done; by case_decide]]].
  split; [|done|intros u Hu; rewrite Hg by lia; by case_decide..].
  split; try done.
  - change (zlen (threads s')) with (zlen (threads (on_thread s next (set_state THREAD_RUNNING)))).
    by rewrite on_thread_length.
  - intros u Hu. rewrite Hg by lia. case_decide; [by apply (Hok next)|by apply Hok].
  - intros u Hu. rewrite Hg by lia. case_decide; [done|]. intros Hr. apply Hrun in Hr as Hr'; [|done].
    congruence.
Qed.

(** Ending the running thread. *)
Lemma sched_exit_status_spec kn status :
  kern_wf kn ->
  let me := current_thread (kn_sched kn) in
  let r := sched_exit_status kn status in
  ended me status kn r.1 /\
  exists s, (exists kn1, ended me status kn kn1 /\ s = sched_wakeup (kn_sched kn1) (u64 me) /\ current_thread s = me) /\
    ((r.2 = Gone true /\ kn_sched r.1 = s /\ none_runnable s) \/
     (r.2 = Gone false /\ first_runnable s (current_thread (kn_sched r.1)) /\
      state (threads (kn_sched r.1)).[current_thread (kn_sched r.1)] = THREAD_RUNNING)).
Proof.
  intros Hk me r. pose proof (kw_sched _ Hk) as Hw. pose proof (sw_cur _ Hw) as Hcur. fold me in Hcur.
  subst r. unfold sched_exit_status. fold me. replace (me =? -1) with false by lia.
  set (s0 := on_thread (kn_sched kn) me (set_state THREAD_ZOMBIE)).
  pose proof (sw_len _ Hw) as Hl.
  assert (Hz0 : state (threads s0).[me] = THREAD_ZOMBIE).
  { unfold s0. rewrite on_thread_get by lia. by rewrite decide_True. }
  assert (Hq0 : quiet me (-1) (kn_sched kn) s0) by (apply end_thread_quiet; try done; by left).
  pose proof (mark_exited_ended kn s0 me status Hk Hcur Hq0 Hz0) as He.
  assert (Hc0 : current_thread (kn_sched (process_mark_exited (with_ksched kn s0) me status)) = me).
  { unfold process_mark_exited. destruct (find_process_by_tid _ _); [|done]. cbn [on_process with_procs with_ksched kn_sched].
    by rewrite (wk_current _ _ _ (sched_wakeup_spec s0 _ (q_wf _ _ _ _ Hq0))). }
  set (kn1 := process_mark_exited (with_ksched kn s0) me status) in *. clearbody kn1.
  cbv zeta. pose proof (q_wf _ _ _ _ (en_quiet _ _ _ _ He)) as Hw1.
  pose proof (q_cap _ _ _ _ (en_quiet _ _ _ _ He)) as Hc1.
  set (s := sched_wakeup (kn_sched kn1) (u64 me)).
  assert (Hws : sched_wf s) by by apply sched_wakeup_wf.
  assert (Hcs : current_thread s = me)
    by (unfold s; by rewrite (wk_current _ _ _ (sched_wakeup_spec _ _ Hw1))).
  assert (Hzs : state (threads s).[me] = THREAD_ZOMBIE)
    by (apply wakeup_zombie; [done|lia|apply (en_state _ _ _ _ He)]).
  assert (Hes : ended me status kn (with_ksched kn1 s))
    by (apply (ended_then me status kn kn1); try done; by apply wakeup_quiet).
  pose proof (find_next_cases s Hws) as Hn. rewrite Hcs in Hn.
  assert (Hx : exists kn1', ended me status kn kn1' /\ s = sched_wakeup (kn_sched kn1') (u64 me) /\ current_thread s = me)
    by by exists kn1.
  clearbody s. destruct Hn as [[-> Hno]|[Hne Hf]].
  - rewrite Z.eqb_refl. split; [done|]. exists s. split; [done|]. left. done.
  - replace (find_next_runnable s me =? me) with false by lia.
    set (next := find_next_runnable s me) in *. clearbody next.
    destruct (first_runnable_other s next Hws Hf) as [Hnb _].
    destruct (env_switch_context _ _) as [k sp]. cbn [fst snd].
    destruct (leave_quiet s next k Hws Hnb ltac:(congruence) ltac:(congruence)) as (Hq & Ec & Hrun & Hg).
    split.
    + apply (ended_then me status kn (with_ksched kn1 s)); [lia|done|exact Hq|]. by rewrite Hg by lia.
    + exists s. split; [done|]. right. cbn [kn_sched with_ksched]. by rewrite Ec.
Qed.

(** Ending another thread. *)
Lemma sched_kill_other_spec kn t status :
  kern_wf kn -> t <> current_thread (kn_sched kn) ->
  let r := sched_kill kn t status in
  (r = (kn, Done (-1)) /\ (0 <= t < thread_capacity (kn_sched kn) ->
     thread_state kn t = THREAD_UNUSED \/ thread_state kn t = THREAD_ZOMBIE)) \/
  (r.2 = Done 0 /\ 0 <= t < thread_capacity (kn_sched kn) /\ ended t status kn r.1 /\
   current_thread (kn_sched r.1) = current_thread (kn_sched kn)).
Proof.
  intros Hk Hne r. pose proof (kw_sched _ Hk) as Hw. subst r. unfold sched_kill.
  destruct ((t <? 0) || _) eqn:E0; [left; split; [done|]; intros; apply orb_prop in E0; destruct E0; bool_prop; lia|].
  bool_prop. replace (t =? current_thread (kn_sched kn)) with false by lia.
  destruct (bool_decide _ || _) eqn:E1.
  { left. split; [done|]. intros _. apply orb_prop in E1 as [E1|E1]; apply bool_decide_eq_true in E1; auto. }
  right. split; [done|]. split; [lia|]. pose proof (sw_len _ Hw) as Hl.
  set (s1 := on_thread (kn_sched kn) t (set_state THREAD_ZOMBIE)). set (s2 := on_thread s1 t (set_wait 0)).
  assert (Hq1 : quiet t (-1) (kn_sched kn) s1) by (apply end_thread_quiet; try done; by left).
  pose proof (q_wf _ _ _ _ Hq1) as Hw1. pose proof (sw_len _ Hw1) as Hl1.
  assert (Hc1 : thread_capacity s1 = thread_capacity (kn_sched kn)) by done.
  assert (Hz2 : state (threads s2).[t] = THREAD_ZOMBIE).
  { unfold s2. rewrite on_thread_get by lia. rewrite decide_True by done.
    unfold s1. rewrite on_thread_get by lia. by rewrite decide_True. }
  assert (Hq2 : quiet t (-1) (kn_sched kn) s2).
  { destruct Hq1 as [A B C D F].
    assert (Hg : forall u, 0 <= u -> u <> t -> (threads s2).[u] = (threads s1).[u])
      by (intros u Hu Hx; unfold s2; rewrite on_thread_get by lia; by rewrite decide_False).
    split; try done.
    - unfold s2. apply on_thread_wf; [done|lia|done|done].
    - intros u Hu Hx. rewrite Hg by first [done|lia]. auto.
    - intros u Hu Hx. rewrite Hg by first [done|lia]. auto.
    - intros u Hu Hx Hb. destruct (decide (u = t)) as [->|Hut]; [congruence|].
      rewrite Hg in Hb by first [done|lia]. rewrite Hg by first [done|lia]. auto. }
  split; [apply (mark_exited_ended kn s2 t status Hk ltac:(lia) Hq2 Hz2)|].
  unfold process_mark_exited. cbn [fst]. destruct (find_process_by_tid _ _); [|done].
  cbn [on_process with_procs with_ksched kn_sched].
  by rewrite (wk_current _ _ _ (sched_wakeup_spec s2 _ (q_wf _ _ _ _ Hq2))).
Qed.
End ending.

(** * Waiting, spawning and the first step of a process *)

Section calls.
Context {K : Type} `{E : SchedEnv K} `{PE : ProcEnv K}.
Context (pipes_addr elf_trampoline : Z).
Implicit Types (kn : kern K) (s : sched K) (k : K) (t i j z who p : Z).

(** The record of a process that has exited is given back, its thread with it. *)
Lemma released_keeps kn kn' i :
  kern_wf kn -> live (processes kn) i -> pstate (processes kn).[i] = PROCESS_EXITED ->
  quiet (tid (processes kn).[i]) (-1) (kn_sched kn) (kn_sched kn') -> next_pid kn' = next_pid kn ->
  zlen (processes kn') = 64 -> pstate (processes kn').[i] = PROCESS_UNUSED ->
  (forall j, 0 <= j < 64 -> j <> i -> same_record (processes kn').[j] (processes kn).[j]) ->
  keeps (-1) (pid (processes kn).[i]) kn kn'.
Proof using Type.
  intros [Hs Htab Hu Hz] Hli Hex [Q1 Q2 Q3 Q4 Q5] En El Hun Hr.
  assert (Hg : forall j, live (processes kn') j -> live (processes kn) j /\ j <> i /\
    pid (processes kn').[j] = pid (processes kn).[j] /\ tid (processes kn').[j] = tid (processes kn).[j] /\
    (pstate (processes kn').[j] = PROCESS_EXITED <-> pstate (processes kn).[j] = PROCESS_EXITED)).
  { intros j [Hj Hl]. assert (Hne : j <> i) by (intros ->; done).
    destruct (Hr j Hj Hne) as (Hd & Hx & Hid & _). assert (Hlv : live (processes kn) j) by (split; tauto).
    destruct (Hid (proj2 Hlv)). done. }
  assert (Ht : forall j, live (processes kn) j -> j <> i ->
    0 <= tid (processes kn).[j] < thread_capacity (kn_sched kn) /\ tid (processes kn).[j] <> tid (processes kn).[i]).
  { intros j Hj Hne. split; [by apply (tw_tid _ _ _ Htab)|]. intros Et. by apply Hne, (tw_tids _ _ _ Htab). }
  split; [split|..].
  - done.
  - eapply subtable_wf; [done| |rewrite En; pose proof (tw_next _ _ _ Htab); lia|done].
    split; [rewrite El; symmetry; apply Htab|]. intros j Hj. by destruct (Hg j Hj) as (A & _ & B & C & _).
  - intros j Hj. destruct (Hg j Hj) as (Hj' & Hne & _ & -> & _). destruct (Ht j Hj' Hne).
    intros Hx. by apply (Hu j Hj'), Q4.
  - intros j Hj. destruct (Hg j Hj) as (Hj' & Hne & _ & -> & Hd). destruct (Ht j Hj' Hne).
    intros Hx. by apply Hd, (Hz j Hj'), Q3.
  - done.
  - intros w p Hne Hw _ Hwait Hb. destruct (Q5 w Hw Hne Hb) as [Hb0 Hc].
    destruct (Hwait Hb0) as (Hch & j & Hj & Epid & Hnx). split; [congruence|].
    assert (Hji : j <> i) by (intros ->; done). destruct (Hr j (proj1 Hj) Hji) as (E3 & E4 & Eid & _).
    destruct (Eid (proj2 Hj)) as [E1 E2], Hj as [Hjb Hjl].
    exists j. split; [split; [done|tauto]|split; [congruence|tauto]].
  - intros p parent st Hne (j & Hj & Hp & Hx & Hpar & Hst). assert (Hji : j <> i) by congruence.
    apply (same_record_status kn kn' j); try done. by apply Hr; [apply Hj|].
Qed.

(** The calls into memory management that a process makes come back. *)
Record answers : Prop := {
  an_malloc k n : is_Some (env_malloc k n);
  an_free k a : is_Some (env_free k a);
  an_unregister k space : is_Some (env_unregister_stack k space);
  an_register k space top size : is_Some (env_register_stack k space top size);
  an_elf_load k space data size bias : is_Some (env_elf_load k space data size bias);
}.

Lemma answers_heap s : answers -> heap_answers s.
Proof using Type. intros Ha. split; intros; [apply Ha|apply (an_free Ha)]. Qed.

Lemma clear_slot_ok (t : thread_t) : thread_ok t -> thread_ok (clear_slot t).
Proof using Type.
  intros [Hz Hp]. split; [|done]. cbn [fds clear_slot].
  apply (for_each_keep 0 THREAD_MAX_FDS _ _ (fun l => zlen l = 8)); [done|].
  intros j l _ Hl. by rewrite aset_length.
Qed.

(** Reaping gives the slot of an ended thread back, and leaves any other alone. *)
Lemma reap_zombie_spec kn z :
  answers -> sched_wf (kn_sched kn) -> zlen (processes kn) = 64 ->
  exists kn', reap_zombie pipes_addr kn z = Some kn' /\
    quiet z (-1) (kn_sched kn) (kn_sched kn') /\ next_pid kn' = next_pid kn /\
    same_records (processes kn) (processes kn') /\
    (0 <= z < thread_capacity (kn_sched kn) -> z <> current_thread (kn_sched kn) ->
     thread_state kn z = THREAD_ZOMBIE -> thread_state kn' z = THREAD_UNUSED).
Proof using Type.
  intros Ha Hw Hlen. unfold reap_zombie. destruct (_ || _) eqn:E0.
  { exists kn. split; [done|]. split; [by apply quiet_refl|]. do 2 (split; [done|]).
    intros Hz Hne Hst. unfold thread_state in Hst. rewrite bool_decide_eq_true_2 in E0 by done.
    apply orb_prop in E0 as [E0|E0]; [|done]. apply orb_prop in E0 as [E0|E0]; bool_prop; [|lia].
    apply orb_prop in E0 as [E0|E0]; bool_prop; lia. }
  bool_prop.
  pose proof (fd_cleanup_quiet z (-1) pipes_addr (kn_pipes kn) (kn_sched kn) z Hw) as Hq.
  destruct (fd_cleanup_thread pipes_addr (kn_pipes kn) (kn_sched kn) z) as [ps s]. cbn [snd] in Hq.
  cbv zeta. cbn [kn_sched]. set (k1 := free_stack _ _). clearbody k1.
  assert (Hmid : exists kn1,
    (if negb (address_space (threads s).[z] =? env_kernel_space (kn_env (with_k (mk_kern s ps (processes kn) (next_pid kn)) k1)))
     then k ← env_unregister_stack (kn_env (with_k (mk_kern s ps (processes kn) (next_pid kn)) k1)) (address_space (threads s).[z]);
          Some (process_reap_thread (with_k (with_k (mk_kern s ps (processes kn) (next_pid kn)) k1) k) z (address_space (threads s).[z]))
     else Some (with_k (mk_kern s ps (processes kn) (next_pid kn)) k1)) = Some kn1 /\
    same_table s (kn_sched kn1) /\ next_pid kn1 = next_pid kn /\ same_records (processes kn) (processes kn1)).
  { destruct (negb _); [|eexists; split; [done|]; done].
    destruct (an_unregister Ha (kn_env (with_k (mk_kern s ps (processes kn) (next_pid kn)) k1))
      (address_space (threads s).[z])) as [k2 ->]. cbn [mbind option_bind]. eexists. split; [done|].
    unfold process_reap_thread. destruct (find_process_by_tid _ z) as [i|] eqn:Ef; [|done].
    split; [done|]. split; [done|]. cbn [with_k with_ksched on_process with_procs processes].
    pose proof (find_process_by_tid_spec (with_k (with_k (mk_kern s ps (processes kn) (next_pid kn)) k1) k2) z) as Hf.
    rewrite Ef in Hf. destruct Hf as [[Hi _] _].
    split; [by rewrite aset_length|]. intros j Hj. rewrite aget_aset_cases by lia.
    destruct (decide (i = j)); [by subst|done]. }
  destruct Hmid as (kn1 & -> & Hst & En & Hrec). cbn [mbind option_bind].
  eexists. split; [done|]. cbn [with_ksched kn_sched processes next_pid].
  pose proof (same_table_quiet z (-1) s (kn_sched kn1) Hst (q_wf _ _ _ _ Hq)) as Hq1.
  pose proof (quiet_trans _ _ _ _ _ Hq Hq1) as Hq2. pose proof (q_wf _ _ _ _ Hq1) as Hw1.
  pose proof (q_cap _ _ _ _ Hq2) as Hcap.
  split; [|split; [done|split; [done|]]].
  - eapply quiet_trans; [done|]. apply end_thread_quiet; [done|lia|exact clear_slot_ok|by right].
  - intros Hz _ _. unfold thread_state. cbn [with_ksched kn_sched]. pose proof (sw_len _ Hw1).
    rewrite on_thread_get by lia. by rewrite decide_True.
Qed.

Lemma keeps_weaken who q q0 kn kn' :
  kern_wf kn -> q0 = 0 \/ q0 = q -> keeps (-1) q0 kn kn' -> keeps who q kn kn'.
Proof using Type.
  intros Hk Hq [W C P S]. split; try done; [intros w p _ Hw; apply P; [lia|done]|].
  intros p parent status Hne Hs. apply S; [|done]. destruct Hs as (i & Hi & <- & _).
  pose proof (tw_pid _ _ _ (kw_table _ Hk) i Hi). lia.
Qed.

(** Waiting is refused to all but the parent, takes the status of a child that has
    exited and frees its record and its thread, and sleeps on the child before. *)
Definition wait_outcome kn p (r : kern K * call_end (option Z)) : Prop :=
  (r = (kn, Done None) /\ forall i, live (processes kn) i -> pid (processes kn).[i] = p ->
     parent_pid (processes kn).[i] <> current_pid kn) \/
  exists i, live (processes kn) i /\ pid (processes kn).[i] = p /\
    parent_pid (processes kn).[i] = current_pid kn /\
    ((pstate (processes kn).[i] = PROCESS_EXITED /\ r.2 = Done (Some (exit_status (processes kn).[i])) /\
      pstate (processes r.1).[i] = PROCESS_UNUSED /\
      (forall j, 0 <= j < 64 -> j <> i -> same_record (processes r.1).[j] (processes kn).[j]) /\
      (tid (processes kn).[i] <> current_thread (kn_sched kn) ->
       thread_state kn (tid (processes kn).[i]) = THREAD_ZOMBIE ->
       thread_state r.1 (tid (processes kn).[i]) = THREAD_UNUSED)) \/
     (pstate (processes kn).[i] <> PROCESS_EXITED /\
      let (s, halted) := sched_sleep (kn_sched kn) (u64 p) in r = (with_ksched kn s, Asleep halted))).

Lemma process_wait_spec kn p :
  answers -> kern_wf kn ->
  exists r, process_wait pipes_addr kn p = Some r /\ wait_outcome kn p r /\
    keeps (current_thread (kn_sched kn)) p kn r.1.
Proof using Type.
  intros Ha Hk. unfold process_wait. pose proof (find_process_spec kn p) as Hf.
  assert (Hrefl : keeps (current_thread (kn_sched kn)) p kn kn) by by apply keeps_refl.
  destruct (find_process kn p) as [i|].
  2:{ eexists. split; [done|]. split; [|done]. left. split; [done|]. intros i Hi Hp. by destruct (Hf i Hi). }
  destruct Hf as [Hi Hp]. pose proof (kw_table _ Hk) as Htab. pose proof (kw_sched _ Hk) as Hw.
  destruct (parent_pid _ =? current_pid kn) eqn:Epar; bool_prop; cbn [negb].
  2:{ eexists. split; [done|]. split; [|done]. left. split; [done|]. intros j Hj Hpj.
      replace j with i; [done|]. apply (tw_pids _ _ _ Htab); [done|done|congruence]. }
  pose proof (tw_tid _ _ _ Htab i Hi) as Ht.
  destruct (bool_decide _) eqn:Eex.
  - apply bool_decide_eq_true in Eex. replace (tid _ >=? 0) with true by lia.
    destruct (reap_zombie_spec kn (tid (processes kn).[i]) Ha Hw (tw_len _ _ _ Htab))
      as (kn1 & E1 & Hq & En & Hrec & Hz).
    unfold sched_reap_thread. rewrite E1. cbn [mbind option_bind]. eexists. split; [done|].
    assert (Htab1 : table_wf (processes kn1) (next_pid kn1) (thread_capacity (kn_sched kn1))).
    { eapply subtable_wf; [done|by apply same_records_subtable| |apply Hq].
      pose proof (tw_next _ _ _ Htab). lia. }
    assert (Hi1 : live (processes kn1) i) by by apply (same_records_live (processes kn)).
    assert (Ep1 : pid (processes kn1).[i] = p)
      by (by destruct (same_records_get _ _ i Hrec Hi1) as (_ & -> & _)).
    unfold release_process. rewrite <- Ep1. rewrite (find_process_live kn1 _ _ i Htab1 Hi1). cbn [fst snd].
    set (kn2 := on_process kn1 i _). pose proof (tw_len _ _ _ Htab1) as Hl1. destruct Hi as [Hib Hil].
    assert (Hun : pstate (processes kn2).[i] = PROCESS_UNUSED)
      by (cbn [kn2 on_process with_procs processes]; rewrite aget_aset_eq by lia; done).
    assert (Hoth : forall j, 0 <= j < 64 -> j <> i -> same_record (processes kn2).[j] (processes kn).[j]).
    { intros j Hj Hne. cbn [kn2 on_process with_procs processes]. rewrite aget_aset_ne by lia. by apply Hrec. }
    split.
    + right. exists i. split; [done|]. split; [congruence|]. split; [done|]. left.
      split; [done|]. split; [done|]. split; [done|]. split; [done|]. intros Hne Hst. by apply Hz.
    + apply (keeps_weaken _ _ p); [done|by right|]. rewrite <- Hp. apply released_keeps; try done.
      unfold kn2. cbn [on_process with_procs processes]. by rewrite aset_length.
  - apply bool_decide_eq_false in Eex. pose proof (sleep_quiet (-1) (kn_sched kn) (u64 p) Hw) as Hq.
    destruct (sched_sleep (kn_sched kn) (u64 p)) as [s halted] eqn:Es. eexists. split; [done|]. split.
    + right. exists i. split; [done|]. split; [done|]. split; [done|]. right. by rewrite Es.
    + by apply sched_keeps.
Qed.

(** ** Spawning *)

Lemma grown_quiet s s' (k : K) (q : Z) : sched_wf s -> grown s s' k q -> quiet (-1) (-1) s s'.
Proof using Type.
  intros Hw Hg. pose proof (grown_wf _ _ _ _ Hg Hw) as Hw'. destruct Hg as [E1 E2 E3 Ho Hn].
  assert (Hs : forall t, 0 <= t < thread_capacity s ->
    state (threads s').[t] = state (threads s).[t] /\ wait_channel (threads s').[t] = wait_channel (threads s).[t])
    by (intros t Ht; by rewrite Ho by lia).
  pose proof (sw_cap _ Hw). split; [done|lia|intros t Ht; destruct (Hs t Ht) as [H1 H2]; rewrite ?H1, ?H2; done..].
Qed.

Lemma spawn_quiet s prio ctx (r : sched K * Z) :
  sched_wf s -> spawn_outcome s prio ctx r ->
  quiet (-1) (-1) s r.1 /\
  (r.2 = -1 \/
   0 <= r.2 < thread_capacity r.1 /\ state (threads r.1).[r.2] = THREAD_READY /\
   context (threads r.1).[r.2] = ctx /\
   (r.2 < thread_capacity s -> state (threads s).[r.2] = THREAD_UNUSED)).
Proof using Type.
  intros Hw Ho. pose proof (spawn_wf s prio ctx r Hw Ho) as Hwr. destruct Ho as (s1 & Hu & Hr).
  assert (Hq1 : quiet (-1) (-1) s s1 /\ forall t, 0 <= t < thread_capacity s ->
    state (threads s1).[t] = THREAD_UNUSED -> state (threads s).[t] = THREAD_UNUSED).
  { assert (Hq : quiet (-1) (-1) s s1) by
      (destruct Hu as [H|[(k & q & H) _]]; [by apply same_table_quiet|by eapply grown_quiet]).
    split; [done|]. intros t Ht. apply Hq; [done|lia]. }
  destruct Hq1 as [Hq1 Hun]. pose proof (q_wf _ _ _ _ Hq1) as Hw1. pose proof (q_cap _ _ _ _ Hq1) as Hc1.
  destruct Hr as [[Er Hs]|(Hs & Hunused & _ & Hsp & Hoth & Hc & Hcur & Hl)].
  - split; [|by left]. eapply quiet_trans; [done|]. by apply same_table_quiet.
  - destruct Hsp as [Est _ _ Ectx _ _ _ _]. split.
    + eapply quiet_trans; [done|]. split; [done|lia|..]; intros t Ht _;
        (destruct (decide (t = r.2)) as [->|Hne]; [by rewrite Est|by rewrite Hoth]).
    + right. rewrite Hc. split; [done|]. split; [done|]. split; [done|]. intros Hlt. apply Hun; [lia|done].
Qed.

(** A record is taken for a new process and its thread. *)
Lemma spawned_keeps kn kn' i (a : process_t) :
  kern_wf kn -> quiet (-1) (-1) (kn_sched kn) (kn_sched kn') ->
  next_pid kn' = next_pid kn + 1 -> next_pid kn' < 2147483648 ->
  0 <= i < 64 -> ~ live (processes kn) i -> processes kn' = (processes kn).[i <- a] ->
  pid a = next_pid kn -> 0 <= tid a < thread_capacity (kn_sched kn') ->
  thread_state kn' (tid a) = THREAD_READY ->
  (tid a < thread_capacity (kn_sched kn) -> thread_state kn (tid a) = THREAD_UNUSED) ->
  keeps (-1) 0 kn kn'.
Proof using Type.
  intros [Hs Htab Hu Hz] [Q1 Q2 Q3 Q4 Q5] En Hn Hi Hfree Ep Epid Htid Hst Hnew.
  pose proof Htab as [Hl Hn0 Hp Ht Hps Hts].
  assert (Hg : forall j, live (processes kn') j -> (j = i /\ (processes kn').[j] = a) \/
    (j <> i /\ live (processes kn) j /\ (processes kn').[j] = (processes kn).[j] /\ tid (processes kn).[j] <> tid a)).
  { intros j [Hj Hlj]. rewrite Ep in *. rewrite aget_aset_cases in Hlj by lia. rewrite aget_aset_cases by lia.
    destruct (decide (i = j)) as [->|Hne]; [by left|]. right. split; [done|].
    assert (Hlv : live (processes kn) j) by done. split; [done|]. split; [done|]. intros Et.
    apply (Hu j Hlv). rewrite Et. apply Hnew. rewrite <- Et. by apply Ht. }
  split; [split|..].
  - done.
  - split; [by rewrite Ep, aset_length|lia|..].
    + intros j Hj. destruct (Hg j Hj) as [[_ ->]|(_ & Hj' & -> & _)]; [lia|]. specialize (Hp j Hj'). lia.
    + intros j Hj. destruct (Hg j Hj) as [[_ ->]|(_ & Hj' & -> & _)]; [lia|]. specialize (Ht j Hj'). lia.
    + intros j m Hj Hm. destruct (Hg j Hj) as [[-> ->]|(_ & Hj' & -> & _)], (Hg m Hm) as [[-> ->]|(_ & Hm' & -> & _)];
        try done; auto; intros Ee; exfalso.
      * specialize (Hp m Hm'). lia.
      * specialize (Hp j Hj'). lia.
    + intros j m Hj Hm. destruct (Hg j Hj) as [[-> ->]|(_ & Hj' & -> & Hne)], (Hg m Hm) as [[-> ->]|(_ & Hm' & -> & Hne')];
        try done; auto; congruence.
  - intros j Hj. destruct (Hg j Hj) as [[_ ->]|(_ & Hj' & -> & _)]; [by rewrite Hst|]. specialize (Ht j Hj').
    intros Hx. apply (Hu j Hj'), Q4; [done|lia|done].
  - intros j Hj. destruct (Hg j Hj) as [[_ ->]|(_ & Hj' & -> & _)]; [by rewrite Hst|]. specialize (Ht j Hj').
    intros Hx. apply (Hz j Hj'), Q3; [done|lia|done].
  - done.
  - intros w p Hne Hw _ Hwait Hb. destruct (Q5 w Hw Hne Hb) as [Hb0 Hc].
    destruct (Hwait Hb0) as (Hch & j & Hj & Epj & Hex). split; [congruence|]. exists j.
    assert (Hji : i <> j) by (intros ->; done). unfold live. rewrite Ep. destruct Hj.
    rewrite !aget_aset_ne by lia. done.
  - intros p parent st _ (j & Hj & Hp' & Hx & Hpar & Hstat). apply (same_record_status kn kn' j); try done.
    assert (Hji : i <> j) by (intros ->; done). destruct Hj. by rewrite Ep, aget_aset_ne by lia.
Qed.

(** A new process has the next pid, the caller as its parent and a new ready
    thread that starts in the trampoline with the request. *)
Definition spawn_elf_outcome kn (r : kern K * Z) : Prop :=
  (r.2 = -1 /\ same_records (processes kn) (processes r.1)) \/
  (r.2 = next_pid kn /\ exists i t request, 0 <= i < 64 /\ ~ live (processes kn) i /\
     processes r.1 = (processes kn).[i <- mk_process r.2 t (current_pid kn) (-1) PROCESS_STARTING 0] /\
     0 <= t < thread_capacity (kn_sched r.1) /\
     (t < thread_capacity (kn_sched kn) -> thread_state kn t = THREAD_UNUSED) /\
     thread_state r.1 t = THREAD_READY /\ request <> 0 /\ context (threads (kn_sched r.1)).[t] = request).

Lemma free_data_answers k owns_data elf_data : answers -> is_Some (free_data k owns_data elf_data).
Proof using Type. intros Ha. unfold free_data. destruct (negb _); [apply Ha|by eexists]. Qed.

Lemma env_keeps who q kn k : kern_wf kn -> keeps who q kn (with_k kn k).
Proof using Type. intros Hk. apply sched_keeps; [done|]. apply same_table_quiet; [done|apply Hk]. Qed.

Lemma reserve_spec kn :
  table_wf (processes kn) (next_pid kn) (thread_capacity (kn_sched kn)) -> next_pid kn < 2147483647 ->
  reserve_process kn = (kn, None) \/
  exists i, 0 <= i < 64 /\ ~ live (processes kn) i /\
    reserve_process kn =
      (mk_kern (kn_sched kn) (kn_pipes kn)
         ((processes kn).[i <- mk_process (next_pid kn) (-1) (current_pid kn) (-1) PROCESS_STARTING 0])
         (next_pid kn + 1), Some (next_pid kn)).
Proof using Type.
  intros Htab Hn. pose proof (tw_next _ _ _ Htab). unfold reserve_process. cbv zeta.
  destruct (find_first _ _ _) as [i|] eqn:Ef; [|by left]. right.
  apply find_first_Some in Ef as (Hi & Hl & _). exists i. split; [done|].
  rewrite s32_small by lia. replace (next_pid kn + 1 <=? 0) with false by lia. split; [|done].
  bool_prop. intros Hx. apply is_live_spec in Hx; [congruence|done].
Qed.

Lemma find_reserved kn kn' i (a : process_t) :
  kern_wf kn -> 0 <= i < 64 -> processes kn' = (processes kn).[i <- a] -> pid a = next_pid kn ->
  pstate a <> PROCESS_UNUSED -> find_process kn' (next_pid kn) = Some i.
Proof using Type.
  intros Hk Hi Ep Epid Hst. pose proof (kw_table _ Hk) as Htab. pose proof (tw_len _ _ _ Htab) as Hl.
  assert (Ei : (processes kn').[i] = a) by (rewrite Ep, aget_aset_eq by lia; done).
  pose proof (find_process_spec kn' (next_pid kn)) as Hf.
  destruct (find_process kn' (next_pid kn)) as [j|].
  - destruct Hf as [[Hj Hlj] Epj]. f_equal. destruct (decide (i = j)) as [->|Hne]; [done|].
    rewrite Ep in Hlj, Epj. rewrite aget_aset_ne in Hlj, Epj by lia.
    pose proof (tw_pid _ _ _ Htab j (conj Hj Hlj)). lia.
  - destruct (Hf i); [split; [done|]|]; by rewrite Ei.
Qed.

Lemma spawn_elf_request_spec kn elf_data elf_size owns_data argv argv_len :
  answers -> kern_wf kn -> next_pid kn < 2147483647 ->
  exists r, spawn_elf_request elf_trampoline kn elf_data elf_size owns_data argv argv_len = Some r /\
    spawn_elf_outcome kn r /\ keeps (-1) 0 kn r.1.
Proof using Type.
  intros Ha Hk Hnext. unfold spawn_elf_request.
  destruct (an_malloc Ha (kn_env kn) REQUEST_SIZEOF) as [[k0 request] ->]. cbn [mbind option_bind].
  destruct (request =? 0) eqn:Ereq; bool_prop.
  { destruct (free_data_answers k0 owns_data elf_data Ha) as [k1 ->]. cbn [mbind option_bind].
    eexists. split; [done|]. split; [by left|by apply env_keeps]. }
  cbv zeta. set (k1 := for_each _ _ _ _). clearbody k1.
  destruct (reserve_spec (with_k kn k1) (kw_table _ Hk) Hnext) as [->|(i & Hi & Hfree & ->)].
  { destruct (free_data_answers (kn_env (with_k kn k1)) owns_data elf_data Ha) as [k2 ->]. cbn [mbind option_bind].
    destruct (an_free Ha k2 request) as [k3 ->]. cbn [mbind option_bind].
    eexists. split; [done|]. split; [by left|exact (env_keeps (-1) 0 kn k3 Hk)]. }
  pose proof (env_keeps (-1) 0 kn k1 Hk) as Hkeep. pose proof (kp_wf _ _ _ _ Hkeep) as Hk1.
  set (rec := mk_process _ _ _ _ _ _). set (kn1 := mk_kern _ _ _ _).
  destruct (sched_spawn_spec (kn_sched kn1) elf_trampoline THREAD_PRIO_NORMAL request) as (r & Er & Ho);
    [exact (kw_sched _ Hk1)|by apply answers_heap|].
  destruct (spawn_quiet _ _ _ _ (kw_sched _ Hk1) Ho) as [Hq Ht]. unfold sched_spawn_with_context. rewrite Er.
  clear Er Ho. destruct r as [s t]. cbn [fst snd mbind option_bind] in *.
  pose proof (tw_len _ _ _ (kw_table _ Hk)) as Hl.
  pose proof (find_reserved kn (with_ksched kn1 s) i rec Hk Hi eq_refl eq_refl ltac:(done)) as Hf.
  change (next_pid (with_k kn k1)) with (next_pid kn).
  destruct (t <? 0) eqn:Et; bool_prop.
  - unfold release_process. rewrite Hf. set (kn2 := on_process (with_ksched kn1 s) i _).
    assert (Hsame : same_records (processes kn) (processes kn2)).
    { assert (Ep : processes kn2 = (processes kn).[i <- mk_process 0 (-1) 0 0 PROCESS_UNUSED 0])
        by apply list_insert_insert_eq.
      rewrite Ep. split; [by rewrite aset_length|]. intros j Hj. rewrite aget_aset_cases by lia.
      destruct (decide (i = j)) as [<-|]; [|done].
      assert (Hun : pstate (processes kn).[i] = PROCESS_UNUSED)
        by (destruct (decide (pstate (processes kn).[i] = PROCESS_UNUSED)); [done|by destruct Hfree]).
      unfold same_record. by rewrite Hun. }
    destruct (free_data_answers (kn_env kn2) owns_data elf_data Ha) as [k2 ->]. cbn [mbind option_bind].
    destruct (an_free Ha k2 request) as [k3 ->]. cbn [mbind option_bind].
    eexists. split; [done|]. split; [by left|].
    apply (keeps_chain _ _ _ _ _ Hkeep). apply quiet_keeps; [done| |cbn; pose proof (tw_next _ _ _ (kw_table _ Hk)); lia|done].
    eapply quiet_trans; [exact Hq|]. apply same_table_quiet; [done|apply Hq].
  - destruct Ht as [Ht|(Ht & Hst & Hctx & Hnew)]; [lia|]. rewrite Hf. eexists. split; [done|].
    assert (Ep : processes (on_process (with_ksched kn1 s) i (set_tid t)) =
      (processes kn).[i <- mk_process (next_pid kn) t (current_pid kn) (-1) PROCESS_STARTING 0]).
    { cbn [on_process with_procs processes with_ksched kn1]. rewrite list_insert_insert_eq.
      by rewrite aget_aset_eq by (cbn; lia). }
    cbn [fst snd]. split.
    + right. split; [done|]. exists i, t, request. done.
    + apply (keeps_chain _ _ _ _ _ Hkeep), (spawned_keeps (with_k kn k1) _ i (mk_process (next_pid kn) t (current_pid kn) (-1) PROCESS_STARTING 0)); try done.
      cbn. lia.
Qed.

(** ** The first step and the end of a process *)

(** The running thread belongs to no process that has exited. *)
Definition acting kn : Prop :=
  forall i, find_process_by_tid kn (current_thread (kn_sched kn)) = Some i ->
    pstate (processes kn).[i] <> PROCESS_EXITED.

Lemma exit_keeps kn status :
  kern_wf kn -> acting kn -> keeps (-1) 0 kn (sched_exit_status kn status).1.
Proof using Type.
  intros Hk Hact. destruct (sched_exit_status_spec kn status Hk) as [He _].
  exact (ended_keeps _ _ _ _ Hk Hact He).
Qed.

Lemma process_kill_keeps kn p sig :
  kern_wf kn -> acting kn -> keeps (-1) 0 kn (process_kill kn p sig).1.
Proof using Type.
  intros Hk Hact. unfold process_kill, process_get_tid. pose proof (find_process_spec kn p) as Hf.
  destruct (find_process kn p) as [i|]; [|by apply keeps_refl]. destruct Hf as [Hi Hp].
  destruct (bool_decide _) eqn:Ex; [by apply keeps_refl|]. apply bool_decide_eq_false in Ex.
  pose proof (tw_tid _ _ _ (kw_table _ Hk) i Hi) as Ht. replace (tid _ <? 0) with false by lia.
  set (status := SIGNAL_EXIT_STATUS sig). clearbody status.
  destruct (decide (tid (processes kn).[i] = current_thread (kn_sched kn))) as [Et|Et].
  - unfold sched_kill. rewrite Et in Ht |- *. rewrite Z.eqb_refl.
    replace (current_thread (kn_sched kn) <? 0) with false by lia.
    replace (current_thread (kn_sched kn) >=? thread_capacity (kn_sched kn)) with false by lia. cbn [orb].
    pose proof (exit_keeps kn status Hk Hact) as Hx.
    by destruct (sched_exit_status kn status) as [kn' [?|?|?]].
  - destruct (sched_kill_other_spec kn _ status Hk Et) as [[-> _]|(_ & _ & He & _)]; [by apply keeps_refl|].
    refine (ended_keeps _ _ _ _ Hk _ He). intros j Hj.
    rewrite (find_process_by_tid_live kn _ _ i (kw_table _ Hk) Hi) in Hj. congruence.
Qed.

(** A change of the running thread's table entry that schedules nothing. *)
Lemma entry_keeps who q kn (f : thread_t -> thread_t) k :
  kern_wf kn -> (forall u, thread_ok u -> thread_ok (f u)) -> (forall u, state (f u) = state u) ->
  (forall u, wait_channel (f u) = wait_channel u) ->
  keeps who q kn (with_ksched kn (with_env (on_thread (kn_sched kn) (current_thread (kn_sched kn)) f) k)).
Proof using Type.
  intros Hk H1 H2 H3. apply sched_keeps; [done|]. pose proof (kw_sched _ Hk) as Hw.
  pose proof (on_thread_quiet (-1) who (kn_sched kn) (current_thread (kn_sched kn)) f Hw (sw_cur _ Hw) H1 H2 H3) as Hq.
  eapply quiet_trans; [exact Hq|]. apply same_table_quiet; [done|apply Hq].
Qed.

(** [kn'] comes before any thread of [kn] has ended, at the same running thread. *)
Record started kn kn' : Prop := {
  st_keeps : keeps (-1) 0 kn kn';
  st_current : current_thread (kn_sched kn') = current_thread (kn_sched kn);
  st_acting : acting kn';
}.

Lemma started_leave kn kn' status : started kn kn' -> keeps (-1) 0 kn (leave kn' status).1.
Proof using Type.
  intros [Hk Hc Ha]. eapply keeps_chain; [done|]. pose proof (exit_keeps kn' status (kp_wf _ _ _ _ Hk) Ha) as Hx.
  unfold leave, process_exit. by destruct (sched_exit_status kn' status).
Qed.

Lemma started_env kn kn' k : started kn kn' -> started kn (with_k kn' k).
Proof using Type.
  intros [Hk Hc Ha]. split; [|done|done]. eapply keeps_chain; [done|]. apply env_keeps, Hk.
Qed.

Lemma free_data_total k owns_data elf_data {R} (f : K -> option R) (P : R -> Prop) :
  answers -> (forall k', exists r, f k' = Some r /\ P r) ->
  exists r, (k' ← free_data k owns_data elf_data; f k') = Some r /\ P r.
Proof using Type. intros Ha Hf. destruct (free_data_answers k owns_data elf_data Ha) as [k' ->]. apply Hf. Qed.

Lemma setup_user_stack_answers k space top argv len :
  answers -> is_Some (setup_user_stack k space top argv len).
Proof using Type.
  intros Ha. unfold setup_user_stack. cbv zeta. destruct (env_alloc_zeroed_frame k) as [k1 frame].
  destruct (frame =? 0); [by eexists|]. destruct (env_map_page_in _ _ _ _ _) as [k2 r].
  destruct (negb _); [by eexists|]. destruct (an_register Ha k2 space top USER_STACK_MAX_SIZE) as [k3 ->].
  by eexists.
Qed.

Lemma start_image_keeps kn kn' space elf_data elf_size owns_data argv len :
  answers -> started kn kn' ->
  exists r, start_image kn' space elf_data elf_size owns_data argv len = Some r /\ keeps (-1) 0 kn r.1.
Proof using Type.
  intros Ha Hs. unfold start_image. destruct (user_process_layout _) as [[base top]|].
  - destruct (an_elf_load Ha (kn_env kn') space elf_data elf_size (base -64 USER_IMAGE_LINK_BASE))
      as [[k1 entry] ->]. cbn [mbind option_bind].
    apply free_data_total; [done|]. intros k2. destruct entry as [entry|].
    + destruct (setup_user_stack_answers (kn_env (with_k kn' k2)) space top argv len Ha) as [[k3 st] ->].
      cbn [mbind option_bind].
      assert (Hs3 : started kn (with_k (with_k kn' k2) k3)) by by do 2 apply started_env.
      destruct st as [[[stack_top argv_uaddr] n]|]; (eexists; split; [done|]); [apply Hs3|by apply started_leave].
    + eexists. split; [done|]. by apply started_leave, started_env.
  - apply free_data_total; [done|]. intros k1. eexists. split; [done|]. by apply started_leave, started_env.
Qed.

Lemma acting_same kn kn' :
  kern_wf kn -> same_records (processes kn) (processes kn') ->
  current_thread (kn_sched kn') = current_thread (kn_sched kn) -> acting kn -> acting kn'.
Proof using Type.
  intros Hk Hs Hc Ha i Hi. pose proof (find_process_by_tid_spec kn' (current_thread (kn_sched kn'))) as Hf.
  rewrite Hi in Hf. destruct Hf as [Hl Ht]. destruct (same_records_get _ _ i Hs Hl) as (Hl0 & _ & Et & ->).
  apply Ha. rewrite <- Hc, <- Ht, Et. by eapply find_process_by_tid_live; [apply Hk|].
Qed.

Lemma set_context_spec s ctx :
  sched_wf s -> sched_set_current_context s ctx = on_thread s (current_thread s) (set_context ctx).
Proof using Type.
  intros Hw. pose proof (sw_cur _ Hw). unfold sched_set_current_context.
  replace (current_thread s <? 0) with false by lia. by replace (current_thread s >=? _) with false by lia.
Qed.

Lemma set_space_spec s space :
  sched_wf s -> sched_set_address_space s (current_thread s) space =
    with_env (on_thread s (current_thread s) (set_space space)) (env_switch_space (env s) space).
Proof using Type.
  intros Hw. pose proof (sw_cur _ Hw). unfold sched_set_address_space. rewrite Z.eqb_refl.
  replace (current_thread s <? 0) with false by lia. by replace (current_thread s >=? _) with false by lia.
Qed.

Lemma started_entry kn kn' (f : thread_t -> thread_t) k :
  started kn kn' -> (forall u, thread_ok u -> thread_ok (f u)) -> (forall u, state (f u) = state u) ->
  (forall u, wait_channel (f u) = wait_channel u) ->
  started kn (with_ksched kn' (with_env (on_thread (kn_sched kn') (current_thread (kn_sched kn')) f) k)).
Proof using Type.
  intros [Hk Hc Ha] H1 H2 H3. split; [|done|exact Ha].
  eapply keeps_chain; [done|]. apply entry_keeps; [apply Hk|done..].
Qed.

(** The process is marked running in its address space. *)
Lemma started_running kn kn' space :
  started kn kn' ->
  started kn (match find_process_by_tid kn' (current_thread (kn_sched kn')) with
    | Some i => on_process kn' i (fun a : process_t =>
        mk_process (pid a) (tid a) (parent_pid a) (exit_status a) PROCESS_RUNNING space)
    | None => kn'
    end).
Proof using Type.
  intros Hs. pose proof Hs as [Hk Hc Ha]. pose proof (kp_wf _ _ _ _ Hk) as Hw.
  destruct (find_process_by_tid _ _) as [i|] eqn:Ef; [|done].
  pose proof (Ha i Ef) as Hx. pose proof (find_process_by_tid_spec kn' (current_thread (kn_sched kn'))) as Hf.
  rewrite Ef in Hf. destruct Hf as [[Hi Hl] _]. set (kn2 := on_process kn' i _).
  assert (Hsame : same_records (processes kn') (processes kn2)).
  { cbn [kn2 on_process with_procs processes]. split; [by rewrite aset_length|]. intros j Hj.
    pose proof (tw_len _ _ _ (kw_table _ Hw)). rewrite aget_aset_cases by lia.
    destruct (decide (i = j)) as [<-|]; [|done]. unfold same_record. cbn [pid tid pstate parent_pid exit_status].
    split; [done|]. split; [done|]. split; [done|]. done. }
  split; [|done|by apply (acting_same kn')]. eapply keeps_chain; [done|]. apply quiet_keeps; try done.
  - apply quiet_refl, Hw.
  - pose proof (tw_next _ _ _ (kw_table _ Hw)). cbn. lia.
Qed.

Lemma elf_process_trampoline_keeps kn :
  answers -> kern_wf kn -> acting kn ->
  exists r, elf_process_trampoline kn = Some r /\ keeps (-1) 0 kn r.1.
Proof using Type.
  intros Ha Hk Hact. unfold elf_process_trampoline. pose proof (kw_sched _ Hk) as Hw. rewrite set_context_spec by done.
  assert (Hs0 : started kn kn) by (split; [by apply keeps_refl|done|done]).
  pose proof (started_entry kn kn (set_context 0) (env (kn_sched kn)) Hs0 (fun u H => H) (fun u => eq_refl) (fun u => eq_refl))
    as Hs1.
  change (with_env (on_thread (kn_sched kn) (current_thread (kn_sched kn)) (set_context 0)) (env (kn_sched kn)))
    with (on_thread (kn_sched kn) (current_thread (kn_sched kn)) (set_context 0)) in Hs1.
  set (kn1 := with_ksched kn _) in *. clearbody kn1. cbv zeta.
  set (request := sched_current_context (kn_sched kn)). clearbody request.
  destruct (request =? 0). { eexists. split; [done|]. by apply started_leave. }
  set (argv := map _ _). clearbody argv.
  destruct (an_free Ha (kn_env kn1) request) as [k1 ->]. cbn [mbind option_bind].
  destruct (env_create_space k1) as [k2 space]. pose proof (started_env kn kn1 k2 Hs1) as Hs2.
  destruct (space =? 0).
  { apply free_data_total; [done|]. intros k3. eexists. split; [done|]. by apply started_leave, started_env. }
  unfold sched_current_tid. rewrite set_space_spec by apply (kw_sched _ (kp_wf _ _ _ _ (st_keeps _ _ Hs2))).
  pose proof (started_entry kn _ (set_space space)
    (env_switch_space (env (kn_sched (with_k kn1 k2))) space) Hs2 (fun u H => H) (fun u => eq_refl) (fun u => eq_refl)) as Hs3.
  apply start_image_keeps; [done|]. exact (started_running kn _ space Hs3).
Qed.
End calls.
