(* ===== verification/ProcessRun.v ===== *)
(** Runs of the process table: every sequence of calls and interrupts keeps it
    consistent, no exit is missed by a waiting parent, and the status reaches it. *)
From S2P Require Import Prelude Thread Pipe Fd Process ProcessSpec.

(** * What can happen next *)

Inductive act :=
  | Tick                                (* the timer interrupt *)
  | Wake (channel : Z)                  (* a device or a pipe wakes its sleepers *)
  | Yield
  | Sleep (channel : Z)
  | Resume                              (* the halted sleeper goes on *)
  | Spawn (elf_data elf_size owns_data : Z) (argv : list Z) (argv_len : Z)
  | Start                               (* a new thread in [elf_process_trampoline] *)
  | Exit (status : Z)
  | Kill (p sig : Z)
  | Wait (p : Z).

(** Acts of the running thread, as opposed to interrupts. *)
Definition by_current (a : act) : bool :=
  match a with Tick | Wake _ => false | _ => true end.

Section model.
Context {K : Type} `{E : SchedEnv K} `{PE : ProcEnv K}.
Context (pipes_addr elf_trampoline : Z).
Implicit Types (kn : kern K) (a : act).

Definition acting_b kn : bool :=
  match find_process_by_tid kn (current_thread (kn_sched kn)) with
  | Some i => negb (bool_decide (pstate (processes kn).[i] = PROCESS_EXITED))
  | None => true
  end.

(** The running thread acts while it runs and its process has not exited; pids are
    spent before they wrap. *)
Definition enabled a kn : bool :=
  let st := state (threads (kn_sched kn)).[current_thread (kn_sched kn)] in
  match a with
  | Tick | Wake _ => true
  | Resume => bool_decide (st = THREAD_READY)
  | Spawn _ _ _ _ _ =>
      bool_decide (st = THREAD_RUNNING) && acting_b kn && (next_pid kn <? 2147483647)
  | _ => bool_decide (st = THREAD_RUNNING) && acting_b kn
  end.

Definition do_act a kn : option (kern K) :=
  match a with
  | Tick => Some (with_ksched kn (sched_tick (kn_sched kn)))
  | Wake channel => Some (with_ksched kn (sched_wakeup (kn_sched kn) channel))
  | Yield => Some (with_ksched kn (sched_yield (kn_sched kn)))
  | Sleep channel => Some (with_ksched kn (sched_sleep (kn_sched kn) channel).1)
  | Resume => s ← sleep_resume (kn_sched kn); Some (with_ksched kn s)
  | Spawn elf_data elf_size owns_data argv argv_len =>
      fst <$> spawn_elf_request elf_trampoline kn elf_data elf_size owns_data argv argv_len
  | Start => fst <$> elf_process_trampoline kn
  | Exit status => Some (process_exit kn status).1
  | Kill p sig => Some (process_kill kn p sig).1
  | Wait p => fst <$> process_wait pipes_addr kn p
  end.

(** A schedule; what cannot happen is passed over. *)
Fixpoint run (may : act -> kern K -> bool) (acts : list act) kn : option (kern K) :=
  match acts with
  | [] => Some kn
  | a :: acts =>
      if enabled a kn && may a kn then kn ← do_act a kn; run may acts kn else run may acts kn
  end.

Definition anything a kn : bool := true.

(** Thread [w] does nothing. *)
Definition others (w : Z) a kn : bool := negb (by_current a) || negb (current_thread (kn_sched kn) =? w).

(** The process table at boot. *)
Definition booted (s : sched K) (ps : list pipe_t) : kern K := mk_kern s ps no_processes 1.
End model.

(** * One act *)

Section steps.
Context {K : Type} `{E : SchedEnv K} `{PE : ProcEnv K}.
Context (pipes_addr elf_trampoline : Z).
Implicit Types (kn : kern K) (s : sched K) (a : act) (w p : Z).

Definition actor a kn : Z := if by_current a then current_thread (kn_sched kn) else -1.
Definition collects a : Z := match a with Wait p => p | _ => 0 end.

Lemma acting_b_true kn : acting_b kn = true -> acting kn.
Proof using Type. unfold acting_b, acting. intros H i Hi. rewrite Hi in H. bool_prop. by apply bool_decide_eq_false in H. Qed.

Lemma weaken_act who q kn kn' : kern_wf kn -> keeps (-1) 0 kn kn' -> keeps who q kn kn'.
Proof using Type. intros Hk. apply keeps_weaken; [done|by left]. Qed.

Lemma resume_quiet who s :
  sched_wf s -> state (threads s).[current_thread s] = THREAD_READY ->
  exists s', sleep_resume s = Some s' /\ quiet (-1) who s s'.
Proof using Type.
  intros Hw Hst. unfold sleep_resume. rewrite Hst. eexists. split; [done|].
  pose proof (sw_cur _ Hw) as Hc. pose proof (sw_len _ Hw) as Hl.
  split; [by apply on_current_wf|done|intros t Ht; rewrite on_thread_get by lia; by case_decide..].
Qed.

Lemma do_act_spec a kn :
  answers -> kern_wf kn -> enabled a kn = true ->
  exists kn', do_act pipes_addr elf_trampoline a kn = Some kn' /\ keeps (actor a kn) (collects a) kn kn'.
Proof using Type.
  intros Ha Hk He. pose proof (kw_sched _ Hk) as Hw.
  destruct a; cbn [enabled do_act actor by_current collects] in *; bool_prop;
    repeat match goal with
      | H : acting_b _ = true |- _ => apply acting_b_true in H
      end.
  - eexists. split; [done|]. by apply sched_keeps, tick_quiet.
  - eexists. split; [done|]. by apply sched_keeps, wakeup_quiet.
  - eexists. split; [done|]. by apply sched_keeps, yield_quiet.
  - eexists. split; [done|]. by apply sched_keeps, sleep_quiet.
  - apply bool_decide_eq_true in He.
    destruct (resume_quiet (current_thread (kn_sched kn)) (kn_sched kn) Hw He) as (s' & -> & Hq).
    eexists. split; [done|]. by apply sched_keeps.
  - destruct (spawn_elf_request_spec elf_trampoline kn elf_data elf_size owns_data argv argv_len Ha Hk) as (r & -> & _ & Hr);
      [done|]. eexists. split; [done|]. by apply weaken_act.
  - destruct (elf_process_trampoline_keeps kn Ha Hk) as (r & -> & Hr); [done|].
    eexists. split; [done|]. by apply weaken_act.
  - eexists. split; [done|]. by apply weaken_act, exit_keeps.
  - eexists. split; [done|]. by apply weaken_act, process_kill_keeps.
  - destruct (process_wait_spec pipes_addr kn p Ha Hk) as (r & -> & _ & Hr). eexists. by split.
Qed.

(** What every act that may happen keeps, a run keeps. *)
Lemma run_inv may (P : kern K -> Prop) acts kn :
  answers ->
  (forall a kn1 kn2, a ∈ acts -> kern_wf kn1 -> may a kn1 = true ->
     keeps (actor a kn1) (collects a) kn1 kn2 -> P kn1 -> P kn2) ->
  kern_wf kn -> P kn ->
  exists kn', run pipes_addr elf_trampoline may acts kn = Some kn' /\ kern_wf kn' /\ P kn'.
Proof using Type.
  intros Ha. revert kn. induction acts as [|a acts IH]; intros kn Hstep Hk HP; [by exists kn|]. cbn [run].
  assert (Htail : forall a' kn1 kn2, a' ∈ acts -> kern_wf kn1 -> may a' kn1 = true ->
    keeps (actor a' kn1) (collects a') kn1 kn2 -> P kn1 -> P kn2)
    by (intros a' kn1 kn2 Hin; apply Hstep; by right).
  destruct (enabled a kn && may a kn) eqn:Ee; [|by apply IH]. bool_prop.
  destruct (do_act_spec a kn Ha Hk) as (kn' & -> & Hkeep); [done|]. cbn [mbind option_bind].
  apply IH; [done|apply Hkeep|]. apply (Hstep a kn kn'); try done. by left.
Qed.

(** The caller of [sched_sleep] is blocked on its channel. *)
Lemma sched_sleep_parks s channel :
  sched_wf s ->
  state (threads (sched_sleep s channel).1).[current_thread s] = THREAD_BLOCKED /\
  wait_channel (threads (sched_sleep s channel).1).[current_thread s] = channel.
Proof using Type.
  intros Hw. pose proof (sw_cur _ Hw). pose proof (sw_len _ Hw).
  destruct (sched_sleep_spec s channel Hw) as [[_ ->]|(next & s1 & -> & _ & [_ _ _ _ _ _ Ep _])]; cbn [fst].
  - rewrite on_thread_get by lia. by rewrite decide_True by done.
  - by rewrite Ep.
Qed.

Lemma exit_has_status kn i status :
  kern_wf kn -> find_process_by_tid kn (current_thread (kn_sched kn)) = Some i ->
  has_status (pid (processes kn).[i]) (parent_pid (processes kn).[i]) status (process_exit kn status).1.
Proof using Type.
  intros Hk Hf. destruct (sched_exit_status_spec kn status Hk) as [[_ _ _ Ep _] _].
  pose proof (find_process_by_tid_spec kn (current_thread (kn_sched kn))) as Hl. rewrite Hf in Hl, Ep.
  destruct Hl as [[Hi Hl] _]. pose proof (tw_len _ _ _ (kw_table _ Hk)). exists i. unfold live, process_exit.
  rewrite Ep, aget_aset_eq by lia. done.
Qed.

(** A parent that waits for an exited child gets its status, and the pid is free. *)
Lemma wait_collects kn p parent status :
  answers -> kern_wf kn -> has_status p parent status kn -> current_pid kn = parent ->
  exists kn', process_wait pipes_addr kn p = Some (kn', Done (Some status)) /\
    find_process kn' p = None /\ kern_wf kn'.
Proof using Type.
  intros Ha Hk (i & Hi & Hp & Hx & Hpar & Hst) Hcur.
  destruct (process_wait_spec pipes_addr kn p Ha Hk) as ([kn' e] & -> & Ho & Hkeep). unfold wait_outcome in Ho.
  cbn [fst snd] in *.
  assert (Huniq : forall j, live (processes kn) j -> pid (processes kn).[j] = p -> j = i)
    by (intros j Hj Hpj; apply (tw_pids _ _ _ (kw_table _ Hk)); congruence).
  destruct Ho as [[_ Hno]|(j & Hj & Hpj & _ & [(_ & -> & Hun & Hoth & _)|[Hnx _]])].
  - destruct (Hno i Hi Hp). congruence.
  - rewrite (Huniq j Hj Hpj) in *. exists kn'. split; [by rewrite Hst|]. split; [|apply Hkeep].
    pose proof (find_process_spec kn' p) as Hf. destruct (find_process kn' p) as [m|]; [|done].
    destruct Hf as [[Hm Hlm] Hpm]. assert (Hne : m <> i) by (intros ->; done).
    destruct (Hoth m Hm Hne) as (Hd & _ & Hid & _). destruct Hne. apply Huniq; [split; tauto|].
    destruct Hid; [tauto|congruence].
  - by rewrite (Huniq j Hj Hpj) in Hnx.
Qed.

Lemma booted_wf s ps : sched_wf s -> kern_wf (booted s ps).
Proof using Type.
  intros Hw. assert (Hno : forall i, ~ live (processes (booted s ps)) i).
  { intros i [Hi Hl]. apply Hl. cbn [booted processes]. unfold no_processes.
    by rewrite lookup_total_replicate_2 by lia. }
  split; [done| |intros i Hi; by destruct (Hno i)..].
  split; [done|cbn; lia|intros; exfalso; by eapply Hno..].
Qed.
End steps.

(** * The claims *)

Section claims.
Context {K : Type} `{E : SchedEnv K} `{PE : ProcEnv K}.
Context (pipes_addr elf_trampoline : Z).
Implicit Types (kn : kern K) (s : sched K).

(** C17: from boot on, whatever the threads call and whenever interrupts come, every
    call returns and the tables agree: live processes have pids and threads of
    their own, their threads exist, and a thread that has ended belongs to a
    process marked exited (as long as pids have not wrapped). *)
Theorem process_reachable_wf s pipes acts :
  answers -> sched_wf s ->
  exists kn, run pipes_addr elf_trampoline anything acts (booted s pipes) = Some kn /\ kern_wf kn.
Proof using Type.
  intros Ha Hw.
  destruct (run_inv pipes_addr elf_trampoline anything (fun _ => True) acts (booted s pipes) Ha)
    as (kn & Hrun & Hk & _); [done|by apply booted_wf|done|]. by exists kn.
Qed.

(** C18: no exit is missed: once a parent sleeps in [process_wait], then after
    anything the other threads and the interrupts do, it is asleep only while its
    child has not exited. *)
Theorem process_wait_no_lost_exit kn p kn1 halted acts :
  answers -> kern_wf kn -> process_wait pipes_addr kn p = Some (kn1, Asleep halted) ->
  let w := current_thread (kn_sched kn) in
  exists kn2, run pipes_addr elf_trampoline (others w) acts kn1 = Some kn2 /\ kern_wf kn2 /\
    ((forall i, live (processes kn2) i -> pid (processes kn2).[i] = p ->
        pstate (processes kn2).[i] = PROCESS_EXITED) -> thread_state kn2 w <> THREAD_BLOCKED).
Proof using Type.
  intros Ha Hk Hwait w. pose proof (kw_sched _ Hk) as Hw.
  destruct (process_wait_spec pipes_addr kn p Ha Hk) as (r & Hr & Ho & Hkeep).
  rewrite Hwait in Hr. injection Hr as <-. unfold wait_outcome in Ho. cbn [fst snd] in *.
  destruct Ho as [[Hx _]|(i & Hi & Hp & _ & [(_ & Hx & _)|[Hnx Hs]])]; [done|done|].
  pose proof (tw_pid _ _ _ (kw_table _ Hk) i Hi) as Hpb. pose proof (tw_next _ _ _ (kw_table _ Hk)) as Hnb.
  destruct (sched_sleep_parks (kn_sched kn) (u64 p) Hw) as [Hst Hch]. fold w in Hst, Hch.
  destruct (sched_sleep (kn_sched kn) (u64 p)) as [s h]. injection Hs as Ekn1 _. cbn [fst] in *.
  destruct (run_inv pipes_addr elf_trampoline (others w)
    (fun kn2 => waiting w p kn2 /\ 0 <= w < thread_capacity (kn_sched kn2)) acts kn1 Ha)
    as (kn2 & Hrun & Hk2 & Hw2 & _).
  - intros a kn2 kn3 _ _ Hmay [_ Hc Hkw _] [H1 H2]. split; [|lia]. apply Hkw; try done; [|lia].
    unfold others, actor in *. intros ->. destruct (by_current a); [|lia].
    cbn [negb orb] in Hmay. by rewrite Z.eqb_refl in Hmay.
  - apply Hkeep.
  - split.
    + rewrite Ekn1. intros _. split; [exact Hch|]. by exists i.
    + pose proof (kp_cap _ _ _ _ Hkeep). pose proof (sw_cur _ Hw). lia.
  - exists kn2. split; [done|]. split; [done|]. intros Hall Hb.
    destruct (Hw2 Hb) as (_ & j & Hj & Hpj & Hnj). by apply Hnj, Hall.
Qed.

(** C19: the exit status reaches the parent: after the running thread of a process
    calls [process_exit], and after anything else that happens before the parent
    waits, [process_wait] by the parent returns exactly that status and the pid is
    free. *)
Theorem process_exit_status_delivered kn i status acts :
  answers -> kern_wf kn -> find_process_by_tid kn (current_thread (kn_sched kn)) = Some i ->
  pstate (processes kn).[i] <> PROCESS_EXITED -> Wait (pid (processes kn).[i]) ∉ acts ->
  exists kn2, run pipes_addr elf_trampoline anything acts (process_exit kn status).1 = Some kn2 /\
    (current_pid kn2 = parent_pid (processes kn).[i] ->
     exists kn3, process_wait pipes_addr kn2 (pid (processes kn).[i]) = Some (kn3, Done (Some status)) /\
       find_process kn3 (pid (processes kn).[i]) = None /\ kern_wf kn3).
Proof using Type.
  intros Ha Hk Hf Hx Hin. set (p := pid (processes kn).[i]) in *. set (parent := parent_pid (processes kn).[i]).
  assert (Hact : acting kn) by (intros j; rewrite Hf; by intros [= <-]).
  pose proof (exit_keeps kn status Hk Hact) as Hkeep.
  pose proof (exit_has_status kn i status Hk Hf) as Hst.
  destruct (run_inv pipes_addr elf_trampoline anything (has_status p parent status) acts (process_exit kn status).1 Ha)
    as (kn2 & Hrun & Hk2 & Hs2).
  - intros a kn1 kn1' Ha' Hk1 _ [_ _ _ Hkp] Hs. apply Hkp; [|done]. intros Ep. destruct a; try (by destruct Hs as (j & Hj & Epj & _);
      pose proof (tw_pid _ _ _ (kw_table _ Hk1) j Hj); cbn [collects] in Ep; lia). cbn [collects] in Ep. by subst p0.
  - apply Hkeep.
  - done.
  - exists kn2. split; [done|]. intros Hpar. exact (wait_collects pipes_addr kn2 p parent status Ha Hk2 Hs2 Hpar).
Qed.
End claims.

(** * A concrete system *)

#[export] Instance demo_proc_env : ProcEnv Z := {
  env_ld8 := fun _ _ => 0;
  env_st8 := fun k _ _ => k;
  env_ld64 := fun _ _ => 0;
  env_st32 := fun k _ _ => k;
  env_alloc_zeroed_frame := fun k => (k + 4096, k);
  env_map_page_in := fun k _ _ _ _ => (k, 0);
  env_mark_user := fun k _ => k;
  env_create_space := fun k => (k + 4096, k);
  env_destroy_space := fun k _ => k;
  env_register_stack := fun k _ _ _ => Some k;
  env_unregister_stack := fun k _ => Some k;
  env_elf_load := fun k _ _ _ bias => Some (k, Some bias);
}.

(** A parent on thread 0 and its child on thread 3. *)
Definition demo_kern : kern Z :=
  mk_kern demo_sched []
    (mk_process 1 0 0 (-1) PROCESS_RUNNING 4096 :: mk_process 2 3 1 (-1) PROCESS_RUNNING 4096 ::
     replicate 62 inhabitant) 3.

Lemma demo_answers : @answers Z demo_env demo_proc_env.
Proof. split; intros; eexists; reflexivity. Qed.

Lemma demo_live i : live (processes demo_kern) i -> i = 0 \/ i = 1.
Proof.
  intros [Hi Hl]. destruct (decide (i = 0)) as [->|H0]; [by left|].
  destruct (decide (i = 1)) as [->|H1]; [by right|]. exfalso. apply Hl. unfold demo_kern. cbn [processes].
  change (?a :: ?b :: ?l) with ([a; b] ++ l).
  replace (Z.to_nat i) with (length [inhabitant; inhabitant : process_t] + Z.to_nat (i - 2))%nat by (cbn; lia).
  rewrite lookup_total_app_r by (cbn; lia). cbn [length].
  by rewrite lookup_total_replicate_2 by lia.
Qed.

Lemma demo_kern_wf : kern_wf demo_kern.
Proof.
  split; [exact demo_sched_wf| |..].
  - split; [done|done|..].
    + intros i Hi. by destruct (demo_live i Hi) as [-> | ->].
    + intros i Hi. by destruct (demo_live i Hi) as [-> | ->].
    + intros i j Hi Hj. by destruct (demo_live i Hi) as [-> | ->], (demo_live j Hj) as [-> | ->].
    + intros i j Hi Hj. by destruct (demo_live i Hi) as [-> | ->], (demo_live j Hj) as [-> | ->].
  - intros i Hi. by destruct (demo_live i Hi) as [-> | ->].
  - intros i Hi. by destruct (demo_live i Hi) as [-> | ->].
Qed.

(** The child runs. *)
Definition demo_child : kern Z := with_ksched demo_kern (sched_yield demo_sched).

Lemma demo_child_wf : kern_wf demo_child.
Proof.
  apply (sched_keeps (-1) 0 demo_kern); [exact demo_kern_wf|]. apply yield_quiet, demo_sched_wf.
Qed.

Lemma process_reachable_wf_witness :
  (@answers Z demo_env demo_proc_env /\ sched_wf demo_sched) /\
  exists kn, run 0 16 anything [Spawn 0 0 0 [] 0; Yield; Start; Tick; Exit 3] (booted demo_sched []) = Some kn /\
    kern_wf kn.
Proof.
  exact (conj (conj demo_answers demo_sched_wf)
    (process_reachable_wf 0 16 demo_sched [] [Spawn 0 0 0 [] 0; Yield; Start; Tick; Exit 3]
       demo_answers demo_sched_wf)).
Defined.

Lemma process_wait_no_lost_exit_witness :
  exists kn1, process_wait 0 demo_kern 2 = Some (kn1, Asleep false) /\
  exists kn2, run 0 16 (others 0) [Tick; Exit 7; Tick] kn1 = Some kn2 /\ kern_wf kn2 /\
    ((forall i, live (processes kn2) i -> pid (processes kn2).[i] = 2 ->
        pstate (processes kn2).[i] = PROCESS_EXITED) -> thread_state kn2 0 <> THREAD_BLOCKED).
Proof.
  eexists. split; [vm_compute; reflexivity|].
  refine (process_wait_no_lost_exit 0 16 demo_kern 2 _ false [Tick; Exit 7; Tick] demo_answers demo_kern_wf _).
  vm_compute. reflexivity.
Defined.

Lemma process_exit_status_delivered_witness :
  exists kn2, run 0 16 anything [Tick; Yield; Wake 7] (process_exit demo_child 9).1 = Some kn2 /\
    (current_pid kn2 = 1 ->
     exists kn3, process_wait 0 kn2 2 = Some (kn3, Done (Some 9)) /\
       find_process kn3 2 = None /\ kern_wf kn3).
Proof.
  refine (process_exit_status_delivered 0 16 demo_child 1 9 [Tick; Yield; Wake 7] demo_answers demo_child_wf _ _ _).
  - vm_compute. reflexivity.
  - vm_compute. discriminate.
  - intros Hin. repeat (apply elem_of_cons in Hin as [Hin|Hin]; [discriminate|]). by apply elem_of_nil in Hin.
Defined.

(** A thread that exits while nothing else can run stays current; when the timer
    switches away from it, it is ready again, and its slot is never reaped: here
    thread 0 exits, an interrupt wakes thread 1 and the quantum runs out. *)
Lemma zombie_revived :
  let lone : kern Z := mk_kern (mk_sched [demo_thread THREAD_RUNNING 0; demo_thread THREAD_BLOCKED 7] 65536 2 0 1048576)
    [] (mk_process 1 0 0 (-1) PROCESS_RUNNING 4096 :: mk_process 2 1 0 (-1) PROCESS_RUNNING 4096 ::
        replicate 62 inhabitant) 3 in
  let (kn, e) := process_exit lone 0 in
  e = Gone true /\ thread_state kn 0 = THREAD_ZOMBIE /\
  exists kn', run 0 16 anything [Wake 7; Tick; Tick; Tick; Tick] kn = Some kn' /\
    current_thread (kn_sched kn') = 1 /\ thread_state kn' 0 = THREAD_READY /\
    exists kn'', reap_zombie 0 kn' 0 = Some kn'' /\ thread_state kn'' 0 = THREAD_READY.
Proof.
  cbv zeta. destruct (process_exit _ 0) as [kn e] eqn:Ee. vm_compute in Ee. injection Ee as <- <-.
  split; [done|]. split; [done|]. eexists. split; [vm_compute; reflexivity|].
  split; [done|]. split; [done|]. eexists. split; [vm_compute; reflexivity|done].
Qed.
