(* ===== verification/Syscall.v ===== *)
(** The system calls of [kernel/core/syscall.c]: the check of user pointers, the
    copies from and to user memory, and the 24 calls over the kernel's components. *)
From S2P Require Import Prelude CString RingBuffer Alloc Heap Memfs Blk Fs Ufs.
From S2P Require Import UfsSpec Users Thread Pipe Video Keyboard Fd Process ProcessSpec.

Definition SYS_IO_MAX_LEN : Z := 4096.
Definition SYS_DRAW_ROW_MAX_LEN : Z := 256.
Definition SYS_SPAWN_CMDLINE_MAX : Z := 128.
Definition SYS_SPAWN_NAME_MAX : Z := 20.
Definition SYS_OPEN_NAME_MAX : Z := 32.

(** The registers a call reads and writes. *)
Record registers_t := mk_regs { rax : Z; rdi : Z; rsi : Z; rdx : Z }.

(** The page tables and the frame counters, as the calls see them. *)
Class SysEnv (K : Type) := {
  env_current_space : K -> Z;
  env_user_accessible : K -> Z -> Z -> bool;
  env_total_frames : K -> Z;
  env_free_frames : K -> Z;
}.

(** The whole kernel: the descriptors' world, the process table, the program disk
    and the accounts. *)
Record os_t (K D H : Type) := mk_os {
  os_io : io_state K D H;
  os_processes : list process_t;
  os_next_pid : Z;
  os_fs : fs D;
  os_accounts : list account_t;
}.
Arguments mk_os {K D H}.
Arguments os_io {K D H}.
Arguments os_processes {K D H}.
Arguments os_next_pid {K D H}.
Arguments os_fs {K D H}.
Arguments os_accounts {K D H}.

(** How a call ends: back in ring 3 with [rax]; asleep, a read with the bytes it
    has so far, to go on from [from]; or never, the thread being gone. *)
Inductive sys_end :=
  | SysReturn (v : Z)
  | SysAsleep (from : Z) (sofar : list Z) (halted : bool)
  | SysGone (halted : bool).

(** [(unsigned long long)-1] *)
Definition SYS_FAIL : sys_end := SysReturn (u64 (-1)).

(** * User memory *)

Section memory.
Context {K : Type} `{SchedEnv K} `{ProcEnv K} `{SysEnv K}.
Implicit Types (k : K) (vaddr len : Z).

Definition page_floor (a : Z) : Z := Z.land a (U64_MAX -64 0xFFF).

(** One turn per page of the address space is enough. *)
Definition RANGE_FUEL : positive := 4503599627370497.

Definition user_range_ok k vaddr len : option bool :=
  if len =? 0 then Some true
  else if len - 1 >? U64_MAX - vaddr then Some false
  else
    let space := env_current_space k in
    let end_ := page_floor (vaddr +64 len -64 1) in
    while_pos RANGE_FUEL (fun page =>
      if negb (env_user_accessible k space page) then inr false
      else if page =? end_ then inr true
      else inl (page +64 0x1000)) (page_floor vaddr).

(** [len > max || !user_range_ok(buf, len)], negated. *)
Definition buffer_ok k vaddr len max : option bool :=
  if len >? max then Some false else user_range_ok k vaddr len.

Definition both_ok k (a n b m : Z) : option bool :=
  match user_range_ok k a n with
  | Some true => user_range_ok k b m
  | r => r
  end.

Definition copy_from_user k vaddr len : list Z :=
  map (fun i => env_ld8 k (vaddr +64 i)) (seqZ 0 len).

Definition copy_to_user k vaddr (bytes : list Z) len : K :=
  for_each 0 len (fun i k => env_st8 k (vaddr +64 i) bytes.[i]) k.

(** A string copied to a local array of [max] bytes, terminator included. *)
Definition user_string k vaddr max : list Z := cstr (copy_from_user k vaddr (max - 1)) ++ [0].

(** The bytes of a 64-bit store. *)
Definition qword (v : Z) : list Z := map (fun i => u8 (Z.shiftr v (8 * i))) (seqZ 0 8).

(** [for (i = 0; i + 1 < len && s[i] != 0; i++) dst[i] = s[i]; dst[i] = 0;] *)
Definition string_to_user k vaddr (s : list Z) len : K :=
  let out := take (Z.to_nat (len - 1)) (cstr s) ++ [0] in
  copy_to_user k vaddr out (zlen out).
End memory.

(** * The calls *)

Section model.
Context {K D H : Type} `{SchedEnv K} `{ProcEnv K} `{SysEnv K} `{BlockDev D} `{Allocator H}.
Context (pipes_addr kbd_channel elf_trampoline : Z).
Implicit Types (o : os_t K D H) (r : registers_t) (f : io_state K D H).

Definition with_io o f : os_t K D H := mk_os f (os_processes o) (os_next_pid o) (os_fs o) (os_accounts o).
Definition with_fs o (d : fs D) : os_t K D H :=
  mk_os (os_io o) (os_processes o) (os_next_pid o) d (os_accounts o).
Definition with_accounts o (a : list account_t) : os_t K D H :=
  mk_os (os_io o) (os_processes o) (os_next_pid o) (os_fs o) a.
Definition os_sched o : sched K := io_sched (os_io o).
Definition os_env o : K := env (os_sched o).
Definition with_os_sched o (s : sched K) : os_t K D H := with_io o (with_sched (os_io o) s).
Definition with_os_env o (k : K) : os_t K D H := with_os_sched o (with_env (os_sched o) k).

(** The part of the kernel that [Process] models. *)
Definition os_kern o : kern K :=
  mk_kern (os_sched o) (io_pipes (os_io o)) (os_processes o) (os_next_pid o).
Definition with_kern o (kn : kern K) : os_t K D H :=
  mk_os (with_sched (with_pipes (os_io o) (kn_pipes kn)) (kn_sched kn)) (processes kn) (next_pid kn)
    (os_fs o) (os_accounts o).

(** [if (!ok) { regs->rax = -1; break; }] *)
Definition checked o (ok : option bool) (body : option (os_t K D H * sys_end)) :
    option (os_t K D H * sys_end) :=
  match ok with
  | None => None
  | Some ok => if negb ok then Some (o, SYS_FAIL) else body
  end.

Definition sys_write o r : option (os_t K D H * sys_end) :=
  checked o (buffer_ok (os_env o) (rsi r) (rdx r) SYS_IO_MAX_LEN) (
    '(f, t) ← fd_write pipes_addr (os_io o) (s32 (rdi r))
                (copy_from_user (os_env o) (rsi r) (rdx r)) (rdx r);
    Some (with_io o f,
          match t with
          | IoReturned n => SysReturn (u64 n)
          | IoSlept from halted => SysAsleep from [] halted
          end)).

(** The end of a read: its bytes go to user memory. *)
Definition read_done o r (res : io_state K D H * list Z * io_turn) : os_t K D H * sys_end :=
  let '(f, out, t) := res in
  match t with
  | IoReturned n =>
      let o := with_io o f in
      (with_os_env o (copy_to_user (os_env o) (rsi r) out (rdx r)), SysReturn (u64 n))
  | IoSlept from halted => (with_io o f, SysAsleep from out halted)
  end.

Definition sys_read o r : option (os_t K D H * sys_end) :=
  checked o (buffer_ok (os_env o) (rsi r) (rdx r) SYS_IO_MAX_LEN) (
    res ← fd_read pipes_addr kbd_channel (os_io o) (s32 (rdi r))
            (copy_from_user (os_env o) (rsi r) (rdx r)) (rdx r);
    Some (read_done o r res)).

(** A read that slept goes on. *)
Definition sys_read_resume o r (from : Z) (sofar : list Z) : option (os_t K D H * sys_end) :=
  match sched_fd_get (os_sched o) (s32 (rdi r)) with
  | None => None
  | Some slot =>
      if fd_kind slot =? FD_KIND_CONSOLE then
        Some (read_done o r (console_read kbd_channel (os_io o) sofar from (rdx r)))
      else
        let '(ps, s, out, t) :=
          pipe_read pipes_addr (io_pipes (os_io o)) (os_sched o) (fd_handle slot) sofar (u32 (rdx r)) in
        Some (read_done o r (with_sched (with_pipes (os_io o) ps) s, out,
          match t with Returned n => IoReturned n | Slept halted => IoSlept 0 halted end))
  end.

Definition sys_open o r : option (os_t K D H * sys_end) :=
  checked o (user_range_ok (os_env o) (rsi r) SYS_OPEN_NAME_MAX) (
    '(f, fd) ← fd_open (os_io o) (user_string (os_env o) (rsi r) SYS_OPEN_NAME_MAX) (rdx r);
    Some (with_io o f, SysReturn (u64 fd))).

Definition sys_close o r : os_t K D H * sys_end :=
  let (f, v) := fd_close pipes_addr (os_io o) (s32 (rdi r)) in
  (with_io o f, SysReturn (u64 v)).

(** The caller owns the file. *)
Definition owns o (handle : Z) : bool :=
  negb ((handle <? 0) || negb (ufs_owner (io_ufs (os_io o)) handle =? current_uid (os_io o))).

Definition sys_remove o r : option (os_t K D H * sys_end) :=
  checked o (user_range_ok (os_env o) (rdi r) SYS_OPEN_NAME_MAX) (
    let name := user_string (os_env o) (rdi r) SYS_OPEN_NAME_MAX in
    if negb (owns o (ufs_find (io_ufs (os_io o)) name)) then Some (o, SYS_FAIL)
    else
      let (u, v) := ufs_delete (io_ufs (os_io o)) name in
      Some (with_io o (with_ufs (os_io o) u), SysReturn (u64 v))).

Definition on_video o (g : video -> video) : os_t K D H * sys_end :=
  (with_io o (with_video (os_io o) (g (io_video (os_io o)))), SysReturn 0).

Definition sys_draw_row o r : option (os_t K D H * sys_end) :=
  checked o (buffer_ok (os_env o) (rsi r) (rdx r) SYS_DRAW_ROW_MAX_LEN) (
    let line := copy_from_user (os_env o) (rsi r) (rdx r) in
    Some (on_video o (fun v => video_draw_row v (u32 (rdi r)) line (u32 (rdx r))))).

(** Two numbers stored at [rsi] and [rdx]. *)
Definition sys_two_values o r (a b : Z) : option (os_t K D H * sys_end) :=
  checked o (both_ok (os_env o) (rsi r) 8 (rdx r) 8) (
    let k := copy_to_user (os_env o) (rsi r) (qword a) 8 in
    let k := copy_to_user k (rdx r) (qword b) 8 in
    Some (with_os_env o k, SysReturn 0)).

Definition sys_screen_info o r := sys_two_values o r video_cols video_rows.
Definition sys_meminfo o r :=
  sys_two_values o r (env_total_frames (os_env o)) (env_free_frames (os_env o)).

Definition sys_kill o r : os_t K D H * sys_end :=
  let (kn, e) := process_kill (os_kern o) (s32 (rsi r)) (s32 (rdx r)) in
  (with_kern o kn,
   match e with
   | Done v => SysReturn (u64 v)
   | Asleep halted => SysAsleep 0 [] halted
   | Gone halted => SysGone halted
   end).

Definition sys_pipe o r : option (os_t K D H * sys_end) :=
  checked o (user_range_ok (os_env o) (rdi r) 16) (
    let (ps, idx) := pipe_create (io_pipes (os_io o)) in
    let o := with_io o (with_pipes (os_io o) ps) in
    if idx <? 0 then Some (o, SYS_FAIL)
    else
      let (s, read_fd) := sched_fd_open (os_sched o) FD_KIND_PIPE_READ idx in
      let (s, write_fd) := sched_fd_open s FD_KIND_PIPE_WRITE idx in
      if (read_fd <? 0) || (write_fd <? 0) then
        let s := if read_fd >=? 0 then (sched_fd_close s read_fd).1 else s in
        let s := if write_fd >=? 0 then (sched_fd_close s write_fd).1 else s in
        let (ps, s) := pipe_close_reader pipes_addr ps s idx in
        let (ps, s) := pipe_close_writer pipes_addr ps s idx in
        Some (with_io o (with_sched (with_pipes (os_io o) ps) s), SYS_FAIL)
      else
        let k := copy_to_user (env s) (rdi r) (qword read_fd ++ qword write_fd) 16 in
        Some (with_os_sched o (with_env s k), SysReturn 0)).

(** A command line as the name of a program and its arguments. *)
Definition split_command (cmdline : list Z) (len : Z) : option (list Z * list Z * Z) :=
  let split := default len (find_first 0 len (fun i => cmdline.[i] =? 32)) in
  if (split =? 0) || (split >=? SYS_SPAWN_NAME_MAX) then None
  else
    let arg_start := default len (find_first split len (fun i => negb (cmdline.[i] =? 32))) in
    Some (take (Z.to_nat split) cmdline ++ [0], drop (Z.to_nat arg_start) cmdline, len - arg_start).

(** The shared part of the two spawning calls. *)
Definition with_command o (buf len : Z) (spawn : list Z -> list Z -> Z -> option (kern K * fs D * Z)) :
    option (os_t K D H * sys_end) :=
  if (len =? 0) || (len >=? SYS_SPAWN_CMDLINE_MAX) then Some (o, SYS_FAIL)
  else
    checked o (user_range_ok (os_env o) buf len) (
      match split_command (copy_from_user (os_env o) buf len) len with
      | None => Some (o, SYS_FAIL)
      | Some (name, argv, argv_len) =>
          '(kn, d, p) ← spawn name argv argv_len;
          Some (with_fs (with_kern o kn) d, SysReturn (u64 p))
      end).

Definition sys_spawn o r : option (os_t K D H * sys_end) :=
  with_command o (rsi r) (rdx r) (fun name argv len =>
    process_spawn_from_file elf_trampoline (os_kern o) (os_fs o) name argv len).

Definition sys_spawn_redirect o r : option (os_t K D H * sys_end) :=
  with_command o (rdi r) (rsi r) (fun name argv len =>
    let stdin_fd := s16 (Z.land (rdx r) 0xFFFF) in
    let stdout_fd := s16 (Z.land (Z.shiftr (rdx r) 16) 0xFFFF) in
    process_spawn_from_file_redirect elf_trampoline (os_kern o) (os_fs o) name argv len stdin_fd stdout_fd).

Definition sys_chmod o r : option (os_t K D H * sys_end) :=
  checked o (user_range_ok (os_env o) (rsi r) SYS_OPEN_NAME_MAX) (
    let handle := ufs_find (io_ufs (os_io o)) (user_string (os_env o) (rsi r) SYS_OPEN_NAME_MAX) in
    if negb (owns o handle) then Some (o, SYS_FAIL)
    else
      let (u, v) := ufs_chmod (io_ufs (os_io o)) handle (u8 (rdx r)) in
      Some (with_io o (with_ufs (os_io o) u), SysReturn (u64 v))).

Definition sys_login o r : option (os_t K D H * sys_end) :=
  checked o (both_ok (os_env o) (rsi r) USER_NAME_MAX (rdx r) 64) (
    let username := user_string (os_env o) (rsi r) USER_NAME_MAX in
    let password := user_string (os_env o) (rdx r) 64 in
    match users_authenticate (os_accounts o) username password with
    | (res, uid) =>
        if negb (res =? 0) then Some (o, SYS_FAIL)
        else
          let s := (sched_set_uid (os_sched o) (sched_current_tid (os_sched o)) (default 0 uid)).1 in
          Some (with_os_sched o s, SysReturn 0)
    end).

Definition sys_adduser o r : option (os_t K D H * sys_end) :=
  if negb (current_uid (os_io o) =? 0) then Some (o, SYS_FAIL)
  else
    checked o (both_ok (os_env o) (rdi r) USER_NAME_MAX (rsi r) 64) (
      let username := user_string (os_env o) (rdi r) USER_NAME_MAX in
      let password := user_string (os_env o) (rsi r) 64 in
      '(a, u, v) ← users_add (os_accounts o) (io_ufs (os_io o)) username password (u32 (rdx r));
      Some (with_accounts (with_io o (with_ufs (os_io o) u)) a, SysReturn (u64 v))).

Definition sys_username o r : option (os_t K D H * sys_end) :=
  checked o (user_range_ok (os_env o) (rsi r) (rdx r)) (
    match users_name_for_uid (os_accounts o) (u32 (rdi r)) USER_NAME_MAX with
    | None => Some (o, SYS_FAIL)
    | Some name =>
        Some (with_os_env o (string_to_user (os_env o) (rsi r) name (rdx r)), SysReturn 0)
    end).

(** The name at an index of the listing: the program disk, then the files in
    memory, then the writable disk. *)
Definition list_name o (index : Z) : option (list Z) :=
  let disk_count := fs_file_count (os_fs o) in
  let m := io_memfs (os_io o) in
  let mem_count := memfs_file_count m in
  if index <? disk_count then fs_name <$> fs_entry (os_fs o) (u32 index)
  else if index <? disk_count + mem_count then
    let memfs_index := index - disk_count in
    let handle :=
      match for_range 0 memfs_index
              (fun _ handle => if handle >=? 0 then inl (memfs_next m handle) else inr handle)
              (memfs_first m) with
      | inl handle | inr handle => handle
      end in
    if handle >=? 0 then Some (memfs_name m handle) else None
  else Ufs.name <$> ufs_entry (io_ufs (os_io o)) (u32 (index -64 disk_count -64 mem_count)).

Definition sys_list o r : option (os_t K D H * sys_end) :=
  if rdx r =? 0 then Some (o, SYS_FAIL)
  else
    checked o (user_range_ok (os_env o) (rsi r) (rdx r)) (
      match list_name o (rdi r) with
      | None => Some (o, SYS_FAIL)
      | Some name =>
          Some (with_os_env o (string_to_user (os_env o) (rsi r) name (rdx r)), SysReturn 0)
      end).

(** One turn: a sleeping wait is entered again. *)
Definition sys_wait o r : option (os_t K D H * sys_end) :=
  '(kn, e) ← process_wait pipes_addr (os_kern o) (s32 (rdi r));
  Some (with_kern o kn,
        match e with
        | Done None => SYS_FAIL
        | Done (Some status) => SysReturn (u64 status)
        | Asleep halted => SysAsleep 0 [] halted
        | Gone halted => SysGone halted
        end).

Definition sys_exit o r : os_t K D H * sys_end :=
  let (kn, e) := process_exit (os_kern o) (s32 (rdi r)) in
  (with_kern o kn, SysGone (match e with Gone halted => halted | _ => false end)).

Definition syscall_handler o r : option (os_t K D H * sys_end) :=
  match rax r with
  | 1 => Some (o, SysReturn 0)
  | 2 => Some (sys_exit o r)
  | 3 => sys_write o r
  | 4 => sys_read o r
  | 5 => sys_spawn o r
  | 6 => sys_wait o r
  | 7 => sys_open o r
  | 8 => Some (sys_close o r)
  | 9 => sys_list o r
  | 10 => Some (o, SysReturn (u64 (sched_current_tid (os_sched o))))
  | 11 => sys_meminfo o r
  | 12 => sys_remove o r
  | 13 => Some (on_video o clearwin)
  | 14 => Some (on_video o (fun v => video_set_cursor v (u32 (rsi r)) (u32 (rdx r))))
  | 15 => sys_draw_row o r
  | 16 => sys_screen_info o r
  | 17 => Some (sys_kill o r)
  | 18 => sys_pipe o r
  | 19 => sys_spawn_redirect o r
  | 20 => Some (o, SysReturn (u64 (current_uid (os_io o))))
  | 21 => sys_chmod o r
  | 22 => sys_login o r
  | 23 => sys_adduser o r
  | 24 => sys_username o r
  | _ => Some (o, SYS_FAIL)
  end.
End model.
