(* ===== verification/Abi.v ===== *)
(** The user side of the system calls, [programs/syscall.h]: each wrapper as the
    registers it loads before [int 0x80], against the kernel of [Syscall]. *)
From S2P Require Import Prelude CString Alloc Heap Memfs Blk Fs Ufs Users Thread Pipe Video Keyboard Fd Process ProcessSpec Syscall.

Definition SYS_EXIT : Z := 2.
Definition SYS_WRITE : Z := 3.
Definition SYS_READ : Z := 4.
Definition SYS_SPAWN : Z := 5.
Definition SYS_WAIT : Z := 6.
Definition SYS_OPEN : Z := 7.
Definition SYS_CLOSE : Z := 8.
Definition SYS_LIST : Z := 9.
Definition SYS_WHOAMI : Z := 10.
Definition SYS_MEMINFO : Z := 11.
Definition SYS_REMOVE : Z := 12.
Definition SYS_CLEAR : Z := 13.
Definition SYS_SET_CURSOR : Z := 14.
Definition SYS_DRAW_ROW : Z := 15.
Definition SYS_SCREEN_INFO : Z := 16.
Definition SYS_KILL : Z := 17.
Definition SYS_PIPE : Z := 18.
Definition SYS_SPAWN_REDIRECT : Z := 19.
Definition SYS_GETUID : Z := 20.
Definition SYS_CHMOD : Z := 21.
Definition SYS_LOGIN : Z := 22.
Definition SYS_ADDUSER : Z := 23.
Definition SYS_USERNAME : Z := 24.

(** * The wrappers

    [junk]: what the registers hold that the wrapper does not set.  [user_sys_write] is
    the program's [sys_write]; [sys_write] alone is the kernel's handler of that call. *)
Section wrappers.
Context (junk : registers_t).
Implicit Types (buf name len : Z).

Definition syscall0 (number : Z) : registers_t := mk_regs number (rdi junk) (rsi junk) (rdx junk).
Definition syscall1 (number arg1 : Z) : registers_t := mk_regs number arg1 (rsi junk) (rdx junk).
Definition syscall2 (number arg1 arg2 : Z) : registers_t := mk_regs number (rdi junk) arg1 arg2.
Definition syscall3 (number arg1 arg2 arg3 : Z) : registers_t := mk_regs number arg1 arg2 arg3.

Definition user_sys_write (fd : Z) buf len := syscall3 SYS_WRITE (u64 fd) buf len.
Definition user_sys_read (fd : Z) buf len := syscall3 SYS_READ (u64 fd) buf len.
Definition user_sys_open name (flags : Z) := syscall2 SYS_OPEN name flags.
Definition user_sys_close (fd : Z) := syscall1 SYS_CLOSE (u64 fd).
Definition user_sys_remove name := syscall1 SYS_REMOVE name.
Definition user_sys_clear := syscall0 SYS_CLEAR.
Definition user_sys_set_cursor (row col : Z) := syscall2 SYS_SET_CURSOR row col.
Definition user_sys_draw_row (row : Z) buf len := syscall3 SYS_DRAW_ROW row buf len.
Definition user_sys_screen_info (cols rows : Z) := syscall2 SYS_SCREEN_INFO cols rows.
Definition user_sys_kill (pid sig : Z) := syscall2 SYS_KILL (u64 pid) (u64 sig).
Definition user_sys_pipe (fds_out : Z) := syscall1 SYS_PIPE fds_out.

Definition user_sys_spawn_redirect (cmdline : Z) len (stdin_fd stdout_fd : Z) :=
  let packed := Z.lor (Z.land (u64 stdin_fd) 0xFFFF) (Z.shiftl (Z.land (u64 stdout_fd) 0xFFFF) 16) in
  syscall3 SYS_SPAWN_REDIRECT cmdline len packed.

Definition user_sys_getuid := syscall0 SYS_GETUID.
Definition user_sys_chmod name (perm : Z) := syscall2 SYS_CHMOD name perm.
Definition user_sys_login (username password : Z) := syscall2 SYS_LOGIN username password.
Definition user_sys_adduser (username password uid : Z) := syscall3 SYS_ADDUSER username password uid.
Definition user_sys_username (uid out out_len : Z) := syscall3 SYS_USERNAME uid out out_len.
Definition user_sys_list (index : Z) buf (buf_len : Z) := syscall3 SYS_LIST index buf buf_len.
Definition user_sys_whoami := syscall0 SYS_WHOAMI.
Definition user_sys_meminfo (total_frames free_frames : Z) := syscall2 SYS_MEMINFO total_frames free_frames.
Definition user_sys_spawn (cmdline : Z) len := syscall2 SYS_SPAWN cmdline len.
Definition user_sys_wait (pid : Z) := syscall1 SYS_WAIT (u64 pid).
Definition user_sys_exit (status : Z) := syscall1 SYS_EXIT (u64 status).

(** [rax] as the [long] that a wrapper returns. *)
Definition user_result (v : Z) : Z := s64 v.
End wrappers.

(** * What the kernel makes of them *)

Lemma s32_u64 x :
  - 2147483648 <= x < 2147483648 -> s32 (u64 x) = x.
Proof. intros. unfold s32, u64. div_lia. Qed.

Lemma s64_u64 x :
  - 9223372036854775808 <= x < 9223372036854775808 -> s64 (u64 x) = x.
Proof. intros. unfold s64, u64. div_lia. Qed.

(** A field of two bytes, packed and unpacked. *)
Lemma land_ffff x : Z.land (u64 x) 0xFFFF = x mod 65536.
Proof.
  change 0xFFFF with (Z.ones 16). rewrite Z.land_ones by lia. change (2 ^ 16) with 65536. unfold u64.
  rewrite Z.mod_mod_divide; [done|]. by exists 281474976710656.
Qed.

Lemma s16_mod x :
  - 32768 <= x < 32768 -> s16 (x mod 65536) = x.
Proof. intros. unfold s16. div_lia. Qed.

Lemma unpack_fds a b :
  let packed := Z.lor (Z.land (u64 a) 0xFFFF) (Z.shiftl (Z.land (u64 b) 0xFFFF) 16) in
  - 32768 <= a < 32768 -> - 32768 <= b < 32768 ->
  s16 (Z.land packed 0xFFFF) = a /\ s16 (Z.land (Z.shiftr packed 16) 0xFFFF) = b.
Proof.
  intros packed Ha Hb. unfold packed. rewrite !land_ffff.
  assert (H1 : 0 <= a mod 65536 < 65536) by (apply Z.mod_pos_bound; lia).
  assert (H2 : 0 <= b mod 65536 < 65536) by (apply Z.mod_pos_bound; lia).
  rewrite lor_shiftl_add by (change (2 ^ 16) with 65536; lia).
  change 0xFFFF with (Z.ones 16). rewrite !Z.land_ones, Z.shiftr_div_pow2 by lia. change (2 ^ 16) with 65536.
  assert (E1 : (a mod 65536 + b mod 65536 * 65536) mod 65536 = a mod 65536) by div_lia.
  assert (E2 : (a mod 65536 + b mod 65536 * 65536) / 65536 mod 65536 = b mod 65536) by div_lia.
  rewrite E1, E2. split; by apply s16_mod.
Qed.

Definition int_range (x : Z) : Prop := - 2147483648 <= x < 2147483648.

Section abi.
Context {K D H : Type} `{SchedEnv K} `{ProcEnv K} `{SysEnv K} `{BlockDev D} `{Allocator H}.
Context (pipes_addr kbd_channel elf_trampoline : Z).
Context (o : os_t K D H) (junk : registers_t).

Let kernel r := syscall_handler pipes_addr kbd_channel elf_trampoline o r.
Let env := os_env o.

(** What the kernel does with a pointer and the numbers of a call. *)
Record calls_meant : Prop := {
  cm_write : forall fd buf len, int_range fd ->
    kernel (user_sys_write fd buf len) =
    checked o (buffer_ok env buf len SYS_IO_MAX_LEN) (
      '(f, t) ← fd_write pipes_addr (os_io o) fd (copy_from_user env buf len) len;
      Some (with_io o f, match t with
                         | IoReturned n => SysReturn (u64 n)
                         | IoSlept from halted => SysAsleep from [] halted
                         end));
  cm_read : forall fd buf len, int_range fd ->
    kernel (user_sys_read fd buf len) =
    checked o (buffer_ok env buf len SYS_IO_MAX_LEN) (
      res ← fd_read pipes_addr kbd_channel (os_io o) fd (copy_from_user env buf len) len;
      Some (read_done o (mk_regs 0 0 buf len) res));
  cm_open : forall name flags,
    kernel (user_sys_open junk name flags) =
    checked o (user_range_ok env name SYS_OPEN_NAME_MAX) (
      '(f, fd) ← fd_open (os_io o) (user_string env name SYS_OPEN_NAME_MAX) flags;
      Some (with_io o f, SysReturn (u64 fd)));
  cm_close : forall fd, int_range fd ->
    kernel (user_sys_close junk fd) =
    let (f, v) := fd_close pipes_addr (os_io o) fd in Some (with_io o f, SysReturn (u64 v));
  cm_spawn : forall cmdline len,
    kernel (user_sys_spawn junk cmdline len) =
    with_command o cmdline len (process_spawn_from_file elf_trampoline (os_kern o) (os_fs o));
  cm_spawn_redirect : forall cmdline len stdin_fd stdout_fd,
    - 32768 <= stdin_fd < 32768 -> - 32768 <= stdout_fd < 32768 ->
    kernel (user_sys_spawn_redirect cmdline len stdin_fd stdout_fd) =
    with_command o cmdline len (fun name argv argv_len =>
      process_spawn_from_file_redirect elf_trampoline (os_kern o) (os_fs o) name argv argv_len stdin_fd stdout_fd);
  cm_wait : forall pid, int_range pid ->
    kernel (user_sys_wait junk pid) =
    '(kn, e) ← process_wait pipes_addr (os_kern o) pid;
    Some (with_kern o kn, match e with
                          | Done None => SYS_FAIL
                          | Done (Some status) => SysReturn (u64 status)
                          | Asleep halted => SysAsleep 0 [] halted
                          | Gone halted => SysGone halted
                          end);
  cm_exit : forall status, int_range status ->
    kernel (user_sys_exit junk status) =
    let (kn, e) := process_exit (os_kern o) status in
    Some (with_kern o kn, SysGone (match e with Gone halted => halted | _ => false end));
  cm_kill : forall pid sig, int_range pid -> int_range sig ->
    kernel (user_sys_kill junk pid sig) =
    let (kn, e) := process_kill (os_kern o) pid sig in
    Some (with_kern o kn, match e with
                          | Done v => SysReturn (u64 v)
                          | Asleep halted => SysAsleep 0 [] halted
                          | Gone halted => SysGone halted
                          end);
  cm_remove : forall name,
    kernel (user_sys_remove junk name) =
    checked o (user_range_ok env name SYS_OPEN_NAME_MAX) (
      let s := user_string env name SYS_OPEN_NAME_MAX in
      if negb (owns o (ufs_find (io_ufs (os_io o)) s)) then Some (o, SYS_FAIL)
      else let (u, v) := ufs_delete (io_ufs (os_io o)) s in
           Some (with_io o (with_ufs (os_io o) u), SysReturn (u64 v)));
  cm_chmod : forall name perm,
    kernel (user_sys_chmod junk name perm) =
    checked o (user_range_ok env name SYS_OPEN_NAME_MAX) (
      let handle := ufs_find (io_ufs (os_io o)) (user_string env name SYS_OPEN_NAME_MAX) in
      if negb (owns o handle) then Some (o, SYS_FAIL)
      else let (u, v) := ufs_chmod (io_ufs (os_io o)) handle (u8 perm) in
           Some (with_io o (with_ufs (os_io o) u), SysReturn (u64 v)));
  cm_pipe : forall fds_out, kernel (user_sys_pipe junk fds_out) = sys_pipe pipes_addr o (mk_regs 0 fds_out 0 0);
  cm_login : forall username password,
    kernel (user_sys_login junk username password) = sys_login o (mk_regs 0 0 username password);
  cm_adduser : forall username password uid,
    kernel (user_sys_adduser username password uid) = sys_adduser o (mk_regs 0 username password uid);
  cm_username : forall uid out out_len,
    kernel (user_sys_username uid out out_len) = sys_username o (mk_regs 0 uid out out_len);
  cm_list : forall index buf buf_len,
    kernel (user_sys_list index buf buf_len) = sys_list o (mk_regs 0 index buf buf_len);
  cm_meminfo : forall total free,
    kernel (user_sys_meminfo junk total free) =
    sys_two_values o (mk_regs 0 0 total free) (env_total_frames env) (env_free_frames env);
  cm_screen_info : forall cols rows,
    kernel (user_sys_screen_info junk cols rows) = sys_two_values o (mk_regs 0 0 cols rows) video_cols video_rows;
  cm_clear : kernel (user_sys_clear junk) = Some (on_video o clearwin);
  cm_set_cursor : forall row col,
    kernel (user_sys_set_cursor junk row col) = Some (on_video o (fun v => video_set_cursor v (u32 row) (u32 col)));
  cm_draw_row : forall row buf len,
    kernel (user_sys_draw_row row buf len) =
    checked o (buffer_ok env buf len SYS_DRAW_ROW_MAX_LEN) (
      Some (on_video o (fun v => video_draw_row v (u32 row) (copy_from_user env buf len) (u32 len))));
  cm_getuid : kernel (user_sys_getuid junk) = Some (o, SysReturn (u64 (current_uid (os_io o))));
  cm_whoami : kernel (user_sys_whoami junk) = Some (o, SysReturn (u64 (sched_current_tid (os_sched o))));
}.

(** One call: the wrapper's registers select the handler, and its integers come through. *)
Ltac call :=
  cbv beta iota delta [syscall_handler user_sys_write user_sys_read user_sys_close user_sys_wait user_sys_exit
    user_sys_kill user_sys_spawn_redirect syscall1 syscall2 syscall3 SYS_WRITE SYS_READ SYS_CLOSE
    SYS_WAIT SYS_EXIT SYS_KILL SYS_SPAWN_REDIRECT rax];
  unfold Syscall.sys_write, Syscall.sys_read, Syscall.sys_close, Syscall.sys_wait, Syscall.sys_kill,
    Syscall.sys_exit, Syscall.sys_spawn_redirect;
  cbn [rdi rsi rdx]; rewrite ?s32_u64 by assumption.

Lemma calls_meant_hold : calls_meant.
Proof.
  split; intros; unfold kernel, env; try reflexivity; call; try reflexivity.
  - by destruct (fd_close _ _ _).
  - destruct (unpack_fds stdin_fd stdout_fd) as [E1 E2]; [done..|]. by rewrite E1, E2.
  - by destruct (process_exit _ _).
  - by destruct (process_kill _ _ _) as [? []].
Qed.
End abi.

(** The user side of a system call and the kernel agree.  Whatever the registers
    held before, each wrapper of [syscall.h] makes the kernel do the call it is named
    after on the caller's arguments: descriptors, pids and signals come through the
    conversions to [unsigned long] and back (also -1, packed in 16 bits for the
    redirections), no call depends on a register that its wrapper does not set, and the
    value of the kernel is the [long] that the wrapper returns. *)
Theorem user_calls_agree {K D H : Type} `{SchedEnv K} `{ProcEnv K} `{SysEnv K} `{BlockDev D} `{Allocator H}
    pipes_addr kbd_channel elf_trampoline (o : os_t K D H) junk :
  calls_meant pipes_addr kbd_channel elf_trampoline o junk /\
  forall v, - 9223372036854775808 <= v < 9223372036854775808 -> user_result (u64 v) = v.
Proof. split; [apply calls_meant_hold|]. intros v Hv. by apply s64_u64. Qed.
