(* ===== verification/SyscallSpec.v ===== *)
(** What the system calls promise: user pointers are checked on every page, memory
    is only written where the caller could write itself, and privileges change only
    by logging in. *)
From S2P Require Import Prelude CString RingBuffer Alloc Heap Memfs Blk Fs Ufs UfsSpec.
From S2P Require Import Users UfsRights Thread Pipe Video Keyboard Mem Fd Process ProcessSpec Syscall.

(** * The pointer check *)

Section pointers.
Context {K : Type} `{SE : SysEnv K}.
Implicit Types (k : K) (vaddr len a : Z).

(** User code may use the byte at [a]. *)
Definition user_byte k a : Prop :=
  env_user_accessible k (env_current_space k) (page_floor a) = true.

Lemma page_floor_eq a : 0 <= a < 18446744073709551616 -> page_floor a = a / 4096 * 4096.
Proof using Type. apply page_mask_eq. Qed.

Lemma user_range_ok_spec k vaddr len :
  0 <= vaddr < 18446744073709551616 -> 0 <= len < 18446744073709551616 ->
  exists b, user_range_ok k vaddr len = Some b /\
    (b = true <-> len = 0 \/
       vaddr + len <= 18446744073709551616 /\ forall a, vaddr <= a < vaddr + len -> user_byte k a).
Proof using Type.
  intros Hv Hl. unfold user_range_ok. destruct (len =? 0) eqn:E0; bool_prop.
  { exists true. split; [done|]. split; [by left|done]. }
  assert (EU : U64_MAX = 18446744073709551615) by done.
  destruct (len - 1 >? U64_MAX - vaddr) eqn:E1; bool_prop.
  { exists false. split; [done|]. split; [done|]. intros [Hx|[Hx _]]; lia. }
  set (space := env_current_space k).
  assert (Elast : vaddr +64 len -64 1 = vaddr + len - 1) by (unfold u64; Z.to_euclidean_division_equations; lia).
  rewrite Elast. rewrite !page_floor_eq by lia.
  set (first := vaddr / 4096). set (last := (vaddr + len - 1) / 4096).
  assert (Hfl : 0 <= first <= last) by (unfold first, last; split; [apply Z.div_pos; lia|apply Z.div_le_mono; lia]).
  assert (Hlast : last < 4503599627370496) by (unfold last; apply Z.div_lt_upper_bound; lia).
  while_pos_inv (last - first)
    (fun n page => page = (last - n) * 4096 /\ 0 <= n <= last - first /\
       forall j, first <= j < last - n -> env_user_accessible k space (j * 4096) = true)
    (fun b => b = true <-> forall j, first <= j <= last -> env_user_accessible k space (j * 4096) = true).
  - split; [lia|]. split; [lia|]. intros j Hj. lia.
  - unfold RANGE_FUEL. lia.
  - intros n page Hn (-> & Hnb & Hseen). destruct (env_user_accessible k space _) eqn:Ea; cbn [negb].
    + destruct (_ =? _) eqn:Ee; bool_prop.
      * split; [|done]. intros _ j Hj. destruct (decide (j = last)) as [->|]; [|apply Hseen; lia].
        by replace last with (last - n) by lia.
      * exists (n - 1). split; [lia|]. split; [rewrite u64_small by lia; lia|]. split; [lia|].
        intros j Hj. destruct (decide (j = last - n)) as [->|]; [done|apply Hseen; lia].
    + split; [done|]. intros Hall. rewrite Hall in Ea by lia. done.
  - destruct Hloop as (b & -> & Hb). exists b. split; [done|]. rewrite Hb. split.
    + intros Hall. right. split; [lia|]. intros a Ha. unfold user_byte. rewrite page_floor_eq by lia.
      apply Hall. unfold first, last. split; apply Z.div_le_mono; lia.
    + intros [Hx|[_ Hall]]; [lia|]. intros j Hj.
      destruct (decide (j = first)) as [->|Hne].
      * specialize (Hall vaddr ltac:(lia)). unfold user_byte in Hall. by rewrite page_floor_eq in Hall by lia.
      * assert (Hj4 : vaddr <= j * 4096 < vaddr + len) by (unfold first, last in *; Z.to_euclidean_division_equations; lia).
        specialize (Hall (j * 4096) Hj4). unfold user_byte in Hall. rewrite page_floor_eq in Hall by lia.
        by rewrite Z.div_mul in Hall by lia.
Qed.

(** the check of a user buffer always ends, also for lengths up to 2^64, and
    accepts exactly the empty buffers and those that do not wrap and lie on pages
    that user code can reach, all of them. *)
Theorem user_range_ok_correct k vaddr len :
  0 <= vaddr < 18446744073709551616 -> 0 <= len < 18446744073709551616 ->
  exists b, user_range_ok k vaddr len = Some b /\
    (b = true <-> len = 0 \/
       vaddr + len <= 18446744073709551616 /\ forall a, vaddr <= a < vaddr + len -> user_byte k a).
Proof using Type. apply user_range_ok_spec. Qed.
End pointers.

(** * What the calls do to the threads and to memory *)

Section threads.
Context {K : Type} `{E : SchedEnv K}.
Implicit Types (s : sched K) (t : Z).

(** No thread changes its uid. *)
Definition same_uids s s' : Prop :=
  forall t, thread_uid (threads s').[t] = thread_uid (threads s).[t].

(** What a call that does not switch threads leaves alone. *)
Record calm s s' : Prop := {
  cm_uids : same_uids s s';
  cm_env : env s' = env s;
  cm_current : current_thread s' = current_thread s;
}.

Lemma same_uids_refl s : same_uids s s.
Proof. done. Qed.

Lemma same_uids_step s1 s2 s3 : same_uids s1 s2 -> same_uids s2 s3 -> same_uids s1 s3.
Proof. intros H1 H2 t. by rewrite H2. Qed.

Lemma calm_refl s : calm s s.
Proof. done. Qed.

Lemma calm_step s1 s2 s3 : calm s1 s2 -> calm s2 s3 -> calm s1 s3.
Proof.
  intros [U1 E1 C1] [U2 E2 C2]. split; [by eapply same_uids_step|congruence..].
Qed.

Lemma on_thread_calm s (i : Z) (f : thread_t -> thread_t) :
  (forall u, thread_uid (f u) = thread_uid u) -> calm s (on_thread s i f).
Proof.
  intros Hf. split; [|done|done]. intros t. cbn [on_thread with_threads threads].
  destruct (decide (Z.to_nat i = Z.to_nat t)) as [Eit|Hne]; [|by rewrite list_lookup_total_insert_ne].
  destruct (decide (Z.to_nat t < length (threads s))%nat).
  - rewrite Eit, list_lookup_total_insert_eq by done. by rewrite Hf.
  - by rewrite list_insert_ge by lia.
Qed.

Lemma wakeup_calm s channel : calm s (sched_wakeup s channel).
Proof.
  unfold sched_wakeup. apply (for_each_keep 0 _ _ s (calm s)); [done|].
  intros i s' _ H. eapply calm_step; [exact H|]. apply on_thread_calm. intros u. unfold wake_one. by destruct (_ && _).
Qed.

Lemma start_running_calm s next : calm s (start_running s next).
Proof. unfold start_running. eapply calm_step; by apply on_thread_calm. Qed.

(** A switch only moves the machine context. *)
Lemma enter_uids s (prev next : Z) :
  same_uids s (switch_to (activate (with_current (start_running s next) next) next) prev next).
Proof.
  unfold switch_to. destruct (env_switch_context _ _) as [k saved].
  eapply same_uids_step; [apply (cm_uids _ _ (start_running_calm s next))|].
  exact (cm_uids _ _ (on_thread_calm (with_env (activate (with_current (start_running s next) next) next) k)
    prev (set_rsp saved) (fun u => eq_refl))).
Qed.

Lemma sleep_uids s channel : same_uids s (sched_sleep s channel).1.
Proof.
  unfold sched_sleep. cbv zeta. set (s1 := on_thread s _ _). set (s2 := on_thread s1 _ _).
  assert (H2 : same_uids s s2) by (eapply same_uids_step; apply cm_uids; by apply on_thread_calm).
  destruct (_ =? _); [exact H2|]. eapply same_uids_step; [exact H2|]. apply enter_uids.
Qed.

Lemma fd_open_calm s kind handle : calm s (sched_fd_open s kind handle).1.
Proof.
  unfold sched_fd_open. destruct (_ =? _); [done|]. destruct (find_first _ _ _); [|done]. by apply on_thread_calm.
Qed.

Lemma fd_close_calm s fd : calm s (sched_fd_close s fd).1.
Proof. unfold sched_fd_close. destruct (_ || _); [done|]. by apply on_thread_calm. Qed.

Context (pipes_addr : Z).

Lemma close_reader_calm ps s idx : calm s (pipe_close_reader pipes_addr ps s idx).2.
Proof. unfold pipe_close_reader. destruct (_ || _); [done|]. apply wakeup_calm. Qed.

Lemma close_writer_calm ps s idx : calm s (pipe_close_writer pipes_addr ps s idx).2.
Proof. unfold pipe_close_writer. destruct (_ || _); [done|]. apply wakeup_calm. Qed.

Lemma release_slot_calm ps s slot : calm s (release_slot pipes_addr ps s slot).2.
Proof.
  unfold release_slot. repeat split_if; [apply close_reader_calm|apply close_writer_calm|done].
Qed.

Lemma fd_cleanup_calm ps s t : calm s (fd_cleanup_thread pipes_addr ps s t).2.
Proof.
  unfold fd_cleanup_thread. apply (for_each_keep 0 THREAD_MAX_FDS _ (ps, s) (fun st => calm s st.2)); [done|].
  intros fd [ps' s'] _ H. destruct (sched_fd_get_for _ _ _); [|done].
  eapply calm_step; [exact H|]. apply release_slot_calm.
Qed.

(** A call that may sleep: no uid changes, and memory only on a switch. *)
Definition turned s s' (returned : bool) : Prop := same_uids s s' /\ (returned = true -> calm s s').

Lemma turned_calm s s' b : calm s s' -> turned s s' b.
Proof. intros H. split; [apply H|done]. Qed.

Lemma turned_sleep s channel s' halted : sched_sleep s channel = (s', halted) -> turned s s' false.
Proof. intros Es. split; [|done]. pose proof (sleep_uids s channel) as H. by rewrite Es in H. Qed.

Definition is_returned {A} (t : turn A) : bool := match t with Returned _ => true | Slept _ => false end.
Definition io_returned (t : io_turn) : bool := match t with IoReturned _ => true | IoSlept _ _ => false end.

Lemma pipe_read_turned ps s idx dst len :
  let '(_, s', _, t) := pipe_read pipes_addr ps s idx dst len in turned s s' (is_returned t).
Proof.
  unfold pipe_read. destruct (_ || _); [by apply turned_calm|]. cbv zeta.
  destruct (negb _); [by apply turned_calm|]. destruct (_ >? 0).
  { destruct (take_bytes _ _ _). apply turned_calm, wakeup_calm. }
  destruct (_ <=? 0); [by apply turned_calm|].
  destruct (sched_sleep s _) as [s' h] eqn:Es. by eapply turned_sleep.
Qed.

Lemma pipe_write_turned ps s idx src len :
  let '(_, s', t) := pipe_write pipes_addr ps s idx src len in turned s s' (is_returned t).
Proof.
  unfold pipe_write. destruct (_ || _); [by apply turned_calm|]. cbv zeta.
  destruct (negb _); [by apply turned_calm|]. destruct (_ <=? 0); [by apply turned_calm|]. destruct (_ >? 0).
  { destruct (put_bytes _ _ _). apply turned_calm, wakeup_calm. }
  destruct (sched_sleep s _) as [s' h] eqn:Es. by eapply turned_sleep.
Qed.
End threads.

(** ** The descriptor calls *)

Section descriptors.
Context {K D H : Type} `{SchedEnv K} `{BlockDev D} `{Allocator H}.
Context (pipes_addr kbd_channel : Z).
Implicit Types (f : io_state K D H) (fd : Z).

Lemma after_file_calm f fd n : calm (io_sched f) (io_sched (after_file f fd n).1).
Proof using Type.
  unfold after_file. cbn [fst]. destruct (_ >? _); [|done]. unfold advance_cursor. cbn [with_sched io_sched].
  by apply on_thread_calm.
Qed.

Lemma fd_write_turned f fd buf len r :
  fd_write pipes_addr f fd buf len = Some r -> turned (io_sched f) (io_sched r.1) (io_returned r.2).
Proof using Type.
  unfold fd_write. destruct (sched_fd_get _ _) as [slot|]; [|intros [= <-]; by apply turned_calm].
  destruct (_ =? FD_KIND_CONSOLE); [intros [= <-]; by apply turned_calm|].
  destruct (_ =? FD_KIND_PIPE_WRITE).
  { pose proof (pipe_write_turned pipes_addr (io_pipes f) (io_sched f) (fd_handle slot) buf (u32 len)) as Ht.
    destruct (pipe_write _ _ _ _ _ _) as [[ps s] t]. intros [= <-]. by destruct t. }
  destruct (_ =? FD_KIND_UFS).
  { destruct (negb _); [intros [= <-]; by apply turned_calm|].
    destruct (ufs_write_at _ _ _ _ _) as [[u n]|]; cbn [mbind option_bind]; [|done]. intros [= <-].
    apply turned_calm, (after_file_calm (with_ufs f u)). }
  destruct (_ =? FD_KIND_MEMFS); [|intros [= <-]; by apply turned_calm].
  destruct (memfs_write_at _ _ _ _ _) as [[m n]|]; cbn [mbind option_bind]; [|done]. intros [= <-].
  apply turned_calm, (after_file_calm (with_memfs f m)).
Qed.

Lemma console_read_turned f buf from len :
  let r := console_read kbd_channel f buf from len in turned (io_sched f) (io_sched r.1.1) (io_returned r.2).
Proof using Type.
  cbv zeta. unfold console_read. destruct (decide (from <= len)) as [Hl|Hl].
  2:{ unfold for_range. replace (Z.to_nat (len - from)) with O by lia. by apply turned_calm. }
  apply (for_range_cases from len _ (f, buf) (fun _ x => calm (io_sched f) (io_sched x.1))
    (fun r => turned (io_sched f) (io_sched (match r with
      | inl (f, buf) => (f, buf, IoReturned (s64 len))
      | inr (f, buf, i, halted) => (f, buf, IoSlept i halted) end).1.1) (io_returned (match r with
      | inl (f, buf) => (f, buf, IoReturned (s64 len))
      | inr (f, buf, i, halted) => (f, buf, IoSlept i halted) end).2))); [done|done| |].
  - intros i [g b] _ Hg. cbn [fst] in Hg. unfold kbd_getchar.
    destruct (ring_buffer_pop _) as [rb [c|]]; [exact Hg|].
    destruct (sched_sleep (io_sched g) kbd_channel) as [s h] eqn:Es. cbn [fst snd with_keyboard with_sched io_sched io_returned].
    pose proof (sleep_uids (io_sched g) kbd_channel) as Hs. rewrite Es in Hs.
    split; [|done]. eapply same_uids_step; [apply Hg|exact Hs].
  - intros [g b] Hg. by apply turned_calm.
Qed.

Lemma fd_read_turned f fd buf len r :
  fd_read pipes_addr kbd_channel f fd buf len = Some r ->
  turned (io_sched f) (io_sched r.1.1) (io_returned r.2).
Proof using Type.
  unfold fd_read. destruct (sched_fd_get _ _) as [slot|]; [|intros [= <-]; by apply turned_calm].
  destruct (_ =? FD_KIND_CONSOLE); [intros [= <-]; apply console_read_turned|].
  destruct (_ =? FD_KIND_PIPE_READ).
  { pose proof (pipe_read_turned pipes_addr (io_pipes f) (io_sched f) (fd_handle slot) buf (u32 len)) as Ht.
    destruct (pipe_read _ _ _ _ _ _) as [[[ps s] b] t]. intros [= <-]. by destruct t. }
  destruct (_ =? FD_KIND_UFS).
  { destruct (negb _); [intros [= <-]; by apply turned_calm|].
    destruct (ufs_read_at _ _ _ _ _) as [[[u out] n]|]; cbn [mbind option_bind]; [|done].
    pose proof (after_file_calm (with_ufs f u) fd n) as Ha. destruct (after_file _ _ _) as [g t]. intros [= <-].
    by apply turned_calm. }
  destruct (_ =? FD_KIND_MEMFS); [|intros [= <-]; by apply turned_calm].
  destruct (memfs_read_at _ _ _ _ _) as [out n]. pose proof (after_file_calm f fd n) as Ha.
  destruct (after_file _ _ _) as [g t]. intros [= <-]. by apply turned_calm.
Qed.

Lemma open_slot_calm f kind handle : calm (io_sched f) (io_sched (open_slot f kind handle).1).
Proof using Type.
  unfold open_slot. pose proof (fd_open_calm (io_sched f) kind handle) as Ho.
  by destruct (sched_fd_open _ _ _).
Qed.

Lemma fd_open_returns f name flags r : fd_open f name flags = Some r -> calm (io_sched f) (io_sched r.1).
Proof using Type.
  unfold fd_open. destruct (negb _).
  - intros [= <-]. unfold fd_open_persist. cbv zeta. destruct (_ <? 0).
    + destruct (_ =? 0); [done|]. destruct (ufs_create _ _ _) as [u h].
      destruct (_ <? 0); [done|]. apply (open_slot_calm (with_ufs f u)).
    + destruct (negb _); [done|]. destruct (negb _); [|apply open_slot_calm].
      destruct (negb _); [done|apply (open_slot_calm (with_ufs f _))].
  - destruct (_ <? 0); [|intros [= <-]; apply open_slot_calm]. destruct (_ =? 0); [by intros [= <-]|].
    destruct (memfs_create _ _) as [[m h]|]; cbn [mbind option_bind]; [|done].
    destruct (_ <? 0); intros [= <-]; [done|apply (open_slot_calm (with_memfs f m))].
Qed.

Lemma fd_close_returns f fd : calm (io_sched f) (io_sched (fd_close pipes_addr f fd).1).
Proof using Type.
  unfold fd_close. destruct (sched_fd_get _ _) as [slot|]; [|done].
  pose proof (release_slot_calm pipes_addr (io_pipes f) (io_sched f) slot) as Hr.
  destruct (release_slot _ _ _ _) as [ps s]. pose proof (fd_close_calm s fd) as Hc.
  destruct (sched_fd_close s fd) as [s' v]. by eapply calm_step.
Qed.
End descriptors.

(** ** The process calls *)

Section process.
Context {K : Type} `{E : SchedEnv K} `{PE : ProcEnv K}.
Context (pipes_addr : Z).
Implicit Types (kn : kern K) (t p : Z).

Definition kern_uids kn kn' : Prop := same_uids (kn_sched kn) (kn_sched kn').

Lemma mark_exited_calm kn t status : calm (kn_sched kn) (kn_sched (process_mark_exited kn t status)).
Proof using Type. unfold process_mark_exited. destruct (find_process_by_tid _ _); [|done]. apply wakeup_calm. Qed.

Lemma exit_uids kn status : kern_uids kn (sched_exit_status kn status).1.
Proof using Type.
  unfold kern_uids, sched_exit_status. cbv zeta. destruct (_ =? -1); [done|].
  set (s0 := on_thread _ _ _). set (kn1 := process_mark_exited _ _ _). set (s := sched_wakeup _ _).
  assert (Hs : same_uids (kn_sched kn) s).
  { apply cm_uids, (calm_step _ s0); [by apply on_thread_calm|].
    apply (calm_step _ (kn_sched kn1)); [apply (mark_exited_calm (with_ksched kn s0))|]. apply wakeup_calm. }
  destruct (_ =? _); [exact Hs|]. destruct (env_switch_context _ _) as [k sp]. cbn [fst with_ksched kn_sched].
  eapply same_uids_step; [exact Hs|].
  exact (cm_uids _ _ (on_thread_calm s (find_next_runnable s (current_thread (kn_sched kn)))
    (set_state THREAD_RUNNING) (fun u => eq_refl))).
Qed.

(** Killing another thread returns; killing oneself does not. *)
Lemma process_kill_turned kn p sig :
  turned (kn_sched kn) (kn_sched (process_kill kn p sig).1)
    (match (process_kill kn p sig).2 with Done _ => true | _ => false end).
Proof using Type.
  unfold process_kill. cbv zeta. destruct (_ <? 0); [by apply turned_calm|]. unfold sched_kill.
  destruct (_ || _); [by apply turned_calm|]. destruct (_ =? _).
  { pose proof (exit_uids kn (SIGNAL_EXIT_STATUS sig)) as Hx.
    by destruct (sched_exit_status _ _) as [kn' [?|?|?]]. }
  destruct (_ || _); [by apply turned_calm|]. apply turned_calm. cbv zeta.
  set (s1 := on_thread (kn_sched kn) _ _). set (s2 := on_thread s1 _ _).
  apply (calm_step _ s1); [by apply on_thread_calm|]. apply (calm_step _ s2); [by apply on_thread_calm|].
  apply (mark_exited_calm (with_ksched kn s2)).
Qed.

Lemma reap_uids kn z kn' : reap_zombie pipes_addr kn z = Some kn' -> kern_uids kn kn'.
Proof using Type.
  unfold reap_zombie. destruct (_ || _); [by intros [= <-]|].
  pose proof (fd_cleanup_calm pipes_addr (kn_pipes kn) (kn_sched kn) z) as Hc.
  destruct (fd_cleanup_thread _ _ _ _) as [ps s]. cbv zeta.
  assert (Hclear : forall kn1 : kern K, threads (kn_sched kn1) = threads s ->
    kern_uids kn (with_ksched kn1 (on_thread (kn_sched kn1) z clear_slot))).
  { intros kn1 Ht. eapply same_uids_step; [apply Hc|]. intros t. cbn [with_ksched kn_sched].
    rewrite (cm_uids _ _ (on_thread_calm (kn_sched kn1) z clear_slot (fun u => eq_refl))). by rewrite Ht. }
  destruct (negb _).
  - destruct (env_unregister_stack _ _) as [k|]; cbn [mbind option_bind]; [|done]. intros [= <-]. apply Hclear.
    unfold process_reap_thread. by destruct (find_process_by_tid _ _).
  - cbn [mbind option_bind]. intros [= <-]. by apply Hclear.
Qed.

Lemma process_wait_uids kn p r : process_wait pipes_addr kn p = Some r -> kern_uids kn r.1.
Proof using Type.
  unfold process_wait. destruct (find_process kn p) as [i|]; [|by intros [= <-]]. cbv zeta.
  destruct (negb _); [by intros [= <-]|]. destruct (bool_decide _).
  - assert (Hrel : forall kn1 q, kn_sched (release_process kn1 q) = kn_sched kn1)
      by (intros kn1 q; unfold release_process; by destruct (find_process kn1 q)).
    destruct (_ >=? 0); cbn [mbind option_bind].
    + unfold sched_reap_thread. destruct (reap_zombie _ _ _) as [kn1|] eqn:Er; cbn [mbind option_bind]; [|done].
      intros [= <-]. unfold kern_uids. cbn [fst]. rewrite Hrel. by eapply reap_uids.
    + intros [= <-]. unfold kern_uids. cbn [fst]. by rewrite Hrel.
  - pose proof (sleep_uids (kn_sched kn) (u64 p)) as Hs. destruct (sched_sleep _ _) as [s h]. by intros [= <-].
Qed.
End process.

(** * The claims *)

Section calls.
Context {K D H : Type} `{SchedEnv K} `{ProcEnv K} `{SysEnv K} `{BlockDev D} `{Allocator H}.
Context (pipes_addr kbd_channel elf_trampoline : Z).
Implicit Types (o : os_t K D H) (r : registers_t) (f : io_state K D H) (u : ufs D).

Lemma checked_cases o (ok : option bool) body x :
  checked o ok body = Some x -> x = (o, SYS_FAIL) \/ ok = Some true /\ body = Some x.
Proof using Type. unfold checked. destruct ok as [[|]|]; cbn [negb]; intros Hx; simplify_eq; auto. Qed.

(** ** Files *)

(** Every file in use stays in use under its name, owner and permission bits. *)
Definition files_kept u u' : Prop :=
  forall h, 0 <= h < 64 -> entry_used (directory u) h = true ->
    same_identity (dirent_at (directory u) h) (dirent_at (directory u') h).

(** Only opening, reading and writing through descriptors and adding an account as
    root touch the file system without changing the rights of a file in use; the other
    changes are the deletion and the new permission bits the owner asks for. *)
Definition file_change o r o' : Prop :=
  let u := io_ufs (os_io o) in let u' := io_ufs (os_io o') in
  u' = u \/
  (rax r = 3 \/ rax r = 4 \/ rax r = 7 \/ rax r = 23 /\ current_uid (os_io o) = 0) /\ files_kept u u' \/
  exists arg, let name := user_string (os_env o) arg SYS_OPEN_NAME_MAX in
    0 <= ufs_find u name /\ ufs_owner u (ufs_find u name) = current_uid (os_io o) /\
    (rax r = 12 /\ arg = rdi r /\ u' = (ufs_delete u name).1 \/
     rax r = 21 /\ arg = rsi r /\ u' = (ufs_chmod u (ufs_find u name) (u8 (rdx r))).1).

(** Every uid stays, but that of a caller who has given the password of an account. *)
Definition uid_change o r o' : Prop :=
  forall t, 0 <= t ->
    thread_uid (threads (os_sched o')).[t] = thread_uid (threads (os_sched o)).[t] \/
    rax r = 22 /\ t = current_thread (os_sched o) /\
    users_authenticate (os_accounts o) (user_string (os_env o) (rsi r) USER_NAME_MAX)
      (user_string (os_env o) (rdx r) 64) = (0, Some (thread_uid (threads (os_sched o')).[t])).

Definition account_change o r o' : Prop :=
  os_accounts o' = os_accounts o \/ rax r = 23 /\ current_uid (os_io o) = 0.

Definition privileged o r o' : Prop := account_change o r o' /\ file_change o r o' /\ uid_change o r o'.

Lemma plain_privileged o r o' :
  os_accounts o' = os_accounts o -> io_ufs (os_io o') = io_ufs (os_io o) ->
  same_uids (os_sched o) (os_sched o') -> privileged o r o'.
Proof using Type. intros Ha Hf Hu. split; [by left|]. split; [by left|]. intros t _. left. apply Hu. Qed.

Lemma rights_files_kept u u' : rights u u' -> files_kept u u'.
Proof using Type. intros Hr h Hh Hu. by apply (rights_identity (directory u)). Qed.

Lemma io_privileged o r o' :
  (rax r = 3 \/ rax r = 4 \/ rax r = 7) -> os_accounts o' = os_accounts o ->
  rights (io_ufs (os_io o)) (io_ufs (os_io o')) ->
  same_uids (os_sched o) (os_sched o') -> privileged o r o'.
Proof using Type.
  intros Hr Ha Hf Hu. split; [by left|]. split; [|intros t _; left; apply Hu].
  right. left. split; [tauto|]. by apply rights_files_kept.
Qed.

Lemma fd_open_rights f name flags x : fd_open f name flags = Some x -> rights (io_ufs f) (io_ufs x.1).
Proof using Type.
  unfold fd_open. destruct (negb (Z.land flags FD_PERSIST =? 0)).
  - intros [= <-]. unfold fd_open_persist. cbv zeta. split_if.
    + split_if; [done|]. pose proof (ufs_create_rights (io_ufs f) name (current_uid f)) as Hr.
      destruct (ufs_create _ _ _) as [u n]. split_if; [exact Hr|]. by rewrite open_slot_ufs.
    + split_if; [done|]. split_if; [|by rewrite open_slot_ufs]. split_if; [done|]. rewrite open_slot_ufs.
      apply ufs_truncate_rights.
  - cbv zeta. split_if; [|intros [= <-]; by rewrite open_slot_ufs]. split_if; [by intros [= <-]|].
    destruct (memfs_create _ _) as [[m n]|]; cbn [mbind option_bind]; [|done].
    split_if; intros [= <-]; [done|]. by rewrite open_slot_ufs.
Qed.

Lemma fd_write_rights f fd buf len x : fd_write pipes_addr f fd buf len = Some x -> rights (io_ufs f) (io_ufs x.1).
Proof using Type.
  intros Hx. apply fd_write_effect in Hx as [->|(slot & n & _ & _ & _ & Hw)]; [done|]. by eapply ufs_write_at_rights.
Qed.

Lemma fd_read_rights f fd buf len x :
  fd_read pipes_addr kbd_channel f fd buf len = Some x -> rights (io_ufs f) (io_ufs x.1.1).
Proof using Type.
  intros Hx. apply fd_read_effect in Hx as [->|(slot & out & n & _ & _ & _ & Hr)]; [done|]. by eapply ufs_read_at_rights.
Qed.

Lemma read_done_uids o r res :
  same_uids (os_sched o) (io_sched res.1.1) ->
  same_uids (os_sched o) (os_sched (read_done o r res).1) /\ os_accounts (read_done o r res).1 = os_accounts o /\
  io_ufs (os_io (read_done o r res).1) = io_ufs res.1.1.
Proof using Type. destruct res as [[f out] [n|from halted]]; done. Qed.

Lemma sys_pipe_privileged o r x : sys_pipe pipes_addr o r = Some x -> privileged o r x.1.
Proof using Type.
  intros Hx. apply checked_cases in Hx as [->|[_ Hx]]; [by apply plain_privileged|].
  destruct (pipe_create _) as [ps idx]. cbv zeta in Hx.
  destruct (idx <? 0); [injection Hx as <-; by apply plain_privileged|].
  change (os_sched (with_io o (with_pipes (os_io o) ps))) with (os_sched o) in Hx.
  pose proof (fd_open_calm (os_sched o) FD_KIND_PIPE_READ idx) as C1.
  destruct (sched_fd_open (os_sched o) _ _) as [s1 rfd]. cbn [fst] in C1.
  pose proof (fd_open_calm s1 FD_KIND_PIPE_WRITE idx) as C2.
  destruct (sched_fd_open s1 _ _) as [s2 wfd]. cbn [fst] in C2.
  pose proof (calm_step _ _ _ C1 C2) as C. destruct (_ || _).
  - set (s3 := if rfd >=? 0 then _ else s2) in Hx. set (s4 := if wfd >=? 0 then _ else s3) in Hx.
    assert (C4 : calm (os_sched o) s4).
    { apply (calm_step _ s3); [apply (calm_step _ s2); [done|]|].
      - unfold s3. destruct (rfd >=? 0); [apply fd_close_calm|done].
      - unfold s4. destruct (wfd >=? 0); [apply fd_close_calm|done]. }
    pose proof (close_reader_calm pipes_addr ps s4 idx) as C5. destruct (pipe_close_reader _ _ _ _) as [ps5 s5].
    pose proof (close_writer_calm pipes_addr ps5 s5 idx) as C6. destruct (pipe_close_writer _ _ _ _) as [ps6 s6].
    simplify_eq. apply plain_privileged; try done. cbn [fst snd] in *.
    exact (cm_uids _ _ (calm_step _ _ _ C4 (calm_step _ _ _ C5 C6))).
  - simplify_eq. apply plain_privileged; try done. exact (cm_uids _ _ C).
Qed.

Lemma sys_login_privileged o r x : rax r = 22 -> sys_login o r = Some x -> privileged o r x.1.
Proof using Type.
  intros Hr Hx. apply checked_cases in Hx as [->|[_ Hx]]; [by apply plain_privileged|].
  cbv zeta in Hx. destruct (users_authenticate _ _ _) as [res uid] eqn:Ea. destruct (res =? 0) eqn:E0; bool_prop; cbn [negb] in Hx;
    [|simplify_eq; by apply plain_privileged].
  simplify_eq. split; [by left|]. split; [by left|]. intros t Ht. cbn [fst with_os_sched with_io with_sched os_sched os_io io_sched].
  unfold sched_set_uid, sched_current_tid. destruct ((_ <? 0) || _) eqn:Eb; [by left|]. bool_prop. cbn [fst].
  destruct (decide (t = current_thread (os_sched o))) as [->|Hne].
  - cbn [on_thread with_threads threads]. destruct (decide (current_thread (os_sched o) < zlen (threads (os_sched o)))).
    + right. split; [done|]. split; [done|]. rewrite aget_aset_eq by lia. cbn [thread_uid set_uid].
      rewrite Ea. f_equal. destruct uid as [uid|]; [done|]. exfalso. revert Ea. unfold users_authenticate.
      apply (for_range_cases 0 USER_MAX_ACCOUNTS _ tt (fun _ _ => True)
        (fun z => match z with inr q => q | inl _ => (-1, None) end = (0, None) -> False)); [done|done| |done].
      intros j [] _ _. repeat (split_if; [done|]). done.
    + left. unfold zlen in *. by rewrite list_insert_ge by lia.
  - left. cbn [on_thread with_threads threads]. by rewrite aget_aset_ne by lia.
Qed.

Lemma owns_spec o h :
  owns o h = true -> 0 <= h /\ ufs_owner (io_ufs (os_io o)) h = current_uid (os_io o).
Proof using Type. unfold owns. intros Hx. apply negb_true_iff, orb_false_iff in Hx as [H1' H2']. bool_prop. lia. Qed.

Lemma sys_write_privileged o r x : rax r = 3 -> sys_write pipes_addr o r = Some x -> privileged o r x.1.
Proof using Type.
  intros Hr Hx. apply checked_cases in Hx as [->|[_ Hx]]; [by apply plain_privileged|].
  destruct (fd_write _ _ _ _ _) as [[f t]|] eqn:Ef; cbn [mbind option_bind] in Hx; [|done]. simplify_eq.
  apply io_privileged; [auto|done|exact (fd_write_rights _ _ _ _ _ Ef)|exact (proj1 (fd_write_turned _ _ _ _ _ _ Ef))].
Qed.

Lemma sys_read_privileged o r x : rax r = 4 -> sys_read pipes_addr kbd_channel o r = Some x -> privileged o r x.1.
Proof using Type.
  intros Hr Hx. apply checked_cases in Hx as [->|[_ Hx]]; [by apply plain_privileged|].
  destruct (fd_read _ _ _ _ _ _) as [res|] eqn:Ef; cbn [mbind option_bind] in Hx; [|done]. simplify_eq.
  destruct (read_done_uids o r res (proj1 (fd_read_turned _ _ _ _ _ _ _ Ef))) as (Hu & Ha & Hf).
  apply io_privileged; auto. rewrite Hf. exact (fd_read_rights _ _ _ _ _ Ef).
Qed.

Lemma sys_open_privileged o r x : rax r = 7 -> sys_open o r = Some x -> privileged o r x.1.
Proof using Type.
  intros Hr Hx. apply checked_cases in Hx as [->|[_ Hx]]; [by apply plain_privileged|].
  destruct (fd_open _ _ _) as [[f fd]|] eqn:Ef; cbn [mbind option_bind] in Hx; [|done]. simplify_eq.
  apply io_privileged; [auto|done|exact (fd_open_rights _ _ _ _ Ef)|exact (cm_uids _ _ (fd_open_returns _ _ _ _ Ef))].
Qed.

Lemma sys_close_privileged o r : privileged o r (sys_close pipes_addr o r).1.
Proof using Type.
  unfold sys_close. pose proof (fd_close_returns pipes_addr (os_io o) (s32 (rdi r))) as Hc.
  pose proof (fd_close_effect pipes_addr (os_io o) (s32 (rdi r))) as Hf.
  destruct (fd_close _ _ _) as [f v]. apply plain_privileged; [done|exact Hf|exact (cm_uids _ _ Hc)].
Qed.

Lemma sys_two_values_privileged o r a b x : sys_two_values o r a b = Some x -> privileged o r x.1.
Proof using Type.
  intros Hx. apply checked_cases in Hx as [->|[_ Hx]]; [by apply plain_privileged|].
  cbv zeta in Hx. simplify_eq. by apply plain_privileged.
Qed.

Lemma sys_draw_row_privileged o r x : sys_draw_row o r = Some x -> privileged o r x.1.
Proof using Type.
  intros Hx. apply checked_cases in Hx as [->|[_ Hx]]; [by apply plain_privileged|].
  cbv zeta in Hx. simplify_eq. by apply plain_privileged.
Qed.

Lemma sys_username_privileged o r x : sys_username o r = Some x -> privileged o r x.1.
Proof using Type.
  intros Hx. apply checked_cases in Hx as [->|[_ Hx]]; [by apply plain_privileged|].
  destruct (users_name_for_uid _ _ _); simplify_eq; by apply plain_privileged.
Qed.

Lemma sys_list_privileged o r x : sys_list o r = Some x -> privileged o r x.1.
Proof using Type.
  unfold sys_list. intros Hx. destruct (rdx r =? 0); [simplify_eq; by apply plain_privileged|].
  apply checked_cases in Hx as [->|[_ Hx]]; [by apply plain_privileged|].
  destruct (list_name _ _); simplify_eq; by apply plain_privileged.
Qed.

Lemma sys_remove_privileged o r x : rax r = 12 -> sys_remove o r = Some x -> privileged o r x.1.
Proof using Type.
  intros Hr Hx. apply checked_cases in Hx as [->|[_ Hx]]; [by apply plain_privileged|]. cbv zeta in Hx.
  set (name := user_string _ _ _) in Hx. destruct (owns o _) eqn:Eo; cbn [negb] in Hx;
    [|simplify_eq; by apply plain_privileged].
  apply owns_spec in Eo as [Hh Ho]. destruct (ufs_delete _ _) as [u v] eqn:Eu. simplify_eq.
  split; [by left|]. split; [|by intros t _; left]. right. right. exists (rdi r). cbv zeta. fold name.
  split; [done|]. split; [done|]. left. split; [done|]. split; [done|]. by rewrite Eu.
Qed.

Lemma sys_chmod_privileged o r x : rax r = 21 -> sys_chmod o r = Some x -> privileged o r x.1.
Proof using Type.
  intros Hr Hx. apply checked_cases in Hx as [->|[_ Hx]]; [by apply plain_privileged|]. cbv zeta in Hx.
  set (name := user_string _ _ _) in Hx. destruct (owns o _) eqn:Eo; cbn [negb] in Hx;
    [|simplify_eq; by apply plain_privileged].
  apply owns_spec in Eo as [Hh Ho]. destruct (ufs_chmod _ _ _) as [u v] eqn:Eu. simplify_eq.
  split; [by left|]. split; [|by intros t _; left]. right. right. exists (rsi r). cbv zeta. fold name.
  split; [done|]. split; [done|]. right. split; [done|]. split; [done|]. by rewrite Eu.
Qed.

Lemma sys_adduser_privileged o r x : rax r = 23 -> sys_adduser o r = Some x -> privileged o r x.1.
Proof using Type.
  unfold sys_adduser. intros Hr Hx. destruct (current_uid _ =? 0) eqn:E0; bool_prop; cbn [negb] in Hx;
    [|simplify_eq; by apply plain_privileged].
  apply checked_cases in Hx as [->|[_ Hx]]; [by apply plain_privileged|]. cbv zeta in Hx.
  destruct (users_add _ _ _ _ _) as [[[a u] v]|] eqn:Ea; cbn [mbind option_bind] in Hx; [|done]. simplify_eq.
  apply users_add_rights, rights_files_kept in Ea.
  split; [by right|]. split; [by right; left; split; [tauto|]|]. by intros t _; left.
Qed.

Lemma sys_kill_privileged o r : privileged o r (sys_kill o r).1.
Proof using Type.
  unfold sys_kill. pose proof (process_kill_turned (os_kern o) (s32 (rsi r)) (s32 (rdx r))) as [Hu _].
  destruct (process_kill _ _ _) as [kn e]. by apply plain_privileged.
Qed.

Lemma sys_wait_privileged o r x : sys_wait pipes_addr o r = Some x -> privileged o r x.1.
Proof using Type.
  unfold sys_wait. intros Hx. destruct (process_wait _ _ _) as [[kn e]|] eqn:Ew; cbn [mbind option_bind] in Hx; [|done].
  simplify_eq. apply plain_privileged; [done|done|]. exact (process_wait_uids _ _ _ _ Ew).
Qed.

Lemma sys_exit_privileged o r : privileged o r (sys_exit o r).1.
Proof using Type.
  unfold sys_exit, process_exit. pose proof (exit_uids (os_kern o) (s32 (rdi r))) as Hu.
  destruct (sched_exit_status _ _) as [kn e]. by apply plain_privileged.
Qed.

(** The handler is one of the calls. *)
Lemma syscall_cases o r x :
  syscall_handler pipes_addr kbd_channel elf_trampoline o r = Some x ->
  (rax r = 2 /\ x = sys_exit o r) \/ (rax r = 3 /\ sys_write pipes_addr o r = Some x) \/
  (rax r = 4 /\ sys_read pipes_addr kbd_channel o r = Some x) \/ rax r = 5 \/
  (rax r = 6 /\ sys_wait pipes_addr o r = Some x) \/ (rax r = 7 /\ sys_open o r = Some x) \/
  (rax r = 8 /\ x = sys_close pipes_addr o r) \/ (rax r = 9 /\ sys_list o r = Some x) \/
  (exists a b, sys_two_values o r a b = Some x) \/ (rax r = 12 /\ sys_remove o r = Some x) \/
  (exists g, x = on_video o g) \/ sys_draw_row o r = Some x \/ (rax r = 17 /\ x = sys_kill o r) \/
  (rax r = 18 /\ sys_pipe pipes_addr o r = Some x) \/ rax r = 19 \/ (rax r = 21 /\ sys_chmod o r = Some x) \/
  (rax r = 22 /\ sys_login o r = Some x) \/ (rax r = 23 /\ sys_adduser o r = Some x) \/
  (rax r = 24 /\ sys_username o r = Some x) \/ exists v, x = (o, SysReturn v).
Proof using Type.
  unfold syscall_handler. destruct (rax r) as [|p|p]; [intros; simplify_eq; naive_solver| |intros; simplify_eq; naive_solver].
  do 5 (try (destruct p as [p|p|])); intros Hx; simplify_eq; eauto 25.
Qed.

(** ** Memory *)

Definition regs_ok r : Prop :=
  (0 <= rdi r < 18446744073709551616) /\ (0 <= rsi r < 18446744073709551616) /\
  (0 <= rdx r < 18446744073709551616).

(** [P] is a property of memory that stores of the caller itself cannot break. *)
Definition user_stable o (P : K -> Prop) : Prop :=
  forall k a v, user_byte (os_env o) a -> P k -> P (env_st8 k a v).

Lemma range_bytes (k : K) vaddr len j :
  0 <= vaddr < 18446744073709551616 -> user_range_ok k vaddr len = Some true -> 0 <= j < len ->
  len < 18446744073709551616 -> user_byte k (vaddr +64 j).
Proof using Type.
  intros Hv Hr Hj Hl. destruct (user_range_ok_spec k vaddr len Hv ltac:(lia)) as (b & E & Hb).
  rewrite Hr in E. injection E as <-. destruct (proj1 Hb eq_refl) as [E0|[Hle Hall]]; [lia|].
  rewrite u64_small by lia. apply Hall. lia.
Qed.

Lemma copy_kept o (P : K -> Prop) (k : K) vaddr bytes len n :
  user_stable o P -> 0 <= vaddr < 18446744073709551616 -> len < 18446744073709551616 ->
  user_range_ok (os_env o) vaddr len = Some true -> n <= len -> P k -> P (copy_to_user k vaddr bytes n).
Proof using Type.
  intros HP Hv Hl Hr Hn Hk. unfold copy_to_user. apply for_each_keep; [done|].
  intros j k' Hj Hk'. apply HP; [|done]. by apply (range_bytes _ _ len); first [done|lia].
Qed.

Lemma string_kept o (P : K -> Prop) (k : K) vaddr str len :
  user_stable o P -> 0 <= vaddr < 18446744073709551616 -> 0 < len < 18446744073709551616 ->
  user_range_ok (os_env o) vaddr len = Some true -> P k -> P (string_to_user k vaddr str len).
Proof using Type.
  intros HP Hv Hl Hr Hk. unfold string_to_user. apply (copy_kept o _ _ _ _ len); try done; [lia|].
  unfold zlen. rewrite length_app, length_take. simpl. lia.
Qed.

Lemma buffer_ok_range (k : K) vaddr len m :
  buffer_ok k vaddr len m = Some true -> user_range_ok k vaddr len = Some true.
Proof using Type. unfold buffer_ok. by destruct (len >? m). Qed.

Lemma both_ok_ranges (k : K) a n b m :
  both_ok k a n b m = Some true -> user_range_ok k a n = Some true /\ user_range_ok k b m = Some true.
Proof using Type. unfold both_ok. by destruct (user_range_ok k a n) as [[|]|]. Qed.

Lemma sys_read_memory o r o' v (P : K -> Prop) :
  regs_ok r -> user_stable o P -> sys_read pipes_addr kbd_channel o r = Some (o', SysReturn v) ->
  P (os_env o) -> P (os_env o').
Proof using Type.
  intros (_ & Hsi & Hdx) HP Hx Hk. apply checked_cases in Hx as [Ex|[Hok Hx]]; [simplify_eq; done|].
  apply buffer_ok_range in Hok.
  destruct (fd_read _ _ _ _ _ _) as [[[f out] t]|] eqn:Ef; cbn [mbind option_bind] in Hx; [|done].
  apply fd_read_turned in Ef as [_ Hc]. destruct t as [n|from halted]; [|done]. specialize (Hc eq_refl).
  injection Hx as <- <-. change (P (copy_to_user (env (io_sched f)) (rsi r) out (rdx r))).
  apply (copy_kept o _ _ _ _ (rdx r)); try done; [lia|].
  pose proof (cm_env _ _ Hc) as Ee. cbn [fst] in Ee. by rewrite Ee.
Qed.

Lemma sys_pipe_memory o r o' v (P : K -> Prop) :
  regs_ok r -> user_stable o P -> sys_pipe pipes_addr o r = Some (o', SysReturn v) ->
  P (os_env o) -> P (os_env o').
Proof using Type.
  intros (Hdi & _ & _) HP Hx Hk. apply checked_cases in Hx as [Ex|[Hok Hx]]; [simplify_eq; done|].
  destruct (pipe_create _) as [ps idx]. cbv zeta in Hx. destruct (idx <? 0); [injection Hx as <- _; done|].
  change (os_sched (with_io o (with_pipes (os_io o) ps))) with (os_sched o) in Hx.
  pose proof (fd_open_calm (os_sched o) FD_KIND_PIPE_READ idx) as C1.
  destruct (sched_fd_open (os_sched o) _ _) as [s1 rfd]. cbn [fst] in C1.
  pose proof (fd_open_calm s1 FD_KIND_PIPE_WRITE idx) as C2.
  destruct (sched_fd_open s1 _ _) as [s2 wfd]. cbn [fst] in C2.
  pose proof (calm_step _ _ _ C1 C2) as C. destruct (_ || _).
  - set (s3 := if rfd >=? 0 then _ else s2) in Hx. set (s4 := if wfd >=? 0 then _ else s3) in Hx.
    assert (C4 : calm (os_sched o) s4).
    { apply (calm_step _ s3); [apply (calm_step _ s2); [done|]|].
      - unfold s3. destruct (rfd >=? 0); [apply fd_close_calm|done].
      - unfold s4. destruct (wfd >=? 0); [apply fd_close_calm|done]. }
    pose proof (close_reader_calm pipes_addr ps s4 idx) as C5. destruct (pipe_close_reader _ _ _ _) as [ps5 s5].
    pose proof (close_writer_calm pipes_addr ps5 s5 idx) as C6. destruct (pipe_close_writer _ _ _ _) as [ps6 s6].
    injection Hx as <- _. cbn [snd] in *. change (P (env s6)).
    rewrite (cm_env _ _ (calm_step _ _ _ C4 (calm_step _ _ _ C5 C6))). exact Hk.
  - injection Hx as <- _. change (P (copy_to_user (env s2) (rdi r) (qword rfd ++ qword wfd) 16)).
    pose proof (cm_env _ _ C) as Ee. rewrite Ee.
    exact (copy_kept o P _ (rdi r) (qword rfd ++ qword wfd) 16 16 HP Hdi ltac:(lia) Hok ltac:(lia) Hk).
Qed.

Lemma sys_two_values_memory o r a b o' v (P : K -> Prop) :
  regs_ok r -> user_stable o P -> sys_two_values o r a b = Some (o', SysReturn v) ->
  P (os_env o) -> P (os_env o').
Proof using Type.
  intros (_ & Hsi & Hdx) HP Hx Hk. apply checked_cases in Hx as [Ex|[Hok Hx]]; [simplify_eq; done|].
  apply both_ok_ranges in Hok as [Ha Hb]. cbv zeta in Hx. injection Hx as <- _.
  change (P (copy_to_user (copy_to_user (os_env o) (rsi r) (qword a) 8) (rdx r) (qword b) 8)).
  apply (copy_kept o P _ (rdx r) (qword b) 8 8 HP Hdx ltac:(lia) Hb ltac:(lia)).
  exact (copy_kept o P _ (rsi r) (qword a) 8 8 HP Hsi ltac:(lia) Ha ltac:(lia) Hk).
Qed.

Lemma sys_strings_memory o r o' v (P : K -> Prop) :
  regs_ok r -> user_stable o P -> rdx r <> 0 ->
  (sys_username o r = Some (o', SysReturn v) \/ sys_list o r = Some (o', SysReturn v)) ->
  P (os_env o) -> P (os_env o').
Proof using Type.
  intros (_ & Hsi & Hdx) HP H0' [Hx|Hx] Hk.
  - apply checked_cases in Hx as [Ex|[Hok Hx]]; [simplify_eq; done|].
    destruct (users_name_for_uid _ _ _) as [name|]; injection Hx as <- _; [|done].
    change (P (string_to_user (os_env o) (rsi r) name (rdx r))). apply (string_kept o); try done. lia.
  - unfold sys_list in Hx. replace (rdx r =? 0) with false in Hx by lia.
    apply checked_cases in Hx as [Ex|[Hok Hx]]; [simplify_eq; done|].
    destruct (list_name _ _) as [name|]; injection Hx as <- _; [|done].
    change (P (string_to_user (os_env o) (rsi r) name (rdx r))). apply (string_kept o); try done. lia.
Qed.

(** The calls that only compute, schedule or change files. *)
Lemma calm_memory o o' (P : K -> Prop) : calm (os_sched o) (os_sched o') -> P (os_env o) -> P (os_env o').
Proof using Type. intros Hc. unfold os_env. by rewrite (cm_env _ _ Hc). Qed.

Lemma checked_calm o ok body o' v :
  checked o ok body = Some (o', SysReturn v) ->
  (forall x, body = Some (x, SysReturn v) -> calm (os_sched o) (os_sched x)) -> calm (os_sched o) (os_sched o').
Proof using Type. intros Hx Hb. apply checked_cases in Hx as [Ex|[_ Hx]]; [by simplify_eq|by apply Hb]. Qed.

Lemma sys_write_calm o r o' v :
  sys_write pipes_addr o r = Some (o', SysReturn v) -> calm (os_sched o) (os_sched o').
Proof using Type.
  intros Hx. apply checked_calm in Hx; [done|]. intros x Ex.
  destruct (fd_write _ _ _ _ _) as [[f t]|] eqn:Ef; cbn [mbind option_bind] in Ex; [|done].
  apply fd_write_turned in Ef as [_ Hc]. destruct t; [|done]. simplify_eq. by apply Hc.
Qed.

Lemma sys_open_calm o r o' v : sys_open o r = Some (o', SysReturn v) -> calm (os_sched o) (os_sched o').
Proof using Type.
  intros Hx. apply checked_calm in Hx; [done|]. intros x Ex.
  destruct (fd_open _ _ _) as [[f fd]|] eqn:Ef; cbn [mbind option_bind] in Ex; [|done]. simplify_eq.
  exact (fd_open_returns _ _ _ _ Ef).
Qed.

Lemma sys_files_calm o r o' v :
  (sys_remove o r = Some (o', SysReturn v) \/ sys_chmod o r = Some (o', SysReturn v) \/
   sys_draw_row o r = Some (o', SysReturn v) \/ sys_adduser o r = Some (o', SysReturn v)) ->
  calm (os_sched o) (os_sched o').
Proof using Type.
  intros [Hx|[Hx|[Hx|Hx]]].
  - apply checked_calm in Hx; [done|]. cbv zeta. intros x. destruct (negb _); [by intros; simplify_eq|].
    destruct (ufs_delete _ _). by intros; simplify_eq.
  - apply checked_calm in Hx; [done|]. cbv zeta. intros x. destruct (negb _); [by intros; simplify_eq|].
    destruct (ufs_chmod _ _ _). by intros; simplify_eq.
  - apply checked_calm in Hx; [done|]. unfold on_video. cbv zeta. intros x Ex. by simplify_eq.
  - unfold sys_adduser in Hx. destruct (negb _); [by simplify_eq|].
    apply checked_calm in Hx; [done|]. cbv zeta. intros x.
    destruct (users_add _ _ _ _ _) as [[[a u] w]|]; cbn [mbind option_bind]; [|done]. by intros; simplify_eq.
Qed.

(** Logging in changes the caller's entry, not memory. *)
Lemma sys_login_memory o r o' v : sys_login o r = Some (o', SysReturn v) -> os_env o' = os_env o.
Proof using Type.
  intros Hx. apply checked_cases in Hx as [Ex|[_ Hx]]; [by simplify_eq|]. cbv zeta in Hx.
  destruct (users_authenticate _ _ _) as [res uid]. destruct (negb _); [by simplify_eq|]. simplify_eq.
  unfold sched_set_uid. by destruct (_ || _).
Qed.

(** C21: whatever a program asks (spawning apart), no account appears but through a
    caller with uid 0; no thread's uid changes but the caller's own to that of an
    account whose password it gave; and no file in use loses its entry, its name, its
    owner or its permission bits (opening with any flags, writing, reading and adding
    an account included) but when its owner asks to delete it or to set its bits,
    which then does exactly that.  What may happen to the bytes of a file is the
    matter of [Fd.fd_protects_files]. *)
Theorem syscall_privileges o r o' e :
  syscall_handler pipes_addr kbd_channel elf_trampoline o r = Some (o', e) -> rax r <> 5 -> rax r <> 19 ->
  privileged o r o'.
Proof using Type.
  intros Hx H5' H19. pose proof (syscall_cases o r (o', e) Hx) as Hc.
  change o' with (o', e).1. set (x := (o', e)) in *. clearbody x.
  destruct Hc as [[Hr ->]|[[Hr Hc]|[[Hr Hc]|[Hr|[[Hr Hc]|[[Hr Hc]|[[Hr ->]|[[Hr Hc]|[(a & b & Hc)|[[Hr Hc]|[[g ->]|[Hc|
    [[Hr ->]|[[Hr Hc]|[Hr|[[Hr Hc]|[[Hr Hc]|[[Hr Hc]|[[Hr Hc]|[v ->]]]]]]]]]]]]]]]]]]]]; try done.
  - apply sys_exit_privileged.
  - by apply sys_write_privileged.
  - by apply sys_read_privileged.
  - by apply sys_wait_privileged.
  - by apply sys_open_privileged.
  - apply sys_close_privileged.
  - by apply sys_list_privileged.
  - by eapply sys_two_values_privileged.
  - by apply sys_remove_privileged.
  - by apply plain_privileged.
  - by apply sys_draw_row_privileged.
  - apply sys_kill_privileged.
  - by apply sys_pipe_privileged.
  - by apply sys_chmod_privileged.
  - by apply sys_login_privileged.
  - by apply sys_adduser_privileged.
  - by apply sys_username_privileged.
  - by apply plain_privileged.
Qed.

(** C20: the kernel does not write where its caller could not: whatever a program
    passes as pointers and lengths, a call that returns (spawning and waiting apart,
    which work on kernel memory) breaks no property of memory that stores to the
    caller's own user-accessible bytes cannot break, except that asking for a user
    name with length 0 stores one byte unchecked. *)
Theorem syscall_writes_user_memory o r o' v (P : K -> Prop) :
  regs_ok r -> syscall_handler pipes_addr kbd_channel elf_trampoline o r = Some (o', SysReturn v) ->
  rax r <> 5 -> rax r <> 6 -> rax r <> 19 -> (rax r = 24 -> rdx r <> 0) ->
  user_stable o P -> P (os_env o) -> P (os_env o').
Proof using Type.
  intros Hregs Hx H5' H6' H19 H24 HP. pose proof (syscall_cases o r _ Hx) as Hc.
  destruct Hc as [[Hr Hc]|[[Hr Hc]|[[Hr Hc]|[Hr|[[Hr Hc]|[[Hr Hc]|[[Hr Hc]|[[Hr Hc]|[(a & b & Hc)|[[Hr Hc]|[[g Hc]|[Hc|
    [[Hr Hc]|[[Hr Hc]|[Hr|[[Hr Hc]|[[Hr Hc]|[[Hr Hc]|[[Hr Hc]|[w Hc]]]]]]]]]]]]]]]]]]]]; try done.
  - unfold sys_exit in Hc. by destruct (process_exit _ _).
  - by apply calm_memory, (sys_write_calm _ r _ v).
  - by eapply sys_read_memory.
  - by apply calm_memory, (sys_open_calm _ r _ v).
  - unfold sys_close in Hc. pose proof (fd_close_returns pipes_addr (os_io o) (s32 (rdi r))) as Hf.
    destruct (fd_close _ _ _) as [f u]. injection Hc as -> _. by apply calm_memory.
  - destruct (decide (rdx r = 0)) as [E0|Hne]; [|by eapply sys_strings_memory; eauto].
    unfold sys_list in Hc. replace (rdx r =? 0) with true in Hc by lia. by injection Hc as <- _.
  - by eapply sys_two_values_memory.
  - apply calm_memory, (sys_files_calm _ r _ v). auto.
  - injection Hc as -> _. done.
  - apply calm_memory, (sys_files_calm _ r _ v). auto.
  - unfold sys_kill in Hc. pose proof (process_kill_turned (os_kern o) (s32 (rsi r)) (s32 (rdx r))) as [_ Hk].
    destruct (process_kill _ _ _) as [kn [w|w|w]]; try done. injection Hc as -> _.
    apply calm_memory. by apply Hk.
  - by eapply sys_pipe_memory.
  - apply calm_memory, (sys_files_calm _ r _ v). auto.
  - by rewrite (sys_login_memory _ _ _ _ Hc).
  - apply calm_memory, (sys_files_calm _ r _ v). auto.
  - eapply sys_strings_memory; eauto.
  - by injection Hc as -> _.
Qed.
End calls.

(** * A concrete system *)

(** A machine whose memory is a map of bytes; user code reaches 512 GiB and up. *)
#[export] Instance demo_mem_env : SchedEnv mem := {
  env_malloc := fun k _ => Some (k, 65536);
  env_free := fun k _ => Some k;
  env_ld32 := fun k a => ld32 k a;
  env_st64 := fun k a v => st64 k a v;
  env_alloc_contiguous := fun k _ => (k, 131072);
  env_free_frame := fun k _ => k;
  env_guard_page := fun k _ => k;
  env_is_mapped := fun _ _ => false;
  env_map_page := fun k _ _ _ => k;
  env_kernel_space := fun _ => 4096;
  env_switch_space := fun k _ => k;
  env_set_kernel_stack := fun k _ => k;
  env_switch_context := fun k _ => (k, 0);
}.

#[export] Instance demo_mem_proc_env : ProcEnv mem := {
  env_ld8 := ld8;
  env_st8 := st8;
  env_ld64 := ld64;
  env_st32 := st32;
  env_alloc_zeroed_frame := fun k => (k, 0);
  env_map_page_in := fun k _ _ _ _ => (k, 0);
  env_mark_user := fun k _ => k;
  env_create_space := fun k => (k, 0);
  env_destroy_space := fun k _ => k;
  env_register_stack := fun k _ _ _ => Some k;
  env_unregister_stack := fun k _ => Some k;
  env_elf_load := fun k _ _ _ _ => Some (k, None);
}.

#[export] Instance demo_mem_sys_env : SysEnv mem := {
  env_current_space := fun _ => 4096;
  env_user_accessible := fun _ _ page => 549755813888 <=? page;
  env_total_frames := fun _ => 100;
  env_free_frames := fun _ => 50;
}.

(** A program of uid 1000 that has put the name and password of root, and 7 in a
    byte of the kernel. *)
Definition demo_os : os_t mem memdisk Heap.heap :=
  let k := copy_in (st8 ∅ 4096 7) 549755813888 (root_name ++ [0]) 5 in
  mk_os (mk_io (mk_sched [demo_io_thread 1000] 65536 1 0 k) no_pipes demo_keyboard demo_video
           demo_created demo_memfs) no_processes 1 demo_fs demo_accounts.

Definition demo_login : registers_t := mk_regs 22 0 549755813888 549755813888.
Definition demo_username : registers_t := mk_regs 24 0 549755817984 8.

Lemma user_range_ok_correct_witness :
  (0 <= 549755813888 < 18446744073709551616 /\ 0 <= 8192 < 18446744073709551616) /\
  exists b, user_range_ok (os_env demo_os) 549755813888 8192 = Some b /\
    (b = true <-> 8192 = 0 \/
       549755813888 + 8192 <= 18446744073709551616 /\
       forall a, 549755813888 <= a < 549755813888 + 8192 -> user_byte (os_env demo_os) a).
Proof.
  split; [lia|]. apply (user_range_ok_correct (os_env demo_os) 549755813888 8192); lia.
Defined.

Lemma syscall_privileges_witness :
  exists o', syscall_handler 4096 8192 16 demo_os demo_login = Some (o', SysReturn 0) /\
    privileged demo_os demo_login o' /\ current_uid (os_io o') = 0.
Proof.
  assert (Ee : ((fun x => (x.2, current_uid (os_io x.1))) <$>
    syscall_handler 4096 8192 16 demo_os demo_login) = Some (SysReturn 0, 0)) by (vm_compute; reflexivity).
  apply fmap_Some in Ee as ([o' e] & Eh & Ex). injection Ex as Ee Eu. exists o'. subst e.
  exact (conj Eh (conj (syscall_privileges 4096 8192 16 demo_os demo_login o' (SysReturn 0) Eh
    ltac:(discriminate) ltac:(discriminate)) (eq_sym Eu))).
Defined.

Lemma demo_user_stable : user_stable demo_os (fun k => ld8 k 4096 = 7).
Proof.
  intros k a v Ha Hk. cbn [env_st8 demo_mem_proc_env]. unfold ld8, st8 in *. rewrite lookup_insert_ne; [done|].
  intros ->. by vm_compute in Ha.
Qed.

Lemma syscall_writes_user_memory_witness :
  exists o', syscall_handler 4096 8192 16 demo_os demo_username = Some (o', SysReturn 0) /\
    ld8 (os_env o') 549755817984 = 114 /\ ld8 (os_env o') 4096 = 7.
Proof.
  assert (Ee : ((fun x => (x.2, ld8 (os_env x.1) 549755817984)) <$>
    syscall_handler 4096 8192 16 demo_os demo_username) = Some (SysReturn 0, 114)) by (vm_compute; reflexivity).
  apply fmap_Some in Ee as ([o' e] & Eh & Ex). injection Ex as Ee Eb. exists o'. subst e.
  assert (Hregs : regs_ok demo_username) by (split; [|split]; cbn; lia).
  assert (H7 : ld8 (os_env demo_os) 4096 = 7) by (vm_compute; reflexivity).
  exact (conj Eh (conj (eq_sym Eb)
    (syscall_writes_user_memory 4096 8192 16 demo_os demo_username o' 0 (fun k => ld8 k 4096 = 7)
       Hregs Eh ltac:(discriminate) ltac:(discriminate) ltac:(discriminate) ltac:(discriminate) demo_user_stable H7))).
Defined.

(** With length 0 the pointer is not checked, and one byte is stored: a program can
    clear any byte, here one of the kernel. *)
Lemma sys_username_unchecked :
  let r := mk_regs 24 0 4096 0 in
  ((fun x => (x.2, ld8 (os_env x.1) 4096)) <$> syscall_handler 4096 8192 16 demo_os r) = Some (SysReturn 0, 0) /\
  ~ user_byte (os_env demo_os) 4096.
Proof. split; [vm_compute; reflexivity|]. unfold user_byte. by vm_compute. Qed.
