(* ===== verification/Lang.v ===== *)
(** The script language of [programs/lang.c]: the expression parser, one line, and
    the run of a script. *)
From S2P Require Import Prelude CString.
From Stdlib Require Import Ascii String.

Open Scope Z_scope.
Open Scope list_scope.

Definition MAX_LINES : Z := 200.
Definition MAX_LINE_LEN : Z := 120.
Definition MAX_VARS : Z := 32.
Definition VAR_NAME_LEN : Z := 16.
Definition STEP_LIMIT : Z := 2000000.

Definition c_tab : Z := 9.
Definition c_bang : Z := 33.
Definition c_quote : Z := 34.
Definition c_hash : Z := 35.
Definition c_lpar : Z := 40.
Definition c_rpar : Z := 41.
Definition c_mul : Z := 42.
Definition c_plus : Z := 43.
Definition c_minus : Z := 45.
Definition c_div : Z := 47.
Definition c_lt : Z := 60.
Definition c_eq : Z := 61.
Definition c_gt : Z := 62.

(** A variable in use: the first [var_count] entries of [vars]. *)
Record var_t := mk_var { v_name : list Z; v_value : Z }.

#[export] Instance var_inhabited : Inhabited var_t := populate (mk_var [] 0).

(** [Fault]: the processor stops the program (a null pointer, or the quotient
    of -2^63 and -1). *)
Inductive result (A : Type) :=
  | Val (a : A)
  | Fault
  | OutOfFuel.
Arguments Val {A}.
Arguments Fault {A}.
Arguments OutOfFuel {A}.

#[export] Instance result_bind : MBind result := fun A B f r =>
  match r with Val a => f a | Fault => Fault | OutOfFuel => OutOfFuel end.

(** * Strings and variables

    A [const char *] into a string is the list of the characters from there on;
    past its end they read as NUL. *)

Fixpoint skip_ws (s : list Z) : list Z :=
  match s with
  | c :: s' => if (c =? c_space) || (c =? c_tab) then skip_ws s' else s
  | [] => []
  end.

Definition is_ident_char (c : Z) : bool :=
  ((97 <=? c) && (c <=? 122)) || ((65 <=? c) && (c <=? 90)) || is_digit c || (c =? 95).

(** The identifier, cut to [VAR_NAME_LEN - 1] characters, and the rest. *)
Fixpoint read_ident_from (s out : list Z) : list Z * list Z :=
  match s with
  | c :: s' =>
      if is_ident_char c
      then read_ident_from s' (if zlen out <? VAR_NAME_LEN - 1 then out ++ [c] else out)
      else (out, s)
  | [] => (out, [])
  end.

Definition read_ident (s : list Z) : list Z * list Z := read_ident_from s [].

Definition var_find (vars : list var_t) (name : list Z) : option Z :=
  find_first 0 (zlen vars) (fun i => str_eq (v_name vars.[i]) name).

(** [*var_ref(name, 0)], 0 for a null result. *)
Definition var_get (vars : list var_t) (name : list Z) : Z :=
  match var_find vars name with Some i => v_value vars.[i] | None => 0 end.

(** [*var_ref(name, 1) = value] *)
Definition var_set (vars : list var_t) (name : list Z) (value : Z) : result (list var_t) :=
  match var_find vars name with
  | Some i => Val (vars.[i <- mk_var (v_name vars.[i]) value])
  | None =>
      if zlen vars >=? MAX_VARS then Fault
      else Val (vars ++ [mk_var (take (Z.to_nat (VAR_NAME_LEN - 1)) (cstr name)) value])
  end.

(** * Expressions *)

(** 64-bit arithmetic, wrapping. *)
Definition add64 (a b : Z) : Z := s64 (a + b).
Definition sub64 (a b : Z) : Z := s64 (a - b).
Definition mul64 (a b : Z) : Z := s64 (a * b).
Definition neg64 (a : Z) : Z := s64 (- a).
Definition div64 (a b : Z) : result Z :=
  if b =? 0 then Val 0
  else if (a =? -9223372036854775808) && (b =? -1) then Fault
  else Val (Z.quot a b).

(** The digits at the head of [s] after the value [v]. *)
Fixpoint read_number (s : list Z) (v : Z) : Z * list Z :=
  match s with
  | c :: s' => if is_digit c then read_number s' (s64 (s64 (v * 10) + (c - c_0))) else (v, s)
  | [] => (v, [])
  end.

Section parse.
Context (vars : list var_t).

(** One unit of fuel per call and per turn of a loop. *)
Fixpoint parse_factor (fuel : nat) (s : list Z) {struct fuel} : result (Z * list Z) :=
  match fuel with
  | O => OutOfFuel
  | S fuel =>
      let s := skip_ws s in
      if peek s =? c_lpar then
        '(v, s) ← parse_expr fuel (tail s);
        let s := skip_ws s in
        Val (v, if peek s =? c_rpar then tail s else s)
      else if peek s =? c_minus then
        '(v, s) ← parse_factor fuel (tail s);
        Val (neg64 v, s)
      else if is_digit (peek s) then Val (read_number s 0)
      else
        let (name, s) := read_ident s in
        Val (if 0 <? zlen name then var_get vars name else 0, s)
  end
with term_loop (fuel : nat) (v : Z) (s : list Z) {struct fuel} : result (Z * list Z) :=
  match fuel with
  | O => OutOfFuel
  | S fuel =>
      if (peek s =? c_mul) || (peek s =? c_div) then
        '(rhs, s') ← parse_factor fuel (tail s);
        v ← (if peek s =? c_mul then Val (mul64 v rhs) else div64 v rhs);
        term_loop fuel v (skip_ws s')
      else Val (v, s)
  end
with parse_term (fuel : nat) (s : list Z) {struct fuel} : result (Z * list Z) :=
  match fuel with
  | O => OutOfFuel
  | S fuel =>
      '(v, s) ← parse_factor fuel s;
      term_loop fuel v (skip_ws s)
  end
with expr_loop (fuel : nat) (v : Z) (s : list Z) {struct fuel} : result (Z * list Z) :=
  match fuel with
  | O => OutOfFuel
  | S fuel =>
      if (peek s =? c_plus) || (peek s =? c_minus) then
        '(rhs, s') ← parse_term fuel (tail s);
        expr_loop fuel (if peek s =? c_plus then add64 v rhs else sub64 v rhs) (skip_ws s')
      else Val (v, s)
  end
with parse_expr (fuel : nat) (s : list Z) {struct fuel} : result (Z * list Z) :=
  match fuel with
  | O => OutOfFuel
  | S fuel =>
      '(v, s) ← parse_term fuel s;
      expr_loop fuel v (skip_ws s)
  end.

(** Every turn reads a character, and three calls lie between two parentheses. *)
Definition parse_fuel (s : list Z) : nat := (4 * List.length s + 4)%nat.

Definition parse (s : list Z) : result (Z * list Z) := parse_expr (parse_fuel s) s.
End parse.

(** * Output *)

(** The digits of [v], the last one first. *)
Fixpoint digits_rev (fuel : nat) (v : Z) : list Z :=
  match fuel with
  | O => []
  | S fuel => if v >? 0 then (c_0 + v mod 10) :: digits_rev fuel (v / 10) else []
  end.

(** A 64-bit number has at most 20 digits. *)
Definition decimal (v : Z) : list Z := if v =? 0 then [c_0] else rev (digits_rev 20 v).

Definition print_int (value : Z) : list Z :=
  let neg := value <? 0 in
  let v := if neg then u64 (neg64 value) else u64 value in
  (if neg then [c_minus] else []) ++ decimal v.

(** * One line *)

(** The variables, what has been written, and what will be typed. *)
Record state := mk_state { st_vars : list var_t; st_out : list Z; st_in : list Z }.

Definition write (st : state) (s : list Z) : state := mk_state (st_vars st) (st_out st ++ s) (st_in st).
Definition set_vars (st : state) (vars : list var_t) : state := mk_state vars (st_out st) (st_in st).

(** The comparison read, as its packed character code, and the rest. *)
Definition read_cmp_op (s : list Z) : Z * list Z :=
  let s := skip_ws s in
  let a := s.[0] in
  let b := s.[1] in
  if ((a =? c_eq) && (b =? c_eq)) || ((a =? c_bang) && (b =? c_eq)) ||
     ((a =? c_lt) && (b =? c_eq)) || ((a =? c_gt) && (b =? c_eq))
  then (Z.lor a (Z.shiftl b 8), drop 2 s)
  else if (a =? c_lt) || (a =? c_gt) then (a, tail s)
  else (0, s).

Definition op_eq : Z := Z.lor c_eq (Z.shiftl c_eq 8).
Definition op_ne : Z := Z.lor c_bang (Z.shiftl c_eq 8).
Definition op_le : Z := Z.lor c_lt (Z.shiftl c_eq 8).
Definition op_ge : Z := Z.lor c_gt (Z.shiftl c_eq 8).

Definition eval_cmp (lhs op rhs : Z) : bool :=
  if op =? op_eq then lhs =? rhs
  else if op =? op_ne then negb (lhs =? rhs)
  else if op =? op_le then lhs <=? rhs
  else if op =? op_ge then lhs >=? rhs
  else if op =? c_lt then lhs <? rhs
  else if op =? c_gt then lhs >? rhs
  else false.

(** The line typed, at most [max_len - 1] characters, with its echo; out of fuel
    when nothing more is typed, as the program waits. *)
Fixpoint read_line_stdin (inp buf out : list Z) (max_len : Z) : result (list Z * list Z * list Z) :=
  match inp with
  | [] => OutOfFuel
  | c :: inp =>
      if c =? c_nl then Val (buf, inp, out ++ [c_nl])
      else if c =? c_bs then
        if 0 <? zlen buf then read_line_stdin inp (take (List.length buf - 1) buf) (out ++ [c_bs]) max_len
        else read_line_stdin inp buf out max_len
      else if zlen buf + 1 <? max_len then read_line_stdin inp (buf ++ [c]) (out ++ [c]) max_len
      else read_line_stdin inp buf out max_len
  end.

Definition parse_line_number (s : list Z) : Z :=
  if is_digit (peek s) then (read_number s 0).1 else -1.

Fixpoint until_quote (s : list Z) : list Z :=
  match s with
  | c :: s' => if (c =? 0) || (c =? c_quote) then [] else c :: until_quote s'
  | [] => []
  end.

(** What a line does: go on, jump, or end the script. *)
Inductive next := Next | Jump (target : Z) | End.

Definition complain (st : state) (what : string) (line_no : Z) : result (state * next) :=
  Val (write st (text "syntax error (" ++ text what ++ text ") on line " ++ print_int line_no ++ [c_nl]), Next).

Definition exec_let (st : state) (s : list Z) (line_no : Z) : result (state * next) :=
  let (name, s) := read_ident (skip_ws (drop 4 s)) in
  if zlen name =? 0 then complain st "bad name" line_no
  else
    let s := skip_ws s in
    if negb (peek s =? c_eq) then complain st "expected '='" line_no
    else
      '(value, _) ← parse (st_vars st) (tail s);
      vars ← var_set (st_vars st) name value;
      Val (set_vars st vars, Next).

Definition exec_print (st : state) (s : list Z) : result (state * next) :=
  let s := skip_ws (drop 6 s) in
  if peek s =? c_quote then Val (write st (until_quote (tail s) ++ [c_nl]), Next)
  else
    '(v, _) ← parse (st_vars st) s;
    Val (write st (print_int v ++ [c_nl]), Next).

Definition exec_input (st : state) (s : list Z) (line_no : Z) : result (state * next) :=
  let (name, _) := read_ident (skip_ws (drop 6 s)) in
  if zlen name =? 0 then complain st "bad name" line_no
  else
    '(buf, inp, echo) ← read_line_stdin (st_in st) [] [] 32;
    let st := mk_state (st_vars st) (st_out st ++ text "? " ++ echo) inp in
    '(value, _) ← parse (st_vars st) (skip_ws buf);
    vars ← var_set (st_vars st) name value;
    Val (set_vars st vars, Next).

Definition branch (taken : bool) (tgt : Z) : next := if taken && (tgt >=? 1) then Jump tgt else Next.

Definition exec_if (st : state) (s : list Z) (line_no : Z) : result (state * next) :=
  '(lhs, s) ← parse (st_vars st) (drop 3 s);
  let (op, s) := read_cmp_op s in
  '(rhs, s) ← parse (st_vars st) s;
  let s := skip_ws s in
  if negb (str_starts_with s (text "goto ")) then complain st "expected 'goto'" line_no
  else Val (st, branch (eval_cmp lhs op rhs) (parse_line_number (skip_ws (drop 5 s)))).

Definition exec_line (st : state) (line : list Z) (line_no : Z) : result (state * next) :=
  let s := skip_ws line in
  if (peek s =? 0) || (peek s =? c_hash) then Val (st, Next)
  else if str_starts_with s (text "let ") then exec_let st s line_no
  else if str_starts_with s (text "print ") then exec_print st s
  else if str_starts_with s (text "input ") then exec_input st s line_no
  else if str_starts_with s (text "if ") then exec_if st s line_no
  else if str_starts_with s (text "goto ") then
    Val (st, branch true (parse_line_number (skip_ws (drop 5 s))))
  else if str_eq s (text "end") then Val (st, End)
  else complain st "unknown statement" line_no.

(** * A script *)

(** The bytes read: chunks of 512 while the buffer has room for one. *)
Definition content_size : Z := MAX_LINES * (MAX_LINE_LEN + 1).

Definition read_content (file : list Z) : list Z :=
  match for_range 0 content_size (fun _ total =>
          if total + 512 <=? content_size then
            let n := Z.min 512 (zlen file - total) in
            if n >? 0 then inl (total + n) else inr total
          else inr total) 0 with
  | inl total | inr total => take (Z.to_nat total) file
  end.

(** The lines complete so far and the one being read. *)
Definition split_lines (content : list Z) : list (list Z) :=
  let '(lines, line) :=
    for_each 0 (zlen content) (fun i '(lines, line) =>
      if zlen lines <? MAX_LINES then
        if content.[i] =? c_nl then (lines ++ [line], [])
        else if zlen line <? MAX_LINE_LEN then (lines, line ++ [content.[i]])
        else (lines, line)
      else (lines, line)) ([], []) in
  if (0 <? zlen line) && (zlen lines <? MAX_LINES) then lines ++ [line] else lines.

Definition STEP_FUEL : positive := 2000002.

(** [pc] and the steps made so far. *)
Definition run_script (lines : list (list Z)) (st : state) : result state :=
  default OutOfFuel (while_pos STEP_FUEL (fun '(st, pc, steps) =>
    if (pc >=? 0) && (pc <? zlen lines) then
      if steps + 1 >? STEP_LIMIT then
        inr (Val (write st (text "lang: step limit exceeded (possible infinite loop)" ++ [c_nl])))
      else
        match exec_line st lines.[pc] (pc + 1) with
        | Val (st, Next) => inl (st, s32 (pc + 1), steps + 1)
        | Val (st, Jump target) => inl (st, s32 (s32 target - 1), steps + 1)
        | Val (st, End) => inr (Val st)
        | Fault => inr Fault
        | OutOfFuel => inr OutOfFuel
        end
    else inr (Val st)) (st, 0, 0)).

(** The script's name: the first word of the arguments, at most 63 characters. *)
Definition script_name (arg : list Z) (argv_len : Z) : list Z :=
  match for_range 0 (Z.min argv_len 63) (fun i name =>
          if (arg.[i] =? 0) || (arg.[i] =? c_space) then inr name else inl (name ++ [arg.[i]])) [] with
  | inl name | inr name => name
  end.

(** The exit status and all that happened; [open] gives a file's bytes. *)
Definition start (arg : list Z) (argv_len : Z) (open : list Z -> option (list Z)) (inp : list Z) :
    result (Z * state) :=
  let st := mk_state [] [] inp in
  let filename := script_name arg argv_len in
  if zlen filename =? 0 then Val (1, write st (text "usage: lang <script filename>" ++ [c_nl]))
  else
    match open filename with
    | None => Val (1, write st (text "lang: no such file: " ++ filename ++ [c_nl]))
    | Some file =>
        st ← run_script (split_lines (read_content file)) st;
        Val (0, st)
    end.
