(* ===== verification/LangSpec.v ===== *)
(** What the script language promises: expressions have their usual meaning, a
    script runs as its statements say, and every script comes to an end. *)
From S2P Require Import Prelude CString Lang.
From Stdlib Require Import String.

Open Scope Z_scope.
Open Scope list_scope.

(** * The parser returns *)

Section total.
Context (vars : list var_t).
Implicit Types (s : list Z) (v : Z) (n : nat).

Lemma skip_ws_length s : (List.length (skip_ws s) <= List.length s)%nat.
Proof. induction s as [|c s IH]; [done|]. simpl. destruct (_ || _); simpl; lia. Qed.

Lemma skip_ws_idem s : skip_ws (skip_ws s) = skip_ws s.
Proof. induction s as [|c s IH]; [done|]. simpl. destruct (_ || _) eqn:E; [done|]. simpl. by rewrite E. Qed.

Lemma read_number_length s v : (List.length (read_number s v).2 <= List.length s)%nat.
Proof.
  revert v. induction s as [|c s IH]; intros v; [done|]. simpl. destruct (is_digit c); [|done].
  specialize (IH (s64 (s64 (v * 10) + (c - c_0)))). lia.
Qed.

Lemma read_ident_length s out : (List.length (read_ident_from s out).2 <= List.length s)%nat.
Proof.
  revert out. induction s as [|c s IH]; intros out; [done|]. simpl. destruct (is_ident_char c); [|done].
  specialize (IH (if zlen out <? VAR_NAME_LEN - 1 then out ++ [c] else out)). lia.
Qed.

Lemma peek_cons s c : c <> 0 -> peek s = c -> s = c :: tail s.
Proof. unfold peek. destruct s as [|x s]; [intros H1 H2; by destruct H1|]. by intros _ <-. Qed.

(** What is left of [s], if anything went on. *)
Definition left_of s (r : result (Z * list Z)) : Prop :=
  match r with
  | Val (_, s') => (List.length s' <= List.length s)%nat
  | Fault => True
  | OutOfFuel => False
  end.

Lemma left_of_bind s s1 r (f : Z -> list Z -> result (Z * list Z)) :
  left_of s1 r -> (forall v s2, (List.length s2 <= List.length s1)%nat -> left_of s (f v s2)) ->
  left_of s ('(v, s2) ← r; f v s2).
Proof. destruct r as [[v s2]| |]; simpl; try done. intros H Hf. by apply Hf. Qed.

Lemma left_of_weaken s s1 r : left_of s1 r -> (List.length s1 <= List.length s)%nat -> left_of s r.
Proof. destruct r as [[v s2]| |]; simpl; [lia|done..]. Qed.

Lemma peek_tail s c : c <> 0 -> peek s = c -> (List.length (tail s) < List.length s)%nat.
Proof. intros Hc Hp. rewrite (peek_cons s c Hc Hp) at 2. simpl. lia. Qed.

Lemma div64_returns a b : div64 a b <> OutOfFuel.
Proof. unfold div64. destruct (b =? 0); [done|]. by destruct (_ && _). Qed.

Lemma parse_returns n :
  (forall s, (4 * List.length s + 1 <= n)%nat -> left_of s (parse_factor vars n s)) /\
  (forall v s, (4 * List.length s + 1 <= n)%nat -> left_of s (term_loop vars n v s)) /\
  (forall s, (4 * List.length s + 2 <= n)%nat -> left_of s (parse_term vars n s)) /\
  (forall v s, (4 * List.length s + 1 <= n)%nat -> left_of s (expr_loop vars n v s)) /\
  (forall s, (4 * List.length s + 3 <= n)%nat -> left_of s (parse_expr vars n s)).
Proof.
  induction n as [|n (IF & ITL & IT & IEL & IE)]; [split_and!; intros; lia|]. split_and!.
  - intros s Hn. cbn [parse_factor]. pose proof (skip_ws_length s) as Hs. set (s1 := skip_ws s) in *.
    destruct (peek s1 =? c_lpar) eqn:E1; bool_prop.
    { pose proof (peek_tail s1 c_lpar ltac:(done) E1). apply (left_of_bind s (tail s1)); [apply IE; lia|].
      intros v s2 H2. pose proof (skip_ws_length s2). cbn [left_of]. destruct (_ =? _); [|lia].
      destruct (skip_ws s2); simpl in *; lia. }
    destruct (peek s1 =? c_minus) eqn:E2; bool_prop.
    { pose proof (peek_tail s1 c_minus ltac:(done) E2). apply (left_of_bind s (tail s1)); [apply IF; lia|].
      intros v s2 H2. cbn [left_of]. lia. }
    destruct (is_digit _).
    { pose proof (read_number_length s1 0). destruct (read_number s1 0). cbn [left_of snd] in *. lia. }
    pose proof (read_ident_length s1 []). unfold read_ident. destruct (read_ident_from s1 []). cbn [left_of snd] in *. lia.
  - intros v s Hn. cbn [term_loop]. destruct (_ || _) eqn:E1; [|cbn; lia].
    assert (Ht : (List.length (tail s) < List.length s)%nat).
    { apply orb_prop in E1 as [E1|E1]; bool_prop; by (eapply peek_tail; [|exact E1]). }
    apply (left_of_bind s (tail s)); [apply IF; lia|]. intros rhs s2 H2.
    pose proof (skip_ws_length s2). destruct (peek s =? c_mul).
    + cbn [mbind result_bind]. apply (left_of_weaken s (skip_ws s2)); [apply ITL; lia|lia].
    + pose proof (div64_returns v rhs). destruct (div64 v rhs) as [q| |]; cbn [mbind result_bind]; [|done..].
      apply (left_of_weaken s (skip_ws s2)); [apply ITL; lia|lia].
  - intros s Hn. cbn [parse_term]. apply (left_of_bind s s); [apply IF; lia|]. intros v s2 H2.
    pose proof (skip_ws_length s2). apply (left_of_weaken s (skip_ws s2)); [apply ITL; lia|lia].
  - intros v s Hn. cbn [expr_loop]. destruct (_ || _) eqn:E1; [|cbn; lia].
    assert (Ht : (List.length (tail s) < List.length s)%nat).
    { apply orb_prop in E1 as [E1|E1]; bool_prop; by (eapply peek_tail; [|exact E1]). }
    apply (left_of_bind s (tail s)); [apply IT; lia|]. intros rhs s2 H2. pose proof (skip_ws_length s2).
    apply (left_of_weaken s (skip_ws s2)); [apply IEL; lia|lia].
  - intros s Hn. cbn [parse_expr]. apply (left_of_bind s s); [apply IT; lia|]. intros v s2 H2.
    pose proof (skip_ws_length s2). apply (left_of_weaken s (skip_ws s2)); [apply IEL; lia|lia].
Qed.

Lemma parse_total s : left_of s (parse vars s).
Proof. apply parse_returns. unfold parse_fuel. lia. Qed.
End total.

(** * Expressions *)

Inductive bop := Add | Sub | Mul | Div.

Inductive expr :=
  | Num (n : Z)
  | Var (x : list Z)
  | Neg (e : expr)
  | Bin (o : bop) (a b : expr).

Definition op_char (o : bop) : Z :=
  match o with Add => c_plus | Sub => c_minus | Mul => c_mul | Div => c_div end.

(** Wrapping 64-bit arithmetic; a quotient rounds to 0, is 0 for the divisor 0,
    and faults when it is not a 64-bit integer. *)
Definition apply_op (o : bop) (a b : Z) : result Z :=
  match o with
  | Add => Val (s64 (a + b))
  | Sub => Val (s64 (a - b))
  | Mul => Val (s64 (a * b))
  | Div =>
      if decide (b = 0) then Val 0
      else if decide (Z.quot a b < 9223372036854775808) then Val (Z.quot a b) else Fault
  end.

(** A name counts up to its 15th character; an unknown variable is 0. *)
Definition short (x : list Z) : list Z := take (Z.to_nat (VAR_NAME_LEN - 1)) x.

Fixpoint eval (env : gmap (list Z) Z) (e : expr) : result Z :=
  match e with
  | Num n => Val (s64 n)
  | Var x => Val (default 0 (env !! short x))
  | Neg a => v ← eval env a; Val (s64 (- v))
  | Bin o a b => v ← eval env a; w ← eval env b; apply_op o v w
  end.

Definition blanks (sp : list Z) : Prop := Forall (fun c => c = c_space \/ c = c_tab) sp.
Definition digits (ds : list Z) : Prop := ds <> [] /\ Forall (fun c => is_digit c = true) ds.
Definition ident (x : list Z) : Prop := x <> [] /\ Forall (fun c => is_ident_char c = true) x.

(** The number a list of digits spells. *)
Definition spelled (ds : list Z) : Z := foldl (fun v c => v * 10 + (c - c_0)) 0 ds.

(** How tightly an expression binds. *)
Inductive level := LFactor | LTerm | LExpr.

Definition op_level (o : bop) : level := match o with Add | Sub => LExpr | Mul | Div => LTerm end.
Definition tighter (l : level) : level := match l with LExpr => LTerm | _ => LFactor end.

(** The grammar, with blanks before any token; operators of one level group to
    the left. *)
Inductive syntax : level -> expr -> list Z -> Prop :=
  | syn_num sp ds : blanks sp -> digits ds -> syntax LFactor (Num (spelled ds)) (sp ++ ds)
  | syn_var sp x :
      blanks sp -> ident x -> is_digit (peek x) = false -> syntax LFactor (Var x) (sp ++ x)
  | syn_neg sp e s : blanks sp -> syntax LFactor e s -> syntax LFactor (Neg e) (sp ++ c_minus :: s)
  | syn_paren sp sp' e s :
      blanks sp -> blanks sp' -> syntax LExpr e s ->
      syntax LFactor e (sp ++ c_lpar :: s ++ sp' ++ [c_rpar])
  | syn_op o a b sp s t :
      blanks sp -> syntax (op_level o) a s -> syntax (tighter (op_level o)) b t ->
      syntax (op_level o) (Bin o a b) (s ++ sp ++ op_char o :: t)
  | syn_up l e s : syntax (tighter l) e s -> syntax l e s.

(** ** Names *)

Definition i64 (v : Z) : Prop := -9223372036854775808 <= v < 9223372036854775808.

Definition named (v : var_t) : list Z * Z := (v_name v, v_value v).
Definition env_of (vars : list var_t) : gmap (list Z) Z := list_to_map (named <$> vars).

Record vars_ok (vars : list var_t) : Prop := {
  vo_count : zlen vars <= MAX_VARS;
  vo_names : Forall (fun v => ident (v_name v) /\ zlen (v_name v) < VAR_NAME_LEN) vars;
  vo_nodup : NoDup (v_name <$> vars);
  vo_values : Forall (fun v => i64 (v_value v)) vars;
}.

Lemma ident_nonul x : Forall (fun c => is_ident_char c = true) x -> Forall (fun c => c <> 0) x.
Proof. apply Forall_impl. intros c Hc ->. done. Qed.

Lemma ident_cstr x : Forall (fun c => is_ident_char c = true) x -> cstr x = x.
Proof. intros H. by apply cstr_nonul, ident_nonul. Qed.

Lemma ident_short x : ident x -> ident (short x).
Proof.
  intros [Hn Hf]. split; [destruct x; [done|intros H; by simpl in H]|]. by apply Forall_take.
Qed.

(** The reader takes the whole name and keeps the start of it. *)
Lemma read_ident_from_app x out s :
  Forall (fun c => is_ident_char c = true) x -> is_ident_char (peek s) = false -> zlen out < VAR_NAME_LEN ->
  read_ident_from (x ++ s) out = (out ++ take (Z.to_nat (VAR_NAME_LEN - 1 - zlen out)) x, s).
Proof.
  intros Hx Hs. revert out. induction Hx as [|c x Hc Hx IH]; intros out Ho.
  - rewrite take_nil, app_nil_r. destruct s as [|c s]; [done|]. simpl. unfold peek in Hs. simpl in Hs. by rewrite Hs.
  - simpl. rewrite Hc. case_match; bool_prop.
    + rewrite IH by (unfold zlen in *; rewrite length_app; simpl; lia).
      replace (Z.to_nat (VAR_NAME_LEN - 1 - zlen out)) with (S (Z.to_nat (VAR_NAME_LEN - 1 - zlen (out ++ [c]))))
        by (unfold zlen in *; rewrite length_app; simpl; lia).
      simpl. by rewrite <- app_assoc.
    + rewrite IH by done. by replace (Z.to_nat (VAR_NAME_LEN - 1 - zlen out)) with O by lia.
Qed.

Lemma read_ident_app x s :
  Forall (fun c => is_ident_char c = true) x -> is_ident_char (peek s) = false ->
  read_ident (x ++ s) = (short x, s).
Proof. intros. by apply (read_ident_from_app x []). Qed.

(** Wrapping at each digit is wrapping once. *)
Lemma s64_exists x : exists k, s64 x = x + k * 18446744073709551616.
Proof.
  exists (- ((x + 9223372036854775808) / 18446744073709551616)). unfold s64. div_lia.
Qed.

Lemma s64_shift x k : s64 (x + k * 18446744073709551616) = s64 x.
Proof.
  unfold s64. rewrite <- (Z_mod_plus_full (x + 9223372036854775808) k 18446744073709551616). do 2 f_equal. lia.
Qed.

Lemma s64_digit v d : s64 (s64 (s64 v * 10) + d) = s64 (v * 10 + d).
Proof.
  destruct (s64_exists v) as [k Hk]. destruct (s64_exists (s64 v * 10)) as [j Hj].
  rewrite <- (s64_shift (v * 10 + d) (k * 10 + j)). f_equal. lia.
Qed.

Lemma read_number_app ds v s :
  Forall (fun c => is_digit c = true) ds -> is_digit (peek s) = false ->
  read_number (ds ++ s) (s64 v) = (s64 (foldl (fun v c => v * 10 + (c - c_0)) v ds), s).
Proof.
  intros Hd Hs. revert v. induction Hd as [|c ds Hc Hd IH]; intros v.
  - destruct s as [|c s]; [done|]. simpl. unfold peek in Hs. simpl in Hs. by rewrite Hs.
  - simpl. rewrite Hc, s64_digit. apply IH.
Qed.

Lemma read_number_spelled ds s :
  digits ds -> is_digit (peek s) = false -> read_number (ds ++ s) 0 = (s64 (spelled ds), s).
Proof. intros [_ Hd]. exact (read_number_app ds 0 s Hd). Qed.

Lemma skip_ws_blanks sp s : blanks sp -> skip_ws (sp ++ s) = skip_ws s.
Proof. induction 1 as [|c sp Hc _ IH]; [done|]. simpl. by destruct Hc as [-> | ->]. Qed.

Lemma skip_ws_cons c s : c <> c_space -> c <> c_tab -> skip_ws (c :: s) = c :: s.
Proof.
  intros H1 H2. simpl. by replace (c =? c_space) with false by lia; replace (c =? c_tab) with false by lia.
Qed.

(** ** What is read of a variable *)

Lemma var_find_spec vars name :
  vars_ok vars -> ident name ->
  match var_find vars name with
  | Some i => 0 <= i < zlen vars /\ v_name vars.[i] = name /\ env_of vars !! name = Some (v_value vars.[i])
  | None => env_of vars !! name = None
  end.
Proof.
  intros Hok [_ Hn]. unfold var_find.
  assert (Hname : forall i, 0 <= i < zlen vars -> str_eq (v_name vars.[i]) name = true <-> v_name vars.[i] = name).
  { intros i Hi. rewrite str_eq_cstr, (ident_cstr name Hn).
    pose proof (vo_names _ Hok) as Hf. rewrite Forall_elem in Hf.
    specialize (Hf vars.[i] (list_elem_of_lookup_2 _ _ _ (aget_lookup vars i Hi))).
    by rewrite ident_cstr by apply Hf. }
  assert (Hdup : NoDup (named <$> vars).*1).
  { replace ((named <$> vars).*1) with (v_name <$> vars) by (rewrite <- list_fmap_compose; done).
    apply Hok. }
  pose proof (find_first_spec 0 (zlen vars) (fun i => str_eq (v_name vars.[i]) name)) as Hf.
  destruct (find_first _ _ _) as [i|].
  - destruct Hf as (Hi & He & _). apply Hname in He; [|done]. split_and!; [lia|lia|done|].
    apply elem_of_list_to_map_1; [done|]. rewrite <- He. change (v_name vars.[i], v_value vars.[i]) with (named vars.[i]).
    apply list_elem_of_fmap_2. exact (list_elem_of_lookup_2 _ _ _ (aget_lookup vars i Hi)).
  - apply not_elem_of_list_to_map_1. intros Hin. apply list_elem_of_fmap in Hin as ([x z] & -> & Hin).
    apply list_elem_of_fmap in Hin as (v & Hv & Hin). apply list_elem_of_lookup in Hin as [k Hk].
    pose proof (lookup_lt_Some _ _ _ Hk) as Hlt. apply lookup_aget in Hk.
    specialize (Hf (Z.of_nat k) ltac:(unfold zlen; lia)). rewrite Hk in Hf. unfold named in Hv.
    injection Hv as -> ->. simpl in Hf. specialize (Hname (Z.of_nat k) ltac:(unfold zlen; lia)).
    rewrite Hk in Hname. simpl in Hname. destruct Hname as [_ Hname]. rewrite Hname in Hf; done.
Qed.

Lemma var_get_env vars name :
  vars_ok vars -> ident name -> var_get vars name = default 0 (env_of vars !! name).
Proof.
  intros Hok Hn. pose proof (var_find_spec vars name Hok Hn) as H. unfold var_get.
  destruct (var_find vars name) as [i|]; [destruct H as (_ & _ & ->); done|by rewrite H].
Qed.

(** ** The parser computes the value

    [yields f r]: with enough fuel, [f] gives [r]. *)

Definition yields {A} (f : nat -> result A) (r : result A) : Prop :=
  exists n, forall m, (n <= m)%nat -> f m = r.

Lemma yields_here {A} (f : nat -> result A) r : (forall n, f (S n) = r) -> yields f r.
Proof. intros H. exists 1%nat. intros [|m] Hm; [lia|]. apply H. Qed.

Lemma yields_S {A} (f g : nat -> result A) r : (forall n, f (S n) = g n) -> yields g r -> yields f r.
Proof.
  intros Hfg [n Hn]. exists (S n). intros [|m] Hm; [lia|]. rewrite Hfg. apply Hn. lia.
Qed.

(** A computation whose first part gives [r1] and whose second part follows it. *)
Lemma yields_bind {A B} (f : nat -> result A) (g : nat -> A -> result B) r1 r :
  yields f r1 ->
  match r1 with
  | Val a => yields (fun n => g n a) r
  | Fault => r = Fault
  | OutOfFuel => r = OutOfFuel
  end -> yields (fun n => f n ≫= g n) r.
Proof.
  intros [n Hn] H. destruct r1 as [a| |].
  - destruct H as [k Hk]. exists (n + k)%nat. intros m Hm. rewrite Hn by lia. apply Hk. lia.
  - subst. exists n. intros m Hm. by rewrite Hn.
  - subst. exists n. intros m Hm. by rewrite Hn.
Qed.

(** A result stays with more fuel. *)
Definition settles {A} (r r' : result A) : Prop := r <> OutOfFuel -> r' = r.

Lemma settles_bind {A B} (r r' : result A) (f f' : A -> result B) :
  settles r r' -> (forall a, settles (f a) (f' a)) -> settles (r ≫= f) (r' ≫= f').
Proof.
  intros Hr Hf Hn. destruct r as [a| |]; simpl in *; [rewrite (Hr ltac:(done)); by apply Hf|by rewrite Hr|done].
Qed.

(** Every value is a 64-bit integer. *)
Lemma env_i64 vars : vars_ok vars -> map_Forall (fun _ v => i64 v) (env_of vars).
Proof.
  intros Hok x v Hx. apply elem_of_list_to_map_2, list_elem_of_fmap in Hx as ([y z] & [= -> ->] & Hin).
  pose proof (vo_values _ Hok) as Hf. rewrite Forall_elem in Hf. exact (Hf _ Hin).
Qed.

Lemma quot_i64 a b : i64 a -> Z.quot a b < 9223372036854775808 -> i64 (Z.quot a b).
Proof.
  unfold i64. intros Ha Hq. split; [|done]. destruct (decide (b = 0)) as [-> |Hb]; [rewrite Z.quot_0_r_ext; lia|].
  pose proof (Z.quot_abs a b Hb). assert (Z.abs a ÷ Z.abs b <= Z.abs a ÷ 1) by (apply Z.quot_le_compat_l; lia).
  rewrite Z.quot_1_r in *. lia.
Qed.

Lemma eval_i64 env e v : map_Forall (fun _ v => i64 v) env -> eval env e = Val v -> i64 v.
Proof.
  intros He. revert v. induction e as [n|x|e IH|o a IHa b IHb]; intros v; cbn [eval].
  - intros [= <-]. apply s64_bounds.
  - intros [= <-]. destruct (env !! short x) eqn:E; [exact (He _ _ E)|done].
  - destruct (eval env e); try discriminate. intros [= <-]. apply s64_bounds.
  - destruct (eval env a) as [y| |]; try discriminate. destruct (eval env b) as [z| |]; try discriminate.
    cbn [mbind result_bind]. destruct o; cbn [apply_op]; [intros [= <-]; apply s64_bounds..|].
    case_decide; [by intros [= <-]|]. case_decide; [|discriminate]. intros [= <-]. by apply quot_i64; [apply IHa|].
Qed.

Section correct.
Context (vars : list var_t).
Implicit Types (s rest : list Z) (v : Z).

Lemma parse_settles n m :
  (n <= m)%nat ->
  (forall s, settles (parse_factor vars n s) (parse_factor vars m s)) /\
  (forall v s, settles (term_loop vars n v s) (term_loop vars m v s)) /\
  (forall s, settles (parse_term vars n s) (parse_term vars m s)) /\
  (forall v s, settles (expr_loop vars n v s) (expr_loop vars m v s)) /\
  (forall s, settles (parse_expr vars n s) (parse_expr vars m s)).
Proof.
  revert m. induction n as [|n IH]; intros m Hm; [split_and!; intros; intros H; by destruct H|].
  destruct m as [|m]; [lia|]. destruct (IH m ltac:(lia)) as (IF & ITL & IT & IEL & IE).
  split_and!; intros; cbn [parse_factor term_loop parse_term expr_loop parse_expr].
  - repeat case_match; try done; apply settles_bind; try done; intros []; done.
  - case_match; [|done]. apply settles_bind; [done|]. intros [rhs s']. apply settles_bind; [done|]. intros w. apply ITL.
  - apply settles_bind; [done|]. intros [w s']. apply ITL.
  - case_match; [|done]. apply settles_bind; [done|]. intros [rhs s']. apply IEL.
  - apply settles_bind; [done|]. intros [w s']. apply IEL.
Qed.

(** The fuel of [parse] is enough. *)
Lemma parse_yields s r : yields (fun n => parse_expr vars n s) r -> parse vars s = r.
Proof.
  intros [n Hn]. pose proof (parse_total vars s) as Ht.
  rewrite <- (Hn (Nat.max n (parse_fuel s))) by lia. symmetry.
  apply (parse_settles (parse_fuel s)); [lia|]. unfold parse in Ht. intros E. by rewrite E in Ht.
Qed.

(** [rest] neither goes on with a token nor, for an operand of [l], with an
    operator that binds tighter. *)
Definition apart rest : Prop := is_ident_char (peek rest) = false.

Definition follows (l : level) rest : Prop :=
  let c := peek (skip_ws rest) in
  apart rest /\ (l <> LFactor -> c <> c_mul /\ c <> c_div) /\ (l = LExpr -> c <> c_plus /\ c <> c_minus).

(** What parsing at level [l] does on [s] followed by [rest]. *)
Definition parses (l : level) (e : expr) s : Prop :=
  match l with
  | LFactor => forall rest, apart rest ->
      yields (fun n => parse_factor vars n (s ++ rest)) (v ← eval (env_of vars) e; Val (v, rest))
  | LTerm => forall rest r, apart rest ->
      match eval (env_of vars) e with
      | Val v => yields (fun n => term_loop vars n v (skip_ws rest)) r
      | r1 => r = r1 ≫= fun v => Val (v, rest)
      end -> yields (fun n => parse_term vars n (s ++ rest)) r
  | LExpr => forall rest r, follows LTerm rest ->
      match eval (env_of vars) e with
      | Val v => yields (fun n => expr_loop vars n v (skip_ws rest)) r
      | r1 => r = r1 ≫= fun v => Val (v, rest)
      end -> yields (fun n => parse_expr vars n (s ++ rest)) r
  end.

Lemma digit_ident c : is_digit c = true -> is_ident_char c = true.
Proof. intros H. unfold is_ident_char. rewrite H. by rewrite orb_true_r. Qed.

Lemma apart_digit rest : apart rest -> is_digit (peek rest) = false.
Proof. unfold apart. intros H. destruct (is_digit (peek rest)) eqn:E; [by rewrite digit_ident in H|done]. Qed.

Lemma ident_range c : is_ident_char c = true -> 48 <= c <= 122.
Proof.
  unfold is_ident_char, is_digit, c_0. intros H.
  repeat (apply orb_prop in H as [H|H]; [|bool_prop; lia]). bool_prop. lia.
Qed.

Lemma apart_small c s : c < 48 -> apart (c :: s).
Proof. intros Hc. unfold apart. destruct (is_ident_char _) eqn:E; [|done]. apply ident_range in E. change (peek (c :: s)) with c in E. lia. Qed.

Lemma apart_blanks sp s : blanks sp -> apart s -> apart (sp ++ s).
Proof. intros [|c sp' Hc _] Hs; [done|]. simpl. apply apart_small. by destruct Hc as [-> | ->]. Qed.

Lemma parse_factor_blanks n sp s : blanks sp -> parse_factor vars n (sp ++ s) = parse_factor vars n s.
Proof. intros H. destruct n as [|n]; [done|]. cbn [parse_factor]. by rewrite (skip_ws_blanks sp s H). Qed.

Lemma op_char_small o : op_char o < 48.
Proof. by destruct o. Qed.

Lemma parse_factor_skips n sp c s :
  blanks sp -> c <> c_space -> c <> c_tab -> 
  parse_factor vars (S n) (sp ++ c :: s) =
    if c =? c_lpar then
      '(v, s) ← parse_expr vars n s;
      let s := skip_ws s in
      Val (v, if peek s =? c_rpar then tail s else s)
    else if c =? c_minus then
      '(v, s) ← parse_factor vars n s;
      Val (neg64 v, s)
    else if is_digit c then Val (read_number (c :: s) 0)
    else
      let (name, s) := read_ident (c :: s) in
      Val (if 0 <? zlen name then var_get vars name else 0, s).
Proof. intros Hsp H1 H2. cbn [parse_factor]. by rewrite (skip_ws_blanks sp _ Hsp), (skip_ws_cons c s H1 H2). Qed.

Lemma parses_num sp ds : blanks sp -> digits ds -> parses LFactor (Num (spelled ds)) (sp ++ ds).
Proof.
  intros Hsp Hd rest Hr. apply yields_here. intros n. rewrite <- app_assoc.
  pose proof (read_number_spelled ds rest Hd (apart_digit rest Hr)) as Hrd.
  destruct Hd as [Hne Hd]. destruct Hd as [|c ds Hc Hd]; [done|]. cbn [app] in *.
  pose proof (ident_range c (digit_ident c Hc)). rewrite parse_factor_skips; [|done|unfold c_space; lia|unfold c_tab; lia].
  replace (c =? c_lpar) with false by (unfold c_lpar; lia). replace (c =? c_minus) with false by (unfold c_minus; lia).
  by rewrite Hc, Hrd.
Qed.

Lemma parses_var sp x :
  vars_ok vars -> blanks sp -> ident x -> is_digit (peek x) = false -> parses LFactor (Var x) (sp ++ x).
Proof.
  intros Hok Hsp Hx Hd rest Hr. apply yields_here. intros n. rewrite <- app_assoc.
  pose proof (ident_short x Hx) as Hsh. destruct Hx as [Hne Hx].
  pose proof (read_ident_app x rest Hx Hr) as Hrd.
  destruct Hx as [|c x Hc Hx]; [done|]. cbn [app] in *. unfold peek in Hd. simpl in Hd.
  pose proof (ident_range c Hc). rewrite parse_factor_skips; [|done|unfold c_space; lia|unfold c_tab; lia].
  replace (c =? c_lpar) with false by (unfold c_lpar; lia). replace (c =? c_minus) with false by (unfold c_minus; lia).
  rewrite Hd, Hrd, var_get_env by done. by replace (0 <? zlen (short (c :: x))) with true.
Qed.

Lemma parses_neg sp e s : blanks sp -> parses LFactor e s -> parses LFactor (Neg e) (sp ++ c_minus :: s).
Proof.
  intros Hsp IH rest Hr. rewrite <- app_assoc. eapply yields_S.
  { intros n. cbn [app]. rewrite parse_factor_skips by done. cbn. reflexivity. }
  eapply yields_bind; [by apply IH|]. cbn [eval].
  destruct (eval _ e) as [v| |]; cbn [mbind result_bind]; [by apply yields_here|done..].
Qed.

Lemma parses_paren sp sp' e s :
  blanks sp -> blanks sp' -> parses LExpr e s -> parses LFactor e (sp ++ c_lpar :: s ++ sp' ++ [c_rpar]).
Proof.
  intros Hsp Hsp' IH rest Hr. rewrite <- !app_assoc. cbn [app]. rewrite <- !app_assoc. cbn [app].
  eapply yields_S.
  { intros n. rewrite parse_factor_skips by done. cbn. reflexivity. }
  assert (Hsk : skip_ws (sp' ++ c_rpar :: rest) = c_rpar :: rest) by by rewrite skip_ws_blanks, skip_ws_cons.
  eapply (yields_bind _ _ (v ← eval (env_of vars) e; Val (v, c_rpar :: rest))).
  - apply IH.
    + split_and!; [apply apart_blanks; [done|by apply apart_small]|rewrite Hsk; done..].
    + destruct (eval _ e) as [v| |]; cbn [mbind result_bind]; [|done..]. rewrite Hsk. by apply yields_here.
  - destruct (eval _ e) as [v| |]; cbn [mbind result_bind]; [|done..].
    exists O. intros m _. by rewrite skip_ws_cons.
Qed.

(** The division is the one meant, on 64-bit integers. *)
Lemma quot_small a b :
  -9223372036854775808 <= a < 9223372036854775808 -> b <> 0 ->
  Z.quot a b < 9223372036854775808 <-> ~ (a = -9223372036854775808 /\ b = -1).
Proof.
  intros Ha Hb. destruct (decide (b = -1)) as [-> |Hb1].
  - change (-1) with (- (1)). rewrite Z.quot_opp_r, Z.quot_1_r by done. lia.
  - destruct (decide (b = 1)) as [-> |]; [rewrite Z.quot_1_r; lia|].
    split; [lia|]. intros _. pose proof (Z.quot_abs a b Hb) as Hq.
    assert (Z.abs a ÷ Z.abs b <= Z.abs a ÷ 2) by (apply Z.quot_le_compat_l; lia).
    assert (Z.abs a ÷ 2 <= 4611686018427387904) by (rewrite Z.quot_div_nonneg by lia; apply Z.div_le_upper_bound; lia). lia.
Qed.

Lemma apply_div a b :
  -9223372036854775808 <= a < 9223372036854775808 -> apply_op Div a b = div64 a b.
Proof.
  intros Ha. unfold apply_op, div64. case_decide as Hb; [subst; done|]. replace (b =? 0) with false by lia.
  pose proof (quot_small a b Ha Hb). case_decide; [|].
  - destruct (_ && _) eqn:E; [bool_prop; lia|done].
  - replace (a =? -9223372036854775808) with true by lia. by replace (b =? -1) with true by lia.
Qed.

(** One turn of each loop. *)
Lemma term_loop_turn o n v s :
  op_level o = LTerm -> i64 v ->
  term_loop vars (S n) v (op_char o :: s) =
    '(w, s') ← parse_factor vars n s; u ← apply_op o v w; term_loop vars n u (skip_ws s').
Proof.
  intros Ho Hv. destruct o; try done. cbn -[apply_op div64]. destruct (parse_factor vars n s) as [[w s']| |]; [|done..].
  cbn [mbind result_bind]. by rewrite (apply_div v w Hv).
Qed.

Lemma expr_loop_turn o n v s :
  op_level o = LExpr -> i64 v ->
  expr_loop vars (S n) v (op_char o :: s) =
    '(w, s') ← parse_term vars n s; u ← apply_op o v w; expr_loop vars n u (skip_ws s').
Proof. by destruct o. Qed.

Lemma skip_ws_op o sp s : blanks sp -> skip_ws (sp ++ op_char o :: s) = op_char o :: s.
Proof. intros H. rewrite (skip_ws_blanks sp _ H). apply skip_ws_cons; by destruct o. Qed.

Lemma apart_op o sp s : blanks sp -> apart (sp ++ op_char o :: s).
Proof. intros H. by apply apart_blanks, apart_small, op_char_small. Qed.

Lemma term_loop_ends v rest : follows LTerm rest ->
  yields (fun n => term_loop vars n v (skip_ws rest)) (Val (v, skip_ws rest)).
Proof.
  intros (_ & Hm & _). destruct (Hm ltac:(done)) as [H1 H2]. apply yields_here. intros n. cbn [term_loop].
  replace (_ =? c_mul) with false by lia. by replace (_ =? c_div) with false by lia.
Qed.

Lemma expr_loop_ends v rest : follows LExpr rest ->
  yields (fun n => expr_loop vars n v (skip_ws rest)) (Val (v, skip_ws rest)).
Proof.
  intros (_ & _ & Hm). destruct (Hm ltac:(done)) as [H1 H2]. apply yields_here. intros n. cbn [expr_loop].
  replace (_ =? c_plus) with false by lia. by replace (_ =? c_minus) with false by lia.
Qed.

(** An operator between its operands, at its own level. *)
Lemma parses_term_op o a b sp s t :
  vars_ok vars -> op_level o = LTerm -> blanks sp -> parses LTerm a s -> parses LFactor b t ->
  parses LTerm (Bin o a b) (s ++ sp ++ op_char o :: t).
Proof.
  intros Hok Ho Hsp IHa IHb rest r Hr H. pose proof (fun v => eval_i64 _ a v (env_i64 vars Hok)) as Hi. rewrite <- !app_assoc. cbn [app]. apply IHa; [by apply apart_op|].
  cbn [eval] in H. destruct (eval _ a) as [v| |]; cbn [mbind result_bind] in H |- *; [|done..].
  rewrite (skip_ws_op o sp _ Hsp). eapply yields_S; [intros n; apply term_loop_turn; auto|].
  eapply yields_bind; [by apply IHb|]. destruct (eval _ b) as [w| |]; cbn [mbind result_bind] in H |- *; [|done..].
  destruct (apply_op o v w) as [u| |]; cbn [mbind result_bind]; [done|subst; by exists O..].
Qed.

Lemma parses_expr_op o a b sp s t :
  vars_ok vars -> op_level o = LExpr -> blanks sp -> parses LExpr a s -> parses LTerm b t ->
  parses LExpr (Bin o a b) (s ++ sp ++ op_char o :: t).
Proof.
  intros Hok Ho Hsp IHa IHb rest r Hr H. pose proof (fun v => eval_i64 _ a v (env_i64 vars Hok)) as Hi. rewrite <- !app_assoc. cbn [app]. apply IHa.
  { split_and!; [by apply apart_op|rewrite (skip_ws_op o sp _ Hsp); by destruct o|done]. }
  cbn [eval] in H. destruct (eval _ a) as [v| |]; cbn [mbind result_bind] in H |- *; [|done..].
  rewrite (skip_ws_op o sp _ Hsp). eapply yields_S; [intros n; apply expr_loop_turn; auto|].
  eapply (yields_bind _ _ (w ← eval (env_of vars) b; Val (w, skip_ws rest))).
  { apply IHb; [apply Hr|]. destruct (eval _ b) as [w| |]; cbn [mbind result_bind]; [by apply term_loop_ends|done..]. }
  destruct (eval _ b) as [w| |]; cbn [mbind result_bind] in H |- *; [|done..]. rewrite skip_ws_idem.
  destruct (apply_op o v w) as [u| |]; cbn [mbind result_bind]; [done|subst; by exists O..].
Qed.

Lemma parses_up l e s : parses (tighter l) e s -> parses l e s.
Proof.
  intros IH. destruct l; cbn [tighter] in IH; [done| |].
  - intros rest r Hr H. eapply yields_S; [intros n; cbn [parse_term]; reflexivity|].
    eapply yields_bind; [by apply IH|]. by destruct (eval _ e).
  - intros rest r Hr H. eapply yields_S; [intros n; cbn [parse_expr]; reflexivity|].
    eapply (yields_bind _ _ (w ← eval (env_of vars) e; Val (w, skip_ws rest))).
    { apply IH; [apply Hr|]. destruct (eval _ e) as [w| |]; cbn [mbind result_bind]; [by apply term_loop_ends|done..]. }
    destruct (eval _ e); cbn [mbind result_bind]; [by rewrite skip_ws_idem|done..].
Qed.

Lemma parses_syntax l e s : vars_ok vars -> syntax l e s -> parses l e s.
Proof.
  intros Hok. induction 1 as [| |sp e s Hsp _ IH|sp sp' e s Hsp Hsp' _ IH|o a b sp s t Hsp _ IHa _ IHb|l e s _ IH].
  - by apply parses_num.
  - by apply parses_var.
  - by apply parses_neg.
  - by apply parses_paren.
  - destruct (op_level o) eqn:Ho; [by destruct o| |]; [by apply parses_term_op|by apply parses_expr_op].
  - by apply parses_up.
Qed.

(** An expression, then something that does not go on with it. *)
Lemma parse_spec e s rest :
  vars_ok vars -> syntax LExpr e s -> follows LExpr rest ->
  parse vars (s ++ rest) = v ← eval (env_of vars) e; Val (v, skip_ws rest).
Proof.
  intros Hok Hs Hr. apply parse_yields, (parses_syntax LExpr e s Hok Hs).
  { destruct Hr as (? & Hm & _). split_and!; [done|intros _; by apply Hm|done]. }
  destruct (eval _ e) as [v| |]; cbn [mbind result_bind]; [by apply expr_loop_ends|done..].
Qed.
End correct.

(** ** What is printed can be read back *)

Lemma spelled_snoc ds c : spelled (ds ++ [c]) = spelled ds * 10 + (c - c_0).
Proof. unfold spelled. by rewrite foldl_app. Qed.

Lemma digits_rev_spelled n v :
  0 <= v < 10 ^ Z.of_nat n ->
  spelled (rev (digits_rev n v)) = v /\ Forall (fun c => is_digit c = true) (digits_rev n v).
Proof.
  revert v. induction n as [|n IH]; intros v Hv.
  - change (10 ^ Z.of_nat 0) with 1 in Hv. split; [cbn; lia|constructor].
  - rewrite Nat2Z.inj_succ, Z.pow_succ_r in Hv by lia. simpl. destruct (v >? 0) eqn:E; bool_prop; [|split; [cbn; lia|constructor]].
    destruct (IH (v / 10)) as [H1 H2]; [div_lia|]. simpl. split.
    + rewrite spelled_snoc, H1. unfold c_0. div_lia.
    + constructor; [|done]. unfold is_digit, c_0. apply andb_true_intro. split; apply Z.leb_le; div_lia.
Qed.

Lemma decimal_spec v :
  0 <= v < 18446744073709551616 -> digits (decimal v) /\ spelled (decimal v) = v.
Proof.
  intros Hv. unfold decimal. destruct (v =? 0) eqn:E; bool_prop; [subst; split; [by split; [|repeat constructor]|done]|].
  destruct (digits_rev_spelled 20 v) as [H1 H2]; [change (10 ^ Z.of_nat 20) with 100000000000000000000; lia|].
  split; [|done]. split; [|by apply List.Forall_rev].
  intros Hn. rewrite Hn in H1. cbn in H1. lia.
Qed.

Definition printed (v : Z) : expr := if v <? 0 then Neg (Num (- v)) else Num v.

Lemma print_int_syntax v :
  -9223372036854775808 <= v < 9223372036854775808 -> syntax LExpr (printed v) (print_int v).
Proof.
  intros Hv. apply syn_up, syn_up. unfold print_int, printed. destruct (v <? 0) eqn:E; bool_prop.
  - assert (Hu : u64 (neg64 v) = - v).
    { destruct (decide (v = -9223372036854775808)) as [-> |]; [done|].
      unfold neg64. rewrite s64_small by lia. apply u64_small. lia. }
    rewrite Hu. destruct (decimal_spec (- v)) as [Hd Hs]; [lia|]. rewrite <- Hs at 1.
    apply (syn_neg []); [constructor|]. by apply (syn_num []); [constructor|].
  - rewrite u64_small by lia. destruct (decimal_spec v) as [Hd Hs]; [lia|]. rewrite <- Hs at 1.
    by apply (syn_num []); [constructor|].
Qed.

Lemma eval_printed env v :
  -9223372036854775808 <= v < 9223372036854775808 -> eval env (printed v) = Val v.
Proof.
  intros Hv. unfold printed. destruct (v <? 0) eqn:E; bool_prop; cbn [eval mbind result_bind].
  - destruct (decide (v = -9223372036854775808)) as [-> |]; [done|].
    unfold neg64. rewrite (s64_small (- v)) by lia. by rewrite Z.opp_involutive, s64_small.
  - by rewrite s64_small.
Qed.

Lemma follows_nil l : follows l [].
Proof. by split_and!. Qed.

(** ** Assigning a variable *)

Lemma short_length x : zlen (short x) < VAR_NAME_LEN.
Proof. unfold zlen, short. rewrite length_take. unfold VAR_NAME_LEN. lia. Qed.

Lemma env_of_update vars n x v :
  NoDup (v_name <$> vars) -> vars !! n = Some x ->
  env_of (<[n := mk_var (v_name x) v]> vars) = <[v_name x := v]> (env_of vars) /\
  v_name <$> <[n := mk_var (v_name x) v]> vars = v_name <$> vars.
Proof.
  revert n. induction vars as [|y vars IH]; intros n Hd Hn; [done|]. apply list.NoDup_cons in Hd as [Hy Hd].
  destruct n as [|n]; simpl in Hn.
  - injection Hn as ->. split; [|done]. unfold env_of. cbn. by rewrite insert_insert_eq.
  - destruct (IH n Hd Hn) as [He Hv]. set (vars' := <[n := mk_var (v_name x) v]> vars) in *.
    change (<[S n := mk_var (v_name x) v]> (y :: vars)) with (y :: vars'). split; [|by rewrite !fmap_cons, Hv].
    change (env_of (y :: ?l)) with (<[v_name y := v_value y]> (env_of l)). rewrite He. apply insert_insert_ne. intros E. apply Hy. rewrite E. apply list_elem_of_fmap_2.
    by eapply list_elem_of_lookup_2.
Qed.

Lemma env_of_app vars x v :
  env_of vars !! x = None -> env_of (vars ++ [mk_var x v]) = <[x := v]> (env_of vars).
Proof.
  intros H. unfold env_of in *. rewrite fmap_app, list_to_map_app. cbn.
  rewrite <- insert_union_r by done. by rewrite map_union_empty.
Qed.

Lemma env_of_size vars : vars_ok vars -> Z.of_nat (size (env_of vars)) = zlen vars.
Proof.
  intros Hok. unfold env_of. rewrite map_size_list_to_map; [by rewrite length_fmap|].
  rewrite <- list_fmap_compose. exact (vo_nodup _ Hok).
Qed.

(** There is room for the variable [x]. *)
Definition room (env : gmap (list Z) Z) (x : list Z) : Prop :=
  is_Some (env !! x) \/ Z.of_nat (size env) < MAX_VARS.

Lemma var_set_spec vars x v :
  vars_ok vars -> ident x -> i64 v -> room (env_of vars) (short x) ->
  exists vars', var_set vars (short x) v = Val vars' /\ vars_ok vars' /\
    env_of vars' = <[short x := v]> (env_of vars).
Proof.
  intros Hok Hx Hv64 Hroom. pose proof (ident_short x Hx) as Hs.
  pose proof (var_find_spec vars (short x) Hok Hs) as Hf. unfold var_set.
  destruct (var_find vars (short x)) as [i|].
  - destruct Hf as (Hi & Hn & _). eexists. split; [reflexivity|].
    destruct (env_of_update vars (Z.to_nat i) vars.[i] v (vo_nodup _ Hok) (aget_lookup vars i Hi)) as [He Hv].
    rewrite Hn in *. split; [|done]. split.
    + rewrite aset_length. apply Hok.
    + apply Forall_insert; [apply Hok|]. split; [done|]. apply short_length.
    + rewrite Hv. apply Hok.
    + apply Forall_insert; [apply Hok|done].
  - destruct Hroom as [[w Hw]|Hroom]; [congruence|]. rewrite env_of_size in Hroom by done.
    replace (zlen vars >=? MAX_VARS) with false by lia. eexists. split; [reflexivity|].
    rewrite ident_cstr by apply Hs. change (take (Z.to_nat (VAR_NAME_LEN - 1)) (short x)) with (short (short x)).
    assert (Hss : short (short x) = short x) by (apply take_ge; pose proof (short_length x); unfold zlen, VAR_NAME_LEN in *; lia).
    rewrite Hss. split; [|by apply env_of_app]. split.
    + unfold zlen in *. rewrite length_app. cbn. lia.
    + apply Forall_app. split; [apply Hok|]. repeat constructor; try apply Hs. apply short_length.
    + rewrite fmap_app. apply list.NoDup_app. split_and!; [apply Hok| |apply NoDup_singleton].
      intros y Hy Hy'. apply list_elem_of_singleton in Hy'. simpl in Hy'. subst y.
      apply list_elem_of_fmap in Hy as (w & Hw & Hin).
      apply not_elem_of_list_to_map_2 in Hf. apply Hf. rewrite <- list_fmap_compose, Hw. by apply (list_elem_of_fmap_2 (fst ∘ named)).
    + apply Forall_app. split; [apply Hok|by apply list.Forall_singleton].
Qed.

(** * Properties *)

(** C23: The expression parser returns on every text whatever, and on a text of the
    expression grammar (numbers, variables, unary minus, parentheses, and the four
    operators with the usual precedence and grouping to the left, blanks anywhere
    before a token) it gives exactly the value of the expression in wrapping 64-bit
    arithmetic, a fault where the division faults, and stops right at what follows. *)
Theorem lang_parse_correct vars e s rest (Hok : vars_ok vars) (Hs : syntax LExpr e s)
    (Hr : follows LExpr rest) :
  parse vars (s ++ rest) = (v ← eval (env_of vars) e; Val (v, skip_ws rest)) /\
  forall t, parse vars t <> OutOfFuel.
Proof.
  split; [by apply parse_spec|]. intros t Ht. pose proof (parse_total vars t) as H. by rewrite Ht in H.
Qed.

(** [1 - 2 - x * -(3)] with [x = 7], then [ goto]. *)
Definition demo_vars : list var_t := [mk_var (text "x") 7].
Definition demo_expr : expr :=
  Bin Sub (Bin Sub (Num 1) (Num 2)) (Bin Mul (Var (text "x")) (Neg (Num 3))).

Lemma demo_vars_ok : vars_ok demo_vars.
Proof. split; [done|repeat constructor; done|apply NoDup_singleton|repeat constructor; done]. Qed.

Lemma demo_expr_syntax : syntax LExpr demo_expr (text "1 - 2 - x * -(3)").
Proof.
  assert (Hn : forall c sp, blanks sp -> is_digit c = true -> syntax LFactor (Num (c - 48)) (sp ++ [c])).
  { intros c sp Hsp Hc. change (c - 48) with (spelled [c]). by apply syn_num; [|split; [|repeat constructor]]. }
  assert (Hsp : blanks (text " ")) by (constructor; [by left|constructor]).
  apply (syn_op Sub (Bin Sub (Num 1) (Num 2)) (Bin Mul (Var (text "x")) (Neg (Num 3)))
    (text " ") (text "1 - 2") (text " x * -(3)")); [done| |].
  - apply (syn_op Sub (Num 1) (Num 2) (text " ") (text "1") (text " 2")); [done|do 2 apply syn_up|apply syn_up].
    + by apply (Hn 49 []); [constructor|].
    + by apply (Hn 50 (text " ")).
  - apply (syn_op Mul (Var (text "x")) (Neg (Num 3)) (text " ") (text " x") (text " -(3)")); [done|apply syn_up|].
    + by apply (syn_var (text " ") (text "x")); [|split; [|repeat constructor]|].
    + apply (syn_neg (text " ") (Num 3) (text "(3)")); [done|].
      apply (syn_paren [] [] (Num 3) (text "3")); [constructor..|]. do 2 apply syn_up.
      by apply (Hn 51 []); [constructor|].
Qed.

Lemma lang_parse_correct_witness :
  parse demo_vars (text "1 - 2 - x * -(3)" ++ text " goto") = Val (20, text "goto").
Proof.
  refine (eq_trans (proj1 (lang_parse_correct demo_vars demo_expr (text "1 - 2 - x * -(3)") (text " goto")
    demo_vars_ok demo_expr_syntax _)) _); [|vm_compute; reflexivity].
  split; [reflexivity|split; intros _; split; discriminate].
Defined.

(** Printing and reading are inverse on all 64-bit integers, the least one
    included: what [print_int] writes is in the grammar, and the parser gives the
    number back with nothing left over. *)
Theorem lang_print_parse vars v (Hok : vars_ok vars)
    (Hv : -9223372036854775808 <= v < 9223372036854775808) :
  syntax LExpr (printed v) (print_int v) /\ parse vars (print_int v) = Val (v, []).
Proof.
  pose proof (print_int_syntax v Hv) as Hs. split; [done|].
  pose proof (parse_spec vars (printed v) (print_int v) [] Hok Hs (follows_nil LExpr)) as H.
  rewrite app_nil_r, (eval_printed _ v Hv) in H. exact H.
Qed.

Lemma lang_print_parse_witness :
  parse demo_vars (print_int (-9223372036854775808)) = Val (-9223372036854775808, []).
Proof.
  exact (proj2 (lang_print_parse demo_vars (-9223372036854775808) demo_vars_ok ltac:(lia))).
Defined.
