(* ===== verification/LangRun.v ===== *)
(** Scripts of the language: what each statement means, and that a script runs
    as its statements say. *)
From S2P Require Import Prelude CString Lang LangSpec.
From Stdlib Require Import String.

Open Scope Z_scope.
Open Scope list_scope.

(** * Statements *)

Inductive cmp := CmpEq | CmpNe | CmpLt | CmpGt | CmpLe | CmpGe.

Definition cmp_text (c : cmp) : list Z :=
  match c with
  | CmpEq => text "==" | CmpNe => text "!=" | CmpLt => text "<"
  | CmpGt => text ">" | CmpLe => text "<=" | CmpGe => text ">="
  end.

Definition cmp_holds (c : cmp) (a b : Z) : bool :=
  match c with
  | CmpEq => bool_decide (a = b)
  | CmpNe => bool_decide (a <> b)
  | CmpLt => bool_decide (a < b)
  | CmpGt => bool_decide (a > b)
  | CmpLe => bool_decide (a <= b)
  | CmpGe => bool_decide (a >= b)
  end.

Inductive stmt :=
  | Skip
  | Let (x : list Z) (e : expr)
  | PrintStr (t : list Z)
  | Print (e : expr)
  | Input (x : list Z)
  | If (a : expr) (c : cmp) (b : expr) (target : Z)
  | Goto (target : Z)
  | Stop.

(** The number of a line to go to. *)
Definition line_number (ds : list Z) (n : Z) : Prop :=
  digits ds /\ spelled ds = n /\ 1 <= n <= 2147483647.

Inductive stmt_syntax : stmt -> list Z -> Prop :=
  | st_blank sp : blanks sp -> stmt_syntax Skip sp
  | st_comment sp t : blanks sp -> stmt_syntax Skip (sp ++ c_hash :: t)
  | st_let sp sp1 sp2 sp3 x e s :
      blanks sp -> blanks sp1 -> blanks sp2 -> blanks sp3 -> ident x -> syntax LExpr e s ->
      stmt_syntax (Let x e) (sp ++ text "let " ++ sp1 ++ x ++ sp2 ++ c_eq :: s ++ sp3)
  | st_print_str sp sp1 t after :
      blanks sp -> blanks sp1 -> Forall (fun c => c <> 0 /\ c <> c_quote) t ->
      stmt_syntax (PrintStr t) (sp ++ text "print " ++ sp1 ++ c_quote :: t ++ c_quote :: after)
  | st_print sp sp1 e s :
      blanks sp -> blanks sp1 -> syntax LExpr e s ->
      stmt_syntax (Print e) (sp ++ text "print " ++ s ++ sp1)
  | st_input sp sp1 sp2 x :
      blanks sp -> blanks sp1 -> blanks sp2 -> ident x ->
      stmt_syntax (Input x) (sp ++ text "input " ++ sp1 ++ x ++ sp2)
  | st_if sp sp1 sp2 sp3 sp4 a c b n s t ds :
      blanks sp -> blanks sp1 -> blanks sp2 -> sp2 <> [] -> blanks sp3 -> blanks sp4 ->
      syntax LExpr a s -> syntax LExpr b t -> line_number ds n ->
      stmt_syntax (If a c b n)
        (sp ++ text "if " ++ s ++ sp1 ++ cmp_text c ++ t ++ sp2 ++ text "goto " ++ sp3 ++ ds ++ sp4)
  | st_goto sp sp1 sp2 ds n :
      blanks sp -> blanks sp1 -> blanks sp2 -> line_number ds n ->
      stmt_syntax (Goto n) (sp ++ text "goto " ++ sp1 ++ ds ++ sp2)
  | st_end sp : blanks sp -> stmt_syntax Stop (sp ++ text "end").

(** ** What they do *)

Record world := mk_world { w_env : gmap (list Z) Z; w_out : list Z; w_in : list Z }.

Definition assign (w : world) (x : list Z) (v : Z) : world :=
  mk_world (<[short x := v]> (w_env w)) (w_out w) (w_in w).
Definition emit (w : world) (s : list Z) : world := mk_world (w_env w) (w_out w ++ s) (w_in w).

(** A line typed without corrections that fits the buffer, and its value. *)
Definition typed (env : gmap (list Z) Z) (line : list Z) (v : Z) : Prop :=
  Forall (fun c => c <> c_nl /\ c <> c_bs) line /\ zlen line < 32 /\
  exists e s sp, line = s ++ sp /\ syntax LExpr e s /\ blanks sp /\ eval env e = Val v.

Inductive exec : stmt -> world -> world -> next -> Prop :=
  | ex_skip w : exec Skip w w Next
  | ex_let w x e v :
      eval (w_env w) e = Val v -> room (w_env w) (short x) -> exec (Let x e) w (assign w x v) Next
  | ex_print_str w t : exec (PrintStr t) w (emit w (t ++ [c_nl])) Next
  | ex_print w e v : eval (w_env w) e = Val v -> exec (Print e) w (emit w (print_int v ++ [c_nl])) Next
  | ex_input w x line inp v :
      w_in w = line ++ c_nl :: inp -> typed (w_env w) line v -> room (w_env w) (short x) ->
      exec (Input x) w
        (assign (mk_world (w_env w) (w_out w ++ text "? " ++ line ++ [c_nl]) inp) x v) Next
  | ex_if w a c b n v u :
      eval (w_env w) a = Val v -> eval (w_env w) b = Val u ->
      exec (If a c b n) w w (if cmp_holds c v u then Jump n else Next)
  | ex_goto w n : exec (Goto n) w w (Jump n)
  | ex_stop w : exec Stop w w End.

(** [runs prog n i w w']: from statement [i] (counted from 1), [n] statements are
    carried out and the script ends with [w']. *)
Inductive runs (prog : list stmt) : Z -> Z -> world -> world -> Prop :=
  | run_off i w : zlen prog < i -> runs prog 0 i w w
  | run_stop i c w w' :
      prog !! Z.to_nat (i - 1) = Some c -> exec c w w' End -> runs prog 1 i w w'
  | run_next n i c w w1 w' :
      prog !! Z.to_nat (i - 1) = Some c -> exec c w w1 Next ->
      runs prog n (i + 1) w1 w' -> runs prog (n + 1) i w w'
  | run_jump n i j c w w1 w' :
      prog !! Z.to_nat (i - 1) = Some c -> exec c w w1 (Jump j) ->
      runs prog n j w1 w' -> runs prog (n + 1) i w w'.

(** * The implementation does it *)

(** The program's state [st] stands for the world [w]. *)
Record represents (st : state) (w : world) : Prop := {
  rp_ok : vars_ok (st_vars st);
  rp_env : env_of (st_vars st) = w_env w;
  rp_out : st_out st = w_out w;
  rp_in : st_in st = w_in w;
}.

(** ** Reading a statement's parts *)

Lemma skip_ws_ident sp x s : blanks sp -> ident x -> skip_ws (sp ++ x ++ s) = x ++ s.
Proof.
  intros Hsp [Hn Hx]. rewrite skip_ws_blanks by done. destruct Hx as [|c x Hc Hx]; [done|].
  apply ident_range in Hc. cbn [app]. apply skip_ws_cons; unfold c_space, c_tab; lia.
Qed.

(** How a token of an expression starts. *)
Definition token_start (c : Z) : Prop := is_ident_char c = true \/ c = c_minus \/ c = c_lpar.

Lemma syntax_head l e s :
  syntax l e s -> exists sp c s', s = sp ++ c :: s' /\ blanks sp /\ token_start c.
Proof.
  unfold token_start.
  induction 1 as [sp ds Hsp [Hn Hd]|sp x Hsp [Hn Hx] _|sp e s Hsp _ _|sp sp' e s Hsp _ _ _|o a b sp s t Hsp _ IH _ _|l e s _ IH].
  - destruct Hd as [|c ds Hc Hd]; [done|]. exists sp, c, ds. apply digit_ident in Hc. tauto.
  - destruct Hx as [|c x Hc Hx]; [done|]. exists sp, c, x. tauto.
  - exists sp, c_minus, s. tauto.
  - exists sp, c_lpar, (s ++ sp' ++ [c_rpar]). tauto.
  - destruct IH as (sp' & c & s' & -> & Hsp' & Hc). exists sp', c, (s' ++ sp ++ op_char o :: t).
    by rewrite <- app_assoc.
  - done.
Qed.

Lemma token_start_range c : token_start c -> c = c_lpar \/ c = c_minus \/ 48 <= c <= 122.
Proof. intros [H | [-> | ->]]; [apply ident_range in H; lia|tauto..]. Qed.

Lemma syntax_first l e s : syntax l e s -> exists c s', s = c :: s' /\ c <> c_eq.
Proof.
  intros Hs. apply syntax_head in Hs as (sp & c & s' & -> & Hsp & Hc).
  destruct Hsp as [|b sp Hb _]; [|by exists b, (sp ++ c :: s'); destruct Hb as [-> | ->]].
  exists c, s'. split; [done|]. by destruct Hc as [Hc | [-> | ->]]; [intros -> |..].
Qed.

Lemma syntax_quote l e s rest : syntax l e s -> peek (skip_ws (s ++ rest)) <> c_quote.
Proof.
  intros Hs. apply syntax_head in Hs as (sp & c & s' & -> & Hsp & Hc). apply token_start_range in Hc.
  rewrite <- app_assoc, (skip_ws_blanks sp _ Hsp). cbn [app].
  rewrite skip_ws_cons by (unfold c_space, c_tab, c_lpar, c_minus in *; lia).
  change (peek (c :: ?l)) with c. unfold c_quote, c_lpar, c_minus in *. lia.
Qed.

Lemma parse_skip vars s : parse vars (skip_ws s) = parse vars s.
Proof.
  apply parse_yields. exists (parse_fuel s). intros m Hm.
  assert (Hf : forall n, parse_expr vars n (skip_ws s) = parse_expr vars n s).
  { intros [|[|[|n]]]; [done..|]. cbn [parse_expr parse_term parse_factor]. by rewrite skip_ws_idem. }
  rewrite Hf. pose proof (parse_total vars s) as Ht.
  apply (parse_settles vars (parse_fuel s) m); [done|]. unfold parse in Ht. intros E. by rewrite E in Ht.
Qed.

Lemma follows_blanks sp : blanks sp -> follows LExpr sp.
Proof.
  intros H. assert (Hs : skip_ws sp = []).
  { rewrite <- (app_nil_r sp). by rewrite skip_ws_blanks. }
  split_and!; [|rewrite Hs; done..]. rewrite <- (app_nil_r sp). by apply apart_blanks.
Qed.

Lemma parse_then_blanks vars e s sp :
  vars_ok vars -> syntax LExpr e s -> blanks sp ->
  parse vars (s ++ sp) = v ← eval (env_of vars) e; Val (v, []).
Proof.
  intros Hok Hs Hsp. rewrite (parse_spec vars e s sp Hok Hs (follows_blanks sp Hsp)).
  rewrite <- (app_nil_r sp). by rewrite skip_ws_blanks.
Qed.

(** A comparison is read as written, and decides what it says. *)
Definition cmp_code (c : cmp) : Z :=
  match c with
  | CmpEq => op_eq | CmpNe => op_ne | CmpLt => c_lt | CmpGt => c_gt | CmpLe => op_le | CmpGe => op_ge
  end.

Lemma read_cmp_op_spec c x s :
  x <> c_eq -> read_cmp_op (cmp_text c ++ x :: s) = (cmp_code c, x :: s).
Proof.
  intros Hx. destruct c; try reflexivity.
  all: assert (He : (x =? c_eq) = false) by lia.
  - change (read_cmp_op (c_lt :: x :: s) = (c_lt, x :: s)). unfold read_cmp_op. rewrite skip_ws_cons by done.
    change ((c_lt :: x :: s).[1]) with x. by rewrite He.
  - change (read_cmp_op (c_gt :: x :: s) = (c_gt, x :: s)). unfold read_cmp_op. rewrite skip_ws_cons by done.
    change ((c_gt :: x :: s).[1]) with x. by rewrite He.
Qed.

Lemma eval_cmp_spec c a b : eval_cmp a (cmp_code c) b = cmp_holds c a b.
Proof.
  destruct c; cbn [cmp_code cmp_holds].
  - change (eval_cmp a op_eq b) with (a =? b). case_bool_decide; lia.
  - change (eval_cmp a op_ne b) with (negb (a =? b)). case_bool_decide; lia.
  - change (eval_cmp a c_lt b) with (a <? b). case_bool_decide; lia.
  - change (eval_cmp a c_gt b) with (a >? b). case_bool_decide; lia.
  - change (eval_cmp a op_le b) with (a <=? b). case_bool_decide; lia.
  - change (eval_cmp a op_ge b) with (a >=? b). case_bool_decide; lia.
Qed.

Lemma parse_line_number_spec ds n sp :
  line_number ds n -> blanks sp -> parse_line_number (ds ++ sp) = n.
Proof.
  intros (Hd & Hs & Hn) Hsp.
  assert (Ha : is_digit (peek sp) = false) by (destruct Hsp as [|c sp [-> | ->]]; done).
  unfold parse_line_number. rewrite (read_number_spelled ds sp Hd Ha), Hs.
  destruct Hd as [Hne Hd]. destruct Hd as [|c ds Hc Hd]; [done|].
  change (peek ((c :: ds) ++ sp)) with c. rewrite Hc. simpl. apply s64_small. lia.
Qed.

Lemma skip_ws_digits sp ds s : blanks sp -> digits ds -> skip_ws (sp ++ ds ++ s) = ds ++ s.
Proof.
  intros Hsp [Hn Hd]. apply skip_ws_ident; [done|]. split; [done|].
  exact (List.Forall_impl _ digit_ident Hd).
Qed.

Lemma until_quote_spec t after :
  Forall (fun c => c <> 0 /\ c <> c_quote) t -> until_quote (t ++ c_quote :: after) = t.
Proof.
  induction 1 as [|c t [H1 H2] _ IH]; [done|]. simpl.
  replace (c =? 0) with false by lia. replace (c =? c_quote) with false by lia. simpl. by rewrite IH.
Qed.

(** A line typed without corrections is echoed and kept. *)
Lemma read_line_spec line buf out inp m :
  Forall (fun c => c <> c_nl /\ c <> c_bs) line -> zlen buf + zlen line < m ->
  read_line_stdin (line ++ c_nl :: inp) buf out m = Val (buf ++ line, inp, out ++ line ++ [c_nl]).
Proof.
  intros Hl. revert buf out. induction Hl as [|c line [H1 H2] _ IH]; intros buf out Hlen.
  - cbn. by rewrite app_nil_r.
  - cbn [app read_line_stdin]. replace (c =? c_nl) with false by lia. replace (c =? c_bs) with false by lia.
    unfold zlen in *. cbn [List.length] in Hlen. replace (_ <? m) with true by lia.
    rewrite IH by (rewrite length_app; cbn; lia). by rewrite <- !app_assoc.
Qed.

(** ** One statement *)

Lemma exec_line_starts st sp c s ln :
  blanks sp -> c <> c_space -> c <> c_tab -> exec_line st (sp ++ c :: s) ln = exec_line st (c :: s) ln.
Proof. intros Hsp H1 H2. unfold exec_line. by rewrite skip_ws_blanks, skip_ws_cons. Qed.

Section lines.
Context (st : state) (w : world) (Hr : represents st w) (ln : Z).

Lemma ident_zlen x : ident x -> (zlen (short x) =? 0) = false.
Proof. intros H. apply ident_short in H as [H _]. by destruct (short x). Qed.

Lemma represents_assign vars out inp x v :
  vars_ok vars -> env_of vars = <[short x := v]> (w_env w) -> out = w_out w -> inp = w_in w ->
  represents (mk_state vars out inp) (assign w x v).
Proof. by split. Qed.

Lemma run_let sp1 sp2 sp3 x e s v :
  blanks sp1 -> blanks sp2 -> blanks sp3 -> ident x -> syntax LExpr e s ->
  eval (w_env w) e = Val v -> room (w_env w) (short x) ->
  exists st', exec_let st (text "let " ++ sp1 ++ x ++ sp2 ++ c_eq :: s ++ sp3) ln = Val (st', Next) /\
    represents st' (assign w x v).
Proof.
  intros H1 H2 H3 Hx Hs Hv Hroom. destruct Hr as [Hok He Ho Hi]. unfold exec_let.
  change (drop 4 (text "let " ++ ?l)) with l. rewrite (skip_ws_ident sp1 x _ H1 Hx).
  rewrite read_ident_app; [|apply Hx|by apply apart_blanks].
  rewrite (ident_zlen x Hx), (skip_ws_blanks sp2 _ H2), skip_ws_cons by done.
  change (peek (c_eq :: ?l)) with c_eq. change (tail (c_eq :: ?l)) with l. cbn [Z.eqb negb Pos.eqb c_eq].
  rewrite (parse_then_blanks _ e s sp3 Hok Hs H3), He, Hv. cbn [mbind result_bind].
  assert (Hi64 : i64 v) by (apply (eval_i64 (w_env w) e); [rewrite <- He; by apply env_i64|done]).
  rewrite <- He in Hroom. destruct (var_set_spec _ x v Hok Hx Hi64 Hroom) as (vars' & -> & Hok' & He').
  eexists. split; [reflexivity|]. apply represents_assign; [done|by rewrite He', He|done|done].
Qed.

Lemma run_print_str sp1 t after :
  blanks sp1 -> Forall (fun c => c <> 0 /\ c <> c_quote) t ->
  exists st', exec_print st (text "print " ++ sp1 ++ c_quote :: t ++ c_quote :: after) = Val (st', Next) /\
    represents st' (emit w (t ++ [c_nl])).
Proof.
  intros H1 Ht. destruct Hr as [Hok He Ho Hi]. unfold exec_print.
  change (drop 6 (text "print " ++ ?l)) with l. rewrite (skip_ws_blanks sp1 _ H1), skip_ws_cons by done.
  change (peek (c_quote :: ?l)) with c_quote. change (tail (c_quote :: ?l)) with l. cbn [Z.eqb Pos.eqb c_quote].
  rewrite until_quote_spec by done. eexists. split; [reflexivity|]. split; [done|done|by cbn; rewrite Ho|done].
Qed.

Lemma run_print sp1 e s v :
  blanks sp1 -> syntax LExpr e s -> eval (w_env w) e = Val v ->
  exists st', exec_print st (text "print " ++ s ++ sp1) = Val (st', Next) /\
    represents st' (emit w (print_int v ++ [c_nl])).
Proof.
  intros H1 Hs Hv. destruct Hr as [Hok He Ho Hi]. unfold exec_print.
  change (drop 6 (text "print " ++ ?l)) with l. rewrite parse_skip.
  pose proof (syntax_quote _ e s sp1 Hs) as Hq.
  replace (_ =? c_quote) with false by lia.
  rewrite (parse_then_blanks _ e s sp1 Hok Hs H1), He, Hv. cbn [mbind result_bind].
  eexists. split; [reflexivity|]. split; [done|done|by cbn; rewrite Ho|done].
Qed.

Lemma run_input sp1 sp2 x line inp v :
  blanks sp1 -> blanks sp2 -> ident x ->
  w_in w = line ++ c_nl :: inp -> typed (w_env w) line v -> room (w_env w) (short x) ->
  exists st', exec_input st (text "input " ++ sp1 ++ x ++ sp2) ln = Val (st', Next) /\
    represents st' (assign (mk_world (w_env w) (w_out w ++ text "? " ++ line ++ [c_nl]) inp) x v).
Proof.
  intros H1 H2 Hx Hin (Hl & Hlen & e & s & sp & -> & Hs & Hsp & Hv) Hroom. destruct Hr as [Hok He Ho Hi].
  unfold exec_input. change (drop 6 (text "input " ++ ?l)) with l. rewrite (skip_ws_ident sp1 x _ H1 Hx).
  rewrite read_ident_app; [|apply Hx|rewrite <- (app_nil_r sp2); by apply apart_blanks].
  rewrite (ident_zlen x Hx), Hi, Hin, read_line_spec by done. cbn [mbind result_bind app st_vars st_out st_in].
  rewrite parse_skip, (parse_then_blanks _ e s sp Hok Hs Hsp), He, Hv. cbn [mbind result_bind].
  assert (Hi64 : i64 v) by (apply (eval_i64 (w_env w) e); [rewrite <- He; by apply env_i64|done]).
  rewrite <- He in Hroom. destruct (var_set_spec _ x v Hok Hx Hi64 Hroom) as (vars' & -> & Hok' & He').
  eexists. split; [reflexivity|]. split; [done| |by cbn; rewrite Ho|done].
  change (env_of vars' = <[short x := v]> (w_env w)). by rewrite He', He.
Qed.

Lemma follows_cmp sp c t : blanks sp -> follows LExpr (sp ++ cmp_text c ++ t).
Proof.
  intros Hsp. assert (Hc : exists x s, cmp_text c ++ t = x :: s /\ x <> c_space /\ x <> c_tab /\
    is_ident_char x = false /\ x <> c_mul /\ x <> c_div /\ x <> c_plus /\ x <> c_minus).
  { destruct c; do 2 eexists; (split; [reflexivity|]); split_and!; done. }
  destruct Hc as (x & s & -> & Hx1 & Hx2 & Hid & Hm). split; [by apply apart_blanks|].
  rewrite (skip_ws_blanks sp _ Hsp), skip_ws_cons by done. change (peek (x :: s)) with x. tauto.
Qed.

Lemma skip_ws_cmp sp c t : blanks sp -> skip_ws (sp ++ cmp_text c ++ t) = cmp_text c ++ t.
Proof. intros Hsp. rewrite (skip_ws_blanks sp _ Hsp). by destruct c. Qed.

Lemma follows_goto sp t : blanks sp -> sp <> [] -> follows LExpr (sp ++ text "goto " ++ t).
Proof.
  intros Hsp Hn. split.
  - destruct Hsp as [|b sp [-> | ->] _]; done.
  - rewrite (skip_ws_blanks sp _ Hsp). done.
Qed.

Lemma branch_spec b ds n sp3 sp4 :
  blanks sp3 -> blanks sp4 -> line_number ds n ->
  branch b (parse_line_number (skip_ws (sp3 ++ ds ++ sp4))) = if b then Jump n else Next.
Proof.
  intros H3 H4 Hn. rewrite (skip_ws_digits sp3 ds _ H3) by apply Hn. rewrite (parse_line_number_spec ds n sp4 Hn H4).
  unfold branch. destruct Hn as (_ & _ & Hn). replace (n >=? 1) with true by lia. by rewrite andb_true_r.
Qed.

Lemma run_if sp1 sp2 sp3 sp4 a c b n s t ds v u :
  blanks sp1 -> blanks sp2 -> sp2 <> [] -> blanks sp3 -> blanks sp4 ->
  syntax LExpr a s -> syntax LExpr b t -> line_number ds n ->
  eval (w_env w) a = Val v -> eval (w_env w) b = Val u ->
  exec_if st (text "if " ++ s ++ sp1 ++ cmp_text c ++ t ++ sp2 ++ text "goto " ++ sp3 ++ ds ++ sp4) ln =
    Val (st, if cmp_holds c v u then Jump n else Next).
Proof.
  intros H1 H2 H2n H3 H4 Hs Ht Hn Hv Hu. destruct Hr as [Hok He _ _]. unfold exec_if.
  change (drop 3 (text "if " ++ ?l)) with l.
  rewrite (parse_spec _ a s _ Hok Hs (follows_cmp sp1 c _ H1)), He, Hv. cbn [mbind result_bind].
  rewrite (skip_ws_cmp sp1 c _ H1).
  destruct (syntax_first _ _ _ Ht) as (x & t' & Hxt & Hx).
  assert (Hop : read_cmp_op (cmp_text c ++ t ++ sp2 ++ text "goto " ++ sp3 ++ ds ++ sp4) =
    (cmp_code c, t ++ sp2 ++ text "goto " ++ sp3 ++ ds ++ sp4)) by (rewrite Hxt; by apply read_cmp_op_spec).
  rewrite Hop, (parse_spec _ b t _ Hok Ht (follows_goto sp2 _ H2 H2n)), He, Hu. cbn [mbind result_bind].
  rewrite skip_ws_idem, (skip_ws_blanks sp2 _ H2).
  change (skip_ws (text "goto " ++ ?l)) with (text "goto " ++ l).
  change (str_starts_with (text "goto " ++ ?l) (text "goto ")) with true. cbn [negb].
  change (drop 5 (text "goto " ++ ?l)) with l. by rewrite eval_cmp_spec, (branch_spec _ ds n sp3 sp4 H3 H4 Hn).
Qed.

End lines.

(** Every statement does what it means. *)
Lemma exec_line_spec st w ln c line w' nx :
  represents st w -> stmt_syntax c line -> exec c w w' nx ->
  exists st', exec_line st line ln = Val (st', nx) /\ represents st' w'.
Proof.
  intros Hr Hc Hx. destruct Hc; inversion Hx; subst; clear Hx.
  - exists st. split; [|done]. unfold exec_line. by rewrite <- (app_nil_r sp), skip_ws_blanks.
  - exists st. split; [|done]. by rewrite exec_line_starts.
  - change (text "let " ++ ?l) with (108 :: text "et " ++ l) at 1. rewrite exec_line_starts by done.
    by apply (run_let st w Hr ln sp1 sp2 sp3 x e).
  - change (text "print " ++ ?l) with (112 :: text "rint " ++ l) at 1. rewrite exec_line_starts by done.
    by apply (run_print_str st w Hr).
  - change (text "print " ++ ?l) with (112 :: text "rint " ++ l) at 1. rewrite exec_line_starts by done.
    by apply (run_print st w Hr _ e).
  - change (text "input " ++ ?l) with (105 :: text "nput " ++ l) at 1. rewrite exec_line_starts by done.
    by eapply (run_input st w Hr).
  - change (text "if " ++ ?l) with (105 :: text "f " ++ l) at 1. rewrite exec_line_starts by done.
    exists st. split; [|done]. by apply (run_if st w' Hr ln _ _ _ _ a c b n s t ds).
  - change (text "goto " ++ ?l) with (103 :: text "oto " ++ l) at 1. rewrite exec_line_starts by done.
    exists st. split; [|done].
    change (Val (st, branch true (parse_line_number (skip_ws (sp1 ++ ds ++ sp2)))) = Val (st, Jump n)).
    by rewrite (branch_spec true ds n).
  - exists st. split; [|done]. change (text "end") with (101 :: text "nd"). by rewrite exec_line_starts.
Qed.

(** ** A whole script *)

Lemma exec_jump c line w w' j : stmt_syntax c line -> exec c w w' (Jump j) -> 1 <= j <= 2147483647.
Proof.
  intros Hc Hx. inversion Hx; subst; clear Hx; inversion Hc; subst; clear Hc.
  all: match goal with Hn : line_number _ _ |- _ => destruct Hn as (_ & _ & Hn) end.
  - match goal with He : _ = Jump j |- _ => destruct (cmp_holds _ _ _); [injection He as <-; done|done] end.
  - done.
Qed.

Lemma runs_nonneg prog n i w w' : runs prog n i w w' -> 0 <= n.
Proof. induction 1; lia. Qed.

Lemma run_script_spec prog lines st w w' n :
  Forall2 stmt_syntax prog lines -> zlen lines <= MAX_LINES -> represents st w ->
  runs prog n 1 w w' -> n <= STEP_LIMIT ->
  exists st', run_script lines st = Val st' /\ represents st' w'.
Proof.
  intros Hl Hlen Hr Hrun Hn. pose proof (Forall2_length Hl) as Heq. unfold run_script.
  while_pos_inv n
    (fun m '(st, pc, steps) => exists w, represents st w /\ runs prog m (pc + 1) w w' /\
      0 <= pc /\ 0 <= steps /\ steps + m <= STEP_LIMIT)
    (fun r => exists st', r = Val st' /\ represents st' w').
  - exists w. split_and!; [done|done|lia..].
  - pose proof (runs_nonneg _ _ _ _ _ Hrun). unfold STEP_LIMIT in Hn. unfold STEP_FUEL. lia.
  - clear st w n Hr Hrun Hn. intros n [[st pc] steps] Hn0 (w & Hr & Hrun & Hpc & Hst & Hlim).
    unfold STEP_LIMIT, MAX_LINES in *.
    assert (Hstep : forall c, prog !! Z.to_nat (pc + 1 - 1) = Some c ->
      (pc >=? 0) && (pc <? zlen lines) = true /\ stmt_syntax c lines.[pc]).
    { intros c Hc. replace (pc + 1 - 1) with pc in Hc by lia.
      destruct (Forall2_lookup_l _ _ _ _ _ Hl Hc) as (l & Hll & Hs).
      pose proof (lookup_lt_Some _ _ _ Hll) as Hlt. apply lookup_aget in Hll. rewrite Z2Nat.id in Hll by lia.
      rewrite Hll. split; [|done]. unfold zlen. lia. }
    inversion Hrun as [i w1 Hoff|i c w1 w2 Hc Hx|m i c w1 w2 w3 Hc Hx Hgo|m i j c w1 w2 w3 Hc Hx Hgo]; subst; clear Hrun.
    + replace (pc <? zlen lines) with false by (unfold zlen in *; lia). rewrite andb_false_r. by exists st.
    + destruct (Hstep c Hc) as [-> Hs]. replace (steps + 1 >? 2000000) with false by lia.
      destruct (exec_line_spec st w (pc + 1) c _ _ _ Hr Hs Hx) as (st' & -> & Hr'). by exists st'.
    + destruct (Hstep c Hc) as [Hb Hs]. rewrite Hb. pose proof (runs_nonneg _ _ _ _ _ Hgo).
      replace (steps + 1 >? 2000000) with false by lia.
      destruct (exec_line_spec st w (pc + 1) c _ _ _ Hr Hs Hx) as (st' & -> & Hr').
      rewrite s32_small by lia. exists m. split; [lia|]. exists w2. split_and!; [done|done|lia..].
    + destruct (Hstep c Hc) as [Hb Hs]. rewrite Hb. pose proof (runs_nonneg _ _ _ _ _ Hgo).
      replace (steps + 1 >? 2000000) with false by lia. pose proof (exec_jump _ _ _ _ _ Hs Hx).
      destruct (exec_line_spec st w (pc + 1) c _ _ _ Hr Hs Hx) as (st' & -> & Hr').
      rewrite (s32_small j), (s32_small (j - 1)) by lia. exists m. split; [lia|]. exists w2.
      replace (j - 1 + 1) with j by lia. split_and!; [done|done|lia..].
  - destruct Hloop as (r & -> & Hq). exact Hq.
Qed.

(** ** From the file to the lines *)

Lemma each_loop_list {S} (f : Z -> S -> S) (body : Z -> S -> S) (l pre : list Z) x :
  (forall i s, body i s = f ((pre ++ l).[i]) s) ->
  each_loop (List.length l) body (zlen pre) x = foldl (fun s c => f c s) x l.
Proof.
  revert pre x. induction l as [|c l IH]; intros pre x Hb; [done|]. cbn [List.length each_loop foldl].
  rewrite Hb. replace ((pre ++ c :: l).[zlen pre]) with c.
  - replace (zlen pre + 1) with (zlen (pre ++ [c])) by (unfold zlen; rewrite length_app; cbn; lia).
    apply IH. intros i s. by rewrite <- app_assoc.
  - unfold zlen. rewrite Nat2Z.id. by rewrite list_lookup_total_middle.
Qed.

Definition take_char (c : Z) '((lines, line) : list (list Z) * list Z) : list (list Z) * list Z :=
  if zlen lines <? MAX_LINES then
    if c =? c_nl then (lines ++ [line], [])
    else if zlen line <? MAX_LINE_LEN then (lines, line ++ [c])
    else (lines, line)
  else (lines, line).

Lemma split_lines_foldl content :
  split_lines content =
    let '(lines, line) := foldl (fun s c => take_char c s) ([], []) content in
    if (0 <? zlen line) && (zlen lines <? MAX_LINES) then lines ++ [line] else lines.
Proof.
  unfold split_lines, for_each. rewrite Z.sub_0_r. unfold zlen at 1. rewrite Nat2Z.id.
  by rewrite (each_loop_list take_char _ content [] ([], [])).
Qed.

(** A script of at most [MAX_LINES] lines that fit. *)
Definition fits (lines : list (list Z)) : Prop :=
  zlen lines <= MAX_LINES /\
  Forall (fun l => Forall (fun c => c <> c_nl) l /\ zlen l <= MAX_LINE_LEN) lines.

Definition file_of (lines : list (list Z)) : list Z := List.concat ((fun l => l ++ [c_nl]) <$> lines).

Lemma take_char_line l lines line rest :
  Forall (fun c => c <> c_nl) l -> zlen line + zlen l <= MAX_LINE_LEN -> zlen lines < MAX_LINES ->
  foldl (fun s c => take_char c s) (lines, line) (l ++ c_nl :: rest) =
  foldl (fun s c => take_char c s) (lines ++ [line ++ l], []) rest.
Proof.
  intros Hl Hlen Hn. assert (Hb : (zlen lines <? MAX_LINES) = true) by lia.
  revert line Hlen. induction Hl as [|c l Hc _ IH]; intros line Hlen; cbn [app foldl]; unfold take_char at 2; rewrite Hb.
  - by rewrite app_nil_r.
  - replace (c =? c_nl) with false by lia. unfold zlen in *. cbn [List.length] in Hlen.
    replace (_ <? MAX_LINE_LEN) with true by lia. rewrite IH by (rewrite length_app; cbn; lia).
    by rewrite <- app_assoc.
Qed.

Lemma split_lines_file lines : fits lines -> split_lines (file_of lines) = lines.
Proof.
  intros [Hn Hf]. rewrite split_lines_foldl.
  assert (H : forall pre, zlen pre + zlen lines <= MAX_LINES ->
    foldl (fun s c => take_char c s) (pre, []) (file_of lines) = (pre ++ lines, [])).
  { clear Hn. induction Hf as [|l lines [Hl Hlen] _ IH]; intros pre Hpre; [by rewrite app_nil_r|].
    unfold file_of in *. rewrite fmap_cons. cbn [List.concat]. rewrite <- app_assoc. cbn [app].
    unfold zlen in *. cbn [List.length] in Hpre.
    rewrite take_char_line by (done || (unfold zlen; cbn; lia)). rewrite IH by (rewrite length_app; cbn; lia).
    by rewrite <- app_assoc. }
  rewrite (H []) by (unfold zlen in *; cbn; lia). done.
Qed.

(** A file of up to 47 chunks is read whole. *)
Lemma read_content_all file : zlen file <= 24064 -> read_content file = file.
Proof.
  intros Hlen. unfold read_content, content_size. change (MAX_LINES * (MAX_LINE_LEN + 1)) with 24200.
  pose proof (zlen_nonneg file).
  assert (Htake : forall t, zlen file <= t -> take (Z.to_nat t) file = file).
  { intros t Ht. apply take_ge. unfold zlen in *. lia. }
  apply (for_range_cases 0 24200 _ 0 (fun i t => i <= t /\ 0 <= t /\ (zlen file <= t \/ exists k, t = 512 * k))).
  - lia.
  - split_and!; [lia|lia|right; by exists 0].
  - intros i t Hi (Hit & Ht0 & Ht). destruct (t + 512 <=? 24200) eqn:E; bool_prop.
    + destruct (_ >? 0) eqn:En; bool_prop; [|apply Htake; lia].
      split; [lia|]. split; [lia|]. destruct Ht as [Ht|[k ->]]; [lia|].
      destruct (decide (zlen file <= 512 * k + 512)); [left; lia|right]. exists (k + 1). lia.
    + apply Htake. destruct Ht as [Ht|[k ->]]; lia.
  - intros t (Hit & _ & Ht). apply Htake. lia.
Qed.

(** * Every script ends *)

(** The lines still to be typed. *)
Fixpoint newlines (inp : list Z) : Z :=
  match inp with
  | [] => 0
  | c :: inp => (if c =? c_nl then 1 else 0) + newlines inp
  end.

Definition is_input (line : list Z) : bool := str_starts_with (skip_ws line) (text "input ").

(** What is left to be typed after a statement, which returns. *)
Definition reads (k : Z) (st : state) (r : result (state * next)) : Prop :=
  match r with
  | Val (st', _) => newlines (st_in st) - k <= newlines (st_in st')
  | Fault => True
  | OutOfFuel => False
  end.

Lemma newlines_nonneg inp : 0 <= newlines inp.
Proof. induction inp as [|c inp IH]; simpl; [lia|]. destruct (c =? c_nl); lia. Qed.

Lemma read_line_returns inp buf out m :
  0 < newlines inp ->
  exists b inp' o, read_line_stdin inp buf out m = Val (b, inp', o) /\ newlines inp' = newlines inp - 1.
Proof.
  revert buf out. induction inp as [|c inp IH]; intros buf out Hn; simpl in Hn |- *; [lia|].
  destruct (c =? c_nl); [do 3 eexists; split; [reflexivity|lia]|].
  assert (Hnext : forall b o, exists b' inp' o', read_line_stdin inp b o m = Val (b', inp', o') /\ newlines inp' = 0 + newlines inp - 1).
  { intros b o. destruct (IH b o ltac:(lia)) as (b' & i' & o' & H1 & H2). exists b', i', o'. split; [done|lia]. }
  destruct (c =? c_bs); [destruct (0 <? zlen buf)|destruct (_ <? m)]; apply Hnext.
Qed.

Lemma reads_parse k st s (f : Z * list Z -> result (state * next)) vars :
  (forall v s', reads k st (f (v, s'))) -> reads k st (parse vars s ≫= f).
Proof.
  intros Hf. pose proof (parse_total vars s) as Ht. destruct (parse vars s) as [[v s']| |]; [apply Hf|done..].
Qed.

Lemma reads_set k st vars name v (f : list var_t -> result (state * next)) :
  (forall vars', reads k st (f vars')) -> reads k st (var_set vars name v ≫= f).
Proof. intros Hf. unfold var_set. destruct (var_find vars name); [apply Hf|]. destruct (_ >=? _); [done|apply Hf]. Qed.

Lemma reads_kept st st' nx : st_in st' = st_in st -> reads 0 st (Val (st', nx)).
Proof. cbn. intros ->. lia. Qed.

Lemma exec_input_reads st s ln : 0 < newlines (st_in st) -> reads 1 st (exec_input st s ln).
Proof.
  intros Hn. unfold exec_input. destruct (read_ident _) as [name s1]. destruct (_ =? 0); [cbn; lia|].
  destruct (read_line_returns (st_in st) [] [] 32 Hn) as (b & i & o & -> & Hi). cbn [mbind result_bind].
  apply reads_parse. intros v s'. apply reads_set. intros vars'. cbn. lia.
Qed.

Lemma exec_line_reads st line ln :
  is_input line = false \/ 0 < newlines (st_in st) ->
  reads (if is_input line then 1 else 0) st (exec_line st line ln).
Proof.
  intros Hin. assert (Hk : forall r, reads 0 st r -> reads (if is_input line then 1 else 0) st r).
  { intros r. unfold reads. destruct r as [[st' nx]| |]; [destruct (is_input line); lia|done..]. }
  unfold exec_line. destruct (_ || _); [by apply Hk, reads_kept|].
  destruct (str_starts_with _ (text "let ")).
  { apply Hk. unfold exec_let. destruct (read_ident _) as [name s]. destruct (_ =? 0); [by apply reads_kept|].
    destruct (negb _); [by apply reads_kept|]. apply reads_parse. intros v s'. apply reads_set. intros vars'. by apply reads_kept. }
  destruct (str_starts_with _ (text "print ")).
  { apply Hk. unfold exec_print. destruct (_ =? _); [by apply reads_kept|]. apply reads_parse. intros v s'. by apply reads_kept. }
  fold (is_input line). destruct (is_input line) eqn:Ei.
  { destruct Hin as [?|Hin]; [done|]. by apply exec_input_reads. }
  destruct (str_starts_with _ (text "if ")).
  { unfold exec_if. apply reads_parse. intros v s. destruct (read_cmp_op s) as [op s1]. apply reads_parse. intros u s2.
    destruct (negb _); by apply reads_kept. }
  destruct (str_starts_with _ (text "goto ")); [cbn; lia|]. destruct (str_eq _ _); [cbn; lia|by apply reads_kept].
Qed.

(** The input suffices: no statement reads any, or there is a line per step. *)
Definition input_suffices (lines : list (list Z)) (inp : list Z) (steps : Z) : Prop :=
  Forall (fun l => is_input l = false) lines \/ steps <= newlines inp.

Lemma run_script_returns lines st :
  input_suffices lines (st_in st) STEP_LIMIT -> run_script lines st <> OutOfFuel.
Proof.
  intros Hin. unfold run_script.
  while_pos_inv 2000001
    (fun m '((st, pc, steps) : state * Z * Z) => m = 2000001 - steps /\ 0 <= steps /\
      input_suffices lines (st_in st) (STEP_LIMIT - steps))
    (fun r => r <> @OutOfFuel state).
  - split_and!; [lia|lia|]. by rewrite Z.sub_0_r.
  - unfold STEP_FUEL. lia.
  - clear st Hin. intros m [[st pc] steps] Hm (-> & Hst & Hin).
    destruct (_ && _) eqn:Epc; [|done]. bool_prop. destruct (steps + 1 >? STEP_LIMIT) eqn:El; [done|].
    unfold STEP_LIMIT in *. bool_prop.
    assert (Hl : is_input lines.[pc] = false \/ 0 < newlines (st_in st)).
    { destruct Hin as [Hf|Hn]; [left|right; lia]. rewrite Forall_elem in Hf. apply Hf.
      by eapply list_elem_of_lookup_2, aget_lookup. }
    pose proof (exec_line_reads st lines.[pc] (pc + 1) Hl) as Hr.
    destruct (exec_line st lines.[pc] (pc + 1)) as [[st' nx]| |]; cbn [reads] in Hr; [|done..].
    assert (Hin' : input_suffices lines (st_in st') (2000000 - (steps + 1))).
    { destruct Hin as [Hf|Hn]; [by left|right]. destruct (is_input _); lia. }
    destruct nx as [|j|]; [| |done]; (exists (2000001 - (steps + 1)); split; [lia|]; split_and!; [lia|lia|done]).
  - destruct Hloop as (r & -> & Hq). exact Hq.
Qed.

(** * Properties *)

(** C22: A script file does what its statements say: the file of a script of at most
    200 lines of at most 120 characters and at most 24064 bytes in all (of a longer
    file, as 200 full lines are, the program reads the first 24064 bytes only), each
    line a statement of the language, when its statements lead from the empty
    environment to an end within the step limit, is loaded and run by the program to
    exactly that end, with status 0 and the output, the variables and the unread input
    the statements give. *)
Theorem lang_script_correct prog lines arg argv_len open inp w' n
    (Hs : Forall2 stmt_syntax prog lines) (Hf : fits lines) (Hsize : zlen (file_of lines) <= 24064)
    (Hname : script_name arg argv_len <> []) (Hopen : open (script_name arg argv_len) = Some (file_of lines))
    (Hrun : runs prog n 1 (mk_world ∅ [] inp) w') (Hn : n <= STEP_LIMIT) :
  exists st', start arg argv_len open inp = Val (0, st') /\ represents st' w'.
Proof.
  unfold start. replace (zlen (script_name arg argv_len) =? 0) with false by (by destruct (script_name _ _)).
  rewrite Hopen, (read_content_all _ Hsize), (split_lines_file lines Hf).
  destruct (run_script_spec prog lines (mk_state [] [] inp) (mk_world ∅ [] inp) w' n Hs (proj1 Hf)) as (st' & -> & Hr); [|done|done|by exists st'].
  split; [|done..]. split; [done|constructor..].
Qed.

(** [let x = 2], [print x], [end]. *)
Definition demo_prog : list stmt := [Let (text "x") (Num 2); Print (Var (text "x")); Stop].
Definition demo_lines : list (list Z) := [text "let x = 2"; text "print x"; text "end"].

Lemma demo_lines_syntax : Forall2 stmt_syntax demo_prog demo_lines.
Proof.
  assert (Hsp : blanks (text " ")) by (constructor; [by left|constructor]).
  assert (H0 : blanks []) by constructor.
  assert (Hx : ident (text "x")) by (split; [done|repeat constructor]).
  constructor; [|constructor; [|constructor; [|constructor]]].
  - apply (st_let [] [] (text " ") [] (text "x") (Num 2) (text " 2")); try done. do 2 apply syn_up.
    change 2 with (spelled (text "2")). apply (syn_num (text " ")); [done|]. split; [done|repeat constructor].
  - apply (st_print [] [] (Var (text "x")) (text "x")); try done. do 2 apply syn_up. by apply (syn_var []).
  - by apply (st_end []).
Qed.

Lemma lang_script_correct_witness :
  exists st', start (text "a.l") 3 (fun f => if str_eq f (text "a.l") then Some (file_of demo_lines) else None) [] = Val (0, st') /\
    st_out st' = text "2" ++ [c_nl].
Proof.
  destruct (lang_script_correct demo_prog demo_lines (text "a.l") 3
    (fun f => if str_eq f (text "a.l") then Some (file_of demo_lines) else None) []
    (emit (mk_world {[text "x" := 2]} [] []) (print_int 2 ++ [c_nl])) 3 demo_lines_syntax) as (st' & H1 & H2).
  - split; [vm_compute; discriminate|]. repeat constructor; vm_compute; discriminate.
  - vm_compute. discriminate.
  - vm_compute. discriminate.
  - vm_compute. reflexivity.
  - apply (run_next demo_prog 2 1 (Let (text "x") (Num 2)) (mk_world ∅ [] []) (mk_world {[text "x" := 2]} [] [])); [done| |].
    { apply (ex_let (mk_world ∅ [] []) (text "x") (Num 2) 2); [done|]. right. done. }
    apply (run_next demo_prog 1 2 (Print (Var (text "x"))) _ (emit (mk_world {[text "x" := 2]} [] []) (print_int 2 ++ [c_nl]))); [done| |].
    { apply (ex_print (mk_world {[text "x" := 2]} [] []) (Var (text "x")) 2). vm_compute. reflexivity. }
    apply (run_stop demo_prog 3 Stop); [done|apply ex_stop].
  - discriminate.
  - exists st'. split; [exact H1|]. rewrite (rp_out _ _ H2). vm_compute. reflexivity.
Defined.

(** C24: Every script comes to an end, whatever its lines are (syntax errors, endless
    loops): as long as its [input] lines find something typed to read, the run stops
    within the step limit, having finished, given up, or faulted. *)
Theorem lang_run_terminates lines st (Hin : input_suffices lines (st_in st) STEP_LIMIT) :
  run_script lines st <> OutOfFuel.
Proof. by apply run_script_returns. Qed.

Lemma lang_run_terminates_witness :
  run_script [text "print 1"; text "goto 1"] (mk_state [] [] []) <> OutOfFuel.
Proof.
  apply (lang_run_terminates [text "print 1"; text "goto 1"] (mk_state [] [] [])).
  left. repeat constructor.
Defined.

(** * Where the interpreter stops on a fault *)

(** The 33rd variable of a script: [*var_ref(name, 1)] stores through a null pointer. *)
Definition full_table : list var_t := (fun i => mk_var (text "v" ++ print_int (Z.of_nat i)) 0) <$> seq 0 32.

Lemma lang_variable_33_faults :
  exec_line (mk_state full_table [] []) (text "let y = 1") 1 = Fault.
Proof. vm_compute. reflexivity. Qed.

(** The least integer divided by -1 traps. *)
Lemma lang_min_by_minus_one_faults vars :
  vars_ok vars -> parse vars (print_int (-9223372036854775808) ++ text "/-1") = Fault.
Proof.
  intros Hok. pose proof (parse_spec vars
    (Bin Div (printed (-9223372036854775808)) (Neg (Num 1)))
    (print_int (-9223372036854775808) ++ text "/-1") [] Hok) as H.
  rewrite app_nil_r in H. rewrite H; [vm_compute; reflexivity| |apply follows_nil].
  apply syn_up. apply (syn_op Div (printed (-9223372036854775808)) (Neg (Num 1)) [] (print_int (-9223372036854775808)) (text "-1")); [constructor| |].
  - apply syn_up. change (-9223372036854775808) with (- (9223372036854775808)). 
    apply (syn_neg [] (Num 9223372036854775808) (text "9223372036854775808")); [constructor|].
    change 9223372036854775808 with (spelled (text "9223372036854775808")).
    apply (syn_num [] (text "9223372036854775808")); [constructor|]. split; [done|repeat constructor].
  - apply (syn_neg [] (Num 1) (text "1")); [constructor|].
    change 1 with (spelled (text "1")). apply (syn_num []); [constructor|]. split; [done|repeat constructor].
Qed.
