(* ===== verification/Trap.v ===== *)
(** Segments, gates and traps: [kernel/arch/x86_64/gdt.c], [idt.c], [irq.c],
    [exceptions.c], [kernel/core/panic.c] and [kernel/drivers/timer.c]. *)
From S2P Require Import Prelude CString Ports.
From Stdlib Require Import String Ascii.

Open Scope Z_scope.
Open Scope list_scope.

(** * Descriptors in memory

    A packed structure is the list of its bytes, little-endian fields in order. *)

Fixpoint le (n : nat) (v : Z) : list Z :=
  match n with O => [] | S n => v mod 256 :: le n (v / 256) end.

(** The processor's reading of [n] bytes at [off]. *)
Fixpoint rd (l : list Z) (off : Z) (n : nat) : Z :=
  match n with O => 0 | S n => l.[off] + 256 * rd l (off + 1) n end.

(** ** [gdt.c] *)

Definition GDT_KERNEL_CODE : Z := 0x08.
Definition GDT_KERNEL_DATA : Z := 0x10.
Definition GDT_USER_CODE : Z := 0x18.
Definition GDT_USER_DATA : Z := 0x20.
Definition GDT_TSS : Z := 0x28.

Record gdt_entry_t := mk_gdt_entry {
  ge_limit_low : Z; ge_base_low : Z; ge_base_mid : Z; ge_access : Z; ge_granularity : Z; ge_base_high : Z
}.

Definition gdt_entry_bytes (e : gdt_entry_t) : list Z :=
  le 2 (ge_limit_low e) ++ le 2 (ge_base_low e) ++ le 1 (ge_base_mid e) ++ le 1 (ge_access e) ++
  le 1 (ge_granularity e) ++ le 1 (ge_base_high e).

Record tss_descriptor_t := mk_tss_desc { td_low : gdt_entry_t; td_base_upper : Z; td_reserved : Z }.

Definition tss_descriptor_bytes (d : tss_descriptor_t) : list Z :=
  gdt_entry_bytes (td_low d) ++ le 4 (td_base_upper d) ++ le 4 (td_reserved d).

Definition set_entry (access granularity : Z) : gdt_entry_t := mk_gdt_entry 0 0 0 access granularity 0.

Definition set_tss_descriptor (base limit : Z) : tss_descriptor_t :=
  mk_tss_desc
    (mk_gdt_entry (u16 (Z.land limit 0xFFFF)) (u16 (Z.land base 0xFFFF))
       (u8 (Z.land (Z.shiftr base 16) 0xFF)) 0x89 (u8 (Z.land (Z.shiftr limit 16) 0x0F))
       (u8 (Z.land (Z.shiftr base 24) 0xFF)))
    (u32 (Z.land (Z.shiftr base 32) 0xFFFFFFFF)) 0.

Record gdt_t := mk_gdt {
  null_entry : gdt_entry_t; kernel_code : gdt_entry_t; kernel_data : gdt_entry_t;
  user_code : gdt_entry_t; user_data : gdt_entry_t; gdt_tss : tss_descriptor_t
}.

Definition gdt_bytes (g : gdt_t) : list Z :=
  gdt_entry_bytes (null_entry g) ++ gdt_entry_bytes (kernel_code g) ++ gdt_entry_bytes (kernel_data g) ++
  gdt_entry_bytes (user_code g) ++ gdt_entry_bytes (user_data g) ++ tss_descriptor_bytes (gdt_tss g).

(** The task state segment.  [gdt_init] clears it, and only these two fields are ever
    written: the others are the zero bytes around them. *)
Record tss_t := mk_tss { rsp0 : Z; iopb_offset : Z }.

Definition tss_bytes (t : tss_t) : list Z :=
  le 4 0 ++ le 8 (rsp0 t) ++ replicate 90 0 ++ le 2 (iopb_offset t).

Definition SIZEOF_TSS : Z := 104.

Definition tss_set_kernel_stack (t : tss_t) (sp : Z) : tss_t := mk_tss sp (iopb_offset t).

(** The table, the segment, and what [lgdt] and [ltr] load. *)
Record gdt_state := mk_gdt_state {
  gs_gdt : gdt_t; gs_tss : tss_t; gdt_limit : Z; gdt_base : Z; task_register : Z
}.

Definition gdt_init (gdt_addr tss_addr : Z) : gdt_state :=
  let g := mk_gdt (set_entry 0x00 0x00) (set_entry 0x9A 0xAF) (set_entry 0x92 0xA0)
             (set_entry 0xFA 0xAF) (set_entry 0xF2 0xA0) (set_tss_descriptor tss_addr (SIZEOF_TSS - 1)) in
  mk_gdt_state g (mk_tss 0 SIZEOF_TSS) (zlen (gdt_bytes g) - 1) gdt_addr GDT_TSS.

(** ** [idt.c] *)

Record idt_entry_t := mk_gate {
  offset_low : Z; selector : Z; ist : Z; type_attr : Z; offset_mid : Z; offset_high : Z; gate_zero : Z
}.

Definition empty_gate : idt_entry_t := mk_gate 0 0 0 0 0 0 0.
#[export] Instance gate_inhabited : Inhabited idt_entry_t := populate empty_gate.

Definition gate_bytes (g : idt_entry_t) : list Z :=
  le 2 (offset_low g) ++ le 2 (selector g) ++ le 1 (ist g) ++ le 1 (type_attr g) ++
  le 2 (offset_mid g) ++ le 4 (offset_high g) ++ le 4 (gate_zero g).

Definition IDT_ENTRIES : Z := 256.
Definition IDT_GATE_INTERRUPT : Z := 0x8E.
Definition IDT_GATE_INTERRUPT_DPL3 : Z := 0xEE.

Definition idt_set_gate_attr (idt : list idt_entry_t) (n handler attr : Z) : list idt_entry_t :=
  idt.[n <- mk_gate (u16 (Z.land handler 0xFFFF)) GDT_KERNEL_CODE 0 attr
            (u16 (Z.land (Z.shiftr handler 16) 0xFFFF)) (u32 (Z.land (Z.shiftr handler 32) 0xFFFFFFFF)) 0].

Definition idt_set_gate (idt : list idt_entry_t) (n handler : Z) : list idt_entry_t :=
  idt_set_gate_attr idt n handler IDT_GATE_INTERRUPT.

(** [isr n] and [irq n] are the addresses of the stubs; the table and its limit. *)
Definition idt_init (isr irq : Z -> Z) : list idt_entry_t * Z :=
  let idt := for_each 0 32 (fun n idt => idt_set_gate idt n (isr n)) (replicate 256 empty_gate) in
  let idt := idt_set_gate idt 32 (irq 0) in
  let idt := idt_set_gate idt 33 (irq 1) in
  let idt := idt_set_gate_attr idt 128 (isr 128) IDT_GATE_INTERRUPT_DPL3 in
  (idt, 16 * IDT_ENTRIES - 1).

(** ** What the processor makes of them (Intel SDM vol. 3, 3.4.5, 6.14, 7.2.3) *)

(** A gate: where it leads, the segment, the type, the privilege, present. *)
Definition gate_target (b : list Z) : Z := rd b 0 2 + 65536 * rd b 6 2 + 4294967296 * rd b 8 4.
Definition gate_segment (b : list Z) : Z := rd b 2 2.
Definition gate_type (b : list Z) : Z := rd b 5 1 mod 16.
Definition gate_dpl (b : list Z) : Z := rd b 5 1 / 32 mod 4.
Definition gate_present (b : list Z) : bool := rd b 5 1 / 128 =? 1.

(** Whether [int n] at privilege [cpl] passes the gate; else a protection fault. *)
Definition int_allowed (b : list Z) (cpl : Z) : bool := gate_present b && (cpl <=? gate_dpl b).

(** A segment descriptor. *)
Definition seg_base (b : list Z) : Z := rd b 2 3 + 16777216 * rd b 7 1.
Definition seg_limit (b : list Z) : Z := rd b 0 2 + 65536 * (rd b 6 1 mod 16).
Definition seg_type (b : list Z) : Z := rd b 5 1 mod 16.
Definition seg_s (b : list Z) : bool := rd b 5 1 / 16 mod 2 =? 1.
Definition seg_dpl (b : list Z) : Z := rd b 5 1 / 32 mod 4.
Definition seg_present (b : list Z) : bool := rd b 5 1 / 128 =? 1.
Definition seg_long (b : list Z) : bool := rd b 6 1 / 32 mod 2 =? 1.
Definition seg_db (b : list Z) : bool := rd b 6 1 / 64 mod 2 =? 1.

(** The upper half of a system descriptor. *)
Definition sys_base (b : list Z) : Z := seg_base b + 4294967296 * rd b 8 4.

(** The descriptor that a selector names in a table. *)
Definition descriptor (table : list Z) (sel : Z) : list Z := drop (Z.to_nat (sel / 8 * 8)) table.

Lemma rd_le n pre v post : rd (pre ++ le n v ++ post) (zlen pre) n = v mod 256 ^ Z.of_nat n.
Proof.
  revert pre v. induction n as [|n IH]; intros pre v; cbn [rd le]; [symmetry; apply Z.mod_1_r|].
  cbn [app]. replace ((pre ++ v mod 256 :: le n (v / 256) ++ post).[zlen pre]) with (v mod 256).
  2: { unfold zlen. rewrite Nat2Z.id. by rewrite list_lookup_total_middle. }
  replace (zlen pre + 1) with (zlen (pre ++ [v mod 256])) by (unfold zlen; rewrite length_app; cbn; lia).
  replace (pre ++ v mod 256 :: le n (v / 256) ++ post) with ((pre ++ [v mod 256]) ++ le n (v / 256) ++ post)
    by by rewrite <- app_assoc.
  rewrite IH, Nat2Z.inj_succ, Z.pow_succ_r by lia.
  rewrite Z.rem_mul_r by (try apply Z.pow_nonzero; lia). lia.
Qed.

(** A field that fits is read as it was written. *)
Lemma rd_field l n pre v post off :
  l = pre ++ le n v ++ post -> off = zlen pre -> 0 <= v < 256 ^ Z.of_nat n -> rd l off n = v.
Proof. intros -> -> Hv. rewrite rd_le. by apply Z.mod_small. Qed.

Lemma le_length n v : zlen (le n v) = Z.of_nat n.
Proof. revert v. induction n as [|n IH]; intros v; [done|]. specialize (IH (v / 256)). unfold zlen in *. cbn [le List.length]. lia. Qed.

Record gate_fits (g : idt_entry_t) : Prop := {
  gf_low : 0 <= offset_low g < 65536;
  gf_sel : 0 <= selector g < 65536;
  gf_ist : 0 <= ist g < 256;
  gf_attr : 0 <= type_attr g < 256;
  gf_mid : 0 <= offset_mid g < 65536;
  gf_high : 0 <= offset_high g < 4294967296;
}.

Lemma gate_fields g :
  gate_fits g ->
  rd (gate_bytes g) 0 2 = offset_low g /\ rd (gate_bytes g) 2 2 = selector g /\
  rd (gate_bytes g) 5 1 = type_attr g /\ rd (gate_bytes g) 6 2 = offset_mid g /\ rd (gate_bytes g) 8 4 = offset_high g.
Proof.
  intros []. unfold gate_bytes. split_and!.
  - by apply (rd_field _ 2 [] _ (le 2 (selector g) ++ le 1 (ist g) ++ le 1 (type_attr g) ++ le 2 (offset_mid g) ++
      le 4 (offset_high g) ++ le 4 (gate_zero g))).
  - by apply (rd_field _ 2 (le 2 (offset_low g)) _ (le 1 (ist g) ++ le 1 (type_attr g) ++ le 2 (offset_mid g) ++
      le 4 (offset_high g) ++ le 4 (gate_zero g))).
  - apply (rd_field _ 1 (le 2 (offset_low g) ++ le 2 (selector g) ++ le 1 (ist g)) _ (le 2 (offset_mid g) ++
      le 4 (offset_high g) ++ le 4 (gate_zero g))); [by rewrite <- !app_assoc|done|done].
  - apply (rd_field _ 2 (le 2 (offset_low g) ++ le 2 (selector g) ++ le 1 (ist g) ++ le 1 (type_attr g)) _
      (le 4 (offset_high g) ++ le 4 (gate_zero g))); [by rewrite <- !app_assoc|done|done].
  - apply (rd_field _ 4 (le 2 (offset_low g) ++ le 2 (selector g) ++ le 1 (ist g) ++ le 1 (type_attr g) ++ le 2 (offset_mid g)) _
      (le 4 (gate_zero g))); [by rewrite <- !app_assoc|done|done].
Qed.

Lemma gate_bytes_length g : zlen (gate_bytes g) = 16.
Proof. done. Qed.

(** The gate that [idt_set_gate_attr] writes. *)
Definition gate_for (handler attr : Z) : idt_entry_t :=
  mk_gate (u16 (Z.land handler 0xFFFF)) GDT_KERNEL_CODE 0 attr
    (u16 (Z.land (Z.shiftr handler 16) 0xFFFF)) (u32 (Z.land (Z.shiftr handler 32) 0xFFFFFFFF)) 0.

Lemma low_bits x k j : 0 <= k -> 0 <= j -> Z.land (Z.shiftr x j) (Z.ones k) = x / 2 ^ j mod 2 ^ k.
Proof. intros Hk Hj. by rewrite Z.land_ones, Z.shiftr_div_pow2 by done. Qed.

Lemma gate_for_fields handler attr :
  0 <= handler < 18446744073709551616 -> 0 <= attr < 256 ->
  gate_fits (gate_for handler attr) /\
  offset_low (gate_for handler attr) = handler mod 65536 /\
  offset_mid (gate_for handler attr) = handler / 65536 mod 65536 /\
  offset_high (gate_for handler attr) = handler / 4294967296.
Proof.
  intros Hh Ha. unfold gate_for. cbn [offset_low offset_mid offset_high].
  change 0xFFFF with (Z.ones 16). change 0xFFFFFFFF with (Z.ones 32).
  rewrite <- (Z.shiftr_0_r handler) at 1 4. rewrite !low_bits by lia.
  change (2 ^ 0) with 1. change (2 ^ 16) with 65536. change (2 ^ 32) with 4294967296. rewrite Z.div_1_r.
  assert (H32 : handler / 4294967296 mod 4294967296 = handler / 4294967296) by (apply Z.mod_small; div_lia).
  rewrite H32. rewrite !u16_small, u32_small by (div_lia || apply Z.mod_pos_bound; lia).
  split; [|done]. split; cbn; try done; try (apply Z.mod_pos_bound; lia). div_lia.
Qed.

(** The processor finds in it what was put there. *)
Lemma gate_for_decodes handler attr :
  0 <= handler < 18446744073709551616 -> 0 <= attr < 256 ->
  let b := gate_bytes (gate_for handler attr) in
  gate_target b = handler /\ gate_segment b = GDT_KERNEL_CODE /\ rd b 5 1 = attr.
Proof.
  intros Hh Ha b. destruct (gate_for_fields handler attr Hh Ha) as (Hf & H1 & H2 & H3).
  destruct (gate_fields _ Hf) as (F1 & F2 & F3 & F4 & F5). unfold gate_target, gate_segment. unfold b.
  rewrite F1, F2, F3, F4, F5, H1, H2, H3. split_and!; [div_lia|done|done].
Qed.

(** The stub of each vector in use. *)
Definition stub (isr irq : Z -> Z) (n : Z) : Z := if (n =? 32) || (n =? 33) then irq (n - 32) else isr n.
Definition in_use (n : Z) : bool := (n <? 34) || (n =? 128).
Definition gate_attr (n : Z) : Z := if n =? 128 then IDT_GATE_INTERRUPT_DPL3 else IDT_GATE_INTERRUPT.

Lemma idt_init_get isr irq n :
  0 <= n < 256 -> (idt_init isr irq).1.[n] = if in_use n then gate_for (stub isr irq n) (gate_attr n) else empty_gate.
Proof.
  intros Hn. unfold idt_init. cbn [fst].
  set (t0 := for_each 0 32 _ _). assert (H0 : zlen t0 = 256 /\ forall i, 0 <= i < 256 ->
    t0.[i] = if i <? 32 then gate_for (isr i) IDT_GATE_INTERRUPT else empty_gate).
  { apply (for_each_inv 0 32 _ (replicate 256 empty_gate) (fun k t => zlen t = 256 /\ forall i, 0 <= i < 256 ->
      t.[i] = if i <? k then gate_for (isr i) IDT_GATE_INTERRUPT else empty_gate)); [lia| |].
    - split; [done|]. intros i Hi. replace (i <? 0) with false by lia. by apply lookup_total_replicate_2; lia.
    - intros k t Hk [Hl Hg]. unfold idt_set_gate, idt_set_gate_attr. fold (gate_for (isr k) IDT_GATE_INTERRUPT).
      split; [by rewrite aset_length|]. intros i Hi. rewrite aget_aset_cases, Hg by lia.
      destruct (decide (k = i)) as [->|]; [by replace (i <? i + 1) with true by lia|].
      destruct (i <? k) eqn:E1, (i <? k + 1) eqn:E2; bool_prop; try lia; done. }
  destruct H0 as [Hl Hg]. unfold idt_set_gate, idt_set_gate_attr.
  fold (gate_for (irq 0) IDT_GATE_INTERRUPT). fold (gate_for (irq 1) IDT_GATE_INTERRUPT).
  fold (gate_for (isr 128) IDT_GATE_INTERRUPT_DPL3).
  rewrite !aget_aset_cases by (rewrite ?aset_length; lia). rewrite Hg by done. unfold in_use, stub, gate_attr.
  repeat case_decide; subst; try done.
  replace (n =? 32) with false by lia. replace (n =? 33) with false by lia. replace (n =? 128) with false by lia.
  rewrite orb_false_r. destruct (n <? 32) eqn:E1, (n <? 34) eqn:E2; bool_prop; try lia; done.
Qed.

Lemma rd_app l off n m :
  rd l off (n + m) = rd l off n + 256 ^ Z.of_nat n * rd l (off + Z.of_nat n) m.
Proof.
  revert off. induction n as [|n IH]; intros off; cbn [Nat.add rd].
  - rewrite Z.add_0_r. change (256 ^ Z.of_nat 0) with 1. lia.
  - rewrite IH, Nat2Z.inj_succ, Z.pow_succ_r by lia. replace (off + 1 + Z.of_nat n) with (off + Z.succ (Z.of_nat n)) by lia. lia.
Qed.

(** The fields of the task state segment's descriptor. *)
Lemma tss_fields base limit :
  0 <= base < 18446744073709551616 -> 0 <= limit < 1048576 ->
  let d := set_tss_descriptor base limit in
  ge_limit_low (td_low d) = limit mod 65536 /\ ge_base_low (td_low d) = base mod 65536 /\
  ge_base_mid (td_low d) = base / 65536 mod 256 /\ ge_granularity (td_low d) = limit / 65536 /\
  ge_base_high (td_low d) = base / 16777216 mod 256 /\ td_base_upper d = base / 4294967296.
Proof.
  intros Hb Hl. cbn.
  assert (Hmask : forall x k, 0 <= k -> Z.land x (Z.ones k) = x mod 2 ^ k) by (intros; by apply Z.land_ones).
  split_and!.
  - change 65535 with (Z.ones 16). rewrite Hmask by lia. apply u16_small. change (2 ^ 16) with 65536. div_lia.
  - change 65535 with (Z.ones 16). rewrite Hmask by lia. apply u16_small. change (2 ^ 16) with 65536. div_lia.
  - change 255 with (Z.ones 8). rewrite low_bits by lia. apply u8_small. change (2 ^ 8) with 256. div_lia.
  - change 15 with (Z.ones 4). rewrite low_bits by lia. change (2 ^ 4) with 16. change (2 ^ 16) with 65536.
    rewrite u8_small by div_lia. apply Z.mod_small. div_lia.
  - change 255 with (Z.ones 8). rewrite low_bits by lia. apply u8_small. change (2 ^ 8) with 256. div_lia.
  - change 4294967295 with (Z.ones 32). rewrite low_bits by lia. change (2 ^ 32) with 4294967296.
    rewrite u32_small by div_lia. apply Z.mod_small. div_lia.
Qed.

(** Its bytes give the address and the size back. *)
Lemma tss_descriptor_decodes base limit :
  0 <= base < 18446744073709551616 -> 0 <= limit < 1048576 ->
  let b := tss_descriptor_bytes (set_tss_descriptor base limit) in
  sys_base b = base /\ seg_limit b = limit /\ rd b 5 1 = 0x89.
Proof.
  intros Hb Hl b. destruct (tss_fields base limit Hb Hl) as (F1 & F2 & F3 & F4 & F5 & F6).
  set (d := set_tss_descriptor base limit) in *. set (e := td_low d) in *.
  assert (R1 : rd b 0 2 = limit mod 65536).
  { rewrite <- F1. by apply (rd_field _ 2 [] _ (le 2 (ge_base_low e) ++ le 1 (ge_base_mid e) ++ le 1 (ge_access e) ++
      le 1 (ge_granularity e) ++ le 1 (ge_base_high e) ++ le 4 (td_base_upper d) ++ le 4 (td_reserved d)));
      [..|rewrite F1; apply Z.mod_pos_bound]. }
  assert (R2 : rd b 2 2 = base mod 65536).
  { rewrite <- F2. by apply (rd_field _ 2 (le 2 (ge_limit_low e)) _ (le 1 (ge_base_mid e) ++ le 1 (ge_access e) ++
      le 1 (ge_granularity e) ++ le 1 (ge_base_high e) ++ le 4 (td_base_upper d) ++ le 4 (td_reserved d)));
      [..|rewrite F2; apply Z.mod_pos_bound]. }
  assert (R3 : rd b 4 1 = base / 65536 mod 256).
  { rewrite <- F3. by apply (rd_field _ 1 (le 2 (ge_limit_low e) ++ le 2 (ge_base_low e)) _ (le 1 (ge_access e) ++
      le 1 (ge_granularity e) ++ le 1 (ge_base_high e) ++ le 4 (td_base_upper d) ++ le 4 (td_reserved d)));
      [..|rewrite F3; apply Z.mod_pos_bound]. }
  assert (R4 : rd b 6 1 = limit / 65536).
  { rewrite <- F4. apply (rd_field _ 1 (le 2 (ge_limit_low e) ++ le 2 (ge_base_low e) ++ le 1 (ge_base_mid e) ++ le 1 (ge_access e)) _
      (le 1 (ge_base_high e) ++ le 4 (td_base_upper d) ++ le 4 (td_reserved d))); [done|done|].
    rewrite F4. change (256 ^ Z.of_nat 1) with 256. div_lia. }
  assert (R5 : rd b 7 1 = base / 16777216 mod 256).
  { rewrite <- F5. by apply (rd_field _ 1 (le 2 (ge_limit_low e) ++ le 2 (ge_base_low e) ++ le 1 (ge_base_mid e) ++ le 1 (ge_access e) ++
      le 1 (ge_granularity e)) _ (le 4 (td_base_upper d) ++ le 4 (td_reserved d)));
      [..|rewrite F5; apply Z.mod_pos_bound]. }
  assert (R6 : rd b 8 4 = base / 4294967296).
  { rewrite <- F6. apply (rd_field _ 4 (gdt_entry_bytes e) _ (le 4 (td_reserved d))); [done|done|].
    rewrite F6. change (256 ^ Z.of_nat 4) with 4294967296. div_lia. }
  unfold sys_base, seg_base, seg_limit. change (rd b 2 3) with (rd b 2 (2 + 1)). rewrite (rd_app b 2 2 1). change (2 + Z.of_nat 2) with 4.
  change (256 ^ Z.of_nat 2) with 65536. rewrite R1, R2, R3, R4, R5, R6. split_and!; [div_lia|div_lia|done].
Qed.

(** * Traps

    What the handlers call; [K] is the state of the kernel.  [tr_page_fault] is
    [vmm_handle_page_fault], which ignores the registers; [tr_exit] is [process_exit]. *)
Class TrapEnv (K : Type) := {
  tr_page_fault : K -> Z -> bool * K;
  tr_exit : K -> Z -> K;
  tr_tid : K -> Z;
  tr_tick : K -> K;
  tr_log : K -> list Z -> K;
  tr_log_hex : K -> Z -> K;
  tr_clearwin : K -> K;
  tr_putstr : K -> list Z -> K;
  tr_putstr_at : K -> list Z -> Z -> K;
}.

(** The registers saved by the stubs, as far as they are looked at. *)
Record trap_regs := mk_trap { vector : Z; error_code : Z; rip : Z; cs : Z; rsp : Z }.

(** How a handler ends: it returns to the code that trapped, the process is gone, or
    the processor halts for good. *)
Inductive outcome (K : Type) := Resume (k : K) | Ended (k : K) | Halted (k : K).
Arguments Resume {K}.
Arguments Ended {K}.
Arguments Halted {K}.

Section traps.
Context {K : Type} `{TrapEnv K}.

Definition log_common_regs (k : K) (regs : option trap_regs) : K :=
  match regs with
  | None => k
  | Some r =>
      let k := tr_log_hex (tr_log k (text "  vector:      ")) (vector r) in
      let k := tr_log_hex (tr_log k (10 :: text "  error_code:  ")) (error_code r) in
      let k := tr_log_hex (tr_log k (10 :: text "  faulting rip:")) (rip r) in
      let k := tr_log_hex (tr_log k (10 :: text "  rsp:         ")) (rsp r) in
      tr_log k [10]
  end.

Definition fault_from_usermode (regs : option trap_regs) : bool :=
  match regs with None => false | Some r => Z.land (cs r) 3 =? 3 end.

Definition kill_faulting_process (k : K) (reason : list Z) (regs : option trap_regs) : K :=
  let k := tr_log k (10 :: text "*** user process crashed: ") in
  let k := tr_log (tr_log k reason) (text " (tid ") in
  let k := tr_log (tr_log_hex k (u64 (tr_tid k))) (text ") ***" ++ [10]) in
  tr_exit (log_common_regs k regs) (-1).

Definition kpanic (k : K) (reason : list Z) (regs : option trap_regs) : outcome K :=
  if fault_from_usermode regs then Ended (kill_faulting_process k reason regs)
  else
    let k := tr_putstr_at (tr_putstr (tr_clearwin k) (text "*** KERNEL PANIC ***")) reason 1 in
    let k := tr_log (tr_log (tr_log k (10 :: text "*** KERNEL PANIC: ")) reason) (text " ***" ++ [10]) in
    Halted (log_common_regs k regs).

Definition log_cause (k : K) (ec : Z) : K :=
  let bit x := negb (Z.land ec x =? 0) in
  let k := tr_log k (text "  cause: ") in
  let k := tr_log k (text (if bit 0x1 then "protection violation" else "page not present")) in
  let k := tr_log (tr_log k (text ", ")) (text (if bit 0x2 then "write" else "read")) in
  let k := tr_log (tr_log k (text ", ")) (text (if bit 0x4 then "user mode" else "supervisor mode")) in
  let k := if bit 0x8 then tr_log k (text ", reserved bit set in page table (corrupted entry)") else k in
  let k := if bit 0x10 then tr_log k (text ", instruction fetch") else k in
  tr_log k [10].

Definition kpanic_page_fault (k : K) (fault_addr : Z) (regs : option trap_regs) : outcome K :=
  let (resolved, k) := tr_page_fault k fault_addr in
  if resolved then Resume k
  else if fault_from_usermode regs then Ended (kill_faulting_process k (text "Page Fault") regs)
  else
    let k := tr_putstr_at (tr_putstr (tr_clearwin k) (text "*** KERNEL PANIC ***")) (text "Page Fault") 1 in
    let k := tr_log k (10 :: text "*** KERNEL PANIC: Page Fault ***" ++ [10]) in
    let k := tr_log (tr_log_hex (tr_log k (text "  fault address (CR2): ")) fault_addr) [10] in
    let k := match regs with Some r => log_cause k (error_code r) | None => k end in
    Halted (log_common_regs k regs).

Definition exception_names : list (list Z) :=
  map text
  ["Divide-by-zero"; "Debug"; "NMI"; "Breakpoint"; "Overflow"; "Bound Range Exceeded"; "Invalid Opcode";
   "Device Not Available"; "Double Fault"; "Coprocessor Overrun"; "Invalid TSS"; "Segment Not Present";
   "Stack-Segment Fault"; "General Protection Fault"; "Page Fault"; "Reserved"; "x87 Floating-Point";
   "Alignment Check"; "Machine Check"; "SIMD Floating-Point"; "Virtualization"; "Reserved"; "Reserved"; "Reserved";
   "Reserved"; "Reserved"; "Reserved"; "Reserved"; "Reserved"; "Reserved"; "Reserved"; "Reserved"]%string.

(** [cr2]: the address of the last page fault. *)
Definition isr_handler (k : K) (cr2 : Z) (regs : trap_regs) : outcome K :=
  if vector regs =? 14 then kpanic_page_fault k cr2 (Some regs)
  else
    let name := if vector regs <? 32 then exception_names.[vector regs] else text "Unknown Exception" in
    kpanic k name (Some regs).

(** ** [timer.c] *)

Definition timer_irq_handler (k : K) (ticks : Z) : K * Z :=
  let ticks := u64 (ticks + 1) in
  let k :=
    if ticks mod 100 =? 0
    then tr_log (tr_log_hex (tr_log k (text "timer: ~1s elapsed (tick=")) ticks) (text ")" ++ [10])
    else k in
  (tr_tick k, ticks).

(** A program's fault never stops the kernel: it ends the program with status -1, or
    is resolved; a fault of the kernel itself halts it, unless it is resolved. *)
Lemma isr_handler_spec k cr2 regs :
  let resolved := (vector regs =? 14) && (tr_page_fault k cr2).1 in
  match isr_handler k cr2 regs with
  | Resume k' => resolved = true /\ k' = (tr_page_fault k cr2).2
  | Ended k' => resolved = false /\ Z.land (cs regs) 3 = 3 /\ exists k1, k' = tr_exit k1 (-1)
  | Halted _ => resolved = false /\ Z.land (cs regs) 3 <> 3
  end.
Proof.
  unfold isr_handler, kpanic_page_fault, kpanic, kill_faulting_process. cbn [fault_from_usermode].
  destruct (vector regs =? 14); cbn [andb].
  - destruct (tr_page_fault k cr2) as [[|] k1]; [done|]. cbn [fst].
    destruct (Z.land (cs regs) 3 =? 3) eqn:E; bool_prop; [|done]. split; [done|]. split; [done|]. by eexists.
  - destruct (Z.land (cs regs) 3 =? 3) eqn:E; bool_prop; [|done]. split; [done|]. split; [done|]. by eexists.
Qed.
End traps.

(** ** [irq.c]

    A handler is called with the state and the registers. *)
Section irq.
Context {K D : Type} `{PortIO D}.

Definition MAX_IRQS : Z := 16.
Definition irq_handler_fn : Type := K * D -> Z -> K * D.

Definition irq_register_handler (handlers : list (option irq_handler_fn)) (irq : Z) (h : irq_handler_fn) :
    list (option irq_handler_fn) :=
  if irq <? MAX_IRQS then handlers.[irq <- Some h] else handlers.

(** The end of interrupt is sent first, so a handler may switch threads. *)
Definition irq_handler (handlers : list (option irq_handler_fn)) (s : K * D) (vec : Z) : K * D :=
  let irq := u8 (vec - 32) in
  let s := (s.1, pic_send_eoi s.2 irq) in
  if irq <? MAX_IRQS then
    match handlers.[irq] with Some h => h s vec | None => s end
  else s.

Definition timer_driver_init (handler : irq_handler_fn) (handlers : list (option irq_handler_fn)) (d : D) (frequency_hz : Z) :
    option (list (option irq_handler_fn) * D) :=
  d ← pit_init d frequency_hz;
  Some (irq_register_handler handlers 0 handler, d).
End irq.

(** * Correctness of the tables *)

Lemma zlen_gates idt : zlen (List.concat (map gate_bytes idt)) = 16 * zlen idt.
Proof.
  induction idt as [|g idt IH]; [done|]. cbn [map List.concat]. unfold zlen in *.
  rewrite length_app. cbn [List.length]. change (List.length (gate_bytes g)) with 16%nat. lia.
Qed.

Lemma set_gate_length idt n h attr : zlen (idt_set_gate_attr idt n h attr) = zlen idt.
Proof. apply aset_length. Qed.

Lemma exceptions_length isr :
  zlen (for_each 0 32 (fun n idt => idt_set_gate idt n (isr n)) (replicate 256 empty_gate)) = 256.
Proof.
  apply (for_each_inv 0 32 _ _ (fun _ t => zlen t = 256)); [lia|done|].
  intros k t Hk Ht. unfold idt_set_gate. by rewrite set_gate_length.
Qed.

Lemma stub_attr_range n : 0 <= gate_attr n < 256.
Proof. unfold gate_attr. by destruct (n =? 128). Qed.

(** C29: [idt_init] gives the processor a table of 256 gates, each of 16 bytes, as its
    limit says.  For every vector in use (the 32 exceptions, the two interrupts and the
    system call) the gate is present, an interrupt gate of the kernel's code segment that
    leads to the vector's own stub, at any 64-bit address; every other vector is not
    present.  The only vector that a program may raise itself is 128. *)
Theorem idt_gates_correct isr irq :
  (forall n, 0 <= n < 256 -> 0 <= stub isr irq n < 18446744073709551616) ->
  let (idt, limit) := idt_init isr irq in
  zlen (List.concat (map gate_bytes idt)) = limit + 1 /\
  forall n, 0 <= n < 256 ->
    let b := gate_bytes (idt.[n]) in
    gate_present b = in_use n /\
    (in_use n = true ->
      gate_target b = stub isr irq n /\ gate_segment b = GDT_KERNEL_CODE /\ gate_type b = 14) /\
    (int_allowed b 3 = true <-> n = 128).
Proof.
  intros Hs. destruct (idt_init isr irq) as [idt limit] eqn:E. split.
  { unfold idt_init in E. injection E as <- <-. unfold idt_set_gate at 1 2. rewrite zlen_gates.
    by rewrite !set_gate_length, exceptions_length. }
  intros n Hn. pose proof (idt_init_get isr irq n Hn) as Hg. rewrite E in Hg. cbn [fst] in Hg. cbv zeta. rewrite Hg.
  destruct (in_use n) eqn:Hu.
  - destruct (gate_for_decodes _ (gate_attr n) (Hs n Hn) (stub_attr_range n)) as (H1 & H2 & H3).
    unfold gate_type, int_allowed, gate_present, gate_dpl. rewrite H1, H2, H3. unfold gate_attr.
    destruct (n =? 128) eqn:E128; bool_prop; repeat split; try done; intros; lia.
  - split; [done|]. split; [done|]. unfold in_use in Hu. split; [done|]. bool_prop. lia.
Qed.

Lemma idt_gates_correct_witness :
  let isr n := 0xFFFFFFFF80000000 + 16 * n in
  let irq n := 0xFFFFFFFF80010000 + 16 * n in
  gate_target (gate_bytes ((idt_init isr irq).1.[33])) = 0xFFFFFFFF80010010.
Proof.
  set (isr := fun n => 0xFFFFFFFF80000000 + 16 * n). set (irq := fun n => 0xFFFFFFFF80010000 + 16 * n).
  assert (Hs : forall n, 0 <= n < 256 -> 0 <= stub isr irq n < 18446744073709551616).
  { intros n Hn. unfold stub, isr, irq. destruct ((n =? 32) || (n =? 33)); lia. }
  destruct (idt_gates_correct isr irq Hs) as [_ H].
  destruct (H 33 ltac:(lia)) as (_ & H2 & _). exact (proj1 (H2 eq_refl)).
Defined.

(** What a descriptor says of a segment: code or writable data, 64-bit, privilege. *)
Definition is_segment (b : list Z) (code : bool) (dpl : Z) : Prop :=
  seg_present b = true /\ seg_s b = true /\ seg_dpl b = dpl /\
  (if code then seg_type b = 10 /\ seg_long b = true /\ seg_db b = false else seg_type b = 2).

(** C30: After [gdt_init] the table is as long as the limit says, and each selector
    that the kernel uses names a descriptor of its kind: kernel code and data of
    privilege 0, program code and data of privilege 3 (code is 64-bit and readable, data
    is writable), and the task state segment, available, of its own address and size,
    which is what [ltr] loads.  In it the processor finds the kernel stack that
    [tss_set_kernel_stack] set last, and no table of ports. *)
Theorem gdt_segments_typed gdt_addr tss_addr sp :
  0 <= tss_addr < 18446744073709551616 -> 0 <= sp < 18446744073709551616 ->
  let g := gdt_init gdt_addr tss_addr in
  let table := gdt_bytes (gs_gdt g) in
  let tss := tss_bytes (tss_set_kernel_stack (gs_tss g) sp) in
  zlen table = gdt_limit g + 1 /\ gdt_base g = gdt_addr /\
  is_segment (descriptor table GDT_KERNEL_CODE) true 0 /\
  is_segment (descriptor table GDT_KERNEL_DATA) false 0 /\
  is_segment (descriptor table GDT_USER_CODE) true 3 /\
  is_segment (descriptor table GDT_USER_DATA) false 3 /\
  (let d := descriptor table (task_register g) in
   seg_present d = true /\ seg_s d = false /\ seg_dpl d = 0 /\ seg_type d = 9 /\
   sys_base d = tss_addr /\ seg_limit d + 1 = zlen tss) /\
  rd tss 4 8 = sp /\ rd tss 102 2 = zlen tss.
Proof.
  intros Ha Hsp g table tss.
  assert (Hd : descriptor table (task_register g) = tss_descriptor_bytes (set_tss_descriptor tss_addr (SIZEOF_TSS - 1))) by done.
  destruct (tss_descriptor_decodes tss_addr (SIZEOF_TSS - 1) Ha ltac:(unfold SIZEOF_TSS; lia)) as (H1 & H2 & H3).
  assert (Hlen : zlen tss = 104) by done.
  do 6 (split; [by repeat split|]). split; [|split].
  - cbv zeta. rewrite Hd. unfold seg_present, seg_s, seg_dpl, seg_type. rewrite H1, H2, H3, Hlen. by repeat split.
  - by apply (rd_field tss 8 (le 4 0) sp (replicate 90 0 ++ le 2 104)).
  - rewrite Hlen. by apply (rd_field tss 2 (le 4 0 ++ le 8 sp ++ replicate 90 0) 104 []).
Qed.

Lemma gdt_segments_typed_witness :
  let g := gdt_init 0xFFFFFFFF80020000 0xFFFFFFFF80020100 in
  sys_base (descriptor (gdt_bytes (gs_gdt g)) (task_register g)) = 0xFFFFFFFF80020100.
Proof.
  assert (Ha : 0 <= 0xFFFFFFFF80020100 < 18446744073709551616) by lia.
  assert (Hs : 0 <= 0xFFFFFFFF80200000 < 18446744073709551616) by lia.
  destruct (gdt_segments_typed 0xFFFFFFFF80020000 _ _ Ha Hs) as (_ & _ & _ & _ & _ & _ & H & _).
  exact (proj1 (proj2 (proj2 (proj2 (proj2 H))))).
Defined.
