(* ===== verification/Edit.v ===== *)
(** The line editor of [programs/edit.c], over the file calls it makes. *)
From S2P Require Import Prelude CString Lang.
From Stdlib Require Import String.

Open Scope Z_scope.
Open Scope list_scope.

(** The file calls of [programs/syscall.h]; [W] is the state of the system.  A read
    returns its result and the bytes stored. *)
Class FileCalls (W : Type) := {
  f_open : W -> list Z -> Z -> Z * W;
  f_read : W -> Z -> Z -> Z * list Z * W;
  f_write : W -> Z -> list Z -> Z * W;
  f_close : W -> Z -> W;
}.

Definition O_CREATE : Z := 1.
Definition O_PERSIST : Z := 2.
Definition O_TRUNC : Z := 4.

Definition CMD_MAX : Z := 128.
Definition TITLE_ROW : Z := 0.
Definition HINT_ROW : Z := 1.
Definition TEXT_TOP : Z := 2.

(** What the editor asks of the screen. *)
Inductive event :=
  | Out (s : list Z)
  | Cursor (row col : Z)
  | DrawRow (row : Z) (s : list Z)
  | Clear.

Section edit.
Context {W : Type} `{FileCalls W}.

Record editor := mk_editor {
  lines : list (list Z);
  line_count : Z;
  modified : bool;
  filename : list Z;
  screen_rows : Z;
  top_line : Z;
  screen : list event;
  keys : list Z;
  sys : W;
}.

Definition status_row (e : editor) : Z := screen_rows e - 2.
Definition cmd_row (e : editor) : Z := screen_rows e - 1.
Definition text_rows_visible (e : editor) : Z := status_row e - TEXT_TOP.

Definition show (e : editor) (evs : list event) : editor :=
  mk_editor (lines e) (line_count e) (modified e) (filename e) (screen_rows e) (top_line e)
    (screen e ++ evs) (keys e) (sys e).

Definition with_lines (e : editor) (ls : list (list Z)) (count : Z) : editor :=
  mk_editor ls count true (filename e) (screen_rows e) (top_line e) (screen e) (keys e) (sys e).

Definition with_top (e : editor) (top : Z) : editor :=
  mk_editor (lines e) (line_count e) (modified e) (filename e) (screen_rows e) top (screen e) (keys e) (sys e).

Definition with_keys (e : editor) (ks : list Z) : editor :=
  mk_editor (lines e) (line_count e) (modified e) (filename e) (screen_rows e) (top_line e) (screen e) ks (sys e).

Definition with_sys (e : editor) (m : bool) (w : W) : editor :=
  mk_editor (lines e) (line_count e) m (filename e) (screen_rows e) (top_line e) (screen e) (keys e) w.

(** ** Numbers *)

Definition parse_uint (s : list Z) : Z :=
  let s := skip_spaces s in
  if is_digit (peek s) then (read_number s 0).1 else -1.

Definition utoa (value min_digits : Z) : list Z :=
  let ds := decimal value in replicate (Z.to_nat (min_digits - zlen ds)) c_0 ++ ds.

(** ** The screen *)

Definition status (e : editor) (msg : list Z) : editor := show e [DrawRow (status_row e) msg].

Definition read_line (e : editor) (max_len : Z) : result (editor * list Z) :=
  '(buf, ks, echo) ← read_line_stdin (keys e) [] [] max_len;
  Val (show (with_keys e ks) [Out echo], buf).

Definition title (e : editor) : list Z :=
  text "MiniKernel editor - " ++ take 64 (cstr (filename e)) ++
  (if modified e then text " [modified]" else []).

Definition hint : list Z :=
  text "a=append  i<n> r<n> d<n>=insert/replace/delete line  g<n>=goto  w=save  q=quit  wq  q!=discard".

(** One row of text: a fault if the index is below the array. *)
Definition text_row (e : editor) (row : Z) : result event :=
  let line_index := s32 (top_line e + row) in
  if line_index <? line_count e then
    if line_index <? 0 then Fault
    else Val (DrawRow (TEXT_TOP + row) (utoa (line_index + 1) 3 ++ text "| " ++ cstr (lines e).[line_index]))
  else Val (DrawRow (TEXT_TOP + row) (text "~")).

Definition redraw (e : editor) : result editor :=
  let e := show e [DrawRow TITLE_ROW (title e); DrawRow HINT_ROW hint] in
  match for_range 0 (text_rows_visible e) (fun row evs =>
          match text_row e row with
          | Val ev => inl (evs ++ [ev])
          | _ => inr tt
          end) [] with
  | inl evs => Val (show e evs)
  | inr _ => Fault
  end.

Definition ensure_visible (e : editor) (line : Z) : editor :=
  if line <? top_line e then with_top e line
  else if line >=? s32 (top_line e + text_rows_visible e) then
    with_top e (Z.max 0 (s32 (line - text_rows_visible e + 1)))
  else e.

(** ** The file *)

(** The bytes read, while the buffer has room for a chunk. *)
Definition read_all (w : W) (fd : Z) : list Z * W :=
  match for_range 0 content_size (fun _ '(content, w) =>
          if zlen content + 512 <=? content_size then
            let '(n, bytes, w) := f_read w fd 512 in
            if n >? 0 then inl (content ++ take (Z.to_nat n) bytes, w) else inr (content, w)
          else inr (content, w)) ([], w) with
  | inl r | inr r => r
  end.

Definition load_file (e : editor) : editor :=
  let (fd, w) := f_open (sys e) (filename e) O_PERSIST in
  if fd <? 0 then
    mk_editor (lines e) 0 (modified e) (filename e) (screen_rows e) (top_line e) (screen e) (keys e) w
  else
    let (content, w) := read_all w fd in
    let ls := split_lines content in
    mk_editor (ls ++ drop (List.length ls) (lines e)) (zlen ls) (modified e) (filename e) (screen_rows e)
      (top_line e) (screen e) (keys e) (f_close w fd).

Definition save_file (e : editor) : editor :=
  let (fd, w) := f_open (sys e) (filename e) (O_CREATE + O_PERSIST + O_TRUNC) in
  let e := with_sys e (modified e) w in
  if fd <? 0 then status e (text "save failed: could not open file")
  else
    let '(total, w) := for_each 0 (line_count e) (fun i '(total, w) =>
      let line := cstr (lines e).[i] in
      let (_, w) := f_write w fd line in
      let (_, w) := f_write w fd [c_nl] in
      (total + (zlen line + 1), w)) (0, w) in
    status (with_sys e false (f_close w fd)) (text "saved (" ++ utoa total 0 ++ text " bytes)").

(** ** Commands *)

(** A command line and its prompt. *)
Definition ask (e : editor) (prompt : list Z) (max_len : Z) : result (editor * list Z) :=
  read_line (show e [Cursor (cmd_row e) 0; Out prompt]) max_len.

Definition LINE_BUF : Z := MAX_LINE_LEN + 1.

Fixpoint append_loop (fuel : nat) (e : editor) : result editor :=
  match fuel with
  | O => OutOfFuel
  | S fuel =>
      '(e, buf) ← ask e (text "+ ") LINE_BUF;
      if zlen buf <=? 0 then Val e
      else if line_count e >=? MAX_LINES then Val (status e (text "file full, can't append more lines"))
      else
        let e := with_lines e ((lines e).[line_count e <- cstr buf]) (line_count e + 1) in
        e ← redraw (ensure_visible e (line_count e - 1));
        append_loop fuel e
  end.

Definition cmd_append (e : editor) : result editor :=
  e ← redraw (status e (text "append mode: type lines, blank line to stop"));
  e ← append_loop (S (List.length (keys e))) e;
  Val (status e (text "append finished")).

Definition cmd_insert (e : editor) (at_ : Z) : result editor :=
  if (at_ <? 0) || (at_ >? line_count e) || (line_count e >=? MAX_LINES)
  then Val (status e (text "bad line number"))
  else
    '(e, buf) ← ask e (text "text> ") LINE_BUF;
    let ls := for_each 0 (line_count e - at_) (fun k ls =>
      let i := line_count e - k in ls.[i <- cstr ls.[i - 1]]) (lines e) in
    let e := with_lines e (ls.[at_ <- cstr buf]) (line_count e + 1) in
    Val (status (ensure_visible e at_) (text "inserted")).

Definition cmd_replace (e : editor) (at_ : Z) : result editor :=
  if (at_ <? 0) || (at_ >=? line_count e) then Val (status e (text "bad line number"))
  else
    '(e, buf) ← ask e (text "text> ") LINE_BUF;
    let e := with_lines e ((lines e).[at_ <- cstr buf]) (line_count e) in
    Val (status (ensure_visible e at_) (text "replaced")).

Definition cmd_delete (e : editor) (at_ : Z) : result editor :=
  if (at_ <? 0) || (at_ >=? line_count e) then Val (status e (text "bad line number"))
  else
    let ls := for_each at_ (line_count e - 1) (fun i ls => ls.[i <- cstr ls.[i + 1]]) (lines e) in
    Val (status (with_lines e ls (line_count e - 1)) (text "deleted")).

(** The line number after a command letter, counted from 0. *)
Definition numbered (e : editor) (cmd usage : list Z) (k : Z -> result editor) : result editor :=
  let n := parse_uint (tail cmd) in
  if n <? 0 then Val (status e usage) else k (s32 (s32 n - 1)).

(** Whether the editor goes on. *)
Inductive outcome := Continue (e : editor) | Redraw (e : editor) | Leave (e : editor).

Definition command (e : editor) (cmd : list Z) : result outcome :=
  if str_eq cmd (text "q") then
    if modified e
    then Val (Continue (status e (text "unsaved changes - use 'wq' to save, or 'q!' to discard")))
    else Val (Leave e)
  else if str_eq cmd (text "q!") then Val (Leave e)
  else if str_eq cmd (text "wq") then Val (Leave (save_file e))
  else
    e ← (if str_eq cmd (text "w") then Val (save_file e)
         else if str_eq cmd (text "a") then cmd_append e
         else if str_starts_with cmd (text "i") then
           numbered e cmd (text "usage: i<line number>") (cmd_insert e)
         else if str_starts_with cmd (text "r") then
           numbered e cmd (text "usage: r<line number>") (cmd_replace e)
         else if str_starts_with cmd (text "d") then
           numbered e cmd (text "usage: d<line number>") (cmd_delete e)
         else if str_starts_with cmd (text "g") then
           numbered e cmd (text "usage: g<line number>") (fun line => Val (ensure_visible e line))
         else if peek cmd =? 0 then Val e
         else Val (status e (text "unknown command (see hint row)")));
    Val (Redraw e).

Fixpoint command_loop (fuel : nat) (e : editor) : result editor :=
  match fuel with
  | O => OutOfFuel
  | S fuel =>
      '(e, cmd) ← ask e (text "cmd> ") CMD_MAX;
      next ← command e cmd;
      match next with
      | Continue e => command_loop fuel e
      | Redraw e => e ← redraw e; command_loop fuel e
      | Leave e => Val (show e [Clear; Cursor 0 0])
      end
  end.

Definition edit_start (arg : list Z) (argv_len rows : Z) (ks : list Z) (w : W) : result (Z * editor) :=
  let name := script_name arg argv_len in
  let e := mk_editor (replicate 200 []) 0 false name rows 0 [] ks w in
  if zlen name =? 0 then Val (1, show e [Out (text "usage: edit <filename>" ++ [c_nl])])
  else
    let e := status (show (load_file e) [Clear]) (text "loaded") in
    e ← redraw e;
    e ← command_loop (S (List.length (keys e))) e;
    Val (0, e).
End edit.
