(* ===== verification/EditSpec.v ===== *)
(** What the editor promises: each command edits the text as it says, a session
    does what was typed, and a text marked unmodified is on the disk. *)
From S2P Require Import Prelude CString Lang LangSpec LangRun Edit.
From Stdlib Require Import String.

Open Scope Z_scope.
Open Scope list_scope.

(** * What the file calls promise *)

(** A file system in its good days.  [fl_file w name]: the bytes of a file; [fl_at w fd]:
    the file an open descriptor reads, and its cursor; [fl_writable w name]: the caller
    may create or truncate it, and will succeed.  The laws know no limit on the length
    of a name, on the number of files or on free sectors and descriptors, and no disk
    error: a write that keeps a file within [fl_limit] bytes succeeds.  The file system
    of this kernel (names below 20 characters, 64 files, [UFS_DATA_END_LBA]) keeps them
    only while it is within those limits; what it does beyond them is in [UfsSpec] and
    [Fd], and what the programs then do is outside the theorems that assume the laws. *)
Class FileLaws (W : Type) {F : FileCalls W} := {
  fl_ok : W -> Prop;
  fl_file : W -> list Z -> option (list Z);
  fl_at : W -> Z -> option (list Z * Z);
  fl_writable : W -> list Z -> bool;
  fl_limit : Z;
  fl_open_read : forall w name, fl_ok w -> exists fd w', f_open w name O_PERSIST = (fd, w') /\ fl_ok w' /\
    (forall x, fl_file w' x = fl_file w x) /\ (forall x, fl_writable w' x = fl_writable w x) /\
    match fl_file w name with Some _ => 0 <= fd /\ fl_at w' fd = Some (name, 0) | None => fd < 0 end;
  fl_open_write : forall w name, fl_ok w -> exists fd w', f_open w name (O_CREATE + O_PERSIST + O_TRUNC) = (fd, w') /\
    fl_ok w' /\ (forall x, fl_writable w' x = fl_writable w x) /\
    if fl_writable w name then
      0 <= fd /\ fl_at w' fd = Some (name, 0) /\
      forall x, fl_file w' x = if decide (x = name) then Some [] else fl_file w x
    else fd < 0 /\ forall x, fl_file w' x = fl_file w x;
  fl_read : forall w fd name off c n, fl_ok w -> fl_at w fd = Some (name, off) -> fl_file w name = Some c ->
    0 <= off <= zlen c -> 0 <= n ->
    let bytes := take (Z.to_nat n) (drop (Z.to_nat off) c) in
    exists w', f_read w fd n = (zlen bytes, bytes, w') /\ fl_ok w' /\
    (forall x, fl_file w' x = fl_file w x) /\ (forall x, fl_writable w' x = fl_writable w x) /\
    fl_at w' fd = Some (name, off + zlen bytes);
  fl_write : forall w fd name c s, fl_ok w -> fl_at w fd = Some (name, zlen c) -> fl_file w name = Some c ->
    zlen c + zlen s <= fl_limit ->
    exists w', f_write w fd s = (zlen s, w') /\ fl_ok w' /\ (forall x, fl_writable w' x = fl_writable w x) /\
    fl_at w' fd = Some (name, zlen c + zlen s) /\
    forall x, fl_file w' x = if decide (x = name) then Some (c ++ s) else fl_file w x;
  fl_close : forall w fd, fl_ok w -> fl_ok (f_close w fd) /\
    (forall x, fl_file (f_close w fd) x = fl_file w x) /\
    (forall x, fl_writable (f_close w fd) x = fl_writable w x);
}.

(** * The text *)

Section text.
Context {W : Type} `{FileCalls W}.
Implicit Types (e : editor (W := W)).

Definition doc (e : editor (W := W)) : list (list Z) := cstr <$> take (Z.to_nat (line_count e)) (lines e).

Lemma doc_length e : 0 <= line_count e <= zlen (lines e) -> zlen (doc e) = line_count e.
Proof. intros Hc. unfold doc, zlen in *. rewrite length_fmap, length_take. lia. Qed.

Lemma doc_get e i : 0 <= line_count e <= zlen (lines e) -> 0 <= i < line_count e -> (doc e).[i] = cstr (lines e).[i].
Proof.
  intros Hc Hi. unfold doc. rewrite !list_lookup_total_alt, list_lookup_fmap, lookup_take_lt by lia.
  pose proof (aget_lookup (lines e) i ltac:(lia)) as Hl. by rewrite Hl.
Qed.

(** Two texts with the same lines are the same. *)
Lemma doc_eq e (l : list (list Z)) :
  0 <= line_count e <= zlen (lines e) -> zlen l = line_count e ->
  (forall i, 0 <= i < line_count e -> cstr (lines e).[i] = l.[i]) -> doc e = l.
Proof.
  intros Hc Hl Hi. apply array_ext; [by rewrite doc_length|]. rewrite doc_length by done.
  intros i Hii. rewrite doc_get by done. by apply Hi.
Qed.

(** The places of a list with an element put in, or taken out. *)
Lemma insert_get (l : list (list Z)) n x i :
  0 <= n <= zlen l -> 0 <= i -> 
  (take (Z.to_nat n) l ++ x :: drop (Z.to_nat n) l).[i] =
    if decide (i < n) then l.[i] else if decide (i = n) then x else l.[i - 1].
Proof.
  intros Hn Hi. unfold zlen in Hn. rewrite !list_lookup_total_alt. case_decide.
  - rewrite lookup_app_l by (rewrite length_take; lia). by rewrite lookup_take_lt by lia.
  - rewrite lookup_app_r by (rewrite length_take; lia). rewrite length_take, Nat.min_l by lia. case_decide.
    + subst. by rewrite Nat.sub_diag.
    + replace (Z.to_nat i - Z.to_nat n)%nat with (S (Z.to_nat (i - 1) - Z.to_nat n)) by lia. simpl.
      rewrite lookup_drop. do 2 f_equal. lia.
Qed.

Lemma delete_get (l : list (list Z)) n i :
  0 <= n < zlen l -> 0 <= i ->
  (take (Z.to_nat n) l ++ drop (Z.to_nat (n + 1)) l).[i] = if decide (i < n) then l.[i] else l.[i + 1].
Proof.
  intros Hn Hi. unfold zlen in Hn. rewrite !list_lookup_total_alt. case_decide.
  - rewrite lookup_app_l by (rewrite length_take; lia). by rewrite lookup_take_lt by lia.
  - rewrite lookup_app_r by (rewrite length_take; lia). rewrite length_take, Nat.min_l by lia.
    rewrite lookup_drop. do 2 f_equal. lia.
Qed.

(** The copying loops of insertion and deletion. *)
Lemma shift_up_spec (ls : list (list Z)) c a :
  0 <= a <= c -> c < zlen ls ->
  let ls' := for_each 0 (c - a) (fun k ls => let i := c - k in ls.[i <- cstr ls.[i - 1]]) ls in
  zlen ls' = zlen ls /\
  forall j, 0 <= j -> ls'.[j] = if decide (a < j <= c) then cstr ls.[j - 1] else ls.[j].
Proof.
  intros Ha Hc ls'. set (inv := fun k (l : list (list Z)) => zlen l = zlen ls /\
    forall j, 0 <= j -> l.[j] = if decide (c - k < j <= c) then cstr ls.[j - 1] else ls.[j]).
  assert (Hinv : inv (c - a) ls').
  { apply (for_each_inv 0 (c - a) _ ls inv); [lia| |].
    - split; [done|]. intros j Hj. by rewrite decide_False by lia.
    - intros k l Hk [Hl Hg]. split; [by rewrite aset_length|]. intros j Hj.
      rewrite aget_aset_cases by lia. destruct (decide (c - k = j)) as [<-|].
      + rewrite decide_True by lia. rewrite Hg by lia. by rewrite decide_False by lia.
      + rewrite Hg by done. repeat case_decide; try lia; done. }
  destruct Hinv as [Hl Hg]. split; [done|]. intros j Hj. rewrite Hg by done. repeat case_decide; try lia; done.
Qed.

Lemma shift_down_spec (ls : list (list Z)) c a :
  0 <= a < c -> c <= zlen ls ->
  let ls' := for_each a (c - 1) (fun i ls => ls.[i <- cstr ls.[i + 1]]) ls in
  zlen ls' = zlen ls /\
  forall j, 0 <= j -> ls'.[j] = if decide (a <= j < c - 1) then cstr ls.[j + 1] else ls.[j].
Proof.
  intros Ha Hc ls'. set (inv := fun k (l : list (list Z)) => zlen l = zlen ls /\
    forall j, 0 <= j -> l.[j] = if decide (a <= j < k) then cstr ls.[j + 1] else ls.[j]).
  assert (Hinv : inv (c - 1) ls').
  { apply (for_each_inv a (c - 1) _ ls inv); [lia| |].
    - split; [done|]. intros j Hj. by rewrite decide_False by lia.
    - intros k l Hk [Hl Hg]. split; [by rewrite aset_length|]. intros j Hj.
      rewrite aget_aset_cases by lia. destruct (decide (k = j)) as [<-|].
      + rewrite decide_True by lia. rewrite Hg by lia. by rewrite decide_False by lia.
      + rewrite Hg by done. repeat case_decide; try lia; done. }
  exact Hinv.
Qed.

(** ** The shape of the state *)

Record shape e : Prop := {
  sh_lines : zlen (lines e) = MAX_LINES;
  sh_count : 0 <= line_count e <= MAX_LINES;
}.

Lemma shape_range e : shape e -> 0 <= line_count e <= zlen (lines e).
Proof. intros [-> Hc]. done. Qed.

(** What the edits do to the text. *)
Lemma append_doc e s :
  shape e -> line_count e < MAX_LINES ->
  let e' := with_lines e ((lines e).[line_count e <- cstr s]) (line_count e + 1) in
  shape e' /\ doc e' = doc e ++ [cstr s].
Proof.
  intros Hs Hc e'. pose proof (shape_range e Hs) as Hr. destruct Hs as [Hl Hcount].
  assert (Hs' : shape e') by (split; cbn; [by rewrite aset_length|lia]). split; [done|].
  apply doc_eq; [by apply shape_range|cbn; unfold zlen; rewrite length_app; cbn; pose proof (doc_length e Hr); unfold zlen in *; lia|].
  cbn. intros i Hi. rewrite aget_aset_cases by lia. pose proof (doc_length e Hr) as Hdl. case_decide.
  - subst. rewrite cstr_idem. replace (Z.to_nat (line_count e)) with (List.length (doc e)) by (unfold zlen in Hdl; lia).
    by rewrite list_lookup_total_middle.
  - rewrite lookup_total_app_l by (unfold zlen in Hdl; lia). by rewrite doc_get by lia.
Qed.

Lemma insert_doc e a s :
  shape e -> 0 <= a <= line_count e -> line_count e < MAX_LINES ->
  let ls := for_each 0 (line_count e - a) (fun k ls => let i := line_count e - k in ls.[i <- cstr ls.[i - 1]]) (lines e) in
  let e' := with_lines e (ls.[a <- cstr s]) (line_count e + 1) in
  shape e' /\ doc e' = take (Z.to_nat a) (doc e) ++ cstr s :: drop (Z.to_nat a) (doc e).
Proof.
  intros Hs Ha Hc ls e'. pose proof (shape_range e Hs) as Hr. destruct Hs as [Hl Hcount].
  destruct (shift_up_spec (lines e) (line_count e) a Ha ltac:(lia)) as [Hls Hg]. fold ls in Hls, Hg.
  assert (Hs' : shape e') by (split; cbn; [by rewrite aset_length, Hls|lia]). split; [done|].
  pose proof (doc_length e Hr) as Hdl.
  apply doc_eq; [by apply shape_range|cbn; unfold zlen in *; rewrite length_app, length_take; cbn; rewrite length_drop; lia|].
  cbn. intros i Hi. rewrite aget_aset_cases, insert_get by lia. destruct (decide (a = i)) as [->|].
  - rewrite decide_False, decide_True by lia. apply cstr_idem.
  - rewrite Hg by lia. destruct (decide (i < a)).
    + rewrite decide_False by lia. by rewrite doc_get by lia.
    + rewrite decide_True, decide_False by lia. rewrite cstr_idem. by rewrite doc_get by lia.
Qed.

Lemma replace_doc e a s :
  shape e -> 0 <= a < line_count e ->
  let e' := with_lines e ((lines e).[a <- cstr s]) (line_count e) in
  shape e' /\ doc e' = (doc e).[a <- cstr s].
Proof.
  intros Hs Ha e'. pose proof (shape_range e Hs) as Hr. destruct Hs as [Hl Hcount].
  assert (Hs' : shape e') by (split; cbn; [by rewrite aset_length|lia]). split; [done|].
  pose proof (doc_length e Hr) as Hdl. apply doc_eq; [by apply shape_range|by rewrite aset_length|].
  cbn. intros i Hi. rewrite !aget_aset_cases by lia. case_decide; [apply cstr_idem|]. by rewrite doc_get by lia.
Qed.

Lemma delete_doc e a :
  shape e -> 0 <= a < line_count e ->
  let ls := for_each a (line_count e - 1) (fun i ls => ls.[i <- cstr ls.[i + 1]]) (lines e) in
  let e' := with_lines e ls (line_count e - 1) in
  shape e' /\ doc e' = take (Z.to_nat a) (doc e) ++ drop (Z.to_nat (a + 1)) (doc e).
Proof.
  intros Hs Ha ls e'. pose proof (shape_range e Hs) as Hr. destruct Hs as [Hl Hcount].
  destruct (shift_down_spec (lines e) (line_count e) a Ha ltac:(lia)) as [Hls Hg]. fold ls in Hls, Hg.
  assert (Hs' : shape e') by (split; cbn; [by rewrite Hls|lia]). split; [done|].
  pose proof (doc_length e Hr) as Hdl.
  apply doc_eq; [by apply shape_range|cbn; unfold zlen in *; rewrite length_app, length_take, length_drop; lia|].
  cbn. intros i Hi. rewrite delete_get, Hg by lia. destruct (decide (i < a)).
  - rewrite decide_False by lia. by rewrite doc_get by lia.
  - case_decide.
    + rewrite cstr_idem. by rewrite doc_get by lia.
    + lia.
Qed.
End text.

(** * The file *)

(** Two loops in step. *)
Lemma for_loop_sim {S1 S2 R1 R2} n (b1 : Z -> S1 -> S1 + R1) (b2 : Z -> S2 -> S2 + R2) i s1 s2
    (P : S1 -> S2 -> Prop) (Q : S1 + R1 -> S2 + R2 -> Prop) :
  P s1 s2 -> (forall s1 s2, P s1 s2 -> Q (inl s1) (inl s2)) ->
  (forall i s1 s2, P s1 s2 -> match b1 i s1, b2 i s2 with
     | inl s1', inl s2' => P s1' s2'
     | inr r1, inr r2 => Q (inr r1) (inr r2)
     | _, _ => False
     end) ->
  Q (for_loop n b1 i s1) (for_loop n b2 i s2).
Proof.
  intros HP Hq Hb. revert i s1 s2 HP. induction n as [|n IH]; intros i s1 s2 HP; cbn [for_loop]; [by apply Hq|].
  specialize (Hb i s1 s2 HP). destruct (b1 i s1), (b2 i s2); [by apply IH|done..].
Qed.

(** A text the editor can hold, and one it can load back whole. *)
Definition small (d : list (list Z)) : Prop := zlen (file_of d) <= 24064.

Lemma cstr_zlen s : zlen (cstr s) <= zlen s.
Proof. unfold zlen. induction s as [|c s IH]; simpl; [lia|]. destruct (c =? 0); simpl; lia. Qed.

Lemma cstr_keeps (P : Z -> Prop) s : Forall P s -> Forall P (cstr s).
Proof. induction 1 as [|c s Hc _ IH]; simpl; [constructor|]. destruct (c =? 0); by constructor. Qed.

Definition line_fits (l : list Z) : Prop := Forall (fun c => c <> c_nl) l /\ zlen l <= MAX_LINE_LEN.

Lemma cstr_fits l : line_fits l -> line_fits (cstr l).
Proof. intros [H1 H2]. split; [by apply cstr_keeps|]. pose proof (cstr_zlen l). lia. Qed.

Lemma split_lines_fits content : fits (split_lines content).
Proof.
  rewrite split_lines_foldl.
  assert (Hg : forall p, zlen p.1 <= MAX_LINES /\ Forall line_fits p.1 /\ line_fits p.2 ->
    let q := foldl (fun s c => take_char c s) p content in
    zlen q.1 <= MAX_LINES /\ Forall line_fits q.1 /\ line_fits q.2).
  { induction content as [|c content IH]; intros p Hp; [done|]. cbn [foldl]. apply IH. destruct p as [ls l].
    destruct Hp as (Hn & Hls & Hl). cbn [fst snd] in *. unfold take_char.
    destruct (zlen ls <? MAX_LINES) eqn:E1; bool_prop; [|done]. destruct (c =? c_nl) eqn:E2; bool_prop.
    - cbn. split_and!; [unfold zlen in *; rewrite length_app; cbn; lia| |split; [constructor|unfold zlen, MAX_LINE_LEN; cbn; lia]].
      apply Forall_app. by split; [|apply list.Forall_singleton].
    - destruct (zlen l <? MAX_LINE_LEN) eqn:E3; bool_prop; cbn; [|done]. split_and!; [done|done|]. split.
      + apply Forall_app. split; [apply Hl|]. by apply list.Forall_singleton.
      + unfold zlen in *. rewrite length_app. cbn. lia. }
  specialize (Hg ([], [])). cbv zeta in Hg. destruct (foldl _ _ content) as [ls l]. cbn [fst snd] in Hg.
  destruct Hg as (Hn & Hls & Hl); [split_and!; [done|constructor|split; [constructor|done]]|].
  destruct (_ && _) eqn:E; bool_prop; [|done]. split; [unfold zlen in *; rewrite length_app; cbn; lia|].
  apply Forall_app. by split; [|apply list.Forall_singleton].
Qed.

Lemma fits_cstr ls : fits ls -> fits (cstr <$> ls).
Proof.
  intros [Hn Hf]. split; [unfold zlen in *; by rewrite length_fmap|].
  apply Forall_fmap. eapply List.Forall_impl; [|exact Hf]. intros l Hl. by apply cstr_fits.
Qed.

Section file.
Context {W : Type} `{FileLaws W}.
Implicit Types (w : W) (name : list Z).

(** What loading a file gives. *)
Definition loads w name : list (list Z) :=
  match fl_file w name with Some c => cstr <$> split_lines (read_content c) | None => [] end.

(** The same files under other names. *)
Record same_files w w' : Prop := {
  sf_ok : fl_ok w';
  sf_file : forall x, fl_file w' x = fl_file w x;
  sf_writable : forall x, fl_writable w' x = fl_writable w x;
}.

Lemma same_files_trans w1 w2 w3 : same_files w1 w2 -> same_files w2 w3 -> same_files w1 w3.
Proof. intros [] []. split; [done|intros; congruence..]. Qed.

Lemma read_all_spec w fd name c :
  fl_ok w -> fl_at w fd = Some (name, 0) -> fl_file w name = Some c ->
  exists w', read_all w fd = (read_content c, w') /\ same_files w w'.
Proof.
  intros Hok Hat Hc. unfold read_all, read_content, for_range.
  set (P := fun '((content, w') : list Z * W) total => same_files w w' /\ fl_at w' fd = Some (name, total) /\
    0 <= total <= zlen c /\ content = take (Z.to_nat total) c).
  set (Q := fun (r1 : (list Z * W) + (list Z * W)) (r2 : Z + Z) => exists w', 
    match r1 with inl r | inr r => r end = (match r2 with inl total | inr total => take (Z.to_nat total) c end, w') /\ same_files w w').
  apply (for_loop_sim _ _ _ _ _ _ P Q).
  - split; [by split|]. split; [done|]. split; [split; [lia|apply zlen_nonneg]|done].
  - intros [content w'] total (Hs & _ & _ & ->). by exists w'.
  - intros _ [content w'] total (Hs & Ha & Ht & ->).
    assert (Hl : zlen (take (Z.to_nat total) c) = total) by (unfold zlen in *; rewrite length_take; lia).
    rewrite Hl. destruct (total + 512 <=? content_size); [|by exists w'].
    destruct (fl_read w' fd name total c 512 (sf_ok _ _ Hs) Ha) as (w2 & -> & Hok2 & Hf2 & Hw2 & Ha2);
      [by rewrite (sf_file _ _ Hs)|lia|lia|].
    set (bytes := take (Z.to_nat 512) (drop (Z.to_nat total) c)) in *.
    assert (Hb : zlen bytes = Z.min 512 (zlen c - total)).
    { unfold bytes, zlen in *. rewrite length_take, length_drop. lia. }
    rewrite Hb. destruct (_ >? 0) eqn:E; bool_prop.
    + split; [by apply (same_files_trans w w'); [|split]|]. split; [by rewrite Ha2, Hb|]. split; [lia|].
      replace (take (Z.to_nat (Z.min 512 (zlen c - total))) bytes) with bytes by (symmetry; apply take_ge; unfold zlen in *; lia).
      unfold bytes. rewrite take_take_drop. unfold zlen in *.
      destruct (decide (512 <= Z.of_nat (List.length c) - total)).
      * f_equal. lia.
      * rewrite !take_ge by lia. done.
    + exists w2. split; [done|]. by apply (same_files_trans w w'); [|split].
Qed.
End file.

Lemma file_of_snoc d l : file_of (d ++ [l]) = file_of d ++ l ++ [c_nl].
Proof. unfold file_of. rewrite fmap_app, List.concat_app. cbn. by rewrite app_nil_r. Qed.

Lemma file_of_length d : Forall line_fits d -> zlen (file_of d) <= 121 * zlen d.
Proof.
  induction 1 as [|l d [_ Hl] _ IH]; [done|]. unfold file_of in *. rewrite fmap_cons. cbn [List.concat].
  unfold zlen, MAX_LINE_LEN in *. rewrite !length_app. cbn [List.length]. lia.
Qed.

Lemma take_snoc_get (d : list (list Z)) i :
  0 <= i < zlen d -> take (Z.to_nat (i + 1)) d = take (Z.to_nat i) d ++ [d.[i]].
Proof.
  intros Hi. replace (Z.to_nat (i + 1)) with (S (Z.to_nat i)) by lia. apply take_S_r. by apply aget_lookup.
Qed.

Section saving.
Context {W : Type} `{FileLaws W}.
Implicit Types (e : editor (W := W)) (w : W).

(** The editor but for its screen. *)
Record same_text e e' : Prop := {
  stx_lines : lines e' = lines e;
  stx_count : line_count e' = line_count e;
  stx_name : filename e' = filename e;
  stx_rows : screen_rows e' = screen_rows e;
  stx_top : top_line e' = top_line e;
  stx_keys : keys e' = keys e;
}.

Lemma load_file_spec e :
  zlen (lines e) = MAX_LINES -> fl_ok (sys e) ->
  let e' := load_file e in
  shape e' /\ doc e' = loads (sys e) (filename e) /\ fits (doc e') /\ same_files (sys e) (sys e') /\
  modified e' = modified e /\ filename e' = filename e /\ screen_rows e' = screen_rows e /\
  top_line e' = top_line e /\ keys e' = keys e.
Proof.
  intros Hl Hok. unfold load_file, loads. destruct (fl_open_read (sys e) (filename e) Hok) as (fd & w & -> & Hok1 & Hf1 & Hw1 & Hm).
  destruct (fl_file (sys e) (filename e)) as [c|] eqn:Ec.
  - destruct Hm as [Hfd Hat]. replace (fd <? 0) with false by lia.
    destruct (read_all_spec w fd (filename e) c Hok1 Hat) as (w2 & -> & Hs); [by rewrite Hf1|].
    destruct (fl_close w2 fd (sf_ok _ _ Hs)) as (Hok3 & Hf3 & Hw3).
    pose proof (split_lines_fits (read_content c)) as Hfit. set (ls := split_lines (read_content c)) in *.
    pose proof (proj1 Hfit) as Hn. cbn -[fits]. set (e' := mk_editor _ _ _ _ _ _ _ _ _).
    assert (Hsh : shape e').
    { split; cbn; [|split; [apply zlen_nonneg|done]]. unfold zlen in *. rewrite length_app, length_drop. lia. }
    assert (Hd : doc e' = cstr <$> ls).
    { unfold doc. cbn. unfold zlen. rewrite Nat2Z.id, take_app_length. done. }
    rewrite Hd. split_and!; try done.
    + by apply fits_cstr.
    + split; cbn; [done| |]; intros x.
      * by rewrite Hf3, (sf_file _ _ Hs), Hf1.
      * by rewrite Hw3, (sf_writable _ _ Hs), Hw1.
  - replace (fd <? 0) with true by lia. split_and!; try done.
Qed.

Lemma save_file_spec e :
  shape e -> fits (doc e) -> fl_ok (sys e) -> 24200 <= fl_limit ->
  let e' := save_file e in
  same_text e e' /\ fl_ok (sys e') /\ (forall x, fl_writable (sys e') x = fl_writable (sys e) x) /\
  if fl_writable (sys e) (filename e)
  then modified e' = false /\
    forall x, fl_file (sys e') x = if decide (x = filename e) then Some (file_of (doc e)) else fl_file (sys e) x
  else modified e' = modified e /\ forall x, fl_file (sys e') x = fl_file (sys e) x.
Proof.
  intros Hsh Hfit Hok Hlim. pose proof (shape_range e Hsh) as Hr. pose proof (doc_length e Hr) as Hdl.
  unfold save_file. destruct (fl_open_write (sys e) (filename e) Hok) as (fd & w & -> & Hok1 & Hw1 & Hm).
  destruct (fl_writable (sys e) (filename e)) eqn:Ew.
  2: { destruct Hm as [Hfd Hf]. replace (fd <? 0) with true by lia. done. }
  destruct Hm as (Hfd & Hat & Hf). replace (fd <? 0) with false by lia. cbn [line_count lines with_sys sys].
  set (inv := fun i '((total, w') : Z * W) => fl_ok w' /\ (forall x, fl_writable w' x = fl_writable (sys e) x) /\
    total = zlen (file_of (take (Z.to_nat i) (doc e))) /\ fl_at w' fd = Some (filename e, total) /\
    forall x, fl_file w' x = if decide (x = filename e) then Some (file_of (take (Z.to_nat i) (doc e))) else fl_file (sys e) x).
  match goal with |- context [for_each 0 (line_count e) ?b (0, w)] => set (body := b) end.
  assert (Hinv : inv (line_count e) (for_each 0 (line_count e) body (0, w))).
  { apply (for_each_inv 0 (line_count e) body (0, w) inv); [lia|done|].
    intros i [total w1] Hi (Hok2 & Hw2 & -> & Hat2 & Hf2). unfold body. rewrite <- (doc_get e i Hr Hi).
    set (pre := take (Z.to_nat i) (doc e)) in *. set (l := (doc e).[i]).
    assert (Hll : line_fits l).
    { destruct Hfit as [_ Hfit]. rewrite Forall_elem in Hfit. apply Hfit.
      eapply list_elem_of_lookup_2, aget_lookup. lia. }
    assert (Hbound : zlen (file_of pre) <= 121 * i).
    { assert (Hpre : zlen pre = i) by (unfold pre, zlen in *; rewrite length_take; lia).
      rewrite <- Hpre. apply file_of_length. unfold pre. apply Forall_take, Hfit. }
    destruct Hsh as [_ Hc]. unfold MAX_LINES in Hc. pose proof (proj2 Hll) as Hl120. unfold MAX_LINE_LEN in Hl120.
    destruct (fl_write w1 fd (filename e) (file_of pre) l Hok2 Hat2) as (w3 & -> & Hok3 & Hw3 & Hat3 & Hf3);
      [by rewrite Hf2, decide_True|lia|].
    destruct (fl_write w3 fd (filename e) (file_of pre ++ l) [c_nl] Hok3) as (w4 & -> & Hok4 & Hw4 & Hat4 & Hf4).
    { rewrite Hat3. do 2 f_equal. unfold zlen. rewrite length_app. lia. }
    { by rewrite Hf3, decide_True. }
    { unfold zlen in *. rewrite length_app. cbn. lia. }
    assert (Hnext : file_of (take (Z.to_nat (i + 1)) (doc e)) = (file_of pre ++ l) ++ [c_nl]).
    { rewrite take_snoc_get by lia. fold pre l. by rewrite file_of_snoc, app_assoc. }
    unfold inv. rewrite Hnext. assert (Hz : zlen ((file_of pre ++ l) ++ [c_nl]) = zlen (file_of pre) + (zlen l + 1)).
    { unfold zlen. rewrite !length_app. cbn. lia. }
    split; [done|]. split; [intros x; by rewrite Hw4, Hw3|]. split; [by rewrite Hz|]. split.
    - rewrite Hat4. do 2 f_equal. unfold zlen. rewrite !length_app. cbn. lia.
    - intros x. rewrite Hf4. case_decide; [done|]. by rewrite Hf3, Hf2, !decide_False. }
  destruct (for_each 0 (line_count e) body (0, w)) as [total w2]. destruct Hinv as (Hok2 & Hw2 & _ & _ & Hf2).
  destruct (fl_close w2 fd Hok2) as (Hok3 & Hf3 & Hw3).
  split; [done|]. split; [done|]. cbn. split; [intros x; by rewrite Hw3, Hw2|]. split; [done|].
  intros x. rewrite Hf3, Hf2. rewrite (take_ge (doc e)) by (unfold zlen in *; lia). done.
Qed.
End saving.

(** * Whatever is typed *)

Lemma read_line_stdin_spec (K : Z -> Prop) inp buf out m b inp' o :
  read_line_stdin inp buf out m = Val (b, inp', o) ->
  Forall K inp -> Forall K buf -> Forall (fun c => c <> c_nl) buf -> zlen buf < m ->
  Forall K b /\ Forall K inp' /\ Forall (fun c => c <> c_nl) b /\ zlen b < m.
Proof.
  revert buf out. induction inp as [|c inp IH]; intros buf out; [done|]. cbn [read_line_stdin].
  intros Hr Hi Hb Hn Hl. apply list.Forall_cons in Hi as [Hc Hi].
  destruct (c =? c_nl) eqn:E1; bool_prop; [by injection Hr as <- <- <-|].
  destruct (c =? c_bs).
  - destruct (0 <? zlen buf); [|by apply (IH _ _ Hr)].
    apply (IH _ _ Hr); [done|by apply Forall_take|by apply Forall_take|].
    unfold zlen in *. rewrite length_take. lia.
  - destruct (zlen buf + 1 <? m) eqn:E2; bool_prop; [|by apply (IH _ _ Hr)].
    apply (IH _ _ Hr); [done|..].
    + apply Forall_app. by split; [|apply list.Forall_singleton].
    + apply Forall_app. by split; [|apply list.Forall_singleton].
    + unfold zlen in *. rewrite length_app. cbn. lia.
Qed.

Section any.
Context {W : Type} `{FileLaws W} (Hlimit : 24200 <= fl_limit) (w0 : W) (name : list Z) (K : Z -> Prop).
Implicit Types (e : editor (W := W)).

(** What every state of a session on the file [name] of [w0] keeps. *)
Record good e : Prop := {
  gd_shape : shape e;
  gd_fits : fits (doc e);
  gd_ok : fl_ok (sys e);
  gd_name : filename e = name;
  gd_others : forall x, x <> name -> fl_file (sys e) x = fl_file w0 x;
  gd_writable : forall x, fl_writable (sys e) x = fl_writable w0 x;
  gd_saved : modified e = false -> small (doc e) -> loads (sys e) name = doc e;
  gd_keys : Forall K (keys e);
}.

Lemma doc_same e e' : lines e' = lines e -> line_count e' = line_count e -> doc e' = doc e.
Proof. unfold doc. by intros -> ->. Qed.

Lemma good_same e e' :
  lines e' = lines e -> line_count e' = line_count e -> modified e' = modified e -> filename e' = filename e ->
  sys e' = sys e -> Forall K (keys e') -> good e -> good e'.
Proof.
  intros Hl Hc Hm Hn Hs Hk []. pose proof (doc_same e e' Hl Hc) as Hd.
  split; rewrite ?Hd, ?Hm, ?Hn, ?Hs; try done. split; rewrite ?Hl, ?Hc; by apply gd_shape0.
Qed.

Lemma good_show e evs : good e -> good (show e evs).
Proof. intros Hg. by apply (good_same e); [..|apply Hg|]. Qed.

Lemma good_status e msg : good e -> good (status e msg).
Proof. apply good_show. Qed.

Lemma good_top e top : good e -> good (with_top e top).
Proof. intros Hg. by apply (good_same e); [..|apply Hg|]. Qed.

Lemma good_visible e line : good e -> good (ensure_visible e line).
Proof. intros Hg. unfold ensure_visible. repeat case_match; by try apply good_top. Qed.

Lemma good_redraw e e' : good e -> redraw e = Val e' -> good e' /\ modified e' = modified e.
Proof.
  intros Hg. unfold redraw. destruct (for_range _ _ _ _); [|done]. intros [= <-]. split; [|done].
  by repeat apply good_show.
Qed.

Lemma good_ask e p m e' buf :
  good e -> 0 < m -> ask e p m = Val (e', buf) ->
  good e' /\ line_count e' = line_count e /\ lines e' = lines e /\ doc e' = doc e /\
  Forall K buf /\ Forall (fun c => c <> c_nl) buf /\ zlen buf < m.
Proof.
  intros Hg Hm. unfold ask, read_line. cbn [keys show].
  destruct (read_line_stdin _ _ _ _) as [[[b ks] o]| |] eqn:Er; [|done..]. intros [= <- <-].
  destruct (read_line_stdin_spec K _ _ _ _ _ _ _ Er (gd_keys _ Hg)) as (H1 & H2 & H3 & H4);
    [constructor|constructor|done|].
  split_and!; try done. by apply (good_same e).
Qed.

(** An edit that keeps the text within its bounds. *)
Lemma good_edit e ls n :
  good e -> shape (with_lines e ls n) -> Forall line_fits (doc (with_lines e ls n)) ->
  good (with_lines e ls n).
Proof.
  intros [] Hs Hf. split; try done. pose proof (shape_range _ Hs) as Hr. split; [|done].
  rewrite doc_length by done. apply Hs.
Qed.

Lemma typed_fits buf : Forall (fun c => c <> c_nl) buf -> zlen buf < LINE_BUF -> line_fits (cstr buf).
Proof. intros H1 H2. apply cstr_fits. split; [done|]. unfold LINE_BUF, MAX_LINE_LEN in *. lia. Qed.

Lemma good_append fuel e e' : good e -> append_loop fuel e = Val e' -> good e'.
Proof.
  revert e. induction fuel as [|fuel IH]; intros e Hg; [done|]. cbn [append_loop].
  destruct (ask _ _ _) as [[e1 buf]| |] eqn:Ea; [|done..]. cbn [mbind result_bind].
  destruct (good_ask _ _ LINE_BUF _ _ Hg ltac:(done) Ea) as (Hg1 & _ & _ & _ & _ & Hn & Hl).
  destruct (zlen buf <=? 0); [by intros [= <-]|].
  destruct (line_count e1 >=? MAX_LINES) eqn:Ec; bool_prop; [intros [= <-]; by apply good_status|].
  destruct (append_doc e1 buf (gd_shape _ Hg1) Ec) as [Hsh Hd].
  destruct (redraw _) as [e2| |] eqn:Er; [|done..]. cbn [mbind result_bind]. intros He'.
  refine (IH _ _ He'). refine (proj1 (good_redraw _ _ _ Er)). apply good_visible, good_edit; [done|done|].
  rewrite Hd. apply Forall_app. split; [apply Hg1|]. apply list.Forall_singleton. by apply typed_fits.
Qed.

Lemma good_cmd_append e e' : good e -> cmd_append e = Val e' -> good e'.
Proof.
  intros Hg. unfold cmd_append. destruct (redraw _) as [e1| |] eqn:Er; [|done..]. cbn [mbind result_bind].
  destruct (append_loop _ _) as [e2| |] eqn:Ea; [|done..]. intros [= <-].
  apply good_status. refine (good_append _ _ _ _ Ea). refine (proj1 (good_redraw _ _ _ Er)). by apply good_status.
Qed.

Lemma good_cmd_insert e a e' : good e -> cmd_insert e a = Val e' -> good e'.
Proof.
  intros Hg. unfold cmd_insert. destruct (_ || _) eqn:E; [intros [= <-]; by apply good_status|].
  bool_prop. destruct (ask _ _ _) as [[e1 buf]| |] eqn:Ea; [|done..]. cbn [mbind result_bind].
  destruct (good_ask _ _ LINE_BUF _ _ Hg ltac:(done) Ea) as (Hg1 & Hc1 & Hl1 & _ & _ & Hn & Hl). intros [= <-].
  apply good_status, good_visible.
  destruct (insert_doc e1 a buf (gd_shape _ Hg1)) as [Hsh Hd]; [lia|lia|].
  apply good_edit; [done|exact Hsh|]. refine (eq_ind_r (Forall line_fits) _ Hd). pose proof (proj2 (gd_fits _ Hg1)) as Hf.
  apply Forall_app. split; [by apply Forall_take|]. constructor; [by apply typed_fits|by apply Forall_drop].
Qed.

Lemma good_cmd_replace e a e' : good e -> cmd_replace e a = Val e' -> good e'.
Proof.
  intros Hg. unfold cmd_replace. destruct (_ || _) eqn:E; [intros [= <-]; by apply good_status|].
  bool_prop. destruct (ask _ _ _) as [[e1 buf]| |] eqn:Ea; [|done..]. cbn [mbind result_bind].
  destruct (good_ask _ _ LINE_BUF _ _ Hg ltac:(done) Ea) as (Hg1 & Hc1 & Hl1 & _ & _ & Hn & Hl). intros [= <-].
  apply good_status, good_visible.
  destruct (replace_doc e1 a buf (gd_shape _ Hg1)) as [Hsh Hd]; [lia|].
  apply good_edit; [done|exact Hsh|]. refine (eq_ind_r (Forall line_fits) _ Hd). apply Forall_insert; [apply Hg1|by apply typed_fits].
Qed.

Lemma good_cmd_delete e a e' : good e -> cmd_delete e a = Val e' -> good e'.
Proof.
  intros Hg. unfold cmd_delete. destruct (_ || _) eqn:E; [intros [= <-]; by apply good_status|].
  bool_prop. intros [= <-]. apply good_status.
  destruct (delete_doc e a (gd_shape _ Hg)) as [Hsh Hd]; [lia|].
  apply good_edit; [done|exact Hsh|]. refine (eq_ind_r (Forall line_fits) _ Hd). pose proof (proj2 (gd_fits _ Hg)) as Hf.
  apply Forall_app. by split; [apply Forall_take|apply Forall_drop].
Qed.

(** A text that was saved loads back. *)
Lemma loads_file_of d (w : W) :
  fits d -> Forall (Forall (fun c => c <> 0)) d -> small d -> fl_file w name = Some (file_of d) -> loads w name = d.
Proof.
  intros Hf Hz Hs Hw. unfold loads. rewrite Hw, read_content_all, split_lines_file by done.
  rewrite <- (list_fmap_id d) at 2. apply list_fmap_ext. intros i l Hl. apply cstr_nonul.
  rewrite Forall_elem in Hz. by eapply Hz, list_elem_of_lookup_2.
Qed.

Lemma doc_nonul e : Forall (Forall (fun c => c <> 0)) (doc e).
Proof. apply Forall_fmap, Forall_elem. intros l _. apply cstr_Forall. Qed.

Lemma good_save e : good e -> good (save_file e) /\ (fl_writable w0 name = true -> modified (save_file e) = false).
Proof.
  intros Hg. destruct (save_file_spec e (gd_shape _ Hg) (gd_fits _ Hg) (gd_ok _ Hg) Hlimit) as (Hst & Hok & Hw & Hm).
  rewrite (gd_writable _ Hg), (gd_name _ Hg) in Hm.
  assert (Hd : doc (save_file e) = doc e) by (apply doc_same; apply Hst).
  assert (Hsh : shape (save_file e)) by (split; [rewrite (stx_lines _ _ Hst)|rewrite (stx_count _ _ Hst)]; apply Hg).
  assert (Hname : filename (save_file e) = name) by (rewrite (stx_name _ _ Hst); apply Hg).
  assert (Hk : Forall K (keys (save_file e))) by (rewrite (stx_keys _ _ Hst); apply Hg).
  assert (Hwr : forall x, fl_writable (sys (save_file e)) x = fl_writable w0 x) by (intros x; rewrite Hw; apply Hg).
  destruct (fl_writable w0 name); destruct Hm as [Hm Hf]; (split; [|try done]).
  - split; try done; [rewrite Hd; apply Hg| |].
    + intros x Hx. rewrite Hf, decide_False by done. by apply Hg.
    + intros _. rewrite Hd. intros Hs. apply loads_file_of; [apply Hg|apply doc_nonul|done|]. by rewrite Hf, decide_True.
  - split; try done; [rewrite Hd; apply Hg| |].
    + intros x Hx. rewrite Hf. by apply Hg.
    + rewrite Hm, Hd. intros H1 H2. unfold loads. rewrite Hf. by apply (gd_saved _ Hg).
Qed.

(** A number after the letter, or a complaint. *)
Lemma good_numbered e cmd usage k e' :
  good e -> (forall line e', k line = Val e' -> good e') -> numbered e cmd usage k = Val e' -> good e'.
Proof.
  intros Hg Hk. unfold numbered. destruct (_ <? 0); [intros [= <-]; by apply good_status|apply Hk].
Qed.

Definition leaves_saved (e : editor (W := W)) : Prop :=
  (forall c, K c -> c <> c_bang) -> fl_writable w0 name = true -> modified e = false.

Lemma good_command e cmd o :
  good e -> Forall K cmd -> command e cmd = Val o ->
  match o with Continue e' | Redraw e' => good e' | Leave e' => good e' /\ leaves_saved e' end.
Proof.
  intros Hg Hk. unfold command. destruct (str_eq cmd (text "q")).
  { destruct (modified e) eqn:Em; intros [= <-]; [by apply good_status|]. split; [done|]. intros _ _. exact Em. }
  destruct (str_eq cmd (text "q!")) eqn:Eq.
  { intros [= <-]. split; [done|]. intros Hb _. exfalso. apply str_eq_cstr in Eq.
    apply (cstr_keeps K) in Hk. rewrite Eq in Hk. change (cstr (text "q!")) with [113; c_bang] in Hk.
    apply list.Forall_cons in Hk as [_ Hk]. apply list.Forall_cons in Hk as [Hk _]. exact (Hb _ Hk eq_refl). }
  destruct (str_eq cmd (text "wq")).
  { intros [= <-]. destruct (good_save e Hg) as [Hs Hm]. split; [done|]. intros _. exact Hm. }
  match goal with |- (?r ≫= _) = _ -> _ => assert (Hr : forall e', r = Val e' -> good e'); [|by destruct r as [e'| |]; [intros [= <-]; apply Hr|..]] end.
  intros e'. destruct (str_eq cmd (text "w")); [intros [= <-]; by apply good_save|].
  destruct (str_eq cmd (text "a")); [by apply good_cmd_append|].
  destruct (str_starts_with cmd (text "i")); [apply good_numbered; [done|]; intros line e1; by apply good_cmd_insert|].
  destruct (str_starts_with cmd (text "r")); [apply good_numbered; [done|]; intros line e1; by apply good_cmd_replace|].
  destruct (str_starts_with cmd (text "d")); [apply good_numbered; [done|]; intros line e1; by apply good_cmd_delete|].
  destruct (str_starts_with cmd (text "g")).
  { apply good_numbered; [done|]. intros line e1 [= <-]. by apply good_visible. }
  destruct (_ =? 0); intros [= <-]; [done|by apply good_status].
Qed.

Lemma good_loop fuel e e' : good e -> command_loop fuel e = Val e' -> good e' /\ leaves_saved e'.
Proof.
  revert e. induction fuel as [|fuel IH]; intros e Hg; [done|]. cbn [command_loop].
  destruct (ask _ _ _) as [[e1 cmd]| |] eqn:Ea; [|done..]. cbn [mbind result_bind].
  destruct (good_ask _ _ CMD_MAX _ _ Hg ltac:(done) Ea) as (Hg1 & _ & _ & _ & Hk & _ & _).
  destruct (command e1 cmd) as [o| |] eqn:Ec; [|done..]. cbn [mbind result_bind].
  pose proof (good_command e1 cmd o Hg1 Hk Ec) as Ho. destruct o as [e2|e2|e2]; [by apply IH| |].
  - destruct (redraw e2) as [e3| |] eqn:Er; [|done..]. cbn [mbind result_bind]. apply IH.
    refine (proj1 (good_redraw _ _ _ Er)). exact Ho.
  - intros [= <-]. destruct Ho as [Ho Hl]. split; [by apply good_show|exact Hl].
Qed.

Lemma good_start e :
  zlen (lines e) = MAX_LINES -> sys e = w0 -> filename e = name -> fl_ok w0 -> Forall K (keys e) ->
  good (load_file e).
Proof.
  intros Hl Hs Hn Hok Hk. pose proof (load_file_spec e Hl) as Hload. rewrite Hs, Hn in Hload.
  destruct (Hload Hok) as (Hsh & Hd & Hfit & Hsf & Hm & Hname & _ & _ & Hkeys). split; try done.
  - apply Hsf.
  - intros x _. apply Hsf.
  - apply Hsf.
  - intros _ _. rewrite Hd. unfold loads. by rewrite (sf_file _ _ Hsf).
  - by rewrite Hkeys.
Qed.
End any.

(** C26: Whatever is typed, the editor keeps to its file, and saves what it says it has
    saved, in a file system that follows [FileLaws] (no write fails below 24200 bytes).
    When it leaves, every other file is as it was; if the text is marked unmodified then
    loading the file gives exactly the text edited, if that has at most 24064 bytes; and
    if the file may be opened for writing and no [!] was typed, it is so marked.  When it
    may not be opened, [wq] leaves all the same and the changes are lost; and where a
    write may fail, which the laws exclude, the editor does not see it. *)
Theorem edit_loses_nothing {W} `{FileLaws W} (Hlimit : 24200 <= fl_limit) (w : W) arg argv_len rows ks e
    (Hok : fl_ok w) (Hrun : edit_start arg argv_len rows ks w = Val (0, e)) :
  let name := script_name arg argv_len in
  shape e /\ fits (doc e) /\
  (forall x, x <> name -> fl_file (sys e) x = fl_file w x) /\
  (modified e = false -> small (doc e) -> loads (sys e) name = doc e) /\
  (Forall (fun c => c <> c_bang) ks -> fl_writable w name = true -> modified e = false).
Proof.
  intros name. unfold edit_start in Hrun. fold name in Hrun. destruct (zlen name =? 0); [done|].
  set (e0 := mk_editor _ _ _ _ _ _ _ _ _) in Hrun.
  assert (Hall : forall K : Z -> Prop, Forall K ks -> good w name K e /\ leaves_saved w name K e).
  { intros K Hk. pose proof (good_start w name K e0 eq_refl eq_refl eq_refl Hok Hk) as Hg.
    destruct (redraw _) as [e1| |] eqn:Er; [|done..]. cbn [mbind result_bind] in Hrun.
    destruct (command_loop _ _) as [e2| |] eqn:El; [|done..]. injection Hrun as <-.
    refine (good_loop Hlimit w name K _ _ _ _ El). refine (proj1 (good_redraw _ _ _ _ _ _ Er)).
    by apply good_status, good_show. }
  destruct (Hall (fun _ => True)) as [Hg _]; [by apply list.Forall_true|].
  split; [apply Hg|]. split; [apply Hg|]. split; [apply Hg|]. split; [apply Hg|].
  intros Hk Hw. destruct (Hall _ Hk) as [_ Hl]. by apply Hl.
Qed.

(** * A session *)

Inductive edit :=
  | Append (ls : list (list Z))
  | Insert (n : Z) (s : list Z)
  | Replace (n : Z) (s : list Z)
  | Delete (n : Z)
  | GotoLine (n : Z)
  | Save.

(** A line that can be typed: no line feed, no backspace, no NUL, and it fits. *)
Definition typable (s : list Z) : Prop :=
  Forall (fun c => c <> c_nl /\ c <> c_bs /\ c <> 0) s /\ zlen s <= MAX_LINE_LEN.

Definition enter (s : list Z) : list Z := s ++ [c_nl].

(** The keys of a command. *)
Definition typing (c : edit) : list Z :=
  match c with
  | Append ls => enter (text "a") ++ List.concat (enter <$> ls) ++ enter []
  | Insert n s => enter (text "i" ++ decimal n) ++ enter s
  | Replace n s => enter (text "r" ++ decimal n) ++ enter s
  | Delete n => enter (text "d" ++ decimal n)
  | GotoLine n => enter (text "g" ++ decimal n)
  | Save => enter (text "w")
  end.

(** What a command does to the text, lines counted from 1. *)
Inductive edits (d : list (list Z)) : edit -> list (list Z) -> Prop :=
  | ed_append ls :
      Forall (fun s => typable s /\ s <> []) ls -> zlen d + zlen ls <= MAX_LINES ->
      edits d (Append ls) (d ++ ls)
  | ed_insert n s :
      1 <= n <= zlen d + 1 -> zlen d < MAX_LINES -> typable s ->
      edits d (Insert n s) (take (Z.to_nat (n - 1)) d ++ s :: drop (Z.to_nat (n - 1)) d)
  | ed_replace n s :
      1 <= n <= zlen d -> typable s -> edits d (Replace n s) (d.[n - 1 <- s])
  | ed_delete n :
      1 <= n <= zlen d -> edits d (Delete n) (take (Z.to_nat (n - 1)) d ++ drop (Z.to_nat n) d)
  | ed_goto n : 1 <= n <= 1000000 -> edits d (GotoLine n) d
  | ed_save : edits d Save d.

(** The bytes of the file after the command [c] on the text [d]: only a save changes them. *)
Definition stored (c : edit) (d : list (list Z)) (st : option (list Z)) : option (list Z) :=
  match c with Save => Some (file_of d) | _ => st end.

(** From the text [d] and the file [st], the commands lead to [d'] and [st']. *)
Inductive session : list (list Z) -> option (list Z) -> list edit -> list (list Z) -> option (list Z) -> Prop :=
  | se_nil d st : session d st [] d st
  | se_cons d st c d1 cs d' st' :
      edits d c d1 -> session d1 (stored c d st) cs d' st' -> session d st (c :: cs) d' st'.

(** The keys of a session that ends with the command [last]. *)
Definition typed (cs : list edit) (last : list Z) : list Z := List.concat (typing <$> cs) ++ enter last.

Lemma typable_typed s : typable s -> Forall (fun c => c <> c_nl /\ c <> c_bs) s /\ cstr s = s /\ zlen s < LINE_BUF.
Proof.
  intros [Hf Hl]. split; [eapply List.Forall_impl; [|exact Hf]; cbn; tauto|]. split.
  - apply cstr_nonul. eapply List.Forall_impl; [|exact Hf]. cbn. tauto.
  - unfold LINE_BUF, MAX_LINE_LEN in *. lia.
Qed.

(** A line number is read as written. *)
Lemma parse_uint_decimal n : 0 <= n < 9223372036854775808 -> parse_uint (decimal n) = n.
Proof.
  intros Hn. destruct (decimal_spec n) as [Hd Hs]; [lia|].
  pose proof (read_number_spelled (decimal n) [] Hd eq_refl) as Hr. rewrite app_nil_r, Hs in Hr.
  destruct Hd as [Hne Hd]. unfold parse_uint. destruct Hd as [|c ds Hc Hd]; [done|].
  pose proof (ident_range c (digit_ident c Hc)). cbn [skip_spaces].
  replace (c =? c_space) with false by (unfold c_space; lia). change (peek (c :: ds)) with c. rewrite Hc, Hr.
  apply s64_small. lia.
Qed.

Lemma decimal_typed n : 0 <= n < 18446744073709551616 -> Forall (fun c => c <> c_nl /\ c <> c_bs) (decimal n).
Proof.
  intros Hn. destruct (decimal_spec n Hn) as [[_ Hd] _]. eapply List.Forall_impl; [|exact Hd].
  intros c Hc. apply digit_ident, ident_range in Hc. unfold c_nl, c_bs. lia.
Qed.

Lemma digits_rev_length f v : (List.length (digits_rev f v) <= f)%nat.
Proof. revert v. induction f as [|f IH]; intros v; simpl; [lia|]. destruct (v >? 0); simpl; [|lia]. specialize (IH (v / 10)). lia. Qed.

Lemma decimal_length v : zlen (decimal v) <= 20.
Proof.
  unfold decimal, zlen. destruct (v =? 0); [cbn; lia|]. rewrite length_rev. pose proof (digits_rev_length 20 v). lia.
Qed.

Section shown.
Context {W : Type} `{FileLaws W} (w0 : W) (name : list Z) (st : option (list Z)).
Implicit Types (e : editor (W := W)).

(** The editor shows the text [d] and the file holds [st], with [rest] still to be typed. *)
Record seen (d : list (list Z)) (rest : list Z) e : Prop := {
  sn_good : good w0 name (fun _ => True) e;
  sn_file : fl_file (sys e) name = st;
  sn_doc : doc e = d;
  sn_keys : keys e = rest;
  sn_top : 0 <= top_line e <= 1000000;
  sn_rows : 4 <= screen_rows e <= 1000;
}.

Lemma seen_show d rest e evs : seen d rest e -> seen d rest (show e evs).
Proof. intros []. split; try done. by apply good_show. Qed.

Lemma seen_redraw d rest e : seen d rest e -> exists e', redraw e = Val e' /\ seen d rest e'.
Proof.
  intros Hs. pose proof (sn_top _ _ _ Hs) as Ht. pose proof (sn_rows _ _ _ Hs) as Hr. unfold redraw.
  set (e1 := show e _). assert (Htop : top_line e1 = top_line e) by done.
  assert (Hvis : 0 <= text_rows_visible e1 <= 996) by (unfold text_rows_visible, status_row, TEXT_TOP; cbn; lia).
  apply (for_range_cases 0 (text_rows_visible e1) _ [] (fun _ _ => True)); [lia|done| |].
  - intros row evs Hrow _. unfold text_row. rewrite s32_small by lia.
    replace (top_line e1 + row <? 0) with false by lia. by destruct (_ <? _).
  - intros evs _. eexists. split; [reflexivity|]. by repeat apply seen_show.
Qed.

Lemma seen_visible d rest e line : 0 <= line < 1000000 -> seen d rest e -> seen d rest (ensure_visible e line).
Proof.
  intros Hl []. unfold ensure_visible.
  assert (Hvis : 0 <= text_rows_visible e <= 996) by (unfold text_rows_visible, status_row, TEXT_TOP; lia).
  destruct (line <? top_line e) eqn:E; bool_prop.
  - split; cbn; try done; [by apply good_top|lia].
  - destruct (line >=? _); [|by split]. split; cbn; try done; [by apply good_top|]. rewrite s32_small by lia. lia.
Qed.

(** A line typed at a prompt. *)
Lemma seen_ask d rest e s p m :
  seen d (enter s ++ rest) e -> Forall (fun c => c <> c_nl /\ c <> c_bs) s -> zlen s < m ->
  exists e', ask e p m = Val (e', s) /\ seen d rest e' /\ lines e' = lines e /\ line_count e' = line_count e.
Proof.
  intros Hs Hf Hl. unfold ask, read_line. cbn [keys show]. rewrite (sn_keys _ _ _ Hs). unfold enter.
  rewrite <- app_assoc. cbn [app]. rewrite (read_line_spec s [] [] rest m Hf) by (change (zlen (@nil Z)) with 0; lia).
  cbn [mbind result_bind app]. eexists. split; [reflexivity|]. split; [|done]. destruct Hs. apply seen_show.
  split; try done. apply (good_same w0 name (fun _ => True) (show e [Cursor (cmd_row e) 0; Out p])); try done; [|by apply good_show].
  cbn. by apply list.Forall_true.
Qed.

(** An edit of the text. *)
Lemma seen_edit d d' rest e ls n :
  seen d rest e -> shape (with_lines e ls n) -> doc (with_lines e ls n) = d' -> Forall line_fits d' ->
  seen d' rest (with_lines e ls n).
Proof. intros [] Hs Hd Hf. split; try done. apply good_edit; [done|done|]. by rewrite Hd. Qed.

Lemma seen_fits d rest e : seen d rest e -> Forall line_fits d /\ zlen d = line_count e /\ line_count e <= MAX_LINES.
Proof.
  intros []. destruct sn_good0. rewrite <- sn_doc0. split; [apply gd_fits0|].
  pose proof (shape_range e gd_shape0). rewrite doc_length by done. split; [done|apply gd_shape0].
Qed.

Lemma typable_fits s : typable s -> line_fits s.
Proof. intros [Hf Hl]. split; [|done]. eapply List.Forall_impl; [|exact Hf]. cbn. tauto. Qed.

Lemma append_loop_spec ls d rest e fuel :
  seen d (List.concat (enter <$> ls) ++ enter [] ++ rest) e ->
  Forall (fun s => typable s /\ s <> []) ls -> zlen d + zlen ls <= MAX_LINES -> (List.length ls < fuel)%nat ->
  exists e', append_loop fuel e = Val e' /\ seen (d ++ ls) rest e'.
Proof.
  revert d e fuel. induction ls as [|s ls IH]; intros d e fuel Hs Hls Hlen Hf; (destruct fuel as [|fuel]; [lia|]); cbn [append_loop].
  - cbn [fmap list_fmap List.concat app] in Hs.
    destruct (seen_ask _ rest e [] (text "+ ") LINE_BUF Hs) as (e1 & -> & Hs1 & _); [constructor|done|].
    cbn. exists e1. by rewrite app_nil_r.
  - apply list.Forall_cons in Hls as [[Hty Hne] Hls]. rewrite fmap_cons in Hs. cbn [List.concat] in Hs. rewrite <- app_assoc in Hs.
    destruct (typable_typed s Hty) as (Hk & Hc & Hl).
    destruct (seen_ask _ _ e s (text "+ ") LINE_BUF Hs Hk Hl) as (e1 & -> & Hs1 & _). cbn [mbind result_bind].
    assert (Hpos : 0 < zlen s) by (destruct s; [by destruct Hne|unfold zlen; simpl; lia]).
    replace (zlen s <=? 0) with false by lia.
    destruct (seen_fits _ _ _ Hs1) as (Hfd & Hzd & _). unfold zlen in Hlen. cbn [List.length] in Hlen.
    replace (line_count e1 >=? MAX_LINES) with false by (unfold zlen in *; lia).
    destruct (append_doc e1 s (gd_shape _ _ _ _ (sn_good _ _ _ Hs1))) as [Hsh Hd]; [unfold zlen in *; lia|].
    rewrite (sn_doc _ _ _ Hs1) in Hd. rewrite Hc in *. set (e2 := with_lines e1 _ _) in *.
    assert (Hs2 : seen (d ++ [s]) (List.concat (enter <$> ls) ++ enter [] ++ rest) e2).
    { apply (seen_edit d); try done.
      apply Forall_app. split; [done|]. by apply list.Forall_singleton, typable_fits. }
    destruct (seen_redraw (d ++ [s]) (List.concat (enter <$> ls) ++ enter [] ++ rest) (ensure_visible e2 (line_count e2 - 1))) as (e3 & -> & Hs3).
    { apply seen_visible; [|exact Hs2]. change (line_count e2) with (line_count e1 + 1). unfold MAX_LINES in *. unfold zlen in *. lia. }
    cbn [mbind result_bind]. destruct (IH (d ++ [s]) e3 fuel Hs3 Hls) as (e4 & -> & Hs4).
    { unfold zlen in *. rewrite length_app. cbn. lia. } { cbn in Hf. lia. }
    exists e4. split; [done|]. by rewrite <- app_assoc in Hs4.
Qed.

Lemma seen_status d rest e msg : seen d rest e -> seen d rest (status e msg).
Proof. apply seen_show. Qed.

Lemma enter_length ls : (List.length ls <= List.length (List.concat (enter <$> ls)))%nat.
Proof.
  induction ls as [|s ls IH]; [done|]. rewrite fmap_cons. cbn [List.concat List.length]. unfold enter at 1.
  rewrite !length_app. cbn [List.length]. lia.
Qed.

Lemma cmd_append_spec ls d rest e :
  seen d (List.concat (enter <$> ls) ++ enter [] ++ rest) e -> edits d (Append ls) (d ++ ls) ->
  exists e', cmd_append e = Val e' /\ seen (d ++ ls) rest e'.
Proof.
  intros Hs He. inversion He as [ls' Hls Hlen| | | | |]; subst. unfold cmd_append.
  destruct (seen_redraw _ _ _ (seen_status _ _ _ (text "append mode: type lines, blank line to stop") Hs)) as (e1 & -> & Hs1).
  cbn [mbind result_bind].
  destruct (append_loop_spec ls d rest e1 (S (List.length (keys e1))) Hs1 Hls Hlen) as (e2 & -> & Hs2).
  { rewrite (sn_keys _ _ _ Hs1), length_app. pose proof (enter_length ls). lia. }
  cbn [mbind result_bind]. eexists. split; [reflexivity|]. by apply seen_status.
Qed.

Lemma cmd_insert_spec n s d d1 rest e :
  seen d (enter s ++ rest) e -> edits d (Insert n s) d1 ->
  exists e', cmd_insert e (n - 1) = Val e' /\ seen d1 rest e'.
Proof.
  intros Hs He. inversion He as [|n' s' Hn Hlen Hty| | | |]; subst. unfold cmd_insert.
  destruct (seen_fits _ _ _ Hs) as (Hfd & Hzd & _).
  replace (n - 1 <? 0) with false by lia. replace (n - 1 >? line_count e) with false by lia.
  replace (line_count e >=? MAX_LINES) with false by lia. cbn [orb].
  destruct (typable_typed s Hty) as (Hk & Hc & Hl).
  destruct (seen_ask d rest e s (text "text> ") LINE_BUF Hs Hk Hl) as (e1 & -> & Hs1 & Hl1 & Hc1). cbn [mbind result_bind].
  eexists. split; [reflexivity|]. apply seen_status, seen_visible; [unfold MAX_LINES in *; lia|].
  destruct (insert_doc e1 (n - 1) s (gd_shape _ _ _ _ (sn_good _ _ _ Hs1))) as [Hsh Hd]; [lia|lia|].
  rewrite (sn_doc _ _ _ Hs1) in Hd. apply (seen_edit d); [done|exact Hsh|refine (eq_trans Hd _); by rewrite Hc|].
  apply Forall_app. split; [by apply Forall_take|]. constructor; [by apply typable_fits|by apply Forall_drop].
Qed.

Lemma cmd_replace_spec n s d d1 rest e :
  seen d (enter s ++ rest) e -> edits d (Replace n s) d1 ->
  exists e', cmd_replace e (n - 1) = Val e' /\ seen d1 rest e'.
Proof.
  intros Hs He. inversion He as [| |n' s' Hn Hty| | |]; subst. unfold cmd_replace.
  destruct (seen_fits _ _ _ Hs) as (Hfd & Hzd & Hmax).
  replace (n - 1 <? 0) with false by lia. replace (n - 1 >=? line_count e) with false by lia. cbn [orb].
  destruct (typable_typed s Hty) as (Hk & Hc & Hl).
  destruct (seen_ask d rest e s (text "text> ") LINE_BUF Hs Hk Hl) as (e1 & -> & Hs1 & Hl1 & Hc1). cbn [mbind result_bind].
  eexists. split; [reflexivity|]. apply seen_status, seen_visible; [unfold MAX_LINES in *; lia|].
  destruct (replace_doc e1 (n - 1) s (gd_shape _ _ _ _ (sn_good _ _ _ Hs1))) as [Hsh Hd]; [lia|].
  rewrite (sn_doc _ _ _ Hs1) in Hd. apply (seen_edit d); [done|exact Hsh| |].
  - refine (eq_trans Hd _). by rewrite Hc.
  - apply Forall_insert; [done|by apply typable_fits].
Qed.

Lemma cmd_delete_spec n d d1 rest e :
  seen d rest e -> edits d (Delete n) d1 -> exists e', cmd_delete e (n - 1) = Val e' /\ seen d1 rest e'.
Proof.
  intros Hs He. inversion He as [| | |n' Hn| |]; subst. unfold cmd_delete.
  destruct (seen_fits _ _ _ Hs) as (Hfd & Hzd & Hmax).
  replace (n - 1 <? 0) with false by lia. replace (n - 1 >=? line_count e) with false by lia. cbn [orb].
  eexists. split; [reflexivity|]. apply seen_status.
  destruct (delete_doc e (n - 1) (gd_shape _ _ _ _ (sn_good _ _ _ Hs))) as [Hsh Hd]; [lia|].
  rewrite (sn_doc _ _ _ Hs) in Hd. replace (n - 1 + 1) with n in Hd by lia.
  apply (seen_edit d); [done|exact Hsh|exact Hd|]. apply Forall_app. by split; [apply Forall_take|apply Forall_drop].
Qed.

Lemma numbered_spec e ch n usage (k : Z -> result (editor (W := W))) :
  1 <= n <= 1000000 -> numbered e (ch :: decimal n) usage k = k (n - 1).
Proof.
  intros Hn. unfold numbered. change (tail (ch :: decimal n)) with (decimal n).
  rewrite parse_uint_decimal by lia. replace (n <? 0) with false by lia. by rewrite (s32_small n), s32_small by lia.
Qed.

(** A command line with a number. *)
Lemma seen_ask_number d rest e ch n :
  seen d (enter (ch :: decimal n) ++ rest) e -> ch <> c_nl -> ch <> c_bs -> 1 <= n <= 1000000 ->
  exists e', ask e (text "cmd> ") CMD_MAX = Val (e', ch :: decimal n) /\ seen d rest e'.
Proof.
  intros Hs H1 H2 Hn. destruct (seen_ask d rest e (ch :: decimal n) (text "cmd> ") CMD_MAX Hs) as (e' & Ha & Hs' & _).
  - constructor; [done|]. apply decimal_typed. lia.
  - pose proof (decimal_length n). unfold zlen, CMD_MAX in *. cbn [List.length]. lia.
  - by exists e'.
Qed.

End shown.

Section session.
Context {W : Type} `{FileLaws W} (Hlimit : 24200 <= fl_limit) (w0 : W) (name : list Z) (Hw : fl_writable w0 name = true).
Implicit Types (e : editor (W := W)) (st : option (list Z)).

Lemma seen_save st d rest e : seen w0 name st d rest e -> seen w0 name (Some (file_of d)) d rest (save_file e).
Proof.
  intros Hs. pose proof (sn_good _ _ _ _ _ _ Hs) as Hg.
  destruct (good_save Hlimit w0 name _ e Hg) as [Hg' _].
  destruct (save_file_spec e (gd_shape _ _ _ _ Hg) (gd_fits _ _ _ _ Hg) (gd_ok _ _ _ _ Hg) Hlimit) as (Hst & _ & _ & Hm).
  rewrite (gd_writable _ _ _ _ Hg), (gd_name _ _ _ _ Hg), Hw in Hm. destruct Hm as [_ Hf]. destruct Hs.
  split; [done|by rewrite Hf, decide_True, sn_doc0|by rewrite (doc_same e) by apply Hst
    |by rewrite (stx_keys _ _ Hst)|by rewrite (stx_top _ _ Hst)|by rewrite (stx_rows _ _ Hst)].
Qed.

Lemma command_spec st d c d1 rest e :
  seen w0 name st d (typing c ++ rest) e -> edits d c d1 ->
  exists e1 cmd e2, ask e (text "cmd> ") CMD_MAX = Val (e1, cmd) /\ command e1 cmd = Val (Redraw e2) /\
    seen w0 name (stored c d st) d1 rest e2.
Proof.
  intros Hs He. destruct (seen_fits _ _ _ _ _ _ Hs) as (_ & Hzd & Hmax). unfold MAX_LINES in Hmax.
  assert (Hlen : zlen d <= 200) by lia. clear Hmax Hzd.
  destruct c as [ls|n s|n s|n|n|]; cbn [typing stored] in *; rewrite <- ?app_assoc in Hs.
  - destruct (seen_ask w0 name st d _ e (text "a") (text "cmd> ") CMD_MAX Hs) as (e1 & Ha & Hs1 & _); [repeat constructor; done|done|].
    assert (Hd1 : d1 = d ++ ls) by by inversion He. subst d1.
    destruct (cmd_append_spec w0 name st ls d rest e1 Hs1 He) as (e2 & Hc & Hs2).
    exists e1, (text "a"), e2. split; [done|]. split; [|done].
    change (command e1 (text "a")) with (e ← cmd_append e1; Val (Redraw e)). by rewrite Hc.
  - assert (Hn : 1 <= n <= 1000000) by (inversion He; lia). change (text "i" ++ decimal n) with (105 :: decimal n) in Hs.
    destruct (seen_ask_number w0 name st d _ e 105 n Hs) as (e1 & Ha & Hs1); [done..|].
    destruct (cmd_insert_spec w0 name st n s d d1 rest e1 Hs1 He) as (e2 & Hc & Hs2).
    exists e1, (105 :: decimal n), e2. split; [done|]. split; [|done].
    change (command e1 (105 :: decimal n)) with
      (e ← numbered e1 (105 :: decimal n) (text "usage: i<line number>") (cmd_insert e1); Val (Redraw e)).
    by rewrite numbered_spec, Hc.
  - assert (Hn : 1 <= n <= 1000000) by (inversion He; lia). change (text "r" ++ decimal n) with (114 :: decimal n) in Hs.
    destruct (seen_ask_number w0 name st d _ e 114 n Hs) as (e1 & Ha & Hs1); [done..|].
    destruct (cmd_replace_spec w0 name st n s d d1 rest e1 Hs1 He) as (e2 & Hc & Hs2).
    exists e1, (114 :: decimal n), e2. split; [done|]. split; [|done].
    change (command e1 (114 :: decimal n)) with
      (e ← numbered e1 (114 :: decimal n) (text "usage: r<line number>") (cmd_replace e1); Val (Redraw e)).
    by rewrite numbered_spec, Hc.
  - assert (Hn : 1 <= n <= 1000000) by (inversion He; lia). change (text "d" ++ decimal n) with (100 :: decimal n) in Hs.
    destruct (seen_ask_number w0 name st d _ e 100 n Hs) as (e1 & Ha & Hs1); [done..|].
    destruct (cmd_delete_spec w0 name st n d d1 rest e1 Hs1 He) as (e2 & Hc & Hs2).
    exists e1, (100 :: decimal n), e2. split; [done|]. split; [|done].
    change (command e1 (100 :: decimal n)) with
      (e ← numbered e1 (100 :: decimal n) (text "usage: d<line number>") (cmd_delete e1); Val (Redraw e)).
    by rewrite numbered_spec, Hc.
  - assert (Hn : 1 <= n <= 1000000 /\ d1 = d) by (inversion He; split; [lia|done]). destruct Hn as [Hn ->].
    change (text "g" ++ decimal n) with (103 :: decimal n) in Hs.
    destruct (seen_ask_number w0 name st d _ e 103 n Hs) as (e1 & Ha & Hs1); [done..|].
    exists e1, (103 :: decimal n), (ensure_visible e1 (n - 1)). split; [done|]. split; [|by apply seen_visible; [lia|]].
    change (command e1 (103 :: decimal n)) with
      (e ← numbered e1 (103 :: decimal n) (text "usage: g<line number>") (fun line => Val (ensure_visible e1 line)); Val (Redraw e)).
    by rewrite numbered_spec.
  - destruct (seen_ask w0 name st d _ e (text "w") (text "cmd> ") CMD_MAX Hs) as (e1 & Ha & Hs1 & _); [repeat constructor; done|done|].
    assert (Hd1 : d1 = d) by by inversion He. subst d1.
    exists e1, (text "w"), (save_file e1). split; [done|]. split; [reflexivity|]. by apply (seen_save st).
Qed.

(** The commands one after the other, and a last one that leaves with [st2] in the file. *)
Lemma session_loop d st cs d' st' last st2 e fuel :
  session d st cs d' st' -> seen w0 name st d (typed cs last) e -> (List.length cs < fuel)%nat ->
  Forall (fun c => c <> c_nl /\ c <> c_bs) last -> zlen last < CMD_MAX ->
  (forall e1, seen w0 name st' d' [] e1 -> exists e2, command e1 last = Val (Leave e2) /\ seen w0 name st2 d' [] e2) ->
  exists e', command_loop fuel e = Val e' /\ seen w0 name st2 d' [] e'.
Proof.
  intros Hse. revert e fuel. induction Hse as [d st|d st c d1 cs d' st' Hc _ IH]; intros e fuel Hs Hf Hlast Hlen Hleave;
    (destruct fuel as [|fuel]; [lia|]); cbn [command_loop]; unfold typed in Hs.
  - cbn [fmap list_fmap List.concat app] in Hs. rewrite <- (app_nil_r (enter last)) in Hs.
    destruct (seen_ask w0 name st d [] e last (text "cmd> ") CMD_MAX Hs Hlast Hlen) as (e1 & -> & Hs1 & _).
    cbn [mbind result_bind]. destruct (Hleave e1 Hs1) as (e2 & -> & Hs2). eexists. split; [reflexivity|]. by apply seen_show.
  - rewrite fmap_cons in Hs. cbn [List.concat] in Hs. rewrite <- app_assoc in Hs.
    destruct (command_spec st d c d1 _ e Hs Hc) as (e1 & cmd & e2 & -> & Hcmd & Hs2). cbn [mbind result_bind].
    rewrite Hcmd. cbn [mbind result_bind]. destruct (seen_redraw _ _ _ _ _ _ Hs2) as (e3 & -> & Hs3). cbn [mbind result_bind].
    apply IH; [exact Hs3|cbn [List.length] in Hf; lia|done..].
Qed.

Lemma typing_length cs last : (List.length cs < List.length (typed cs last))%nat.
Proof.
  unfold typed, enter. induction cs as [|c cs IH]; [rewrite !length_app; cbn; lia|].
  rewrite fmap_cons. cbn [List.concat List.length]. rewrite <- app_assoc, length_app.
  assert (1 <= List.length (typing c))%nat; [|lia].
  destruct c; cbn [typing]; unfold enter; rewrite ?length_app; cbn [List.length]; lia.
Qed.

Lemma start_session arg argv_len rows d cs d' st' last st2 :
  name = script_name arg argv_len -> name <> [] -> fl_ok w0 -> 4 <= rows <= 1000 -> loads w0 name = d ->
  session d (fl_file w0 name) cs d' st' -> Forall (fun c => c <> c_nl /\ c <> c_bs) last -> zlen last < CMD_MAX ->
  (forall e1, seen w0 name st' d' [] e1 -> exists e2, command e1 last = Val (Leave e2) /\ seen w0 name st2 d' [] e2) ->
  exists e, edit_start arg argv_len rows (typed cs last) w0 = Val (0, e) /\ seen w0 name st2 d' [] e.
Proof.
  intros En Hname Hok Hrows Hd Hse Hlast Hlen Hleave. unfold edit_start. rewrite <- En.
  replace (zlen name =? 0) with false by (by destruct name).
  set (e0 := mk_editor _ _ _ _ _ _ _ _ _).
  pose proof (good_start w0 name (fun _ => True) e0 eq_refl eq_refl eq_refl Hok ltac:(by apply list.Forall_true)) as Hg.
  destruct (load_file_spec e0 eq_refl Hok) as (_ & Hdoc & _ & Hsf & _ & _ & Hr & Ht & Hk).
  assert (Hs : seen w0 name (fl_file w0 name) d (typed cs last) (status (show (load_file e0) [Clear]) (text "loaded"))).
  { apply seen_status, seen_show. split; [done|by apply Hsf|by rewrite Hdoc|by rewrite Hk|rewrite Ht; cbn; lia|by rewrite Hr]. }
  destruct (seen_redraw _ _ _ _ _ _ Hs) as (e1 & -> & Hs1). cbn [mbind result_bind].
  destruct (session_loop d _ cs d' st' last st2 e1 (S (List.length (keys e1))) Hse Hs1) as (e2 & -> & Hs2); try done.
  { rewrite (sn_keys _ _ _ _ _ _ Hs1). pose proof (typing_length cs last). lia. }
  cbn [mbind result_bind]. by exists e2.
Qed.
End session.

(** * Properties of a session *)

(** C25: The editor does what is typed, on a file that may be written in a file system
    that follows [FileLaws] and has room for the 24200 bytes of a full text.  From the
    text the file holds, take any session of commands (append, insert, replace, delete,
    go to, save, each within the bounds of the text and of a line) on a screen of 4 to
    1000 rows.  Typed as keys and ended by [wq] it leaves with status 0, with exactly
    the text the commands make of it, stored in the file line by line, and that file
    loads back as this text if it has at most 24064 bytes.  Ended by [q!] instead, it
    leaves the file with the text of the last save among the commands, and as it was if
    there is none; so each save stores the text of its moment and nothing else stores. *)
Theorem edit_session_correct {W} `{FileLaws W} (Hlimit : 24200 <= fl_limit) (w : W) arg argv_len rows d cs d' st'
    (Hok : fl_ok w) (Hname : script_name arg argv_len <> [])
    (Hw : fl_writable w (script_name arg argv_len) = true) (Hrows : 4 <= rows <= 1000)
    (Hd : loads w (script_name arg argv_len) = d)
    (Hse : session d (fl_file w (script_name arg argv_len)) cs d' st') :
  let name := script_name arg argv_len in
  (exists e, edit_start arg argv_len rows (typed cs (text "wq")) w = Val (0, e) /\
    doc e = d' /\ fl_file (sys e) name = Some (file_of d') /\
    (small d' -> loads (sys e) name = d')) /\
  (exists e, edit_start arg argv_len rows (typed cs (text "q!")) w = Val (0, e) /\
    doc e = d' /\ fl_file (sys e) name = st').
Proof.
  intros name. split.
  - destruct (start_session Hlimit w name Hw arg argv_len rows d cs d' st' (text "wq") (Some (file_of d')))
      as (e & -> & Hs); [done..|repeat constructor; done|done| |].
    { intros e1 Hs. exists (save_file e1). split; [reflexivity|]. by eapply seen_save. }
    exists e. destruct Hs as [Hg Hf Hdoc _ _ _]. split; [done|]. split; [done|]. split; [done|]. intros Hsm.
    apply loads_file_of; [rewrite <- Hdoc; apply Hg|rewrite <- Hdoc; apply doc_nonul|done|exact Hf].
  - destruct (start_session Hlimit w name Hw arg argv_len rows d cs d' st' (text "q!") st')
      as (e & -> & Hs); [done..|repeat constructor; done|done| |].
    { intros e1 Hs. exists e1. split; [reflexivity|done]. }
    exists e. by destruct Hs.
Qed.

(** ** A file system in memory *)

Record simfiles := mk_files { sf_files : gmap (list Z) (list Z); sf_open : option (list Z * Z) }.

Definition sim_get (w : simfiles) (x : list Z) : list Z := default [] (sf_files w !! x).

#[export] Instance sim_calls : FileCalls simfiles := {
  f_open w name flags :=
    if flags =? O_PERSIST then
      if bool_decide (is_Some (sf_files w !! name)) then (3, mk_files (sf_files w) (Some (name, 0))) else (-1, w)
    else (3, mk_files (<[name := []]> (sf_files w)) (Some (name, 0)));
  f_read w fd n :=
    match sf_open w with
    | Some (name, off) =>
        let bytes := take (Z.to_nat n) (drop (Z.to_nat off) (sim_get w name)) in
        (zlen bytes, bytes, mk_files (sf_files w) (Some (name, off + zlen bytes)))
    | None => (-1, [], w)
    end;
  f_write w fd s :=
    match sf_open w with
    | Some (name, off) =>
        (zlen s, mk_files (<[name := take (Z.to_nat off) (sim_get w name) ++ s]> (sf_files w)) (Some (name, off + zlen s)))
    | None => (-1, w)
    end;
  f_close w fd := mk_files (sf_files w) None;
}.

#[export] Program Instance sim_laws : FileLaws simfiles := {
  fl_ok _ := True;
  fl_file w x := sf_files w !! x;
  fl_at w fd := if fd =? 3 then sf_open w else None;
  fl_writable _ _ := true;
  fl_limit := 1000000;
}.
Next Obligation.
  intros w name _. simpl. destruct (sf_files w !! name) as [c|] eqn:E; rewrite ?E.
  - rewrite bool_decide_eq_true_2 by done. exists 3, (mk_files (sf_files w) (Some (name, 0))). by split_and!.
  - rewrite bool_decide_eq_false_2 by (by intros []). exists (-1), w. by split_and!.
Qed.
Next Obligation.
  intros w name _. simpl. do 2 eexists. split; [reflexivity|]. split_and!; try done.
  intros x. simpl. case_decide; [subst; apply lookup_insert_eq|by apply lookup_insert_ne].
Qed.
Next Obligation.
  intros w fd name off c n _ Hat Hf Ho Hn. simpl in *. destruct (fd =? 3) eqn:E; [|done]. rewrite Hat.
  unfold sim_get. rewrite Hf. eexists. split; [reflexivity|]. by split_and!.
Qed.
Next Obligation.
  intros w fd name c s _ Hat Hf Hl. simpl in *. destruct (fd =? 3) eqn:E; [|done]. rewrite Hat.
  unfold sim_get. rewrite Hf. eexists. split; [reflexivity|]. split_and!; try done.
  intros x. simpl. unfold zlen. rewrite Nat2Z.id, firstn_all.
  case_decide; [subst; apply lookup_insert_eq|by apply lookup_insert_ne].
Qed.
Next Obligation. intros w fd _. by split_and!. Qed.

Definition demo_files : simfiles := mk_files {[text "a" := text "one" ++ [c_nl]]} None.
Definition demo_edits : list edit := [Append [text "two"; text "three"]; Replace 1 (text "ONE"); Save; Delete 2; GotoLine 1].

Lemma demo_session :
  session [text "one"] (Some (text "one" ++ [c_nl])) demo_edits [text "ONE"; text "three"]
    (Some (file_of [text "ONE"; text "two"; text "three"])).
Proof.
  assert (Ht : forall s, Forall (fun c => c <> c_nl /\ c <> c_bs /\ c <> 0) s -> zlen s <= MAX_LINE_LEN -> typable s) by by split.
  eapply se_cons; [apply ed_append|].
  { repeat constructor; try done; vm_compute; discriminate. } { done. }
  eapply se_cons; [apply (ed_replace _ 1 (text "ONE")); [done|]|].
  { apply Ht; [|done]. repeat constructor; done. }
  eapply se_cons; [apply ed_save|].
  eapply se_cons; [by apply (ed_delete _ 2)|].
  eapply se_cons; [by apply (ed_goto _ 1)|]. apply se_nil.
Qed.

(** Saved after the second command, and then left with [wq] or with [q!]. *)
Lemma edit_session_correct_witness :
  (exists e, edit_start (text "a") 1 25 (typed demo_edits (text "wq")) demo_files = Val (0, e) /\
    sf_files (sys e) !! text "a" = Some (text "ONE" ++ [c_nl] ++ text "three" ++ [c_nl])) /\
  (exists e, edit_start (text "a") 1 25 (typed demo_edits (text "q!")) demo_files = Val (0, e) /\
    sf_files (sys e) !! text "a" = Some (text "ONE" ++ [c_nl] ++ text "two" ++ [c_nl] ++ text "three" ++ [c_nl])).
Proof.
  destruct (@edit_session_correct simfiles sim_calls sim_laws ltac:(cbn; lia) demo_files (text "a") 1 25 [text "one"] demo_edits
    [text "ONE"; text "three"] (Some (file_of [text "ONE"; text "two"; text "three"])))
    as [(e1 & H1 & _ & F1 & _) (e2 & H2 & _ & F2)].
  - exact I.
  - vm_compute. discriminate.
  - reflexivity.
  - lia.
  - vm_compute. reflexivity.
  - apply demo_session.
  - split.
    + exists e1. split; [exact H1|]. etransitivity; [exact F1|]. vm_compute. reflexivity.
    + exists e2. split; [exact H2|]. etransitivity; [exact F2|]. vm_compute. reflexivity.
Defined.

Lemma edit_loses_nothing_witness :
  exists e, edit_start (text "a") 1 25 (text "d1" ++ [c_nl] ++ text "q" ++ [c_nl] ++ text "wq" ++ [c_nl]) demo_files = Val (0, e) /\
    modified e = false /\ loads (sys e) (text "a") = doc e.
Proof.
  destruct (edit_start (text "a") 1 25 (text "d1" ++ [c_nl] ++ text "q" ++ [c_nl] ++ text "wq" ++ [c_nl]) demo_files)
    as [[r e]| |] eqn:E; [|vm_compute in E; discriminate..].
  assert (Hr : r = 0) by (vm_compute in E; congruence). subst r. exists e. split; [reflexivity|].
  destruct (@edit_loses_nothing simfiles sim_calls sim_laws ltac:(cbn; lia) demo_files (text "a") 1 25 _ e I E) as (_ & _ & _ & H1 & H2).
  assert (Hm : modified e = false) by (apply H2; [repeat constructor; discriminate|reflexivity]).
  split; [exact Hm|]. apply H1; [exact Hm|]. vm_compute in E. injection E as <-. vm_compute. discriminate.
Defined.

(** ** Where the editor goes wrong *)

(** [g0] shows the text from line -1 on, below the array. *)
Lemma edit_goto_zero_faults :
  edit_start (text "a") 1 25 (text "g0" ++ [c_nl] ++ text "q" ++ [c_nl]) demo_files = Fault.
Proof. vm_compute. reflexivity. Qed.

(** A full text is longer than what is read back. *)
Lemma edit_full_text_cut :
  exists d, fits d /\ zlen d = 200 /\ read_content (file_of d) <> file_of d.
Proof.
  exists (replicate 200 (replicate 120 97)). split; [|split; [done|]].
  - split; [done|]. apply Forall_replicate. split; [|done]. apply Forall_replicate. done.
  - intros Heq. apply (f_equal zlen) in Heq. vm_compute in Heq. discriminate.
Qed.
