(* ===== verification/Usys.v ===== *)
(** User programs as interaction trees: the system calls of [programs/syscall.h] are
    the events, a program is the tree of the calls it makes.  The file has the logic
    for what a program does whatever the answers are, and the execution of a program
    against a console and a file system. *)
From S2P Require Import Prelude CString Lang Edit.
From ITree Require Import Core.ITreeDefinition.

Open Scope Z_scope.
Open Scope list_scope.

(** * The calls

    A call that fills a buffer answers with its result and what the buffer holds
    then.  No answer comes back from [sys_exit]. *)
Variant sysE : Type -> Type :=
  | SysWrite (fd : Z) (buf : list Z) : sysE Z
  | SysRead (fd len : Z) : sysE (Z * list Z)
  | SysOpen (name : list Z) (flags : Z) : sysE Z
  | SysClose (fd : Z) : sysE Z
  | SysList (index buf_len : Z) : sysE (Z * list Z)
  | SysRemove (name : list Z) : sysE Z
  | SysChmod (name : list Z) (perm : Z) : sysE Z
  | SysAdduser (username password : list Z) (uid : Z) : sysE Z
  | SysLogin (username password : list Z) : sysE Z
  | SysSpawn (cmdline : list Z) : sysE Z
  | SysSpawnRedirect (cmdline : list Z) (stdin_fd stdout_fd : Z) : sysE Z
  | SysPipe : sysE (Z * (Z * Z))
  | SysWait (pid : Z) : sysE Z
  | SysKill (pid sig : Z) : sysE Z
  | SysWhoami : sysE Z
  | SysGetuid : sysE Z
  | SysUsername (uid out_len : Z) : sysE (Z * list Z)
  | SysMeminfo : sysE (Z * (Z * Z))
  | SysExit (status : Z) : sysE Empty_set.

Definition prog : Type -> Type := itree sysE.

#[export] Instance prog_mbind : MBind prog := fun A B f t => ITree.bind t f.

Definition STDIN : Z := 0.
Definition STDOUT : Z := 1.
Definition SIGKILL : Z := 9.

Definition call {X} (e : sysE X) : prog X := ITree.trigger e.
Definition exit {R} (status : Z) : prog R := call (SysExit status) ≫= fun x : Empty_set => match x with end.

(** [while (1) body]; the body leaves with [inr]. *)
Definition loop {I R} (body : I -> prog (I + R)) (i : I) : prog R := ITree.iter body i.

(** * Whatever the answers are

    A program is [safe] for [n] steps if every call it makes is allowed in the state of
    a monitor, as long as the answers keep to [rely]; when it returns within them, [Q]
    holds. *)
Section safety.
Context {S : Type}.
Context (guar : forall X, sysE X -> S -> Prop) (rely : forall X, sysE X -> X -> Prop).
Context (next : forall X, sysE X -> S -> X -> S).

Fixpoint safe {R} (n : nat) (t : prog R) (s : S) (Q : R -> S -> Prop) : Prop :=
  match n with
  | O => True
  | Datatypes.S n =>
      match observe t with
      | RetF r => Q r s
      | TauF t => safe n t s Q
      | VisF e k => guar _ e s /\ forall a, rely _ e a -> safe n (k a) (next _ e s a) Q
      end
  end.

(** A call made and its answer. *)
Record step := mk_step { st_type : Type; st_call : sysE st_type; st_answer : st_type }.

(** The finite beginnings of the runs of a program. *)
Inductive trace {R} : prog R -> list step -> Prop :=
  | trace_stop t : trace t []
  | trace_tau t u l : observe t = TauF u -> trace u l -> trace t l
  | trace_call t X (e : sysE X) k a l :
      observe t = VisF e k -> trace (k a) l -> trace t (mk_step X e a :: l).

(** Every call of the trace is allowed, up to the first answer against [rely]. *)
Fixpoint allowed (s : S) (l : list step) : Prop :=
  match l with
  | [] => True
  | mk_step X e a :: l => guar X e s /\ (rely X e a -> allowed (next X e s a) l)
  end.

Lemma safe_trace {R} (t : prog R) s Q l : (forall n, safe n t s Q) -> trace t l -> allowed s l.
Proof.
  intros Hs Ht. revert s Hs. induction Ht as [t|t u l E _ IH|t X e k a l E _ IH]; intros s Hs; [done| |].
  - apply IH. intros n. specialize (Hs (Datatypes.S n)). cbn [safe] in Hs. by rewrite E in Hs.
  - pose proof (Hs 1%nat) as H1. cbn [safe] in H1. rewrite E in H1. split; [apply H1|]. intros Ha. apply IH. intros n.
    specialize (Hs (Datatypes.S n)). cbn [safe] in Hs. rewrite E in Hs. by apply Hs.
Qed.

Lemma safe_mono {R} n m (t : prog R) s (Q Q' : R -> S -> Prop) :
  (m <= n)%nat -> (forall r s, Q r s -> Q' r s) -> safe n t s Q -> safe m t s Q'.
Proof.
  intros Hm HQ. revert m t s Hm. induction n as [|n IH]; (intros [|m] t s Hm; [done|]); [lia|]. cbn [safe].
  destruct (observe t) as [r|u|X e k]; [by apply HQ|apply IH; lia|].
  intros [Hg Hk]. split; [done|]. intros a Ha. apply IH; [lia|]. by apply Hk.
Qed.

Lemma safe_ret {R} n (r : R) s (Q : R -> S -> Prop) : Q r s -> safe n (Ret r) s Q.
Proof. by destruct n. Qed.

Lemma safe_call {X} n (e : sysE X) s (Q : X -> S -> Prop) :
  guar X e s -> (forall a, rely X e a -> Q a (next X e s a)) -> safe n (call e) s Q.
Proof. intros Hg HQ. destruct n as [|n]; [done|]. split; [done|]. intros a Ha. apply safe_ret. by apply HQ. Qed.

Lemma observe_bind {A R} (t : prog A) (k : A -> prog R) :
  observe (ITree.bind t k) =
  match observe t with
  | RetF r => observe (k r)
  | TauF u => TauF (ITree.bind u k)
  | VisF e h => VisF e (fun x => ITree.bind (h x) k)
  end.
Proof.
  change (observe (ITree.bind t k)) with (observe (match observe t with
    | RetF r => k r
    | TauF u => Tau (ITree.bind u k)
    | VisF e h => Vis e (fun x => ITree.bind (h x) k)
    end)).
  by destruct (observe t).
Qed.

Lemma safe_bind {A R} n (t : prog A) (k : A -> prog R) s Q' Q :
  safe n t s Q' -> (forall m r s, (m <= n)%nat -> Q' r s -> safe m (k r) s Q) -> safe n (t ≫= k) s Q.
Proof.
  unfold mbind, prog_mbind. revert t s. induction n as [|n IH]; intros t s Ht Hk; [done|].
  cbn [safe] in *. rewrite observe_bind. destruct (observe t) as [r|u|X e h].
  - exact (Hk (Datatypes.S n) r s (le_n _) Ht).
  - apply IH; [done|]. intros m r s' Hm. apply Hk. lia.
  - destruct Ht as [Hg Ht]. split; [done|]. intros a Ha. apply IH; [by apply Ht|]. intros m r s' Hm. apply Hk. lia.
Qed.

(** A call, then the rest. *)
Lemma safe_then {X R} n (e : sysE X) (k : X -> prog R) s Q :
  guar X e s -> (forall m a, rely X e a -> safe m (k a) (next X e s a) Q) -> safe n (call e ≫= k) s Q.
Proof.
  intros Hg Hk. eapply (safe_bind _ _ _ _ (fun a s' => rely X e a /\ s' = next X e s a)).
  - by apply safe_call.
  - intros m a s' _ [Ha ->]. by apply Hk.
Qed.

Lemma safe_exit {R} n status s (Q : R -> S -> Prop) : guar _ (SysExit status) s -> safe n (exit status) s Q.
Proof. intros Hg. apply safe_then; [done|]. intros m []. Qed.

(** A loop keeps an invariant. *)
Lemma safe_loop {I R} n (body : I -> prog (I + R)) i s (inv : I -> S -> Prop) (Q : R -> S -> Prop) :
  inv i s ->
  (forall m i s, inv i s -> safe m (body i) s (fun r s => match r with inl i => inv i s | inr r => Q r s end)) ->
  safe n (loop body i) s Q.
Proof.
  intros Hi Hb. revert i s Hi. induction (lt_wf n) as [n _ IH]. intros i s Hi.
  assert (H : safe n (body i ≫= (fun lr => match lr with inl l => Tau (loop body l) | inr r => Ret r end)) s Q).
  { eapply safe_bind; [by apply Hb|]. intros m [l|r] s' Hm Hr; [|by apply safe_ret].
    destruct m as [|m]; [done|]. cbn [safe]. apply IH; [lia|done]. }
  destruct n as [|n]; [done|]. exact H.
Qed.
End safety.

(** * Against a console and files

    [w_keys]: what will be typed; [w_screen]: what has been written; [w_sys]: the rest
    of the system, with its file calls and, for the other calls, [other], which may never
    come back. *)
Class OtherCalls (W : Type) := other : forall X, sysE X -> W -> option (X * W).

Record world (W : Type) := mk_world { w_keys : list Z; w_screen : list Z; w_sys : W }.
Arguments mk_world {W}.
Arguments w_keys {W}.
Arguments w_screen {W}.
Arguments w_sys {W}.

(** Why a program goes no further: a call does not come back (no key is typed), or it
    has ended. *)
Inductive halt := Waiting | Exited (status : Z).

Section world.
Context {W : Type} `{FileCalls W} `{OtherCalls W}.
Implicit Types (w : world W).

Definition with_sys w {X} (r : X * W) : X * world W := (r.1, mk_world (w_keys w) (w_screen w) r.2).

(** The console is read one key at a time. *)
Definition handle {X} (e : sysE X) : world W -> (X * world W) + halt :=
  match e in sysE X return world W -> (X * world W) + halt with
  | SysWrite fd buf => fun w =>
      if fd =? STDOUT then inl (zlen buf, mk_world (w_keys w) (w_screen w ++ buf) (w_sys w))
      else inl (with_sys w (f_write (w_sys w) fd buf))
  | SysRead fd len => fun w =>
      if (fd =? STDIN) && (len =? 1) then
        match w_keys w with
        | [] => inr Waiting
        | c :: ks => inl ((1, [c]), mk_world ks (w_screen w) (w_sys w))
        end
      else inl (with_sys w (f_read (w_sys w) fd len))
  | SysOpen name flags => fun w => inl (with_sys w (f_open (w_sys w) name flags))
  | SysClose fd => fun w => inl (with_sys w (0, f_close (w_sys w) fd))
  | SysExit status => fun w => inr (Exited status)
  | e => fun w => match other _ e (w_sys w) with Some r => inl (with_sys w r) | None => inr Waiting end
  end.

(** A run of a program to its result or its halt. *)
Inductive runs {R} : prog R -> world W -> R + halt -> world W -> Prop :=
  | runs_ret t w r : observe t = RetF r -> runs t w (inl r) w
  | runs_tau t u w o w' : observe t = TauF u -> runs u w o w' -> runs t w o w'
  | runs_call t X (e : sysE X) k a w1 w o w' :
      observe t = VisF e k -> handle e w = inl (a, w1) -> runs (k a) w1 o w' -> runs t w o w'
  | runs_halt t X (e : sysE X) k w h : observe t = VisF e k -> handle e w = inr h -> runs t w (inr h) w.

(** The same with fuel. *)
Fixpoint run {R} (fuel : nat) (t : prog R) w : option ((R + halt) * world W) :=
  match fuel with
  | O => None
  | S fuel =>
      match observe t with
      | RetF r => Some (inl r, w)
      | TauF t => run fuel t w
      | VisF e k => match handle e w with inl (a, w) => run fuel (k a) w | inr h => Some (inr h, w) end
      end
  end.

Lemma run_runs {R} fuel (t : prog R) w o w' : run fuel t w = Some (o, w') -> runs t w o w'.
Proof.
  revert t w. induction fuel as [|n IH]; intros t w; [done|]. cbn [run].
  destruct (observe t) as [r|u|X e k] eqn:E.
  - intros [= <- <-]. by apply runs_ret.
  - intros Hr. eapply runs_tau; [done|]. by apply IH.
  - destruct (handle e w) as [[a w1]|h] eqn:Eh.
    + intros Hr. eapply runs_call; [done..|]. by apply IH.
    + intros [= <- <-]. by eapply runs_halt.
Qed.

Lemma runs_run {R} (t : prog R) w o w' : runs t w o w' -> exists fuel, run fuel t w = Some (o, w').
Proof.
  induction 1 as [t w r E|t u w o w' E _ [n IH]|t X e k a w1 w o w' E Eh _ [n IH]|t X e k w h E Eh].
  - exists 1%nat. cbn. by rewrite E.
  - exists (S n). cbn. by rewrite E.
  - exists (S n). cbn. by rewrite E, Eh.
  - exists 1%nat. cbn. by rewrite E, Eh.
Qed.

Lemma runs_bind {A R} (t : prog A) (k : A -> prog R) w a w1 o w' :
  runs t w (inl a) w1 -> runs (k a) w1 o w' -> runs (t ≫= k) w o w'.
Proof.
  unfold mbind, prog_mbind. intros Ht Hk. remember (inl a) as oa eqn:Ea. revert a Ea Hk.
  induction Ht as [t w r E|t u w oa w1 E _ IH|t X e h x w0 w oa w1 E Eh _ IH|t X e h w hh E Eh]; intros a Ea Hk; [| | |done].
  - injection Ea as ->. inversion Hk; subst; [eapply runs_ret|eapply runs_tau|eapply runs_call|eapply runs_halt];
      rewrite ?observe_bind, ?E; done.
  - eapply runs_tau; [rewrite observe_bind, E; done|]. by eapply IH.
  - eapply runs_call; [rewrite observe_bind, E; done|done|]. by eapply IH.
Qed.

Lemma runs_bind_halt {A R} (t : prog A) (k : A -> prog R) w h w' :
  runs t w (inr h) w' -> runs (t ≫= k) w (inr h) w'.
Proof.
  unfold mbind, prog_mbind. intros Ht. remember (inr h) as oa eqn:Ea.
  induction Ht as [t w r E|t u w oa w1 E _ IH|t X e h' x w0 w oa w1 E Eh _ IH|t X e h' w hh E Eh]; [done|..].
  - eapply runs_tau; [rewrite observe_bind, E; done|]. by apply IH.
  - eapply runs_call; [rewrite observe_bind, E; done|done|]. by apply IH.
  - injection Ea as ->. eapply runs_halt; [rewrite observe_bind, E|]; done.
Qed.

Lemma runs_then {X R} (e : sysE X) (k : X -> prog R) a w w1 o w' :
  handle e w = inl (a, w1) -> runs (k a) w1 o w' -> runs (call e ≫= k) w o w'.
Proof. intros He Hk. eapply runs_bind; [|exact Hk]. eapply runs_call; [done|done|]. by apply runs_ret. Qed.

Lemma runs_halts {X R} (e : sysE X) (k : X -> prog R) w h :
  handle e w = inr h -> runs (call e ≫= k) w (inr h) w.
Proof. intros He. apply runs_bind_halt. by eapply runs_halt. Qed.

(** A turn of a loop that goes on, and the last one. *)
Lemma runs_loop {I R} (body : I -> prog (I + R)) i i' w w1 o w' :
  runs (body i) w (inl (inl i')) w1 -> runs (loop body i') w1 o w' -> runs (loop body i) w o w'.
Proof.
  intros Hb Hl.
  assert (Hr : runs (body i ≫= (fun lr => match lr with inl l => Tau (loop body l) | inr r => Ret r end)) w o w').
  { eapply runs_bind; [done|]. by eapply runs_tau. }
  inversion Hr; [eapply runs_ret|eapply runs_tau|eapply runs_call|eapply runs_halt]; done.
Qed.

Lemma runs_loop_end {I R} (body : I -> prog (I + R)) i r w w' :
  runs (body i) w (inl (inr r)) w' -> runs (loop body i) w (inl r) w'.
Proof.
  intros Hb.
  assert (Hr : runs (body i ≫= (fun lr => match lr with inl l => Tau (loop body l) | inr r => Ret r end)) w (inl r) w').
  { eapply runs_bind; [done|]. by eapply runs_ret. }
  inversion Hr; [eapply runs_ret|eapply runs_tau|eapply runs_call]; done.
Qed.

Lemma runs_loop_halt {I R} (body : I -> prog (I + R)) i h w w' :
  runs (body i) w (inr h) w' -> runs (loop body i) w (inr h) w'.
Proof.
  intros Hb.
  assert (Hr : runs (body i ≫= (fun lr => match lr with inl l => Tau (loop body l) | inr r => Ret r end)) w (inr h) w')
    by by apply runs_bind_halt.
  inversion Hr; [eapply runs_tau|eapply runs_call|eapply runs_halt]; done.
Qed.

(** The calls of a run, with their answers. *)
Fixpoint follow {R} (fuel : nat) (t : prog R) w : list step :=
  match fuel with
  | O => []
  | S fuel =>
      match observe t with
      | RetF _ => []
      | TauF t => follow fuel t w
      | VisF e k => match handle e w with inl (a, w) => mk_step _ e a :: follow fuel (k a) w | inr _ => [] end
      end
  end.

Lemma follow_trace {R} fuel (t : prog R) w : trace t (follow fuel t w).
Proof.
  revert t w. induction fuel as [|n IH]; intros t w; [apply trace_stop|]. cbn [follow].
  destruct (observe t) as [r|u|X e k] eqn:E; [apply trace_stop|by eapply trace_tau|].
  destruct (handle e w) as [[a w1]|h]; [by eapply trace_call|apply trace_stop].
Qed.
End world.
