(* ===== verification/Sh.v ===== *)
(** The shell of [programs/sh.c]. *)
From S2P Require Import Prelude CString Lang Edit Usys.
From Stdlib Require Import String.
From ITree Require Import Core.ITreeDefinition.

Open Scope Z_scope.
Open Scope list_scope.

Definition LINE_MAX : Z := 120.
Definition UFS_PERM_OTHER_READ : Z := 1.
Definition UFS_PERM_OTHER_WRITE : Z := 2.

Definition c_comma : Z := 44.
Definition c_bar : Z := 124.

(** * Output and input *)

Definition print (s : list Z) : prog unit := _ ← call (SysWrite STDOUT (cstr s)); Ret tt.

Fixpoint put_each (l : list Z) : prog unit :=
  match l with
  | [] => Ret tt
  | c :: l => _ ← call (SysWrite STDOUT [c]); put_each l
  end.

(** The digits are found from the last and written from the first. *)
Definition print_ulong (value : Z) : prog unit :=
  if value =? 0 then put_each [c_0] else put_each (rev (digits_rev 20 value)).

(** One key: the line so far, or the line entered. *)
Definition read_key (max : Z) (buf : list Z) : prog (list Z + list Z) :=
  '(_, b) ← call (SysRead STDIN 1);
  let c := b.[0] in
  if c =? c_nl then _ ← call (SysWrite STDOUT [c]); Ret (inr buf)
  else if c =? c_bs then
    if 0 <? zlen buf then _ ← call (SysWrite STDOUT [c]); Ret (inl (take (List.length buf - 1) buf))
    else Ret (inl buf)
  else if zlen buf <? max - 1 then _ ← call (SysWrite STDOUT [c]); Ret (inl (buf ++ [c]))
  else Ret (inl buf).

Definition read_line (max : Z) : prog (list Z) := loop (read_key max) [].

(** * Files *)

Definition cmd_ls : prog unit :=
  loop (fun index =>
    '(r, name) ← call (SysList index 32);
    if r <? 0 then Ret (inr tt)
    else _ ← print name; _ ← print [c_nl]; Ret (inl (index +64 1))) 0.

Definition cmd_write (name : list Z) : prog unit :=
  if peek name =? 0 then print (text "usage: write <name>" ++ [c_nl])
  else
    fd ← call (SysOpen (cstr name) (O_CREATE + O_PERSIST + O_TRUNC));
    if fd <? 0 then
      _ ← print (text "write: could not open '"); _ ← print name; print (text "'" ++ [c_nl])
    else
      _ ← print (text "content> ");
      line ← read_line LINE_MAX;
      _ ← call (SysWrite (s32 fd) line);
      _ ← call (SysClose (s32 fd));
      _ ← print (text "saved "); _ ← print name; _ ← print (text " (");
      _ ← print_ulong (zlen line);
      print (text " bytes, persists across reboot)" ++ [c_nl]).

Definition cat_chunk (fd : Z) (_ : unit) : prog (unit + unit) :=
  '(n, buf) ← call (SysRead (s32 fd) 128);
  if n >? 0 then _ ← call (SysWrite STDOUT (take (Z.to_nat n) buf)); Ret (inl tt)
  else Ret (inr tt).

Definition cmd_cat (name : list Z) : prog unit :=
  if peek name =? 0 then print (text "usage: cat <name>" ++ [c_nl])
  else
    fd ← call (SysOpen (cstr name) O_PERSIST);
    if fd <? 0 then
      _ ← print (text "cat: no such file: "); _ ← print name; print [c_nl]
    else
      _ ← loop (cat_chunk fd) tt;
      _ ← print [c_nl];
      _ ← call (SysClose (s32 fd)); Ret tt.

(** A word of at most [max] characters. *)
Fixpoint word (max : nat) (s : list Z) : list Z :=
  match max, s with
  | S max, c :: s => if (c =? 0) || (c =? c_space) then [] else c :: word max s
  | _, _ => []
  end.

Definition cmd_chmod (args : list Z) : prog unit :=
  let name := word 31 args in
  let mode := skip_spaces (drop (List.length name) args) in
  let perm :=
    if str_eq_and mode (text "private") then Some 0
    else if str_eq_and mode (text "readonly") then Some UFS_PERM_OTHER_READ
    else if str_eq_and mode (text "public") then Some (Z.lor UFS_PERM_OTHER_READ UFS_PERM_OTHER_WRITE)
    else None in
  match perm with
  | None => print (text "usage: chmod <name> private|readonly|public" ++ [c_nl])
  | Some perm =>
      r ← (if peek name =? 0 then Ret (-1) else call (SysChmod name perm));
      if r <? 0 then print (text "chmod: failed (not found, or you don't own it)" ++ [c_nl])
      else
        _ ← print (text "chmod: "); _ ← print name; _ ← print (text " is now "); _ ← print mode; print [c_nl]
  end.

Definition cmd_useradd (args : list Z) : prog unit :=
  let username := word 19 args in
  let p := skip_spaces (drop (List.length username) args) in
  let password := word 31 p in
  let p := skip_spaces (drop (List.length password) p) in
  let have_uid := is_digit (peek p) in
  let uid := (read_number p 0).1 in
  if (peek username =? 0) || (peek password =? 0) || negb have_uid then
    print (text "usage: useradd <username> <password> <uid>" ++ [c_nl])
  else
    r ← call (SysAdduser username password (u64 uid));
    if r <? 0 then print (text "useradd: failed (not root, bad name, or already exists)" ++ [c_nl])
    else _ ← print (text "useradd: created "); _ ← print username; print [c_nl].

Definition cmd_rm (name : list Z) : prog unit :=
  if peek name =? 0 then print (text "usage: rm <name>" ++ [c_nl])
  else
    r ← call (SysRemove (cstr name));
    if r <? 0 then _ ← print (text "rm: no such file: "); _ ← print name; print [c_nl]
    else _ ← print (text "removed "); _ ← print name; print [c_nl].

(** * Programs *)

Definition find_pipe (line : list Z) : Z :=
  default (-1) (find_first 0 (zlen (cstr line)) (fun i => (line.[i] =? c_bar) || (line.[i] =? c_comma))).

Definition trim (s : list Z) : list Z := skip_spaces (rev (skip_spaces (rev (cstr s)))).

(** [if (pid >= 0) sys_wait(pid)] *)
Definition wait_child (pid : Z) : prog unit :=
  if pid >=? 0 then _ ← call (SysWait pid); Ret tt else Ret tt.

Definition cmd_pipeline (line : list Z) (pipe_at : Z) : prog unit :=
  let lhs := trim (take (Z.to_nat pipe_at) line) in
  let rhs := trim (drop (Z.to_nat (pipe_at + 1)) line) in
  if (peek lhs =? 0) || (peek rhs =? 0) then print (text "usage: cmd1 | cmd2" ++ [c_nl])
  else
    '(r, (read_fd, write_fd)) ← call SysPipe;
    if r <? 0 then print (text "pipe: could not create" ++ [c_nl])
    else
      pid1 ← call (SysSpawnRedirect lhs (-1) write_fd);
      pid2 ← call (SysSpawnRedirect rhs read_fd (-1));
      _ ← call (SysClose (s32 read_fd));
      _ ← call (SysClose (s32 write_fd));
      _ ← (if (pid1 <? 0) || (pid2 <? 0) then print (text "pipe: spawn failed" ++ [c_nl]) else Ret tt);
      _ ← wait_child pid1;
      wait_child pid2.

Definition cmd_bg (cmdline : list Z) : prog unit :=
  pid ← call (SysSpawn cmdline);
  if pid <? 0 then _ ← print (text "spawn failed: "); _ ← print cmdline; print [c_nl]
  else _ ← print (text "started in background, pid "); _ ← print_ulong (u64 pid); print [c_nl].

Definition cmd_kill (args : list Z) : prog unit :=
  let pid := (read_number args 0).1 in
  if pid <=? 0 then print (text "usage: kill <pid>" ++ [c_nl])
  else
    r ← call (SysKill pid SIGKILL);
    if r <? 0 then _ ← print (text "kill: no such process: "); _ ← print_ulong (u64 pid); print [c_nl]
    else _ ← print (text "killed pid "); _ ← print_ulong (u64 pid); print [c_nl].

Definition cmd_program (line : list Z) : prog unit :=
  pid ← call (SysSpawn line);
  if pid <? 0 then _ ← print (text "spawn failed: "); _ ← print line; print [c_nl]
  else _ ← call (SysWait pid); Ret tt.

(** * The command line *)

Definition command_line (line : list Z) : prog unit :=
  let pipe_at := find_pipe line in
  if pipe_at >=? 0 then cmd_pipeline line pipe_at
  else if str_eq_and line (text "exit") then exit 0
  else if str_eq_and line (text "ls") then cmd_ls
  else if str_starts_with line (text "write ") then cmd_write (drop 6 line)
  else if str_starts_with line (text "cat ") then cmd_cat (drop 4 line)
  else if str_starts_with line (text "rm ") then cmd_rm (drop 3 line)
  else if str_starts_with line (text "chmod ") then cmd_chmod (drop 6 line)
  else if str_starts_with line (text "useradd ") then cmd_useradd (drop 8 line)
  else if str_starts_with line (text "bg ") then cmd_bg (drop 3 line)
  else if str_starts_with line (text "kill ") then cmd_kill (drop 5 line)
  else cmd_program line.

Definition prompt : list Z := text "sh> ".

Definition sh_turn (_ : unit) : prog (unit + Empty_set) :=
  _ ← print prompt;
  line ← read_line LINE_MAX;
  _ ← (if zlen line =? 0 then Ret tt else command_line line);
  Ret (inl tt).

Definition banner : list (list Z) :=
  map (fun s => text s ++ [c_nl]) [
    "MiniKernel userspace shell";
    "type a program name to run it, 'ls' to list files, 'exit' to quit";
    "'write <name>' / 'cat <name>' / 'rm <name>' for persistent files";
    "'chmod <name> private|readonly|public' to set who else can access it";
    "'useradd <name> <password> <uid>' to create an account (root only)";
    "'bg <program>' to run in the background, 'kill <pid>' to stop it";
    "'cmd1 | cmd2' to pipe one program's output into another";
    "(this keyboard layout has no | key yet - use ',' instead)"]%string.

Fixpoint print_all (l : list (list Z)) : prog unit :=
  match l with
  | [] => Ret tt
  | s :: l => _ ← print s; print_all l
  end.

Definition sh_start : prog Empty_set := _ ← print_all banner; loop sh_turn tt.
