(* ===== verification/ShSpec.v ===== *)
(** What the shell promises: whatever is typed and whatever the system answers, its
    calls keep to a protocol; and a session over files does what was typed. *)
From S2P Require Import Prelude CString Lang LangSpec LangRun Edit EditSpec Usys Sh.
From Stdlib Require Import String.
From ITree Require Import Core.ITreeDefinition.

Open Scope Z_scope.
Open Scope list_scope.

(** * The protocol

    [m_open]: the descriptors the shell holds; [m_children]: the programs it has
    started and not waited for; [m_copying]: the last call read a file. *)
Record monitor := mk_monitor { m_open : list Z; m_children : list Z; m_copying : bool }.

Definition idle (m : monitor) : Prop := m_open m = [] /\ m_children m = [].

Fixpoint remove_one (x : Z) (l : list Z) : list Z :=
  match l with
  | [] => []
  | y :: l => if decide (x = y) then l else y :: remove_one x l
  end.

(** The report that leaves a child alone. *)
Definition background : list Z := text "started in background, pid ".

(** The calls allowed: the prompt only when no descriptor is open and every child has
    been waited for; files and pipes one at a time; only descriptors held are read,
    written and closed; a program is started, or waited for, only while no
    descriptor is held, except the two ends of a pipe given to the two children. *)
Definition allows {X} (e : sysE X) (m : monitor) : Prop :=
  match e with
  | SysWrite fd buf =>
      (fd = STDOUT \/ fd ∈ m_open m) /\
      (fd = STDOUT -> buf = prompt -> m_copying m = false -> idle m)
  | SysRead fd len => (fd = STDIN /\ len = 1) \/ (fd ∈ m_open m /\ 0 <= len <= 4096)
  | SysOpen _ _ | SysPipe => idle m
  | SysClose fd => fd ∈ m_open m
  | SysSpawn cmdline => idle m /\ zlen cmdline < 128
  | SysSpawnRedirect cmdline stdin_fd stdout_fd =>
      cmdline <> [] /\ zlen cmdline < 128 /\
      (stdin_fd = -1 \/ stdin_fd ∈ m_open m) /\ (stdout_fd = -1 \/ stdout_fd ∈ m_open m)
  | SysWait pid => m_open m = [] /\ pid ∈ m_children m
  | SysKill pid sig => idle m /\ 0 < pid /\ sig = SIGKILL
  | SysAdduser username password _ => idle m /\ zlen username < 20 /\ zlen password < 32
  | SysChmod name perm => idle m /\ zlen name < 32 /\ 0 <= perm <= 3
  | _ => idle m
  end.

(** What the system promises: descriptors are small numbers, above the two that every
    program starts with. *)
Definition descriptor (fd : Z) : Prop := 2 <= fd < 32768.

Definition answers {X} (e : sysE X) : X -> Prop :=
  match e in sysE X return X -> Prop with
  | SysOpen _ _ => fun fd => 0 <= fd -> descriptor fd
  | SysPipe => fun r => 0 <= r.1 -> descriptor r.2.1 /\ descriptor r.2.2
  | _ => fun _ => True
  end.

Definition after {X} (e : sysE X) (m : monitor) : X -> monitor :=
  match e in sysE X return X -> monitor with
  | SysWrite fd buf => fun _ =>
      mk_monitor (m_open m) (if bool_decide (fd = STDOUT /\ buf = background) then [] else m_children m) false
  | SysRead fd _ => fun _ => mk_monitor (m_open m) (m_children m) (negb (fd =? STDIN))
  | SysOpen _ _ => fun fd => mk_monitor (if 0 <=? fd then fd :: m_open m else m_open m) (m_children m) false
  | SysPipe => fun r => mk_monitor (if 0 <=? r.1 then [r.2.1; r.2.2] ++ m_open m else m_open m) (m_children m) false
  | SysClose fd => fun _ => mk_monitor (remove_one fd (m_open m)) (m_children m) false
  | SysSpawn _ => fun pid => mk_monitor (m_open m) (if 0 <=? pid then pid :: m_children m else m_children m) false
  | SysSpawnRedirect _ _ _ => fun pid =>
      mk_monitor (m_open m) (if 0 <=? pid then pid :: m_children m else m_children m) false
  | SysWait pid => fun _ => mk_monitor (m_open m) (remove_one pid (m_children m)) false
  | _ => fun _ => mk_monitor (m_open m) (m_children m) false
  end.

Abbreviation keeps := (safe (fun X => @allows X) (fun X => @answers X) (fun X => @after X)).

(** ** Each part keeps to it *)

(** [still m m']: nothing was opened, closed, started or waited for. *)
Definition still (m m' : monitor) : Prop := m_open m' = m_open m /\ m_children m' = m_children m.

Abbreviation ends n t m := (keeps n t m (fun _ => idle)).

Lemma idle_still m m' : still m m' -> idle m -> idle m'.
Proof. intros [E1 E2] []. split; congruence. Qed.

(** A text that is neither the prompt nor the report, in any state; and any text in
    an idle one. *)
Lemma keeps_write {R} n s m (k : Z -> prog R) Q :
  s <> prompt -> s <> background -> (forall n r m', still m m' -> m_copying m' = false -> keeps n (k r) m' Q) ->
  keeps n (call (SysWrite STDOUT s) ≫= k) m Q.
Proof.
  intros H1 H2 Hk. apply safe_then; [by split; [left|]|]. intros j a _. apply Hk; [|done]. cbn [after].
  split; [done|]. by rewrite bool_decide_eq_false_2 by tauto.
Qed.

Lemma ends_write {R} n s m (k : Z -> prog R) Q :
  idle m -> (forall n r m', idle m' -> keeps n (k r) m' Q) -> keeps n (call (SysWrite STDOUT s) ≫= k) m Q.
Proof.
  intros Hi Hk. apply safe_then; [by split; [left|]|]. intros j a _. apply Hk. cbn [after].
  destruct Hi. split; [done|]. by case_bool_decide.
Qed.

Lemma keeps_print {R} n s m (k : unit -> prog R) Q :
  cstr s <> prompt -> cstr s <> background -> (forall n m', still m m' -> keeps n (k tt) m' Q) ->
  keeps n (print s ≫= k) m Q.
Proof.
  intros H1 H2 Hk. eapply (safe_bind _ _ _ _ _ _ _ (fun _ m' => still m m')).
  - apply keeps_write; [done..|]. intros j r m' Hm _. by apply safe_ret.
  - intros j [] m' _ Hm. by apply Hk.
Qed.

Lemma ends_print {R} n s m (k : unit -> prog R) Q :
  idle m -> (forall n m', idle m' -> keeps n (k tt) m' Q) -> keeps n (print s ≫= k) m Q.
Proof.
  intros Hi Hk. eapply (safe_bind _ _ _ _ _ _ _ (fun _ => idle)).
  - apply ends_write; [done|]. intros j r m' Hm. by apply safe_ret.
  - intros j [] m' _ Hm. by apply Hk.
Qed.

Lemma ends_last n s m : idle m -> ends n (print s) m.
Proof. intros Hi. apply ends_write; [done|]. intros j r m' Hm. by apply safe_ret. Qed.

(** One character is neither. *)
Lemma keeps_char {R} n c m (k : Z -> prog R) Q :
  (forall n r m', still m m' -> m_copying m' = false -> keeps n (k r) m' Q) -> keeps n (call (SysWrite STDOUT [c]) ≫= k) m Q.
Proof. by apply keeps_write. Qed.

Lemma keeps_put_each n l m : keeps n (put_each l) m (fun _ => still m).
Proof.
  revert n m. induction l as [|c l IH]; intros n m; [by apply safe_ret|]. apply keeps_char. intros j r m' Hm _.
  eapply safe_mono; [done| |apply IH]. intros ? m2 Hm2. destruct Hm, Hm2. split; congruence.
Qed.

Lemma keeps_print_ulong {R} n v m (k : unit -> prog R) Q :
  (forall n m', still m m' -> keeps n (k tt) m' Q) -> keeps n (print_ulong v ≫= k) m Q.
Proof.
  intros Hk. eapply safe_bind; [unfold print_ulong; destruct (v =? 0); apply keeps_put_each|].
  intros j [] m' _. apply Hk.
Qed.

(** A line read fits the buffer. *)
Lemma keeps_read_line {R} n max m (k : list Z -> prog R) Q :
  0 < max -> (forall n l m', still m m' -> zlen l < max -> keeps n (k l) m' Q) -> keeps n (read_line max ≫= k) m Q.
Proof.
  intros Hmax Hk. eapply (safe_bind _ _ _ _ _ _ _ (fun l m' => still m m' /\ zlen l < max)); [|intros j l m' _ []; by apply Hk].
  apply (safe_loop _ _ _ _ _ _ _ (fun l m' => still m m' /\ zlen l < max)).
  { split; [done|]. unfold zlen. cbn. lia. }
  intros j l m' [Hm Hl]. unfold read_key. apply safe_then; [by left|]. intros i [r b] _. cbn [after].
  assert (Hm1 : still m (mk_monitor (m_open m') (m_children m') (negb (STDIN =? STDIN)))) by done.
  set (good := fun (r : list Z + list Z) m2 => match r with inl l | inr l => still m m2 /\ zlen l < max end).
  set (m1 := mk_monitor _ _ _) in *.
  assert (Hs : forall i (res : list Z + list Z), match res with inl l | inr l => zlen l < max end ->
    keeps i (_ ← call (SysWrite STDOUT [b.[0]]); Ret res) m1 good).
  { intros i' res Hres. apply keeps_char. intros j' r' m2 Hm2 _. apply safe_ret.
    assert (still m m2) by (destruct Hm1, Hm2; split; congruence). by destruct res. }
  repeat case_match; try (by apply safe_ret); apply Hs; bool_prop; unfold zlen in *;
    rewrite ?length_take, ?length_app in *; cbn [List.length] in *; lia.
Qed.

(** A call that only needs an idle shell and leaves it so. *)
Lemma ends_call {X R} n (e : sysE X) m (k : X -> prog R) Q :
  allows e m -> (forall a, after e m a = mk_monitor (m_open m) (m_children m) false) -> idle m ->
  (forall n a m', idle m' -> keeps n (k a) m' Q) -> keeps n (call e ≫= k) m Q.
Proof. intros Ha He Hi Hk. apply safe_then; [done|]. intros j a _. apply Hk. by rewrite He. Qed.

(** Texts in an idle shell, one after the other. *)
Ltac prints := repeat first
  [ by apply safe_ret | by apply ends_last
  | apply ends_print; [done|intros ? ? ?]
  | apply keeps_print_ulong; intros ? ? Hstill; eapply idle_still in Hstill; [|eassumption] ].

Lemma keeps_ls n m : idle m -> ends n cmd_ls m.
Proof.
  intros Hi. apply (safe_loop _ _ _ _ _ _ _ (fun _ => idle)); [done|]. intros j i m' Hm. apply ends_call; [done..|].
  intros j1 [r name] m1 H1. destruct (r <? 0); prints.
Qed.

(** Opening a file in an idle shell: nothing is open, or just the file. *)
Lemma keeps_open {R} n name flags m (k : Z -> prog R) Q :
  idle m ->
  (forall n fd m', fd < 0 -> idle m' -> keeps n (k fd) m' Q) ->
  (forall n fd m', descriptor fd -> m_open m' = [fd] -> m_children m' = [] -> keeps n (k fd) m' Q) ->
  keeps n (call (SysOpen name flags) ≫= k) m Q.
Proof.
  intros Hi H1 H2. apply safe_then; [done|]. intros j fd Hfd. cbn [answers after] in *. destruct Hi as [E1 E2].
  destruct (0 <=? fd) eqn:E; bool_prop.
  - apply H2; [by apply Hfd|cbn; by rewrite E1|done].
  - apply H1; [lia|done].
Qed.

(** Closing it. *)
Lemma ends_close {R} n fd m (k : Z -> prog R) Q :
  descriptor fd -> m_open m = [fd] -> m_children m = [] ->
  (forall n a m', idle m' -> keeps n (k a) m' Q) -> keeps n (call (SysClose (s32 fd)) ≫= k) m Q.
Proof.
  intros Hd Ho Hc Hk. rewrite s32_small by (unfold descriptor in Hd; lia).
  apply safe_then; [cbn; rewrite Ho; by apply list_elem_of_singleton|]. intros j a _. apply Hk. cbn [after].
  split; [|done]. cbn. rewrite Ho. cbn. by rewrite decide_True.
Qed.

Lemma keeps_cmd_write n name m : idle m -> ends n (cmd_write name) m.
Proof.
  intros Hi. unfold cmd_write. destruct (peek name =? 0); [prints|]. apply keeps_open; [done| |].
  - intros j fd m1 Hfd Hm. replace (fd <? 0) with true by lia. prints.
  - intros j fd m1 Hfd Ho Hc. replace (fd <? 0) with false by (unfold descriptor in Hfd; lia).
    apply keeps_print; [done..|]. intros j2 m2 [Ho2 Hc2]. apply keeps_read_line; [done|]. intros j3 line m3 [Ho3 Hc3] _.
    apply safe_then.
    { rewrite s32_small by (unfold descriptor in Hfd; lia). split; [right; rewrite Ho3, Ho2, Ho; by apply list_elem_of_singleton|].
      unfold descriptor, STDOUT in *. lia. }
    intros j4 r _. apply ends_close; [done|cbn; congruence| |].
    + cbn. by case_bool_decide; [|congruence].
    + intros. prints.
Qed.

Lemma keeps_cmd_cat n name m : idle m -> ends n (cmd_cat name) m.
Proof.
  intros Hi. unfold cmd_cat. destruct (peek name =? 0); [prints|]. apply keeps_open; [done| |].
  - intros j fd m1 Hfd Hm. replace (fd <? 0) with true by lia. prints.
  - intros j fd m1 Hfd Ho Hc. replace (fd <? 0) with false by (unfold descriptor in Hfd; lia).
    set (holds := fun m => m_open m = [fd] /\ m_children m = []).
    eapply (safe_bind _ _ _ _ _ _ _ (fun _ => holds)).
    + apply (safe_loop _ _ _ _ _ _ _ (fun _ => holds)); [done|]. intros j2 [] m2 [Ho2 Hc2].
      unfold cat_chunk. rewrite s32_small by (unfold descriptor in Hfd; lia).
      apply safe_then; [right; split; [rewrite Ho2; by apply list_elem_of_singleton|lia]|]. intros j3 [r buf] _.
      cbn [after]. replace (negb (fd =? STDIN)) with true by (unfold descriptor, STDIN in *; lia).
      destruct (r >? 0); [|by apply safe_ret]. apply safe_then; [by split; [left|]|]. intros j4 a _.
      apply safe_ret. split; [done|]. cbn. by case_bool_decide.
    + intros j2 [] m2 _ [Ho2 Hc2]. apply keeps_print; [done..|]. intros j3 m3 [Ho3 Hc3].
      apply ends_close; [done|congruence..|]. intros. prints.
Qed.

Lemma word_length n s : zlen (word n s) <= Z.of_nat n.
Proof.
  revert s. induction n as [|n IH]; intros [|c s]; cbn [word]; try (unfold zlen; cbn [List.length]; lia).
  specialize (IH s). destruct (_ || _); unfold zlen in *; cbn [List.length]; lia.
Qed.

Lemma keeps_cmd_chmod n args m : idle m -> ends n (cmd_chmod args) m.
Proof.
  intros Hi. unfold cmd_chmod. set (mode := skip_spaces _).
  assert (Hgo : forall n perm, 0 <= perm <= 3 -> ends n (r ← (if peek (word 31 args) =? 0 then Ret (-1) else call (SysChmod (word 31 args) perm));
    if r <? 0 then print (text "chmod: failed (not found, or you don't own it)" ++ [c_nl])
    else _ ← print (text "chmod: "); _ ← print (word 31 args); _ ← print (text " is now "); _ ← print mode; print [c_nl]) m).
  { intros j perm Hp. eapply (safe_bind _ _ _ _ _ _ _ (fun _ => idle)).
    - destruct (_ =? _); [by apply safe_ret|]. apply safe_call; [|by intros a _; destruct Hi].
      pose proof (word_length 31 args). split; [done|]. lia.
    - intros j2 r m2 _ Hm2. destruct (r <? 0); prints. }
  destruct (str_eq_and mode (text "private")); [by apply Hgo|].
  destruct (str_eq_and mode (text "readonly")); [by apply Hgo|].
  destruct (str_eq_and mode (text "public")); [by apply Hgo|]. prints.
Qed.

Lemma keeps_cmd_useradd n args m : idle m -> ends n (cmd_useradd args) m.
Proof.
  intros Hi. unfold cmd_useradd. destruct (_ || _); [prints|]. apply ends_call; [|done|done|].
  - split; [done|]. split; [pose proof (word_length 19 args)|]; [lia|]. set (p := skip_spaces _).
    pose proof (word_length 31 p). lia.
  - intros j r m2 Hm2. destruct (r <? 0); prints.
Qed.

Lemma keeps_cmd_rm n name m : idle m -> ends n (cmd_rm name) m.
Proof.
  intros Hi. unfold cmd_rm. destruct (_ =? _); [prints|]. apply ends_call; [done..|].
  intros j r m2 Hm2. destruct (r <? 0); prints.
Qed.

Lemma keeps_cmd_kill n args m : idle m -> ends n (cmd_kill args) m.
Proof.
  intros Hi. unfold cmd_kill. destruct (_ <=? 0) eqn:E; [prints|]. bool_prop. apply ends_call; [|done|done|].
  - split; [done|]. split; [lia|done].
  - intros j r m2 Hm2. destruct (r <? 0); prints.
Qed.

(** Starting a program in an idle shell: it fails, or there is one child. *)
Lemma keeps_spawn {R} n cmdline m (k : Z -> prog R) Q :
  idle m -> zlen cmdline < 128 ->
  (forall n pid m', pid < 0 -> idle m' -> keeps n (k pid) m' Q) ->
  (forall n pid m', 0 <= pid -> m_open m' = [] -> m_children m' = [pid] -> keeps n (k pid) m' Q) ->
  keeps n (call (SysSpawn cmdline) ≫= k) m Q.
Proof.
  intros Hi Hl H1 H2. apply safe_then; [done|]. intros j pid _. cbn [after]. destruct Hi as [E1 E2].
  destruct (0 <=? pid) eqn:E; bool_prop; [apply H2; [done|done|cbn; by rewrite E2]|apply H1; [lia|done]].
Qed.

Lemma keeps_cmd_program n line m : idle m -> zlen line < 128 -> ends n (cmd_program line) m.
Proof.
  intros Hi Hl. apply keeps_spawn; [done..| |].
  - intros j pid m1 Hp Hm. replace (pid <? 0) with true by lia. prints.
  - intros j pid m1 Hp Ho Hc. replace (pid <? 0) with false by lia.
    apply safe_then; [split; [done|]; rewrite Hc; by apply list_elem_of_singleton|]. intros j2 a _. apply safe_ret.
    split; [done|]. cbn. rewrite Hc. cbn. by rewrite decide_True.
Qed.

Lemma keeps_cmd_bg n line m : idle m -> zlen line < 128 -> ends n (cmd_bg line) m.
Proof.
  intros Hi Hl. apply keeps_spawn; [done..| |].
  - intros j pid m1 Hp Hm. replace (pid <? 0) with true by lia. prints.
  - intros j pid m1 Hp Ho Hc. replace (pid <? 0) with false by lia.
    eapply (safe_bind _ _ _ _ _ _ _ (fun _ => idle)).
    + apply safe_then; [by split; [left|]|]. intros j2 a _. apply safe_ret. split; [done|]. cbn [after m_children].
      by rewrite bool_decide_eq_true_2.
    + intros j2 [] m2 _ Hm2. prints.
Qed.

Lemma find_pipe_range line : find_pipe line < zlen line.
Proof.
  unfold find_pipe. pose proof (cstr_length line). destruct (find_first _ _ _) as [i|] eqn:E; cbn [default from_option id].
  - apply find_first_Some in E. lia.
  - unfold zlen. lia.
Qed.

Lemma skip_spaces_length s : zlen (skip_spaces s) <= zlen s.
Proof.
  induction s as [|c s IH]; cbn [skip_spaces]; [done|].
  destruct (c =? c_space); unfold zlen in *; cbn [List.length] in *; lia.
Qed.

Lemma trim_length s : zlen (trim s) <= zlen s.
Proof.
  unfold trim. pose proof (skip_spaces_length (rev (skip_spaces (rev (cstr s))))) as H1.
  pose proof (skip_spaces_length (rev (cstr s))) as H2. pose proof (cstr_length s) as H3.
  unfold zlen in *. rewrite !length_rev in *. lia.
Qed.

(** A child is waited for, if it was started; no descriptor is held. *)
Definition child (pid : Z) : list Z := if 0 <=? pid then [pid] else [].

Lemma keeps_wait_child n pid m :
  m_open m = [] -> (0 <= pid -> pid ∈ m_children m) ->
  keeps n (wait_child pid) m (fun _ m' =>
    m_open m' = [] /\ m_children m' = if 0 <=? pid then remove_one pid (m_children m) else m_children m).
Proof.
  intros Ho Hp. unfold wait_child. destruct (pid >=? 0) eqn:E; bool_prop.
  - replace (0 <=? pid) with true by lia. apply safe_then; [split; [done|by apply Hp]|].
    intros j a _. by apply safe_ret.
  - replace (0 <=? pid) with false by lia. by apply safe_ret.
Qed.

(** Both children, in the order they were started. *)
Lemma ends_wait_both n pid1 pid2 m :
  m_open m = [] -> m_children m = child pid2 ++ child pid1 ->
  ends n (_ ← wait_child pid1; wait_child pid2) m.
Proof.
  intros Ho Hc. eapply safe_bind.
  - apply keeps_wait_child; [done|]. intros Hp. rewrite Hc. unfold child at 2. replace (0 <=? pid1) with true by lia.
    apply elem_of_app. right. by apply list_elem_of_singleton.
  - intros j [] m1 _ [Ho1 Hc1].
    assert (Hc1' : m_children m1 = child pid2).
    { rewrite Hc1, Hc. unfold child. destruct (0 <=? pid1), (0 <=? pid2); cbn; try done; [|by rewrite decide_True].
      destruct (decide (pid1 = pid2)) as [->|]; [done|]. by rewrite decide_True. }
    eapply safe_mono; [done| |apply keeps_wait_child; [done|]].
    + intros [] m2 [Ho2 Hc2]. split; [done|]. rewrite Hc2, Hc1'. unfold child.
      destruct (0 <=? pid2); cbn; [by rewrite decide_True|done].
    + intros Hp. rewrite Hc1'. unfold child. replace (0 <=? pid2) with true by lia. by apply list_elem_of_singleton.
Qed.

Lemma keeps_pipeline n line pipe_at m : idle m -> zlen line < 120 -> ends n (cmd_pipeline line pipe_at) m.
Proof.
  intros Hi Hl. unfold cmd_pipeline. set (lhs := trim _). set (rhs := trim _).
  assert (Hlhs : zlen lhs < 128).
  { pose proof (trim_length (take (Z.to_nat pipe_at) line)). unfold lhs, zlen in *. rewrite length_take in *. lia. }
  assert (Hrhs : zlen rhs < 128).
  { pose proof (trim_length (drop (Z.to_nat (pipe_at + 1)) line)). unfold rhs, zlen in *. rewrite length_drop in *. lia. }
  destruct (_ || _) eqn:E; [prints|]. apply orb_false_iff in E as [El Er]. bool_prop.
  assert (Hl0 : lhs <> []) by (intros E; rewrite E in El; done).
  assert (Hr0 : rhs <> []) by (intros E; rewrite E in Er; done).
  apply safe_then; [done|]. intros j [r [rfd wfd]] Ha. cbn [answers after fst snd] in *. destruct Hi as [Ho Hc].
  destruct (0 <=? r) eqn:E; bool_prop.
  2: { replace (r <? 0) with true by lia. apply ends_last. by split. }
  replace (r <? 0) with false by lia. destruct (Ha E) as [Hd1 Hd2]. unfold descriptor in *. rewrite Ho, Hc.
  apply safe_then.
  { split; [done|]. split; [done|]. split; [by left|]. right. by apply list_elem_of_further, list_elem_of_here. }
  intros j1 pid1 _. cbn [after m_open m_children]. apply safe_then.
  { split; [done|]. split; [done|]. split; [|by left]. right. apply list_elem_of_here. }
  intros j2 pid2 _. cbn [after m_open m_children]. rewrite !s32_small by lia.
  apply safe_then; [apply list_elem_of_here|]. intros j3 a _. cbn [after m_open m_children app remove_one].
  rewrite decide_True by done. apply safe_then; [apply list_elem_of_here|]. intros j4 a' _.
  cbn [after m_open m_children remove_one]. rewrite decide_True by done.
  assert (Hch : (if 0 <=? pid2 then pid2 :: (if 0 <=? pid1 then [pid1] else []) else if 0 <=? pid1 then [pid1] else [])
    = child pid2 ++ child pid1) by (unfold child; by destruct (0 <=? pid2), (0 <=? pid1)).
  rewrite Hch. destruct ((pid1 <? 0) || (pid2 <? 0)).
  - apply keeps_print; [done..|]. intros j5 m5 [Ho5 Hc5]. by apply ends_wait_both.
  - eapply safe_bind; [by apply (safe_ret _ _ _ _ tt _ (fun _ m' => m' = mk_monitor [] (child pid2 ++ child pid1) false))|].
    intros j5 [] m5 _ ->. by apply ends_wait_both.
Qed.

Lemma drop_zlen k (l : list Z) : zlen (drop k l) <= zlen l.
Proof. unfold zlen. rewrite length_drop. lia. Qed.

Lemma keeps_command_line n line m : idle m -> zlen line < 120 -> ends n (command_line line) m.
Proof.
  intros Hi Hl. unfold command_line. destruct (find_pipe line >=? 0); [by apply keeps_pipeline|].
  repeat match goal with |- safe _ _ _ _ (if ?b then _ else _) _ _ => destruct b end;
    first [ by apply safe_exit | by apply keeps_ls | by apply keeps_cmd_write | by apply keeps_cmd_cat
          | by apply keeps_cmd_rm | by apply keeps_cmd_chmod | by apply keeps_cmd_useradd
          | (apply keeps_cmd_bg; [done|]; pose proof (drop_zlen 3 line); lia) | by apply keeps_cmd_kill
          | apply keeps_cmd_program; [done|lia] ].
Qed.

Lemma keeps_turn n m : idle m -> keeps n (sh_turn tt) m (fun r m' => match r with inl _ => idle m' | inr _ => False end).
Proof.
  intros Hi. apply ends_print; [done|]. intros j m1 H1. apply keeps_read_line; [done|].
  intros j2 line m2 H2 Hl. pose proof (idle_still _ _ H2 H1) as Hi2. eapply (safe_bind _ _ _ _ _ _ _ (fun _ => idle)).
  - destruct (zlen line =? 0); [by apply safe_ret|]. by apply keeps_command_line.
  - intros j3 [] m3 _ H3. by apply safe_ret.
Qed.

Lemma keeps_start n : keeps n sh_start (mk_monitor [] [] false) (fun _ _ => False).
Proof.
  unfold sh_start. eapply (safe_bind _ _ _ _ _ _ _ (fun _ => idle)).
  - assert (Hall : forall l n m, idle m -> ends n (print_all l) m).
    { induction l as [|s l IH]; intros j m Hm; [by apply safe_ret|]. apply ends_print; [done|]. intros. by apply IH. }
    by apply Hall.
  - intros j [] m _ Hm. apply (safe_loop _ _ _ _ _ _ _ (fun _ => idle)); [done|]. intros j2 [] m2 H2.
    eapply safe_mono; [done| |by apply keeps_turn]. by intros [] m3.
Qed.

(** C31: Whatever is typed and whatever the system answers (as long as descriptors are
    small numbers), every run of the shell keeps to its protocol at each call: it
    prompts, opens, starts programs and ends only when it holds no descriptor and has
    waited for every program it started and did not report as in the background; it
    reads, writes and closes only descriptors it holds; it never waits for a program
    while it holds an end of a pipe, which would keep the reader from seeing its end;
    it waits only for its own children, once each; and command lines, names and
    passwords fit what the kernel copies. *)
Theorem sh_keeps_protocol l : trace sh_start l ->
  allowed (fun X => @allows X) (fun X => @answers X) (fun X => @after X) (mk_monitor [] [] false) l.
Proof. intros Ht. by apply (safe_trace _ _ _ sh_start _ (fun _ _ => False)); [intros n; apply keeps_start|]. Qed.

(** ** A small system: the files of [EditSpec], and programs that end at once. *)
#[export] Instance sim_other : OtherCalls simfiles := fun X e =>
  match e in sysE X return simfiles -> option (X * simfiles) with
  | SysPipe => fun w => Some ((0, (5, 6)), w)
  | SysSpawn _ => fun w => Some (11, w)
  | SysSpawnRedirect _ _ out => fun w => Some (if out =? -1 then 13 else 12, w)
  | SysWait _ => fun w => Some (0, w)
  | _ => fun w => None
  end.

(** A run of [produce,upper] and then [bg spin] keeps to the protocol. *)
Lemma sh_keeps_protocol_witness :
  let keys := text "produce,upper" ++ [c_nl] ++ text "bg spin" ++ [c_nl] in
  let l := follow 300 sh_start (mk_world keys [] (mk_files ∅ None)) in
  List.length l = 67%nat /\
  allowed (fun X => @allows X) (fun X => @answers X) (fun X => @after X) (mk_monitor [] [] false) l.
Proof.
  set (keys := text "produce,upper" ++ [c_nl] ++ text "bg spin" ++ [c_nl]).
  set (l := follow 300 sh_start (mk_world keys [] (mk_files ∅ None))). split.
  - vm_compute. reflexivity.
  - exact (sh_keeps_protocol l (follow_trace 300 sh_start (mk_world keys [] (mk_files ∅ None)))).
Defined.

(** * A session over files *)

Section session.
Context {W : Type} `{FileLaws W} `{OtherCalls W}.
Implicit Types (w : W) (ks out : list Z).

(** ** Output and input *)

Lemma runs_write {R} s (k : Z -> prog R) w ks out o (u : world W) :
  runs (k (zlen s)) (mk_world ks (out ++ s) w) o u -> runs (call (SysWrite STDOUT s) ≫= k) (mk_world ks out w) o u.
Proof. intros Hk. by eapply runs_then. Qed.

Lemma runs_print {R} s (k : unit -> prog R) w ks out o (u : world W) :
  runs (k tt) (mk_world ks (out ++ cstr s) w) o u -> runs (print s ≫= k) (mk_world ks out w) o u.
Proof. intros Hk. eapply runs_bind; [|exact Hk]. apply runs_write. by apply runs_ret. Qed.

Lemma runs_print_end s w ks out out' :
  out' = out ++ cstr s -> runs (print s) (mk_world ks out w) (inl tt) (mk_world ks out' w).
Proof. intros ->. apply runs_write. by apply runs_ret. Qed.

Lemma runs_put_each l w ks out : runs (put_each l) (mk_world ks out w) (inl tt) (mk_world ks (out ++ l) w).
Proof.
  revert out. induction l as [|c l IH]; intros out; [rewrite app_nil_r; by apply runs_ret|].
  apply runs_write. specialize (IH (out ++ [c])). by rewrite <- app_assoc in IH.
Qed.

Lemma runs_print_ulong v w ks out :
  runs (print_ulong v) (mk_world ks out w) (inl tt) (mk_world ks (out ++ decimal v) w).
Proof. unfold print_ulong, decimal. destruct (v =? 0); apply runs_put_each. Qed.

Lemma runs_key max buf k ks out w :
  k <> c_nl -> k <> c_bs -> zlen buf < max - 1 ->
  runs (read_key max buf) (mk_world (k :: ks) out w) (inl (inl (buf ++ [k]))) (mk_world ks (out ++ [k]) w).
Proof.
  intros H1 H2 H3. eapply runs_then; [reflexivity|]. cbn [handle]. change ([k].[0]) with k.
  replace (k =? c_nl) with false by lia. replace (k =? c_bs) with false by lia. replace (zlen buf <? max - 1) with true by lia.
  apply runs_write. by apply runs_ret.
Qed.

Lemma runs_enter max buf ks out w :
  runs (read_key max buf) (mk_world (c_nl :: ks) out w) (inl (inr buf)) (mk_world ks (out ++ [c_nl]) w).
Proof. eapply runs_then; [reflexivity|]. apply runs_write. by apply runs_ret. Qed.

(** A line typed without corrections is echoed and returned. *)
Definition keyable (s : list Z) : Prop := Forall (fun c => c <> c_nl /\ c <> c_bs) s.

Lemma runs_read_line line max ks out w :
  keyable line -> zlen line < max ->
  runs (read_line max) (mk_world (line ++ c_nl :: ks) out w) (inl line) (mk_world ks (out ++ line ++ [c_nl]) w).
Proof.
  intros Hk Hl. unfold read_line.
  assert (Hgo : forall buf out, zlen buf + zlen line < max ->
    runs (loop (read_key max) buf) (mk_world (line ++ c_nl :: ks) out w) (inl (buf ++ line))
      (mk_world ks (out ++ line ++ [c_nl]) w)).
  2: { apply (Hgo [] out). unfold zlen in *. cbn. lia. }
  clear Hl out. induction Hk as [|c line [H1 H2] _ IH]; intros buf out Hl.
  - apply runs_loop_end. rewrite app_nil_r. apply runs_enter.
  - unfold zlen in *. cbn [List.length] in Hl. eapply runs_loop; [apply runs_key; [done|done|unfold zlen; lia]|].
    specialize (IH (buf ++ [c]) (out ++ [c])). rewrite <- !app_assoc in IH. apply IH. rewrite length_app. cbn. lia.
Qed.

(** ** Files *)

(** The names that may be written. *)
Context (wr : list Z -> bool).

(** The files of the system are those of [fs], and those of [wr] may be written. *)
Record holds (fs : gmap (list Z) (list Z)) w : Prop := {
  ho_ok : fl_ok w;
  ho_files : forall x, fl_file w x = fs !! x;
  ho_writable : forall x, fl_writable w x = wr x;
}.

(** [sys_write] and [sys_read] on a file. *)
Lemma runs_cat_loop fs w fd name c out ks off :
  descriptor fd -> holds fs w -> fl_at w fd = Some (name, off) -> fs !! name = Some c -> 0 <= off <= zlen c ->
  exists w', runs (loop (cat_chunk fd) tt) (mk_world ks out w) (inl tt) (mk_world ks (out ++ drop (Z.to_nat off) c) w') /\
    holds fs w'.
Proof.
  intros Hd. remember (Z.to_nat (zlen c - off)) as n eqn:En. revert w out off En.
  induction (lt_wf n) as [n _ IH]. intros w out off En Hw Hat Hc Hoff.
  destruct (fl_read w fd name off c 128 (ho_ok _ _ Hw) Hat) as (w1 & Hr & Hok & Hf & Hwr & Hat1);
    [by rewrite (ho_files _ _ Hw)|done|done|].
  assert (Hw1 : holds fs w1).
  { split; [done| |]; intros x; [by rewrite Hf; apply Hw|by rewrite Hwr; apply Hw]. }
  set (bytes := take (Z.to_nat 128) (drop (Z.to_nat off) c)) in *.
  assert (Hfd : s32 fd = fd) by (apply s32_small; unfold descriptor in Hd; lia).
  assert (Hh : handle (SysRead (s32 fd) 128) (mk_world ks out w) = inl ((zlen bytes, bytes), mk_world ks out w1)).
  { unfold handle. rewrite Hfd. replace (fd =? STDIN) with false by (unfold descriptor, STDIN in *; lia).
    cbn [andb w_sys]. by rewrite Hr. }
  assert (Hlen : zlen bytes = Z.min 128 (zlen c - off)).
  { unfold bytes, zlen in *. rewrite length_take, length_drop. lia. }
  destruct (decide (off = zlen c)) as [->|].
  - exists w1. split; [|done]. apply runs_loop_end. eapply runs_then; [exact Hh|]. cbv beta iota.
    replace (zlen bytes >? 0) with false by lia. rewrite drop_ge by (unfold zlen; lia). rewrite app_nil_r. by apply runs_ret.
  - destruct (IH (Z.to_nat (zlen c - (off + zlen bytes)))) with (w := w1) (out := out ++ bytes) (off := off + zlen bytes)
      as (w2 & Hr2 & Hw2); [lia|done|done|done|done|lia|].
    exists w2. split; [|done]. eapply runs_loop.
    + eapply runs_then; [exact Hh|]. cbv beta iota. replace (zlen bytes >? 0) with true by lia.
      unfold zlen at 1. rewrite Nat2Z.id, firstn_all. apply runs_write. by apply runs_ret.
    + rewrite <- app_assoc in Hr2. replace (bytes ++ drop (Z.to_nat (off + zlen bytes)) c) with (drop (Z.to_nat off) c) in Hr2; [done|].
      set (d := drop (Z.to_nat off) c) in *.
      assert (Hd2 : drop (Z.to_nat (off + zlen bytes)) c = drop (List.length bytes) d).
      { unfold d. rewrite drop_drop. f_equal. unfold zlen. lia. }
      rewrite Hd2. unfold bytes. rewrite length_take. destruct (decide (Z.to_nat 128 <= List.length d)%nat).
      * by rewrite Nat.min_l, take_drop by lia.
      * by rewrite Nat.min_r, take_ge, drop_ge, app_nil_r by lia.
Qed.

(** ** Commands *)

Inductive file_cmd := Write (name content : list Z) | Cat (name : list Z).

(** A name that can be typed in a command, and a line of text. *)
Definition name_ok (name : list Z) : Prop :=
  name <> [] /\ zlen name <= 100 /\
  Forall (fun c => c <> c_nl /\ c <> c_bs /\ c <> 0 /\ c <> c_bar /\ c <> c_comma) name.

Definition cmd_ok (c : file_cmd) : Prop :=
  match c with
  | Write name content => name_ok name /\ keyable content /\ zlen content < 120
  | Cat name => name_ok name
  end.

(** What is typed, what it does to the files, and what appears.  The shell asks for the
    content only when the file could be opened. *)
Definition typed (c : file_cmd) : list Z :=
  match c with
  | Write name content => text "write " ++ name ++ [c_nl] ++ if wr name then content ++ [c_nl] else []
  | Cat name => text "cat " ++ name ++ [c_nl]
  end.

Definition effect (fs : gmap (list Z) (list Z)) (c : file_cmd) : gmap (list Z) (list Z) :=
  match c with Write name content => if wr name then <[name := content]> fs else fs | Cat _ => fs end.

Definition reply (fs : gmap (list Z) (list Z)) (c : file_cmd) : list Z :=
  match c with
  | Write name content =>
      text "write " ++ name ++ [c_nl] ++
      if wr name then text "content> " ++ content ++ [c_nl] ++
        text "saved " ++ name ++ text " (" ++ decimal (zlen content) ++ text " bytes, persists across reboot)" ++ [c_nl]
      else text "write: could not open '" ++ name ++ text "'" ++ [c_nl]
  | Cat name =>
      text "cat " ++ name ++ [c_nl] ++
      match fs !! name with Some c => c | None => text "cat: no such file: " ++ name end ++ [c_nl]
  end.

Lemma name_nonul name : name_ok name -> cstr name = name.
Proof. intros (_ & _ & Hn). apply cstr_nonul. refine (List.Forall_impl _ _ Hn). tauto. Qed.

Lemma name_peek name : name_ok name -> (peek name =? 0) = false.
Proof. intros (H1 & _ & Hn). destruct Hn as [|c name Hc]; [done|]. apply Z.eqb_neq. apply Hc. Qed.

(** A command is recognised. *)
Lemma command_line_file name (word : string) (cmd : list Z -> prog unit) :
  (word = "write "%string /\ cmd = cmd_write) \/ (word = "cat "%string /\ cmd = cmd_cat) ->
  name_ok name -> command_line (text word ++ name) = cmd name.
Proof.
  intros Hw (_ & _ & Hn).
  assert (Hp : find_pipe (text word ++ name) = -1).
  { unfold find_pipe. assert (Hall : Forall (fun c => c <> 0 /\ c <> c_bar /\ c <> c_comma) (text word ++ name)).
    { apply Forall_app. split.
      - destruct Hw as [[-> _]|[-> _]]; apply (bool_decide_unpack _); vm_compute; exact I.
      - refine (List.Forall_impl _ _ Hn). tauto. }
    destruct (find_first _ _ _) as [i|] eqn:E; [|done]. apply find_first_Some in E as (Hi & Hpi & _).
    rewrite cstr_nonul in Hi by (refine (List.Forall_impl _ _ Hall); tauto).
    destruct (lookup_lt_is_Some_2 (text word ++ name) (Z.to_nat i)) as [c Hc]; [unfold zlen in Hi; lia|].
    rewrite list.Forall_lookup in Hall. specialize (Hall _ _ Hc). apply list_lookup_total_correct in Hc.
    rewrite Hc in Hpi. apply orb_true_iff in Hpi. bool_prop. lia. }
  unfold command_line. rewrite Hp. destruct Hw as [[-> ->]|[-> ->]]; reflexivity.
Qed.

Context (Hlim : 119 <= fl_limit) (Hd : forall w fd x, fl_at w fd = Some x -> descriptor fd).

Lemma runs_cmd_write fs name content w ks out :
  holds fs w -> name_ok name -> wr name = true -> keyable content -> zlen content < 120 ->
  exists w', runs (cmd_write name) (mk_world (content ++ c_nl :: ks) out w) (inl tt)
    (mk_world ks (out ++ text "content> " ++ content ++ [c_nl] ++ text "saved " ++ name ++ text " (" ++
       decimal (zlen content) ++ text " bytes, persists across reboot)" ++ [c_nl]) w') /\
    holds (<[name := content]> fs) w'.
Proof.
  intros Hw Hn Hwn Hk Hl. unfold cmd_write. rewrite name_peek, !name_nonul by done.
  destruct (fl_open_write w name (ho_ok _ _ Hw)) as (fd & w1 & Ho & Hok1 & Hwr1 & Hcase).
  rewrite (ho_writable _ _ Hw), Hwn in Hcase. destruct Hcase as (Hfd & Hat & Hf1).
  assert (Hdesc : descriptor fd) by (by eapply Hd).
  assert (Hs : s32 fd = fd) by (apply s32_small; unfold descriptor in Hdesc; lia).
  destruct (fl_write w1 fd name [] content Hok1) as (w2 & Hwt & Hok2 & Hwr2 & _ & Hf2);
    [done|by rewrite Hf1, decide_True|unfold zlen in *; cbn; lia|].
  destruct (fl_close w2 fd Hok2) as (Hok3 & Hf3 & Hwr3).
  exists (f_close w2 fd). split.
  - eapply runs_then; [cbn [handle w_sys]; by rewrite Ho|]. cbn [Usys.with_sys fst snd w_keys w_screen].
    replace (fd <? 0) with false by lia. apply runs_print. eapply runs_bind; [by apply runs_read_line|].
    rewrite Hs. eapply runs_then.
    { unfold handle. replace (fd =? STDOUT) with false by (unfold descriptor, STDOUT in *; lia). cbn [w_sys]. by rewrite Hwt. }
    eapply runs_then; [reflexivity|]. cbn [Usys.with_sys fst snd w_keys w_screen w_sys].
    apply runs_print, runs_print, runs_print. eapply runs_bind; [apply runs_print_ulong|].
    apply runs_print_end. rewrite (name_nonul name Hn), <- !app_assoc. reflexivity.
  - split; [done| |].
    + intros x. rewrite Hf3, Hf2, Hf1. destruct (decide (x = name)) as [->|]; [by rewrite lookup_insert_eq|].
      rewrite lookup_insert_ne by done. apply Hw.
    + intros x. rewrite Hwr3, Hwr2, Hwr1. apply Hw.
Qed.

(** A file that may not be written. *)
Lemma runs_cmd_write_refused fs name w ks out :
  holds fs w -> name_ok name -> wr name = false ->
  exists w', runs (cmd_write name) (mk_world ks out w) (inl tt)
    (mk_world ks (out ++ text "write: could not open '" ++ name ++ text "'" ++ [c_nl]) w') /\ holds fs w'.
Proof.
  intros Hw Hn Hwn. unfold cmd_write. rewrite name_peek, !name_nonul by done.
  destruct (fl_open_write w name (ho_ok _ _ Hw)) as (fd & w1 & Ho & Hok1 & Hwr1 & Hcase).
  rewrite (ho_writable _ _ Hw), Hwn in Hcase. destruct Hcase as [Hfd Hf1]. exists w1. split.
  - eapply runs_then; [cbn [handle w_sys]; by rewrite Ho|]. cbn [Usys.with_sys fst snd w_keys w_screen].
    replace (fd <? 0) with true by lia. apply runs_print, runs_print, runs_print_end.
    rewrite (name_nonul name Hn), <- !app_assoc. reflexivity.
  - split; [done| |]; intros x; [by rewrite Hf1; apply Hw|by rewrite Hwr1; apply Hw].
Qed.

Lemma runs_cmd_cat fs name w ks out :
  holds fs w -> name_ok name ->
  exists w', runs (cmd_cat name) (mk_world ks out w) (inl tt)
    (mk_world ks (out ++ match fs !! name with Some c => c | None => text "cat: no such file: " ++ name end ++ [c_nl]) w') /\
    holds fs w'.
Proof.
  intros Hw Hn. unfold cmd_cat. rewrite name_peek, !name_nonul by done.
  destruct (fl_open_read w name (ho_ok _ _ Hw)) as (fd & w1 & Ho & Hok1 & Hf1 & Hwr1 & Hcase).
  rewrite (ho_files _ _ Hw) in Hcase.
  assert (Hw1 : holds fs w1).
  { split; [done| |]; intros x; [by rewrite Hf1; apply Hw|by rewrite Hwr1; apply Hw]. }
  destruct (fs !! name) as [c|] eqn:Ec.
  - destruct Hcase as [Hfd Hat]. assert (Hdesc : descriptor fd) by by eapply Hd.
    assert (Hs : s32 fd = fd) by (apply s32_small; unfold descriptor in Hdesc; lia).
    destruct (runs_cat_loop fs w1 fd name c out ks 0 Hdesc Hw1 Hat Ec) as (w2 & Hr & Hw2); [unfold zlen; lia|].
    destruct (fl_close w2 fd (ho_ok _ _ Hw2)) as (Hok3 & Hf3 & Hwr3).
    exists (f_close w2 fd). split.
    + eapply runs_then; [cbn [handle w_sys]; by rewrite Ho|]. cbn [Usys.with_sys fst snd w_keys w_screen].
      replace (fd <? 0) with false by lia. eapply runs_bind; [exact Hr|]. apply runs_print. rewrite Hs.
      eapply runs_then; [reflexivity|]. rewrite drop_0, <- app_assoc. by apply runs_ret.
    + split; [done| |]; intros x; [by rewrite Hf3; apply Hw2|by rewrite Hwr3; apply Hw2].
  - exists w1. split; [|done]. eapply runs_then; [cbn [handle w_sys]; by rewrite Ho|].
    cbn [Usys.with_sys fst snd w_keys w_screen]. replace (fd <? 0) with true by lia.
    apply runs_print, runs_print, runs_print_end. rewrite (name_nonul name Hn), <- !app_assoc. reflexivity.
Qed.

(** One turn of the shell. *)
Lemma runs_turn fs c w ks out :
  holds fs w -> cmd_ok c ->
  exists w', runs (sh_turn tt) (mk_world (typed c ++ ks) out w) (inl (inl tt))
    (mk_world ks (out ++ prompt ++ reply fs c) w') /\ holds (effect fs c) w'.
Proof.
  intros Hw Hc.
  assert (Hline : forall (word : string) name ks2 (R : world W), name_ok name -> keyable (text word) -> zlen (text word) <= 6 ->
    text word <> [] ->
    runs (command_line (text word ++ name)) (mk_world ks2 (out ++ prompt ++ text word ++ name ++ [c_nl]) w) (inl tt) R ->
    runs (sh_turn tt) (mk_world (text word ++ name ++ [c_nl] ++ ks2) out w) (inl (inl tt)) R).
  { intros word name ks2 R (_ & Hl & Hn) Hk Hz H1 Hr. apply runs_print. change (cstr prompt) with prompt.
    replace (text word ++ name ++ [c_nl] ++ ks2) with ((text word ++ name) ++ c_nl :: ks2) by by rewrite <- app_assoc.
    eapply runs_bind.
    - apply runs_read_line; [apply Forall_app; split; [done|]; refine (List.Forall_impl _ _ Hn); tauto|].
      unfold zlen, LINE_MAX in *. rewrite length_app. lia.
    - replace (zlen (text word ++ name) =? 0) with false
        by (symmetry; apply Z.eqb_neq; unfold zlen; rewrite length_app; destruct (text word); [done|cbn [List.length]; lia]).
      rewrite <- !app_assoc. eapply runs_bind; [exact Hr|]. by apply runs_ret. }
  destruct c as [name content|name]; cbn [cmd_ok typed reply effect] in *.
  - destruct Hc as (Hn & Hk & Hl).
    set (ks' := (if wr name then content ++ [c_nl] else []) ++ ks).
    assert (Hgo : exists w', runs (cmd_write name) (mk_world ks' (out ++ prompt ++ text "write " ++ name ++ [c_nl]) w) (inl tt)
      (mk_world ks (out ++ prompt ++ text "write " ++ name ++ [c_nl] ++ (if wr name then text "content> " ++ content ++ [c_nl] ++
        text "saved " ++ name ++ text " (" ++ decimal (zlen content) ++ text " bytes, persists across reboot)" ++ [c_nl]
        else text "write: could not open '" ++ name ++ text "'" ++ [c_nl])) w') /\
      holds (if wr name then <[name := content]> fs else fs) w').
    { unfold ks'. destruct (wr name) eqn:Ewr.
      - destruct (runs_cmd_write fs name content w ks (out ++ prompt ++ text "write " ++ name ++ [c_nl])) as (w' & Hr & Hw');
          [done..|]. exists w'. split; [|done]. rewrite <- !app_assoc in *. exact Hr.
      - destruct (runs_cmd_write_refused fs name w ks (out ++ prompt ++ text "write " ++ name ++ [c_nl])) as (w' & Hr & Hw');
          [done..|]. exists w'. split; [|done]. rewrite <- !app_assoc in *. exact Hr. }
    destruct Hgo as (w' & Hr & Hw'). exists w'. split; [|exact Hw'].
    specialize (Hline "write "%string name ks'). rewrite <- !app_assoc in *. cbn [app] in *.
    apply Hline; [done| | |done|].
    + apply (bool_decide_unpack _). vm_compute. exact I.
    + done.
    + rewrite (command_line_file name _ cmd_write); [|by left|done]. exact Hr.
  - destruct (runs_cmd_cat fs name w ks (out ++ prompt ++ text "cat " ++ name ++ [c_nl])) as (w' & Hr & Hw'); [done..|].
    exists w'. split; [|done]. specialize (Hline "cat "%string name ks). rewrite <- !app_assoc in *. cbn [app] in *.
    apply Hline; [done| | |done|].
    + apply (bool_decide_unpack _). vm_compute. exact I.
    + done.
    + rewrite (command_line_file name _ cmd_cat); [|by right|done]. exact Hr.
Qed.

(** A session: each command's reply, and the prompt. *)
Fixpoint replies (fs : gmap (list Z) (list Z)) (cs : list file_cmd) : list Z :=
  prompt ++ match cs with [] => [] | c :: cs => reply fs c ++ replies (effect fs c) cs end.

Lemma runs_session fs cs w out :
  holds fs w -> Forall cmd_ok cs ->
  exists w', runs (loop sh_turn tt) (mk_world (List.concat (map typed cs)) out w) (inr Waiting)
    (mk_world [] (out ++ replies fs cs) w') /\ holds (foldl effect fs cs) w'.
Proof.
  intros Hw Hcs. revert fs w out Hw. induction Hcs as [|c cs Hc _ IH]; intros fs w out Hw; cbn [map List.concat replies foldl].
  - exists w. split; [|done]. apply runs_loop_halt. apply runs_print. rewrite app_nil_r. change (cstr prompt) with prompt.
    apply runs_bind_halt. apply runs_loop_halt. by apply runs_halts.
  - destruct (runs_turn fs c w (List.concat (map typed cs)) out Hw Hc) as (w1 & Hr & Hw1).
    destruct (IH (effect fs c) w1 (out ++ prompt ++ reply fs c) Hw1) as (w2 & Hr2 & Hw2).
    exists w2. split; [|done]. eapply runs_loop; [exact Hr|]. by rewrite <- !app_assoc in Hr2.
Qed.

Lemma runs_banner w ks out :
  runs (print_all banner) (mk_world ks out w) (inl tt) (mk_world ks (out ++ List.concat banner) w).
Proof.
  assert (Hall : forall l out, Forall (fun s => cstr s = s) l ->
    runs (print_all l) (mk_world ks out w) (inl tt) (mk_world ks (out ++ List.concat l) w)).
  { intros l out' Hl. revert out'. induction Hl as [|s l Hs _ IH]; intros out'; cbn [print_all List.concat].
    - rewrite app_nil_r. by apply runs_ret.
    - apply runs_print. rewrite Hs. specialize (IH (out' ++ s)). by rewrite <- app_assoc in IH. }
  apply Hall. apply (bool_decide_unpack _). vm_compute. exact I.
Qed.
End session.

(** C32: The shell does what is typed, over a system whose files follow [FileLaws]: what
    is written is read back, nothing but the right to write stands in the way of a write
    of 119 bytes, and no limit on the number of files, on descriptors or on space is met.
    A session of [write] and [cat] commands on names of at most 100 characters and
    contents of less than 120 that can be typed shows, after the banner, exactly the
    prompts, the echo of the keys and the replies of a map from names to contents, and
    leaves the files as that map; then the shell waits at its prompt for the next key.
    A [write] to a name that may not be written (for this kernel, also one of 20
    characters or more) is refused with the message, and changes nothing. *)
Theorem sh_session_correct {W} `{FileLaws W} `{OtherCalls W} (w : W) wr fs cs
    (Hlim : 119 <= fl_limit) (Hd : forall w fd x, fl_at w fd = Some x -> descriptor fd)
    (Hw : holds wr fs w) (Hcs : Forall cmd_ok cs) :
  exists w', runs sh_start (mk_world (List.concat (map (typed wr) cs)) [] w) (inr Waiting)
    (mk_world [] (List.concat banner ++ replies wr fs cs) w') /\ holds wr (foldl (effect wr) fs cs) w'.
Proof.
  destruct (runs_session wr Hlim Hd fs cs w (List.concat banner) Hw Hcs) as (w' & Hr & Hw').
  exists w'. split; [|done]. eapply runs_bind; [apply runs_banner|exact Hr].
Qed.

Lemma sh_session_correct_witness :
  let cs := [Write (text "a") (text "hello, world"); Cat (text "a"); Cat (text "b")] in
  let wr := fun _ => true in
  exists w', runs sh_start (mk_world (List.concat (map (typed wr) cs)) [] (mk_files ∅ None)) (inr Waiting)
    (mk_world [] (List.concat banner ++ replies wr ∅ cs) w') /\ sf_files w' !! text "a" = Some (text "hello, world").
Proof.
  intros cs0 wr. subst cs0. set (cs := [Write (text "a") (text "hello, world"); Cat (text "a"); Cat (text "b")]).
  assert (Hdesc : forall (w : simfiles) fd x, fl_at w fd = Some x -> descriptor fd).
  { intros w fd x. cbn. unfold descriptor. destruct (fd =? 3) eqn:E; [|discriminate]. apply Z.eqb_eq in E. lia. }
  assert (Hw : holds wr ∅ (mk_files ∅ None)) by (split; [exact I|reflexivity|reflexivity]).
  assert (Hcs : Forall cmd_ok cs).
  { assert (Hn : forall c : Z, In c [97; 98] -> name_ok [c]).
    { intros c Hc. split; [discriminate|]. split; [vm_compute; discriminate|]. apply List.Forall_cons; [|apply List.Forall_nil].
      unfold c_nl, c_bs, c_bar, c_comma. destruct Hc as [<-|[<-|[]]]; lia. }
    apply List.Forall_cons; [|apply List.Forall_cons; [|apply List.Forall_cons; [|apply List.Forall_nil]]].
    - split; [apply Hn; left; reflexivity|]. split; [|reflexivity]. apply (bool_decide_unpack _). vm_compute. exact I.
    - apply Hn. left. reflexivity.
    - apply Hn. right. left. reflexivity. }
  destruct (@sh_session_correct simfiles sim_calls sim_laws sim_other (mk_files ∅ None) wr ∅ cs ltac:(cbn; lia) Hdesc Hw Hcs)
    as (w' & H1 & H2).
  exists w'. split; [exact H1|]. etransitivity; [apply (ho_files _ _ _ H2)|]. vm_compute. reflexivity.
Defined.
