(* ===== verification/Programs.v ===== *)
(** The small programs under [programs/]: login.c, whoami.c, meminfo.c, memtest.c,
    hello.c, produce.c, upper.c, spin.c and test.c. *)
From S2P Require Import Prelude CString Lang LangSpec Edit Usys Sh.
From Stdlib Require Import String Znumtheory.
From ITree Require Import Core.ITreeDefinition.

Open Scope Z_scope.
Open Scope list_scope.

(** * [hello.c], [produce.c], [upper.c], [spin.c] *)

Definition hello_start : prog unit :=
  _ ← call (SysWrite STDOUT (text "Hello from userspace!" ++ [c_nl])); exit 0.

Definition produce_start : prog unit :=
  _ ← print_all [text "alpha" ++ [c_nl]; text "beta" ++ [c_nl]; text "gamma" ++ [c_nl]]; exit 0.

Definition upper (c : Z) : Z := if (97 <=? c) && (c <=? 122) then c - 97 + 65 else c.

Definition upper_step (_ : unit) : prog (unit + unit) :=
  '(n, b) ← call (SysRead STDIN 1);
  if n >? 0 then _ ← call (SysWrite STDOUT [upper (b.[0])]); Ret (inl tt) else Ret (inr tt).

Definition upper_start : prog unit := _ ← loop upper_step tt; exit 0.

Definition spin_start : prog Empty_set :=
  loop (fun _ : unit => _ ← call (SysWrite STDOUT (text "spin: heartbeat" ++ [c_nl])); Ret (inl tt)) tt.

(** * [whoami.c], [meminfo.c], [memtest.c] *)

Definition print_unsigned (value : Z) : prog unit := put_each (decimal value).

Definition whoami_start : prog unit :=
  tid ← call SysWhoami;
  uid ← call SysGetuid;
  _ ← print (text "thread id: ");
  _ ← (if tid <? 0 then print (text "unavailable") else print_unsigned (u64 tid));
  _ ← print ([c_nl] ++ text "uid: ");
  _ ← print_unsigned (u64 uid);
  '(r, name) ← call (SysUsername (u64 uid) 20);
  _ ← (if r =? 0 then _ ← print (text " ("); _ ← print name; print (text ")") else Ret tt);
  _ ← print ([c_nl] ++ text "execution mode: user (ring 3)" ++ [c_nl]);
  exit 0.

Definition PAGE_SIZE : Z := 4096.

Definition meminfo_start : prog unit :=
  '(r, (total_frames, free_frames)) ← call SysMeminfo;
  if r <? 0 then _ ← print (text "meminfo: syscall failed" ++ [c_nl]); exit 1
  else
    _ ← print (text "memory (physical frame allocator)" ++ [c_nl]);
    _ ← print (text "total frames: ");
    _ ← print_unsigned total_frames;
    _ ← print ([c_nl] ++ text "free frames:  ");
    _ ← print_unsigned free_frames;
    _ ← print ([c_nl] ++ text "used frames:  ");
    _ ← print_unsigned (total_frames -64 free_frames);
    _ ← print ([c_nl] ++ text "free bytes:   ");
    _ ← print_unsigned (u64 (free_frames * PAGE_SIZE));
    _ ← print [c_nl];
    exit 0.

Definition memtest_start : prog unit :=
  _ ← print (text "[+] creating 'greeting' and writing to it" ++ [c_nl]);
  fd ← call (SysOpen (text "greeting") O_CREATE);
  if fd <? 0 then _ ← print (text "[-] sys_open (create) failed" ++ [c_nl]); exit 1
  else
    _ ← call (SysWrite (s32 fd) (text "Hello, memfs!" ++ [c_nl]));
    _ ← call (SysClose (s32 fd));
    _ ← print (text "[+] reopening 'greeting' and reading it back" ++ [c_nl]);
    fd ← call (SysOpen (text "greeting") 0);
    if fd <? 0 then _ ← print (text "[-] sys_open (read) failed" ++ [c_nl]); exit 1
    else
      '(n, buf) ← call (SysRead (s32 fd) 63);
      _ ← call (SysClose (s32 fd));
      if n <? 0 then _ ← print (text "[-] sys_read failed" ++ [c_nl]); exit 1
      else
        _ ← print (text "[+] read back: ");
        _ ← print (take (Z.to_nat n) buf);
        exit 0.

(** * [login.c] *)

(** One key, shown as [shown] says: the line so far, or the line entered. *)
Definition login_key (shown : Z -> Z) (max_len : Z) (buf : list Z) : prog (list Z + list Z) :=
  '(_, b) ← call (SysRead STDIN 1);
  let c := b.[0] in
  if c =? c_nl then _ ← call (SysWrite STDOUT [c_nl]); Ret (inr buf)
  else if c =? c_bs then
    if 0 <? zlen buf
    then _ ← call (SysWrite STDOUT [c_bs; c_space; c_bs]); Ret (inl (take (List.length buf - 1) buf))
    else Ret (inl buf)
  else if zlen buf + 1 <? max_len then _ ← call (SysWrite STDOUT [shown c]); Ret (inl (buf ++ [c]))
  else Ret (inl buf).

Definition read_line_echo (max_len : Z) : prog (list Z) := loop (login_key id max_len) [].
Definition read_line_masked (max_len : Z) : prog (list Z) := loop (login_key (fun _ => c_mul) max_len) [].

Definition login_turn (_ : unit) : prog (unit + Empty_set) :=
  _ ← print ([c_nl] ++ text "MiniKernel login" ++ [c_nl]);
  _ ← print (text "username: ");
  username ← read_line_echo 32;
  _ ← print (text "password: ");
  password ← read_line_masked 64;
  r ← call (SysLogin (cstr username) (cstr password));
  if r <? 0 then _ ← print (text "login incorrect" ++ [c_nl]); Ret (inl tt)
  else
    _ ← print (text "welcome, ");
    _ ← print username;
    _ ← print [c_nl];
    pid ← call (SysSpawn (text "sh"));
    if pid <? 0 then _ ← print (text "login: could not start shell" ++ [c_nl]); Ret (inl tt)
    else _ ← call (SysWait pid); Ret (inl tt).

Definition login_start : prog Empty_set := loop login_turn tt.

(** * [test.c] *)

Definition print_char (c : Z) : prog unit := _ ← call (SysWrite STDOUT [c]); Ret tt.
Definition print_u64 (value : Z) : prog unit := put_each (decimal value).

Definition hex : list Z := text "0123456789abcdef".

Definition print_hex (value : Z) : prog unit :=
  let digits := for_each 0 16 (fun i buf => buf ++ [hex.[Z.land (Z.shiftr value ((15 - i) * 4)) 0xf]]) [] in
  _ ← call (SysWrite STDOUT (text "0x" ++ digits)); Ret tt.

Definition fibonacci (n : Z) : Z :=
  if n =? 0 then 0
  else if n =? 1 then 1
  else (for_each 2 (n + 1) (fun _ '(a, b) => (b, a +64 b)) (0, 1)).2.

(** The loop has at most 2^32 turns for the arguments where it is right. *)
Definition PRIME_FUEL : positive := 4294967296.

Definition is_prime (n : Z) : option bool :=
  if n <? 2 then Some false
  else if n =? 2 then Some true
  else if Z.land n 1 =? 0 then Some false
  else
    while_pos PRIME_FUEL (fun i =>
      if u64 (i * i) <=? n then
        if n mod i =? 0 then inr false else inl (i +64 2)
      else inr true) 3.

(** [volatile unsigned char buffer[8192]] *)
Definition memory_test : Z :=
  let buffer := map (fun i => u8 (Z.lxor i 0x5a)) (seqZ 0 8192) in
  foldl (fun checksum b => checksum +64 b) 0 buffer.

Definition arithmetic_test : Z := for_each 1 10001 (fun i result => result +64 i) 0.

Fixpoint fib_lines (fuel : nat) (i : Z) : prog unit :=
  match fuel with
  | O => Ret tt
  | S fuel =>
      _ ← print (text "    fib("); _ ← print_u64 i; _ ← print (text ") = ");
      _ ← print_u64 (fibonacci i); _ ← print [c_nl];
      fib_lines fuel (i + 1)
  end.

Fixpoint prime_lines (fuel : nat) (i : Z) : prog unit :=
  match fuel with
  | O => Ret tt
  | S fuel =>
      _ ← (if default false (is_prime i)
           then _ ← print (text "    "); _ ← print_u64 i; print [c_nl]
           else Ret tt);
      prime_lines fuel (i + 1)
  end.

Definition test_start : prog unit :=
  _ ← print_all [[c_nl]; text "========================================" ++ [c_nl];
                 text "      MiniKernel userspace test" ++ [c_nl];
                 text "========================================" ++ [c_nl]; [c_nl];
                 text "[+] SYS_WRITE works" ++ [c_nl]; text "[+] Integer test: "];
  _ ← print_u64 1234567890;
  _ ← print_all [[c_nl]; text "[+] Hex test: "];
  _ ← print_hex 0xDEADBEEFCAFEBABE;
  _ ← print_all [[c_nl]; [c_nl]; text "[+] Fibonacci test" ++ [c_nl]];
  _ ← fib_lines 21 0;
  _ ← print_all [[c_nl]; text "[+] Prime numbers below 100:" ++ [c_nl]];
  _ ← prime_lines 98 2;
  _ ← print_all [[c_nl]; text "[+] Arithmetic test" ++ [c_nl]; text "    1 + 2 + ... + 10000 = "];
  _ ← print_u64 arithmetic_test;
  _ ← print_all [[c_nl]; [c_nl]; text "[+] Userspace memory test" ++ [c_nl]; text "    8192-byte buffer checksum = "];
  _ ← print_u64 memory_test;
  _ ← print_all [[c_nl]; [c_nl]; text "[+] All userspace tests completed" ++ [c_nl];
                 text "[+] Exiting through SYS_EXIT" ++ [c_nl]; [c_nl]];
  exit 0.

(** ** What they compute *)

Fixpoint fib (n : nat) : Z :=
  match n with
  | O => 0
  | S m => match m with O => 1 | S k => fib m + fib k end
  end.

Lemma fib_SS n : fib (S (S n)) = fib (S n) + fib n.
Proof. done. Qed.

Lemma u64_add_mod a b : u64 (u64 a + u64 b) = u64 (a + b).
Proof. unfold u64. by rewrite <- Z.add_mod by lia. Qed.

Lemma fibonacci_spec n : 0 <= n < 18446744073709551615 -> fibonacci n = u64 (fib (Z.to_nat n)).
Proof.
  intros Hn. unfold fibonacci. destruct (n =? 0) eqn:E0; bool_prop; [by subst|].
  destruct (n =? 1) eqn:E1; bool_prop; [by subst|].
  set (r := for_each 2 (n + 1) _ _).
  assert (Hr : r = (u64 (fib (Z.to_nat (n + 1 - 2))), u64 (fib (Z.to_nat (n + 1 - 1))))).
  { apply (for_each_inv 2 (n + 1) _ (0, 1) (fun i s => s = (u64 (fib (Z.to_nat (i - 2))), u64 (fib (Z.to_nat (i - 1))))));
      [lia|done|].
    intros j s Hj ->. cbn beta iota. rewrite u64_add_mod. replace (j + 1 - 2) with (j - 1) by lia. do 2 f_equal.
    replace (Z.to_nat (j + 1 - 1)) with (S (S (Z.to_nat (j - 2)))) by lia. rewrite fib_SS.
    replace (S (Z.to_nat (j - 2))) with (Z.to_nat (j - 1)) by lia. lia. }
  rewrite Hr. cbn [snd]. by replace (n + 1 - 1) with n by lia.
Qed.

(** No divisor below [i], and [i] past the root. *)
Lemma prime_by_trial n i :
  2 <= i -> 1 < n -> n < i * i -> (forall d, 2 <= d < i -> ~ (d | n)) -> Z.prime n.
Proof.
  intros Hi Hn Hlt Hno. split; [done|]. intros d Hd [q Hq].
  destruct (decide (d < i)); [apply (Hno d); [lia|by exists q]|].
  assert (0 < q) by nia. assert (q <> 1) by (intros ->; lia).
  apply (Hno q); [nia|]. exists d. lia.
Qed.

Lemma not_prime n d : 1 < d < n -> (d | n) -> ~ Z.prime n.
Proof. intros Hd Hdiv [_ Hp]. by apply (Hp d). Qed.

Lemma is_prime_spec n :
  0 <= n <= 18446744065119617025 -> exists b, is_prime n = Some b /\ (b = true <-> Z.prime n).
Proof.
  intros Hn. unfold is_prime. destruct (n <? 2) eqn:E1; bool_prop.
  { exists false. split; [done|]. split; [done|]. intros Hp. apply Z.prime_ge_2 in Hp. lia. }
  destruct (n =? 2) eqn:E2; bool_prop; [subst; exists true; split; [done|]; split; [intros _; apply Z.prime_2|done]|].
  assert (Hodd : Z.land n 1 = n mod 2) by (change 1 with (Z.ones 1) at 1; by rewrite Z.land_ones).
  rewrite Hodd. destruct (n mod 2 =? 0) eqn:E3; bool_prop.
  { exists false. split; [done|]. split; [done|]. intros Hp. exfalso. apply (not_prime n 2); [lia| |done].
    by apply Z.mod_divide. }
  apply (while_pos_total _ _ _ 4294967294 (fun k i => 3 <= i <= 4294967295 /\ i mod 2 = 1 /\ k = 4294967297 - i /\
    forall d, 2 <= d < i -> ~ (d | n))); [|unfold PRIME_FUEL; lia|].
  - split; [lia|]. split; [done|]. split; [done|]. intros d Hd Hdiv. replace d with 2 in Hdiv by lia.
    by apply Z.mod_divide in Hdiv.
  - intros k i Hk (Hi & Hi2 & -> & Hno). cbv beta. rewrite u64_small by nia. destruct (i * i <=? n) eqn:E; bool_prop.
    + destruct (n mod i =? 0) eqn:Em; bool_prop.
      * split; [done|]. intros Hp. exfalso. apply (not_prime n i); [nia| |done]. apply Z.mod_divide; [lia|done].
      * assert (Hne : i <> 4294967295).
        { intros ->. apply Em. replace n with (4294967295 * 4294967295) by lia. apply Z.mod_mul. lia. }
        rewrite u64_small by lia. exists (4294967297 - (i + 2)). split; [lia|]. split.
        { split; [lia|]. assert (i <> 4294967294) by (intros ->; done). lia. }
        split; [rewrite <- Zplus_mod_idemp_l, Hi2; done|]. split; [done|]. intros d Hd Hdiv.
        destruct (decide (d < i)); [by apply (Hno d); [lia|]|].
        destruct (decide (d = i)) as [->|]; [apply Z.mod_divide in Hdiv; lia|].
        replace d with (i + 1) in Hdiv by lia. apply E3. apply Z.mod_divide; [lia|].
        apply (Z.divide_trans _ (i + 1)); [|done]. apply Z.mod_divide; [lia|]. rewrite <- Zplus_mod_idemp_l, Hi2. done.
    + split; [|done]. intros _. by apply (prime_by_trial n i); [lia|lia|lia|].
Qed.

(** ** The gate of [login.c]

    [g_open]: a login has succeeded and no shell was started for it; [g_secret]: a
    password is being typed; [g_shell]: the shell that runs. *)
Record gate := mk_gate { g_open : bool; g_secret : bool; g_shell : option Z }.

Definition ask_password : list Z := text "password: ".
Definition star : list Z := [c_mul].
Definition rubout : list Z := [c_bs; c_space; c_bs].

(** A shell is started only for a login that succeeded, and no other program; only it
    is waited for; while a password is typed, only stars and corrections are shown. *)
Definition gate_allows {X} (e : sysE X) (g : gate) : Prop :=
  match e with
  | SysWrite fd buf => fd = STDOUT /\ (g_secret g = true -> buf = star \/ buf = rubout \/ buf = [c_nl])
  | SysRead fd len => fd = STDIN /\ len = 1
  | SysLogin username password => g_secret g = false /\ zlen username < 32 /\ zlen password < 64
  | SysSpawn cmdline => g_open g = true /\ cmdline = text "sh"
  | SysWait pid => g_shell g = Some pid
  | _ => False
  end.

Definition gate_after {X} (e : sysE X) (g : gate) : X -> gate :=
  match e in sysE X return X -> gate with
  | SysWrite fd buf => fun _ =>
      mk_gate (g_open g)
        (if bool_decide (buf = ask_password) then true else if bool_decide (buf = [c_nl]) then false else g_secret g) (g_shell g)
  | SysLogin _ _ => fun r => mk_gate (0 <=? r) (g_secret g) (g_shell g)
  | SysSpawn _ => fun pid => mk_gate false (g_secret g) (if 0 <=? pid then Some pid else None)
  | SysWait _ => fun _ => mk_gate (g_open g) (g_secret g) None
  | _ => fun _ => g
  end.

Abbreviation gated := (safe (fun X => @gate_allows X) (fun X _ _ => True) (fun X => @gate_after X)).

(** What a text shown does to a password being typed. *)
Definition shows (s : list Z) (secret : bool) : bool :=
  if bool_decide (s = ask_password) then true else if bool_decide (s = [c_nl]) then false else secret.

Definition set_secret (g : gate) (b : bool) : gate := mk_gate (g_open g) b (g_shell g).

Lemma gated_print {R} n s g (k : unit -> prog R) Q :
  g_secret g = false \/ cstr s = [c_nl] ->
  (forall n, gated n (k tt) (set_secret g (shows (cstr s) (g_secret g))) Q) -> gated n (print s ≫= k) g Q.
Proof.
  intros Hs Hk. eapply (safe_bind _ _ _ _ _ _ _ (fun _ g' => g' = set_secret g (shows (cstr s) (g_secret g)))).
  - apply safe_then; [split; [done|]|].
    + intros Hg. destruct Hs as [Hs| ->]; [congruence|auto].
    + intros j r _. by apply safe_ret.
  - intros j [] g' _ ->. apply Hk.
Qed.

(** Reading a line: what is shown keeps the state, and the line fits. *)
Lemma gated_line {R} n shown max g (k : list Z -> prog R) Q :
  0 < max -> (g_secret g = true -> forall c, shown c = c_mul) -> (forall c, c <> c_nl -> shown c <> c_nl) ->
  (forall n l, zlen l < max -> gated n (k l) (set_secret g false) Q) ->
  gated n (loop (login_key shown max) [] ≫= k) g Q.
Proof.
  intros Hmax Hsec Hnl Hk.
  eapply (safe_bind _ _ _ _ _ _ _ (fun l g' => zlen l < max /\ g' = set_secret g false)); [|intros j l g' _ [Hl ->]; by apply Hk].
  apply (safe_loop _ _ _ _ _ _ _ (fun l g' => zlen l < max /\ g' = g)); [split; [unfold zlen; cbn; lia|done]|].
  intros j l g' [Hl ->]. unfold login_key. apply safe_then; [done|]. intros i [r b] _. cbn [gate_after].
  set (good := fun (res : list Z + list Z) g' => match res with
    | inl l => zlen l < max /\ g' = g
    | inr l => zlen l < max /\ g' = set_secret g false
    end).
  assert (Hs : forall i s l, shows s (g_secret g) = g_secret g -> (g_secret g = true -> s = star \/ s = rubout) ->
    zlen l < max -> gated i (_ ← call (SysWrite STDOUT s); Ret (inl l)) g good).
  { intros i' s l' Hsh Hst Hl'. apply safe_then; [split; [done|]; intros Hg; destruct (Hst Hg); auto|].
    intros j' a _. apply safe_ret. split; [done|]. cbn [gate_after].
    fold (shows s (g_secret g)). rewrite Hsh. by destruct g. }
  destruct (b.[0] =? c_nl) eqn:E1.
  { apply safe_then; [split; [done|]; auto|]. intros j' a _. by apply safe_ret. }
  bool_prop. destruct (b.[0] =? c_bs) eqn:E2.
  - destruct (0 <? zlen l) eqn:E3; [|by apply safe_ret]. apply Hs; [done|auto|].
    unfold zlen in *. rewrite length_take. lia.
  - destruct (zlen l + 1 <? max) eqn:E3; bool_prop; [|by apply safe_ret]. apply Hs.
    + unfold shows. rewrite !bool_decide_eq_false_2; [done| |done]. intros [= Hc]. by apply (Hnl (b.[0])).
    + intros Hg. left. by rewrite (Hsec Hg).
    + unfold zlen in *. rewrite length_app. cbn [List.length]. lia.
Qed.

Lemma gated_turn n g :
  g_secret g = false -> g_open g = false ->
  gated n (login_turn tt) g (fun r g' => g_secret g' = false /\ g_open g' = false /\ match r with inl _ => True | inr _ => False end).
Proof.
  intros Hsec Hop. unfold login_turn. apply gated_print; [by left|]. intros j. apply gated_print; [by left|]. intros j1.
  rewrite Hsec. apply gated_line; [done|done|done|]. intros j2 username Hu. apply gated_print; [by left|]. intros j3.
  apply gated_line; [done|done|done|]. intros j4 password Hp.
  apply safe_then.
  { split; [done|]. split; [pose proof (cstr_length username); lia|pose proof (cstr_length password); lia]. }
  intros j5 r _. cbn [gate_after set_secret g_open g_secret g_shell]. destruct (r <? 0) eqn:Er; bool_prop.
  { replace (0 <=? r) with false by lia. apply gated_print; [by left|]. intros j6. by apply safe_ret. }
  replace (0 <=? r) with true by lia. apply gated_print; [by left|]. intros j6. cbn [set_secret g_secret].
  change (shows (cstr (text "welcome, ")) false) with false.
  apply gated_print; [by left|]. intros j7. apply gated_print; [by right|]. intros j8.
  apply safe_then; [done|]. intros j9 pid _. cbn [gate_after set_secret g_open g_secret g_shell].
  change (shows (cstr [c_nl]) ?b) with false.
  destruct (pid <? 0) eqn:Ep; bool_prop.
  - apply gated_print; [by left|]. intros j10. by apply safe_ret.
  - replace (0 <=? pid) with true by lia. apply safe_then; [done|]. intros j10 a _. by apply safe_ret.
Qed.

(** C33: Whatever is typed and whatever the system answers, the login program starts no
    program but the shell, and that only after the system has accepted a name and a
    password, once for each time; it waits only for that shell; while a password is
    typed it shows nothing but stars, corrections and the end of the line; and the name
    and the password fit what the kernel copies. *)
Theorem login_guards_shell l : trace login_start l ->
  allowed (fun X => @gate_allows X) (fun X _ _ => True) (fun X => @gate_after X) (mk_gate false false None) l.
Proof.
  intros Ht. apply (safe_trace _ _ _ login_start _ (fun _ _ => False)); [|done]. intros n.
  apply (safe_loop _ _ _ _ _ _ _ (fun _ g => g_secret g = false /\ g_open g = false)); [done|]. intros j [] g [H1 H2].
  eapply safe_mono; [done| |by apply gated_turn]. intros [[]|[]] g' (H3 & H4 & _). done.
Qed.

(** ** A system to run them on: one account, no files. *)
#[export] Instance no_files : FileCalls unit := {
  f_open w _ _ := (-1, w);
  f_read w _ _ := (-1, [], w);
  f_write w _ _ := (-1, w);
  f_close w _ := w;
}.

#[export] Instance one_account : OtherCalls unit := fun X e =>
  match e in sysE X return unit -> option (X * unit) with
  | SysLogin username password => fun w =>
      Some (if bool_decide (username = text "root" /\ password = text "toor") then 0 else -1, w)
  | SysSpawn _ => fun w => Some (7, w)
  | SysWait _ => fun w => Some (0, w)
  | _ => fun w => None
  end.

(** A wrong password, then the right one: the shell is started once. *)
Definition login_keys : list Z :=
  text "root" ++ [c_nl] ++ text "tour" ++ [c_nl] ++ text "root" ++ [c_nl] ++ text "tooo" ++ [c_bs] ++ text "r" ++ [c_nl].

Definition starts (l : list step) : list (list Z) :=
  l ≫= fun s => match st_call s with SysSpawn cmdline => [cmdline] | _ => [] end.

Lemma login_guards_shell_witness :
  let l := follow 400 login_start (mk_world login_keys [] tt) in
  starts l = [text "sh"] /\
  allowed (fun X => @gate_allows X) (fun X _ _ => True) (fun X => @gate_after X) (mk_gate false false None) l.
Proof.
  set (l := follow 400 login_start (mk_world login_keys [] tt)). split.
  - vm_compute. reflexivity.
  - exact (login_guards_shell l (follow_trace 400 login_start (mk_world login_keys [] tt))).
Defined.

(** The functions of [test.c] compute what they are named after: [fibonacci] the
    Fibonacci numbers modulo 2^64, and [is_prime] decides primality, in a loop that ends
    and does not overflow, up to (2^32 - 1)^2. *)
Theorem test_functions_correct n :
  (0 <= n < 18446744073709551615 -> fibonacci n = u64 (fib (Z.to_nat n))) /\
  (0 <= n <= 18446744065119617025 -> exists b, is_prime n = Some b /\ (b = true <-> Z.prime n)).
Proof. split; [apply fibonacci_spec|apply is_prime_spec]. Qed.

Lemma test_functions_correct_witness :
  fibonacci 93 = 12200160415121876738 /\ exists b, is_prime 65537 = Some b /\ (b = true <-> Z.prime 65537).
Proof.
  split; [vm_compute; reflexivity|].
  apply (proj2 (test_functions_correct 65537)). lia.
Defined.

Lemma test_sums : arithmetic_test = 50005000 /\ memory_test = 1044480.
Proof. split; vm_compute; reflexivity. Qed.

(** The whole of [test.c] runs to its end. *)
Lemma test_start_runs :
  exists out, run 3000 test_start (mk_world [] [] tt) = Some (inr (Exited 0), mk_world [] out tt) /\
    zlen out = 960.
Proof.
  destruct test_sums as [Ha Hm]. unfold test_start. rewrite Ha, Hm.
  eexists. split; [vm_compute; reflexivity|reflexivity].
Qed.

(** [upper] turns what it reads into upper case. *)
Lemma upper_step_spec c ks out :
  runs (upper_step tt) (mk_world (c :: ks) out tt) (inl (inl tt)) (mk_world ks (out ++ [upper c]) tt).
Proof. eapply runs_then; [reflexivity|]. eapply runs_then; [reflexivity|]. by apply runs_ret. Qed.

Lemma upper_start_spec ks out :
  runs upper_start (mk_world ks out tt) (inr Waiting) (mk_world [] (out ++ map upper ks) tt).
Proof.
  apply runs_bind_halt. revert out. induction ks as [|c ks IH]; intros out.
  - rewrite app_nil_r. apply runs_loop_halt. by apply runs_halts.
  - eapply runs_loop; [apply upper_step_spec|]. specialize (IH (out ++ [upper c])). by rewrite <- app_assoc in IH.
Qed.
