(* ===== verification/Shell.v ===== *)
(** The kernel's own shell, [kernel/core/shell/]: its line editor, the dispatch of
    commands, and the commands over the whole kernel of [Syscall]. *)
From S2P Require Import Prelude CString RingBuffer Pmm Alloc Heap Memfs Blk Fs Ufs Users Thread Pipe Video Keyboard Fd Process ProcessSpec Syscall.
From Stdlib Require Import String.

Open Scope Z_scope.
Open Scope list_scope.

(** A string literal with its terminator. *)
Definition lit (s : string) : list Z := text s ++ [0].
Definition nl (s : string) : list Z := [c_nl] ++ text s.

(** * [shell_io.c] *)

Definition print_str (v : video) (str : list Z) : video := foldl putchar_at_cursor v (cstr str).

Definition digits : list Z := text "0123456789ABCDEF".

Definition hex16 (value : Z) : list Z :=
  for_each 0 16 (fun i buf => buf ++ [digits.[Z.land (Z.shiftr value ((15 - i) * 4)) 0xF]]) [].

Definition print_hex (v : video) (value : Z) : video := print_str v (text "0x" ++ hex16 value).

(** * [e820.c] *)

Definition e820_type_name (type : Z) : list Z :=
  match type with
  | 1 => text "usable"
  | 2 => text "reserved"
  | 3 => text "ACPI reclaimable"
  | 4 => text "ACPI NVS"
  | 5 => text "bad"
  | _ => text "unknown"
  end.

(** What the commands use of the kernel besides its system calls: the frame allocator
    and the memory map. *)
Class ShellEnv (K : Type) := {
  env_alloc_frame : K -> K * Z;
  env_e820 : E820.e820_buffer_t;
}.

(** A command that waits: for a process, with the buffer to free, or for threads one
    after the other; then it prints its last message. *)
Inductive pending :=
  | WaitProcess (pid buf : Z) (message : list Z)
  | WaitThreads (tids : list Z) (message : list Z).

(** Where the shell's thread is: at its prompt, in a command that waits, or past
    [poweroff]. *)
Inductive flow := AtPrompt | Waiting (p : pending) | PoweredOff.

(** [line_buffer] and [line_length] of [shell.c]. *)
Definition LINE_BUFFER_SIZE : Z := 128.

Record kshell := mk_kshell { line_buffer : list Z; line_length : Z }.

Section shell.
Context {K D H : Type} `{SchedEnv K} `{ProcEnv K} `{SysEnv K} `{ShellEnv K} `{BlockDev D} `{Allocator H}.
Context (pipes_addr kbd_channel elf_trampoline raw_trampoline : Z).
(** The entry points of the demonstration threads, and [tiny_elf_binary]. *)
Context (demo_thread demo_thread_a demo_thread_b elf_demo elf_demo_size : Z).
Implicit Types (o : os_t K D H) (f : io_state K D H).

Definition on_screen o (g : video -> video) : os_t K D H := with_io o (with_video (os_io o) (g (io_video (os_io o)))).
Definition say o (str : list Z) : os_t K D H := on_screen o (fun v => print_str v str).
Definition say_hex o (value : Z) : os_t K D H := on_screen o (fun v => print_hex v value).
Definition with_os_ufs o (u : ufs D) : os_t K D H := with_io o (with_ufs (os_io o) u).
Definition os_ufs o : ufs D := io_ufs (os_io o).

(** ** [shell.c] *)

Definition cmd_help o : os_t K D H :=
  say o (nl "commands: help, clear, echo <text>, meminfo, alloctest, vmmtest, heaptest, threadtest, largethreadtest, usermodetest, elftest, ufstest, permtest, ls, run <name>, setuid <pid> <uid>, poweroff").

Definition cmd_clear o : os_t K D H := on_screen o (fun v => video_reset_cursor (clearwin v)).
Definition cmd_echo o (arg : list Z) : os_t K D H := say (say o [c_nl]) arg.

(** ** [shell_cmd_fs.c] *)

Definition TEST_NAME : list Z := lit "selftest".
Definition TEST_CONTENT : list Z := text "MiniKernel persistent storage works!".
Definition content_len : Z := zlen TEST_CONTENT.

Definition report o (label : list Z) (ok : bool) : os_t K D H :=
  say (say (say o (nl "  ")) label) (if ok then text ": PASS" else text ": FAIL").

(** Read the test file back into a cleared buffer and compare. *)
Definition read_back o (handle : Z) : option (os_t K D H * bool) :=
  '(u, readback, got) ← ufs_read_at (os_ufs o) handle 0 (replicate 64 0) content_len;
  Some (with_os_ufs o u, (got =? content_len) && str_eq readback (TEST_CONTENT ++ [0])).

Definition cmd_ufstest o : option (os_t K D H) :=
  let o := say o (nl "exercising the persistent (disk-backed) filesystem:") in
  let o := with_os_ufs o (ufs_delete (os_ufs o) TEST_NAME).1 in
  let (u, handle) := ufs_create (os_ufs o) TEST_NAME 0 in
  let o := report (with_os_ufs o u) (text "create") (handle >=? 0) in
  if handle <? 0 then Some o
  else
    '(u, written) ← ufs_write_at (os_ufs o) handle 0 TEST_CONTENT content_len;
    let o := report (with_os_ufs o u) (text "write") (written =? content_len) in
    '(o, same) ← read_back o handle;
    let o := report o (text "read-back") same in
    let o := with_os_ufs o (ufs_init (os_ufs o)) in
    let handle2 := ufs_find (os_ufs o) TEST_NAME in
    let o := report o (text "survives remount (found)") (handle2 >=? 0) in
    o ← (if handle2 >=? 0 then
           '(o, same) ← read_back o handle2;
           Some (report o (text "survives remount (content)") same)
         else Some o);
    let o := say o (nl "done - '") in
    let o := say o TEST_NAME in
    let o := say o (text "' left on disk; reboot and run 'ufstest' again, or check it from the user shell with 'cat ") in
    let o := say o TEST_NAME in
    Some (say o (text "', to confirm it survives a real power cycle too.")).

(** Digits from the front: the number, at the width of [wrap], and the rest. *)
Fixpoint read_digits (wrap : Z -> Z) (s : list Z) (v : Z) : Z * list Z :=
  match s with
  | c :: s' => if is_digit c then read_digits wrap s' (wrap (wrap (v * 10) + (c - c_0))) else (v, s)
  | [] => (v, [])
  end.

(** The decimal digits, last first. *)
Fixpoint digits_of (fuel : nat) (v : Z) : list Z :=
  match fuel with
  | O => []
  | S fuel => if v >? 0 then (c_0 + v mod 10) :: digits_of fuel (v / 10) else []
  end.

(** [char msg[32]]: [None] is a store behind it. *)
Definition setuid_message (uid : Z) : option (list Z) :=
  let ds := if uid =? 0 then [c_0] else digits_of 12 uid in
  let msg := nl "setuid: pid now runs as uid " ++ rev ds in
  if zlen msg + 1 >? 32 then None else Some msg.

Definition cmd_setuid o (args : list Z) : option (os_t K D H) :=
  let args := skip_spaces args in
  let any_pid_digit := is_digit (peek args) in
  let (pid, args) := read_digits s32 args 0 in
  let args := skip_spaces args in
  let any_uid_digit := is_digit (peek args) in
  let uid := (read_digits u32 args 0).1 in
  if negb any_pid_digit || negb any_uid_digit then Some (say o (nl "usage: setuid <pid> <uid>"))
  else
    let tid := process_get_tid (os_kern o) pid in
    if tid <? 0 then Some (say o (nl "setuid: no such process"))
    else
      let o := with_os_sched o (sched_set_uid (os_sched o) tid uid).1 in
      msg ← setuid_message uid;
      Some (say o msg).

Definition PERM_TEST_NAME : list Z := lit "permtest_secret".

(** [perm_report] prints what [report] prints; only its log differs. *)
Definition perm_report o (label : string) (ok : bool) : os_t K D H := report o (text label) ok.

Definition shell_open o (name : list Z) (flags : Z) : option (os_t K D H * Z) :=
  '(f, fd) ← fd_open (os_io o) name flags; Some (with_io o f, fd).

(** A transfer that does not sleep, as on a file. *)
Definition shell_write o (fd : Z) (buf : list Z) (len : Z) : option (os_t K D H * Z) :=
  '(f, t) ← fd_write pipes_addr (os_io o) fd buf len;
  match t with IoReturned n => Some (with_io o f, n) | IoSlept _ _ => None end.

Definition shell_read o (fd : Z) (buf : list Z) (len : Z) : option (os_t K D H * list Z * Z) :=
  '(f, buf, t) ← fd_read pipes_addr kbd_channel (os_io o) fd buf len;
  match t with IoReturned n => Some (with_io o f, buf, n) | IoSlept _ _ => None end.

Definition shell_close o (fd : Z) : os_t K D H := with_io o (fd_close pipes_addr (os_io o) fd).1.

Definition shell_set_uid o (tid uid : Z) : os_t K D H := with_os_sched o (sched_set_uid (os_sched o) tid uid).1.

(** [handle >= 0 && ufs_chmod(handle, perm) == 0] *)
Definition shell_chmod o (perm : Z) : os_t K D H * bool :=
  let handle := ufs_find (os_ufs o) PERM_TEST_NAME in
  if handle >=? 0 then
    let (u, r) := ufs_chmod (os_ufs o) handle perm in (with_os_ufs o u, r =? 0)
  else (o, false).

Definition cmd_permtest o : option (os_t K D H) :=
  let o := say o (nl "exercising UFS owner/permission checks:") in
  let tid := sched_current_tid (os_sched o) in
  let original_uid := sched_get_uid (os_sched o) tid in
  let o := with_os_ufs o (ufs_delete (os_ufs o) PERM_TEST_NAME).1 in
  let o := shell_set_uid o tid 1000 in
  '(o, fd) ← shell_open o PERM_TEST_NAME (Z.lor FD_CREATE FD_PERSIST);
  let o := perm_report o "owner (1000) can create" (fd >=? 0) in
  o ← (if fd >=? 0 then
         '(o, n) ← shell_write o fd (text "hello") 5;
         Some (shell_close (perm_report o "owner (1000) can write" (n =? 5)) fd)
       else Some o);
  let o := shell_set_uid o tid 2000 in
  '(o, fd_other) ← shell_open o PERM_TEST_NAME FD_PERSIST;
  let o := perm_report o "non-owner (2000) denied open-for-read by default" (fd_other <? 0) in
  let o := shell_set_uid o tid 1000 in
  let (o, ok) := shell_chmod o UFS_PERM_OTHER_READ in
  let o := perm_report o "chmod to allow others to read" ok in
  let o := shell_set_uid o tid 2000 in
  '(o, fd_other) ← shell_open o PERM_TEST_NAME FD_PERSIST;
  let o := perm_report o "non-owner (2000) can now read" (fd_other >=? 0) in
  o ← (if fd_other >=? 0 then
         '(o, _, n) ← shell_read o fd_other (replicate 8 0) 5;
         let o := perm_report o "non-owner (2000) read gets real content" (n =? 5) in
         '(o, w) ← shell_write o fd_other (text "nope!") 5;
         let o := perm_report o "non-owner (2000) still denied write (read-only)" (w <? 0) in
         Some (shell_close o fd_other)
       else Some o);
  let o := shell_set_uid o tid 1000 in
  let (o, ok) := shell_chmod o (Z.lor UFS_PERM_OTHER_READ UFS_PERM_OTHER_WRITE) in
  let o := perm_report o "chmod to allow others to write too" ok in
  let o := shell_set_uid o tid 2000 in
  '(o, fd_other) ← shell_open o PERM_TEST_NAME FD_PERSIST;
  o ← (if fd_other >=? 0 then
         '(o, w) ← shell_write o fd_other (text "yep!!") 5;
         Some (shell_close (perm_report o "non-owner (2000) can now write (public)" (w =? 5)) fd_other)
       else Some (perm_report o "non-owner (2000) can now write (public)" false));
  let o := shell_set_uid o tid 3000 in
  let handle := ufs_find (os_ufs o) PERM_TEST_NAME in
  let delete_denied :=
    (handle <? 0) ||
    negb (ufs_owner (os_ufs o) handle =? sched_get_uid (os_sched o) (sched_current_tid (os_sched o))) in
  let o := perm_report o "non-owner (3000) denied delete regardless of perm bits" delete_denied in
  let o := shell_set_uid o tid original_uid in
  let o := say o (nl "done - '") in
  let o := say o PERM_TEST_NAME in
  Some (say o (text "' left on disk, owned by uid 1000, world-writable.")).

(** ** [shell_cmd_mem.c] *)

Definition cmd_meminfo o : os_t K D H :=
  let e820 := env_e820 in
  let count := E820.e820_entry_count e820 in
  let o := say o (nl "BIOS memory map (") in
  let o := say_hex o count in
  let o := say o (text " regions):") in
  let o :=
    match for_range 0 count (fun i o =>
      match E820.e820_get_entry e820 i with
      | None => inr o
      | Some entry =>
          let o := say o (nl "  ") in
          let o := say_hex o (E820.base entry) in
          let o := say o (text " - ") in
          let o := say_hex o (E820.base entry +64 E820.length entry) in
          let o := say o (text "  ") in
          inl (say o (e820_type_name (E820.type entry)))
      end) o with
    | inl o | inr o => o
    end in
  let o := say o (nl "total usable: ") in
  let o := say_hex o (E820.e820_total_usable_bytes e820) in
  let o := say o (text " bytes") in
  let total := env_total_frames (os_env o) in
  let free := env_free_frames (os_env o) in
  let o := say o ([c_nl] ++ nl "frame allocator: ") in
  let o := say_hex o total in
  let o := say o (text " total frames, ") in
  let o := say_hex o free in
  let o := say o (text " free (") in
  let o := say_hex o (total -64 free) in
  say o (text " used)").

Definition shell_alloc_frame o : os_t K D H * Z :=
  let (k, addr) := env_alloc_frame (os_env o) in (with_os_env o k, addr).

Definition cmd_alloctest o : os_t K D H :=
  let o := say o (nl "allocating 3 frames:") in
  let o := for_each 0 3 (fun i o =>
    let (o, addr) := shell_alloc_frame o in
    let o := say o (nl "  frame ") in
    let o := say_hex o i in
    let o := say o (text ": ") in
    if addr =? 0 then say o (text "out of memory") else say_hex o addr) o in
  let o := say o (nl "free frames remaining: ") in
  say_hex o (env_free_frames (os_env o)).

Definition TWO_MB : Z := 0x200000.
Definition MAX_ATTEMPTS : Z := 100000.

Definition cmd_vmmtest o : os_t K D H :=
  let o := say o (nl "allocating frames until one lands past the 2MB mark...") in
  match for_range 0 MAX_ATTEMPTS (fun attempts '(o, _, _) =>
    let (o, addr) := shell_alloc_frame o in
    let attempts := attempts + 1 in
    if addr =? 0 then inr (inl o)
    else if addr >=? TWO_MB then inr (inr (o, addr, attempts))
    else inl (o, addr, attempts)) (o, 0, 0) with
  | inr (inl o) => say o (nl "out of memory before reaching 2MB")
  | inl (o, addr, attempts) | inr (inr (o, addr, attempts)) =>
      let o := say o (nl "got frame ") in
      let o := say_hex o addr in
      let o := say o (text " after ") in
      let o := say_hex o attempts in
      let o := say o (text " allocations") in
      let o := with_os_env o (env_st8 (os_env o) addr 0xA5) in
      let readback := env_ld8 (os_env o) addr in
      let o := say o (nl "wrote 0xA5 to it, read back ") in
      let o := say_hex o readback in
      if readback =? 0xA5 then say o (text " -> OK, paging extension works") else say o (text " -> MISMATCH")
  end.

(** [n] bytes [c] and a terminator, in the heap. *)
Definition fill_block o (p n c : Z) : os_t K D H :=
  let k := for_each 0 n (fun i k => env_st8 k (p +64 i) c) (os_env o) in
  with_os_env o (env_st8 k (p +64 n) 0).

Definition shell_malloc o (size : Z) : option (os_t K D H * Z) :=
  '(k, p) ← env_malloc (os_env o) size; Some (with_os_env o k, p).

Definition shell_free o (p : Z) : option (os_t K D H) :=
  k ← env_free (os_env o) p; Some (with_os_env o k).

Definition say_char o (c : Z) : os_t K D H := on_screen o (fun v => putchar_at_cursor v c).

Definition cmd_heaptest o : option (os_t K D H) :=
  let o := say o (nl "allocating three blocks and writing through them:") in
  '(o, a) ← shell_malloc o 32;
  '(o, b) ← shell_malloc o 64;
  '(o, c) ← shell_malloc o 16;
  if (a =? 0) || (b =? 0) || (c =? 0) then Some (say o (nl "kmalloc returned NULL - out of memory"))
  else
    let o := fill_block o a 31 65 in
    let o := fill_block o b 63 66 in
    let o := fill_block o c 15 67 in
    let o := say_hex (say o (nl "  a=")) a in
    let o := say_hex (say o (nl "  b=")) b in
    let o := say_hex (say o (nl "  c=")) c in
    let o := say o (nl "freeing b, then allocating a similar-sized block:") in
    o ← shell_free o b;
    '(o, d) ← shell_malloc o 40;
    let o := say_hex (say o (nl "  d=")) d in
    let o := if d =? b then say o (text " (same address as freed b - free list reused it)")
             else say o (text " (different address - grew instead of reusing b this time)") in
    let o := say o (nl "data still intact after all that: a[0]=") in
    let o := say_char o (env_ld8 (os_env o) a) in
    let o := say o (text " c[0]=") in
    Some (say_char o (env_ld8 (os_env o) c)).

(** ** [shell_cmd_thread.c] *)

Definition shell_spawn o (entry : Z) : option (os_t K D H * Z) :=
  '(s, tid) ← sched_spawn (os_sched o) entry; Some (with_os_sched o s, tid).

Definition cmd_threadtest o : option (os_t K D H * flow) :=
  let o := say o (nl "spawning two threads that print A/B and yield:" ++ [c_nl]) in
  '(o, tid_a) ← shell_spawn o demo_thread_a;
  '(o, tid_b) ← shell_spawn o demo_thread_b;
  Some (o, Waiting (WaitThreads [tid_a; tid_b] (nl "both threads finished"))).

Fixpoint spawn_many (n : nat) o : option (os_t K D H * list Z) :=
  match n with
  | O => Some (o, [])
  | S n =>
      '(o, tid) ← shell_spawn o demo_thread;
      '(o, tids) ← spawn_many n o;
      Some (o, tid :: tids)
  end.

Definition cmd_largethreadtest o : option (os_t K D H * flow) :=
  '(o, tids) ← spawn_many 8 o;
  Some (o, Waiting (WaitThreads tids (nl "threads finished"))).

(** ** [shell_cmd_process.c] *)

Definition cmd_usermodetest o : option (os_t K D H * flow) :=
  let o := say o (nl "spawning a ring-3 thread - check the serial/klog output for its syscall message:" ++ [c_nl]) in
  '(kn, tid) ← process_spawn_demo_entry raw_trampoline (os_kern o);
  let o := with_kern o kn in
  if tid <? 0 then Some (say o (text "failed to spawn demo thread"), AtPrompt)
  else Some (o, Waiting (WaitThreads [tid] (nl "ring-3 thread exited back through SYS_EXIT"))).

Definition cmd_elftest o : option (os_t K D H * flow) :=
  let o := say o (nl "loading and running a standalone ELF binary in its own address space - check the serial/klog output:" ++ [c_nl]) in
  '(kn, tid) ← process_spawn_builtin_demo elf_trampoline (os_kern o) elf_demo elf_demo_size;
  let o := with_kern o kn in
  if tid <? 0 then Some (say o (text "failed to spawn elf demo thread"), AtPrompt)
  else Some (o, Waiting (WaitProcess tid 0 (nl "elf process exited back through SYS_EXIT"))).

Definition cmd_ls o : os_t K D H :=
  let count := fs_file_count (os_fs o) in
  if count =? 0 then say o (nl "no filesystem mounted or no files present")
  else
    for_each 0 count (fun i o =>
      match fs_entry (os_fs o) i with
      | None => o
      | Some e => say (say o [c_nl]) (fs_name e)
      end) o.

Definition cmd_run o (name : list Z) : option (os_t K D H * flow) :=
  match fs_find (os_fs o) name with
  | None => Some (say (say o (nl "file not found: ")) name, AtPrompt)
  | Some entry =>
      '(o, buf) ← shell_malloc o (fs_size_bytes entry);
      if buf =? 0 then Some (say o (nl "out of memory reading file"), AtPrompt)
      else
        '(k, d, r) ← read_to_memory (os_env o) (os_fs o) entry buf;
        let o := with_fs (with_os_env o k) d in
        if negb (r =? 0) then
          o ← shell_free (say o (nl "failed to read file from disk")) buf;
          Some (o, AtPrompt)
        else
          let o := say (say (say o (nl "loaded ")) name)
                       (text " from disk, running it - check serial/klog output:" ++ [c_nl]) in
          '(kn, tid) ← process_spawn_from_elf elf_trampoline (os_kern o) buf (fs_size_bytes entry);
          let o := with_kern o kn in
          if tid <? 0 then
            o ← shell_free (say o (text "failed to spawn thread")) buf;
            Some (o, AtPrompt)
          else Some (o, Waiting (WaitProcess tid buf (nl "process exited back through SYS_EXIT")))
  end.

(** ** The dispatch of [shell.c] *)

(** A handler that returns at once. *)
Definition returns (r : option (os_t K D H)) : option (os_t K D H * flow) := o ← r; Some (o, AtPrompt).

(** The table of exact commands: name, handler, [suppress_prompt]. *)
Definition exact_commands : list (list Z * (os_t K D H -> option (os_t K D H * flow)) * bool) := [
  (text "help", fun o => returns (Some (cmd_help o)), false);
  (text "meminfo", fun o => returns (Some (cmd_meminfo o)), false);
  (text "alloctest", fun o => returns (Some (cmd_alloctest o)), false);
  (text "vmmtest", fun o => returns (Some (cmd_vmmtest o)), false);
  (text "heaptest", fun o => returns (cmd_heaptest o), false);
  (text "threadtest", cmd_threadtest, false);
  (text "largethreadtest", cmd_largethreadtest, false);
  (text "usermodetest", cmd_usermodetest, false);
  (text "elftest", cmd_elftest, false);
  (text "ufstest", fun o => returns (cmd_ufstest o), false);
  (text "permtest", fun o => returns (cmd_permtest o), false);
  (text "ls", fun o => returns (Some (cmd_ls o)), false);
  (text "clear", fun o => returns (Some (cmd_clear o)), true);
  (text "poweroff", fun o => Some (o, PoweredOff), true)
].

Definition prefix_commands : list (list Z * (os_t K D H -> list Z -> option (os_t K D H * flow))) := [
  (text "run ", cmd_run);
  (text "echo ", fun o arg => returns (Some (cmd_echo o arg)));
  (text "setuid ", fun o arg => returns (cmd_setuid o arg))
].

Definition print_prompt o : os_t K D H := say o (nl "> ").

(** A handler that waits has its prompt after the wait. *)
Definition then_prompt (r : option (os_t K D H * flow)) : option (os_t K D H * flow) :=
  '(o, fl) ← r;
  Some (match fl with AtPrompt => print_prompt o | _ => o end, fl).

(** [run_command], after what it writes to the log. *)
Definition run_command o (line : list Z) : option (os_t K D H * flow) :=
  if peek line =? 0 then Some (print_prompt o, AtPrompt)
  else
    match find (fun e => str_eq_and line e.1.1) exact_commands with
    | Some (_, handler, suppress_prompt) => if suppress_prompt then handler o else then_prompt (handler o)
    | None =>
        match find (fun e => str_starts_with line e.1) prefix_commands with
        | Some (prefix, handler) => then_prompt (handler o (drop (Z.to_nat (str_len prefix)) line))
        | None => Some (print_prompt (say (say o (nl "unknown command: ")) line), AtPrompt)
        end
    end.

(** One turn of the wait a command ends with. *)
Fixpoint wait_threads o (tids : list Z) (message : list Z) : os_t K D H * flow :=
  match tids with
  | [] => (print_prompt (say o message), AtPrompt)
  | tid :: rest =>
      match sched_wait_turn (os_sched o) tid with
      | None => wait_threads o rest message
      | Some (s, _) => (with_os_sched o s, Waiting (WaitThreads tids message))
      end
  end.

Definition resume o (p : pending) : option (os_t K D H * flow) :=
  match p with
  | WaitThreads tids message => Some (wait_threads o tids message)
  | WaitProcess pid buf message =>
      '(kn, e) ← process_wait pipes_addr (os_kern o) pid;
      let o := with_kern o kn in
      match e with
      | Done _ =>
          o ← (if buf =? 0 then Some o else shell_free o buf);
          Some (print_prompt (say o message), AtPrompt)
      | _ => Some (o, Waiting p)
      end
  end.

(** ** The loop of [shell_run] *)

Definition shell_start o : os_t K D H := print_prompt (say o (text "Type 'help' for a list of commands.")).

(** The body of the loop for the character [c]. *)
Definition shell_key o (sh : kshell) (c : Z) : option (os_t K D H * kshell * flow) :=
  let len := line_length sh in
  if c =? c_nl then
    let buf := (line_buffer sh).[len <- 0] in
    '(o, fl) ← run_command o buf;
    Some (o, mk_kshell buf 0, fl)
  else if c =? c_bs then
    if len >? 0 then Some (say_char o c_bs, mk_kshell (line_buffer sh) (len - 1), AtPrompt)
    else Some (o, sh, AtPrompt)
  else if len <? LINE_BUFFER_SIZE - 1 then
    Some (say_char o c, mk_kshell ((line_buffer sh).[len <- c]) (len + 1), AtPrompt)
  else Some (o, sh, AtPrompt).

(** One turn of the shell's thread. *)
Definition shell_turn o (sh : kshell) (fl : flow) : option (os_t K D H * kshell * flow) :=
  match fl with
  | PoweredOff => Some (o, sh, PoweredOff)
  | Waiting p => '(o, fl) ← resume o p; Some (o, sh, fl)
  | AtPrompt =>
      let '(kb, s, t) := kbd_getchar kbd_channel (io_keyboard (os_io o)) (os_sched o) in
      let o := with_io o (with_keyboard (with_sched (os_io o) s) kb) in
      match t with
      | Returned c => shell_key o sh c
      | Slept _ => Some (o, sh, AtPrompt)
      end
  end.
End shell.
