(* ===== verification/ShellSpec.v ===== *)
(** What the commands of the kernel's shell do: its self-tests pass on every sound
    kernel, and the message of [setuid] fits its buffer for short uids alone. *)
From S2P Require Import Prelude Mem CString RingBuffer Pmm Alloc Heap Memfs Blk Fs Ufs UfsSpec Users Thread Pipe Video Keyboard Fd Process ProcessSpec Syscall SyscallSpec Shell.
From Stdlib Require Import String.

Open Scope Z_scope.
Open Scope list_scope.

(** * One file among the others *)

Section files.
Context {D : Type} {B : BlockDev D} {L : BlockDevLaws D}.
Implicit Types (s : ufs D) (nm buf : list Z) (h : Z).

(** The files of other names are as they were. *)
Definition others_kept nm s s' : Prop :=
  forall j, 0 <= j < 64 -> de_used (dirent_at (directory s) j) = true ->
    de_name (dirent_at (directory s) j) <> cstr nm ->
    dirent_at (directory s') j = dirent_at (directory s) j /\ ufs_content s' j = ufs_content s j.

(** There is an entry for [nm], its own or a free one. *)
Definition entry_for nm s : Prop :=
  (exists i, named s i nm) \/ exists i, 0 <= i < 64 /\ de_used (dirent_at (directory s) i) = false.

Lemma others_kept_trans nm s1 s2 s3 : others_kept nm s1 s2 -> others_kept nm s2 s3 -> others_kept nm s1 s3.
Proof.
  intros H12 H23 j Hj Hu Hn. destruct (H12 j Hj Hu Hn) as [E1 C1].
  destruct (H23 j Hj) as [E2 C2]; [by rewrite E1|by rewrite E1|]. by rewrite E2, C2.
Qed.

(** Off slot [h], which is [nm]'s, nothing has moved. *)
Lemma others_kept_slot nm s s' h :
  ufs_wf s -> same_others s s' h -> same_data (disk s) (disk s') ->
  (de_used (dirent_at (directory s) h) = true -> de_name (dirent_at (directory s) h) = cstr nm) ->
  others_kept nm s s'.
Proof.
  intros Hw Hs Hd Hh j Hj Hu Hn. destruct (decide (j = h)) as [->|Hne]; [by destruct Hn; apply Hh|].
  pose proof (Hs j Hj Hne) as E. split; [done|]. apply content_same; try done; [apply Hw|..]; by rewrite E.
Qed.

Lemma others_kept_same nm s s' :
  directory s' = directory s -> (forall j, ufs_content s' j = ufs_content s j) -> others_kept nm s s'.
Proof. intros Ed Hc j _ _ _. by rewrite Ed. Qed.

Lemma persist_next s ok : next_free_lba (persist_and_return s ok).1 = next_free_lba s.
Proof.
  unfold persist_and_return, persist_directory, persist_superblock.
  destruct (ata_write_sectors (disk s) _ _ _) as [r d]. destruct (negb (r =? 0)); [done|].
  destruct (ata_write_sectors _ _ _ _) as [r2 d2]. by destruct (negb (r2 =? 0)).
Qed.

(** After a deletion the name is free, and so is an entry if there was one for it. *)
Lemma file_delete s nm :
  ufs_wf s -> let s' := (ufs_delete s nm).1 in
  ufs_wf s' /\ next_free_lba s' = next_free_lba s /\ others_kept nm s s' /\
  (forall i, ~ named s' i nm) /\
  (entry_for nm s -> exists i, 0 <= i < 64 /\ de_used (dirent_at (directory s') i) = false).
Proof.
  intros Hw s'. assert (Hn : next_free_lba s' = next_free_lba s).
  { subst s'. unfold ufs_delete. destruct (negb _); [done|]. destruct (_ <? 0); [done|]. by rewrite persist_next. }
  destruct (ufs_delete_spec s nm Hw) as [[Hno E]|(s1 & h & E & (Hh & Hu & Hnm) & Hw1 & Hfree & Hs & Hd & Hf)];
    subst s'; rewrite E in *; cbn [fst] in *.
  - split_and!; try done. intros [[i Hi]|Hi]; [by destruct (Hno i)|done].
  - split_and!; try done; [by apply (others_kept_slot nm s s1 h)| |by exists h].
    intros i Hi. rewrite (ufs_find_named s1 i nm (uw_mem _ Hw1) Hi) in Hf. destruct Hi. lia.
Qed.

Lemma file_create s nm owner :
  ufs_wf s -> bytes_ok nm -> 0 < zlen (cstr nm) < 20 -> (forall i, ~ named s i nm) ->
  (exists i, 0 <= i < 64 /\ de_used (dirent_at (directory s) i) = false) ->
  exists s' h, ufs_create s nm owner = (s', h) /\ ufs_wf s' /\ named s' h nm /\
    ufs_content s' h = [] /\ dirent_at (directory s') h = mk_dirent true (cstr nm) 0 0 0 (u32 owner) 0 /\
    next_free_lba s' = next_free_lba s /\ others_kept nm s s'.
Proof.
  intros Hw Hb Hl Hno (i & Hi & Hfree).
  destruct (ufs_create_spec s nm owner Hw Hb) as [[[E|[E|[[j Hj]|E]]] _]|
    (_ & s' & h & E & Hh & Hu & Hw' & He & Hs & Hd & Hn & _)].
  - rewrite E in Hl. by destruct Hl.
  - lia.
  - by destruct (Hno j).
  - by rewrite E in Hfree.
  - exists s', h. unfold named, ufs_content. rewrite He. split_and!; try done; try lia.
    apply (others_kept_slot nm s s' h); try done. by rewrite Hu.
Qed.

Lemma named_valid s h nm : ufs_wf s -> named s h nm -> handle_valid s h = true.
Proof. intros Hw (Hh & Hu & _). apply handle_valid_iff; [apply Hw|done]. Qed.

Lemma file_write s h nm offset buf len :
  ufs_wf s -> named s h nm -> bytes_ok buf -> 0 <= offset -> 0 < len < 2147483648 ->
  offset + len <= 4294966784 -> next_free_lba s + 2 * ((offset + len + 511) / 512) <= UFS_DATA_END_LBA ->
  exists s', ufs_write_at s h offset buf len = Some (s', len) /\ ufs_wf s' /\ named s' h nm /\
    content_overlaid s s' h offset buf len /\
    same_identity (dirent_at (directory s) h) (dirent_at (directory s') h) /\ others_kept nm s s'.
Proof.
  intros Hw Hn Hb Ho Hl Hol Hroom. pose proof (named_valid s h nm Hw Hn) as Hv. destruct Hn as (Hh & Hu & Hnm).
  destruct (ufs_write_at_spec s h offset buf len Hw Hb) as (r & E & Hout); [lia|lia|split; lia|].
  destruct Hout as [[_ [Hbad|[Hbad|Hbad]]]|(s' & -> & _ & Hw' & Hc & Hid & Hs & Hcs)]; [congruence|lia|lia|].
  exists s'. split_and!; try done.
  - destruct Hid as (Eu & En & _). split; [done|]. by rewrite Eu, En.
  - intros j Hj Huj Hnj. assert (j <> h) by (intros ->; congruence). split; [by apply Hs|by apply Hcs].
Qed.

(** Writing over bytes that are there needs no room. *)
Lemma file_overwrite s h nm offset buf len :
  ufs_wf s -> named s h nm -> bytes_ok buf -> 0 <= offset -> 0 < len ->
  offset + len <= zlen (ufs_content s h) ->
  exists s', ufs_write_at s h offset buf len = Some (s', len) /\ ufs_wf s' /\ named s' h nm /\
    content_overlaid s s' h offset buf len /\
    same_identity (dirent_at (directory s) h) (dirent_at (directory s') h) /\ others_kept nm s s'.
Proof.
  intros Hw Hn Hb Ho Hl Hin. pose proof (named_valid s h nm Hw Hn) as Hv. destruct Hn as (Hh & Hu & Hnm).
  rewrite (content_length s h (mw_dir _ (uw_mem _ Hw)) Hh) in Hin.
  destruct (cap_bound s h (uw_mem _ Hw) Hh Hu) as (_ & H2 & H3 & _).
  assert (Hfit : ensure_capacity s h (offset + len) = Some (s, 0)).
  { unfold ensure_capacity, SECTOR_SIZE.
    change (read_u32 (directory s) (entry_off h + UFS_OFF_CAPACITY)) with (de_cap (dirent_at (directory s) h)).
    rewrite (u32_small (_ * 512)) by lia. by replace (_ <=? _) with true by lia. }
  destruct (write_in_capacity s h offset buf len Hw Hb Hh Hu ltac:(lia) ltac:(lia) ltac:(lia))
    as (d' & E & s' & E' & Hw' & Hent & Hoth & Hby).
  destruct (write_contents s s' h offset buf len Hw Hw' Hh Hu ltac:(lia) ltac:(lia) ltac:(lia) Hent Hoth Hby)
    as [Hc Hcs].
  exists s'. split; [|split; [done|]].
  - unfold ufs_write_at. rewrite Hv. cbn [negb]. rewrite (u32_small (offset + len)) by lia.
    replace (_ <? _) with false by lia. replace (len >? 0) with true by lia. rewrite Hfit.
    cbn [mbind option_bind negb Z.eqb].
    change (read_u32 (directory s) (entry_off h + UFS_OFF_START_LBA)) with (de_start (dirent_at (directory s) h)).
    rewrite E. cbn [mbind option_bind negb Z.eqb]. rewrite (s32_small len) by lia. rewrite <- E'.
    change (directory (with_disk s d')) with (directory s).
    change (read_u32 (directory s) (entry_off h + UFS_OFF_SIZE)) with (de_size (dirent_at (directory s) h)).
    by destruct (_ >? _).
  - split; [unfold named; by rewrite Hent|]. split; [done|]. split; [rewrite Hent; unfold same_identity; by rewrite Hu|].
    intros j Hj Huj Hnj. assert (j <> h) by (intros ->; congruence). split; [by apply Hoth|by apply Hcs].
Qed.

Lemma content_named s s' h : directory s' = directory s -> named s h = named s' h.
Proof. unfold named. by intros ->. Qed.

Lemma read_next s h offset out len r :
  ufs_read_at s h offset out len = Some r -> next_free_lba r.1.1 = next_free_lba s.
Proof.
  unfold ufs_read_at. destruct (negb (handle_valid s h)); [by intros [= <-]|].
  destruct (offset >=? _); [by intros [= <-]|].
  destruct (read_sectors _ _ _ _ _) as [[[d o] e]|]; cbn [mbind option_bind]; [|done].
  destruct (negb _); by intros [= <-].
Qed.

(** Reading the first bytes of a file into a cleared buffer with room for them. *)
Lemma file_read s h nm n len :
  ufs_wf s -> named s h nm -> 0 < len <= zlen (ufs_content s h) -> len <= Z.of_nat n ->
  exists s', ufs_read_at s h 0 (replicate n 0) len =
      Some (s', take (Z.to_nat len) (ufs_content s h) ++ replicate (n - Z.to_nat len) 0, len) /\
    ufs_wf s' /\ directory s' = directory s /\ next_free_lba s' = next_free_lba s /\
    (forall j, ufs_content s' j = ufs_content s j).
Proof.
  intros Hw Hn Hl Hln. pose proof (named_valid s h nm Hw Hn) as Hv.
  assert (Hz : zlen (replicate n 0) = Z.of_nat n) by (unfold zlen; by rewrite length_replicate).
  destruct (ufs_read_at_spec s h 0 (replicate n 0) len Hw ltac:(lia) ltac:(lia)) as (r & E & Hout).
  pose proof (read_next _ _ _ _ _ _ E) as Hnext. rewrite E.
  destruct Hout as [[Hbad _]|[(_ & Hbad & _)|(_ & _ & s' & out & -> & Hzo & Hi & Hw' & Hd & Hc)]];
    [congruence|lia|].
  rewrite Z.sub_0_r, Z.min_l in * by lia. exists s'. split_and!; try done.
  do 3 f_equal. unfold zlen in *. apply array_ext.
  { unfold zlen. rewrite length_app, length_take, !length_replicate. rewrite length_replicate in Hzo. lia. }
  intros i Hib. unfold zlen in Hib. rewrite Hi by lia. rewrite !list_lookup_total_alt. case_decide.
  - rewrite lookup_app_l by (rewrite length_take; lia). rewrite lookup_take. by rewrite decide_True by lia.
  - rewrite lookup_app_r by (rewrite length_take; lia). rewrite length_take, Nat.min_l by lia.
    rewrite !lookup_replicate_2 by lia. done.
Qed.

(** A write that covers the whole file is the file. *)
Lemma overlaid_all s s' h buf :
  content_overlaid s s' h 0 buf (zlen buf) -> zlen (ufs_content s h) <= zlen buf -> ufs_content s' h = buf.
Proof.
  intros [Hz Hk] Hl. pose proof (zlen_nonneg buf). apply array_ext; [lia|]. intros i Hi.
  destruct (Hk i Hi) as [E _]. rewrite E by lia. f_equal. f_equal. lia.
Qed.

Lemma wf_static s : ufs_wf s -> static_ok s.
Proof.
  intros [Hw Hd _]. split; [apply Hw|]. split; [apply Hw|]. split; [apply (mw_dir _ Hw)|].
  split; [apply (mw_dir _ Hw)|done].
Qed.

Lemma remount_self s : ufs_wf s -> remount_outcome s (ufs_init s).
Proof. intros Hw. by apply ufs_init_mount; [|apply wf_static|]. Qed.
End files.

(** * What is on the screen *)

Section tests.
Context {K D H : Type} `{SchedEnv K} `{ProcEnv K} `{SysEnv K} `{ShellEnv K} {B : BlockDev D} {L : BlockDevLaws D} `{Allocator H}.
Context (pipes_addr kbd_channel : Z).
Implicit Types (o : os_t K D H) (u : ufs D) (a b : list Z).

Lemma cstr_app a b : cstr (cstr a ++ b) = cstr a ++ cstr b.
Proof.
  induction a as [|x a IH]; [done|]. simpl. destruct (x =? 0) eqn:E; [done|]. simpl. by rewrite E, IH.
Qed.

Lemma say_say o a b : say (say o a) b = say o (cstr a ++ b).
Proof.
  unfold say, on_screen. cbn [os_io with_io with_video io_video]. unfold print_str.
  by rewrite cstr_app, foldl_app.
Qed.

Lemma say_ufs o u a : say (with_os_ufs o u) a = with_os_ufs (say o a) u.
Proof. done. Qed.

Lemma ufs_ufs o u u' : with_os_ufs (with_os_ufs o u) u' = with_os_ufs o u'.
Proof. done. Qed.

Lemma ufs_own o : with_os_ufs o (os_ufs o) = o.
Proof. by destruct o as [[]]. Qed.

Definition verdict (label : list Z) (ok : bool) : list Z :=
  nl "  " ++ cstr label ++ if ok then text ": PASS" else text ": FAIL".

Lemma report_say o label ok : report o label ok = say o (verdict label ok).
Proof. unfold report, verdict. by rewrite !say_say. Qed.

(** ** [ufstest] *)

Definition ufstest_banner : list Z := nl "exercising the persistent (disk-backed) filesystem:".

Definition ufstest_transcript : list Z :=
  ufstest_banner ++ verdict (text "create") true ++ verdict (text "write") true ++
  verdict (text "read-back") true ++ verdict (text "survives remount (found)") true ++
  verdict (text "survives remount (content)") true ++
  nl "done - 'selftest' left on disk; reboot and run 'ufstest' again, or check it from the user shell with 'cat selftest', to confirm it survives a real power cycle too.".

Lemma test_bytes : bytes_ok TEST_NAME /\ bytes_ok TEST_CONTENT.
Proof. split; apply small_bytes_ok; vm_compute; reflexivity. Qed.

Lemma read_back_same o h :
  ufs_wf (os_ufs o) -> named (os_ufs o) h TEST_NAME -> ufs_content (os_ufs o) h = TEST_CONTENT ->
  exists u', read_back o h = Some (with_os_ufs o u', true) /\ ufs_wf u' /\
    directory u' = directory (os_ufs o) /\ forall j, ufs_content u' j = ufs_content (os_ufs o) j.
Proof.
  intros Hw Hn Hc. destruct (file_read (os_ufs o) h TEST_NAME 64 content_len Hw Hn) as (u' & E & Hw' & Hd & _ & Hcs).
  { by rewrite Hc. }
  { by vm_compute. }
  exists u'. unfold read_back. rewrite E, Hc. cbn [mbind option_bind].
  split; [by vm_compute|done].
Qed.

Lemma mounted_ufs o u : os_ufs (with_os_ufs o u) = u.
Proof. done. Qed.

Lemma said_ufs o a : os_ufs (say o a) = os_ufs o.
Proof. done. Qed.

(** What [ufstest] leaves: its file, and those of other names as they were. *)
Definition tested o u : Prop :=
  ufs_wf u /\ others_kept TEST_NAME (os_ufs o) u /\
  exists h, ufs_find u TEST_NAME = h /\ handle_valid u h = true /\ ufs_owner u h = 0 /\
    ufs_perm u h = 0 /\ ufs_content u h = TEST_CONTENT.

(** Without an entry for the file the test stops at its first step. *)
Lemma ufstest_full o :
  ufs_wf (os_ufs o) -> ~ entry_for TEST_NAME (os_ufs o) ->
  cmd_ufstest o = Some (say o (ufstest_banner ++ verdict (text "create") false)).
Proof.
  intros Hw Hent. destruct test_bytes as [Hbn _]. unfold cmd_ufstest. cbv zeta.
  assert (E1 : ufs_delete (os_ufs o) TEST_NAME = (os_ufs o, -1)).
  { destruct (ufs_delete_spec (os_ufs o) TEST_NAME Hw) as [[_ E]|(s' & h & _ & Hn & _)]; [done|].
    destruct Hent. left. by exists h. }
  change (os_ufs (say o _)) with (os_ufs o). rewrite E1. cbn [fst].
  destruct (ufs_create_spec (os_ufs o) TEST_NAME 0 Hw Hbn) as [[_ E2]|(_ & s' & slot & _ & Hs & Hu & _)].
  - rewrite mounted_ufs, E2. cbn [Z.geb Z.ltb Z.compare]. rewrite report_say, ufs_ufs. change (os_ufs o) with (os_ufs (say o ufstest_banner)).
    rewrite ufs_own, say_say. done.
  - destruct Hent. right. by exists slot.
Qed.

Lemma ufstest_works o :
  ufs_wf (os_ufs o) -> entry_for TEST_NAME (os_ufs o) -> next_free_lba (os_ufs o) + 2 <= UFS_DATA_END_LBA ->
  exists u, cmd_ufstest o = Some (with_os_ufs (say o ufstest_transcript) u) /\ tested o u.
Proof.
  intros Hw Hent Hroom. destruct test_bytes as [Hbn Hbc].
  destruct (file_delete (os_ufs o) TEST_NAME Hw) as (Hw1 & Hx1 & Hk1 & Hno & Hfree).
  set (u1 := (ufs_delete (os_ufs o) TEST_NAME).1) in *.
  destruct (file_create u1 TEST_NAME 0 Hw1 Hbn ltac:(by vm_compute) Hno (Hfree Hent))
    as (u2 & h & E2 & Hw2 & Hn2 & Hc2 & He2 & Hx2 & Hk2).
  destruct (file_write u2 h TEST_NAME 0 TEST_CONTENT content_len Hw2 Hn2 Hbc) as (u3 & E3 & Hw3 & Hn3 & Hov & Hid & Hk3);
    change ((0 + content_len + 511) / 512) with 1; change content_len with 36; rewrite ?Hx2, ?Hx1; try lia.
  assert (Hc3 : ufs_content u3 h = TEST_CONTENT) by (eapply overlaid_all; [exact Hov|by rewrite Hc2]).
  assert (Hh : 0 <= h < 64) by apply Hn3.
  unfold cmd_ufstest. cbv zeta. rewrite mounted_ufs, said_ufs. fold u1. rewrite E2. cbv beta iota.
  replace (h >=? 0) with true by lia. replace (h <? 0) with false by lia.
  rewrite report_say, ufs_ufs, !say_ufs, mounted_ufs, say_say, E3.
  cbn [mbind option_bind]. rewrite report_say, ufs_ufs, say_ufs, say_say, Z.eqb_refl.
  match goal with |- context [read_back ?x h] => destruct (read_back_same x h Hw3 Hn3 Hc3) as (u4 & -> & Hw4 & Hd4 & Hc4) end.
  cbn [mbind option_bind]. rewrite !report_say, ufs_ufs, !say_ufs, say_say, !mounted_ufs, ufs_ufs in *.
  destruct (remount_self u4 Hw4) as (Hw5 & Hd5 & _ & _ & Hc5).
  assert (Hn5 : named (ufs_init u4) h TEST_NAME) by (unfold named; by rewrite Hd5, Hd4).
  rewrite (ufs_find_named _ h TEST_NAME (uw_mem _ Hw5) Hn5). replace (h >=? 0) with true by lia.
  match goal with |- context [read_back ?x h] =>
    destruct (read_back_same x h Hw5 Hn5 ltac:(by rewrite ?mounted_ufs, Hc5, Hc4)) as (u6 & -> & Hw6 & Hd6 & Hc6) end.
  cbn [mbind option_bind]. rewrite !report_say.
  exists u6. repeat first [rewrite ufs_ufs|rewrite say_ufs]. rewrite !say_say. split.
  { apply (f_equal (fun t => Some (with_os_ufs (say o t) u6))). vm_compute. reflexivity. }
  assert (Ed : directory u6 = directory u3) by (exact (eq_trans Hd6 (eq_trans Hd5 Hd4))).
  assert (Ec : forall j, ufs_content u6 j = ufs_content u3 j) by (intros j; exact (eq_trans (Hc6 j) (eq_trans (Hc5 j) (Hc4 j)))).
  assert (Hn6 : named u6 h TEST_NAME) by (unfold named; by rewrite Ed).
  pose proof (named_valid u6 h TEST_NAME Hw6 Hn6) as Hv.
  split; [done|]. split.
  { apply (others_kept_trans _ _ u1); [done|]. apply (others_kept_trans _ _ u2); [done|].
    apply (others_kept_trans _ _ u3); [done|]. by apply others_kept_same. }
  exists h. destruct Hid as (_ & _ & Eo & Ep). rewrite He2 in Eo, Ep.
  split; [by apply ufs_find_named; [apply Hw6|]|]. split; [done|].
  rewrite ufs_owner_valid, ufs_perm_valid, Ed, Eo, Ep, Ec by done. done.
Qed.

(** the shell's file system test: on a mounted file system with room for its file
    every step prints PASS, the file holds the test content, owned by uid 0 and closed
    to others, and no file of another name has moved; with no entry left it prints
    that the creation failed and changes nothing but the screen. *)
Theorem ufstest_passes o :
  ufs_wf (os_ufs o) ->
  (~ entry_for TEST_NAME (os_ufs o) ->
     cmd_ufstest o = Some (say o (ufstest_banner ++ verdict (text "create") false))) /\
  (entry_for TEST_NAME (os_ufs o) -> next_free_lba (os_ufs o) + 2 <= UFS_DATA_END_LBA ->
     exists u, cmd_ufstest o = Some (with_os_ufs (say o ufstest_transcript) u) /\ tested o u).
Proof. intros Hw. split; [by apply ufstest_full|by apply ufstest_works]. Qed.

(** ** [setuid] *)

(** [setuid] builds its message in 32 bytes: every uid of three digits or more
    runs over the end of the buffer, and the message ends in the decimal uid below
    that. *)
Theorem setuid_message_fits uid :
  0 <= uid < 4294967296 ->
  setuid_message uid =
    if uid <? 100 then
      Some (nl "setuid: pid now runs as uid " ++
            if uid <? 10 then [c_0 + uid] else [c_0 + uid / 10; c_0 + uid mod 10])
    else None.
Proof.
  intros Hu. unfold setuid_message. destruct (uid =? 0) eqn:E0; bool_prop; [by subst|].
  assert (exists n, 12%nat = S (S (S n))) as [n ->] by by exists 9%nat. cbn [digits_of]. replace (uid >? 0) with true by div_lia.
  destruct (uid <? 100) eqn:E1; bool_prop; cbn [rev app].
  - replace (uid / 10 / 10 >? 0) with false by div_lia. destruct (uid <? 10) eqn:E2; bool_prop.
    + replace (uid / 10 >? 0) with false by div_lia. by replace (uid mod 10) with uid by div_lia.
    + replace (uid / 10 >? 0) with true by div_lia. by replace (uid / 10 mod 10) with (uid / 10) by div_lia.
  - replace (uid / 10 >? 0) with true by div_lia. replace (uid / 10 / 10 >? 0) with true by div_lia. cbn [rev].
    match goal with |- (if ?c then _ else _) = _ => replace c with true; [done|] end.
    generalize (rev (digits_of n (uid / 10 / 10 / 10))). intros ds. unfold zlen. rewrite !length_app.
    change (Datatypes.length (nl _)) with 29%nat. cbn [Datatypes.length]. symmetry. apply Z.gtb_lt. lia.
Qed.

(** ** [permtest] *)

(** The scheduler [s] with uid [uid] and descriptors [l] for the running thread. *)
Definition as_user (s : sched K) (uid : Z) (l : list fd_slot_t) : sched K :=
  on_thread s (current_thread s) (fun t => set_uid uid (set_fds l t)).

Section user.
Context (s : sched K) (Hs : sched_wf s).
Implicit Types (uid fd : Z) (l : list fd_slot_t).

Abbreviation me := (current_thread s).

Lemma me_bounds : 0 <= me < thread_capacity s /\ zlen (threads s) = thread_capacity s.
Proof. split; [apply Hs|apply Hs]. Qed.

Lemma on_me_twice f g : on_thread (on_thread s me f) me g = on_thread s me (fun t => g (f t)).
Proof.
  pose proof me_bounds. unfold on_thread, with_threads. cbn [threads threads_ptr thread_capacity current_thread env].
  f_equal. rewrite aget_aset_eq by lia. by rewrite list_insert_insert_eq.
Qed.

Lemma as_user_self : as_user s (thread_uid (threads s).[me]) (fds (threads s).[me]) = s.
Proof.
  pose proof me_bounds. unfold as_user, on_thread, with_threads.
  replace ((threads s).[me <- _]) with (threads s); [by destruct s|].
  symmetry. apply list_insert_id. rewrite aget_lookup by lia. by destruct ((threads s).[me]).
Qed.

Lemma as_user_thread uid l : (threads (as_user s uid l)).[me] = set_uid uid (set_fds l (threads s).[me]).
Proof. pose proof me_bounds. unfold as_user. rewrite on_thread_get by lia. by rewrite decide_True. Qed.

Lemma as_user_get_uid uid l : sched_get_uid (as_user s uid l) me = uid.
Proof.
  pose proof me_bounds. unfold sched_get_uid. rewrite as_user_thread.
  change (thread_capacity (as_user s uid l)) with (thread_capacity s).
  by replace ((me <? 0) || (me >=? thread_capacity s)) with false by lia.
Qed.

Lemma as_user_set_uid uid l uid' : sched_set_uid (as_user s uid l) me uid' = (as_user s uid' l, 0).
Proof.
  pose proof me_bounds. unfold sched_set_uid. change (thread_capacity (as_user s uid l)) with (thread_capacity s).
  replace ((me <? 0) || (me >=? thread_capacity s)) with false by lia.
  unfold as_user. by rewrite on_me_twice.
Qed.

Lemma as_user_fd uid l fd :
  0 <= fd < 8 -> fd_kind l.[fd] <> FD_KIND_UNUSED -> sched_fd_get (as_user s uid l) fd = Some l.[fd].
Proof.
  intros Hfd Hk. pose proof me_bounds. unfold sched_fd_get, THREAD_MAX_FDS.
  change (current_thread (as_user s uid l)) with me. rewrite as_user_thread. cbn [fds set_uid set_fds].
  replace ((me =? -1) || (fd <? 0) || (fd >=? 8)) with false by lia. by replace (_ =? _) with false by lia.
Qed.

Lemma as_user_open uid l kind handle i :
  find_first 2 8 (fun i => fd_kind l.[i] =? FD_KIND_UNUSED) = Some i ->
  sched_fd_open (as_user s uid l) kind handle = (as_user s uid (l.[i <- mk_fd kind handle 0]), i).
Proof.
  intros Hf. pose proof me_bounds. unfold sched_fd_open, THREAD_MAX_FDS.
  change (current_thread (as_user s uid l)) with me. rewrite as_user_thread. cbn [fds set_uid set_fds]. rewrite Hf.
  replace (me =? -1) with false by lia. f_equal. unfold as_user. by rewrite on_me_twice.
Qed.

Lemma as_user_close uid l fd :
  0 <= fd < 8 -> sched_fd_close (as_user s uid l) fd = (as_user s uid (l.[fd <- reset_fd_slot]), 0).
Proof.
  intros Hfd. pose proof me_bounds. unfold sched_fd_close, THREAD_MAX_FDS.
  change (current_thread (as_user s uid l)) with me.
  replace ((me =? -1) || (fd <? 0) || (fd >=? 8)) with false by lia. f_equal. unfold as_user. by rewrite on_me_twice.
Qed.
End user.

(** The file of [permtest]: in slot [h], of uid 1000, with permissions [perm] and
    contents [c]. *)
Record secret u (h perm : Z) (c : list Z) : Prop := {
  se_wf : ufs_wf u;
  se_named : named u h PERM_TEST_NAME;
  se_owner : ufs_owner u h = 1000;
  se_perm : ufs_perm u h = perm;
  se_content : ufs_content u h = c;
}.

Lemma secret_valid u h perm c : secret u h perm c -> handle_valid u h = true.
Proof. intros [Hw Hn _ _ _]. by apply (named_valid u h PERM_TEST_NAME). Qed.

Lemma secret_find u h perm c : secret u h perm c -> ufs_find u PERM_TEST_NAME = h.
Proof. intros [Hw Hn _ _ _]. by apply ufs_find_named; [apply Hw|]. Qed.

Lemma secret_handle u h perm c : secret u h perm c -> 0 <= h < 64.
Proof. intros [_ Hn _ _ _]. apply Hn. Qed.

Lemma secret_kept u u' h perm c c' :
  secret u h perm c -> ufs_wf u' -> named u' h PERM_TEST_NAME ->
  same_identity (dirent_at (directory u) h) (dirent_at (directory u') h) -> ufs_content u' h = c' ->
  secret u' h perm c'.
Proof.
  intros Hse Hw' Hn' (_ & _ & Eo & Ep) Hc. pose proof (named_valid _ _ _ Hw' Hn') as Hv'.
  pose proof (secret_valid _ _ _ _ Hse) as Hv. destruct Hse as [Hw Hn Ho Hp _]. split; try done.
  - by rewrite ufs_owner_valid, Eo, <- ufs_owner_valid.
  - by rewrite ufs_perm_valid, Ep, <- ufs_perm_valid.
Qed.

Lemma secret_chmod u h perm c p :
  secret u h perm c -> 0 <= p < 256 ->
  exists u', ufs_chmod u h p = (u', 0) /\ secret u' h p c /\ others_kept PERM_TEST_NAME u u'.
Proof.
  intros Hse Hp. pose proof (secret_valid _ _ _ _ Hse) as Hv. destruct Hse as [Hw Hn Ho Hpm Hc].
  destruct (ufs_chmod_spec u h p Hw Hp) as [[Hbad _]|(u' & E & _ & Hw' & Hp' & He & _ & Hs & Hcs)]; [congruence|].
  cbv zeta in He. pose proof Hn as (Hh & Hu & Hnm).
  assert (Hn' : named u' h PERM_TEST_NAME) by (unfold named; by rewrite He).
  exists u'. split; [done|]. split.
  - split; try done; [|by rewrite Hcs]. rewrite ufs_owner_valid by by apply (named_valid _ _ _ Hw' Hn').
    rewrite He. cbn [de_owner]. by rewrite <- ufs_owner_valid by by apply (named_valid _ _ _ Hw Hn).
  - intros j Hj Huj Hnj. assert (j <> h) by (intros ->; congruence). split; [by apply Hs|by apply Hcs].
Qed.

(** The first five bytes of a file that are written over. *)
Lemma secret_write u h perm c buf :
  secret u h perm c -> bytes_ok buf -> zlen buf = 5 ->
  (c = [] /\ next_free_lba u + 2 <= UFS_DATA_END_LBA) \/ zlen c = 5 ->
  exists u', ufs_write_at u h 0 buf 5 = Some (u', 5) /\ secret u' h perm buf /\ others_kept PERM_TEST_NAME u u'.
Proof.
  intros Hse Hb Hl Hc. pose proof Hse as [Hw Hn _ _ Hcu]. rewrite <- Hl.
  assert (Hwrite : exists u', ufs_write_at u h 0 buf (zlen buf) = Some (u', zlen buf) /\ ufs_wf u' /\ named u' h PERM_TEST_NAME /\
    content_overlaid u u' h 0 buf (zlen buf) /\
    same_identity (dirent_at (directory u) h) (dirent_at (directory u') h) /\ others_kept PERM_TEST_NAME u u').
  { destruct Hc as [[-> Hroom]|Hc].
    - apply file_write; try done; try lia. rewrite Hl. change ((0 + 5 + 511) / 512) with 1. lia.
    - apply file_overwrite; try done; try lia. rewrite Hcu. lia. }
  destruct Hwrite as (u' & E & Hw' & Hn' & Hov & Hid & Hk). exists u'. split; [done|]. split; [|done].
  apply (secret_kept u u' h perm c); try done. apply (overlaid_all u u'); [done|].
  rewrite Hcu. destruct Hc as [[-> _]|Hc]; [apply zlen_nonneg|lia].
Qed.

Lemma secret_read u h perm c n :
  secret u h perm c -> zlen c = 5 -> (5 <= n)%nat ->
  exists u', ufs_read_at u h 0 (replicate n 0) 5 = Some (u', c ++ replicate (n - 5) 0, 5) /\
    secret u' h perm c /\ others_kept PERM_TEST_NAME u u'.
Proof.
  intros Hse Hl Hln. pose proof Hse as [Hw Hn _ _ Hcu].
  destruct (file_read u h PERM_TEST_NAME n 5 Hw Hn) as (u' & E & Hw' & Hd & _ & Hc); [rewrite Hcu; lia|lia|].
  exists u'. rewrite E, Hcu. rewrite take_ge by (unfold zlen in Hl; lia). split; [done|]. split; [|by apply others_kept_same].
  apply (secret_kept u u' h perm c); try done; [unfold named; by rewrite Hd|by rewrite Hd|by rewrite Hc].
Qed.

(** [o] with the uid and descriptors of its running thread, its screen and its disk
    replaced. *)
Definition standing o (uid : Z) (l : list fd_slot_t) (v : video) u : os_t K D H :=
  with_io o (mk_io (as_user (os_sched o) uid l) (io_pipes (os_io o)) (io_keyboard (os_io o)) v u (io_memfs (os_io o))).

Definition allows u (h uid mask : Z) : bool :=
  (uid =? ufs_owner u h) || negb (Z.land (ufs_perm u h) mask =? 0).

Section access.
Context (o : os_t K D H) (Hs : sched_wf (os_sched o)).
Implicit Types (uid fd h i : Z) (l : list fd_slot_t) (v : video).

Abbreviation me := (current_thread (os_sched o)).

Lemma standing_self :
  standing o (thread_uid (threads (os_sched o)).[me]) (fds (threads (os_sched o)).[me]) (io_video (os_io o)) (os_ufs o) = o.
Proof. unfold standing. rewrite as_user_self by done. by destruct o as [[]]. Qed.

Lemma standing_say uid l v u a : say (standing o uid l v u) a = standing o uid l (print_str v a) u.
Proof. done. Qed.

Lemma standing_report uid l v u label ok :
  perm_report (standing o uid l v u) label ok = standing o uid l (print_str v (verdict (text label) ok)) u.
Proof. unfold perm_report. by rewrite report_say. Qed.

Lemma standing_set_uid uid l v u uid' :
  shell_set_uid (standing o uid l v u) me uid' = standing o uid' l v u.
Proof.
  unfold shell_set_uid. change (os_sched (standing o uid l v u)) with (as_user (os_sched o) uid l).
  by rewrite as_user_set_uid.
Qed.

Lemma standing_allowed uid l v u h mask : allowed (os_io (standing o uid l v u)) h mask = allows u h uid mask.
Proof.
  unfold allowed, allows, current_uid, sched_current_tid.
  change (io_sched (os_io (standing o uid l v u))) with (as_user (os_sched o) uid l).
  by rewrite (as_user_get_uid _ Hs).
Qed.

Lemma standing_open_slot uid l v u h i :
  find_first 2 8 (fun i => fd_kind l.[i] =? FD_KIND_UNUSED) = Some i ->
  open_slot (os_io (standing o uid l v u)) FD_KIND_UFS h =
    (os_io (standing o uid (l.[i <- mk_fd FD_KIND_UFS h 0]) v u), i).
Proof.
  intros Hf. unfold open_slot. change (io_sched (os_io (standing o uid l v u))) with (as_user (os_sched o) uid l).
  by rewrite (as_user_open _ Hs _ _ _ _ i Hf).
Qed.

Lemma open_create uid l v u u' h i :
  find_first 2 8 (fun i => fd_kind l.[i] =? FD_KIND_UNUSED) = Some i ->
  ufs_find u PERM_TEST_NAME = -1 -> ufs_create u PERM_TEST_NAME uid = (u', h) -> 0 <= h ->
  shell_open (standing o uid l v u) PERM_TEST_NAME (Z.lor FD_CREATE FD_PERSIST) =
    Some (standing o uid (l.[i <- mk_fd FD_KIND_UFS h 0]) v u', i).
Proof.
  intros Hf Hno Hc Hh. unfold shell_open, fd_open. cbn [mbind option_bind Z.lor FD_CREATE FD_PERSIST Pos.lor Z.land Pos.land Z.eqb negb].
  unfold fd_open_persist. change (io_ufs (os_io (standing o uid l v u))) with u. rewrite Hno.
  cbn [Z.ltb Z.compare]. replace (current_uid _) with uid
    by (symmetry; apply (as_user_get_uid _ Hs)). rewrite Hc.
  replace (h <? 0) with false by lia. cbn [Z.eqb].
  change (with_ufs (os_io (standing o uid l v u)) u') with (os_io (standing o uid l v u')).
  by rewrite (standing_open_slot _ _ _ _ _ i Hf).
Qed.

Lemma open_existing uid l v u h i :
  find_first 2 8 (fun i => fd_kind l.[i] =? FD_KIND_UNUSED) = Some i ->
  ufs_find u PERM_TEST_NAME = h -> 0 <= h ->
  shell_open (standing o uid l v u) PERM_TEST_NAME FD_PERSIST =
    Some (if allows u h uid UFS_PERM_OTHER_READ
          then (standing o uid (l.[i <- mk_fd FD_KIND_UFS h 0]) v u, i) else (standing o uid l v u, -1)).
Proof.
  intros Hf Hfind Hh. unfold shell_open, fd_open. cbn [mbind option_bind FD_PERSIST Z.land Pos.land Z.eqb negb].
  unfold fd_open_persist. change (io_ufs (os_io (standing o uid l v u))) with u. rewrite Hfind, standing_allowed.
  replace (h <? 0) with false by lia. destruct (allows _ _ _ _); cbn [negb]; [|done].
  cbn [FD_PERSIST FD_TRUNC Z.land Pos.land Z.eqb negb]. by rewrite (standing_open_slot _ _ _ _ _ i Hf).
Qed.

Section descriptor.
Context (fd h : Z) (Hfd : 0 <= fd < 8) (l : list fd_slot_t) (Hl : zlen l = 8).

Abbreviation at_cursor c := (l.[fd <- mk_fd FD_KIND_UFS h c]).

Lemma at_cursor_slot c : (at_cursor c).[fd] = mk_fd FD_KIND_UFS h c.
Proof. apply aget_aset_eq. lia. Qed.

Lemma standing_opened uid v u c : opened (os_io (standing o uid (at_cursor c) v u)) fd h c.
Proof.
  unfold opened. change (io_sched (os_io (standing o uid (at_cursor c) v u))) with (as_user (os_sched o) uid (at_cursor c)).
  rewrite (as_user_fd _ Hs) by (done || by rewrite at_cursor_slot). by rewrite at_cursor_slot.
Qed.

Lemma standing_advance uid v u c n :
  advance_cursor (os_io (standing o uid (at_cursor c) v u)) fd n =
    os_io (standing o uid (at_cursor (c +32 n)) v u).
Proof.
  unfold advance_cursor. change (io_sched (os_io (standing o uid (at_cursor c) v u))) with (as_user (os_sched o) uid (at_cursor c)).
  change (current_thread (as_user (os_sched o) uid (at_cursor c))) with (current_thread (os_sched o)).
  unfold standing, as_user. rewrite (on_me_twice _ Hs). cbn [fds set_uid set_fds]. rewrite at_cursor_slot.
   rewrite list_insert_insert_eq. done.
Qed.

Lemma file_write_through uid v u u' buf n :
  allows u h uid UFS_PERM_OTHER_WRITE = true -> 0 < n < 4294967296 ->
  ufs_write_at u h 0 buf n = Some (u', n) ->
  shell_write pipes_addr (standing o uid (at_cursor 0) v u) fd buf n =
    Some (standing o uid (at_cursor (0 +32 n)) v u', n).
Proof.
  intros Ha Hn E. unfold shell_write. rewrite (fd_write_ufs _ _ _ h 0);
    [|apply standing_opened|by rewrite standing_allowed].
  rewrite u32_small by lia. change (io_ufs (os_io (standing o uid (at_cursor 0) v u))) with u. rewrite E.
  cbn [mbind option_bind]. unfold after_file. replace (n >? 0) with true by lia.
  change (with_ufs (os_io (standing o uid (at_cursor 0) v u)) u') with (os_io (standing o uid (at_cursor 0) v u')).
  by rewrite standing_advance.
Qed.

Lemma file_write_denied uid v u c buf n :
  allows u h uid UFS_PERM_OTHER_WRITE = false ->
  shell_write pipes_addr (standing o uid (at_cursor c) v u) fd buf n =
    Some (standing o uid (at_cursor c) v u, -1).
Proof.
  intros Ha. unfold shell_write, fd_write. rewrite (standing_opened uid v u c : sched_fd_get _ _ = _).
  cbn [fd_kind fd_handle fd_cursor FD_KIND_UFS FD_KIND_CONSOLE FD_KIND_PIPE_WRITE Z.eqb Pos.eqb].
  by rewrite standing_allowed, Ha.
Qed.

Lemma file_read_through uid v u u' buf buf' n :
  allows u h uid UFS_PERM_OTHER_READ = true -> 0 < n < 4294967296 ->
  ufs_read_at u h 0 buf n = Some (u', buf', n) ->
  shell_read pipes_addr kbd_channel (standing o uid (at_cursor 0) v u) fd buf n =
    Some (standing o uid (at_cursor (0 +32 n)) v u', buf', n).
Proof.
  intros Ha Hn E. unfold shell_read. rewrite (fd_read_ufs _ _ _ _ h 0);
    [|apply standing_opened|by rewrite standing_allowed].
  rewrite u32_small by lia. change (io_ufs (os_io (standing o uid (at_cursor 0) v u))) with u. rewrite E.
  cbn [mbind option_bind]. unfold after_file. replace (n >? 0) with true by lia.
  change (with_ufs (os_io (standing o uid (at_cursor 0) v u)) u') with (os_io (standing o uid (at_cursor 0) v u')).
  by rewrite standing_advance.
Qed.

Lemma standing_close uid v u c :
  shell_close pipes_addr (standing o uid (at_cursor c) v u) fd =
    standing o uid (l.[fd <- reset_fd_slot]) v u.
Proof.
  unfold shell_close, fd_close. rewrite (standing_opened uid v u c : sched_fd_get _ _ = _).
  unfold release_slot. cbn [fd_kind FD_KIND_UFS FD_KIND_PIPE_READ FD_KIND_PIPE_WRITE Z.eqb Pos.eqb].
  change (io_sched (os_io (standing o uid (at_cursor c) v u))) with (as_user (os_sched o) uid (at_cursor c)).
  rewrite (as_user_close _ Hs) by done.  by rewrite list_insert_insert_eq.
Qed.
End descriptor.
(** The operations of the test on the file [h] of the test. *)
Section on_secret.
Context (h : Z) (Hh : 0 <= h).

Lemma standing_tid uid l v u : sched_current_tid (os_sched (standing o uid l v u)) = me.
Proof. done. Qed.

Lemma standing_disk uid l v u : os_ufs (standing o uid l v u) = u.
Proof. done. Qed.

Lemma standing_with_disk uid l v u u' : with_os_ufs (standing o uid l v u) u' = standing o uid l v u'.
Proof. done. Qed.

Lemma standing_get_uid uid l v u : sched_get_uid (os_sched (standing o uid l v u)) me = uid.
Proof. apply (as_user_get_uid _ Hs). Qed.

Lemma standing_chmod uid l v u u' p :
  ufs_find u PERM_TEST_NAME = h -> ufs_chmod u h p = (u', 0) ->
  shell_chmod (standing o uid l v u) p = (standing o uid l v u', true).
Proof.
  intros Ef Ec. unfold shell_chmod. rewrite standing_disk, Ef. replace (h >=? 0) with true by lia.
  by rewrite Ec, standing_with_disk.
Qed.
End on_secret.
End access.

Definition permtest_transcript : list Z :=
  nl "exercising UFS owner/permission checks:" ++
  verdict (text "owner (1000) can create") true ++ verdict (text "owner (1000) can write") true ++
  verdict (text "non-owner (2000) denied open-for-read by default") true ++
  verdict (text "chmod to allow others to read") true ++
  verdict (text "non-owner (2000) can now read") true ++
  verdict (text "non-owner (2000) read gets real content") true ++
  verdict (text "non-owner (2000) still denied write (read-only)") true ++
  verdict (text "chmod to allow others to write too") true ++
  verdict (text "non-owner (2000) can now write (public)") true ++
  verdict (text "non-owner (3000) denied delete regardless of perm bits") true ++
  nl "done - 'permtest_secret' left on disk, owned by uid 1000, world-writable.".

Lemma print_print v a b : print_str (print_str v a) b = print_str v (cstr a ++ b).
Proof. unfold print_str. by rewrite cstr_app, foldl_app. Qed.

Lemma secret_create s owner :
  ufs_wf s -> entry_for PERM_TEST_NAME s -> owner = 1000 ->
  exists s1 s2 h, (ufs_delete s PERM_TEST_NAME).1 = s1 /\ ufs_find s1 PERM_TEST_NAME = -1 /\
    ufs_create s1 PERM_TEST_NAME owner = (s2, h) /\ secret s2 h 0 [] /\
    others_kept PERM_TEST_NAME s s2 /\ next_free_lba s2 = next_free_lba s.
Proof.
  intros Hw Hent ->. destruct (file_delete s PERM_TEST_NAME Hw) as (Hw1 & Hx1 & Hk1 & Hno & Hfree).
  set (s1 := (ufs_delete s PERM_TEST_NAME).1) in *.
  assert (Hb : bytes_ok PERM_TEST_NAME) by (apply small_bytes_ok; vm_compute; reflexivity).
  destruct (file_create s1 PERM_TEST_NAME 1000 Hw1 Hb ltac:(by vm_compute) Hno (Hfree Hent))
    as (s2 & h & E2 & Hw2 & Hn2 & Hc2 & He2 & Hx2 & Hk2).
  exists s1, s2, h. pose proof (named_valid _ _ _ Hw2 Hn2) as Hv. split; [done|]. split.
  { destruct (ufs_find_cases s1 PERM_TEST_NAME (uw_mem _ Hw1)) as [(j & Hj & _)|[_ ?]]; [by destruct (Hno j)|done]. }
  split; [done|]. split; [|split; [by apply (others_kept_trans _ _ s1)|congruence]].
  split; try done; [by rewrite ufs_owner_valid, He2|by rewrite ufs_perm_valid, He2].
Qed.

Lemma secret_allows u h perm c uid mask :
  secret u h perm c -> allows u h uid mask = (uid =? 1000) || negb (Z.land perm mask =? 0).
Proof. intros [_ _ Ho Hp _]. unfold allows. by rewrite Ho, Hp. Qed.

(** A closed descriptor is again the lowest free one. *)
Lemma reset_is_lowest (l : list fd_slot_t) i :
  zlen l = 8 -> find_first 2 8 (fun i => fd_kind l.[i] =? FD_KIND_UNUSED) = Some i ->
  find_first 2 8 (fun j => fd_kind (l.[i <- reset_fd_slot]).[j] =? FD_KIND_UNUSED) = Some i.
Proof.
  intros Hl Hf. apply find_first_Some in Hf as (Hi & Hk & Hno). apply find_first_Some. split; [done|].
  split; [by rewrite aget_aset_eq by lia|]. intros k Hk'. rewrite aget_aset_ne by lia. by apply Hno.
Qed.

(** The calls of the test on its own file. *)
Section calls.
Context (o : os_t K D H) (Hs : sched_wf (os_sched o)).
Context (i h : Z) (l : list fd_slot_t) (Hl : zlen l = 8).
Context (Hlow : find_first 2 8 (fun j => fd_kind l.[j] =? FD_KIND_UNUSED) = Some i).
Implicit Types (uid perm : Z) (v : video) (c buf : list Z).

Lemma low_bounds : 2 <= i < 8.
Proof. apply find_first_Some in Hlow. tauto. Qed.

Lemma open_secret uid perm v u c r :
  secret u h perm c -> (uid =? 1000) || negb (Z.land perm UFS_PERM_OTHER_READ =? 0) = r ->
  shell_open (standing o uid l v u) PERM_TEST_NAME FD_PERSIST =
    Some (if r then (standing o uid (l.[i <- mk_fd FD_KIND_UFS h 0]) v u, i) else (standing o uid l v u, -1)).
Proof.
  intros S <-. pose proof (secret_handle _ _ _ _ S).
  rewrite (open_existing o Hs _ _ _ _ h i Hlow (secret_find _ _ _ _ S)) by lia.
  by rewrite (secret_allows _ _ _ _ _ _ S).
Qed.

Lemma write_secret uid perm v u u' c buf :
  secret u h perm c -> (uid =? 1000) || negb (Z.land perm UFS_PERM_OTHER_WRITE =? 0) = true ->
  ufs_write_at u h 0 buf 5 = Some (u', 5) ->
  shell_write pipes_addr (standing o uid (l.[i <- mk_fd FD_KIND_UFS h 0]) v u) i buf 5 =
    Some (standing o uid (l.[i <- mk_fd FD_KIND_UFS h 5]) v u', 5).
Proof.
  intros S Ha E. pose proof low_bounds.
  rewrite (file_write_through o Hs i h ltac:(lia) l Hl _ _ _ u'); [done| |lia|done].
  by rewrite (secret_allows _ _ _ _ _ _ S).
Qed.

Lemma write_secret_denied uid perm v u c n buf :
  secret u h perm c -> (uid =? 1000) || negb (Z.land perm UFS_PERM_OTHER_WRITE =? 0) = false ->
  shell_write pipes_addr (standing o uid (l.[i <- mk_fd FD_KIND_UFS h n]) v u) i buf 5 =
    Some (standing o uid (l.[i <- mk_fd FD_KIND_UFS h n]) v u, -1).
Proof.
  intros S Ha. pose proof low_bounds. apply (file_write_denied o Hs i h ltac:(lia) l Hl).
  by rewrite (secret_allows _ _ _ _ _ _ S).
Qed.

Lemma read_secret uid perm v u u' c buf :
  secret u h perm c -> (uid =? 1000) || negb (Z.land perm UFS_PERM_OTHER_READ =? 0) = true ->
  ufs_read_at u h 0 (replicate 8 0) 5 = Some (u', buf, 5) ->
  shell_read pipes_addr kbd_channel (standing o uid (l.[i <- mk_fd FD_KIND_UFS h 0]) v u) i (replicate 8 0) 5 =
    Some (standing o uid (l.[i <- mk_fd FD_KIND_UFS h 5]) v u', buf, 5).
Proof.
  intros S Ha E. pose proof low_bounds.
  rewrite (file_read_through o Hs i h ltac:(lia) l Hl _ _ _ u' _ buf); [done| |lia|done].
  by rewrite (secret_allows _ _ _ _ _ _ S).
Qed.

Lemma chmod_secret uid perm v u u' c p :
  secret u h perm c -> ufs_chmod u h p = (u', 0) ->
  shell_chmod (standing o uid l v u) p = (standing o uid l v u', true).
Proof.
  intros S E. pose proof (secret_handle _ _ _ _ S).
  apply (standing_chmod o h ltac:(lia)); [by apply (secret_find _ _ _ _ S)|done].
Qed.

Lemma close_secret uid v u (c : Z) :
  l.[i <- reset_fd_slot] = l ->
  shell_close pipes_addr (standing o uid (l.[i <- mk_fd FD_KIND_UFS h c]) v u) i = standing o uid l v u.
Proof. intros El. pose proof low_bounds. rewrite standing_close by (done || lia). by rewrite El. Qed.
End calls.

Ltac settle Hs :=
  cbn [mbind option_bind];
  repeat first [rewrite standing_say | rewrite standing_report | rewrite standing_disk | rewrite standing_tid
    | rewrite standing_with_disk | rewrite standing_set_uid by exact Hs | rewrite standing_get_uid by exact Hs].

(** C34: the shell's permission test: on a sound scheduler and file system with two
    free sectors and a free directory entry (or the entry of an earlier run) for its
    file, and a free descriptor of the caller, every check prints PASS: the owner creates
    and writes the file, and another uid opens, reads and writes it exactly as the
    permission bits of the moment say.  The last check, on deleting, only compares the
    owner with a third uid, as the code does: it attempts no delete.  At the end the file
    holds what the last write stored, with the permissions set last, the descriptor is
    closed, the thread has its uid back, and no other file and nothing else but the
    screen has changed. *)
Theorem permtest_passes o i :
  sched_wf (os_sched o) -> ufs_wf (os_ufs o) -> entry_for PERM_TEST_NAME (os_ufs o) ->
  next_free_lba (os_ufs o) + 2 <= UFS_DATA_END_LBA ->
  let t := (threads (os_sched o)).[current_thread (os_sched o)] in
  find_first 2 8 (fun i => fd_kind (fds t).[i] =? FD_KIND_UNUSED) = Some i ->
  exists u h, cmd_permtest pipes_addr kbd_channel o =
      Some (standing o (thread_uid t) ((fds t).[i <- reset_fd_slot])
              (print_str (io_video (os_io o)) permtest_transcript) u) /\
    secret u h 3 (text "yep!!") /\ others_kept PERM_TEST_NAME (os_ufs o) u.
Proof.
  intros Hs Hw Hent Hroom t Hf. set (l := (fds t).[i <- reset_fd_slot]).
  destruct (secret_create (os_ufs o) 1000 Hw Hent eq_refl) as (u1 & u2 & h & E1 & Ef1 & E2 & S2 & K2 & Hx2).
  pose proof (secret_handle _ _ _ _ S2) as Hh.
  destruct (secret_write u2 h 0 [] (text "hello") S2) as (u3 & E3 & S3 & K3);
    [apply small_bytes_ok; vm_compute; reflexivity|done|left; rewrite Hx2; done|].
  destruct (secret_chmod u3 h 0 (text "hello") 1 S3) as (u4 & E4 & S4 & K4); [lia|].
  destruct (secret_read u4 h 1 (text "hello") 8 S4) as (u5 & E5 & S5 & K5); [done|lia|].
  destruct (secret_chmod u5 h 1 (text "hello") 3 S5) as (u6 & E6 & S6 & K6); [lia|].
  destruct (secret_write u6 h 3 (text "hello") (text "yep!!") S6) as (u7 & E7 & S7 & K7);
    [apply small_bytes_ok; vm_compute; reflexivity|done|by right|].
  exists u7, h. split; [|split; [done|]].
  2:{ repeat (eapply others_kept_trans; [eassumption|]). done. }
  assert (H8 : zlen (fds t) = 8) by apply (sw_thread _ Hs _ (sw_cur _ Hs)).
  pose proof (reset_is_lowest _ _ H8 Hf) as Hfl. fold l in Hfl. pose proof (low_bounds i _ Hfl) as Hi.
  assert (Hz : zlen l = 8) by by (unfold l; rewrite aset_length).
  assert (Efd : forall x, (fds t).[i <- x] = l.[i <- x]) by (intros; unfold l; by rewrite list_insert_insert_eq).
  assert (El : l.[i <- reset_fd_slot] = l) by by rewrite <- Efd.
  assert (Ei : (i >=? 0) = true) by lia. assert (Eh : (h <? 0) = false) by lia.
  rewrite <- (standing_self o Hs) at 1. fold t. unfold cmd_permtest. cbv zeta.
  settle Hs. rewrite E1, (open_create o Hs _ _ _ _ u2 h i), Efd by (done || lia).
  settle Hs. rewrite Ei, (write_secret o Hs i h l Hz Hfl 1000 0 _ _ _ _ _ S2 eq_refl E3).
  settle Hs. rewrite (close_secret o Hs i h l Hz Hfl _ _ _ _ El).
  settle Hs. rewrite (open_secret o Hs i h l Hfl 2000 0 _ _ _ false S3 eq_refl).
  settle Hs. rewrite (chmod_secret o h l _ _ _ _ _ _ _ S3 E4).
  settle Hs. rewrite (open_secret o Hs i h l Hfl 2000 1 _ _ _ true S4 eq_refl).
  settle Hs. rewrite Ei, (read_secret o Hs i h l Hz Hfl 2000 1 _ _ _ _ _ S4 eq_refl E5).
  settle Hs. rewrite (write_secret_denied o Hs i h l Hz Hfl 2000 1 _ _ _ _ _ S5 eq_refl).
  settle Hs. rewrite (close_secret o Hs i h l Hz Hfl _ _ _ _ El).
  settle Hs. rewrite (chmod_secret o h l _ _ _ _ _ _ _ S5 E6).
  settle Hs. rewrite (open_secret o Hs i h l Hfl 2000 3 _ _ _ true S6 eq_refl).
  settle Hs. rewrite Ei, (write_secret o Hs i h l Hz Hfl 2000 3 _ _ _ _ _ S6 eq_refl E7).
  settle Hs. rewrite (close_secret o Hs i h l Hz Hfl _ _ _ _ El).
  settle Hs. rewrite (secret_find _ _ _ _ S7), (se_owner _ _ _ _ S7), Eh.
  settle Hs. rewrite !print_print.
  apply (f_equal (fun a => Some (standing o (thread_uid t) l (print_str (io_video (os_io o)) a) u7))).
  vm_compute. reflexivity.
Qed.
End tests.

(** * A concrete kernel *)

#[export] Instance demo_shell_env : ShellEnv mem := {
  env_alloc_frame := fun k => (k, 0);
  env_e820 := E820.mk_e820_buffer 0 [];
}.

(** The system of [demo_os] with the shell's thread, of uid 0, and its disk. *)
Lemma demo_os_sound :
  sched_wf (os_sched demo_os) /\ ufs_wf (os_ufs demo_os) /\
  (forall nm, nm = TEST_NAME \/ nm = PERM_TEST_NAME -> entry_for nm (os_ufs demo_os)) /\
  next_free_lba (os_ufs demo_os) + 2 <= UFS_DATA_END_LBA.
Proof.
  split_and!.
  - split; [done|done|done| |]; intros i Hi; cbn in Hi; assert (i = 0) as -> by lia; [by split|done].
  - apply demo_created_wf.
  - intros nm _. right. exists 1. split; [lia|]. apply (proj1 (proj2 demo_created_entry)). lia.
  - change (os_ufs demo_os) with demo_created. rewrite (proj2 (proj2 demo_created_entry)). by vm_compute.
Qed.

Lemma ufstest_passes_witness :
  ufs_wf (os_ufs demo_os) /\ entry_for TEST_NAME (os_ufs demo_os) /\
  exists u, cmd_ufstest demo_os = Some (with_os_ufs (say demo_os ufstest_transcript) u) /\ tested demo_os u.
Proof.
  destruct demo_os_sound as (_ & Hw & He & Hn). split; [exact Hw|]. split; [apply He; auto|].
  exact (proj2 (ufstest_passes demo_os Hw) (He TEST_NAME (or_introl eq_refl)) Hn).
Defined.

Lemma setuid_message_fits_witness :
  setuid_message 1000 = None /\ setuid_message 42 = Some (text "
setuid: pid now runs as uid 42").
Proof.
  split.
  - exact (setuid_message_fits 1000 ltac:(lia)).
  - exact (setuid_message_fits 42 ltac:(lia)).
Defined.

Lemma permtest_passes_witness :
  sched_wf (os_sched demo_os) /\
  exists u h, cmd_permtest 0 0 demo_os =
      Some (standing demo_os 1000 ((fds (demo_io_thread 1000)).[3 <- reset_fd_slot])
              (print_str (io_video (os_io demo_os)) permtest_transcript) u) /\
    secret u h 3 (text "yep!!") /\ others_kept PERM_TEST_NAME (os_ufs demo_os) u.
Proof.
  destruct demo_os_sound as (Hs & Hw & He & Hn). split; [exact Hs|].
  exact (permtest_passes 0 0 demo_os 3 Hs Hw (He PERM_TEST_NAME (or_intror eq_refl)) Hn ltac:(vm_compute; reflexivity)).
Defined.
