(* ===== verification/ShellLine.v ===== *)
(** The shell's line editor: what was typed is the line the dispatcher gets, whatever
    older lines have left in the buffer. *)
From S2P Require Import Prelude Mem CString RingBuffer Pmm Alloc Heap Memfs Blk Fs Ufs UfsSpec Users Thread Pipe Video Keyboard Fd Process ProcessSpec Syscall SyscallSpec Shell ShellSpec.
From Stdlib Require Import String.

Open Scope Z_scope.
Open Scope list_scope.

Section line.
Context {K D H : Type} `{SchedEnv K} `{ProcEnv K} `{SysEnv K} `{ShellEnv K} {B : BlockDev D} {L : BlockDevLaws D} `{Allocator H}.
Context (pipes_addr kbd_channel elf_trampoline raw_trampoline : Z).
Context (demo_thread demo_thread_a demo_thread_b elf_demo elf_demo_size : Z).
Implicit Types (o : os_t K D H) (a b line keys : list Z) (sh : kshell).

(** ** Only the C string of the line matters *)

Lemma peek_cstr a : peek a = peek (cstr a).
Proof. destruct a as [|c a]; [done|]. simpl. destruct (c =? 0) eqn:E; [|done]. bool_prop. by subst. Qed.

Lemma skip_spaces_cstr a : cstr (skip_spaces a) = skip_spaces (cstr a).
Proof.
  induction a as [|c a IH]; [done|]. simpl. destruct (c =? c_space) eqn:E.
  - bool_prop. subst. cbn. exact IH.
  - simpl. destruct (c =? 0) eqn:E0; [done|]. simpl. by rewrite E.
Qed.

Lemma read_digits_cstr wrap a n :
  (read_digits wrap (cstr a) n).1 = (read_digits wrap a n).1 /\
  (read_digits wrap (cstr a) n).2 = cstr (read_digits wrap a n).2.
Proof.
  revert n. induction a as [|c a IH]; intros n; [done|]. simpl. destruct (c =? 0) eqn:E0.
  - bool_prop. subst. done.
  - simpl. destruct (is_digit c); [apply IH|]. simpl. by rewrite E0.
Qed.

Lemma str_eq_and_ext a a' b : cstr a = cstr a' -> str_eq_and a b = str_eq_and a' b.
Proof. intros E. apply eq_true_iff_eq. by rewrite !str_eq_and_cstr, E. Qed.

Lemma str_eq_ext a b b' : cstr b = cstr b' -> str_eq a b = str_eq a b'.
Proof. intros E. apply eq_true_iff_eq. by rewrite !str_eq_cstr, E. Qed.

Lemma str_starts_with_ext a a' b : cstr a = cstr a' -> str_starts_with a b = str_starts_with a' b.
Proof. intros E. apply eq_true_iff_eq. by rewrite !str_starts_with_cstr, E. Qed.

(** Behind a prefix it starts with, the string goes on. *)
Lemma drop_prefix a b : Forall (fun c => c <> 0) b -> str_starts_with a b = true ->
  cstr (drop (Datatypes.length b) a) = drop (Datatypes.length b) (cstr a).
Proof.
  intros Hb. revert a. induction Hb as [|x b Hx _ IH]; intros a Ha; [by rewrite !drop_0|].
  simpl in Ha. replace (x =? 0) with false in Ha by lia. destruct a as [|c a]; [done|].
  destruct (c =? x) eqn:E; [|done]. bool_prop. subst. simpl. replace (x =? 0) with false by lia.
  cbn [drop]. by apply IH.
Qed.

Lemma find_ext {A} (f g : A -> bool) l : (forall x, f x = g x) -> find f l = find g l.
Proof. intros E. induction l as [|x l IH]; [done|]. simpl. by rewrite E, IH. Qed.

Lemma say_cstr o a : say o a = say o (cstr a).
Proof. unfold say, print_str. by rewrite cstr_idem. Qed.

Lemma for_range_ext {S R : Type} lo hi (f g : Z -> S -> S + R) x :
  (forall i y, f i y = g i y) -> for_range lo hi f x = for_range lo hi g x.
Proof.
  intros E. unfold for_range. generalize (Z.to_nat (hi - lo)) as n. intros n. revert lo x.
  induction n as [|n IH]; intros lo x; [done|]. simpl. rewrite E. by destruct (g lo x).
Qed.

Lemma fs_find_cstr (s : fs D) a : fs_find s a = fs_find s (cstr a).
Proof.
  unfold fs_find. erewrite for_range_ext; [done|]. intros i x. cbn beta.
  destruct (fs_entry s i); [|done]. by rewrite (str_eq_ext _ a (cstr a)) by by rewrite cstr_idem.
Qed.

Lemma cmd_run_cstr o a : cmd_run elf_trampoline o a = cmd_run elf_trampoline o (cstr a).
Proof.
  unfold cmd_run. rewrite (fs_find_cstr _ a). destruct (fs_find _ _) as [e|]; [|by rewrite (say_cstr _ a)].
  destruct (shell_malloc o (fs_size_bytes e)) as [[o1 buf]|]; cbn [mbind option_bind]; [|reflexivity].
  destruct (buf =? 0); [reflexivity|].
  destruct (read_to_memory _ _ _ _) as [[[k d] r]|]; cbn [mbind option_bind]; [|reflexivity].
  destruct (negb _); [reflexivity|]. rewrite (say_cstr _ a). reflexivity.
Qed.

Lemma cmd_setuid_cstr o a : cmd_setuid o a = cmd_setuid o (cstr a).
Proof.
  unfold cmd_setuid. rewrite (peek_cstr (skip_spaces a)), skip_spaces_cstr.
  destruct (read_digits_cstr s32 (skip_spaces a) 0) as [E1 E2]. rewrite skip_spaces_cstr in E1, E2.
  destruct (read_digits s32 (skip_spaces (cstr a)) 0) as [p r]. destruct (read_digits s32 (skip_spaces a) 0) as [p' r'].
  cbn [fst snd] in E1, E2. subst p' r. rewrite (peek_cstr (skip_spaces r')), skip_spaces_cstr.
  destruct (read_digits_cstr u32 (skip_spaces r') 0) as [E3 _]. by rewrite <- E3, skip_spaces_cstr.
Qed.

Lemma cmd_echo_cstr o a : cmd_echo o a = cmd_echo o (cstr a).
Proof. unfold cmd_echo. apply say_cstr. Qed.

Lemma prefix_handler_cstr o line prefix handler :
  In (prefix, handler) (prefix_commands (K:=K) (H:=H) elf_trampoline) -> str_starts_with line prefix = true ->
  handler o (drop (Z.to_nat (str_len prefix)) line) = handler o (drop (Z.to_nat (str_len prefix)) (cstr line)).
Proof.
  intros Hin Hp. assert (Hd : cstr (drop (Z.to_nat (str_len prefix)) line) = drop (Z.to_nat (str_len prefix)) (cstr line)).
  { assert (Hnz : Forall (fun c => c <> 0) prefix)
      by (destruct Hin as [[= <- _]|[[= <- _]|[[= <- _]|[]]]]; repeat (constructor; [done|]); constructor).
    rewrite str_len_cstr, (cstr_nonul prefix) by done. unfold zlen. rewrite Nat2Z.id. by apply drop_prefix. }
  rewrite <- Hd. destruct Hin as [[= _ <-]|[[= _ <-]|[[= _ <-]|[]]]].
  - apply cmd_run_cstr.
  - by rewrite cmd_echo_cstr.
  - by rewrite cmd_setuid_cstr.
Qed.

Abbreviation run_line := (run_command pipes_addr kbd_channel elf_trampoline raw_trampoline
  demo_thread demo_thread_a demo_thread_b elf_demo elf_demo_size).

Lemma run_command_cstr o line : run_line o line = run_line o (cstr line).
Proof.
  unfold run_command. rewrite <- peek_cstr. destruct (peek line =? 0); [done|].
  rewrite (find_ext (fun e => str_eq_and line e.1.1) (fun e => str_eq_and (cstr line) e.1.1))
    by (intros; apply str_eq_and_ext; by rewrite cstr_idem).
  destruct (find _ _) as [[[n hd] q]|]; [done|].
  rewrite (find_ext (fun e => str_starts_with line e.1) (fun e => str_starts_with (cstr line) e.1))
    by (intros; apply str_starts_with_ext; by rewrite cstr_idem).
  destruct (find _ _) as [[prefix hd]|] eqn:E; [|by rewrite (say_cstr _ line)].
  apply find_some in E as [Hin Hp]. cbn [fst] in Hp.
  rewrite (prefix_handler_cstr o line prefix hd Hin); [done|].
  rewrite <- Hp. apply str_starts_with_ext. by rewrite cstr_idem.
Qed.
(** ** Typing *)

Abbreviation key := (shell_key pipes_addr kbd_channel elf_trampoline raw_trampoline
  demo_thread demo_thread_a demo_thread_b elf_demo elf_demo_size).

(** The keys the shell takes one after the other; those typed while a command waits
    stay with the keyboard. *)
Fixpoint press o (sh : kshell) (keys : list Z) : option (os_t K D H * kshell * flow) :=
  match keys with
  | [] => Some (o, sh, AtPrompt)
  | c :: keys =>
      '(o, sh, fl) ← key o sh c;
      match fl with AtPrompt => press o sh keys | _ => Some (o, sh, fl) end
  end.

(** The line a key leaves, and what it shows. *)
Definition line_edit (line : list Z) (c : Z) : list Z :=
  if c =? c_bs then take (Datatypes.length line - 1) line
  else if zlen line <? 127 then line ++ [c] else line.

Definition key_echo (line : list Z) (c : Z) : list Z :=
  if c =? c_bs then (if zlen line >? 0 then [c_bs] else [])
  else if zlen line <? 127 then [c] else [].

Fixpoint echoed (line keys : list Z) : list Z :=
  match keys with [] => [] | c :: keys => key_echo line c ++ echoed (line_edit line c) keys end.

(** [sh] holds [line] in its buffer. *)
Definition holds_line (sh : kshell) (line : list Z) : Prop :=
  zlen (line_buffer sh) = 128 /\ line_length sh = zlen line /\ zlen line <= 127 /\
  take (Datatypes.length line) (line_buffer sh) = line.

Definition on_chars o (l : list Z) : os_t K D H := on_screen o (fun v => foldl putchar_at_cursor v l).

Lemma on_chars_app o a b : on_chars (on_chars o a) b = on_chars o (a ++ b).
Proof. unfold on_chars, on_screen. cbn [os_io with_io with_video io_video]. by rewrite foldl_app. Qed.

Lemma on_chars_nil o : on_chars o [] = o.
Proof. by destruct o as [[]]. Qed.

Lemma holds_push sh line c :
  holds_line sh line -> zlen line < 127 ->
  holds_line (mk_kshell ((line_buffer sh).[line_length sh <- c]) (line_length sh + 1)) (line ++ [c]).
Proof.
  intros (Hz & Hl & Hb & Ht) Hlt. unfold holds_line. cbn [line_buffer line_length]. rewrite aset_length.
  unfold zlen in *. rewrite length_app. cbn [Datatypes.length]. split_and!; try done; try lia.
  rewrite Hl, Nat2Z.id, Nat.add_1_r.
  erewrite take_S_r by (apply list_lookup_insert_eq; lia). by rewrite take_insert_ge, Ht by lia.
Qed.

Lemma holds_pop sh line :
  holds_line sh line -> 0 < zlen line ->
  holds_line (mk_kshell (line_buffer sh) (line_length sh - 1)) (take (Datatypes.length line - 1) line).
Proof.
  intros (Hz & Hl & Hb & Ht) Hlt. unfold holds_line. cbn [line_buffer line_length].
  unfold zlen in *. rewrite length_take. split_and!; try done; try lia.
  rewrite Nat.min_l by lia. rewrite <- Ht at 3. by rewrite take_take, Nat.min_l by lia.
Qed.

Lemma key_typed o sh line c :
  holds_line sh line -> c <> c_nl ->
  exists sh', key o sh c = Some (on_chars o (key_echo line c), sh', AtPrompt) /\ holds_line sh' (line_edit line c).
Proof.
  intros Hh Hc. assert (Hl : line_length sh = zlen line) by apply Hh. unfold shell_key, line_edit, key_echo.
  replace (c =? c_nl) with false by lia. rewrite Hl. destruct (c =? c_bs) eqn:Eb.
  - pose proof (zlen_nonneg line). destruct (zlen line >? 0) eqn:E0.
    + eexists. split; [reflexivity|]. rewrite <- Hl. apply holds_pop; [done|lia].
    + eexists. split; [by rewrite on_chars_nil|]. bool_prop. assert (line = []) as -> by by apply zlen_nil; lia. done.
  - change (LINE_BUFFER_SIZE - 1) with 127. destruct (zlen line <? 127) eqn:E0.
    + eexists. split; [reflexivity|]. rewrite <- Hl. apply holds_push; [done|lia].
    + eexists. split; [by rewrite on_chars_nil|]. done.
Qed.

Lemma press_typed o sh line keys more :
  holds_line sh line -> Forall (fun c => c <> c_nl) keys ->
  exists sh', press o sh (keys ++ more) = press (on_chars o (echoed line keys)) sh' more /\
    holds_line sh' (foldl line_edit line keys).
Proof.
  intros Hh Hk. revert o sh line Hh. induction Hk as [|c keys Hc _ IH]; intros o sh line Hh.
  - exists sh. cbn [echoed foldl app]. by rewrite on_chars_nil.
  - destruct (key_typed o sh line c Hh Hc) as (sh1 & E1 & Hh1). cbn [app press echoed foldl]. rewrite E1.
    cbn [mbind option_bind]. destruct (IH (on_chars o (key_echo line c)) sh1 _ Hh1) as (sh2 & E2 & Hh2).
    exists sh2. by rewrite E2, on_chars_app.
Qed.

Lemma line_edit_keeps (P : Z -> Prop) line keys :
  Forall P line -> Forall P keys -> Forall P (foldl line_edit line keys).
Proof.
  intros Hl Hk. revert line Hl. induction Hk as [|c keys Hc _ IH]; intros line Hl; [done|]. cbn [foldl]. apply IH.
  unfold line_edit. destruct (_ =? _); [by apply Forall_take|]. destruct (_ <? _); [|done].
  apply Forall_app. auto.
Qed.

(** C35: the shell's line editor: whatever keys are typed, backspaces and keys past the
    end of the buffer included, Enter runs exactly the line they leave, of at most 127
    characters, with the keys echoed, and nothing that older lines left in the buffer
    behind it matters. *)
Theorem shell_runs_typed_line o sh keys :
  zlen (line_buffer sh) = 128 -> line_length sh = 0 -> Forall (fun c => c <> c_nl /\ c <> 0) keys ->
  let line := foldl line_edit [] keys in
  exists buf, zlen buf = 128 /\ zlen line <= 127 /\
    press o sh (keys ++ [c_nl]) =
      ('(o', fl) ← run_line (on_chars o (echoed [] keys)) line; Some (o', mk_kshell buf 0, fl)).
Proof.
  intros Hz Hl Hk line. assert (Hh : holds_line sh []) by (split_and!; done).
  assert (Hnl : Forall (fun c => c <> c_nl) keys) by (refine (List.Forall_impl _ _ Hk); tauto).
  destruct (press_typed o sh [] keys [c_nl] Hh Hnl) as (sh' & E & Hz' & Hl' & Hb' & Ht'). fold line in Hl', Hb', Ht'.
  exists ((line_buffer sh').[line_length sh' <- 0]). split; [by rewrite aset_length|]. split; [done|].
  rewrite E. cbn [press]. unfold shell_key at 1. cbn [Z.eqb c_nl Pos.eqb].
  rewrite run_command_cstr. replace (cstr _) with line.
  - destruct (run_line _ line) as [[o' fl]|]; [|reflexivity]. cbn [mbind option_bind]. by destruct fl.
  - symmetry. assert (Hnz : Forall (fun c => c <> 0) line)
      by (apply line_edit_keeps; [done|refine (List.Forall_impl _ _ Hk); tauto]).
    rewrite Hl'. unfold zlen in Hb', Hz'. rewrite <- (take_drop (Datatypes.length line) (_.[_ <- 0])).
    rewrite (drop_S _ 0) by (unfold zlen; rewrite Nat2Z.id; apply list_lookup_insert_eq; lia).
    rewrite take_insert_ge by (unfold zlen; lia). rewrite Ht'. by apply cstr_app_nul.
Qed.
End line.

(** ** A concrete session *)

Definition demo_typed : list Z := text "hellx" ++ [8] ++ text "p".

Lemma shell_runs_typed_line_witness :
  foldl line_edit [] demo_typed = text "hellp" /\
  exists buf, zlen buf = 128 /\ zlen (foldl line_edit [] demo_typed) <= 127 /\
    press 0 0 0 0 0 0 0 0 0 demo_os (mk_kshell (replicate 128 7) 0) (demo_typed ++ [c_nl]) =
      ('(o', fl) ← run_command 0 0 0 0 0 0 0 0 0 (on_chars demo_os (echoed [] demo_typed)) (foldl line_edit [] demo_typed);
       Some (o', mk_kshell buf 0, fl)).
Proof.
  split; [reflexivity|].
  refine (shell_runs_typed_line 0 0 0 0 0 0 0 0 0 demo_os (mk_kshell (replicate 128 7) 0) demo_typed eq_refl eq_refl _).
  repeat (constructor; [split; discriminate|]). constructor.
Defined.
