(* ===== verification/Boot.v ===== *)
(** The start of the kernel, [kernel/core/main.c]: the order in which the components
    are set up, and what holds when the shell takes over. *)
From S2P Require Import Prelude Mem CString RingBuffer Pmm Alloc Heap Memfs Blk Ports Fs Ufs UfsSpec Users Thread Pipe Video Keyboard Fd Process ProcessSpec ProcessRun Syscall Trap SyscallSpec Shell ShellSpec ShellLine.
From Stdlib Require Import String.

Open Scope Z_scope.
Open Scope list_scope.

(** The memory components that the environment of the scheduler stands for. *)
Class BootEnv (K : Type) := {
  env_pmm_init : K -> K;
  env_vmm_init : K -> K;
  env_heap_init : K -> K;
}.

(** What the first function of the kernel works on: the static variables of the
    components, the ports, the tables of the processor, the interrupt handlers, and
    whether interrupts are on. *)
Record machine (K D H P : Type) := mk_machine {
  mc_os : os_t K D H;
  mc_ports : P;
  mc_gdt : option gdt_state;
  mc_idt : option (list idt_entry_t * Z);
  mc_handlers : list (option (@irq_handler_fn (os_t K D H) P));
  mc_sti : bool;
}.
Arguments mk_machine {K D H P}.
Arguments mc_os {K D H P}.
Arguments mc_ports {K D H P}.
Arguments mc_gdt {K D H P}.
Arguments mc_idt {K D H P}.
Arguments mc_handlers {K D H P}.
Arguments mc_sti {K D H P}.

Section boot.
Context {K D H P : Type} `{SchedEnv K} `{ProcEnv K} `{SysEnv K} `{ShellEnv K} `{BootEnv K} `{BlockDev D} `{Allocator H} `{PortIO P}.
(** The fuel of the polling of the serial line, the addresses of the tables and of the
    entry stubs, and the handlers of [timer.c] and [keyboard_driver.c]. *)
Context (fuel : positive) (gdt_addr tss_addr : Z) (isr irq : Z -> Z).
Context (timer_irq keyboard_irq : @irq_handler_fn (os_t K D H) P).
Implicit Types (m : machine K D H P) (o : os_t K D H).

Definition on_os m (f : os_t K D H -> os_t K D H) : machine K D H P :=
  mk_machine (f (mc_os m)) (mc_ports m) (mc_gdt m) (mc_idt m) (mc_handlers m) (mc_sti m).
Definition on_env m (f : K -> K) : machine K D H P := on_os m (fun o => with_os_env o (f (os_env o))).
Definition on_ports m (f : P -> P) : machine K D H P :=
  mk_machine (mc_os m) (f (mc_ports m)) (mc_gdt m) (mc_idt m) (mc_handlers m) (mc_sti m).
Definition with_port_state m (p : P) : machine K D H P := on_ports m (fun _ => p).
Definition with_gdt m (g : gdt_state) : machine K D H P :=
  mk_machine (mc_os m) (mc_ports m) (Some g) (mc_idt m) (mc_handlers m) (mc_sti m).
Definition with_idt m (t : list idt_entry_t * Z) : machine K D H P :=
  mk_machine (mc_os m) (mc_ports m) (mc_gdt m) (Some t) (mc_handlers m) (mc_sti m).
Definition with_handlers m (l : list (option irq_handler_fn)) : machine K D H P :=
  mk_machine (mc_os m) (mc_ports m) (mc_gdt m) (mc_idt m) l (mc_sti m).
Definition with_sti m : machine K D H P :=
  mk_machine (mc_os m) (mc_ports m) (mc_gdt m) (mc_idt m) (mc_handlers m) true.

(** [keyboard_driver_init]; the storage is the array the buffer stands on. *)
Definition keyboard_init m : machine K D H P :=
  let m := on_os m (fun o =>
    let k := io_keyboard (os_io o) in
    with_io o (with_keyboard (os_io o) (keyboard_driver_init k (storage (kbd_buffer k))))) in
  with_handlers m (irq_register_handler (mc_handlers m) 1 keyboard_irq).

(** The log. *)
Definition log m (str : list Z) : option (machine K D H P) :=
  p ← klog_write fuel (mc_ports m) str; Some (with_port_state m p).
Definition log_hex m (value : Z) : option (machine K D H P) :=
  p ← klog_write_hex fuel (mc_ports m) value; Some (with_port_state m p).

(** [kernel_main] up to the loop of the shell; the state of the shell's line is that
    of its static variables. *)
Definition kernel_main m : option (machine K D H P) :=
  let m := on_os m (fun o => on_screen o clearwin) in
  let m := on_ports m klog_init in
  m ← log m (text "MiniKernel: log online" ++ [c_nl]);
  let m := with_gdt m (gdt_init gdt_addr tss_addr) in
  m ← log m (text "MiniKernel: GDT + TSS installed (ring 3 available)" ++ [c_nl]);
  let m := with_idt m (idt_init isr irq) in
  m ← log m (text "MiniKernel: IDT loaded" ++ [c_nl]);
  m ← log m (text "MiniKernel: memory map read, ");
  m ← log_hex m (E820.e820_entry_count env_e820);
  m ← log m (text " regions, ");
  m ← log_hex m (E820.e820_total_usable_bytes env_e820);
  m ← log m (text " usable bytes" ++ [c_nl]);
  let m := on_env m env_pmm_init in
  m ← log m (text "MiniKernel: frame allocator ready, ");
  m ← log_hex m (env_total_frames (os_env (mc_os m)));
  m ← log m (text " total frames, ");
  m ← log_hex m (env_free_frames (os_env (mc_os m)));
  m ← log m (text " free" ++ [c_nl]);
  let m := on_env m env_vmm_init in
  m ← log m (text "MiniKernel: paging extended over usable memory" ++ [c_nl]);
  let m := on_env m env_heap_init in
  m ← log m (text "MiniKernel: kernel heap ready" ++ [c_nl]);
  s ← sched_init (os_sched (mc_os m));
  let m := on_os m (fun o => with_os_sched o s) in
  m ← log m (text "MiniKernel: scheduler ready" ++ [c_nl]);
  let m := on_ports m (fun p => pic_remap p 0x20 0x28) in
  '(l, p) ← timer_driver_init timer_irq (mc_handlers m) (mc_ports m) 100;
  let m := with_handlers (with_port_state m p) l in
  let m := keyboard_init m in
  let m := on_ports m (fun p => pic_unmask_irq p 0) in
  let m := on_ports m (fun p => pic_unmask_irq p 1) in
  let m := with_sti m in
  m ← log m (text "MiniKernel: PIC remapped, timer + keyboard IRQs live" ++ [c_nl]);
  let m := on_os m (fun o => with_fs o (fs_init (os_fs o))) in
  let m := on_os m (fun o => with_os_ufs o (ufs_init (os_ufs o))) in
  '(a, u) ← users_init (os_accounts (mc_os m)) (os_ufs (mc_os m));
  let m := on_os m (fun o => with_accounts (with_os_ufs o u) a) in
  let m := on_os m (fun o => on_screen o (fun v => putstr v (lit "Working kernel"))) in
  let m := on_os m (fun o => on_screen o (fun v => putstr_at v (lit "IDT loaded") 1)) in
  Some (on_os m shell_start).
End boot.

(** * The components *)

Section sched_init.
Context {K : Type} `{SchedEnv K}.

(** Every slot of a fresh table is initialised. *)
Lemma init_slots n (l : list thread_t) :
  0 <= n -> zlen l = n ->
  let l' := for_each 0 n (fun i l => l.[i <- init_thread_slot l.[i]]) l in
  zlen l' = n /\ forall i, 0 <= i < n -> l'.[i] = init_thread_slot l.[i].
Proof.
  intros Hn Hl l'. subst l'.
  assert (Hinv : zlen (for_each 0 n (fun i l => l.[i <- init_thread_slot l.[i]]) l) = n /\
    forall i, 0 <= i < n -> (for_each 0 n (fun i l => l.[i <- init_thread_slot l.[i]]) l).[i] =
      if decide (i < n) then init_thread_slot l.[i] else l.[i]).
  { apply (for_each_inv 0 n _ l (fun m x => zlen x = n /\ forall i, 0 <= i < n -> x.[i] =
      if decide (i < m) then init_thread_slot l.[i] else l.[i])); [lia| |].
    - split; [done|]. intros i Hi. by rewrite decide_False by lia.
    - intros m x Hm [Hz Hg]. split; [by rewrite aset_length|]. intros i Hi.
      rewrite aget_aset_cases by lia. rewrite !Hg by lia. repeat case_decide; subst; try lia; done. }
  destruct Hinv as [Hz Hg]. split; [done|]. intros i Hi. rewrite Hg by done. by rewrite decide_True by lia.
Qed.

Lemma reset_fds (l : list fd_slot_t) :
  zlen l = 8 -> for_each 0 THREAD_MAX_FDS (fun i l => l.[i <- reset_fd_slot]) l = replicate 8 reset_fd_slot.
Proof.
  intros Hl. destruct (fds_overwritten l 0 (fun _ => reset_fd_slot) Hl ltac:(lia)) as [Hz Hg].
  apply array_ext; [by rewrite Hz|]. intros i Hi. rewrite Hz in Hi. rewrite Hg, decide_True by lia.
  rewrite list_lookup_total_alt, lookup_replicate_2 by lia. done.
Qed.

(** The scheduler as [sched_init] leaves it: the boot thread, of uid 0, runs with the
    console as its input and output, and three slots are free. *)
Record sched_started (s : sched K) : Prop := {
  ss_wf : sched_wf s;
  ss_current : current_thread s = 0;
  ss_capacity : thread_capacity s = INITIAL_THREAD_CAPACITY;
  ss_state : state (threads s).[0] = THREAD_RUNNING;
  ss_uid : thread_uid (threads s).[0] = 0;
  ss_fds : fds (threads s).[0] = [console_fd; console_fd] ++ replicate 6 reset_fd_slot;
  ss_free : forall i, 1 <= i < INITIAL_THREAD_CAPACITY -> state (threads s).[i] = THREAD_UNUSED;
}.

Lemma sched_init_spec (k k' : K) p :
  env_malloc k (THREAD_SIZEOF * INITIAL_THREAD_CAPACITY) = Some (k', p) -> p <> 0 ->
  exists s, sched_init (mk_sched [] 0 0 (-1) k) = Some s /\ sched_started s.
Proof.
  intros Em Hp. unfold sched_init, grow_thread_table. cbn [thread_capacity env threads threads_ptr current_thread Z.eqb].
  change (THREAD_SIZEOF *64 INITIAL_THREAD_CAPACITY) with (THREAD_SIZEOF * INITIAL_THREAD_CAPACITY).
  rewrite Em. cbn [mbind option_bind]. replace (p =? 0) with false by lia.
  set (raw := raw_table k' p INITIAL_THREAD_CAPACITY).
  assert (Hraw : zlen raw = 4 /\ forall i, 0 <= i < 4 -> zlen (fds raw.[i]) = 8).
  { unfold raw, INITIAL_THREAD_CAPACITY. split; [by apply (raw_table_get k' p 4 0); lia|]. intros i Hi. by apply raw_table_get; lia. }
  clearbody raw. destruct Hraw as [Hz H8].
  change (for_each 0 0 _ raw) with raw.
  destruct (init_slots INITIAL_THREAD_CAPACITY raw ltac:(done) Hz) as [Hz' Hg].
  set (l := for_each 0 INITIAL_THREAD_CAPACITY _ raw) in *. clearbody l.
  cbn [Z.eqb negb mbind option_bind].
  destruct (alloc_guarded_stack _) as [k2 st]. destruct (default (0, 0) st) as [stack_low guard_page].
  match goal with |- context [on_thread ?s0 0 ?f] => set (boot := f); set (s1 := on_thread s0 0 f) end.
  eexists. split; [reflexivity|].
  assert (Hth : forall i, 0 <= i < 4 -> (threads s1).[i] = if decide (i = 0) then boot (init_thread_slot raw.[0]) else init_thread_slot raw.[i]).
  { intros i Hi. unfold s1. change INITIAL_THREAD_CAPACITY with 4 in *.
    rewrite on_thread_get by (cbn [threads with_env]; lia). cbn [threads with_env]. case_decide; subst; by rewrite Hg by lia. }
  assert (Hz1 : zlen (threads s1) = 4) by (unfold s1; by rewrite on_thread_length).
  assert (H0 : fds (boot (init_thread_slot raw.[0])) = [console_fd; console_fd] ++ replicate 6 reset_fd_slot).
  { unfold boot. cbn [fds init_thread_slot]. rewrite reset_fds by (apply H8; lia). reflexivity. }
  assert (Hok : forall i, 0 <= i < 4 -> thread_ok (threads s1).[i]).
  { intros i Hi. rewrite Hth by done. case_decide; [|apply init_thread_slot_ok, H8; lia].
    split; [by rewrite H0|]. unfold boot. cbn. by vm_compute. }
  unfold INITIAL_THREAD_CAPACITY in *.
  split; [split; try done| | | | | |]; try done.
  - intros i Hi Hst. change (state (threads s1).[i] = THREAD_RUNNING) in Hst. rewrite Hth in Hst by exact Hi. by case_decide.
  - change (state (threads s1).[0] = THREAD_RUNNING). by rewrite Hth by lia.
  - change (thread_uid (threads s1).[0] = 0). by rewrite Hth by lia.
  - change (fds (threads s1).[0] = [console_fd; console_fd] ++ replicate 6 reset_fd_slot). rewrite Hth by lia. by rewrite decide_True.
  - intros i Hi. change (state (threads s1).[i] = THREAD_UNUSED). unfold INITIAL_THREAD_CAPACITY in Hi. rewrite Hth by lia. by rewrite decide_False by lia.
Qed.
End sched_init.

(** ** The screen *)

Lemma clearwin_wf v : video_wf v -> video_wf (clearwin v).
Proof.
  intros [Hl Hr Hc]. split; try done. cbn [clearwin with_text text_area].
  apply (for_each_inv 0 VGA_EXTENT _ (text_area v) (fun _ t => zlen t = 2000)); [done|done|].
  intros i t _ Ht. by rewrite aset_length.
Qed.

Lemma putstr_wf v str row : video_wf v -> video_wf (putstr_at v str row).
Proof.
  intros [Hl Hr Hc]. split; try done. cbn [putstr_at putstr_from with_text text_area].
  apply (for_range_cases 0 (zlen str) _ (text_area v) (fun _ t => zlen t = 2000)
    (fun r => zlen (match r with inl t | inr t => t end) = 2000)); [apply zlen_nonneg|done| |done].
  intros i t _ Ht. destruct (_ =? 0); [done|]. destruct (_ >=? _); [done|]. by rewrite aset_length.
Qed.

Lemma print_str_wf v str : video_wf v -> video_wf (print_str v str).
Proof.
  intros Hv. unfold print_str. revert v Hv. induction (cstr str) as [|c l IH]; intros v Hv; [done|].
  cbn [foldl]. apply IH. pose proof (putchar_spec v c Hv) as Hp. cbv zeta in Hp.
  destruct (term_put _ c) as [[cells row] col]. apply Hp.
Qed.

(** ** The log *)

Create Rewrite HintDb boot.

(** Ports apart from those of the serial line leave it alone. *)
Class Board (P : Type) {IO : PortIO P} {U : Uart P} := {
  bd_out : forall d port v, ua_ok d -> port < COM1 \/ COM1 + 8 <= port ->
    ua_ok (Ports.outb d port v) /\ ua_sent (Ports.outb d port v) = ua_sent d;
  bd_in : forall d port, ua_ok d -> port < COM1 \/ COM1 + 8 <= port ->
    ua_ok (inb d port).2 /\ ua_sent (inb d port).2 = ua_sent d;
}.

Section board.
Context {P : Type} `{Board P}.
Implicit Types (d : P).

(** The line is sound and has sent what it had sent before. *)
Definition quiet_ports d d' : Prop := ua_ok d -> ua_ok d' /\ ua_sent d' = ua_sent d.

Lemma quiet_ports_trans d1 d2 d3 : quiet_ports d1 d2 -> quiet_ports d2 d3 -> quiet_ports d1 d3.
Proof. intros H12 H23 Hok. destruct (H12 Hok) as [Hok2 E2]. destruct (H23 Hok2) as [Hok3 E3]. by rewrite E3. Qed.

Lemma quiet_out d port v : port < COM1 \/ COM1 + 8 <= port -> quiet_ports d (Ports.outb d port v).
Proof. intros Hp Hok. by apply bd_out. Qed.

Lemma quiet_outbs d l : Forall (fun pv => pv.1 < COM1 \/ COM1 + 8 <= pv.1) l -> quiet_ports d (outbs d l).
Proof.
  intros Hl. revert d. induction Hl as [|pv l Hp _ IH]; intros d; [done|]. unfold outbs. cbn [foldl].
  eapply quiet_ports_trans; [by apply quiet_out|]. apply IH.
Qed.

Lemma pic_remap_quiet d a b : quiet_ports d (pic_remap d a b).
Proof.
  unfold pic_remap, io_wait. cbv zeta. eapply quiet_ports_trans; [|apply quiet_outbs; repeat constructor; by right || by left].
  repeat (eapply quiet_ports_trans; [|apply quiet_out; by left]). done.
Qed.

Lemma pit_init_quiet d hz d' : pit_init d hz = Some d' -> quiet_ports d d'.
Proof.
  unfold pit_init. destruct (hz =? 0); [done|]. intros [= <-].
  repeat (eapply quiet_ports_trans; [|apply quiet_out; by left]). done.
Qed.

Lemma pic_unmask_quiet d i : 0 <= i < 16 -> quiet_ports d (pic_unmask_irq d i).
Proof.
  intros Hi. unfold pic_unmask_irq, pic_line. destruct (i <? 8); intros Hok.
  - destruct (bd_in d PIC1_DATA Hok ltac:(by left)) as [Hok1 E1]. destruct (inb d PIC1_DATA) as [v d1]. cbn [snd] in *.
    rewrite <- E1. apply quiet_out; [by left|done].
  - destruct (bd_in d PIC2_DATA Hok ltac:(by left)) as [Hok1 E1]. destruct (inb d PIC2_DATA) as [v d1]. cbn [snd] in *.
    rewrite <- E1. apply quiet_out; [by left|done].
Qed.
End board.

Lemma text_bytes str : Forall (fun c => 0 <= c < 256) (text str).
Proof.
  unfold text. apply Forall_map, Forall_true. intros a. cbn beta.
  pose proof (Ascii.N_ascii_bounded a). lia.
Qed.

Lemma total_usable_nonneg e : 0 <= E820.e820_total_usable_bytes e.
Proof.
  unfold E820.e820_total_usable_bytes. destruct (decide (0 <= E820.count e)).
  - apply (for_each_inv 0 (E820.count e) _ 0 (fun _ t => 0 <= t)); [done|done|]. intros i t _ Ht.
    destruct (_ =? _); [|done]. apply u64_bounds.
  - unfold for_each. replace (Z.to_nat (E820.count e - 0)) with 0%nat by lia. done.
Qed.

(** * The start as a whole *)

Section started.
Context {K D H P : Type} `{SchedEnv K} `{ProcEnv K} `{SysEnv K} `{ShellEnv K} `{BootEnv K}.
Context {B : BlockDev D} {L : BlockDevLaws D} `{Allocator H} {IO : PortIO P} {U : Uart P} {BD : Board P}.
Context (gdt_addr tss_addr : Z) (isr irq : Z -> Z).
Context (timer_irq keyboard_irq : @irq_handler_fn (os_t K D H) P).
Implicit Types (m : machine K D H P) (o : os_t K D H).

Abbreviation main := (kernel_main ua_limit gdt_addr tss_addr isr irq timer_irq keyboard_irq).

(** What the kernel finds: its static variables as the compiler initialises them, a
    heap that can give the first thread table, disks that answer, and a serial line. *)
Record bootable m : Prop := {
  bm_threads : io_sched (os_io (mc_os m)) = mk_sched [] 0 0 (-1) (os_env (mc_os m));
  bm_heap : exists k p, env_malloc (env_heap_init (env_vmm_init (env_pmm_init (os_env (mc_os m)))))
              (THREAD_SIZEOF * INITIAL_THREAD_CAPACITY) = Some (k, p) /\ p <> 0;
  bm_frames : let k := env_pmm_init (os_env (mc_os m)) in 0 <= env_total_frames k /\ 0 <= env_free_frames k;
  bm_map : 0 <= E820.e820_entry_count env_e820;
  bm_procs : os_processes (mc_os m) = no_processes /\ os_next_pid (mc_os m) = 1;
  bm_screen : video_wf (io_video (os_io (mc_os m)));
  bm_keys : zlen (storage (kbd_buffer (io_keyboard (os_io (mc_os m))))) = KBD_BUFFER_SIZE;
  bm_fs : blk_ok (fs_disk (os_fs (mc_os m))) /\ 2050 <= blk_limit (fs_disk (os_fs (mc_os m))) /\
          fs_buffers (os_fs (mc_os m));
  bm_handlers : zlen (mc_handlers m) = MAX_IRQS;
  bm_line : ua_ok (klog_init (mc_ports m));
}.

Definition said (s : string) : list Z := crlf (cstr (text s)).
Definition line (s : string) : list Z := crlf (cstr (text s ++ [c_nl])).
Definition number (v : Z) : list Z := [48; 120] ++ hex v.

(** What the log says, for the frames that [k] counts. *)
Definition boot_log (k : K) : list Z :=
  line "MiniKernel: log online" ++ line "MiniKernel: GDT + TSS installed (ring 3 available)" ++
  line "MiniKernel: IDT loaded" ++ said "MiniKernel: memory map read, " ++
  number (E820.e820_entry_count env_e820) ++ said " regions, " ++
  number (E820.e820_total_usable_bytes env_e820) ++ line " usable bytes" ++
  said "MiniKernel: frame allocator ready, " ++ number (env_total_frames k) ++
  said " total frames, " ++ number (env_free_frames k) ++ line " free" ++
  line "MiniKernel: paging extended over usable memory" ++ line "MiniKernel: kernel heap ready" ++
  line "MiniKernel: scheduler ready" ++ line "MiniKernel: PIC remapped, timer + keyboard IRQs live".

(** The kernel at the prompt of its shell: every component in a sound state. *)
Record booted m m' : Prop := {
  bt_threads : sched_started (os_sched (mc_os m'));
  bt_kern : kern_wf (os_kern (mc_os m'));
  bt_screen : video_wf (io_video (os_io (mc_os m')));
  bt_keys : keyboard_wf (io_keyboard (os_io (mc_os m'))) /\ typed (io_keyboard (os_io (mc_os m'))) = [];
  bt_fs : (disk_magic (fs_disk (os_fs (mc_os m))) -> fs_mounted (os_fs (mc_os m'))) /\
          (~ disk_magic (fs_disk (os_fs (mc_os m))) -> fs_ready (os_fs (mc_os m')) = false);
  bt_tables : mc_gdt m' = Some (gdt_init gdt_addr tss_addr) /\ mc_idt m' = Some (idt_init isr irq);
  bt_handlers : (mc_handlers m').[0] = Some timer_irq /\ (mc_handlers m').[1] = Some keyboard_irq;
  bt_interrupts : mc_sti m' = true;
  bt_line : ua_ok (mc_ports m');
  bt_log : ua_sent (mc_ports m') = ua_sent (klog_init (mc_ports m)) ++ boot_log (env_pmm_init (os_env (mc_os m)));
}.

Lemma log_spec m str :
  ua_ok (mc_ports m) -> Forall (fun c => 0 <= c < 256) str ->
  exists p, log ua_limit m str = Some (with_port_state m p) /\ ua_ok p /\
    ua_sent p = ua_sent (mc_ports m) ++ crlf (cstr str).
Proof.
  intros Hok Hs. unfold log, klog_write. destruct (serial_write_sends (mc_ports m) str Hok Hs) as (p & -> & Hok' & Hs').
  by exists p.
Qed.

Lemma log_hex_spec m v :
  ua_ok (mc_ports m) -> 0 <= v ->
  exists p, log_hex ua_limit m v = Some (with_port_state m p) /\ ua_ok p /\
    ua_sent p = ua_sent (mc_ports m) ++ ([48; 120] ++ hex v).
Proof.
  intros Hok Hv. unfold log_hex, klog_write_hex. destruct (serial_write_hex_sends (mc_ports m) v Hok Hv) as (p & -> & Hok' & Hs').
  by exists p.
Qed.

Lemma line_bytes str : Forall (fun c => 0 <= c < 256) (text str ++ [c_nl]).
Proof. apply Forall_app. split; [apply text_bytes|]. by repeat constructor. Qed.

Ltac logged Hfr :=
  first
  [ match goal with |- context [log ua_limit ?m ?s] =>
      let E := fresh "Esent" in
      destruct (log_spec m s) as (? & -> & ? & E); [assumption|first [apply line_bytes|apply text_bytes]|];
      cbn [mc_ports with_port_state on_ports on_os on_env with_gdt with_idt] in E end
  | match goal with |- context [log_hex ua_limit ?m ?v] =>
      let E := fresh "Esent" in
      destruct (log_hex_spec m v) as (? & -> & ? & E); [assumption|first [apply total_usable_nonneg|apply Hfr|assumption]|];
      cbn [mc_ports with_port_state on_ports on_os on_env with_gdt with_idt] in E end ];
  cbn [mbind option_bind].

Lemma keyboard_started (k : keyboard) :
  zlen (storage (kbd_buffer k)) = KBD_BUFFER_SIZE ->
  let k' := keyboard_driver_init k (storage (kbd_buffer k)) in keyboard_wf k' /\ typed k' = [].
Proof. intros Hk. split; [|done]. split; [|done]. split; [done|]. split; [exact Hk|]. split; split; done. Qed.

Lemma sched_port m p : os_sched (mc_os (with_port_state m p)) = os_sched (mc_os m).
Proof. done. Qed.

Lemma env_port m p : os_env (mc_os (with_port_state m p)) = os_env (mc_os m).
Proof. done. Qed.

Lemma sched_env m f : os_sched (mc_os (on_env m f)) = with_env (os_sched (mc_os m)) (f (os_env (mc_os m))).
Proof. done. Qed.

Lemma env_env m f : os_env (mc_os (on_env m f)) = f (os_env (mc_os m)).
Proof. done. Qed.

Lemma sched_gdt m g : os_sched (mc_os (with_gdt m g)) = os_sched (mc_os m).
Proof. done. Qed.

Lemma env_gdt m g : os_env (mc_os (with_gdt m g)) = os_env (mc_os m).
Proof. done. Qed.

Lemma sched_idt m t : os_sched (mc_os (with_idt m t)) = os_sched (mc_os m).
Proof. done. Qed.

Lemma env_idt m t : os_env (mc_os (with_idt m t)) = os_env (mc_os m).
Proof. done. Qed.

Lemma sched_first m g h : os_sched (mc_os (on_ports (on_os m (fun o => on_screen o g)) h)) = os_sched (mc_os m).
Proof. done. Qed.

Lemma env_first m g h : os_env (mc_os (on_ports (on_os m (fun o => on_screen o g)) h)) = os_env (mc_os m).
Proof. done. Qed.

Lemma env_last (s : sched K) (a b : K) : with_env (with_env s a) b = with_env s b.
Proof. done. Qed.

#[local] Hint Rewrite sched_port env_port sched_env env_env sched_gdt env_gdt sched_idt env_idt
  sched_first env_first env_last : boot.

Lemma pit_100 (d : P) : exists d', pit_init d 100 = Some d' /\ quiet_ports d d'.
Proof. destruct (pit_init d 100) as [d'|] eqn:E; [|done]. exists d'. split; [done|]. by eapply pit_init_quiet. Qed.

(** The scheduler that [sched_init] makes on the memory that was set up before it. *)
Definition scheduled m (s : sched K) : Prop :=
  sched_init (mk_sched [] 0 0 (-1) (env_heap_init (env_vmm_init (env_pmm_init (os_env (mc_os m)))))) = Some s.

Lemma kernel_main_spec m a u :
  bootable m -> users_init (os_accounts (mc_os m)) (ufs_init (os_ufs (mc_os m))) = Some (a, u) ->
  exists m', main m = Some m' /\ booted m m' /\ scheduled m (os_sched (mc_os m')) /\
    os_accounts (mc_os m') = a /\ os_ufs (mc_os m') = u.
Proof.
  intros [Hth (k & p & Em & Hp) Hfr Hmap [Hps Hpid] Hv Hkb (Hfs & Hlim & Hbuf) Hh Hline] Hu.
  unfold kernel_main. cbv zeta.
  do 15 logged Hfr.
  autorewrite with boot. unfold os_sched at 1. rewrite Hth.
  change (with_env (mk_sched [] 0 0 (-1) _) ?x) with (mk_sched [] 0 0 (-1) x : sched K).
  destruct (sched_init_spec _ k p Em Hp) as (s & Es & Hs). rewrite Es. cbn [mbind option_bind].
  logged Hfr. unfold timer_driver_init.
  match goal with |- context [pit_init ?d 100] => destruct (pit_100 d) as (pt & -> & Hpt) end.
  cbn [mbind option_bind].
  match goal with |- context [log ua_limit ?m ?s] => set (m2 := m) end.
  match type of Hpt with quiet_ports ?d _ => assert (Hq : quiet_ports d (mc_ports m2)) end.
  { eapply quiet_ports_trans; [exact Hpt|]. eapply quiet_ports_trans; [|apply (pic_unmask_quiet _ 1); lia]. by apply pic_unmask_quiet. }
  clear Hpt. match type of Hq with quiet_ports (mc_ports (on_ports ?m _)) _ =>
    pose proof (quiet_ports_trans _ _ _ (pic_remap_quiet (mc_ports m) 0x20 0x28) Hq) as Hq2 end. clear Hq.
  destruct Hq2 as [Hok2 Hs2]; [assumption|]. logged Hfr.
  cbn [mc_ports with_port_state on_ports] in Hs2.
  match goal with |- context [users_init ?x ?y] => change x with (os_accounts (mc_os m)); change y with (ufs_init (os_ufs (mc_os m))) end.
  rewrite Hu. cbn [mbind option_bind].
  eexists. split; [reflexivity|]. split; [|split; [exact Es|done]].
  destruct (fs_init_spec (os_fs (mc_os m)) Hfs Hlim Hbuf) as (_ & _ & Hm1 & Hm2).
  split.
  - exact Hs.
  - match goal with |- kern_wf ?x => change x with
      (mk_kern s (io_pipes (os_io (mc_os m))) (os_processes (mc_os m)) (os_next_pid (mc_os m))) end.
    rewrite Hps, Hpid. apply booted_wf, Hs.
  - do 2 apply print_str_wf. apply putstr_wf, (putstr_wf _ _ 0), clearwin_wf, Hv.
  - by apply keyboard_started.
  - exact (conj Hm1 Hm2).
  - done.
  - change (mc_handlers _) with ((mc_handlers m).[0 <- Some timer_irq].[1 <- Some keyboard_irq]).
    unfold MAX_IRQS in Hh. rewrite aget_aset_ne, !aget_aset_eq by (rewrite ?aset_length; lia). done.
  - done.
  - done.
  - match goal with |- ua_sent ?x = _ => change x with x15 end. unfold boot_log, line, said, number.
    repeat match goal with E : ua_sent ?x = _ |- context [ua_sent ?x] => rewrite E; clear E end.
    rewrite <- !app_assoc. reflexivity.
Qed.

(** [main] reaches the prompt with sound components, threads and memory as [M], and
    accounts and files as [Q]. *)
Definition boots (M : sched K -> Prop) m (Q : list account_t -> ufs D -> Prop) : Prop :=
  exists m', main m = Some m' /\ booted m m' /\ M (os_sched (mc_os m')) /\
    Q (os_accounts (mc_os m')) (os_ufs (mc_os m')).

(** The static table of accounts, all zero. *)
Definition blank_accounts (old : list account_t) : Prop :=
  zlen old = 16 /\ forall i, 0 <= i < 16 -> acc_ok old.[i].

(** The file system of a disk that was never used: the two accounts of the kernel. *)
Definition first_files (a : list account_t) (u : ufs D) : Prop :=
  ufs_wf u /\ accounts_ok a /\
  users_authenticate a root_name root_name = (0, Some 0) /\
  users_authenticate a user_name user_name = (0, Some 1000) /\
  (forall name pw, cstr name <> root_name -> cstr name <> user_name -> users_authenticate a name pw = (-1, None)) /\
  reloads u a.

Lemma first_users (s : ufs D) old :
  static_ok s -> bad_magic (magic_on (disk s)) = true -> blank_accounts old ->
  exists a u, users_init old (ufs_init s) = Some (a, u) /\ first_files a u.
Proof.
  intros Hst Hm [Hl Ho]. destruct (ufs_init_format s Hst Hm) as (Hw & Hfree & Hn).
  destruct (users_first_boot old (ufs_init s) Hw) as (a & u & E & Ha & Hu & Hrest); try done.
  - split; [right; exists 0; split; [lia|by apply Hfree; lia]|]. by rewrite Hn.
  - intros i (Hi & Hu & _). by rewrite Hfree in Hu.
  - exists a, u. split; [done|]. by split; [|split].
Qed.

(** What the kernel finds on the disk decides its first files and accounts. *)
Definition boots_either_way (M : sched K -> Prop) m : Prop :=
  (bad_magic (magic_on (disk (os_ufs (mc_os m)))) = true -> boots M m first_files) /\
  (forall s accounts, ufs_wf s -> accounts_ok accounts -> saved s accounts ->
     (forall x, blk_byte (disk (os_ufs (mc_os m))) x = blk_byte (disk s) x) ->
     boots M m (fun a u => a = accounts /\ ufs_wf u /\ directory u = directory s /\
                         forall j, ufs_content u j = ufs_content s j)).

(** [kernel_main] sets every component up: from the static variables as the
    compiler leaves them it reaches the prompt of the shell, with the boot thread
    running, the tables loaded, the two interrupt lines handled, the keyboard empty,
    the screen sound, and the log written as the code says; on a disk that was never
    used it makes a file system with the two standard accounts, and on the disk of an
    earlier run it finds that run's files and accounts again. *)
Theorem kernel_boots (M : sched K -> Prop) m :
  bootable m -> static_ok (os_ufs (mc_os m)) -> blank_accounts (os_accounts (mc_os m)) ->
  (forall s, scheduled m s -> M s) -> boots_either_way M m.
Proof.
  intros Hb Hst Hold HM. split.
  - intros Hm. destruct (first_users _ _ Hst Hm Hold) as (a & u & E & Hq).
    destruct (kernel_main_spec m a u Hb E) as (m' & Em & Hbt & Hs & Ea & Eu). exists m'. rewrite Ea, Eu. auto.
  - intros s accounts Hw Ha (h & Hn & Hv & Hc) Hsame.
    destruct (ufs_init_mount s _ Hw Hst Hsame) as (Hw1 & Hd1 & _ & _ & Hc1).
    assert (Hn1 : named (ufs_init (os_ufs (mc_os m))) h PASSWD_FILE) by (unfold named; by rewrite Hd1).
    assert (Hs1 : saved (ufs_init (os_ufs (mc_os m))) accounts).
    { exists h. split; [done|]. split; [by apply (named_valid _ _ PASSWD_FILE)|by rewrite Hc1]. }
    destruct Hold as [Hl Ho].
    destruct (users_init_saved _ accounts (os_accounts (mc_os m)) Hw1 Hs1 Ha Hl) as (u & E & Hwu & Hdu & Hcu).
    { intros i Hi. apply (Ho i Hi). }
    destruct (kernel_main_spec m accounts u Hb E) as (m' & Em & Hbt & Hs & Ea & Eu). exists m'. rewrite Ea, Eu.
    split; [done|]. split; [done|]. split; [by apply HM|].
    split; [done|]. split; [done|]. split; [by rewrite Hdu|].
    intros j. by rewrite Hcu.
Qed.
End started.

(** * A concrete machine *)

#[export] Instance demo_boot_env : BootEnv mem := {
  env_pmm_init := fun k => k;
  env_vmm_init := fun k => k;
  env_heap_init := fun k => k;
}.

#[export] Instance simuart_board : Board simuart.
Proof.
  split.
  - intros d port v Hok Hp. cbn. unfold COM1 in *. by replace (port =? 1016) with false by lia.
  - intros d port Hok Hp. cbn in *. split; [lia|done].
Qed.

Definition demo_irq : @irq_handler_fn (os_t mem memdisk Heap.heap) simuart := fun s _ => s.

(** Everything as it is when the boot loader jumps to the kernel, and a blank disk. *)
Definition demo_machine : machine mem memdisk Heap.heap simuart :=
  mk_machine
    (mk_os (mk_io (mk_sched [] 0 0 (-1) ∅) no_pipes (mk_keyboard false (ring_buffer_init (replicate 256 0) 1))
                  demo_video demo_static demo_memfs) no_processes 1 demo_fs boot_accounts)
    (0, []) None None (replicate 16 None) false.

Lemma demo_bootable : bootable demo_machine.
Proof.
  split; try done.
  - exists ∅, 65536. by split.
Qed.

Lemma kernel_boots_witness :
  bootable demo_machine /\ boots 4096 8192 (fun n => n) (fun n => n) demo_irq demo_irq (fun _ => True) demo_machine first_files.
Proof.
  split; [exact demo_bootable|].
  exact (proj1 (kernel_boots 4096 8192 (fun n => n) (fun n => n) demo_irq demo_irq (fun _ => True) demo_machine demo_bootable
    demo_static_ok (conj eq_refl boot_account_ok) (fun _ _ => I)) demo_bad_magic).
Defined.
