(* ===== verification/Machine.v ===== *)
(** The environment of the scheduler, of the processes and of the shell, made of the
    components that the source gives them: heap, page tables, stacks, loader, task
    state and context switch over one memory; and the context switch. *)
From S2P Require Import Prelude Mem Pmm Alloc Heap Vmm VmmSpec Elf VmmStack Thread Process Syscall Trap.

Open Scope Z_scope.
Open Scope list_scope.

(** * The state *)

(** The registers that a switch of threads saves, and where the thread goes on. *)
Record cpu := mk_cpu {
  c_rip : Z; c_rflags : Z; c_rbp : Z; c_rbx : Z; c_r12 : Z; c_r13 : Z; c_r14 : Z; c_r15 : Z;
  c_rsp : Z;
}.

(** Memory with the components that live in it, the task state, the registers. *)
Record kmem := mk_kmem {
  km_machine : VmmStack.machine;
  km_tss : tss_t;
  km_cpu : cpu;
}.

Section machine.
Implicit Types (k : kmem) (mc : VmmStack.machine).

Definition km_vmm k : vmm := mc_vmm (km_machine k).
Definition km_mem k : mem := vm_mem (km_vmm k).
Definition km_pmm k : pmm := vm_pmm (km_vmm k).
Definition with_machine k mc : kmem := mk_kmem mc (km_tss k) (km_cpu k).
Definition with_vmm k (v : vmm) : kmem := with_machine k (set_vmm (km_machine k) v).
Definition with_kmem k (m : mem) : kmem := with_vmm k (with_mem (km_vmm k) m).
Definition with_kpmm k (p : pmm) : kmem := with_vmm k (with_pmm (km_vmm k) p).
Definition with_tss k (t : tss_t) : kmem := mk_kmem (km_machine k) t (km_cpu k).

(** ** [switch_context], [kernel/arch/x86_64/context_switch.asm] *)

Definition push (m : mem) (sp v : Z) : mem * Z := let sp := sp -64 8 in (st64 m sp v, sp).

(** The return address, the flags and the registers, in the order of the pushes. *)
Definition saved_registers (c : cpu) : list Z :=
  [c_rip c; c_rflags c; c_rbp c; c_rbx c; c_r12 c; c_r13 c; c_r14 c; c_r15 c].

Definition push_all (m : mem) (sp : Z) (l : list Z) : mem * Z :=
  foldl (fun '(m, sp) v => push m sp v) (m, sp) l.

(** The registers popped from [sp], and the return. *)
Definition pop_all (m : mem) (sp : Z) : cpu :=
  let at_ i := ld64 m (sp +64 8 * i) in
  mk_cpu (at_ 7) (at_ 6) (at_ 5) (at_ 4) (at_ 3) (at_ 2) (at_ 1) (at_ 0) (sp +64 64).

Definition switch_context k (new : Z) : kmem * Z :=
  let (m, saved) := push_all (km_mem k) (c_rsp (km_cpu k)) (saved_registers (km_cpu k)) in
  (mk_kmem (km_machine (with_kmem k m)) (km_tss k) (pop_all m new), saved).

(** ** The calls of the scheduler

    The table of threads is a block of the heap, which [env_malloc] takes in the map of
    bytes; its entries are the list [threads] of [sched] and are not written there.  The
    frames of the context switch and the stacks are in the map. *)

#[export] Instance kmem_sched : SchedEnv kmem := {
  env_malloc := fun k size => '(mc, p) ← mc_malloc (km_machine k) size; Some (with_machine k mc, p);
  env_free := fun k p => mc ← mc_free (km_machine k) p; Some (with_machine k mc);
  env_ld32 := fun k a => ld32 (km_mem k) a;
  env_st64 := fun k a x => with_kmem k (st64 (km_mem k) a x);
  env_alloc_contiguous := fun k n => let (p, a) := pmm_alloc_contiguous (km_pmm k) n in (with_kpmm k p, a);
  env_free_frame := fun k a => with_kpmm k (pmm_free_frame (km_pmm k) a);
  env_guard_page := fun k a => with_vmm k (vmm_guard_page (km_vmm k) a);
  env_is_mapped := fun k a => vmm_is_mapped (km_vmm k) a;
  env_map_page := fun k va pa flags => with_vmm k (vmm_map_page (km_vmm k) va pa flags).1;
  env_kernel_space := fun k => vmm_kernel_address_space (km_vmm k);
  env_switch_space := fun k space => with_vmm k (vmm_switch_address_space (km_vmm k) space);
  env_set_kernel_stack := fun k sp => with_tss k (tss_set_kernel_stack (km_tss k) sp);
  env_switch_context := switch_context;
}.

(** ** The calls of the process table *)

#[export] Instance kmem_proc : ProcEnv kmem := {
  env_ld8 := fun k a => ld8 (km_mem k) a;
  env_st8 := fun k a x => with_kmem k (st8 (km_mem k) a x);
  env_ld64 := fun k a => ld64 (km_mem k) a;
  env_st32 := fun k a x => with_kmem k (st32 (km_mem k) a x);
  env_alloc_zeroed_frame := fun k =>
    let '(p, m, a) := pmm_alloc_zeroed_frame (km_pmm k) (km_mem k) in (with_kmem (with_kpmm k p) m, a);
  env_map_page_in := fun k space va pa flags =>
    let (v, r) := vmm_map_page_in (km_vmm k) space va pa flags in (with_vmm k v, r);
  env_mark_user := fun k a => with_vmm k (vmm_mark_user (km_vmm k) a);
  env_create_space := fun k => let (v, space) := vmm_create_address_space (km_vmm k) in (with_vmm k v, space);
  env_destroy_space := fun k space => with_vmm k (vmm_destroy_address_space (km_vmm k) space);
  env_register_stack := fun k space top size =>
    mc ← vmm_register_growable_stack (km_machine k) space top size; Some (with_machine k mc);
  env_unregister_stack := fun k space =>
    mc ← vmm_unregister_growable_stack (km_machine k) space; Some (with_machine k mc);
  env_elf_load := fun k space data size bias =>
    '(v, entry) ← elf_load (km_vmm k) space data size bias; Some (with_vmm k v, entry);
}.

(** ** The calls of the system calls, the shell and the start *)

#[export] Instance kmem_sys : SysEnv kmem := {
  env_current_space := fun k => vmm_current_address_space (km_vmm k);
  env_user_accessible := fun k space a => vmm_is_user_accessible_in (km_vmm k) space a;
  env_total_frames := fun k => pmm_total_frames (km_pmm k);
  env_free_frames := fun k => pmm_free_frames (km_pmm k);
}.

(** ** The switch *)

Definition cpu_ok (c : cpu) : Prop := Forall (fun x => 0 <= x < 18446744073709551616) (saved_registers c).

(** What the pushes leave below the stack pointer. *)
Lemma push_all_spec l : forall (m : mem) sp,
  8 * zlen l <= sp < 18446744073709551616 ->
  let (m', sp') := push_all m sp l in
  sp' = sp - 8 * zlen l /\ only_differ m m' (sp - 8 * zlen l) (8 * zlen l) /\
  forall i, 0 <= i < zlen l -> ld64 m' (sp - 8 * (i + 1)) = u64 l.[i].
Proof.
  induction l as [|x l IH]; intros m sp Hsp; cbn [push_all foldl].
  { split; [unfold zlen; simpl; lia|]. split; [done|]. intros i. unfold zlen. simpl. lia. }
  assert (Hz : zlen (x :: l) = zlen l + 1) by (unfold zlen; simpl; lia). rewrite Hz in *.
  pose proof (zlen_nonneg l). unfold push at 2. rewrite (u64_small (sp - 8)) by lia.
  specialize (IH (st64 m (sp - 8) x) (sp - 8) ltac:(lia)). fold (push_all (st64 m (sp - 8) x) (sp - 8) l).
  destruct (push_all (st64 m (sp - 8) x) (sp - 8) l) as [m' sp']. destruct IH as (-> & Hd & Hg).
  split; [lia|]. split.
  - eapply only_differ_trans; [eapply only_differ_weaken; [apply (st64_only_differ m (sp - 8) x)|lia|lia]|].
    eapply only_differ_weaken; [exact Hd|lia|lia].
  - intros i Hi. destruct (decide (i = 0)) as [->|Hi0].
    + replace (sp - 8 * (0 + 1)) with (sp - 8) by lia.
      rewrite (only_differ_ld64 _ _ _ _ _ Hd) by lia. by rewrite ld64_st64_eq.
    + replace (sp - 8 * (i + 1)) with (sp - 8 - 8 * (i - 1 + 1)) by lia. rewrite Hg by lia.
      f_equal. replace (Z.to_nat i) with (S (Z.to_nat (i - 1))) by lia. done.
Qed.

(** The registers come back from where they were pushed. *)
Lemma pop_pushed m m2 sp c :
  cpu_ok c -> 64 <= sp < 18446744073709551616 -> c_rsp c = sp ->
  let (m', saved) := push_all m sp (saved_registers c) in
  saved = sp - 64 /\
  ((forall a, saved <= a < saved + 64 -> ld8 m2 a = ld8 m' a) -> pop_all m2 saved = c).
Proof.
  intros Hc Hsp Hr. pose proof (push_all_spec (saved_registers c) m sp Hsp) as Hp.
  destruct (push_all m sp (saved_registers c)) as [m' saved]. destruct Hp as (-> & _ & Hg).
  assert (Hz : zlen (saved_registers c) = 8) by done. rewrite Hz in *. change (8 * 8) with 64 in *. split; [done|]. intros Hm.
  assert (Hat : forall i x, 0 <= i < 8 -> (saved_registers c).[7 - i] = x -> ld64 m2 (sp - 64 +64 8 * i) = x).
  { intros i x Hi <-. rewrite u64_small by lia. transitivity (ld64 m' (sp - 64 + 8 * i)).
    - apply ld64_ext. intros a Ha. apply Hm. lia.
    - replace (sp - 64 + 8 * i) with (sp - 8 * (7 - i + 1)) by lia. rewrite Hg by lia.
      apply u64_small. apply (Forall_lookup_1 _ _ _ _ Hc (aget_lookup (saved_registers c) (7 - i) ltac:(lia))). }
  unfold pop_all. cbv zeta beta. rewrite (u64_small (sp - 64 + 64)) by lia.
  rewrite (Hat 7 (c_rip c)), (Hat 6 (c_rflags c)), (Hat 5 (c_rbp c)), (Hat 4 (c_rbx c)), (Hat 3 (c_r12 c)),
    (Hat 2 (c_r13 c)), (Hat 1 (c_r14 c)), (Hat 0 (c_r15 c)) by (lia || done).
  replace (sp - 64 + 64) with (c_rsp c) by lia. by destruct c.
Qed.

(** The frame of a new thread, as [push_frame] of [thread.c] builds it. *)
Lemma push_frame_pushes k stack_low entry :
  let (m, sp) := push_all (km_mem k) (stack_low +64 THREAD_STACK_SIZE) [entry; 0x202; 0; 0; 0; 0; 0; 0] in
  push_frame k stack_low entry = (with_kmem k m, sp).
Proof. reflexivity. Qed.

(** Where a new thread starts. *)
Definition new_thread (stack_top entry : Z) : cpu := mk_cpu entry 0x202 0 0 0 0 0 0 stack_top.

(** A machine whose bytes in [lo, hi) are those of another. *)
Definition same_bytes k k' (lo hi : Z) : Prop := forall a, lo <= a < hi -> ld8 (km_mem k') a = ld8 (km_mem k) a.

(** Switching to [sp] from anywhere gives the registers [c], as long as the 64 bytes
    there are those of [k] and the thread that is left pushes its own elsewhere. *)
Definition resumes k (sp : Z) (c : cpu) : Prop :=
  forall k2, same_bytes k k2 sp (sp + 64) -> 64 <= c_rsp (km_cpu k2) < 18446744073709551616 ->
    c_rsp (km_cpu k2) <= sp \/ sp + 64 <= c_rsp (km_cpu k2) - 64 ->
    km_cpu (switch_context k2 sp).1 = c.

Lemma switch_context_spec k new :
  cpu_ok (km_cpu k) -> 64 <= c_rsp (km_cpu k) < 18446744073709551616 ->
  let (k1, saved) := switch_context k new in
  saved = c_rsp (km_cpu k) - 64 /\
  resumes k1 saved (km_cpu k).
Proof.
  intros Hc Hsp. unfold switch_context.
  pose proof (fun m2 => pop_pushed (km_mem k) m2 _ _ Hc Hsp eq_refl) as Hpop.
  destruct (push_all (km_mem k) (c_rsp (km_cpu k)) (saved_registers (km_cpu k))) as [m saved].
  split; [by destruct (Hpop m)|]. intros k2 Hm Hsp2 Hap. unfold switch_context.
  pose proof (push_all_spec (saved_registers (km_cpu k2)) (km_mem k2) _ Hsp2) as Hp2.
  destruct (push_all (km_mem k2) (c_rsp (km_cpu k2)) (saved_registers (km_cpu k2))) as [m2 saved2].
  destruct Hp2 as (_ & Hd & _). change (8 * zlen (saved_registers (km_cpu k2))) with 64 in Hd.
  cbn [fst km_cpu]. apply (Hpop m2). intros a Ha. transitivity (ld8 (km_mem k2) a); [apply Hd; lia|exact (Hm a Ha)].
Qed.

Lemma new_thread_spec k stack_low entry :
  0 <= stack_low -> stack_low + THREAD_STACK_SIZE < 18446744073709551616 -> 0 <= entry < 18446744073709551616 ->
  let (k1, sp) := push_frame k stack_low entry in
  resumes k1 sp (new_thread (stack_low + THREAD_STACK_SIZE) entry).
Proof.
  intros H0 Hst He. pose proof (push_frame_pushes k stack_low entry) as Hpf.
  rewrite u64_small in Hpf by (unfold THREAD_STACK_SIZE in *; lia). unfold THREAD_STACK_SIZE in *.
  set (c := new_thread (stack_low + 8192) entry). change [entry; 514; 0; 0; 0; 0; 0; 0] with (saved_registers c) in Hpf.
  assert (Hc : cpu_ok c) by (repeat (apply Forall_cons; [done|]); apply Forall_nil).
  pose proof (fun m2 => pop_pushed (km_mem k) m2 (stack_low + 8192) c Hc ltac:(lia) eq_refl) as Hpop.
  destruct (push_all (km_mem k) (stack_low + 8192) (saved_registers c)) as [m sp]. rewrite Hpf.
  intros k2 Hm Hsp2 Hap. unfold switch_context.
  pose proof (push_all_spec (saved_registers (km_cpu k2)) (km_mem k2) _ Hsp2) as Hp2.
  destruct (push_all (km_mem k2) (c_rsp (km_cpu k2)) (saved_registers (km_cpu k2))) as [m2 saved2].
  destruct Hp2 as (_ & Hd & _). change (8 * zlen (saved_registers (km_cpu k2))) with 64 in Hd.
  cbn [fst km_cpu]. apply (Hpop m2). intros a Ha. transitivity (ld8 (km_mem k2) a); [apply Hd; lia|exact (Hm a Ha)].
Qed.

(** C39: The context switch loses nothing: a thread that was switched away from
    continues, when it is switched back to, with the registers, the flags, the stack
    and the place it had, if the 64 bytes under its stack pointer are as they were
    left; and the frame that [thread.c] builds for a new thread starts it at its
    entry, with interrupts on, zero registers and an empty stack. *)
Theorem switch_context_correct k new stack_low entry :
  cpu_ok (km_cpu k) -> 64 <= c_rsp (km_cpu k) < 18446744073709551616 ->
  0 <= stack_low -> stack_low + THREAD_STACK_SIZE < 18446744073709551616 -> 0 <= entry < 18446744073709551616 ->
  (let (k1, saved) := switch_context k new in resumes k1 saved (km_cpu k)) /\
  (let (k1, sp) := push_frame k stack_low entry in
   resumes k1 sp (new_thread (stack_low + THREAD_STACK_SIZE) entry)).
Proof.
  intros Hc Hsp H0 Hst He. split; [|by apply new_thread_spec].
  pose proof (switch_context_spec k new Hc Hsp) as Hs. destruct (switch_context k new) as [k1 saved]. apply Hs.
Qed.
End machine.

(** * A concrete machine: 64 MiB, the boot loader's top table empty *)

Definition demo_kmem : kmem :=
  mk_kmem (VmmStack.mk_machine (mk_vmm pmm_static ∅ 0 demo_root) 0 0) (mk_tss 0 0)
    (mk_cpu 0x8200 0x202 0 0 0 0 0 0 0x90000).

(** The registers of the boot processor, and a new thread on a stack at 0xA0000. *)
Lemma switch_context_correct_witness :
  let (k1, saved) := switch_context demo_kmem 0x80000 in
  saved = 0x90000 - 64 /\ resumes k1 saved (km_cpu demo_kmem).
Proof.
  assert (Hc : cpu_ok (km_cpu demo_kmem)) by (repeat (apply Forall_cons; [done|]); apply Forall_nil).
  assert (Hs : 64 <= c_rsp (km_cpu demo_kmem) < 18446744073709551616) by by vm_compute.
  pose proof (proj1 (switch_context_correct demo_kmem 0x80000 0xA0000 0x9000 Hc Hs ltac:(done) ltac:(done) ltac:(done))) as H.
  unfold switch_context in *. split; [reflexivity|exact H].
Defined.
