(* ===== verification/Start.v ===== *)
(** The start of the kernel on the machine of [Machine.v]: what [kernel_main] makes of
    the frames, the page tables and the heap, from power on to the prompt. *)
From S2P Require Import Prelude Mem CString RingBuffer Pmm Alloc Heap Vmm VmmSpec VmmFrame VmmInit VmmStack Memfs Blk Ports Ata Ufs UfsSpec Users.
From S2P Require Import Thread Pipe Video Keyboard Fs Fd Process ProcessSpec Syscall Trap Shell ShellSpec Boot Machine.

Open Scope Z_scope.
Open Scope list_scope.

(** * The heap among the page tables *)

Section heap_among_tables.
Context (root : Z).
Implicit Types (v : vmm) (bs : list hblock).

(** The blocks [bs] of the heap stand in frames in use that are no tables. *)
Record heap_at v (head : Z) bs : Prop := {
  ha_rep : heap_rep (mk_heap head (vm_pmm v)) (vm_mem v) bs;
  ha_owned b a : b ∈ bs -> hb_addr b <= a < hb_end b -> owned root v a;
}.

(** Nothing that the paging operations do touches them. *)
Lemma heap_at_evolves keep v v' head bs : evolves root keep v v' -> heap_at v head bs -> heap_at v' head bs.
Proof.
  intros He [[Hl Ha Hok Hp] Ho]. rewrite Forall_elem in Hok.
  assert (Ho' : forall b a, b ∈ bs -> hb_addr b <= a < hb_end b ->
    owned root v' a /\ ld8 (vm_mem v') a = ld8 (vm_mem v) a)
    by (intros b a Hb Hin; by apply (owned_evolves _ _ _ _ _ He), (Ho b)).
  split; [|intros b a Hb Hin; by apply (Ho' b)]. split; [|done| |apply He]; cbn [heap_head heap_pmm] in *.
  - apply (lseg_ext (vm_mem v)); [|done]. intros b a Hb Hin. apply (Ho' b); [done|].
    pose proof (block_bounds _ _ (Hok b Hb)). unfold hb_end, HEAP_HEADER_SIZE. lia.
  - apply Forall_elem. intros b Hb. destruct (Hok b Hb) as (B1 & B2 & B3 & _). split_and!; try done.
    intros a Hin. by apply (Ho' b).
Qed.

(** A free frame is a run of one frame. *)
Lemma free_frame_run p : pmm_wf p -> 0 < pmm_free_frames p ->
  ~ forall s, 0 <= s -> s + 1 <= PMM_MAX_FRAMES -> ~ run_free p s 1.
Proof.
  intros [Hc _] Hfree Hno. unfold pmm_free_frames in Hfree. rewrite Hc in Hfree. unfold free_count in Hfree.
  rewrite count_if_none in Hfree; [lia|]. intros f Hf. destruct (is_used p f) eqn:E; [done|].
  destruct (Hno f); [lia|lia|]. intros g Hg. by assert (g = f) as -> by lia.
Qed.

(** The first table of threads fits into one frame. *)
Lemma first_malloc v :
  vmm_wf root v -> 0 < pmm_free_frames (vm_pmm v) ->
  exists p m a, kmalloc (mk_heap 0 (vm_pmm v)) (vm_mem v) 672 = Some (mk_heap a p, m, a + 24) /\ 0 < a /\
    let v' := with_mem (with_pmm v p) m in
    evolves root (fun _ => True) v v' /\ heap_at v' a (taken 672 (mk_hblock a 4072 true)).
Proof.
  intros Hw Hfree. pose proof (run_alloc_spec root v 1 Hw ltac:(lia)) as Hr.
  destruct (pmm_alloc_contiguous (vm_pmm v) 1) as [p a] eqn:Ea.
  destruct Hr as [He [(_ & _ & Hno)|(Hal & Hab & Hrun)]]; [by destruct (free_frame_run _ (proj1 (proj2 Hw)) Hfree)|].
  pose proof (Hrun 0 ltac:(lia)) as Hown. replace (a + 0 * 4096) with a in Hown by lia.
  pose proof Hal as [Ham Hapos]. unfold PMM_MAX_MEMORY in Hab.
  set (b := mk_hblock a 4072 true).
  destruct (write_header_spec (vm_mem v) a 4072 true 0 ltac:(lia) ltac:(lia)) as [Hh Hd1]. fold b in Hh.
  change (c_bool true) with 1 in Hh, Hd1. set (m1 := set_next (set_free_flag (set_size (vm_mem v) a 4072) a 1) a 0) in *.
  assert (Hbok : block_ok p b).
  { split; [exact (proj1 Hapos)|]. split; [done|]. unfold hb_end, HEAP_HEADER_SIZE, PMM_MAX_MEMORY. cbn [hb_addr hb_size b].
    split; [lia|]. intros x Hx. destruct Hown as (_ & _ & Ho). destruct (Ho (x - a) ltac:(unfold hb_end, HEAP_HEADER_SIZE in Hx; cbn [hb_addr hb_size b] in Hx; lia)) as (_ & Hu & _).
    by replace (a + (x - a)) with x in Hu by lia. }
  assert (Hrep : heap_rep (mk_heap a p) m1 [b]).
  { split; [by split; [|exists 0]|by split; [constructor|]|by constructor|apply He]. }
  destruct (take_spec (mk_heap a p) m1 [] b [] 672 Hrep eq_refl ltac:(cbn; lia)) as [Hrep2 _].
  destruct (take_block_spec p m1 b 0 672 Hbok Hh eq_refl ltac:(lia) ltac:(cbn; lia)) as [Hd2 _].
  cbn [hb_addr hb_size b app] in Hrep2, Hd2. rewrite app_nil_r in Hrep2. fold b in Hrep2.
  set (m2 := take_block m1 a 672) in *.
  assert (Hd : only_differ (vm_mem (with_pmm v p)) m2 a 4096).
  { apply (only_differ_trans _ m1); [|exact Hd2]. by apply (only_differ_weaken _ _ a 24); [|lia|lia]. }
  destruct (own_frame_write root _ v (with_pmm v p) a m2 He Hown Hd) as (He2 & Hown2 & _).
  exists p, m2, a. split; [|split; [lia|split; [exact He2|split; [exact Hrep2|]]]].
  - unfold kmalloc. change (672 =? 0) with false. change (672 >? U64_MAX -64 (HEAP_ALIGN - 1)) with false. cbv zeta.
    change (align_up 672 HEAP_ALIGN) with 672. cbn [heap_head]. change (find_fit (vm_mem v) 0 672) with (Some 0).
    cbn [mbind option_bind]. change (0 =? 0) with true. cbv iota.
    unfold grow_heap. change (672 >? U64_MAX -64 HEAP_HEADER_SIZE) with false. cbv zeta iota.
    change ((HEAP_HEADER_SIZE +64 672 +64 PMM_FRAME_SIZE -64 1) / PMM_FRAME_SIZE) with 1. cbn [heap_pmm heap_head].
    rewrite Ea. replace (a =? 0) with false by lia. replace (a =? 0) with false by lia.
    unfold HEAP_HEADER_SIZE. by rewrite (u64_small (a + 24)) by lia.
  - intros c x Hc Hx. destruct Hown2 as (_ & _ & Ho). replace x with (a + (x - a)) by lia. apply Ho.
    unfold taken, b in Hc. cbn [hb_size hb_addr] in Hc. change (4072 >=? 672 + 40) with true in Hc. cbv iota in Hc.
    unfold hb_end, HEAP_HEADER_SIZE in Hx.
    apply elem_of_cons in Hc as [->|Hc]; [cbn [hb_size hb_addr] in Hx; lia|].
    apply list_elem_of_singleton in Hc as ->. cbn [hb_size hb_addr] in Hx. lia.
Qed.

(** Giving the frames of a stack back, on the machine and on its allocator. *)
Lemma free_stack_vmm (k : kmem) start :
  0 <= start -> start + 3 * 4096 < 18446744073709551616 ->
  let k' := for_each 0 3 (fun i k => env_free_frame k (start +64 i * 4096)) k in
  km_vmm k' = with_pmm (km_vmm k) (for_each 0 3 (fun i p => pmm_free_frame p (start + i * 4096)) (vm_pmm (km_vmm k))) /\
  mc_heap_head (km_machine k') = mc_heap_head (km_machine k).
Proof.
  intros H0 Hb. unfold for_each. change (Z.to_nat (3 - 0)) with 3%nat.
  cbn [each_loop]. rewrite !u64_small by lia. by split.
Qed.

Lemma root_space v : vmm_wf root v -> space_pml4 root = root.
Proof.
  intros (Hs & _). destruct (wf_table _ _ _ Hs [] root nil_path_ok eq_refl) as [[Hm Hb] _].
  apply table_addr_page; [unfold PMM_MAX_MEMORY in Hb; lia|done].
Qed.

(** The stack of a thread, with a page below it that is not mapped. *)
Lemma guarded_stack_spec (k : kmem) :
  vmm_wf root (km_vmm k) -> space_pml4 (cr3 (km_vmm k)) = root ->
  let (k', st) := alloc_guarded_stack k in
  evolves root (fun va => match st with Some (_, g) => ~ same_page g va | None => True end) (km_vmm k) (km_vmm k') /\
  mc_heap_head (km_machine k') = mc_heap_head (km_machine k) /\
  match st with
  | Some (low, g) => g <> 0 /\ low = g + 4096 /\ walk (km_mem k') root g = None /\ own_run root (km_vmm k) (km_vmm k') g 3
  | None => True
  end.
Proof.
  intros Hw Hcr. unfold alloc_guarded_stack. change (THREAD_STACK_PAGES + 1) with 3. cbn [env_alloc_contiguous kmem_sched].
  pose proof (run_alloc_spec root (km_vmm k) 3 Hw ltac:(lia)) as Hr. change (vm_pmm (km_vmm k)) with (km_pmm k) in Hr.
  destruct (pmm_alloc_contiguous (km_pmm k) 3) as [p a]. destruct Hr as [He Hr].
  destruct (a =? 0) eqn:E0; bool_prop; [split; [exact He|done]|].
  destruct Hr as [(Ha0 & _)|(Hal & Hab & Hrun)]; [by destruct (E0 Ha0)|]. destruct Hal as [Ham Hapos]. unfold PMM_MAX_MEMORY in Hab.
  set (k1 := with_kpmm k p). change (with_pmm (km_vmm k) p) with (km_vmm k1) in *.
  pose proof (evolves_wf _ _ _ _ He) as Hw1.
  assert (Hsp : vmm_current_address_space (km_vmm k1) = root).
  { unfold vmm_current_address_space. rewrite (proj2 (ev_regs _ _ _ _ He)). exact Hcr. }
  pose proof (vmm_unmap_page_in_correct (km_vmm k1) root a) as Hun. rewrite (root_space _ Hw1) in Hun.
  specialize (Hun Hw1). cbv zeta in Hun.
  cbn [env_guard_page env_is_mapped kmem_sched]. unfold vmm_guard_page, vmm_guard_page_in. rewrite Hsp.
  destruct (vmm_unmap_page_in (km_vmm k1) root a) as [v2 r]. destruct Hun as [He2 Hres]. cbn [fst].
  set (k2 := with_vmm k1 v2). change (km_vmm k2) with v2.
  pose proof (own_run_evolves _ _ _ _ _ _ _ He2 Hrun) as Hrun2. pose proof (evolves_wf _ _ _ _ He2) as Hw2.
  assert (Hmapped : vmm_is_mapped v2 a = false <-> walk (vm_mem v2) root a = None).
  { unfold vmm_is_mapped. replace (vmm_current_address_space v2) with root
      by (unfold vmm_current_address_space in *; by rewrite (proj2 (ev_regs _ _ _ _ He2))).
    pose proof (is_mapped_walk v2 root a) as Hi. rewrite (root_space _ Hw2) in Hi. specialize (Hi (proj1 Hw2)).
    rewrite Hi. by destruct (walk (vm_mem v2) root a). }
  destruct (vmm_is_mapped v2 a) eqn:Em.
  - assert (Hr1 : r <> 0) by (intros ->; destruct Hres as [[? _]|[_ Hn]]; [done|]; by apply Hmapped in Hn).
    destruct (free_stack_vmm k2 a) as [-> ->]; [lia|lia|]. split; [|done].
    assert (He3 : evolves root (fun _ => True) (km_vmm k) v2).
    { eapply evolves_trans; [exact He|]. apply (evolves_weaken _ _ _ _ _ He2). intros va _ ?. done. }
    exact (own_run_free root _ (km_vmm k) a 3 v2 ltac:(lia) He3 Hrun2).
  - rewrite u64_small by lia. split; [|split; [done|]].
    + eapply evolves_trans; [by apply (evolves_weaken _ _ _ _ _ He)|]. apply (evolves_weaken _ _ _ _ _ He2). by intros va Hn _.
    + split; [done|]. split; [done|]. split; [by apply Hmapped|exact Hrun2].
Qed.
End heap_among_tables.

(** * The start on a concrete memory *)

Section start.
(** The memory map of the BIOS and the end of the kernel's image. *)
Context (e820 : E820.e820_buffer_t) (kernel_end : Z).

#[export] Instance kmem_shell : ShellEnv kmem := {
  env_alloc_frame := fun k => let (p, a) := pmm_alloc_frame (km_pmm k) in (with_kpmm k p, a);
  env_e820 := e820;
}.

#[export] Instance kmem_boot : BootEnv kmem := {
  env_pmm_init := fun k => with_kpmm k (pmm_init (km_pmm k) e820 kernel_end);
  env_vmm_init := fun k => with_vmm k (vmm_init (km_vmm k) e820);
  env_heap_init := fun k =>
    with_machine k (VmmStack.mk_machine (km_vmm k) (heap_head (heap_init (mk_heap (mc_heap_head (km_machine k)) (km_pmm k)))) (stack_regions (km_machine k)));
}.

(** Memory once the frames, the page tables and the heap are set up. *)
Definition paged (k : kmem) : vmm := vmm_init (with_pmm (km_vmm k) (pmm_init (km_pmm k) e820 kernel_end)) e820.
Definition prepared (k : kmem) : kmem := env_heap_init (env_vmm_init (env_pmm_init k)).

Lemma prepared_vmm k : km_vmm (prepared k) = paged k /\ mc_heap_head (km_machine (prepared k)) = 0.
Proof. done. Qed.

Lemma pmm_init_total p : 0 <= pmm_total_frames (pmm_init p e820 kernel_end).
Proof.
  assert (Hu : forall q f, total_frames (set_used q f) = total_frames q).
  { intros q f. unfold set_used. repeat split_if; done. }
  assert (Hf : forall q f, total_frames (set_free q f) = total_frames q).
  { intros q f. unfold set_free. repeat split_if; done. }
  assert (Hr : forall q lo hi, 0 <= total_frames q -> 0 <= total_frames (reserve_range q lo hi)).
  { intros q lo hi Hq. unfold reserve_range.
    apply (for_each_keep _ _ _ q (fun q => 0 <= total_frames q)); [done|]. intros j q' _ H0. by rewrite Hu. }
  unfold pmm_total_frames, pmm_init. repeat apply Hr.
  apply (for_each_keep _ _ _ _ (fun q => 0 <= total_frames q)); [done|]. intros j q _ Hq.
  destruct (E820.e820_get_entry e820 j) as [e|]; [|done]. unfold pmm_init_region. repeat (split_if; [done|]).
  apply (for_each_keep _ _ _ q (fun q => 0 <= total_frames q)); [done|]. intros i q' _ _. cbn [total_frames].
  apply u64_bounds.
Qed.

(** Power on: the tables of the boot loader in frames that the map does not give out,
    and enough memory that a frame is left when paging is set up. *)
Record powered_on (k : kmem) : Prop := {
  po_map : map_ok e820;
  po_end : 33280 < kernel_end < 18446744073709547520;
  po_tables : vmm_wf (space_pml4 (cr3 (km_vmm k))) (at_boot (with_pmm (km_vmm k) (pmm_init (km_pmm k) e820 kernel_end)));
  po_frame : 0 < pmm_free_frames (vm_pmm (paged k));
}.

Lemma powered_on_paged k :
  powered_on k ->
  let root := space_pml4 (cr3 (km_vmm k)) in
  extended root e820 (at_boot (with_pmm (km_vmm k) (pmm_init (km_pmm k) e820 kernel_end))) (paged k) /\ vmm_wf root (paged k).
Proof.
  intros [Hm He Ht Hf] root.
  pose proof (vmm_init_spec (with_pmm (km_vmm k) (pmm_init (km_pmm k) e820 kernel_end)) e820 Ht Hm) as Hx.
  split; [exact Hx|]. exact (evolves_wf _ _ _ _ (ex_evolves _ _ _ _ Hx)).
Qed.

Lemma powered_on_malloc k :
  powered_on k -> let root := space_pml4 (cr3 (km_vmm k)) in
  exists p m a, env_malloc (prepared k) (THREAD_SIZEOF * INITIAL_THREAD_CAPACITY) =
      Some (with_machine (prepared k) (VmmStack.mk_machine (with_mem (with_pmm (paged k) p) m) a
        (stack_regions (km_machine (prepared k)))), a + 24) /\ 0 < a /\
    let v' := with_mem (with_pmm (paged k) p) m in
    evolves root (fun _ => True) (paged k) v' /\ heap_at root v' a (taken 672 (mk_hblock a 4072 true)).
Proof.
  intros Hpo root. destruct (powered_on_paged k Hpo) as [_ Hw].
  destruct (first_malloc root (paged k) Hw (po_frame _ Hpo)) as (p & m & a & E & Ha & Hev).
  destruct (prepared_vmm k) as [Ev Eh]. exists p, m, a. split; [|by split].
  cbn [env_malloc kmem_sched]. unfold mc_malloc, mc_mem. rewrite Eh. fold (km_vmm (prepared k)). rewrite Ev.
  change (THREAD_SIZEOF * INITIAL_THREAD_CAPACITY) with 672. rewrite E. reflexivity.
Qed.

(** The memory under the scheduler [s] that was started on the machine [k]: the page
    tables are sound and in force, every page that [vmm_init] mapped is mapped as it
    was, but for the guard page of the boot thread, every byte in use outside the tables
    is as it was, and the heap is sound with the thread table in a block of its own. *)
Record memory_sound (k : kmem) (s : sched kmem) : Prop := {
  ms_tables : vmm_wf (space_pml4 (cr3 (km_vmm k))) (km_vmm (env s));
  ms_root : cr3 (km_vmm (env s)) = space_pml4 (cr3 (km_vmm k)) /\
    kernel_pml4 (km_vmm (env s)) = space_pml4 (cr3 (km_vmm k));
  ms_mapped a : guard_page (threads s).[0] = 0 \/ ~ same_page (guard_page (threads s).[0]) a ->
    fst <$> walk (km_mem (env s)) (space_pml4 (cr3 (km_vmm k))) a =
    fst <$> walk (vm_mem (paged k)) (space_pml4 (cr3 (km_vmm k))) a;
  ms_guard : guard_page (threads s).[0] <> 0 ->
    walk (km_mem (env s)) (space_pml4 (cr3 (km_vmm k))) (guard_page (threads s).[0]) = None;
  ms_data a : owned (space_pml4 (cr3 (km_vmm k))) (paged k) a ->
    owned (space_pml4 (cr3 (km_vmm k))) (km_vmm (env s)) a /\ ld8 (km_mem (env s)) a = ld8 (vm_mem (paged k)) a;
  ms_heap : exists bs b, heap_at (space_pml4 (cr3 (km_vmm k))) (km_vmm (env s)) (mc_heap_head (km_machine (env s))) bs /\
    b ∈ bs /\ hb_free b = false /\ threads_ptr s = hb_addr b + 24 /\
    THREAD_SIZEOF * INITIAL_THREAD_CAPACITY <= hb_size b;
}.

Lemma scheduled_memory k s :
  powered_on k -> sched_init (mk_sched [] 0 0 (-1) (prepared k)) = Some s -> memory_sound k s.
Proof.
  intros Hpo. destruct (powered_on_malloc k Hpo) as (p & m & a & Em & Ha & Hev1 & Hh1). cbv zeta in Hev1, Hh1.
  destruct (powered_on_paged k Hpo) as [Hx Hw0]. cbv zeta in Hx, Hw0.
  destruct (ev_regs _ _ _ _ (ex_evolves _ _ _ _ Hx)) as [Ek0 Ec0]. cbn [at_boot kernel_pml4 cr3 with_pmm] in Ek0, Ec0.
  set (root := space_pml4 (cr3 (km_vmm k))) in *.
  unfold sched_init, grow_thread_table. cbn [thread_capacity env threads threads_ptr current_thread Z.eqb].
  change (THREAD_SIZEOF *64 INITIAL_THREAD_CAPACITY) with (THREAD_SIZEOF * INITIAL_THREAD_CAPACITY). rewrite Em.
  cbn [mbind option_bind]. replace (a + 24 =? 0) with false by lia.
  set (v1 := with_mem (with_pmm (paged k) p) m) in *.
  set (k1 := with_machine (prepared k) _). set (raw := raw_table k1 (a + 24) INITIAL_THREAD_CAPACITY).
  assert (Hraw : zlen raw = 4) by (unfold raw, INITIAL_THREAD_CAPACITY; by apply (raw_table_get k1 (a + 24) 4 0); lia).
  clearbody raw. change (for_each 0 0 _ raw) with raw.
  destruct (init_slots INITIAL_THREAD_CAPACITY raw ltac:(done) Hraw) as [Hz _].
  set (l := for_each 0 INITIAL_THREAD_CAPACITY _ raw) in *. clearbody l.
  cbn [Z.eqb negb mbind option_bind env].
  pose proof (guarded_stack_spec root k1 (evolves_wf _ _ _ _ Hev1)) as Hg.
  destruct (ev_regs _ _ _ _ Hev1) as [Ek1 Ec1]. change (km_vmm k1) with v1 in Hg.
  specialize (Hg ltac:(by rewrite Ec1, Ec0)).
  destruct (alloc_guarded_stack k1) as [k2 st]. destruct Hg as (Hev2 & Eh2 & Hst).
  set (lg := default (0, 0) st). destruct lg as [stack_low guard] eqn:Elg.
  match goal with |- context [on_thread ?s0 0 ?f] => set (boot := f); set (s0' := s0) end.
  intros [= <-]. 
  assert (Hth : (threads (on_thread s0' 0 boot)).[0] = boot l.[0]).
  { rewrite on_thread_get by (cbn; unfold INITIAL_THREAD_CAPACITY in Hz; lia). by rewrite decide_True. }
  assert (Hkeep : evolves root (fun va => guard = 0 \/ ~ same_page guard va) (paged k) (km_vmm k2)).
  { eapply evolves_trans; [by apply (evolves_weaken _ _ _ _ _ Hev1)|]. apply (evolves_weaken _ _ _ _ _ Hev2).
    intros va Hva. destruct st as [[low g]|]; [|done]. injection Elg as -> ->. destruct Hva; [|done]. by destruct Hst. }
  pose proof (heap_at_evolves _ _ _ _ _ _ Hev2 Hh1) as Hh2.
  assert (Hsp : kernel_pml4 (km_vmm k2) = root) by (rewrite (proj1 (ev_regs _ _ _ _ Hev2)), Ek1, Ek0; reflexivity).
  set (s := activate _ 0). assert (Hgd : guard_page (threads s).[0] = guard) by exact (f_equal guard_page Hth).
  assert (Hvm : km_vmm (env s) = vmm_switch_address_space (km_vmm k2) root).
  { rewrite <- Hsp at 1. change (kernel_pml4 (km_vmm k2)) with (address_space (boot l.[0])). rewrite <- Hth. reflexivity. }
  change (mc_heap_head (km_machine (env s))) with (mc_heap_head (km_machine k2)) in *.
  split; fold root; rewrite ?Hgd; unfold km_mem; rewrite ?Hvm.
  - exact (evolves_wf _ _ _ _ Hkeep).
  - by split.
  - intros x Hx'. exact (evolves_walk _ _ _ _ x Hw0 Hkeep Hx').
  - intros Hne. destruct st as [[low g]|]; injection Elg as <- <-; [|done]. exact (proj1 (proj2 (proj2 Hst))).
  - intros x Ho. exact (owned_evolves _ _ _ _ x Hkeep Ho).
  - exists (taken 672 (mk_hblock a 4072 true)), (mk_hblock a 672 false).
    split; [destruct Hh2 as [A B]; split; [|exact B]|].
    + change (mc_heap_head (km_machine (env s))) with (mc_heap_head (km_machine k2)). by rewrite Eh2.
    + split; [apply list_elem_of_here|done].
Qed.

Context {D H P : Type}.
Context {B : BlockDev D} {L : BlockDevLaws D} `{Allocator H} {IO : PortIO P} {U : Uart P} {BD : Board P}.
Context (gdt_addr tss_addr : Z) (isr irq : Z -> Z).
Context (timer_irq keyboard_irq : @irq_handler_fn (os_t kmem D H) P).
Implicit Types (m : Boot.machine kmem D H P).

(** What [kernel_main] finds on such a memory: its static variables as the compiler
    initialises them, disks that answer, and a serial line. *)
Record switched_on m : Prop := {
  so_memory : powered_on (os_env (mc_os m));
  so_threads : io_sched (os_io (mc_os m)) = mk_sched [] 0 0 (-1) (os_env (mc_os m));
  so_procs : os_processes (mc_os m) = no_processes /\ os_next_pid (mc_os m) = 1;
  so_screen : video_wf (io_video (os_io (mc_os m)));
  so_keys : zlen (storage (kbd_buffer (io_keyboard (os_io (mc_os m))))) = KBD_BUFFER_SIZE;
  so_fs : blk_ok (fs_disk (os_fs (mc_os m))) /\ 2050 <= blk_limit (fs_disk (os_fs (mc_os m))) /\
          fs_buffers (os_fs (mc_os m));
  so_handlers : zlen (mc_handlers m) = MAX_IRQS;
  so_line : ua_ok (klog_init (mc_ports m));
}.

Lemma switched_on_bootable m : switched_on m -> bootable m.
Proof.
  intros [Hm Ht Hp Hs Hk Hf Hh Hl]. pose proof (po_map _ Hm) as [[Hc _] _].
  split; try assumption; [destruct (powered_on_malloc _ Hm) as (q & mm & a & E & Ha & _); by eexists _, (a + 24); split; [exact E|lia]|].
  cbn [env_pmm_init kmem_boot env_total_frames env_free_frames kmem_sys].
  split; [apply pmm_init_total|]. destruct (pmm_init_spec (km_pmm (os_env (mc_os m))) e820 kernel_end) as [[Hfr _] _];
    [apply (po_map _ Hm)|apply (po_end _ Hm)|].
  unfold pmm_free_frames, km_pmm, km_vmm, with_kpmm, with_vmm. cbn [km_machine with_machine mc_vmm set_vmm vm_pmm with_pmm].
  unfold km_pmm, km_vmm in Hfr. rewrite Hfr. apply free_count_bounds.
Qed.

(** C40: On the memory that the components really share, frames, page tables, heap and
    the block of the thread table in one map of bytes (the entries of the thread table
    are kept as a list beside it), the kernel starts: with a memory map whose frames
    outlast the page tables, [vmm_init] extends the boot loader's tables as
    [extended] says and the heap is set up without a change to them; the first table of
    threads is allocated; and [kernel_main] reaches the prompt with every component
    sound, on a fresh disk and on the disk of an earlier run.  At the prompt the frames
    and page tables are sound and in force, every page that [vmm_init] mapped is mapped
    as it was, but for the guard page under the stack of the boot thread, which is not
    mapped, no byte in use outside the tables has changed since [vmm_init], and the
    heap is a sound list of blocks with the thread table in a taken block of its own. *)
Theorem machine_boots m :
  switched_on m -> static_ok (os_ufs (mc_os m)) -> blank_accounts (os_accounts (mc_os m)) ->
  let k := os_env (mc_os m) in
  let root := space_pml4 (cr3 (km_vmm k)) in
  (extended root e820 (at_boot (with_pmm (km_vmm k) (pmm_init (km_pmm k) e820 kernel_end))) (km_vmm (prepared k)) /\
   exists k' p, env_malloc (prepared k) (THREAD_SIZEOF * INITIAL_THREAD_CAPACITY) = Some (k', p) /\ p <> 0) /\
  boots_either_way gdt_addr tss_addr isr irq timer_irq keyboard_irq (memory_sound k) m.
Proof.
  intros Hm Hst Ha k root. pose proof (so_memory _ Hm) as Hpo. pose proof (switched_on_bootable _ Hm) as Hb. split; [split|].
  - exact (proj1 (powered_on_paged k Hpo)).
  - destruct (bm_heap _ Hb) as (k' & p & E & Hp). by exists k', p.
  - apply kernel_boots; [done|done|done|]. intros s Hs. by apply scheduled_memory.
Qed.
End start.

(** * A concrete machine *)

Lemma demo_powered_on : powered_on demo_e820 demo_kernel_end demo_kmem.
Proof.
  split; [exact demo_map_ok|exact demo_kernel_end_ok| |by vm_compute].
  change (space_pml4 (cr3 (km_vmm demo_kmem))) with demo_root. exact demo_vmm_wf.
Qed.

Definition demo_kirq : @irq_handler_fn (os_t kmem memdisk Heap.heap) simuart := fun s _ => s.

Definition demo_computer : Boot.machine kmem memdisk Heap.heap simuart :=
  Boot.mk_machine
    (mk_os (mk_io (mk_sched [] 0 0 (-1) demo_kmem) no_pipes (mk_keyboard false (ring_buffer_init (replicate 256 0) 1))
                  demo_video demo_static demo_memfs) no_processes 1 demo_fs boot_accounts)
    (0, []) None None (replicate 16 None) false.

Lemma demo_switched_on : switched_on demo_e820 demo_kernel_end demo_computer.
Proof. split; [exact demo_powered_on|done..]. Qed.

#[local] Instance demo_shell : ShellEnv kmem := kmem_shell demo_e820.
#[local] Instance demo_boot : BootEnv kmem := kmem_boot demo_e820 demo_kernel_end.

Lemma machine_boots_witness :
  switched_on demo_e820 demo_kernel_end demo_computer /\
  boots 4096 8192 (fun n => n) (fun n => n) demo_kirq demo_kirq
    (memory_sound demo_e820 demo_kernel_end demo_kmem) demo_computer first_files.
Proof.
  split; [exact demo_switched_on|].
  exact (proj1 (proj2 (machine_boots demo_e820 demo_kernel_end 4096 8192 (fun n => n) (fun n => n) demo_kirq demo_kirq
    demo_computer demo_switched_on demo_static_ok (conj eq_refl boot_account_ok))) demo_bad_magic).
Defined.
